(* ===== verification/_CoqProject ===== *)
-Q . S2P
Prelude.v
CLib.v
Util.v
Base64.v
Oid.v
StateMonad.v
ProfileInfo.v
Heap.v
Wp.v
RawData.v
BerTlv.v
TlvWalk.v
LpaMemory.v
ApiError.v
SeMedia.v
Apdu.v
Es10.v
Es10b.v
Bpp.v
Es10c.v
Profiles.v
Activation.v
Notification.v
Ppr.v
Rat.v
Policy.v
Metadata.v
Incoming.v
Download.v
Modem.v
Adaptor.v
Certificate.v
Pending.v
Address.v
Session.v
Platform.v
Driver.v
