(* ===== verification/Prelude.v ===== *)
(** * A verification library for the local profile assistant (LPA SDK)

    The repository is the Linux software of a cellular WAN module. Its part
    with the most logic of its own, and the one modelled here, is the local
    profile assistant: the LPA SDK, under
    [src/src/afal/adapter_product/lpa/common/LPA_SDK/], written in C, which
    manages the profiles of an eUICC behind the modem (GSMA SGP.22). The paths
    below are relative to it; [core/], [driver/] and [platform_adaptor/] are
    folders of its [src/].

    ** The program

    A call of the API ([src/lpasdk_api.c]) reaches the manager
    ([core/lpa_manager.c]), which talks to the operator's server (ES9+, JSON
    over HTTP) and to the eUICC (ES10b and ES10c, BER-TLV objects in STORE DATA
    commands). Requests and answers go down

      [lpa_manager.c] -> [lpa_manager_es10b.c], [lpa_manager_es10c.c]
        -> [lpa_manager_helper.c], [isdr_applet_manager.c] (APDUs)
        -> [semedia_manager.c] (chained responses, status words)
        -> [semedia_genericmodem.c] (AT commands)
        -> [plat_lpa_adaptor_*.cpp] (AT over MBIM) -> the modem.

    The layers share [bertlv_object.c] (objects), [rawdata_object.c] (byte
    strings), [lpa_memory.c] (the allocator), [util.c] (conversions) and the
    error variable of [lpasdk_api.c]; each keeps its state in static variables.

    ** How it is modelled

    Definitions have the names of the C functions, and take their branches in
    the order of the code. Integers are [Z] with the wrap-around of their width
    written out ([u8] to [u64]); an array is the list of all its cells; an
    access outside of an array, a call of [NULL] and the other undefined
    behaviours are the outcome [None]. An argument that the code compares with
    [NULL] is an option; an output parameter is passed in and returned.

    Code without pointers to allocated objects runs in the state monad [ST]
    (StateMonad.v), on a record of its static variables. Code that allocates
    runs in the monad [M] of Heap.v, on a heap of typed blocks, an oracle that
    decides which allocations fail, and a record of the static variables below
    it; [zoom] lifts a layer's code to the record of the layer above.
    Properties of heap code are triples of the linear separation logic of Wp.v:
    [triple nf P m g Phi] says that [m], started on blocks that satisfy [P]
    beside any others, has no undefined behaviour, terminates, and leaves
    exactly the blocks its postcondition lists, so that nothing leaks; [nf]
    restricts the runs to those in which no allocation fails. Theorems that
    hold with failing allocations leave [nf] free.

    Third-party code is a parameter: the driver behind [semedia_base.h]
    (SeMedia.v; what a session needs of it is the class [Media] of Session.v),
    the delivery of a text to a server (class [Server], Pending.v), the port to
    the modem (class [Port], Modem.v), implemented by Adaptor.v over the MBIM
    service, which is the parameter [AfalMbimAtOverMbimSetSync].

    ** The files

    Foundations.
    - Prelude.v: integers, arrays ([.[i]], [rd_range], [wr_range]), bytes in
      big-endian order, arithmetic automation.
    - CLib.v: [strlen], [atoi], [sprintf] and the like on arrays of characters.
    - StateMonad.v, Heap.v, Wp.v: the two monads and the logic.
    - ProfileInfo.v: the structures of [lpasdk_api.h] that describe profiles.

    Bytes and objects.
    - Util.v, Base64.v, Oid.v: [core/util.c] and [Extra/base64/base64.c].
      Hexadecimal text, base 64 and object identifiers round trip; BER lengths
      are those of the standard; every routine that can leave its buffer is
      given with the exact condition.
    - RawData.v: [core/rawdata_object.c], byte strings that grow.
    - BerTlv.v: [core/bertlv_object.c]. The parsers agree with reference
      parsers on lists ([first_tag], [parse_list]), read nothing outside of
      their data (with one exception, stated), read back what is encoded, and
      give back all they allocate.
    - TlvWalk.v: the loops of the clients over lists of objects.
    - LpaMemory.v: [core/lpa_memory.c] byte by byte. The allocator refines a
      map from live blocks to contents; overruns of a block are found.

    The way to the card.
    - ApiError.v: [_errorCode] of [lpasdk_api.c], which keeps the first error.
    - SeMedia.v: [core/semedia_manager.c]. A chained response is the pieces put
      together; the loop ends for every card that sends some data each time.
    - Apdu.v: [core/lpa_manager_helper.c], [core/isdr_applet_manager.c]. A byte
      string is sent as numbered STORE DATA commands that put together are the
      string, only the last marked as last.
    - Modem.v: [driver/semedia_genericmodem.c] and [core/semedia_base.c]. The
      driver is a state machine whose reachable states satisfy an invariant; an
      exchange of APDUs refines one exchange of AT commands.
    - Adaptor.v: [plat_lpa_adaptor_fm350.cpp], [plat_lpa_adaptor_qc151.cpp] and
      the functions of [lpa.cpp] they use; it fills the interface of Modem.v.

    Requests to the eUICC.
    - Es10.v: what the two files of requests share; the record [sdk] of all
      static variables.
    - Es10b.v: [core/lpa_manager_es10b.c] without the installation: the
      challenge, authentication, preparation of a download, cancellation, rules.
    - Bpp.v: the installation of a bound profile package, of the same file. It
      refines the program [install], which needs no heap; the card receives the
      package cut into segments, in order, up to the first refusal.
    - Es10c.v, Profiles.v: [core/lpa_manager_es10c.c] and the calls of
      [lpa_manager.c] around it; a list of profiles is read back, and the
      structures are well formed whatever the card answers.

    The manager ([core/lpa_manager.c]).
    - Activation.v: activation codes, against their grammar.
    - Notification.v: the sort of pending notifications is a stable sort.
    - Ppr.v, Rat.v, Policy.v: the profile policy rules of a download, against
      the installed profiles and the rules access table. Policy.v says what a
      table means and that the check decides it.
    - Metadata.v, Incoming.v: the metadata of an incoming profile; what an
      operator describes is what the checks see.
    - Download.v: steps 11 to 16 of [_manageDownloadProfile], composed of the
      parts above; they refine a decision, and a session that is refused is
      cancelled at the server, unless the application forbids it.
    - Certificate.v: the registered identifier of a certificate and the check
      of it against the activation code; an encoded certificate is read back,
      as far as the code gets: an extension with an identifier of other than
      three bytes ends its search.
    - Pending.v: the list of the notifications of the eUICC, their retrieval,
      delivery and removal. The delivery over HTTP is the class [Server]; the
      order of all steps refines the relation [deliveries]: a notification is
      removed after a server accepted it, and only then.
    - Address.v: the addresses of the servers that the eUICC holds, and the
      comparison of the last address that a server has signed with the one
      contacted; the blocks of the others are lost.
    - Session.v: the connection of the reader and the selection of the ISD-R,
      and the functions of [lpa_manager_api.c] and [lpasdk_api.c] inside such a
      session: no session is left behind without an error, whatever the
      operation does that returns. The driver is any that satisfies the class
      [Media], and the card one that ends the exchange of SELECT.
    - Platform.v: what the modem driver needs of its port to return, the class
      [AnsweringPort], and the adaptor as an implementation of it, on the
      platforms that take AT+CSIM and on the MTK platform, for modems that
      finish their answers. After an answer that is not finished, as a plain
      ERROR on the MTK platform, the driver and the adaptor write behind the
      response buffer.
    - Driver.v: over such a port the functions of the modem driver that a
      session calls return; so the driver is an instance of [Media].

    ** Bounds and fuel

    Loops of the code that are not bounded by their data take fuel, and each
    is given enough. The parsers of BerTlv.v take the size of the data, since
    every object has a header; loops over lists take the number of live blocks,
    since every round visits another one (a cyclic list would run out of it,
    which is the outcome [None]). The loop over a chained response takes 8193
    rounds, one more than its buffer has bytes: SeMedia.v proves that a card
    which sends data each time does not exhaust them and that one which sends
    none makes the loop run for ever. The loop of STORE DATA commands takes the
    size of the object, of which each round sends a byte at least; the sort
    takes one round less than there are elements; the modem's answer is read at
    most [GM_RETRIEVE_RESPONSE_TIMEOUT] times, as in the code. Decimal numbers
    have at most 20 digits. Sizes are below [2 ^ 32], or below [2 ^ 23] and
    [2 ^ 24] where an object has to be built, so that BER lengths of three
    bytes express them.

    ** Not modelled

    The messages of ES9+ ([core/lpa_manager_es9plus.c]) are JSON texts built
    and read with cJSON, third-party code, and sent over HTTP
    ([core/httpmedia_manager.c], a dispatcher to a driver of libcurl). The
    steps of a download that go to the server depend on them, and with them the
    four functions of the API that download a profile. The parameters of the
    configuration are tables of names and values. [core/lpa_config_file.c] and
    [core/lpa_log.c] are file input and output; [driver/semedia_winscard.c]
    calls the PC/SC library behind the interface that SeMedia.v states. Outside
    of the LPA SDK the repository is C++ around system services and vendor
    libraries, and command-line tools for USB, PCIe and adb.
    Log messages, with their formatted texts, are not modelled anywhere. *)

From Stdlib Require Export ZArith Lia Bool ZifyBool.
From stdpp Require Export base numbers option tactics list.

#[global] Set Default Goal Selector "!".
#[global] Open Scope Z_scope.

(** ** Machine integers

    Unsigned C integers are [Z] values in range; arithmetic that the code may
    wrap is wrapped explicitly with these functions. *)

Definition u8 (z : Z) : Z := z mod 2^8.
Definition u16 (z : Z) : Z := z mod 2^16.
Definition u32 (z : Z) : Z := z mod 2^32.
Definition u64 (z : Z) : Z := z mod 2^64.

Definition is_byte (z : Z) : Prop := 0 <= z < 256.
Definition size_t_max : Z := 2^64.

#[export] Instance is_byte_dec z : Decision (is_byte z).
Proof. unfold is_byte. apply _. Defined.

(** [Z] view of a list's length (the [size_t] the code computes with). *)
Definition zlen {A} (l : list A) : Z := Z.of_nat (length l).

(** ** C arrays

    A C array is the list of its elements; an access outside of it is
    undefined behaviour, [None]. *)

Definition rd {A} (b : list A) (i : Z) : option A :=
  if 0 <=? i then b !! Z.to_nat i else None.

Definition wr {A} (b : list A) (i : Z) (v : A) : option (list A) :=
  if (0 <=? i) && (i <? zlen b) then Some (<[Z.to_nat i := v]> b) else None.

(** [memcpy]: [n] elements of [src] from offset [o]. *)
Definition rd_range {A} (src : list A) (o n : Z) : option (list A) :=
  if (0 <=? o) && (0 <=? n) && (o + n <=? zlen src)
  then Some (take (Z.to_nat n) (drop (Z.to_nat o) src)) else None.

(** [memcpy]: writes [vs] at offset [o] of [dst]. *)
Definition wr_range {A} (dst : list A) (o : Z) (vs : list A) : option (list A) :=
  if (0 <=? o) && (o + zlen vs <=? zlen dst)
  then Some (take (Z.to_nat o) dst ++ vs ++ drop (Z.to_nat o + length vs) dst)
  else None.

(** [memset] of a whole prefix. *)
Definition fill (v n : Z) : list Z := replicate (Z.to_nat n) v.

Arguments zlen : simpl never.
Arguments rd : simpl never.
Arguments wr : simpl never.
Arguments rd_range : simpl never.
Arguments wr_range : simpl never.

Declare Scope lpa_scope.
Delimit Scope lpa_scope with lpa.
Notation "b .[ i ]" := (rd b i) (at level 1, i at level 200, left associativity, format "b .[ i ]") : lpa_scope.
Notation "b .[ i := v ]" := (wr b i v) (at level 1, i at level 200, v at level 200, left associativity, format "b .[ i := v ]") : lpa_scope.
#[global] Open Scope lpa_scope.

(** ** Automation *)

Create HintDb lpa discriminated.
#[export] Hint Constants Opaque : lpa.

(** Turns boolean tests on [Z] into propositions. *)
Ltac zprop :=
  repeat match goal with
  | H : (_ <=? _) = true |- _ => apply Z.leb_le in H
  | H : (_ <=? _) = false |- _ => apply Z.leb_gt in H
  | H : (_ <? _) = true |- _ => apply Z.ltb_lt in H
  | H : (_ <? _) = false |- _ => apply Z.ltb_ge in H
  | H : (_ =? _) = true |- _ => apply Z.eqb_eq in H
  | H : (_ =? _) = false |- _ => apply Z.eqb_neq in H
  | H : (_ >? _) = true |- _ => rewrite Z.gtb_ltb in H; apply Z.ltb_lt in H
  | H : (_ >? _) = false |- _ => rewrite Z.gtb_ltb in H; apply Z.ltb_ge in H
  | H : (_ >=? _) = true |- _ => rewrite Z.geb_leb in H; apply Z.leb_le in H
  | H : (_ >=? _) = false |- _ => rewrite Z.geb_leb in H; apply Z.leb_gt in H
  | H : (_ && _) = true |- _ => apply andb_true_iff in H as [? ?]
  | H : (_ && _) = false |- _ => apply andb_false_iff in H
  | H : (_ || _) = true |- _ => apply orb_true_iff in H
  | H : (_ || _) = false |- _ => apply orb_false_iff in H as [? ?]
  | H : negb _ = true |- _ => apply negb_true_iff in H
  | H : negb _ = false |- _ => apply negb_false_iff in H
  end.

(** Splits on the tests of the goal, one at a time. *)
Ltac ztest :=
  match goal with
  | |- context [if ?b then _ else _] =>
      lazymatch b with
      | context [if _ then _ else _] => fail
      | _ => let E := fresh "E" in destruct b eqn:E; zprop
      end
  end.

Ltac zsolve := zprop; repeat match goal with H : _ \/ _ |- _ => destruct H; zprop end; lia.

(** Linear arithmetic with division and modulo by constants. *)
Ltac pows :=
  change (2 ^ 4) with 16 in *; change (2 ^ 8) with 256 in *; change (2 ^ 16) with 65536 in *;
  change (2 ^ 24) with 16777216 in *; change (2 ^ 32) with 4294967296 in *.
Ltac dlia := pows; Z.to_euclidean_division_equations; lia.

(** Replaces a test of the goal whose outcome arithmetic decides. *)
Ltac ztrue b := let H := fresh in assert (b = true) as H by lia; rewrite H; clear H.
Ltac zfalse b := let H := fresh in assert (b = false) as H by lia; rewrite H; clear H.

(** The same, with division and modulo. *)
Ltac dfalse b := let H := fresh in assert (b = false) as H by dlia; rewrite H; clear H.
Ltac dtrue b := let H := fresh in assert (b = true) as H by dlia; rewrite H; clear H.

(** ** Lengths *)

Section lengths.
Context {A : Type}.
Implicit Types (l k : list A).

Lemma zlen_nil : zlen ([] : list A) = 0.
Proof. done. Qed.

Lemma zlen_cons x l : zlen (x :: l) = 1 + zlen l.
Proof. unfold zlen. cbn [length]. lia. Qed.

Lemma zlen_app l k : zlen (l ++ k) = zlen l + zlen k.
Proof. unfold zlen. rewrite length_app. lia. Qed.

Lemma zlen_nonneg l : 0 <= zlen l.
Proof. unfold zlen. lia. Qed.

Lemma zlen_replicate n (x : A) : zlen (replicate n x) = Z.of_nat n.
Proof. unfold zlen. by rewrite length_replicate. Qed.

Lemma zlen_take n l : zlen (take n l) = Z.min (Z.of_nat n) (zlen l).
Proof. unfold zlen. rewrite length_take. lia. Qed.

Lemma zlen_drop n l : zlen (drop n l) = Z.max 0 (zlen l - Z.of_nat n).
Proof. unfold zlen. rewrite length_drop. lia. Qed.

Lemma zlen_insert (i : nat) (x : A) l : zlen (<[i := x]> l) = zlen l.
Proof. unfold zlen. by rewrite length_insert. Qed.

Lemma zlen_to_nat l : Z.to_nat (zlen l) = length l.
Proof. unfold zlen. lia. Qed.

Lemma zlen_0_inv l : zlen l = 0 → l = [].
Proof. destruct l; [done|]. rewrite zlen_cons. pose proof (zlen_nonneg l). lia. Qed.
End lengths.

Create Rewrite HintDb zlen.
#[export] Hint Rewrite @zlen_nil @zlen_cons @zlen_app @zlen_replicate @zlen_take @zlen_drop
  @zlen_insert @zlen_to_nat : zlen.

Lemma zlen_fmap {A B} (f : A → B) (l : list A) : zlen (f <$> l) = zlen l.
Proof. unfold zlen. by rewrite length_fmap. Qed.
#[export] Hint Rewrite @zlen_fmap : zlen.

Lemma zlen_fill v n : 0 <= n → zlen (fill v n) = n.
Proof. intros Hn. unfold fill. rewrite zlen_replicate. lia. Qed.

Ltac zlen_pos :=
  repeat match goal with
  | |- context [zlen ?l] =>
      lazymatch goal with H : 0 <= zlen l |- _ => fail | _ => pose proof (zlen_nonneg l) end
  | _ : context [zlen ?l] |- _ =>
      lazymatch goal with H : 0 <= zlen l |- _ => fail | _ => pose proof (zlen_nonneg l) end
  end.

(** Linear arithmetic over list lengths. *)
Ltac zlia := autorewrite with zlen in *; zlen_pos; zsolve.

(** ** Array accesses *)

Section arrays.
Context {A : Type}.
Implicit Types (b l k : list A) (i : Z) (v : A).

Lemma rd_Some_range b i v : rd b i = Some v → 0 <= i < zlen b.
Proof.
  unfold rd, zlen. ztest; [|done]. intros H%lookup_lt_Some. lia.
Qed.

Lemma rd_is_Some b i : 0 <= i < zlen b → ∃ v, rd b i = Some v ∧ v ∈ b.
Proof.
  intros [? Hi]. unfold rd, zlen in *. ztrue (0 <=? i).
  destruct (lookup_lt_is_Some_2 b (Z.to_nat i)) as [v Hv]; [lia|].
  exists v. split; [done|]. by eapply list_elem_of_lookup_2.
Qed.

Lemma rd_nat b (n : nat) : rd b (Z.of_nat n) = b !! n.
Proof. unfold rd. ztrue (0 <=? Z.of_nat n). by rewrite Nat2Z.id. Qed.

Lemma rd_None b i : rd b i = None ↔ ¬ 0 <= i < zlen b.
Proof.
  split.
  - intros H Hi. destruct (rd_is_Some b i Hi) as (? & ? & _). congruence.
  - intros Hi. destruct (rd b i) eqn:E; [|done].
    by apply rd_Some_range in E.
Qed.

Lemma rd_app_l l k i : 0 <= i < zlen l → rd (l ++ k) i = rd l i.
Proof. unfold rd, zlen. intros ?. ztrue (0 <=? i). apply lookup_app_l. lia. Qed.

Lemma rd_app_r l k i : zlen l <= i → rd (l ++ k) i = rd k (i - zlen l).
Proof.
  unfold rd, zlen. intros ?. ztrue (0 <=? i). ztrue (0 <=? i - Z.of_nat (length l)).
  rewrite lookup_app_r by lia. f_equal. lia.
Qed.

Lemma rd_cons_0 v l : rd (v :: l) 0 = Some v.
Proof. done. Qed.

Lemma rd_cons_pos v l i : 0 < i → rd (v :: l) i = rd l (i - 1).
Proof.
  intros ?. unfold rd. ztrue (0 <=? i). ztrue (0 <=? i - 1).
  replace (Z.to_nat i) with (S (Z.to_nat (i - 1))) by lia. done.
Qed.

Lemma wr_Some b i v : 0 <= i < zlen b → wr b i v = Some (<[Z.to_nat i := v]> b).
Proof. intros ?. unfold wr. by ztrue ((0 <=? i) && (i <? zlen b)). Qed.

Lemma wr_None b i v : wr b i v = None ↔ ¬ 0 <= i < zlen b.
Proof. unfold wr. ztest; split; intros; try done; zsolve. Qed.

Lemma wr_Some_inv b i v b' :
  wr b i v = Some b' → 0 <= i < zlen b ∧ b' = <[Z.to_nat i := v]> b.
Proof. unfold wr. ztest; [|done]. intros [= <-]. split; [lia|done]. Qed.

(** Writing the cell next to a filled prefix. *)
Lemma wr_app_next l v w k :
  wr (l ++ w :: k) (zlen l) v = Some (l ++ v :: k).
Proof.
  rewrite wr_Some by zlia. f_equal. rewrite zlen_to_nat.
  rewrite insert_app_r_alt by lia. by rewrite Nat.sub_diag.
Qed.

(** The same, as a growing prefix. *)
Lemma wr_at l v w k i : i = zlen l → wr (l ++ w :: k) i v = Some ((l ++ [v]) ++ k).
Proof. intros ->. by rewrite wr_app_next, <-app_assoc. Qed.

Lemma rd_at l v k i : i = zlen l → rd (l ++ v :: k) i = Some v.
Proof. intros ->. by rewrite rd_app_r, Z.sub_diag by lia. Qed.

Lemma rd_range_Some b i n :
  0 <= i → 0 <= n → i + n <= zlen b →
  rd_range b i n = Some (take (Z.to_nat n) (drop (Z.to_nat i) b)).
Proof. intros. unfold rd_range. by ztrue ((0 <=? i) && (0 <=? n) && (i + n <=? zlen b)). Qed.

Lemma rd_range_length b i n vs :
  rd_range b i n = Some vs → zlen vs = n ∧ 0 <= i ∧ 0 <= n ∧ i + n <= zlen b.
Proof.
  unfold rd_range. ztest; [|done]. intros [= <-]. rewrite zlen_take, zlen_drop. lia.
Qed.

Lemma rd_range_None b i n :
  0 <= i → 0 <= n → zlen b < i + n → rd_range b i n = None.
Proof. intros. unfold rd_range. by zfalse ((0 <=? i) && (0 <=? n) && (i + n <=? zlen b)). Qed.

Lemma rd_range_all b n : n = zlen b → rd_range b 0 n = Some b.
Proof.
  intros ->. rewrite rd_range_Some by zlia.
  cbn [drop]. by rewrite zlen_to_nat, firstn_all.
Qed.

Lemma wr_range_Some b i vs :
  0 <= i → i + zlen vs <= zlen b →
  wr_range b i vs =
    Some (take (Z.to_nat i) b ++ vs ++ drop (Z.to_nat i + length vs) b).
Proof. intros. unfold wr_range. by ztrue ((0 <=? i) && (i + zlen vs <=? zlen b)). Qed.

Lemma wr_range_zlen b i vs b' : wr_range b i vs = Some b' → zlen b = zlen b'.
Proof.
  unfold wr_range. ztest; [|done]. intros [= <-].
  rewrite !zlen_app, zlen_take, zlen_drop. zlen_pos. unfold zlen in *. lia.
Qed.

(** Overwriting exactly the middle part of an array. *)
Lemma wr_range_mid l m k vs :
  length vs = length m →
  wr_range (l ++ m ++ k) (zlen l) vs = Some (l ++ vs ++ k).
Proof.
  intros Hl. rewrite wr_range_Some; [|zlia|].
  - f_equal. rewrite zlen_to_nat, take_app_length. f_equal. f_equal.
    rewrite Hl, app_assoc. rewrite <-length_app. apply drop_app_length.
  - rewrite !zlen_app. pose proof (zlen_nonneg k). unfold zlen in *. lia.
Qed.

Lemma wr_range_single b i v :
  0 <= i < zlen b → wr_range b i [v] = Some (<[Z.to_nat i := v]> b).
Proof.
  intros Hi. rewrite wr_range_Some; [|lia|change (zlen [v]) with 1; lia].
  rewrite insert_take_drop by (unfold zlen in Hi; lia). do 3 f_equal.
  by rewrite Nat.add_1_r.
Qed.
End arrays.

(** Writes into the first cells of an array. *)
Lemma wr_cell0 {A} (x v : A) l : (x :: l).[0 := v] = Some (v :: l).
Proof. rewrite wr_Some by zlia. done. Qed.
Lemma wr_cell1 {A} (x y v : A) l : (x :: y :: l).[1 := v] = Some (x :: v :: l).
Proof. rewrite wr_Some by zlia. done. Qed.
Lemma wr_cell2 {A} (x y z v : A) l : (x :: y :: z :: l).[2 := v] = Some (x :: y :: v :: l).
Proof. rewrite wr_Some by zlia. done. Qed.
Lemma wr_cell3 {A} (x y z t v : A) l :
  (x :: y :: z :: t :: l).[3 := v] = Some (x :: y :: z :: v :: l).
Proof. rewrite wr_Some by zlia. done. Qed.
Lemma wr_cell4 {A} (x y z t u v : A) l :
  (x :: y :: z :: t :: u :: l).[4 := v] = Some (x :: y :: z :: t :: v :: l).
Proof. rewrite wr_Some by zlia. done. Qed.
Lemma rd_cell0 {A} (x : A) l : (x :: l).[0] = Some x.
Proof. done. Qed.
Lemma rd_cell1 {A} (x y : A) l : (x :: y :: l).[1] = Some y.
Proof. done. Qed.
Lemma rd_cell2 {A} (x y z : A) l : (x :: y :: z :: l).[2] = Some z.
Proof. done. Qed.
Lemma rd_cell3 {A} (x y z t : A) l : (x :: y :: z :: t :: l).[3] = Some t.
Proof. done. Qed.
Create Rewrite HintDb cells.
#[export] Hint Rewrite @rd_cell0 @rd_cell1 @rd_cell2 @rd_cell3 : cells.
#[export] Hint Rewrite @wr_cell0 @wr_cell1 @wr_cell2 @wr_cell3 @wr_cell4 : cells.

(** Reduces the writes of a straight-line body on an array with named cells. *)
Ltac cells := repeat (first [progress autorewrite with cells | progress cbn [mbind option_bind]]).

(** ** Words and bytes *)

Lemma land_255 z : Z.land z 0xFF = z mod 256.
Proof. change 0xFF with (Z.ones 8). by rewrite Z.land_ones by lia. Qed.

(** Masking one byte of a word and shifting it down. *)
Lemma land_mask_shiftr z k :
  0 <= k → Z.shiftr (Z.land z (Z.shiftl 0xFF k)) k = (z / 2 ^ k) mod 256.
Proof.
  intros Hk. rewrite Z.shiftr_land, Z.shiftr_shiftl_l by lia.
  rewrite Z.sub_diag, Z.shiftl_0_r, land_255, Z.shiftr_div_pow2 by lia. done.
Qed.

(** Appending a byte below a shifted word. *)
Lemma lor_shiftl_add a b k :
  0 <= k → 0 <= b < 2 ^ k → Z.lor (Z.shiftl a k) b = a * 2 ^ k + b.
Proof.
  intros Hk Hb. rewrite <-Z.add_nocarry_lor; [by rewrite Z.shiftl_mul_pow2 by done|].
  apply Z.bits_inj'. intros n Hn. rewrite Z.land_spec, Z.bits_0.
  destruct (Z.lt_ge_cases n k) as [Hlt|Hge].
  - by rewrite Z.shiftl_spec_low by done.
  - apply andb_false_intro2. destruct (Z.eq_dec b 0) as [->|]; [apply Z.bits_0|].
    apply Z.bits_above_log2; [lia|].
    apply Z.lt_le_trans with k; [|done]. apply Z.log2_lt_pow2; [lia|by destruct Hb].
Qed.

Lemma is_byte_u8 z : is_byte (z mod 256).
Proof. unfold is_byte. apply Z.mod_pos_bound. lia. Qed.

Lemma Forall_rd {A} (P : A → Prop) b i v : Forall P b → rd b i = Some v → P v.
Proof.
  unfold rd. ztest; [|done]. intros HP Hv. by eapply Forall_lookup_1.
Qed.

Lemma is_byte_rd b i v : Forall is_byte b → rd b i = Some v → 0 <= v < 256.
Proof. intros Hb Hv. exact (Forall_rd is_byte b i v Hb Hv). Qed.

#[export] Hint Resolve is_byte_u8 : lpa.

(** A boolean property of a bounded range, by evaluation. *)
Lemma check_range (f : Z → bool) k n :
  forallb f (seqZ 0 k) = true → 0 <= n < k → f n = true.
Proof.
  intros Hf Hn. rewrite forallb_forall in Hf. apply Hf.
  apply list_elem_of_In, elem_of_seqZ. lia.
Qed.
