(* ===== verification/CLib.v ===== *)
(** * The C library functions the LPA SDK uses, in the "C" locale

    Characters are the [unsigned char] values [0 .. 255]; a C string is the
    list of its characters before the terminating NUL, a [char] array is the
    list of all its cells. *)

From Stdlib Require String Ascii.
From S2P Require Import Prelude.

(** ** <ctype.h> *)

Definition isdigit (c : Z) : bool := (48 <=? c) && (c <=? 57).
Definition isupper (c : Z) : bool := (65 <=? c) && (c <=? 90).
Definition islower (c : Z) : bool := (97 <=? c) && (c <=? 122).
Definition isxdigit (c : Z) : bool :=
  isdigit c || ((65 <=? c) && (c <=? 70)) || ((97 <=? c) && (c <=? 102)).
(** space, \t \n \v \f \r *)
Definition isspace (c : Z) : bool := (c =? 32) || ((9 <=? c) && (c <=? 13)).
Definition toupper (c : Z) : Z := if islower c then c - 32 else c.
Definition tolower (c : Z) : Z := if isupper c then c + 32 else c.

(** ** <string.h> *)

Definition cstr_ok (s : list Z) : Prop := Forall (λ c, 0 < c < 256) s.

(** Length of the string stored in an array; [None] when the array holds no
    NUL, in which case [strlen] reads past its end. *)
Fixpoint strlen (b : list Z) : option Z :=
  match b with
  | [] => None
  | c :: b' => if c =? 0 then Some 0 else n ← strlen b'; Some (1 + n)
  end.

Definition streqb (s t : list Z) : bool := bool_decide (s = t).

(** [strcspn s reject]: length of the prefix with no character of [reject]. *)
Fixpoint strcspn (s reject : list Z) : Z :=
  match s with
  | [] => 0
  | c :: s' => if existsb (Z.eqb c) reject then 0 else 1 + strcspn s' reject
  end.

(** The characters of a Rocq string literal. *)
Fixpoint chars (s : String.string) : list Z :=
  match s with
  | String.EmptyString => []
  | String.String a s' => Z.of_nat (Ascii.nat_of_ascii a) :: chars s'
  end.

(** The string a pointer into an array designates: the cells from there to the
    first NUL; [None] when there is none, and reading on is undefined. *)
Fixpoint c_str (b : list Z) : option (list Z) :=
  match b with
  | [] => None
  | c :: b' => if c =? 0 then Some [] else s ← c_str b'; Some (c :: s)
  end.

Fixpoint is_prefix (t s : list Z) : bool :=
  match t, s with
  | [], _ => true
  | c :: t', d :: s' => (c =? d) && is_prefix t' s'
  | _ :: _, [] => false
  end.

(** [strstr s t]: the string from the first occurrence of [t] in [s] on. *)
Fixpoint strstr (s t : list Z) : option (list Z) :=
  if is_prefix t s then Some s
  else match s with [] => None | _ :: s' => strstr s' t end.

Definition contains (s t : list Z) : bool :=
  match strstr s t with Some _ => true | None => false end.

(** [strncpy(b, s, n)]: [n] cells, padded with NULs. *)
Definition strncpy (b s : list Z) (n : Z) : option (list Z) :=
  wr_range b 0 (take (Z.to_nat n) (s ++ replicate (Z.to_nat n) 0)).

(** [strncat(b, s, n)]: at most [n] characters of [s] and a NUL, behind the
    string in [b]. *)
Definition strncat (b s : list Z) (n : Z) : option (list Z) :=
  l ← strlen b; wr_range b l (take (Z.to_nat n) s ++ [0]).

(** ** <stdio.h> conversions *)

Definition hex_upper (n : Z) : Z := if n <? 10 then 48 + n else 55 + n.

(** "%02X" of a byte. *)
Definition fmt_02X (v : Z) : list Z := [hex_upper (v / 16); hex_upper (v mod 16)].

(** "%llu": decimal digits, most significant first. *)
Fixpoint dec_digits (fuel : nat) (n : Z) (acc : list Z) : list Z :=
  match fuel with
  | O => acc
  | S f => let acc' := (48 + n mod 10) :: acc in
           if n <? 10 then acc' else dec_digits f (n / 10) acc'
  end.

(** 20 digits are enough for an [unsigned long long]. *)
Definition fmt_llu (n : Z) : list Z := dec_digits 20 n [].

(** "%d" of an [int]. *)
Definition fmt_d (n : Z) : list Z := if n <? 0 then 45 :: fmt_llu (- n) else fmt_llu n.

(** What [snprintf] leaves in a buffer of [n] bytes, before the NUL. *)
Definition snprintf (n : Z) (s : list Z) : list Z := take (Z.to_nat (n - 1)) s.

(** ** <stdlib.h> [strtol] in base 10 *)

Definition long_max : Z := 2^63 - 1.
Definition long_min : Z := - 2^63.

Fixpoint skip_spaces (s : list Z) : nat :=
  match s with
  | c :: s' => if isspace c then S (skip_spaces s') else O
  | [] => O
  end.

(** Value and number of the leading decimal digits. *)
Fixpoint strtol_digits (s : list Z) (acc : Z) : Z * nat :=
  match s with
  | c :: s' =>
      if isdigit c then let '(v, n) := strtol_digits s' (acc * 10 + (c - 48)) in (v, S n)
      else (acc, O)
  | [] => (acc, O)
  end.

(** Result and number of characters consumed: none when there is no digit. *)
Definition strtol10 (s : list Z) : Z * nat :=
  let w := skip_spaces s in
  let s1 := drop w s in
  let '(neg, g) := match s1 with
                   | 45 :: _ => (true, 1%nat)
                   | 43 :: _ => (false, 1%nat)
                   | _ => (false, 0%nat)
                   end in
  let '(v, n) := strtol_digits (drop g s1) 0 in
  match n with
  | O => (0, O)
  | _ => (Z.max long_min (Z.min long_max (if neg then - v else v)), (w + g + n)%nat)
  end.

(** The [int] in the low half of an integer, and [atoi]. *)
Definition s32 (z : Z) : Z := (z + 2^31) mod 2^32 - 2^31.
Definition atoi (s : list Z) : Z := s32 (fst (strtol10 s)).

(** Value of a hexadecimal digit. *)
Definition xdigit (c : Z) : Z :=
  if isdigit c then c - 48 else if isupper c then c - 55 else c - 87.

Fixpoint strtol_xdigits (s : list Z) (acc : Z) : Z * nat :=
  match s with
  | c :: s' =>
      if isxdigit c then let '(v, n) := strtol_xdigits s' (acc * 16 + xdigit c) in (v, S n)
      else (acc, O)
  | [] => (acc, O)
  end.

(** [strtol(s, NULL, 16)]: blanks, a sign, an optional 0x before a digit. *)
Definition strtol16 (s : list Z) : Z :=
  let s1 := drop (skip_spaces s) s in
  let '(neg, s2) := match s1 with
                    | 45 :: s2 => (true, s2)
                    | 43 :: s2 => (false, s2)
                    | _ => (false, s1)
                    end in
  let s3 := match s2 with
            | 48 :: x :: c :: k =>
                if ((x =? 120) || (x =? 88)) && isxdigit c then c :: k else s2
            | _ => s2
            end in
  let '(v, n) := strtol_xdigits s3 0 in
  match n with
  | O => 0
  | _ => Z.max long_min (Z.min long_max (if neg then - v else v))
  end.

(** ** Lemmas *)

Lemma strlen_app s k :
  Forall (λ c, c ≠ 0) s → strlen (s ++ 0 :: k) = Some (zlen s).
Proof.
  induction 1 as [|c s Hc Hs IH]; [done|]. cbn [app strlen].
  zfalse (c =? 0). rewrite IH. cbn. by rewrite zlen_cons.
Qed.

Lemma strlen_Some b n :
  strlen b = Some n → ∃ s k, b = s ++ 0 :: k ∧ n = zlen s ∧ Forall (λ c, c ≠ 0) s.
Proof.
  revert n. induction b as [|c b IH]; [done|]. cbn [strlen]. intros n.
  ztest; [intros [= <-]; by exists [], b; subst|].
  destruct (strlen b) as [m|]; [|done]. cbn. intros [= <-].
  destruct (IH m eq_refl) as (s & k & -> & -> & Hs).
  exists (c :: s), k. rewrite zlen_cons. repeat split; by constructor.
Qed.

Lemma cstr_ok_nonzero s : cstr_ok s → Forall (λ c, c ≠ 0) s.
Proof. intros H. eapply Forall_impl; [exact H|]. cbn. lia. Qed.

Lemma streqb_spec s t : streqb s t = true ↔ s = t.
Proof. apply bool_decide_eq_true. Qed.

Lemma fmt_02X_length v : length (fmt_02X v) = 2%nat.
Proof. done. Qed.

Lemma hex_upper_nonzero n : 0 <= n → hex_upper n ≠ 0.
Proof. intros. unfold hex_upper. ztest; lia. Qed.

Lemma fmt_02X_nonzero v : is_byte v → Forall (λ c, c ≠ 0) (fmt_02X v).
Proof.
  unfold is_byte, fmt_02X. intros Hv.
  repeat (apply Forall_cons_2; [apply hex_upper_nonzero; dlia|]). apply Forall_nil_2.
Qed.

(** Upper- and lower-casing only move letters, by 32. *)
Lemma toupper_tolower c : toupper (tolower c) = toupper c.
Proof.
  unfold toupper, tolower, islower, isupper.
  repeat ztest; zsolve.
Qed.

(** ** Decimal text *)

Lemma dec_digits_spec fuel n acc :
  0 <= n → ∃ d, dec_digits fuel n acc = d ++ acc ∧ (length d <= fuel)%nat ∧
    Forall (λ c, isdigit c = true) d.
Proof.
  revert n acc. induction fuel as [|f IH]; intros n acc Hn; cbn [dec_digits].
  { exists []. split; [done|]. split; [cbn; lia|apply Forall_nil_2]. }
  assert (isdigit (48 + n mod 10) = true) as Hd.
  { unfold isdigit. pose proof (Z.mod_pos_bound n 10). lia. }
  ztest.
  - exists [48 + n mod 10]. split; [done|]. split; [cbn; lia|by repeat constructor].
  - destruct (IH (n / 10) ((48 + n mod 10) :: acc)) as (d & -> & Hl & Hds); [dlia|].
    exists (d ++ [48 + n mod 10]). rewrite <-app_assoc, length_app. cbn [length app].
    split; [done|]. split; [lia|]. apply Forall_app. split; [done|by repeat constructor].
Qed.

Lemma fmt_llu_spec n : 0 <= n →
  zlen (fmt_llu n) <= 20 ∧ Forall (λ c, isdigit c = true) (fmt_llu n).
Proof.
  intros Hn. unfold fmt_llu. destruct (dec_digits_spec 20 n [] Hn) as (d & -> & Hl & Hd).
  rewrite app_nil_r. split; [unfold zlen; lia|done].
Qed.

Lemma isdigit_nonzero s : Forall (λ c, isdigit c = true) s → Forall (λ c, c ≠ 0) s.
Proof.
  intros H. eapply Forall_impl; [exact H|]. intros c Hc ->. done.
Qed.

Lemma snprintf_all n s : zlen s < n → snprintf n s = s.
Proof. intros H. unfold snprintf. apply take_ge. unfold zlen in H. lia. Qed.

(** ** Strings in arrays *)

Lemma c_str_app s k : Forall (λ c, c ≠ 0) s → c_str (s ++ 0 :: k) = Some s.
Proof.
  induction 1 as [|c s Hc Hs IH]; [done|]. cbn [app c_str]. zfalse (c =? 0). by rewrite IH.
Qed.

Lemma c_str_Some b s :
  c_str b = Some s → ∃ k, b = s ++ 0 :: k ∧ Forall (λ c, c ≠ 0) s.
Proof.
  revert s. induction b as [|c b IH]; [done|]. cbn [c_str]. intros s.
  ztest; [intros [= <-]; exists b; split; [by subst|apply Forall_nil_2]|].
  destruct (c_str b) as [t|]; [|done]. cbn. intros [= <-].
  destruct (IH t eq_refl) as (k & -> & Ht). exists k. split; [done|by apply Forall_cons_2].
Qed.

Lemma strlen_c_str b : strlen b = zlen <$> c_str b.
Proof.
  induction b as [|c b IH]; [done|]. cbn [strlen c_str]. ztest; [done|].
  rewrite IH. destruct (c_str b) as [s|]; [|done]. cbn. by rewrite zlen_cons.
Qed.

(** The string of an array with a NUL at [i]. *)
Lemma c_str_is_Some (b : list Z) i : b.[i] = Some 0 → is_Some (c_str b).
Proof.
  unfold rd. destruct (0 <=? i); [|done]. intros Hi.
  remember (Z.to_nat i) as n eqn:En. clear i En. revert n Hi.
  induction b as [|c b IH]; intros n Hi; [done|]. cbn [c_str]. ztest; [done|].
  destruct n as [|n]; [by cbn in Hi; simplify_eq|]. destruct (IH n Hi) as [s ->]. done.
Qed.

Lemma is_prefix_spec t s : is_prefix t s = true ↔ ∃ k, s = t ++ k.
Proof.
  revert s. induction t as [|c t IH]; intros s; cbn [is_prefix].
  { split; [by exists s|done]. }
  destruct s as [|d s]; [split; [done|by intros (k & [=])]|].
  rewrite andb_true_iff, IH. split.
  - intros [Hc (k & ->)]. zprop. subst. by exists k.
  - intros (k & [= -> ->]). split; [by apply Z.eqb_eq|by exists k].
Qed.

Lemma strstr_Some s t r : strstr s t = Some r → ∃ p k, s = p ++ r ∧ r = t ++ k.
Proof.
  induction s as [|c s IH]; cbn [strstr]; destruct (is_prefix t _) eqn:E; try done.
  - intros [= <-]. apply is_prefix_spec in E as [k E]. by exists [], k.
  - intros [= <-]. apply is_prefix_spec in E as [k E]. by exists [], k.
  - intros H. destruct (IH H) as (p & k & -> & ->). by exists (c :: p), k.
Qed.

(** The first occurrence, when its first character does not occur before. *)
Lemma strstr_first c t p k :
  c ∉ p → strstr (p ++ (c :: t) ++ k) (c :: t) = Some ((c :: t) ++ k).
Proof.
  induction p as [|d p IH]; intros Hp.
  - cbn [app strstr]. 
    assert (is_prefix (c :: t) (c :: t ++ k) = true) as -> by (apply is_prefix_spec; by exists k). done.
  - apply not_elem_of_cons in Hp as [Hd Hp]. cbn [app strstr is_prefix].
    zfalse (c =? d). cbn [andb]. by apply IH.
Qed.

Lemma strstr_None c t s : c ∉ s → strstr s (c :: t) = None.
Proof.
  induction s as [|d s IH]; intros Hs; [done|].
  apply not_elem_of_cons in Hs as [Hd Hs]. cbn [strstr is_prefix]. zfalse (c =? d). by apply IH.
Qed.

Lemma strstr_prefix t k : strstr (t ++ k) t = Some (t ++ k).
Proof.
  destruct (t ++ k) eqn:E; cbn [strstr];
    rewrite (proj2 (is_prefix_spec t _)) by (by exists k); done.
Qed.

Lemma contains_app s t p k : strstr s t = None → s = p ++ t ++ k → False.
Proof.
  intros H ->. revert H. induction p as [|c p IH]; cbn [app strstr].
  - by rewrite strstr_prefix.
  - destruct (is_prefix t _); [done|]. apply IH.
Qed.

Lemma contains_here p t k : contains (p ++ t ++ k) t = true.
Proof.
  unfold contains. destruct (strstr _ t) eqn:E; [done|]. by destruct (contains_app _ _ p k E).
Qed.

Lemma contains_length s t : contains s t = true → zlen t <= zlen s.
Proof.
  unfold contains. destruct (strstr s t) eqn:E; [|done]. intros _.
  apply strstr_Some in E as (p & k & -> & ->). rewrite !zlen_app. zlen_pos. lia.
Qed.

(** Appending to the string in an array. *)
Lemma strncat_app s t k n :
  Forall (λ c, c ≠ 0) s → zlen t <= n → zlen t < zlen k →
  strncat (s ++ 0 :: k) t n = Some (s ++ t ++ 0 :: drop (length t) k).
Proof.
  intros Hs Hn Hk. unfold strncat. rewrite strlen_app by done. cbn.
  rewrite (take_ge t) by (unfold zlen in *; lia).
  rewrite wr_range_Some by (rewrite ?zlen_app, ?zlen_cons; unfold zlen in *; cbn [length]; lia).
  rewrite zlen_to_nat, take_app_length. do 2 f_equal.
  rewrite <-app_assoc. cbn [app]. do 2 f_equal.
  rewrite length_app, drop_app_ge by lia. cbn [length].
  replace (length s + (length t + 1) - length s)%nat with (S (length t)) by lia. done.
Qed.

Lemma strncpy_zlen b t n b' : strncpy b t n = Some b' → zlen b' = zlen b.
Proof. intros E. symmetry. exact (wr_range_zlen _ _ _ _ E). Qed.

Lemma strncpy_eq b t n :
  0 <= n <= zlen b →
  strncpy b t n = Some (take (Z.to_nat n) (t ++ replicate (Z.to_nat n) 0) ++ drop (Z.to_nat n) b).
Proof.
  intros Hn. unfold strncpy. rewrite wr_range_Some.
  - rewrite take_0. cbn [app]. do 3 f_equal. cbn. rewrite length_take, length_app, length_replicate. lia.
  - lia.
  - rewrite zlen_take, zlen_app, zlen_replicate. zlen_pos. lia.
Qed.

Lemma c_str_length b t : c_str b = Some t → zlen t < zlen b.
Proof.
  intros E. apply c_str_Some in E as (k & -> & _). rewrite zlen_app, zlen_cons. zlen_pos. lia.
Qed.

(** A padded copy of a string that fits. *)
Lemma strncpy_fits b t n :
  zlen t <= n <= zlen b →
  strncpy b t n
  = Some (t ++ replicate (Z.to_nat (n - zlen t)) 0 ++ drop (Z.to_nat n) b).
Proof.
  intros Hn. zlen_pos. rewrite strncpy_eq by lia. rewrite take_app_ge by (unfold zlen in *; lia).
  rewrite take_replicate, <-app_assoc. do 4 f_equal. unfold zlen in *. lia.
Qed.

(** The last cell of a padded copy. *)
Lemma strncpy_last b t n b' :
  0 < n → zlen t <= n → strncpy b t n = Some b' →
  zlen b' = zlen b ∧ n <= zlen b ∧
  (zlen t < zlen b → b.[zlen b - 1] = Some 0 → b'.[zlen b - 1] = Some 0).
Proof.
  intros Hn Ht E. pose proof (strncpy_zlen _ _ _ _ E) as Hl. split; [done|]. zlen_pos.
  assert (n <= zlen b) as Hb.
  { unfold strncpy, wr_range in E. destruct (_ && _) eqn:E' in E; [|done]. zprop.
    rewrite zlen_take, zlen_app, zlen_replicate in *. lia. }
  split; [done|]. intros Hlt Hlast. rewrite strncpy_fits in E by lia. apply (inj Some) in E as <-.
  rewrite rd_app_r by lia. unfold rd in *. destruct (0 <=? zlen b - 1); [|done].
  ztrue (0 <=? zlen b - 1 - zlen t).
  destruct (decide (zlen b = n)).
  - rewrite lookup_app_l by (rewrite length_replicate; lia).
    apply lookup_replicate_2. unfold zlen in *. lia.
  - rewrite lookup_app_r by (rewrite length_replicate; lia).
    rewrite length_replicate, lookup_drop. rewrite <-Hlast. f_equal. lia.
Qed.

Lemma s32_id z : - 2^31 <= z < 2^31 → s32 z = z.
Proof. intros H. unfold s32. rewrite Z.mod_small by lia. lia. Qed.
