(* ===== verification/Util.v ===== *)
(** * util.c: byte and string helpers

    Each definition is the C function of the same name in
    [LPA_SDK/src/core/util.c]. A pointer argument that the function compares
    with [NULL] is an [option]; an output buffer is the list of all its cells,
    passed in and returned; [None] as the outcome of a function is undefined
    behaviour (an access outside of a buffer). *)

From Stdlib Require String.
From S2P Require Import Prelude CLib.
Import Stdlib.Strings.String.StringSyntax.
#[local] Delimit Scope string_scope with string.

(** ** Hexadecimal strings *)

(** The [while] loop; [n] is [dataSize - offsetDataBytes]. *)
Fixpoint formatBytes_loop (n : nat) (d : list Z) (off size : Z) (b : list Z) (max : Z)
    : option (Z * list Z) :=
  match n with
  | O => Some (size, b)
  | S n' =>
      if u64 (size + 3) <? max then
        v ← d.[off];
        b1 ← wr_range b size (fmt_02X v ++ [0]);
        formatBytes_loop n' d (off + 1) (size + 2) b1 max
      else Some (size, b)
  end.

Definition formatBytesToHexaString (ptrDataBytes : option (list Z)) (dataSize : Z)
    (ptrBufferString : option (list Z)) (bufferStringMaxSize : Z)
    : option (Z * option (list Z)) :=
  match ptrDataBytes, ptrBufferString with
  | Some d, Some b =>
      if u64 (u64 (dataSize * 2) + 1) <? bufferStringMaxSize then
        r ← formatBytes_loop (Z.to_nat dataSize) d 0 0 b bufferStringMaxSize;
        Some (fst r, Some (snd r))
      else Some (0, ptrBufferString)
  | _, _ => Some (0, ptrBufferString)
  end.

Definition oneHexCharToHex (h : Z) : Z :=
  if isdigit h then h - 48 else if isupper h then h - 65 + 10 else h - 97 + 10.

Definition int_max : Z := 2^31 - 1.

(** The [for] loop; [n] is the number of pairs left, [i] the [int] index.
    [inl] is the [goto exit]. *)
Fixpoint hexStr_loop (n : nat) (s : list Z) (i outSize outMax : Z) (out : list Z)
    : option (list Z + Z * list Z) :=
  match n with
  | O => Some (inr (outSize, out))
  | S n' =>
      if outSize >? outMax then Some (inl out) else
      ch1 ← s.[i];
      ch2 ← s.[i + 1];
      if isxdigit ch1 && isxdigit ch2 then
        out1 ← out.[outSize := u8 (Z.lor (Z.shiftl (oneHexCharToHex ch1) 4) (oneHexCharToHex ch2))];
        if i + 2 >? int_max then None else
        hexStr_loop n' s (i + 2) (outSize + 1) outMax out1
      else Some (inl out)
  end.

(** Result, output buffer and [*ptrOutLen]. *)
Definition hexStr2ByteArray (ptrInHexString : option (list Z)) (inLen : Z)
    (ptrOutHex : option (list Z)) (ptrOutLen : option Z)
    : option (bool * option (list Z) * option Z) :=
  match ptrInHexString, ptrOutHex, ptrOutLen with
  | Some s, Some out, Some outputMaxSize =>
      if inLen <=? 1 then Some (false, ptrOutHex, ptrOutLen)
      else if negb (inLen mod 2 =? 0) then Some (false, ptrOutHex, ptrOutLen)
      else
        r ← hexStr_loop (Z.to_nat (inLen / 2)) s 0 0 outputMaxSize out;
        match r with
        | inl out1 => Some (false, Some out1, Some 0)
        | inr (outputSize, out1) =>
            if outputSize <=? outputMaxSize then Some (true, Some out1, Some outputSize)
            else Some (false, Some out1, Some 0)
        end
  | _, _, _ => Some (false, ptrOutHex, ptrOutLen)
  end.

(** ** Integers in byte arrays *)

(** Result, array and [*byteArraySize]; [integerValue] is a [uint16_t], so the
    three-byte branch is dead code. *)
Definition writeIntegerValueToByteArray (integerValue : Z) (ptrByteArray : option (list Z))
    (byteArrayMaxSize : Z) (byteArraySize : option Z)
    : option (bool * option (list Z) * option Z) :=
  match ptrByteArray, byteArraySize with
  | Some b, Some _ =>
      if byteArrayMaxSize >? 0 then
        if integerValue <=? 0xFF then
          if byteArrayMaxSize >=? 1 then
            b1 ← b.[0 := u8 integerValue];
            Some (true, Some b1, Some 1)
          else Some (false, Some b, Some 0)
        else if integerValue <=? 0xFFFF then
          if byteArrayMaxSize >=? 2 then
            b1 ← b.[0 := u8 (Z.shiftr (Z.land integerValue 0xFF00) 8)];
            b2 ← b1.[1 := u8 (Z.land integerValue 0xFF)];
            Some (true, Some b2, Some 2)
          else Some (false, Some b, Some 0)
        else if integerValue <=? 0xFFFFFF then
          if byteArrayMaxSize >=? 3 then
            b1 ← b.[0 := u8 (Z.shiftr (Z.land integerValue 0x00FF0000) 16)];
            b2 ← b1.[1 := u8 (Z.shiftr (Z.land integerValue 0x00FF) 8)];
            b3 ← b2.[2 := u8 (Z.land integerValue 0xFF)];
            Some (true, Some b3, Some 3)
          else Some (false, Some b, Some 0)
        else Some (false, Some b, Some 0)
      else Some (false, ptrByteArray, byteArraySize)
  | _, _ => Some (false, ptrByteArray, byteArraySize)
  end.

(** Result and [*ptrIntegerValue], a [uint16_t]. The shift by 24 is read as
    the two's-complement shift compilers give it. *)
Definition extractIntegerFromByteArray (ptrByteArray : option (list Z)) (byteArraySize : Z)
    (ptrIntegerValue : option Z) : option (bool * option Z) :=
  match ptrByteArray, ptrIntegerValue with
  | Some b, Some _ =>
      if byteArraySize >? 0 then
        if byteArraySize =? 1 then
          b0 ← b.[0]; Some (true, Some (u16 b0))
        else if byteArraySize =? 2 then
          b0 ← b.[0]; b1 ← b.[1];
          Some (true, Some (u16 (Z.lor (Z.shiftl b0 8) b1)))
        else if byteArraySize =? 3 then
          b0 ← b.[0]; b1 ← b.[1]; b2 ← b.[2];
          Some (true, Some (u16 (Z.lor (Z.lor (Z.shiftl b0 16) (Z.shiftl b1 8)) b2)))
        else if byteArraySize =? 4 then
          b0 ← b.[0]; b1 ← b.[1]; b2 ← b.[2]; b3 ← b.[3];
          Some (true, Some (u16 (Z.lor (Z.lor (Z.lor (Z.shiftl b0 24) (Z.shiftl b1 16))
                                            (Z.shiftl b2 8)) b3)))
        else Some (false, ptrIntegerValue)
      else Some (false, ptrIntegerValue)
  | _, _ => Some (false, ptrIntegerValue)
  end.

(** ** BER lengths *)

(** Result, array and [*attributeLength]. The last write is [*p = 0]. *)
Definition encodeLength (length : Z) (lengthTLV : option (list Z)) (lengthTLVsize : Z)
    (attributeLength : option Z) : option (bool * option (list Z) * option Z) :=
  match lengthTLV, attributeLength with
  | Some b, Some _ =>
      if length >? 0 then
        r ← (if length >? 0x0000FFFF then
               if lengthTLVsize >=? 4 then
                 b1 ← b.[0 := 0x83];
                 b2 ← b1.[1 := u8 (Z.shiftr (Z.land length 0x00FF0000) 16)];
                 b3 ← b2.[2 := u8 (Z.shiftr (Z.land length 0x0000FF00) 8)];
                 b4 ← b3.[3 := u8 (Z.land length 0x000000FF)];
                 Some (true, b4, 4)
               else Some (false, b, 0)
             else if length >? 0x000000FF then
               if lengthTLVsize >=? 3 then
                 b1 ← b.[0 := 0x82];
                 b2 ← b1.[1 := u8 (Z.shiftr (Z.land length 0x0000FF00) 8)];
                 b3 ← b2.[2 := u8 (Z.land length 0x000000FF)];
                 Some (true, b3, 3)
               else Some (false, b, 0)
             else if length >? 0x0000007F then
               if lengthTLVsize >=? 2 then
                 b1 ← b.[0 := 0x81];
                 b2 ← b1.[1 := u8 (Z.land length 0x000000FF)];
                 Some (true, b2, 2)
               else Some (false, b, 0)
             else
               if lengthTLVsize >=? 1 then
                 b1 ← b.[0 := u8 (Z.land length 0x000000FF)];
                 Some (true, b1, 1)
               else Some (false, b, 0));
        let '(res, b', p) := r in
        b'' ← b'.[p := 0];
        Some (res, Some b'', Some p)
      else Some (true, Some b, Some 0)
  | _, _ => Some (false, lengthTLV, attributeLength)
  end.

Definition generateLength (length : Z) (lengthHex : option (list Z)) (lengthHexsize : Z)
    (attributeLength : option Z) : option (bool * option (list Z) * option Z) :=
  match lengthHex, attributeLength with
  | Some b, Some _ =>
      r ← (if length >? 0 then
             if length >? 0x0000FFFF then
               if lengthHexsize >=? 3 then
                 b1 ← b.[0 := u8 (Z.shiftr (Z.land length 0x00FF0000) 16)];
                 b2 ← b1.[1 := u8 (Z.shiftr (Z.land length 0x0000FF00) 8)];
                 b3 ← b2.[2 := u8 (Z.land length 0x000000FF)];
                 Some (true, b3, 3)
               else Some (false, b, 0)
             else if length >? 0x00000FF then
               if lengthHexsize >=? 2 then
                 b1 ← b.[0 := u8 (Z.shiftr (Z.land length 0x0000FF00) 8)];
                 b2 ← b1.[1 := u8 (Z.land length 0x000000FF)];
                 Some (true, b2, 2)
               else Some (false, b, 0)
             else
               if lengthHexsize >=? 1 then
                 b1 ← b.[0 := u8 (Z.land length 0x000000FF)];
                 Some (true, b1, 1)
               else Some (false, b, 0)
           else Some (true, b, 0));
      let '(res, b', p) := r in
      b'' ← b'.[p := 0];
      Some (res, Some b'', Some p)
  | _, _ => Some (false, lengthHex, attributeLength)
  end.

(** ** Strings and arrays

    A [const char *] argument is [None] for [NULL] or its characters before
    the NUL; [at_nul s i] reads it with its terminator. *)

Definition at_nul (s : list Z) (i : Z) : option Z := (s ++ [0]).[i].

(** The inner [for] loop of findSubstr: [n] is [t_len - k]; returns [flag]. *)
Fixpoint findSubstr_match (n : nat) (source target : list Z) (p j : Z) : option bool :=
  match n with
  | O => Some true
  | S n' =>
      a ← at_nul source p;
      b ← at_nul target j;
      if a =? b then findSubstr_match n' source target (p + 1) (j + 1) else Some false
  end.

(** The outer loop: [n] iterations are left, from index [i]. *)
Fixpoint findSubstr_scan (n : nat) (source target : list Z) (i : Z) : option bool :=
  match n with
  | O => Some false
  | S n' =>
      a ← at_nul source i;
      b ← at_nul target 0;
      if a =? b then
        flag ← findSubstr_match (length target) source target i 0;
        if (flag : bool) then Some true else findSubstr_scan n' source target (i + 1)
      else findSubstr_scan n' source target (i + 1)
  end.

(** [return -1] from a [bool] function returns [true]. *)
Definition findSubstr (source target : option (list Z)) : option bool :=
  match source, target with
  | Some s, Some t =>
      let s_len := zlen s in
      let t_len := zlen t in
      if t_len >? s_len then Some true
      else findSubstr_scan (Z.to_nat (s_len - t_len + 1)) s t 0
  | _, _ => Some false
  end.

Definition countCharOccurencesInString (pString : option (list Z)) (c : Z) : Z :=
  match pString with
  | Some s => foldl (λ count x, if x =? c then count + 1 else count) 0 s
  | None => 0
  end.

(** The [while] loop; [n] is [pArraySize - i]. *)
Fixpoint isElementPresent_loop (n : nat) (a : list Z) (i pValue : Z) (res : bool) : option bool :=
  match n with
  | O => Some res
  | S n' =>
      if res then Some res else
      x ← a.[i];
      isElementPresent_loop n' a (i + 1) pValue (if x =? pValue then true else res)
  end.

Definition isElementPresentInArrayUInt (pReferenceArray : option (list Z)) (pArraySize pValue : Z)
    : option bool :=
  match pReferenceArray with
  | Some a => if pArraySize >? 0 then isElementPresent_loop (Z.to_nat pArraySize) a 0 pValue false
              else Some false
  | None => Some false
  end.

(** The [while] loop; [n] is [len_str1 - i]. *)
Fixpoint compareIgnoringCase_loop (n : nat) (s1 s2 : list Z) (i : Z) (res : bool) : option bool :=
  match n with
  | O => Some res
  | S n' =>
      if res then
        a ← at_nul s1 i;
        b ← at_nul s2 i;
        compareIgnoringCase_loop n' s1 s2 (i + 1)
          (if negb (toupper a =? toupper b) then false else res)
      else Some res
  end.

Definition compareEqualStringIgnoringCase (pString1 pString2 : option (list Z)) : option bool :=
  match pString1, pString2 with
  | Some s1, Some s2 =>
      if zlen s1 =? zlen s2 then compareIgnoringCase_loop (length s1) s1 s2 0 true
      else Some false
  | _, _ => Some false
  end.

(** Result and [*ptrBooleanValue]. *)
Definition convertStringToBoolean (ptrParameterValue : option (list Z)) (ptrBooleanValue : option bool)
    : bool * option bool :=
  match ptrParameterValue, ptrBooleanValue with
  | Some s, Some v =>
      let among := existsb (λ t, streqb (chars t) s) in
      let '(res, v) := if among ["true"; "TRUE"; "YES"; "yes"]%string then (true, true) else (false, v) in
      if among ["false"; "FALSE"; "NO"; "no"]%string then (true, Some false) else (res, Some v)
  | _, _ => (false, ptrBooleanValue)
  end.

(** Result and [*ptrLongValue]. *)
Definition convertStringToLong (ptrParameterValue : option (list Z)) (ptrLongValue : option Z)
    : bool * option Z :=
  match ptrParameterValue, ptrLongValue with
  | Some s, Some _ =>
      let '(longValue, ptrEnd) := strtol10 s in
      if (ptrEnd =? length s)%nat then (true, Some longValue) else (false, ptrLongValue)
  | _, _ => (false, ptrLongValue)
  end.

(** The [while] loop; [n] is [sourceLength - i]. *)
Fixpoint convertToLower_loop (n : nat) (s : list Z) (dest : list Z) (i : Z) : option (list Z) :=
  match n with
  | O => dest.[i := 0]
  | S n' =>
      c ← at_nul s i;
      d ← dest.[i := tolower c];
      convertToLower_loop n' s d (i + 1)
  end.

Definition convertStringToLower (ptrSourceString : option (list Z)) (ptrDestString : option (list Z))
    (ptrDestStringSize : Z) : option (bool * option (list Z)) :=
  match ptrSourceString, ptrDestString with
  | Some s, Some d =>
      if ptrDestStringSize >? 0 then
        if zlen s <? ptrDestStringSize then
          d' ← convertToLower_loop (length s) s d 0;
          Some (true, Some d')
        else Some (false, Some d)
      else Some (false, Some d)
  | _, _ => Some (false, ptrDestString)
  end.

(** ** Hexadecimal strings: correctness *)

(** Reference: the upper-case hexadecimal text of a byte string. *)
Definition hex_of (d : list Z) : list Z := concat (map fmt_02X d).

Lemma hex_of_cons v d : hex_of (v :: d) = fmt_02X v ++ hex_of d.
Proof. done. Qed.

Lemma zlen_hex_of d : zlen (hex_of d) = 2 * zlen d.
Proof.
  induction d as [|v d IH]; [done|]. rewrite hex_of_cons, zlen_app, IH, zlen_cons.
  change (zlen (fmt_02X v)) with 2. lia.
Qed.
#[export] Hint Rewrite zlen_hex_of : zlen.

Lemma hex_digit_roundtrip n : 0 <= n < 16 →
  isxdigit (hex_upper n) = true ∧ oneHexCharToHex (hex_upper n) = n.
Proof.
  intros Hn.
  pose proof (check_range (λ n, isxdigit (hex_upper n) && (oneHexCharToHex (hex_upper n) =? n))
                16 n eq_refl Hn) as H. cbv beta in H. by zprop.
Qed.

Lemma nibbles_join v : is_byte v → u8 (Z.lor (Z.shiftl (v / 16) 4) (v mod 16)) = v.
Proof.
  intros Hv. rewrite lor_shiftl_add by (try apply Z.mod_pos_bound; lia).
  unfold u8, is_byte in *. change (2^4) with 16. change (2^8) with 256. dlia.
Qed.

(** One step of the loop, on a buffer already holding [p]. *)
Lemma formatBytes_loop_spec k l p w max :
  zlen p = 2 * zlen l → max <= zlen p + zlen w → max <= size_t_max →
  zlen p + 2 * zlen k + 1 < max →
  formatBytes_loop (length k) (l ++ k) (zlen l) (zlen p) (p ++ w) max =
    Some (zlen p + 2 * zlen k,
          p ++ hex_of k ++ match k with [] => w | _ => 0 :: drop (2 * length k + 1) w end).
Proof.
  revert l p w. induction k as [|v k IH]; intros l p w Hp Hw Hm Hk.
  { cbn. rewrite Z.add_0_r. done. }
  rewrite zlen_cons in Hk. zlen_pos. unfold size_t_max in Hm.
  cbn [length formatBytes_loop]. unfold u64. rewrite Z.mod_small by lia.
  ztrue (zlen p + 3 <? max). rewrite rd_app_r, Z.sub_diag, rd_cons_0 by lia. cbn [mbind option_bind].
  destruct w as [|a [|b [|c w]]]; try (repeat rewrite ?zlen_cons, ?zlen_nil in Hw; lia).
  change (a :: b :: c :: w) with ([a; b; c] ++ w). rewrite wr_range_mid by done. cbn [mbind option_bind].
  specialize (IH (l ++ [v]) (p ++ fmt_02X v) (0 :: w)).
  replace (zlen (l ++ [v])) with (zlen l + 1) in IH by zlia.
  replace (zlen (p ++ fmt_02X v)) with (zlen p + 2) in IH by (rewrite zlen_app; done).
  repeat rewrite <-app_assoc in IH. cbn [app] in IH. rewrite <-app_assoc. cbn [app].
  rewrite IH; [|lia| |done|lia].
  - rewrite hex_of_cons, zlen_cons. f_equal. f_equal; [lia|].
    rewrite <-app_assoc. do 2 f_equal.
    destruct k as [|v' k]; [done|]. f_equal. f_equal.
    cbn [length]. replace (2 * S (S (length k)) + 1)%nat with (S (S (2 * S (length k) + 1))) by lia. done.
  - rewrite !zlen_cons in *. lia.
Qed.

(** What formatBytesToHexaString leaves behind a text of [n > 0] bytes. *)
Definition hex_buffer (d b : list Z) : list Z :=
  match d with [] => b | _ => hex_of d ++ 0 :: drop (2 * length d + 1) b end.

Lemma formatBytes_ok d b max :
  max <= zlen b → max <= size_t_max → 2 * zlen d + 1 < size_t_max →
  formatBytesToHexaString (Some d) (zlen d) (Some b) max =
    if 2 * zlen d + 1 <? max then Some (2 * zlen d, Some (hex_buffer d b)) else Some (0, Some b).
Proof.
  intros Hb Hm Hd. zlen_pos. unfold size_t_max in *.
  unfold formatBytesToHexaString, u64.
  rewrite (Z.mod_small (zlen d * 2)) by lia. rewrite Z.mod_small by lia.
  replace (zlen d * 2) with (2 * zlen d) by lia. ztest; [|done].
  rewrite zlen_to_nat.
  pose proof (formatBytes_loop_spec d [] [] b max) as E1.
  change (2 * zlen []) with 0 in E1.
  change (zlen []) with 0 in E1. cbn [app] in E1. rewrite E1 by (done || lia).
  cbn [mbind option_bind fst snd]. by destruct d.
Qed.

(** Decoding the text of [k], the first bytes being decoded already. *)
Lemma hexStr_loop_prefix k l t p w max (m : nat) :
  Forall is_byte k → zlen p + zlen k <= max → zlen k <= zlen w →
  2 * zlen l + 2 * zlen k <= int_max →
  hexStr_loop (length k + m) (hex_of (l ++ k) ++ t) (2 * zlen l) (zlen p) max (p ++ w) =
    hexStr_loop m (hex_of (l ++ k) ++ t) (2 * (zlen l + zlen k)) (zlen p + zlen k) max
      (p ++ k ++ drop (length k) w).
Proof.
  revert l p w. induction k as [|v k IH]; intros l p w Hk Hmax Hw Hi.
  { change (zlen []) with 0. rewrite !Z.add_0_r. done. }
  inversion_clear Hk as [|?? Hv Hk']. rewrite zlen_cons in *. zlen_pos.
  cbn [length hexStr_loop Nat.add]. zfalse (zlen p >? max).
  assert (hex_of (l ++ v :: k) ++ t = hex_of l ++ fmt_02X v ++ hex_of k ++ t) as Hh.
  { unfold hex_of. by rewrite map_app, concat_app, <-!app_assoc. }
  rewrite !Hh. rewrite (rd_app_r _ _ (2 * zlen l)), (rd_app_r _ _ (2 * zlen l + 1)) by zlia.
  rewrite zlen_hex_of.
  replace (2 * zlen l - 2 * zlen l) with 0 by lia.
  replace (2 * zlen l + 1 - 2 * zlen l) with 1 by lia.
  rewrite !rd_app_l by (change (zlen (fmt_02X v)) with 2; lia).
  change (fmt_02X v).[0] with (Some (hex_upper (v / 16))).
  change (fmt_02X v).[1] with (Some (hex_upper (v mod 16))). cbn [mbind option_bind].
  destruct (hex_digit_roundtrip (v / 16)) as [-> ->]; [unfold is_byte in Hv; dlia|].
  destruct (hex_digit_roundtrip (v mod 16)) as [-> ->]; [unfold is_byte in Hv; dlia|].
  cbn [andb]. rewrite nibbles_join by done.
  destruct w as [|x w]; [change (zlen []) with 0 in Hw; lia|]. rewrite zlen_cons in Hw.
  rewrite wr_app_next. cbn [mbind option_bind]. zfalse (2 * zlen l + 2 >? int_max).
  specialize (IH (l ++ [v]) (p ++ [v]) w). rewrite !zlen_app, zlen_cons, zlen_nil in IH.
  repeat rewrite <-app_assoc in IH. cbn [app] in IH. rewrite Hh in IH.
  replace (2 * zlen l + 2) with (2 * (zlen l + (1 + 0))) by lia.
  replace (zlen p + 1) with (zlen p + (1 + 0)) by lia.
  rewrite IH; [|done|lia|lia|lia]. cbn [length app drop].
  f_equal; [lia|]. lia.
Qed.

(** The text may be the start of a longer array. *)
Lemma hexStr2ByteArray_text d t out max :
  Forall is_byte d → 0 < zlen d <= max → max <= zlen out → 2 * zlen d <= int_max →
  hexStr2ByteArray (Some (hex_of d ++ t)) (2 * zlen d) (Some out) (Some max) =
    Some (true, Some (d ++ drop (length d) out), Some (zlen d)).
Proof.
  intros Hd Hmax Hout Hint. unfold hexStr2ByteArray.
  zfalse (2 * zlen d <=? 1).
  replace (2 * zlen d) with (zlen d * 2) by lia. rewrite Z.mod_mul, Z.div_mul by lia. cbn [Z.eqb negb].
  rewrite zlen_to_nat.
  pose proof (hexStr_loop_prefix d [] t [] out max 0) as E. rewrite Nat.add_0_r in E.
  change (2 * zlen []) with 0 in E. change (zlen []) with 0 in E. cbn [app] in E.
  rewrite E; [|done|lia|lia|lia].
  cbn [hexStr_loop mbind option_bind]. change (0 + zlen d) with (zlen d). by ztrue (zlen d <=? max).
Qed.

Lemma hexStr2ByteArray_ok d out max :
  Forall is_byte d → 0 < zlen d <= max → max <= zlen out → 2 * zlen d <= int_max →
  hexStr2ByteArray (Some (hex_of d)) (2 * zlen d) (Some out) (Some max) =
    Some (true, Some (d ++ drop (length d) out), Some (zlen d)).
Proof.
  intros. rewrite <-(app_nil_r (hex_of d)). by apply hexStr2ByteArray_text.
Qed.

(** The text written by one is read back by the other, whatever the cells
    around it. *)
(** Formatting a byte string with formatBytesToHexaString and parsing the
    text back with hexStr2ByteArray gives the byte string, for every non-empty
    input that fits the buffers. *)
Theorem hex_roundtrip (d b out : list Z) (max : Z) :
  Forall is_byte d → 0 < zlen d <= max → max <= zlen out → 2 * zlen d <= int_max →
  2 * zlen d + 1 < zlen b <= size_t_max →
  ∃ b', formatBytesToHexaString (Some d) (zlen d) (Some b) (zlen b) = Some (2 * zlen d, Some b') ∧
        strlen b' = Some (2 * zlen d) ∧
        hexStr2ByteArray (Some (take (Z.to_nat (2 * zlen d)) b')) (2 * zlen d) (Some out) (Some max)
          = Some (true, Some (d ++ drop (length d) out), Some (zlen d)).
Proof.
  intros Hd Hmax Hout Hint Hb. exists (hex_buffer d b).
  rewrite formatBytes_ok by lia. ztrue (2 * zlen d + 1 <? zlen b). split; [done|].
  unfold hex_buffer. destruct d as [|v d]; [change (zlen []) with 0 in Hmax; lia|]. split.
  - rewrite strlen_app; [by rewrite zlen_hex_of|]. apply Forall_concat, Forall_map.
    eapply Forall_impl; [exact Hd|]. apply fmt_02X_nonzero.
  - rewrite take_app_length'; [by apply hexStr2ByteArray_ok|].
    pose proof (zlen_hex_of (v :: d)). unfold zlen in *. lia.
Qed.

Lemma hex_roundtrip_witness :
  ∃ b', formatBytesToHexaString (Some [0x9F; 0x0A]) 2 (Some (replicate 8 0)) 8 = Some (4, Some b') ∧
        strlen b' = Some 4 ∧
        hexStr2ByteArray (Some (take 4 b')) 4 (Some [0; 0; 0]) (Some 3)
          = Some (true, Some [0x9F; 0x0A; 0], Some 2).
Proof.
  apply (hex_roundtrip [0x9F; 0x0A] (replicate 8 0) [0; 0; 0] 3).
  - repeat constructor; unfold is_byte; lia.
  - vm_compute. split; congruence.
  - vm_compute. congruence.
  - vm_compute. congruence.
  - vm_compute. split; congruence.
Defined.

Lemma drop_rd {A} (s : list A) i c : 0 <= i → s.[i] = Some c → drop (Z.to_nat i) s = c :: drop (Z.to_nat (i + 1)) s.
Proof.
  intros Hi. unfold rd. rewrite (proj2 (Z.leb_le 0 i)) by done. intros E. rewrite (drop_S s c) by exact E.
  by replace (Z.to_nat (i + 1)) with (S (Z.to_nat i)) by lia.
Qed.

(** The loop stays inside an output buffer with one cell more than [max]; it
    ends normally behind hexadecimal digits only, and early at another
    character or when there are more than [max] pairs. *)
Lemma hexStr_loop_safe n s i outSize max out :
  0 <= i → 0 <= outSize <= max + 1 → max + 1 <= zlen out → i + 2 * Z.of_nat n = zlen s →
  zlen s <= int_max →
  let digits := Forall isxdigit (drop (Z.to_nat i) s) in
  ∃ r, hexStr_loop n s i outSize max out = Some r ∧
       match r with
       | inl out' => zlen out' = zlen out ∧ (digits → max < outSize + Z.of_nat n)
       | inr (sz, out') => zlen out' = zlen out ∧ sz = outSize + Z.of_nat n ∧ digits
       end.
Proof.
  cbn zeta. revert i outSize out. induction n as [|n IH]; intros i outSize out Hi Ho Hl Hs Hm.
  { exists (inr (outSize, out)). split; [done|]. split; [done|]. split; [lia|].
    rewrite drop_ge; [done|unfold zlen in Hs; lia]. }
  cbn [hexStr_loop]. ztest; [exists (inl out); split; [done|]; split; [done|]; zprop; lia|].
  destruct (rd_is_Some s i) as (c1 & E1 & _); [lia|]. destruct (rd_is_Some s (i + 1)) as (c2 & E2 & _); [lia|].
  rewrite E1, E2. cbn [mbind option_bind].
  assert (drop (Z.to_nat i) s = c1 :: c2 :: drop (Z.to_nat (i + 2)) s) as Ed.
  { replace (i + 2) with (i + 1 + 1) by lia. by rewrite (drop_rd s i c1), (drop_rd s (i + 1) c2) by (done || lia). }
  destruct (isxdigit c1 && isxdigit c2) eqn:Ex.
  2: { exists (inl out). split; [done|]. split; [done|]. rewrite Ed, !Forall_cons. intros (H1 & H2 & _).
       apply Is_true_true in H1, H2. by rewrite H1, H2 in Ex. }
  rewrite wr_Some by lia. cbn [mbind option_bind]. zfalse (i + 2 >? int_max).
  match goal with |- context [hexStr_loop n s _ _ _ ?o] => remember o as out1 eqn:Ho1 end.
  assert (zlen out1 = zlen out) as Hl1 by (subst; apply zlen_insert).
  destruct (IH (i + 2) (outSize + 1) out1) as (r & -> & Hp); try lia.
  exists r. split; [done|]. apply andb_prop in Ex as [H1%Is_true_true H2%Is_true_true].
  assert (Forall isxdigit (drop (Z.to_nat i) s) ↔ Forall isxdigit (drop (Z.to_nat (i + 2)) s)) as Hdig
    by (rewrite Ed, !Forall_cons; tauto).
  destruct r as [?|[? ?]]; rewrite Hdig, <-Hl1; [split; [tauto|]; intros Hf; apply Hp in Hf; lia|].
  split; [tauto|]. split; [lia|tauto].
Qed.

(** A search in the whole array. *)
Lemma isElementPresent_loop_ok v rest : ∀ pre res,
  isElementPresent_loop (length rest) (pre ++ rest) (zlen pre) v res = Some (res || bool_decide (v ∈ rest)).
Proof.
  induction rest as [|y rest IH]; intros pre res; cbn [isElementPresent_loop length].
  { by destruct res. }
  destruct res; [done|]. rewrite rd_app_r, Z.sub_diag, rd_cons_0 by lia. cbn [mbind option_bind].
  specialize (IH (pre ++ [y])). rewrite <-app_assoc, zlen_app in IH. cbn [app] in IH.
  change (zlen [y]) with 1 in IH. rewrite IH. f_equal. cbn [orb].
  destruct (Z.eqb_spec y v) as [->|Hne]; cbn [orb].
  - symmetry. apply bool_decide_eq_true. left.
  - apply bool_decide_ext. rewrite elem_of_cons. split; [by right|]. by intros [->|].
Qed.

Lemma isElementPresent_ok a v : a ≠ [] →
  isElementPresentInArrayUInt (Some a) (zlen a) v = Some (bool_decide (v ∈ a)).
Proof.
  intros Ha. unfold isElementPresentInArrayUInt.
  assert (0 < zlen a) by (destruct a; [done|]; rewrite zlen_cons; zlen_pos; lia). ztrue (zlen a >? 0).
  rewrite zlen_to_nat. by apply (isElementPresent_loop_ok v a [] false).
Qed.

(** The text of some bytes, at most [max]: an even number of hexadecimal
    digits, not none. *)
Definition hex_text (s : list Z) (max : Z) : Prop :=
  1 < zlen s ∧ zlen s mod 2 = 0 ∧ Forall isxdigit s ∧ zlen s <= 2 * max.

(** C40: Decoding of hexadecimal text, hexStr2ByteArray, for every input string
    (bounds, error): when the output buffer has one cell more than the size
    that the function is called with, it accesses no cell outside of its buffers and keeps the output buffer's size;
    it succeeds exactly on the texts of at least one and at most that many
    bytes, and then reports half of the text's length; on a text of an even
    length, two or more, that it refuses it reports a length of 0; and on a
    text of an odd length or of fewer than two characters it leaves both the
    buffer and the length as they were. *)
Theorem hexStr2ByteArray_safe (s out : list Z) (max : Z) :
  0 <= max → max + 1 <= zlen out → zlen s <= int_max →
  ∃ ok out' n, hexStr2ByteArray (Some s) (zlen s) (Some out) (Some max)
                 = Some (ok, Some out', Some n) ∧
    zlen out' = zlen out ∧ (ok = true ↔ hex_text s max) ∧ (ok = true → 2 * n = zlen s) ∧
    (ok = false → if (zlen s <=? 1) || negb (zlen s mod 2 =? 0) then n = max ∧ out' = out else n = 0).
Proof.
  intros Hmax Hout Hs. unfold hexStr2ByteArray, hex_text. zlen_pos.
  destruct (zlen s <=? 1) eqn:E1; cbn [orb].
  { zprop. exists false, out, max. do 2 (split; [done|]). split; [|done]. split; [done|lia]. }
  destruct (zlen s mod 2 =? 0) eqn:E2; cbn [negb].
  2: { zprop. exists false, out, max. do 2 (split; [done|]). split; [|done]. split; [done|tauto]. }
  zprop. assert (zlen s = 2 * (zlen s / 2)) by (clear -E2; dlia).
  destruct (hexStr_loop_safe (Z.to_nat (zlen s / 2)) s 0 0 max out) as (r & -> & Hr); try lia.
  change (drop (Z.to_nat 0) s) with s in Hr.
  cbn [mbind option_bind]. destruct r as [out'|[n out']].
  - destruct Hr as [Hl Hd]. exists false, out', 0. do 2 (split; [done|]). split; [|done]. split; [done|].
    intros (_ & _ & Hx & Hm). specialize (Hd Hx). lia.
  - destruct Hr as (Hl & Hn & Hd). ztest; zprop.
    + exists true, out', n. do 2 (split; [done|]). split; [|split; [lia|done]]. split; [|done]. intros _. split_and!; [lia|done|done|lia].
    + exists false, out', 0. do 2 (split; [done|]). split; [|done]. split; [done|]. lia.
Qed.

Lemma hexStr2ByteArray_safe_witness :
  ∃ ok out' n, hexStr2ByteArray (Some [48; 71; 48; 48]) 4 (Some [7; 7; 7]) (Some 2)
                 = Some (ok, Some out', Some n) ∧
    zlen out' = 3 ∧ (ok = true ↔ hex_text [48; 71; 48; 48] 2) ∧ (ok = true → 2 * n = 4) ∧
    (ok = false → n = 0).
Proof.
  apply (hexStr2ByteArray_safe [48; 71; 48; 48] [7; 7; 7] 2); vm_compute; congruence.
Defined.

(** Without the spare cell the function writes one byte past its output
    buffer: the text of [max + 1] bytes, decoded into a buffer of exactly
    [max] cells, is undefined behaviour. *)
Theorem hexStr2ByteArray_overflow (d out : list Z) (v : Z) :
  Forall is_byte d → is_byte v → 0 < zlen d → zlen out = zlen d →
  2 * zlen d + 2 <= int_max →
  hexStr2ByteArray (Some (hex_of (d ++ [v]))) (2 * zlen d + 2) (Some out) (Some (zlen out)) = None.
Proof.
  intros Hd Hv Hpos Hl Hi. unfold hexStr2ByteArray.
  zfalse (2 * zlen d + 2 <=? 1).
  replace (2 * zlen d + 2) with ((zlen d + 1) * 2) by lia.
  rewrite Z.mod_mul, Z.div_mul by lia. cbn [Z.eqb negb].
  replace (Z.to_nat (zlen d + 1)) with (length d + 1)%nat by (unfold zlen; lia).
  pose proof (hexStr_loop_prefix d [] (fmt_02X v) [] out (zlen out) 1) as E.
  change (2 * zlen []) with 0 in E. change (zlen []) with 0 in E. cbn [app] in E.
  assert (hex_of (d ++ [v]) = hex_of d ++ fmt_02X v) as ->
    by (unfold hex_of; rewrite map_app, concat_app; cbn; by rewrite ?app_nil_r).
  rewrite E; [|done|lia|lia|lia]. change (0 + zlen d) with (zlen d). cbn [hexStr_loop]. zfalse (zlen d >? zlen out).
  rewrite (rd_app_r _ _ (2 * zlen d)), (rd_app_r _ _ (2 * zlen d + 1)) by zlia.
  rewrite zlen_hex_of, Z.sub_diag. replace (2 * zlen d + 1 - 2 * zlen d) with 1 by lia.
  change (fmt_02X v).[0] with (Some (hex_upper (v / 16))).
  change (fmt_02X v).[1] with (Some (hex_upper (v mod 16))). cbn [mbind option_bind].
  destruct (hex_digit_roundtrip (v / 16)) as [-> _]; [unfold is_byte in Hv; dlia|].
  destruct (hex_digit_roundtrip (v mod 16)) as [-> _]; [unfold is_byte in Hv; dlia|]. cbn [andb].
  rewrite (proj2 (wr_None _ _ _)); [done|]. zlen_pos. rewrite zlen_app, zlen_drop. unfold zlen in *. lia.
Qed.

Lemma hexStr2ByteArray_overflow_witness :
  hexStr2ByteArray (Some (hex_of ([1; 2] ++ [3]))) (2 * zlen [1; 2] + 2) (Some [0; 0])
    (Some (zlen [0; 0])) = None.
Proof.
  apply hexStr2ByteArray_overflow; repeat constructor; unfold is_byte; vm_compute; congruence.
Defined.

(** ** Integers and lengths: correctness *)

(** The bytes of a big-endian integer, the three masks the code uses. *)
Lemma byte0 n : u8 (Z.land n 0xFF) = n mod 256.
Proof. rewrite land_255. unfold u8. change (2 ^ 8) with 256. by rewrite Z.mod_mod by lia. Qed.

Lemma byte1 n : u8 (Z.shiftr (Z.land n 0xFF00) 8) = (n / 2 ^ 8) mod 256.
Proof.
  change 0xFF00 with (Z.shiftl 0xFF 8). rewrite land_mask_shiftr by lia.
  unfold u8. change (2 ^ 8) with 256 at 2. by rewrite Z.mod_mod by lia.
Qed.

Lemma byte2 n : u8 (Z.shiftr (Z.land n 0x00FF0000) 16) = (n / 2 ^ 16) mod 256.
Proof.
  change 0x00FF0000 with (Z.shiftl 0xFF 16). rewrite land_mask_shiftr by lia.
  unfold u8. change (2 ^ 8) with 256. by rewrite Z.mod_mod by lia.
Qed.
Create Rewrite HintDb bytes.
#[export] Hint Rewrite byte0 byte1 byte2 : bytes.

(** Reference: the big-endian value of a byte string. *)
Definition be_value (l : list Z) : Z := foldl (λ a b, a * 256 + b) 0 l.

(** A [uint16_t] written with writeIntegerValueToByteArray is read back by
    extractIntegerFromByteArray, for every value and every array of at least
    two cells. *)
Theorem integer_roundtrip (n v x max : Z) (b : list Z) :
  0 <= n < 2^16 → 2 <= max <= zlen b →
  ∃ b' k, writeIntegerValueToByteArray n (Some b) max (Some x) = Some (true, Some b', Some k) ∧
    zlen b' = zlen b ∧ 1 <= k <= 2 ∧
    extractIntegerFromByteArray (Some (take (Z.to_nat k) b')) k (Some v) = Some (true, Some n).
Proof.
  intros Hn Hmax. destruct b as [|b0 [|b1 b]]; try (autorewrite with zlen in Hmax; lia).
  unfold writeIntegerValueToByteArray. ztrue (max >? 0). autorewrite with bytes.
  ztest; [ztrue (max >=? 1)|ztrue (n <=? 0xFFFF); ztrue (max >=? 2)]; cells.
  - eexists _, 1. split; [done|]. split; [by autorewrite with zlen|]. split; [lia|].
    change (Z.to_nat 1) with 1%nat. unfold extractIntegerFromByteArray. cbn [take Z.gtb Z.compare Z.eqb].
    cells. unfold u16, u8. do 3 f_equal. dlia.
  - eexists _, 2. split; [done|]. split; [by autorewrite with zlen|]. split; [lia|].
    change (Z.to_nat 2) with 2%nat. unfold extractIntegerFromByteArray.
    cbn [take Z.gtb Z.compare Z.eqb Pos.eqb]. cells. do 3 f_equal. unfold u16.
    rewrite lor_shiftl_add by dlia. change (2 ^ 8) with 256. dlia.
Qed.

Lemma integer_roundtrip_witness :
  ∃ b' k, writeIntegerValueToByteArray 0x1234 (Some [0; 0; 0]) 3 (Some 0)
            = Some (true, Some b', Some k) ∧
    zlen b' = 3 ∧ 1 <= k <= 2 ∧
    extractIntegerFromByteArray (Some (take (Z.to_nat k) b')) k (Some 7) = Some (true, Some 0x1234).
Proof. apply (integer_roundtrip 0x1234 7 0 3 [0; 0; 0]); vm_compute; split; congruence. Defined.

(** ExtractIntegerFromByteArray reads an array of one to four bytes as a
    big-endian integer, but keeps only its low 16 bits. *)
Theorem extractInteger_be (b : list Z) (v : Z) :
  Forall is_byte b → 1 <= zlen b <= 4 →
  extractIntegerFromByteArray (Some b) (zlen b) (Some v) = Some (true, Some (be_value b mod 2^16)).
Proof.
  intros Hb Hl. unfold is_byte in Hb.
  destruct b as [|b0 [|b1 [|b2 [|b3 [|b4 b]]]]]; try (autorewrite with zlen in Hl; zlen_pos; lia);
    repeat match goal with H : Forall _ (_ :: _) |- _ => inversion_clear H end;
    unfold extractIntegerFromByteArray, u16, be_value; rewrite !zlen_cons;
    change (zlen []) with 0; cbn [Z.add Pos.add Pos.succ Z.gtb Z.compare Z.eqb Pos.eqb foldl];
    cells; do 3 f_equal.
  - rewrite lor_shiftl_add by lia. done.
  - rewrite <-!Z.lor_assoc, (lor_shiftl_add b1), (lor_shiftl_add b0) by lia. f_equal. lia.
  - rewrite <-!Z.lor_assoc, (lor_shiftl_add b2), (lor_shiftl_add b1), (lor_shiftl_add b0) by lia.
    f_equal. lia.
Qed.

Lemma extractInteger_be_witness :
  extractIntegerFromByteArray (Some [1; 0; 2]) (zlen [1; 0; 2]) (Some 9)
    = Some (true, Some (be_value [1; 0; 2] mod 2^16)).
Proof. apply extractInteger_be; [repeat constructor; lia | vm_compute; split; congruence]. Defined.

(** Reference: the BER length octets of a length below 2^24. *)
Definition ber_length (n : Z) : list Z :=
  if n <? 0x80 then [n]
  else if n <? 0x100 then [0x81; n]
  else if n <? 0x10000 then [0x82; n / 2^8; n mod 256]
  else [0x83; n / 2^16; (n / 2^8) mod 256; n mod 256].

Lemma ber_length_byte n : 0 <= n < 2^24 → Forall is_byte (ber_length n).
Proof.
  intros Hn. unfold ber_length. repeat ztest; repeat constructor; unfold is_byte; try lia;
    try (apply Z.mod_pos_bound; lia); dlia.
Qed.

Lemma ber_length_zlen n : zlen (ber_length n) =
  if n <? 0x80 then 1 else if n <? 0x100 then 2 else if n <? 0x10000 then 3 else 4.
Proof. unfold ber_length. by repeat ztest. Qed.

(** The whole behaviour of encodeLength on a buffer of [zlen b] cells. *)
Lemma encodeLength_ok n b x :
  0 < n < 2^24 → 0 < zlen b →
  encodeLength n (Some b) (zlen b) (Some x) =
    if zlen (ber_length n) <? zlen b
    then Some (true, Some (ber_length n ++ 0 :: drop (S (length (ber_length n))) b),
               Some (zlen (ber_length n)))
    else if zlen (ber_length n) =? zlen b then None
    else Some (false, Some (0 :: drop 1 b), Some 0).
Proof.
  intros Hn Hb. unfold encodeLength. ztrue (n >? 0). autorewrite with bytes.
  rewrite ber_length_zlen. unfold ber_length.
  destruct b as [|b0 [|b1 [|b2 [|b3 [|b4 b]]]]]; autorewrite with zlen in *; try lia.
  all: zlen_pos; unfold u8; pows.
  all: assert (n <= 0xFF → n mod 256 = n) as Hm by (intros; dlia).
  all: assert (n <= 0xFFFF → (n / 256) mod 256 = n / 256) as Hm2 by (intros; dlia).
  all: assert ((n / 65536) mod 256 = n / 65536) as Hm3 by dlia.
  all: repeat (ztest; try (exfalso; lia)); cells; rewrite ?Hm, ?Hm2, ?Hm3 by lia; try done.
Qed.

(** Reference decoder of BER length octets. *)
Definition ber_parse_length (s : list Z) : option (Z * list Z) :=
  match s with
  | [] => None
  | b :: s' =>
      if b <? 0x80 then Some (b, s')
      else let k := b - 0x80 in
           if (0 <? k) && (k <=? zlen s')
           then Some (be_value (take (Z.to_nat k) s'), drop (Z.to_nat k) s') else None
  end.

Lemma ber_parse_length_encode n rest :
  0 <= n < 2^24 → ber_parse_length (ber_length n ++ rest) = Some (n, rest).
Proof.
  intros Hn. unfold ber_length, ber_parse_length. repeat ztest; cbn [app]; autorewrite with zlen;
    zlen_pos; pows.
  - by ztrue (n <? 128).
  - ztrue ((0 <? 129 - 128) && (129 - 128 <=? 1 + zlen rest)).
    change (Z.to_nat (129 - 128)) with 1%nat. done.
  - ztrue ((0 <? 130 - 128) && (130 - 128 <=? 1 + (1 + zlen rest))).
    change (Z.to_nat (130 - 128)) with 2%nat. cbn [take drop]. do 2 f_equal.
    unfold be_value. rewrite take_0. cbn [foldl]. dlia.
  - ztrue ((0 <? 131 - 128) && (131 - 128 <=? 1 + (1 + (1 + zlen rest)))).
    change (Z.to_nat (131 - 128)) with 3%nat. cbn [take drop]. do 2 f_equal.
    unfold be_value. rewrite take_0. cbn [foldl]. dlia.
Qed.

(** EncodeLength succeeds on a buffer with one cell more than the BER
    length octets, and what it leaves in the buffer decodes to the length it
    was given; on a buffer of exactly the size of the octets its last write is
    out of bounds. *)
Theorem encodeLength_ber (n x : Z) (b : list Z) :
  0 < n < 2^24 → 0 < zlen b →
  (zlen (ber_length n) < zlen b →
     ∃ b' k, encodeLength n (Some b) (zlen b) (Some x) = Some (true, Some b', Some k) ∧
             0 < k < zlen b ∧ zlen b' = zlen b ∧
             ber_parse_length (take (Z.to_nat k) b') = Some (n, [])) ∧
  (zlen (ber_length n) = zlen b → encodeLength n (Some b) (zlen b) (Some x) = None).
Proof.
  intros Hn Hb. rewrite encodeLength_ok by done. split; intros H.
  - ztrue (zlen (ber_length n) <? zlen b). eexists _, _. split; [done|].
    split; [split; [rewrite ber_length_zlen; repeat ztest; lia|done]|].
    split; [autorewrite with zlen; unfold zlen in *; lia|].
    rewrite zlen_to_nat, take_app_length.
    rewrite <-(app_nil_r (ber_length n)). apply ber_parse_length_encode. lia.
  - zfalse (zlen (ber_length n) <? zlen b). by ztrue (zlen (ber_length n) =? zlen b).
Qed.

Lemma encodeLength_ber_witness :
  (zlen (ber_length 300) < zlen [0; 0; 0; 0] →
     ∃ b' k, encodeLength 300 (Some [0; 0; 0; 0]) (zlen [0; 0; 0; 0]) (Some 0)
               = Some (true, Some b', Some k) ∧
             0 < k < zlen [0; 0; 0; 0] ∧ zlen b' = zlen [0; 0; 0; 0] ∧
             ber_parse_length (take (Z.to_nat k) b') = Some (300, [])) ∧
  (zlen (ber_length 300) = zlen [0; 0; 0; 0] →
     encodeLength 300 (Some [0; 0; 0; 0]) (zlen [0; 0; 0; 0]) (Some 0) = None).
Proof. apply encodeLength_ber; vm_compute; [split; congruence|congruence]. Defined.

(** generateLength: the same integer, without the length-of-length octet. *)
Definition be_bytes (n : Z) : list Z :=
  if n <? 0x100 then [n]
  else if n <? 0x10000 then [n / 2^8; n mod 256]
  else [n / 2^16; (n / 2^8) mod 256; n mod 256].

Lemma be_value_be_bytes n : 0 <= n < 2^24 → be_value (be_bytes n) = n.
Proof.
  intros Hn. unfold be_bytes, be_value. repeat ztest; cbn [foldl]; [done| |]; dlia.
Qed.

Lemma generateLength_ok n b x :
  0 < n < 2^24 → zlen (be_bytes n) < zlen b →
  generateLength n (Some b) (zlen b) (Some x) =
    Some (true, Some (be_bytes n ++ 0 :: drop (S (length (be_bytes n))) b),
          Some (zlen (be_bytes n))).
Proof.
  intros Hn. unfold generateLength, be_bytes. ztrue (n >? 0). autorewrite with bytes.
  destruct b as [|b0 [|b1 [|b2 [|b3 b]]]];
    repeat (ztest; try (exfalso; lia)); autorewrite with zlen in *; zlen_pos; intros Hb;
    try (exfalso; lia); cells; pows; cbn [app length drop];
    repeat match goal with |- context [?a mod 256] =>
      first [rewrite (Z.mod_small a 256) by dlia | fail 1] end; try done.
  all: repeat f_equal; dlia.
Qed.

(** ** Strings and arrays: correctness *)

Lemma at_nul_lookup s (i : nat) : (i < length s)%nat → at_nul s (Z.of_nat i) = s !! i.
Proof. intros. unfold at_nul. by rewrite rd_nat, lookup_app_l. Qed.

Lemma at_nul_end s : at_nul s (zlen s) = Some 0.
Proof. unfold at_nul. by rewrite rd_app_r, Z.sub_diag by lia. Qed.

(** The characters of a string from an index that is inside of it. *)
Lemma drop_at_nul s i : 0 <= i < zlen s →
  ∃ a, at_nul s i = Some a ∧ drop (Z.to_nat i) s = a :: drop (Z.to_nat (i + 1)) s.
Proof.
  intros Hi. destruct (lookup_lt_is_Some_2 s (Z.to_nat i)) as [a Ha]; [unfold zlen in Hi; lia|].
  exists a. rewrite <-Ha, <-at_nul_lookup by (unfold zlen in Hi; lia). rewrite Z2Nat.id by lia.
  split; [done|]. replace (Z.to_nat (i + 1)) with (S (Z.to_nat i)) by lia. by apply drop_S.
Qed.

Lemma findSubstr_match_spec n s t p j :
  0 <= p → 0 <= j → p + Z.of_nat n <= zlen s → j + Z.of_nat n = zlen t →
  findSubstr_match n s t p j =
    Some (bool_decide (take n (drop (Z.to_nat p) s) = drop (Z.to_nat j) t)).
Proof.
  revert p j. induction n as [|n IH]; intros p j Hp Hj Hs Ht; cbn [findSubstr_match].
  { rewrite (drop_ge t) by (unfold zlen in Ht; lia). by rewrite take_0. }
  destruct (drop_at_nul s p) as (a & -> & ->); [lia|].
  destruct (drop_at_nul t j) as (b & -> & ->); [lia|]. cbn [mbind option_bind take].
  destruct (Z.eqb_spec a b) as [->|Hab].
  - rewrite IH by lia. f_equal. apply bool_decide_ext. by split; [intros ->|intros [=]].
  - symmetry. f_equal. apply bool_decide_eq_false_2. by intros [= ? ?].
Qed.

(** [t] occurs in [s] at offset [i]. *)
Definition occurs_at (s t : list Z) (i : Z) : Prop :=
  take (length t) (drop (Z.to_nat i) s) = t.

Lemma findSubstr_scan_spec n s t i :
  0 <= i → i + Z.of_nat n = zlen s - zlen t + 1 →
  ∃ r, findSubstr_scan n s t i = Some r ∧
       (r = true ↔ ∃ j, i <= j <= zlen s - zlen t ∧ occurs_at s t j).
Proof.
  revert i. induction n as [|n IH]; intros i Hi Hn; cbn [findSubstr_scan].
  { exists false. split; [done|]. split; [done|]. intros (j & ? & _). lia. }
  destruct (IH (i + 1)) as (r & Hr & Hrj); [lia|lia|].
  assert (¬ occurs_at s t i → r = true ↔ ∃ j, i <= j <= zlen s - zlen t ∧ occurs_at s t j) as Hstep.
  { intros Hno. rewrite Hrj. split; intros (j & ? & Ho); exists j; (split; [|done]); [lia|].
    destruct (Z.eq_dec i j) as [->|]; [done|lia]. }
  destruct t as [|b t].
  { destruct (rd_is_Some (s ++ [0]) i) as (a & Ha & _); [zlia|]. change (at_nul s i = Some a) in Ha. rewrite Ha.
    change (at_nul [] 0) with (Some 0). cbn [mbind option_bind length findSubstr_match].
    assert (occurs_at s [] i) as Hocc by (unfold occurs_at; apply take_0).
    ztest; [exists true; split; [done|]; split; [|done]; intros _; exists i; split; [zlia|done]|].
    exists r. split; [done|]. rewrite Hrj. split; intros (j & ? & ?).
    - exists j. split; [lia|done].
    - change (zlen []) with 0 in *.
      assert (i < zlen s). { destruct (Z.eq_dec i (zlen s)) as [->|]; [|zlia].
        rewrite at_nul_end in Ha. cbn in *. congruence. }
      exists (zlen s). split; [lia|]. unfold occurs_at. apply take_0. }
  destruct (drop_at_nul s i) as (a & -> & Hda); [zlia|].
  change (at_nul (b :: t) 0) with (Some b). cbn [mbind option_bind].
  destruct (Z.eqb_spec a b) as [->|Hab].
  - rewrite findSubstr_match_spec by (unfold zlen in *; cbn [length] in *; lia). cbn [mbind option_bind].
    change (drop (Z.to_nat 0) (b :: t)) with (b :: t).
    case_bool_decide as Ho.
    + exists true. split; [done|]. split; [|done]. intros _. exists i. split; [zlia|done].
    + exists r. split; [done|]. by apply Hstep.
  - exists r. split; [done|]. apply Hstep. unfold occurs_at. rewrite Hda. cbn [length take]. congruence.
Qed.

(** FindSubstr finds a target at most as long as the source exactly when
    the target is a substring of the source; for a longer target the
    [return -1] of the [bool] function makes it answer true. *)
Theorem findSubstr_spec (s t : list Z) :
  ∃ r, findSubstr (Some s) (Some t) = Some r ∧
       (zlen t <= zlen s → r = true ↔ ∃ l k, s = l ++ t ++ k) ∧
       (zlen s < zlen t → r = true).
Proof.
  unfold findSubstr. zlen_pos. ztest.
  { exists true. split; [done|]. split; [lia|done]. }
  destruct (findSubstr_scan_spec (Z.to_nat (zlen s - zlen t + 1)) s t 0) as (r & -> & Hr); [lia|lia|].
  exists r. split; [done|]. split; [intros _|lia]. rewrite Hr. split.
  - intros (j & Hj & Ho). exists (take (Z.to_nat j) s), (drop (length t) (drop (Z.to_nat j) s)).
    unfold occurs_at in Ho. rewrite <-Ho at 1. by rewrite !take_drop.
  - intros (l & k & ->). exists (zlen l). autorewrite with zlen. zlen_pos. split; [lia|].
    unfold occurs_at. by rewrite zlen_to_nat, drop_app_length, take_app_length.
Qed.

Lemma isElementPresent_loop_spec n a i v :
  0 <= i → i + Z.of_nat n <= zlen a →
  isElementPresent_loop n a i v false = Some (bool_decide (v ∈ take n (drop (Z.to_nat i) a))).
Proof.
  revert i. induction n as [|n IH]; intros i Hi Hn; cbn [isElementPresent_loop].
  { by rewrite take_0. }
  destruct (lookup_lt_is_Some_2 a (Z.to_nat i)) as [x Hx]; [unfold zlen in Hn; lia|].
  unfold rd. ztrue (0 <=? i). rewrite Hx. cbn [mbind option_bind].
  rewrite (drop_S _ _ _ Hx). cbn [take].
  destruct (Z.eqb_spec x v) as [->|Hne].
  - rewrite bool_decide_eq_true_2 by (by left). by destruct n.
  - rewrite IH by lia. replace (Z.to_nat (i + 1)) with (S (Z.to_nat i)) by lia.
    f_equal. apply bool_decide_ext. rewrite elem_of_cons. intuition congruence.
Qed.

(** isElementPresentInArrayUInt answers true exactly for the elements of
    the array, for every array and value. *)
Theorem isElementPresent_spec (a : list Z) (v : Z) :
  isElementPresentInArrayUInt (Some a) (zlen a) v = Some (bool_decide (v ∈ a)).
Proof.
  unfold isElementPresentInArrayUInt. zlen_pos. ztest.
  - rewrite isElementPresent_loop_spec by lia. rewrite zlen_to_nat. cbn [drop Z.to_nat].
    by rewrite firstn_all.
  - assert (a = []) as -> by (apply zlen_0_inv; lia). done.
Qed.

Lemma compareIgnoringCase_loop_spec n s t i :
  0 <= i → i + Z.of_nat n = zlen s → zlen s = zlen t →
  compareIgnoringCase_loop n s t i true =
    Some (bool_decide (map toupper (drop (Z.to_nat i) s) = map toupper (drop (Z.to_nat i) t))).
Proof.
  revert i. induction n as [|n IH]; intros i Hi Hs Ht; cbn [compareIgnoringCase_loop].
  { rewrite !drop_ge by (unfold zlen in *; lia). done. }
  destruct (drop_at_nul s i) as (a & -> & ->); [lia|].
  destruct (drop_at_nul t i) as (b & -> & ->); [lia|]. cbn [mbind option_bind map].
  destruct (Z.eqb_spec (toupper a) (toupper b)) as [Hab|Hab]; cbn [negb].
  - rewrite IH by lia. f_equal. apply bool_decide_ext. rewrite Hab. split; [by intros ->|by intros [=]].
  - rewrite bool_decide_eq_false_2 by (by intros [= ? ?]). by destruct n.
Qed.

(** compareEqualStringIgnoringCase is equality of the upper-cased strings. *)
Theorem compareIgnoringCase_spec (s t : list Z) :
  compareEqualStringIgnoringCase (Some s) (Some t) = Some (bool_decide (map toupper s = map toupper t)).
Proof.
  unfold compareEqualStringIgnoringCase. ztest.
  - rewrite compareIgnoringCase_loop_spec by (unfold zlen in *; lia). done.
  - rewrite bool_decide_eq_false_2; [done|]. intros H%(f_equal length).
    rewrite !length_map in H. unfold zlen in *. lia.
Qed.
