(* ===== verification/Base64.v ===== *)
(** * base64.c and its wrappers in util.c

    [Extra/base64/base64.c] ([b64_int], [b64e_size], [b64d_size], [b64_encode],
    [b64_decode]) and [ffw_base64_encode], [ffw_base64_decode] of
    [core/util.c]. The work arrays [s] start uninitialised: their cells are
    [option]s, and reading a cell never written is undefined behaviour. *)

From Stdlib Require String.
From S2P Require Import Prelude CLib.
Import Stdlib.Strings.String.StringSyntax.
#[local] Delimit Scope string_scope with string.

(** The table, with the NUL of its initialiser. *)
Definition b64_chr : list Z :=
  chars "ABCDEFGHIJKLMNOPQRSTUVWXYZabcdefghijklmnopqrstuvwxyz0123456789+/"%string ++ [0].

Definition b64_int (ch : Z) : Z :=
  if ch =? 43 then 62
  else if ch =? 47 then 63
  else if ch =? 61 then 64
  else if (ch >? 47) && (ch <? 58) then ch + 4
  else if (ch >? 64) && (ch <? 91) then ch - 65
  else if (ch >? 96) && (ch <? 123) then (ch - 97) + 26
  else 0.

(** The [for] loop; [n] is [in_size - i]. *)
Fixpoint b64e_size_loop (n : nat) (i j : Z) : Z :=
  match n with
  | O => j
  | S n' => b64e_size_loop n' (i + 1) (if Z.rem i 3 =? 0 then j + 1 else j)
  end.

Definition b64e_size (in_size : Z) : Z := u32 (4 * b64e_size_loop (Z.to_nat in_size) 0 0).

Definition b64d_size (in_size : Z) : Z := u32 (3 * in_size) / 4.

(** A cell of the work array. *)
Definition cell (s : list (option Z)) (i : Z) : option Z := mjoin s.[i].

(** The first loop of b64_encode; [n] is [in_len - i]. Returns [j], [k], [s]
    and the output. *)
Fixpoint b64_encode_loop (n : nat) (inp : list Z) (i j k : Z) (s : list (option Z)) (out : list Z)
    : option (Z * Z * list (option Z) * list Z) :=
  match n with
  | O => Some (j, k, s, out)
  | S n' =>
      c ← inp.[i];
      s ← s.[j := Some c];
      let j := j + 1 in
      if j =? 3 then
        s0 ← cell s 0; s1 ← cell s 1; s2 ← cell s 2;
        c0 ← b64_chr.[Z.shiftr (Z.land s0 255) 2];
        out ← out.[k + 0 := c0];
        c1 ← b64_chr.[Z.shiftl (Z.land s0 0x03) 4 + Z.shiftr (Z.land s1 0xF0) 4];
        out ← out.[k + 1 := c1];
        c2 ← b64_chr.[Z.shiftl (Z.land s1 0x0F) 2 + Z.shiftr (Z.land s2 0xC0) 6];
        out ← out.[k + 2 := c2];
        c3 ← b64_chr.[Z.land s2 0x3F];
        out ← out.[k + 3 := c3];
        b64_encode_loop n' inp (i + 1) 0 (k + 4) s out
      else b64_encode_loop n' inp (i + 1) j k s out
  end.

(** The rest of b64_encode: the last group of one or two bytes and the NUL. *)
Definition b64_encode_tail (j k : Z) (s : list (option Z)) (out : list Z) : option (Z * list Z) :=
  '(k, out) ← (if negb (j =? 0) then
      s ← (if j =? 1 then s.[1 := Some 0] else Some s);
      s0 ← cell s 0; s1 ← cell s 1;
      c0 ← b64_chr.[Z.shiftr (Z.land s0 255) 2];
      out ← out.[k + 0 := c0];
      c1 ← b64_chr.[Z.shiftl (Z.land s0 0x03) 4 + Z.shiftr (Z.land s1 0xF0) 4];
      out ← out.[k + 1 := c1];
      c2 ← (if j =? 2 then b64_chr.[Z.shiftl (Z.land s1 0x0F) 2] else Some 61);
      out ← out.[k + 2 := c2];
      out ← out.[k + 3 := 61];
      Some (k + 4, out)
    else Some (k, out));
  out ← out.[k := 0];
  Some (k, out).

(** Returned size and output. *)
Definition b64_encode (inp : list Z) (in_len : Z) (out : list Z) : option (Z * list Z) :=
  '(j, k, s, out) ← b64_encode_loop (Z.to_nat in_len) inp 0 0 0 (replicate 3 None) out;
  b64_encode_tail j k s out.

(** The loop of b64_decode; [n] is [in_len - i]. *)
Fixpoint b64_decode_loop (n : nat) (inp : list Z) (i j k : Z) (s : list (option Z)) (out : list Z)
    : option (Z * list Z) :=
  match n with
  | O => Some (k, out)
  | S n' =>
      c ← inp.[i];
      s ← s.[j := Some (b64_int c)];
      let j := j + 1 in
      if j =? 4 then
        s0 ← cell s 0; s1 ← cell s 1; s2 ← cell s 2;
        out ← out.[k + 0 := u8 (Z.shiftl (Z.land s0 255) 2 + Z.shiftr (Z.land s1 0x30) 4)];
        '(k, out) ← (if negb (s2 =? 64) then
            out ← out.[k + 1 := u8 (Z.shiftl (Z.land s1 0x0F) 4 + Z.shiftr (Z.land s2 0x3C) 2)];
            s3 ← cell s 3;
            if negb (s3 =? 64) then
              out ← out.[k + 2 := u8 (Z.shiftl (Z.land s2 0x03) 6 + s3)];
              Some (k + 3, out)
            else Some (k + 2, out)
          else Some (k + 1, out));
        b64_decode_loop n' inp (i + 1) 0 k s out
      else b64_decode_loop n' inp (i + 1) j k s out
  end.

Definition b64_decode (inp : list Z) (in_len : Z) (out : list Z) : option (Z * list Z) :=
  b64_decode_loop (Z.to_nat in_len) inp 0 0 0 (replicate 4 None) out.

(** Result, output buffer and [*outlen], [None] when [outlen] is [NULL]. The
    sizes are cast to [unsigned int]. *)
Definition ffw_base64_encode (indata : option (list Z)) (inlen : Z) (outdata : option (list Z))
    (outlen : option Z) (maxSize : Z) : option (bool * option (list Z) * option Z) :=
  match indata, outdata with
  | Some inp, Some out =>
      if inlen >? 0 then
        if maxSize >=? b64e_size (u32 inlen) then
          '(encodedSize, out) ← b64_encode inp (u32 inlen) out;
          if encodedSize >? 0 then Some (true, Some out, (λ _, encodedSize) <$> outlen)
          else Some (false, Some out, outlen)
        else Some (false, outdata, outlen)
      else Some (false, outdata, outlen)
  | _, _ => Some (false, outdata, outlen)
  end.

Definition ffw_base64_decode (indata : option (list Z)) (inlen : Z) (outdata : option (list Z))
    (outlen : option Z) (destSize : Z) : option (bool * option (list Z) * option Z) :=
  match indata, outdata with
  | Some inp, Some out =>
      if (inlen >? 0) && (inlen mod 4 =? 0) then
        if destSize >=? b64d_size (u32 inlen) then
          '(decodedSize, out) ← b64_decode inp (u32 inlen) out;
          if decodedSize >? 0 then Some (true, Some out, (λ _, decodedSize) <$> outlen)
          else Some (false, Some out, outlen)
        else Some (false, outdata, outlen)
      else Some (false, outdata, outlen)
  | _, _ => Some (false, outdata, outlen)
  end.

Example b64_encode_ex :
  b64_encode [77; 97; 110; 77] 4 (replicate 9 0) = Some (8, chars "TWFuTQ=="%string ++ [0]).
Proof. reflexivity. Qed.

(** ** Reference encoder *)

Definition b64_ch (i : Z) : Z := default 0 b64_chr.[i].

Fixpoint b64_ref (d : list Z) : list Z :=
  match d with
  | [] => []
  | [a] => [b64_ch (a / 4); b64_ch (a mod 4 * 16); 61; 61]
  | [a; b] => [b64_ch (a / 4); b64_ch (a mod 4 * 16 + b / 16); b64_ch (b mod 16 * 4); 61]
  | a :: b :: c :: r =>
      b64_ch (a / 4) :: b64_ch (a mod 4 * 16 + b / 16) ::
      b64_ch (b mod 16 * 4 + c / 64) :: b64_ch (c mod 64) :: b64_ref r
  end.

(** Induction by groups of three. *)
Lemma list3_ind {A} (P : list A → Prop) :
  P [] → (∀ a, P [a]) → (∀ a b, P [a; b]) → (∀ a b c r, P r → P (a :: b :: c :: r)) → ∀ l, P l.
Proof.
  intros H0 H1 H2 H3. fix IH 1. intros [|a [|b [|c r]]]; [done|done|done|apply H3, IH].
Qed.

(** ** The masks as arithmetic *)

Lemma mask_low z m : 0 <= m → Z.land z (Z.ones m) = z mod 2 ^ m.
Proof. intros. by apply Z.land_ones. Qed.

Lemma mask_mid z m k : 0 <= k → 0 <= m →
  Z.shiftr (Z.land z (Z.shiftl (Z.ones m) k)) k = (z / 2 ^ k) mod 2 ^ m.
Proof.
  intros. rewrite Z.shiftr_land, Z.shiftr_shiftl_l by lia.
  rewrite Z.sub_diag, Z.shiftl_0_r, mask_low, Z.shiftr_div_pow2 by lia. done.
Qed.

Create Rewrite HintDb masks.
Lemma mask_255_2 z : Z.shiftr (Z.land z 255) 2 = z mod 256 / 4.
Proof. change 255 with (Z.ones 8). rewrite mask_low, Z.shiftr_div_pow2 by lia. done. Qed.
Lemma mask_255_l2 z : Z.shiftl (Z.land z 255) 2 = z mod 256 * 4.
Proof. change 255 with (Z.ones 8). rewrite mask_low, Z.shiftl_mul_pow2 by lia. done. Qed.
Lemma mask_3_4 z : Z.shiftl (Z.land z 0x03) 4 = z mod 4 * 16.
Proof. change 3 with (Z.ones 2). rewrite mask_low, Z.shiftl_mul_pow2 by lia. done. Qed.
Lemma mask_3_6 z : Z.shiftl (Z.land z 0x03) 6 = z mod 4 * 64.
Proof. change 3 with (Z.ones 2). rewrite mask_low, Z.shiftl_mul_pow2 by lia. done. Qed.
Lemma mask_F_2 z : Z.shiftl (Z.land z 0x0F) 2 = z mod 16 * 4.
Proof. change 15 with (Z.ones 4). rewrite mask_low, Z.shiftl_mul_pow2 by lia. done. Qed.
Lemma mask_F_4 z : Z.shiftl (Z.land z 0x0F) 4 = z mod 16 * 16.
Proof. change 15 with (Z.ones 4). rewrite mask_low, Z.shiftl_mul_pow2 by lia. done. Qed.
Lemma mask_3F z : Z.land z 0x3F = z mod 64.
Proof. change 63 with (Z.ones 6). by rewrite mask_low. Qed.
Lemma mask_F0 z : Z.shiftr (Z.land z 0xF0) 4 = (z / 16) mod 16.
Proof. by apply (mask_mid z 4 4). Qed.
Lemma mask_C0 z : Z.shiftr (Z.land z 0xC0) 6 = (z / 64) mod 4.
Proof. by apply (mask_mid z 2 6). Qed.
Lemma mask_30 z : Z.shiftr (Z.land z 0x30) 4 = (z / 16) mod 4.
Proof. by apply (mask_mid z 2 4). Qed.
Lemma mask_3C z : Z.shiftr (Z.land z 0x3C) 2 = (z / 4) mod 16.
Proof. by apply (mask_mid z 4 2). Qed.
#[export] Hint Rewrite mask_255_2 mask_255_l2 mask_3_4 mask_3_6 mask_F_2 mask_F_4 mask_3F mask_F0
  mask_C0 mask_30 mask_3C : masks.

(** ** Encoding *)

Lemma b64_chr_ch i : 0 <= i < 64 → b64_chr.[i] = Some (b64_ch i).
Proof.
  intros Hi. unfold b64_ch. destruct (rd_is_Some b64_chr i) as (v & -> & _); [|done].
  change (zlen b64_chr) with 65. lia.
Qed.

Lemma b64_int_ch i : 0 <= i < 64 → b64_int (b64_ch i) = i.
Proof.
  intros Hi. apply Z.eqb_eq.
  exact (check_range (λ i, b64_int (b64_ch i) =? i) 64 i eq_refl Hi).
Qed.

(** Runs straight-line code on cells, table look-ups and a growing output. *)
Ltac b64_run := repeat first
  [ progress autorewrite with cells masks
  | progress cbn [mbind option_bind mjoin option_join Z.eqb Pos.eqb negb cell]
  | progress change (0 + 1) with 1 | progress change (1 + 1) with 2
  | progress change (2 + 1) with 3 | progress change (3 + 1) with 4
  | progress unfold cell | progress change (b64_int 61) with 64
  | rewrite b64_chr_ch by dlia | rewrite wr_at by zlia ].

(** Reads at [zlen l + n] of [l ++ k], for a known [k]. *)
Lemma rd_app_off (l k : list Z) (n : Z) (v : Z) :
  0 <= n → k.[n] = Some v → (l ++ k).[zlen l + n] = Some v.
Proof. intros ? <-. rewrite rd_app_r by lia. f_equal. lia. Qed.

Ltac b64_reads l :=
  replace (zlen l + 1 + 1 + 1 + 1) with (zlen l + 4) by lia;
  replace (zlen l + 1 + 1 + 1) with (zlen l + 3) by lia;
  replace (zlen l + 1 + 1) with (zlen l + 2) by lia;
  rewrite ?(rd_at l _ _ (zlen l)) by done;
  erewrite ?(rd_app_off l _ 1), ?(rd_app_off l _ 2), ?(rd_app_off l _ 3) by done.

(** One group of three bytes. *)
Lemma b64_encode_loop_group n l a b c r o w s :
  is_byte a → is_byte b → is_byte c → length s = 3%nat → 4 <= zlen w →
  b64_encode_loop (3 + n) (l ++ a :: b :: c :: r) (zlen l) 0 (zlen o) s (o ++ w) =
    b64_encode_loop n ((l ++ [a; b; c]) ++ r) (zlen (l ++ [a; b; c])) 0
      (zlen (o ++ b64_ref [a; b; c])) [Some a; Some b; Some c]
      ((o ++ b64_ref [a; b; c]) ++ drop 4 w).
Proof.
  unfold is_byte. intros Ha Hb Hc Hs Hw.
  destruct s as [|s0 [|s1 [|s2 [|]]]]; try done.
  destruct w as [|w0 [|w1 [|w2 [|w3 w]]]]; autorewrite with zlen in Hw; try lia. clear Hw.
  replace (l ++ a :: b :: c :: r) with ((l ++ [a; b; c]) ++ r) by by rewrite <-app_assoc.
  cbn [Nat.add b64_encode_loop].
  assert (∀ k v, [a; b; c] !! k = Some v → ((l ++ [a; b; c]) ++ r).[zlen l + Z.of_nat k] = Some v)
    as Hrd.
  { intros k v Hk. rewrite <-app_assoc, rd_app_r by lia.
    replace (zlen l + Z.of_nat k - zlen l) with (Z.of_nat k) by lia.
    rewrite rd_nat. by apply lookup_app_l_Some. }
  replace (zlen l) with (zlen l + Z.of_nat 0) at 1 by lia. rewrite (Hrd 0%nat a) by done.
  replace (zlen l + 1 + 1) with (zlen l + Z.of_nat 2) by lia. rewrite (Hrd 2%nat c) by done.
  replace (zlen l + 1) with (zlen l + Z.of_nat 1) by lia. rewrite (Hrd 1%nat b) by done.
  cbn [mbind option_bind]. b64_run.
  rewrite (Z.mod_small a 256), (Z.mod_small (b / 16)), (Z.mod_small (c / 64)) by dlia.
  rewrite <-!app_assoc. cbn [app b64_ref drop]. rewrite !zlen_app.
  f_equal. rewrite !zlen_cons. change (zlen []) with 0. lia.
Qed.

(** A whole input: the text of the bytes, then the write of the NUL. *)
Lemma b64_encode_spec d l o w s :
  Forall is_byte d → length s = 3%nat → zlen (b64_ref d) <= zlen w →
  ('(j, k, s, out) ← b64_encode_loop (length d) (l ++ d) (zlen l) 0 (zlen o) s (o ++ w);
   b64_encode_tail j k s out) =
    (out ← (o ++ b64_ref d ++ drop (length (b64_ref d)) w).[zlen o + zlen (b64_ref d) := 0];
     Some (zlen o + zlen (b64_ref d), out)).
Proof.
  revert l o w s. induction d as [|a|a b|a b c r IH] using list3_ind; intros l o w s Hd Hs Hw;
    repeat match goal with H : Forall _ (_ :: _) |- _ => inversion_clear H end; unfold is_byte in *.
  - cbn. by rewrite Z.add_0_r.
  - destruct w as [|w0 [|w1 [|w2 [|w3 w]]]]; cbn [b64_ref] in Hw; autorewrite with zlen in Hw;
      zlen_pos; try lia.
    destruct s as [|s0 [|s1 [|s2 [|]]]]; try done.
    cbn [length b64_encode_loop]. b64_reads l. unfold b64_encode_tail. b64_run.
    rewrite (Z.mod_small a 256) by dlia. change (0 / 16) with 0. rewrite Zmod_0_l, Z.add_0_r.
    rewrite <-!app_assoc. done.
  - destruct w as [|w0 [|w1 [|w2 [|w3 w]]]]; cbn [b64_ref] in Hw; autorewrite with zlen in Hw;
      zlen_pos; try lia.
    destruct s as [|s0 [|s1 [|s2 [|]]]]; try done.
    cbn [length b64_encode_loop]. b64_reads l. unfold b64_encode_tail. b64_run.
    rewrite (Z.mod_small a 256), (Z.mod_small (b / 16)) by dlia.
    rewrite <-!app_assoc. done.
  - cbn [b64_ref] in Hw. rewrite !zlen_cons in Hw. zlen_pos.
    change (length (a :: b :: c :: r)) with (3 + length r)%nat.
    rewrite b64_encode_loop_group by (done || lia).
    rewrite IH by (done || (rewrite ?zlen_drop; lia)).
    rewrite <-!app_assoc, zlen_app. cbn [b64_ref app length]. rewrite drop_drop.
    replace (zlen o + zlen [b64_ch (a / 4); b64_ch (a mod 4 * 16 + b / 16);
      b64_ch (b mod 16 * 4 + c / 64); b64_ch (c mod 64)] + zlen (b64_ref r)) with
      (zlen o + (1 + (1 + (1 + (1 + zlen (b64_ref r)))))) by zlia.
    rewrite !zlen_cons. done.
Qed.

(** ** Decoding *)

(** One group of four characters, none of them a padding character. *)
Lemma b64_decode_spec d l t o w s :
  Forall is_byte d → length s = 4%nat → zlen d <= zlen w →
  b64_decode_loop (length (b64_ref d)) (l ++ b64_ref d ++ t) (zlen l) 0 (zlen o) s (o ++ w) =
    Some (zlen o + zlen d, o ++ d ++ drop (length d) w).
Proof.
  revert l o w s. induction d as [|a|a b|a b c r IH] using list3_ind; intros l o w s Hd Hs Hw;
    repeat match goal with H : Forall _ (_ :: _) |- _ => inversion_clear H end; unfold is_byte in *.
  - cbn. by rewrite Z.add_0_r.
  - destruct w as [|w0 w]; cbn [b64_ref] in Hw; autorewrite with zlen in Hw; try lia.
    destruct s as [|s0 [|s1 [|s2 [|s3 [|]]]]]; try done.
    cbn [length b64_ref b64_decode_loop app].
    b64_reads l. b64_run. rewrite ?b64_int_ch by dlia. b64_run.
    unfold u8. rewrite <-!app_assoc. cbn [app drop length].
    replace ((a / 4) mod 256 * 4 + (a mod 4 * 16 / 16) mod 4) with a by dlia.
    pows. by rewrite (Z.mod_small a).
  - destruct w as [|w0 [|w1 w]]; autorewrite with zlen in Hw; zlen_pos; try lia.
    destruct s as [|s0 [|s1 [|s2 [|s3 [|]]]]]; try done.
    cbn [length b64_ref b64_decode_loop app].
    b64_reads l. b64_run. rewrite ?b64_int_ch by dlia. dfalse (b mod 16 * 4 =? 64). b64_run.
    unfold u8. rewrite <-!app_assoc. cbn [app drop length].
    pows. repeat f_equal; dlia.
  - rewrite !zlen_cons in Hw. pose proof (zlen_nonneg r).
    destruct w as [|w0 [|w1 [|w2 w]]]; autorewrite with zlen in Hw; try lia.
    destruct s as [|s0 [|s1 [|s2 [|s3 [|]]]]]; try done.
    cbn [length b64_ref b64_decode_loop app].
    b64_reads l. b64_run. rewrite ?b64_int_ch by dlia.
    dfalse (b mod 16 * 4 + c / 64 =? 64). dfalse (c mod 64 =? 64). b64_run.
    replace (u8 (_ mod 256 * 4 + _)) with a by (unfold u8; dlia).
    replace (u8 (_ mod 16 * 16 + _)) with b by (unfold u8; dlia).
    replace (u8 (_ mod 4 * 64 + _)) with c by (unfold u8; dlia).
    specialize (IH (l ++ [b64_ch (a / 4); b64_ch (a mod 4 * 16 + b / 16);
      b64_ch (b mod 16 * 4 + c / 64); b64_ch (c mod 64)]) (o ++ [a; b; c]) w).
    rewrite !zlen_app, !zlen_cons in IH. change (zlen []) with 0 in IH.
    rewrite <-!app_assoc in IH. rewrite <-!app_assoc. cbn [app drop] in *.
    change (1 + (1 + (1 + (1 + 0)))) with 4 in IH. change (1 + (1 + (1 + 0))) with 3 in IH.
    rewrite IH by (done || lia). rewrite !zlen_cons. do 2 f_equal. lia.
Qed.

(** ** Sizes *)

Lemma zlen_b64_ref d : zlen (b64_ref d) = 4 * ((zlen d + 2) / 3).
Proof.
  induction d as [| | |a b c r IH] using list3_ind; [done..|].
  cbn [b64_ref]. rewrite !zlen_cons, IH. dlia.
Qed.

Lemma b64e_size_loop_spec n i : 0 <= i →
  b64e_size_loop n i ((i + 2) / 3) = (i + Z.of_nat n + 2) / 3.
Proof.
  revert i. induction n as [|n IH]; intros i Hi; cbn [b64e_size_loop].
  { f_equal. lia. }
  rewrite Z.rem_mod_nonneg by lia.
  replace (if i mod 3 =? 0 then (i + 2) / 3 + 1 else (i + 2) / 3) with ((i + 1 + 2) / 3)
    by (ztest; dlia).
  rewrite IH by lia. f_equal. lia.
Qed.

Lemma b64e_size_ok n : 0 <= n < 2^31 → b64e_size n = 4 * ((n + 2) / 3).
Proof.
  intros Hn. unfold b64e_size, u32. change 0 with ((0 + 2) / 3) at 2.
  rewrite b64e_size_loop_spec by lia. rewrite Z2Nat.id by lia. change (2 ^ 31) with 2147483648 in Hn.
  rewrite Z.mod_small by dlia. done.
Qed.

Lemma b64_ch_nonzero i : 0 <= i < 64 → b64_ch i ≠ 0.
Proof.
  intros Hi.
  pose proof (check_range (λ i, negb (b64_ch i =? 0)) 64 i eq_refl Hi) as H.
  cbv beta in H. by zprop.
Qed.

Lemma b64_ref_nonzero d : Forall is_byte d → Forall (λ c, c ≠ 0) (b64_ref d).
Proof.
  induction d as [|a|a b|a b c r IH] using list3_ind; intros Hd;
    repeat match goal with H : Forall _ (_ :: _) |- _ => inversion_clear H end; unfold is_byte in *;
    cbn [b64_ref]; repeat (apply Forall_cons_2; [first [done | apply b64_ch_nonzero; dlia]|]);
    try apply Forall_nil_2. all: by apply IH.
Qed.

Lemma b64_encode_ok d out :
  Forall is_byte d → zlen (b64_ref d) <= zlen out →
  b64_encode d (zlen d) out =
    (out ← (b64_ref d ++ drop (length (b64_ref d)) out).[zlen (b64_ref d) := 0];
     Some (zlen (b64_ref d), out)).
Proof.
  intros Hd Hout. unfold b64_encode. rewrite zlen_to_nat.
  exact (b64_encode_spec d [] [] out (replicate 3 None) Hd eq_refl Hout).
Qed.

(** A buffer with room for the text and its NUL. *)
Lemma ffw_encode_ok d b x :
  Forall is_byte d → 0 < zlen d < 2^30 → 4 * ((zlen d + 2) / 3) < zlen b →
  ffw_base64_encode (Some d) (zlen d) (Some b) (Some x) (zlen b) =
    Some (true, Some (b64_ref d ++ 0 :: drop (S (length (b64_ref d))) b), Some (zlen (b64_ref d))).
Proof.
  intros Hd Hl Hb. change (2 ^ 30) with 1073741824 in *. pose proof (zlen_b64_ref d) as Href.
  unfold ffw_base64_encode. ztrue (zlen d >? 0).
  unfold u32. pows. rewrite Z.mod_small by lia. rewrite b64e_size_ok by lia.
  ztrue (zlen b >=? 4 * ((zlen d + 2) / 3)). rewrite b64_encode_ok by (done || lia).
  destruct (drop (length (b64_ref d)) b) as [|c w] eqn:E.
  { apply (f_equal length) in E. rewrite length_drop in E. cbn in E. unfold zlen in *. lia. }
  rewrite wr_app_next. cbn [mbind option_bind]. dtrue (zlen (b64_ref d) >? 0).
  cbn [fmap option_fmap option_map].
  do 4 f_equal. rewrite <-(Nat.add_1_r (length _)), <-drop_drop, E. done.
Qed.

Lemma ffw_encode_small d b x :
  0 < zlen d < 2^30 → zlen b < 4 * ((zlen d + 2) / 3) →
  ffw_base64_encode (Some d) (zlen d) (Some b) (Some x) (zlen b) = Some (false, Some b, Some x).
Proof.
  intros Hl Hb. change (2 ^ 30) with 1073741824 in *. unfold ffw_base64_encode. ztrue (zlen d >? 0).
  unfold u32. pows. rewrite Z.mod_small by lia. rewrite b64e_size_ok by lia.
  by zfalse (zlen b >=? 4 * ((zlen d + 2) / 3)).
Qed.

(** C39: what ffw_base64_encode writes, ffw_base64_decode reads back, for
    every non-empty byte string; the text has four characters for every group
    of three bytes begun. The output buffer of the encoder needs one cell more
    than the text. *)
Theorem base64_roundtrip (d b out : list Z) (x y : Z) :
  Forall is_byte d → 0 < zlen d < 2^30 →
  4 * ((zlen d + 2) / 3) < zlen b → 3 * ((zlen d + 2) / 3) <= zlen out →
  ∃ b' n, ffw_base64_encode (Some d) (zlen d) (Some b) (Some x) (zlen b)
            = Some (true, Some b', Some n) ∧
          n = 4 * ((zlen d + 2) / 3) ∧ strlen b' = Some n ∧
          ffw_base64_decode (Some (take (Z.to_nat n) b')) n (Some out) (Some y) (zlen out)
            = Some (true, Some (d ++ drop (length d) out), Some (zlen d)).
Proof.
  intros Hd Hl Hb Hout. change (2 ^ 30) with 1073741824 in *.
  pose proof (zlen_b64_ref d) as Href.
  eexists (b64_ref d ++ 0 :: drop (S (length (b64_ref d))) b), (zlen (b64_ref d)).
  split; [|split; [done|split]].
  - by apply ffw_encode_ok.
  - apply strlen_app, b64_ref_nonzero; done.
  - rewrite zlen_to_nat, take_app_length. unfold ffw_base64_decode.
    dtrue ((zlen (b64_ref d) >? 0) && (zlen (b64_ref d) mod 4 =? 0)).
    unfold u32. pows. rewrite Z.mod_small by dlia. unfold b64d_size, u32. pows.
    rewrite Z.mod_small by dlia. dtrue (zlen out >=? 3 * zlen (b64_ref d) / 4).
    unfold b64_decode. rewrite zlen_to_nat.
    pose proof (b64_decode_spec d [] [] [] out (replicate 4 None) Hd eq_refl) as E.
    cbn [app] in E. rewrite app_nil_r in E.
    change (zlen []) with 0 in E. rewrite E by dlia. change (0 + zlen d) with (zlen d).
    cbn [mbind option_bind]. by ztrue (zlen d >? 0).
Qed.

Lemma base64_roundtrip_witness :
  ∃ b' n, ffw_base64_encode (Some [1; 255]) 2 (Some (replicate 5 7)) (Some 0) 5
            = Some (true, Some b', Some n) ∧
          n = 4 ∧ strlen b' = Some n ∧
          ffw_base64_decode (Some (take (Z.to_nat n) b')) n (Some [9; 9; 9]) (Some 0) 3
            = Some (true, Some [1; 255; 9], Some 2).
Proof.
  apply (base64_roundtrip [1; 255] (replicate 5 7) [9; 9; 9] 0 0);
    [repeat constructor; unfold is_byte; lia|vm_compute; split; congruence|
     vm_compute; congruence|vm_compute; congruence].
Defined.

(** On an output buffer of exactly the size that ffw_base64_encode checks
    for, the NUL written behind the text is out of bounds. *)
Theorem base64_encode_overflow (d b : list Z) (x : option Z) :
  Forall is_byte d → 0 < zlen d < 2^30 → zlen b = 4 * ((zlen d + 2) / 3) →
  ffw_base64_encode (Some d) (zlen d) (Some b) x (zlen b) = None.
Proof.
  intros Hd Hl Hb. change (2 ^ 30) with 1073741824 in *.
  pose proof (zlen_b64_ref d) as Href.
  unfold ffw_base64_encode. ztrue (zlen d >? 0).
  unfold u32. pows. rewrite Z.mod_small by lia. rewrite b64e_size_ok by lia.
  ztrue (zlen b >=? 4 * ((zlen d + 2) / 3)). rewrite b64_encode_ok by (done || lia).
  rewrite drop_ge by (unfold zlen in *; lia). rewrite app_nil_r.
  by rewrite (proj2 (wr_None _ _ _)) by lia.
Qed.

Lemma base64_encode_overflow_witness :
  ffw_base64_encode (Some [1; 255]) (zlen [1; 255]) (Some [0; 0; 0; 0]) None (zlen [0; 0; 0; 0]) = None.
Proof.
  apply base64_encode_overflow;
    [repeat constructor; unfold is_byte; lia|vm_compute; split; congruence|done].
Defined.
