(* ===== verification/Oid.v ===== *)
(** * Object identifiers: the VLQ and OID text functions of util.c

    [parseDataWithVLQnodes], [decodeVLQvalue] and [convertASN1_OIDtoText] of
    [core/util.c]. Sizes are below 2^31, so that the [int] index of
    decodeVLQvalue holds them. *)

From S2P Require Import Prelude CLib.

(** ** parseDataWithVLQnodes *)

(** The [while] loop; [n] is [sourceLength - index]. Its first test reads
    [ptrSource[index]] before the second compares [index] with the length. *)
Fixpoint parseVLQ_loop (n : nat) (src : list Z) (index : Z) (ext : list Z) (extMax : Z)
    : option (Z * list Z) :=
  c ← src.[index];
  match n with
  | O => Some (index, ext)
  | S n' =>
      if (Z.land c 0x80 >? 0) && (index <? extMax) then
        ext ← ext.[index := c];
        parseVLQ_loop n' src (index + 1) ext extMax
      else Some (index, ext)
  end.

(** Result, [ptrExtractData] and [*ptrExtractDatalength]. *)
Definition parseDataWithVLQnodes (ptrSource : option (list Z)) (sourceLength : Z)
    (ptrExtractData : option (list Z)) (ptrExtractDatalength : option Z) (extractDataMaxSize : Z)
    : option (bool * option (list Z) * option Z) :=
  match ptrSource, ptrExtractData, ptrExtractDatalength with
  | Some src, Some ext, Some _ =>
      if (sourceLength >? 0) && (extractDataMaxSize >? 0) then
        c0 ← src.[0];
        if Z.land c0 0x80 >? 0 then
          '(index, ext) ← parseVLQ_loop (Z.to_nat sourceLength) src 0 ext extractDataMaxSize;
          if (index <? sourceLength) && (index <? extractDataMaxSize) then
            c ← src.[index];
            ext ← ext.[index := c];
            Some (true, Some ext, Some (index + 1))
          else Some (false, Some ext, Some 0)
        else
          ext ← ext.[0 := c0];
          Some (true, Some ext, Some 1)
      else Some (false, ptrExtractData, ptrExtractDatalength)
  | _, _, _ => Some (false, ptrExtractData, ptrExtractDatalength)
  end.

(** ** decodeVLQvalue *)

(** The inner [for] loop over the bits of a byte; [n] is [7 - inputShifter].
    Returns [res], [totalShift], [outputORmask] and [*ptrOutputValue]. *)
Fixpoint decodeVLQ_bits (n : nat) (b totalShift maxShift inputANDmask outputORmask out : Z)
    : bool * Z * Z * Z :=
  match n with
  | O => (true, totalShift, outputORmask, out)
  | S n' =>
      let totalShift := totalShift + 1 in
      if totalShift >? maxShift then (false, totalShift, outputORmask, 0)
      else
        let out := if Z.land b inputANDmask >? 0 then Z.lor out outputORmask else out in
        decodeVLQ_bits n' b totalShift maxShift (u8 (Z.shiftl inputANDmask 1))
          (u64 (Z.shiftl outputORmask 1)) out
  end.

(** The outer [while] loop, from the last byte to the first; [n] is
    [inputIndex + 1]. *)
Fixpoint decodeVLQ_loop (n : nat) (p : list Z) (totalShift maxShift outputORmask out : Z)
    : option (bool * Z) :=
  match n with
  | O => Some (true, out)
  | S n' =>
      b ← p.[Z.of_nat n'];
      let '(res, totalShift, outputORmask, out) :=
        decodeVLQ_bits 7 b totalShift maxShift 0x01 outputORmask out in
      if res then decodeVLQ_loop n' p totalShift maxShift outputORmask out
      else Some (false, out)
  end.

(** Result and [*ptrOutputValue]. *)
Definition decodeVLQvalue (ptrVLQvalue : option (list Z)) (VLQvalueSize : Z)
    (ptrOutputValue : option Z) : option (bool * option Z) :=
  match ptrVLQvalue, ptrOutputValue with
  | Some p, Some _ =>
      if VLQvalueSize >? 1 then
        '(res, out) ← decodeVLQ_loop (Z.to_nat VLQvalueSize) p 0 (8 * 8) 0x01 0;
        Some (res, Some out)
      else Some (false, ptrOutputValue)
  | _, _ => Some (false, ptrOutputValue)
  end.

(** ** convertASN1_OIDtoText *)

(** [strncat(dst, s, n)] on the array [dst]. *)
Definition strncat (dst s : list Z) (n : Z) : option (list Z) :=
  k ← strlen dst;
  wr_range dst k (take (Z.to_nat n) s ++ [0]).

(** The text of the first value, which holds two nodes, and of the next ones. *)
Definition first_nodes_text (nodeValue : Z) : list Z :=
  let firstNode := nodeValue / 40 in
  let firstNode := if firstNode >? 1 then 2 else firstNode in
  let secondNode := u64 (nodeValue - firstNode * 40) in
  snprintf 50 (fmt_llu firstNode ++ [46] ++ fmt_llu secondNode).

Definition next_node_text (nodeValue : Z) : list Z := snprintf 50 (46 :: fmt_llu nodeValue).

(** The [while] loop. Every round consumes at least one byte, so the length of
    the input is enough fuel. The [break]s clear the text. *)
Fixpoint OIDtoText_loop (fuel : nat) (oid : list Z) (OIDsize oidParser : Z) (currentNode : list Z)
    (processFirstNodes : bool) (text : list Z) (max : Z) : option (bool * list Z) :=
  if oidParser <? OIDsize then
    match fuel with
    | O => None
    | S fuel' =>
        r ← parseDataWithVLQnodes (Some (drop (Z.to_nat oidParser) oid)) (OIDsize - oidParser)
              (Some currentNode) (Some 0) 20;
        match r with
        | (true, Some currentNode, Some currentNodeLength) =>
            d ← (if currentNodeLength =? 1 then
                   v ← currentNode.[0]; Some (Some (v, oidParser + 1))
                 else
                   r ← decodeVLQvalue (Some currentNode) currentNodeLength (Some 0);
                   match r with
                   | (true, Some v) => Some (Some (v, oidParser + currentNodeLength))
                   | _ => Some None
                   end);
            match d with
            | None => text ← text.[0 := 0]; Some (false, text)
            | Some (nodeValue, oidParser) =>
                let textBuffer :=
                  if processFirstNodes then first_nodes_text nodeValue
                  else next_node_text nodeValue in
                k ← strlen text;
                if k + zlen textBuffer <? max then
                  text ← strncat text textBuffer (max - k - 1);
                  OIDtoText_loop fuel' oid OIDsize oidParser currentNode false text max
                else text ← text.[0 := 0]; Some (false, text)
            end
        | _ => text ← text.[0 := 0]; Some (false, text)
        end
    end
  else Some (true, text).

(** [currentNode] is the uninitialised local array. *)
Definition convertASN1_OIDtoText (currentNode : list Z) (ptrOID : option (list Z)) (OIDsize : Z)
    (ptrOIDtext : option (list Z)) (OIDtextMaxSize : Z) : option (bool * option (list Z)) :=
  match ptrOID, ptrOIDtext with
  | Some oid, Some text =>
      if (OIDsize >? 0) && (OIDtextMaxSize >? 2) then
        text ← wr_range text 0 (fill 0 OIDtextMaxSize);
        '(res, text) ← OIDtoText_loop (Z.to_nat OIDsize) oid OIDsize 0 currentNode true text
                         OIDtextMaxSize;
        Some (res, Some text)
      else Some (false, ptrOIDtext)
  | _, _ => Some (false, ptrOIDtext)
  end.

Example oid_text_ex :
  convertASN1_OIDtoText (replicate 20 0) (Some [0x2B; 0x06; 0x81; 0x48]) 4 (Some (replicate 12 1)) 12
    = Some (true, Some [49; 46; 51; 46; 54; 46; 50; 48; 48; 0; 0; 0]).
Proof. reflexivity. Qed.

(** ** Base-128 values *)

(** Reference: positional value of base-128 digits, bit 7 ignored. *)
Fixpoint vlq_value (l : list Z) : Z :=
  match l with
  | [] => 0
  | b :: r => b mod 128 * 2 ^ (7 * zlen r) + vlq_value r
  end.

Lemma vlq_value_bound l : 0 <= vlq_value l < 2 ^ (7 * zlen l).
Proof.
  induction l as [|b r IH]; [done|]. cbn [vlq_value]. rewrite zlen_cons. zlen_pos.
  rewrite Z.mul_add_distr_l, Z.pow_add_r by lia. change (2 ^ (7 * 1)) with 128.
  pose proof (Z.mod_pos_bound b 128). nia.
Qed.

Lemma lor_pow2_add out k : 0 <= k → 0 <= out < 2 ^ k → Z.lor out (2 ^ k) = out + 2 ^ k.
Proof.
  intros Hk Ho. rewrite Z.lor_comm. rewrite <-(Z.mul_1_l (2 ^ k)), <-Z.shiftl_mul_pow2 by lia.
  rewrite lor_shiftl_add by lia. rewrite Z.shiftl_mul_pow2 by lia. lia.
Qed.

Lemma land_pow2_gtb b i : 0 <= b → 0 <= i → (Z.land b (2 ^ i) >? 0) = ((b / 2 ^ i) mod 2 =? 1).
Proof.
  intros Hb Hi.
  assert (Z.land b (2 ^ i) = (b / 2 ^ i) mod 2 * 2 ^ i) as ->.
  { rewrite <-(Z.shiftr_div_pow2 b) by lia. rewrite <-Z.bit0_mod, Z.shiftr_spec, Z.add_0_l by lia.
    rewrite <-Z.shiftl_mul_pow2 by lia. apply Z.bits_inj'. intros n Hn.
    rewrite Z.land_spec, Z.pow2_bits_eqb, Z.shiftl_spec by lia.
    destruct (Z.eqb_spec i n) as [<-|].
    - rewrite Z.sub_diag. by destruct (Z.testbit b i).
    - rewrite andb_false_r. destruct (Z.testbit b i); cbn [Z.b2z]; [|by rewrite Z.bits_0].
      destruct (Z.lt_ge_cases n i); [by rewrite Z.testbit_neg_r by lia|].
      symmetry. change 1 with (2 ^ 0). rewrite Z.pow2_bits_eqb by lia. lia. }
  pose proof (Z.pow_pos_nonneg 2 i). pose proof (Z.mod_pos_bound (b / 2 ^ i) 2).
  destruct (Z.eq_dec ((b / 2 ^ i) mod 2) 1) as [->|]; [lia|].
  replace ((b / 2 ^ i) mod 2) with 0 by lia. done.
Qed.

(** [n] bits of a byte from bit [i], when they fit in the 64 bits. *)
Lemma decodeVLQ_bits_spec n b i k out :
  0 <= b < 256 → 0 <= i → i + Z.of_nat n <= 7 → 0 <= k → k + i + Z.of_nat n <= 63 →
  0 <= out < 2 ^ (k + i) →
  decodeVLQ_bits n b (k + i) 64 (2 ^ i) (2 ^ (k + i)) out =
    (true, k + i + Z.of_nat n, 2 ^ (k + i + Z.of_nat n),
     out + (b / 2 ^ i) mod 2 ^ Z.of_nat n * 2 ^ (k + i)).
Proof.
  revert i out. induction n as [|n IH]; intros i out Hb Hi Hn Hk Hkn Ho; cbn [decodeVLQ_bits].
  { rewrite !Z.add_0_r. change (2 ^ Z.of_nat 0) with 1. by rewrite Z.mod_1_r, Z.add_0_r. }
  zfalse (k + i + 1 >? 64). rewrite land_pow2_gtb by lia.
  unfold u8, u64. rewrite !Z.shiftl_mul_pow2, <-!Z.pow_add_r by lia.
  rewrite !Z.mod_small by (split; [apply Z.pow_nonneg; lia|apply Z.pow_lt_mono_r; lia]).
  rewrite <-(Z.add_assoc k).
  pose proof (Z.pow_pos_nonneg 2 (k + i)). pose proof (Z.mod_pos_bound (b / 2 ^ i) 2).
  set (bit := (b / 2 ^ i) mod 2) in *.
  replace (if bit =? 1 then Z.lor out (2 ^ (k + i)) else out) with (out + bit * 2 ^ (k + i)).
  2: { destruct (Z.eqb_spec bit 1) as [->|]; [rewrite lor_pow2_add by lia; lia|].
       replace bit with 0 by lia. lia. }
  rewrite IH; [|done|lia|lia|lia|lia|].
  - replace (k + (i + 1) + Z.of_nat n) with (k + i + Z.of_nat (S n)) by lia. f_equal.
    rewrite <-Z.add_assoc. f_equal. rewrite Z.add_assoc, !Z.pow_add_r by lia.
    rewrite Nat2Z.inj_succ, <-Z.add_1_r, (Z.pow_add_r 2 (Z.of_nat n)) by lia. change (2 ^ 1) with 2.
    rewrite (Z.mul_comm (2 ^ Z.of_nat n)), Z.rem_mul_r by (try apply Z.pow_nonzero; lia).
    rewrite <-(Z.div_div b) by (try apply Z.pow_nonzero; lia). fold bit. lia.
  - rewrite Z.add_assoc, (Z.pow_add_r _ _ 1) by lia. change (2 ^ 1) with 2. nia.
Qed.

(** Bits of a tenth byte do not fit. *)
Lemma decodeVLQ_bits_overflow b orm out :
  ∃ t o, decodeVLQ_bits 7 b 63 64 1 orm out = (false, t, o, 0).
Proof. eexists _, _. reflexivity. Qed.

Lemma decodeVLQ_loop_spec q r t :
  Forall is_byte q → zlen r <= 9 →
  decodeVLQ_loop (length q) (q ++ r ++ t) (7 * zlen r) 64 (2 ^ (7 * zlen r)) (vlq_value r) =
    Some (if zlen q + zlen r <=? 9 then (true, vlq_value (q ++ r)) else (false, 0)).
Proof.
  revert r. induction q as [|b q IH] using rev_ind; intros r Hq Hr.
  { cbn [length decodeVLQ_loop app]. change (zlen []) with 0. by ztrue (0 + zlen r <=? 9). }
  apply Forall_app in Hq as [Hq Hb]. inversion_clear Hb as [|?? Hb' _]. unfold is_byte in Hb'.
  rewrite length_app, Nat.add_comm. cbn [length Nat.add decodeVLQ_loop].
  rewrite <-!app_assoc. cbn [app]. change (Z.of_nat (length q)) with (zlen q). rewrite rd_at by done.
  cbn [mbind option_bind]. zlen_pos. pose proof (vlq_value_bound r) as Hv.
  destruct (Z.eq_dec (zlen r) 9) as [H9|].
  - rewrite H9. destruct (decodeVLQ_bits_overflow b (2 ^ (7 * 9)) (vlq_value r)) as (t0 & o & E).
    change (7 * 9) with 63 in *. rewrite E. rewrite zlen_app. change (zlen [b]) with 1.
    by zfalse (zlen q + 1 + 9 <=? 9).
  - pose proof (decodeVLQ_bits_spec 7 b 0 (7 * zlen r) (vlq_value r)) as E.
    rewrite !Z.add_0_r in E. change (2 ^ 0) with 1 in E. change (Z.of_nat 7) with 7 in E.
    change (2 ^ 7) with 128 in E. rewrite Z.div_1_r in E. rewrite E by lia. clear E.
    specialize (IH (b :: r) Hq). rewrite zlen_cons in IH. cbn [vlq_value app] in IH.
    rewrite zlen_app. change (zlen [b]) with 1.
    replace (7 * zlen r + 7) with (7 * (1 + zlen r)) by lia.
    rewrite (Z.add_comm (vlq_value r)). rewrite IH by lia. f_equal.
    by replace (zlen q + (1 + zlen r)) with (zlen q + 1 + zlen r) by lia.
Qed.

(** [decodeVLQvalue] computes the base-128 value of 2 to 9 bytes, and fails
    with the value 0 on more, whatever they are. *)
Theorem decodeVLQ_spec (p : list Z) (v : Z) :
  Forall is_byte p → 2 <= zlen p →
  decodeVLQvalue (Some p) (zlen p) (Some v) =
    Some (if zlen p <=? 9 then (true, Some (vlq_value p)) else (false, Some 0)).
Proof.
  intros Hp Hl. unfold decodeVLQvalue. ztrue (zlen p >? 1).
  pose proof (decodeVLQ_loop_spec p [] [] Hp) as E. cbn [app] in E. rewrite app_nil_r in E.
  rewrite zlen_to_nat. change (8 * 8) with 64.
  change (vlq_value []) with 0 in E. change (7 * zlen []) with 0 in E. change (2 ^ 0) with 1 in E.
  change (zlen []) with 0 in E. rewrite Z.add_0_r in E.
  rewrite E by lia. cbn. by ztest.
Qed.

Lemma decodeVLQ_spec_witness :
  decodeVLQvalue (Some [0x86; 0x8D; 0x20]) (zlen [0x86; 0x8D; 0x20]) (Some 5) =
    Some (if zlen [0x86; 0x8D; 0x20] <=? 9 then (true, Some (vlq_value [0x86; 0x8D; 0x20])) else (false, Some 0)).
Proof. apply decodeVLQ_spec; [repeat constructor; unfold is_byte; lia|vm_compute; congruence]. Defined.

(** ** Nodes *)

(** The bytes of one base-128 value of at most nine bytes: bit 7 is set in all
    but the last. *)
Definition is_node (c : list Z) : Prop :=
  ∃ hi lo, c = hi ++ [lo] ∧ Forall (λ b, 128 <= b < 256) hi ∧ 0 <= lo < 128 ∧ zlen c <= 9.

Lemma bit7 c : 0 <= c < 256 → (Z.land c 0x80 >? 0) = (128 <=? c).
Proof.
  intros Hc. change 0x80 with (2 ^ 7). rewrite land_pow2_gtb by lia. change (2 ^ 7) with 128.
  destruct (Z.leb_spec 128 c); [apply Z.eqb_eq|apply Z.eqb_neq]; dlia.
Qed.

Lemma parseVLQ_loop_spec hi lo rest l w max n :
  Forall (λ b, 128 <= b < 256) hi → 0 <= lo < 128 → zlen l + zlen hi < max ->
  zlen hi <= zlen w → (length hi < n)%nat →
  parseVLQ_loop n (l ++ hi ++ lo :: rest) (zlen l) (l ++ w) max =
    Some (zlen l + zlen hi, l ++ hi ++ drop (length hi) w).
Proof.
  revert l w n. induction hi as [|h hi IH]; intros l w n Hhi Hlo Hmax Hw Hn;
    (destruct n as [|n]; [cbn in Hn; lia|]); cbn [parseVLQ_loop app].
  - rewrite rd_at by done. cbn [mbind option_bind]. rewrite bit7 by lia. zfalse (128 <=? lo).
    by rewrite Z.add_0_r.
  - inversion_clear Hhi as [|?? Hh Hhi']. rewrite rd_at by done. cbn [mbind option_bind].
    rewrite zlen_cons in *. zlen_pos.
    rewrite bit7 by lia. ztrue ((128 <=? h) && (zlen l <? max)).
    destruct w as [|x w]; [change (zlen []) with 0 in Hw; lia|]. rewrite zlen_cons in Hw.
    rewrite wr_app_next. cbn [mbind option_bind length drop] in *.
    specialize (IH (l ++ [h]) w n Hhi' Hlo). rewrite zlen_app in IH. change (zlen [h]) with 1 in IH.
    rewrite <-!app_assoc in IH. cbn [app] in IH. rewrite IH by lia. do 2 f_equal. lia.
Qed.

Lemma parse_node c rest n ext x :
  is_node c → zlen ext = 20 → zlen c <= n →
  parseDataWithVLQnodes (Some (c ++ rest)) n (Some ext) (Some x) 20 =
    Some (true, Some (c ++ drop (length c) ext), Some (zlen c)).
Proof.
  intros (hi & lo & -> & Hhi & Hlo & Hc) Hext Hn. rewrite zlen_app in Hc, Hn. change (zlen [lo]) with 1 in Hc, Hn.
  unfold parseDataWithVLQnodes. rewrite <-app_assoc. cbn [app].
  zlen_pos. ztrue ((n >? 0) && (20 >? 0)).
  assert (∃ c0, (hi ++ lo :: rest).[0] = Some c0 ∧ (hi = [] ∧ c0 = lo ∨ 128 <= c0 < 256))
    as (c0 & -> & Hc0).
  { destruct Hhi as [|h hi' Hh _]; [by exists lo; split; [|left]|exists h; split; [done|by right]]. }
  cbn [mbind option_bind]. rewrite bit7 by lia. destruct Hc0 as [[-> ->]|Hc0].
  { zfalse (128 <=? lo). destruct ext as [|e ext]; [done|]. by rewrite wr_cell0. }
  ztrue (128 <=? c0).
  pose proof (parseVLQ_loop_spec hi lo rest [] ext 20 (Z.to_nat n)) as E.
  change (zlen []) with 0 in E. cbn [app] in E. rewrite E by (done || unfold zlen in *; lia). clear E.
  cbn [mbind option_bind]. change (0 + zlen hi) with (zlen hi).
  ztrue ((zlen hi <? n) && (zlen hi <? 20)).
  rewrite rd_at by done. cbn [mbind option_bind].
  destruct (drop (length hi) ext) as [|e w] eqn:E.
  { apply (f_equal length) in E. rewrite length_drop in E. cbn in E. unfold zlen in *. lia. }
  rewrite wr_app_next. cbn [mbind option_bind]. rewrite zlen_app. change (zlen [lo]) with 1.
  rewrite <-app_assoc, length_app, <-drop_drop, E. done.
Qed.

(** ** The text *)

(** Reference: the first two arcs are packed in the first value. *)
Definition first_arcs (v : Z) : Z * Z :=
  if v <? 40 then (0, v) else if v <? 80 then (1, v - 40) else (2, v - 80).

Definition oid_text (vs : list Z) : list Z :=
  match vs with
  | [] => []
  | v :: vs => fmt_llu (fst (first_arcs v)) ++ [46] ++ fmt_llu (snd (first_arcs v)) ++
               concat (map (λ v, 46 :: fmt_llu v) vs)
  end.

Lemma first_nodes_text_ok v : 0 <= v < 2 ^ 64 →
  first_nodes_text v = fmt_llu (fst (first_arcs v)) ++ [46] ++ fmt_llu (snd (first_arcs v)).
Proof.
  intros Hv. unfold first_nodes_text, first_arcs, u64.
  assert (∀ a b, 0 <= a → 0 <= b →
    snprintf 50 (fmt_llu a ++ [46] ++ fmt_llu b) = fmt_llu a ++ [46] ++ fmt_llu b) as Hs.
  { intros a b Ha Hb. apply snprintf_all. rewrite !zlen_app. change (zlen [46]) with 1.
    destruct (fmt_llu_spec a Ha), (fmt_llu_spec b Hb). lia. }
  change (2 ^ 64) with 18446744073709551616 in *.
  destruct (Z.ltb_spec v 40); [|destruct (Z.ltb_spec v 80)]; cbn [fst snd].
  - replace (v / 40) with 0 by dlia. cbn [Z.gtb Z.compare]. rewrite Z.mod_small by lia.
    rewrite Hs by lia. by replace (v - 0 * 40) with v by lia.
  - replace (v / 40) with 1 by dlia. cbn [Z.gtb Z.compare Pos.compare Pos.compare_cont].
    rewrite Z.mod_small by lia. rewrite Hs by lia. by replace (v - 1 * 40) with (v - 40) by lia.
  - dtrue (v / 40 >? 1). rewrite Z.mod_small by lia. rewrite Hs by lia.
    by replace (v - 2 * 40) with (v - 80) by lia.
Qed.

Lemma next_node_text_ok v : 0 <= v → next_node_text v = 46 :: fmt_llu v.
Proof.
  intros Hv. apply snprintf_all. rewrite zlen_cons. destruct (fmt_llu_spec v Hv). lia.
Qed.

(** The text the loop still has to write. *)
Definition nodes_text (first : bool) (vs : list Z) : list Z :=
  if first then oid_text vs else concat (map (λ v, 46 :: fmt_llu v) vs).

Lemma nodes_text_cons first v vs : 0 <= v < 2 ^ 64 →
  nodes_text first (v :: vs) =
    (if first then first_nodes_text v else next_node_text v) ++ nodes_text false vs.
Proof.
  intros Hv. destruct first; cbn [nodes_text oid_text].
  - rewrite first_nodes_text_ok by done. by rewrite <-!app_assoc.
  - by rewrite next_node_text_ok by lia.
Qed.

Lemma node_text_nonzero (first : bool) v : 0 <= v < 2 ^ 64 →
  Forall (λ c, c ≠ 0) (if first then first_nodes_text v else next_node_text v).
Proof.
  intros Hv. destruct first.
  - rewrite first_nodes_text_ok by done.
    assert (0 <= fst (first_arcs v) ∧ 0 <= snd (first_arcs v)) as [H1 H2].
    { unfold first_arcs. repeat ztest; cbn [fst snd]; lia. }
    apply Forall_app; split; [apply isdigit_nonzero, (fmt_llu_spec _ H1)|].
    apply Forall_cons_2; [done|]. apply isdigit_nonzero, (fmt_llu_spec _ H2).
  - rewrite next_node_text_ok by lia. apply Forall_cons_2; [done|].
    apply isdigit_nonzero, fmt_llu_spec. lia.
Qed.

Lemma oid_text_nonzero vs :
  Forall (λ v, 0 <= v < 2 ^ 64) vs → Forall (λ c, c ≠ 0) (oid_text vs).
Proof.
  intros H. destruct H as [|v vs Hv Hvs]; [apply Forall_nil_2|].
  change (oid_text (v :: vs)) with (nodes_text true (v :: vs)). rewrite nodes_text_cons by done.
  apply Forall_app. split; [by apply (node_text_nonzero true)|]. cbn [nodes_text].
  clear v Hv. induction Hvs as [|v vs Hv Hvs IH]; [apply Forall_nil_2|]. cbn [map concat].
  apply Forall_app. split; [|done].
  rewrite <-next_node_text_ok by lia. by apply (node_text_nonzero false).
Qed.

Lemma is_node_bytes c : is_node c → Forall is_byte c ∧ 1 <= zlen c <= 9.
Proof.
  intros (hi & lo & -> & Hhi & Hlo & Hc). rewrite zlen_app in *. change (zlen [lo]) with 1 in *.
  zlen_pos. split; [|lia]. apply Forall_app. split; [|repeat constructor; unfold is_byte; lia].
  eapply Forall_impl; [exact Hhi|]. unfold is_byte. cbn. lia.
Qed.

Lemma is_node_value c : is_node c → 0 <= vlq_value c < 2 ^ 63.
Proof.
  intros Hc. destruct (is_node_bytes c Hc) as [_ Hl]. pose proof (vlq_value_bound c).
  assert (2 ^ (7 * zlen c) <= 2 ^ 63) by (apply Z.pow_le_mono_r; lia). lia.
Qed.

(** The value the loop reads from a node of one byte, or decodes. *)
Lemma node_value c ext : is_node c → zlen ext = 20 →
  (zlen c = 1 → (c ++ drop (length c) ext).[0] = Some (vlq_value c)) ∧
  (zlen c ≠ 1 → decodeVLQvalue (Some (c ++ drop (length c) ext)) (zlen c) (Some 0)
                  = Some (true, Some (vlq_value c))).
Proof.
  intros Hc Hext. pose proof Hc as (hi & lo & Ec & Hhi & Hlo & Hl).
  destruct (is_node_bytes c Hc) as [Hb Hlen]. split; intros E.
  - destruct hi; [|subst; autorewrite with zlen in E; zlen_pos; lia]. subst. cbn [app].
    rewrite rd_cons_0. cbn [vlq_value]. change (2 ^ (7 * zlen [])) with 1. f_equal. dlia.
  - unfold decodeVLQvalue. ztrue (zlen c >? 1).
    rewrite zlen_to_nat.
    pose proof (decodeVLQ_loop_spec c [] (drop (length c) ext) Hb) as Ed.
    rewrite app_nil_r in Ed. cbn [app] in Ed. change (8 * 8) with 64.
    change (vlq_value []) with 0 in Ed. change (7 * zlen []) with 0 in Ed.
    change (2 ^ 0) with 1 in Ed. change (zlen []) with 0 in Ed. rewrite Z.add_0_r in Ed.
    rewrite Ed by lia. by ztrue (zlen c <=? 9).
Qed.

(** The array holding a text, cleared behind it. *)
Definition text_buffer (t : list Z) (max : Z) : list Z := t ++ fill 0 (max - zlen t).

Lemma strncat_buffer t s max :
  Forall (λ c, c ≠ 0) t → zlen t + zlen s < max →
  strncat (text_buffer t max) s (max - zlen t - 1) = Some (text_buffer (t ++ s) max).
Proof.
  intros Ht Hs. zlen_pos. unfold strncat, text_buffer, fill.
  destruct (Z.to_nat (max - zlen t)) as [|n] eqn:En; [lia|]. cbn [replicate].
  rewrite strlen_app by done. cbn [mbind option_bind].
  rewrite take_ge by (unfold zlen in *; lia).
  change (0 :: replicate n 0) with (replicate (S n) 0).
  replace (S n) with (length (s ++ [0%Z]) + Z.to_nat (max - zlen t - zlen s - 1))%nat
    by (rewrite length_app; cbn; unfold zlen in *; lia).
  rewrite replicate_add. rewrite wr_range_mid by (by rewrite length_replicate).
  rewrite <-!app_assoc. do 3 f_equal. rewrite zlen_app.
  replace (Z.to_nat (max - (zlen t + zlen s))) with (S (Z.to_nat (max - zlen t - zlen s - 1))) by lia.
  done.
Qed.

Lemma text_buffer_strlen t max :
  Forall (λ c, c ≠ 0) t → zlen t < max → strlen (text_buffer t max) = Some (zlen t).
Proof.
  intros Ht Hm. unfold text_buffer, fill.
  destruct (Z.to_nat (max - zlen t)) as [|n] eqn:En; [lia|]. by apply strlen_app.
Qed.

Lemma zlen_text_buffer t max : zlen t <= max → zlen (text_buffer t max) = max.
Proof. intros. unfold text_buffer, fill. rewrite zlen_app, zlen_replicate. zlen_pos. lia. Qed.

(** What the function leaves: the whole text, or an empty one. *)
Definition text_result (t : list Z) (max : Z) (r : option (bool * list Z)) : Prop :=
  if zlen t <? max then r = Some (true, text_buffer t max)
  else ∃ b, r = Some (false, 0 :: b) ∧ 1 + zlen b = max.

Lemma OIDtoText_loop_spec nodes tail first l t cur max fuel :
  Forall is_node nodes → zlen cur = 20 → Forall (λ c, c ≠ 0) t → 0 < max → zlen t < max →
  (length (concat nodes) <= fuel)%nat →
  text_result (t ++ nodes_text first (vlq_value <$> nodes)) max
    (OIDtoText_loop fuel (l ++ concat nodes ++ tail) (zlen l + zlen (concat nodes)) (zlen l) cur first
       (text_buffer t max) max).
Proof.
  revert first l t cur fuel.
  induction nodes as [|c nodes IH]; intros first l t cur fuel Hn Hcur Ht Hmax Htm Hf;
    destruct fuel as [|fuel]; cbn [OIDtoText_loop concat fmap list_fmap] in *.
  1,2: change (zlen []) with 0; zfalse (zlen l <? zlen l + 0);
    assert (nodes_text first [] = []) as -> by (by destruct first); rewrite app_nil_r;
    unfold text_result; by ztrue (zlen t <? max).
  all: inversion_clear Hn as [|?? Hc Hn']; destruct (is_node_bytes c Hc) as [_ Hlen];
    rewrite length_app in Hf.
  { unfold zlen in Hlen. lia. }
  pose proof (zlen_nonneg (concat nodes)). rewrite zlen_app.
  ztrue (zlen l <? zlen l + (zlen c + zlen (concat nodes))).
  rewrite zlen_to_nat, drop_app_length, <-app_assoc.
  replace (zlen l + (zlen c + zlen (concat nodes)) - zlen l) with (zlen (c ++ concat nodes)) by zlia.
  rewrite parse_node by (done || rewrite zlen_app; lia). cbn [mbind option_bind].
  pose proof (node_value c cur Hc Hcur) as Hv. pose proof (is_node_value c Hc) as Hvb.
  match goal with |- context [mbind _ ?d] => replace d with (Some (Some (vlq_value c, zlen l + zlen c))) end.
  2: { destruct Hv as [Hv1 Hv2]. ztest; [rewrite Hv1 by done; cbn; do 3 f_equal; lia|].
       by rewrite Hv2. }
  cbn [mbind option_bind]. rewrite text_buffer_strlen by done. cbn [mbind option_bind].
  assert (0 <= vlq_value c < 2 ^ 64) as Hvb' by (split; [lia|]; etransitivity; [apply Hvb|done]).
  rewrite nodes_text_cons by done. pose proof (node_text_nonzero first _ Hvb') as Hnz.
  set (s := if first then first_nodes_text (vlq_value c) else next_node_text (vlq_value c)) in *.
  ztest.
  - rewrite strncat_buffer by done. cbn [mbind option_bind].
    specialize (IH false (l ++ c) (t ++ s) (c ++ drop (length c) cur) fuel).
    rewrite !zlen_app in IH. rewrite <-!app_assoc in IH. rewrite Z.add_assoc. apply IH; try done.
    + rewrite zlen_drop. unfold zlen in *. lia.
    + by apply Forall_app.
    + unfold zlen in Hlen. lia.
  - unfold text_result. rewrite !zlen_app. zlen_pos.
    zfalse (zlen t + (zlen s + zlen (nodes_text false (vlq_value <$> nodes))) <? max).
    destruct (text_buffer t max) as [|x b] eqn:Eb.
    { apply (f_equal zlen) in Eb. rewrite zlen_text_buffer in Eb by lia. change (zlen []) with 0 in Eb. lia. }
    rewrite wr_cell0. exists b. split; [done|]. rewrite <-zlen_cons with (x := x), <-Eb.
    apply zlen_text_buffer. lia.
Qed.

(** The conversion of the values at the start of a buffer. *)
Lemma oid_converted (nodes : list (list Z)) (tail cur text : list Z) :
  Forall is_node nodes → nodes ≠ [] → zlen cur = 20 → 2 < zlen text →
  let t := oid_text (vlq_value <$> nodes) in
  ∃ ok text', convertASN1_OIDtoText cur (Some (concat nodes ++ tail)) (zlen (concat nodes)) (Some text)
                (zlen text) = Some (ok, Some text') ∧
    zlen text' = zlen text ∧ Forall (λ c, c ≠ 0) t ∧
    if zlen t <? zlen text then ok = true ∧ text' = text_buffer t (zlen text)
    else ok = false ∧ strlen text' = Some 0.
Proof.
  intros Hn Hne Hcur Hmax t. unfold convertASN1_OIDtoText.
  assert (0 < zlen (concat nodes)) as Hpos.
  { destruct nodes as [|c ns]; [done|]. inversion_clear Hn as [|?? Hc _].
    destruct (is_node_bytes c Hc). cbn [concat]. zlia. }
  ztrue ((zlen (concat nodes) >? 0) && (zlen text >? 2)).
  pose proof (wr_range_mid [] text [] (fill 0 (zlen text))) as E.
  cbn [app] in E. rewrite !app_nil_r in E. change (zlen []) with 0 in E.
  rewrite E by (unfold fill; rewrite length_replicate; apply zlen_to_nat). clear E. cbn [mbind option_bind].
  pose proof (OIDtoText_loop_spec nodes tail true [] [] cur (zlen text) (length (concat nodes)) Hn Hcur) as E.
  cbn [app nodes_text] in E. change (zlen []) with 0 in E. rewrite zlen_to_nat.
  change (text_buffer [] (zlen text)) with (fill 0 (zlen text - 0)) in E. rewrite Z.sub_0_r in E.
  fold t in E. assert (text_result t (zlen text)
    (OIDtoText_loop (length (concat nodes)) (concat nodes ++ tail) (zlen (concat nodes)) 0 cur true
       (fill 0 (zlen text)) (zlen text))) as H.
  { apply E; [apply Forall_nil_2|lia|lia|done]. }
  clear E. assert (Forall (λ c, c ≠ 0) t) as Ht.
  { apply oid_text_nonzero, Forall_fmap. eapply Forall_impl; [exact Hn|]. intros c Hc.
    pose proof (is_node_value c Hc). cbn. change (2 ^ 63) with 9223372036854775808 in *.
    change (2 ^ 64) with 18446744073709551616. lia. }
  unfold text_result in H. ztest.
  - rewrite H. eexists _, _. split; [done|]. split; [apply zlen_text_buffer; lia|done].
  - destruct H as (b & -> & Hb). eexists _, _. split; [done|]. by rewrite zlen_cons.
Qed.

(** ConvertASN1_OIDtoText writes the dotted decimal text of the object
    identifier, the first value split into the two first arcs, when the text
    and its NUL fit the output buffer, and otherwise fails with an empty text;
    it stays inside both buffers, for every sequence of base-128 values of at
    most nine bytes. *)
Theorem oid_text_spec (nodes : list (list Z)) (cur text : list Z) :
  Forall is_node nodes → nodes ≠ [] → zlen cur = 20 → 2 < zlen text →
  ∃ ok text', convertASN1_OIDtoText cur (Some (concat nodes)) (zlen (concat nodes)) (Some text)
                (zlen text) = Some (ok, Some text') ∧
    zlen text' = zlen text ∧
    let t := oid_text (vlq_value <$> nodes) in
    if zlen t <? zlen text then ok = true ∧ strlen text' = Some (zlen t) ∧ take (length t) text' = t
    else ok = false ∧ strlen text' = Some 0.
Proof.
  intros Hn Hne Hcur Hmax. destruct (oid_converted nodes [] cur text) as (ok & text' & E & Hl & Ht & H); [done..|].
  rewrite app_nil_r in E. exists ok, text'. split; [exact E|]. split; [done|]. cbn zeta. ztest; [|done].
  destruct H as [-> ->]. split; [done|]. split; [by apply text_buffer_strlen|]. unfold text_buffer. apply take_app_length.
Qed.

Lemma oid_text_spec_witness :
  ∃ ok text', convertASN1_OIDtoText (replicate 20 7) (Some (concat [[0x2B]; [0x81; 0x48]])) 3
                (Some (replicate 8 1)) 8 = Some (ok, Some text') ∧
    zlen text' = 8 ∧
    let t := oid_text (vlq_value <$> [[0x2B]; [0x81; 0x48]]) in
    if zlen t <? 8 then ok = true ∧ strlen text' = Some (zlen t) ∧ take (length t) text' = t
    else ok = false ∧ strlen text' = Some 0.
Proof.
  apply (oid_text_spec [[0x2B]; [0x81; 0x48]] (replicate 20 7) (replicate 8 1)).
  - constructor; [|constructor; [|constructor]].
    + exists [], 0x2B. repeat split; try (constructor; fail); vm_compute; congruence.
    + exists [0x81], 0x48. repeat split; repeat constructor; vm_compute; congruence.
  - done.
  - done.
  - vm_compute. congruence.
Defined.

Lemma parseVLQ_loop_overread k l ext :
  Forall (λ b, 128 <= b < 256) k → zlen l + zlen k <= 20 → zlen ext = 20 →
  parseVLQ_loop (length k) (l ++ k) (zlen l) ext 20 = None.
Proof.
  intros Hk. revert l ext. induction Hk as [|b k Hb Hk IH]; intros l ext Hl He;
    cbn [length parseVLQ_loop].
  - rewrite (proj2 (rd_None _ _)) by zlia. done.
  - rewrite zlen_cons in Hl. zlen_pos. rewrite rd_at by done. cbn [mbind option_bind].
    rewrite bit7 by lia. ztrue ((128 <=? b) && (zlen l <? 20)).
    rewrite wr_Some by lia. cbn [mbind option_bind].
    specialize (IH (l ++ [b])). rewrite zlen_app in IH. change (zlen [b]) with 1 in IH.
    rewrite <-app_assoc in IH. apply IH; [lia|]. by rewrite zlen_insert.
Qed.

(** parseDataWithVLQnodes reads one byte past an input whose bytes all
    have bit 7 set, before it compares its index with the length. *)
Theorem parseVLQ_overread (src ext : list Z) (x : Z) :
  Forall (λ b, 128 <= b < 256) src → 0 < zlen src <= 20 → zlen ext = 20 →
  parseDataWithVLQnodes (Some src) (zlen src) (Some ext) (Some x) 20 = None.
Proof.
  intros Hs Hl He. unfold parseDataWithVLQnodes. ztrue ((zlen src >? 0) && (20 >? 0)).
  pose proof (parseVLQ_loop_overread src [] ext Hs) as E. change (zlen []) with 0 in E.
  cbn [app] in E.
  destruct Hs as [|b s' Hb Hs']; [change (zlen []) with 0 in Hl; lia|].
  rewrite rd_cons_0. cbn [mbind option_bind]. rewrite bit7 by lia. ztrue (128 <=? b).
  rewrite zlen_to_nat. rewrite E by (done || lia). done.
Qed.

Lemma parseVLQ_overread_witness :
  parseDataWithVLQnodes (Some [0x81; 0x82]) (zlen [0x81; 0x82]) (Some (replicate 20 0)) (Some 0) 20 = None.
Proof.
  apply parseVLQ_overread; [repeat constructor; lia|vm_compute; split; congruence|done].
Defined.
