(* ===== verification/StateMonad.v ===== *)
(** * The state monad of the executable components

    Code that works on the static variables of a file, without a heap, runs in
    a state monad whose [None] is undefined behaviour; its triples are partial:
    they say nothing of a computation that is undefined. *)

From S2P Require Import Prelude.

(** ** A state monad *)

Definition ST (S A : Type) : Type := S → option (A * S).
#[export] Instance ST_ret S : MRet (ST S) := λ A a s, Some (a, s).
#[export] Instance ST_bind S : MBind (ST S) :=
  λ A B f m s, match m s with Some (a, s') => f a s' | None => None end.
Definition gets {S A} (f : S → A) : ST S A := λ s, Some (f s, s).
Definition modifies {S} (f : S → S) : ST S unit := λ s, Some (tt, f s).
Definition opt {S A} (o : option A) : ST S A :=
  λ s, match o with Some a => Some (a, s) | None => None end.

Lemma ST_bind_eq {S A B} (m : ST S A) (f : A → ST S B) s a s' :
  m s = Some (a, s') → (x ← m; f x) s = f a s'.
Proof. intros E. unfold mbind, ST_bind. by rewrite E. Qed.

Lemma ST_bind_Some {S A B} (m : ST S A) (f : A → ST S B) s b s' :
  (x ← m; f x) s = Some (b, s') → ∃ a s1, m s = Some (a, s1) ∧ f a s1 = Some (b, s').
Proof. unfold mbind, ST_bind. destruct (m s) as [[a s1]|]; [eauto|done]. Qed.

Lemma opt_Some {S A} (o : option A) (s : S) a s' : opt o s = Some (a, s') → o = Some a ∧ s' = s.
Proof. unfold opt. destruct o; [by intros [= <- <-]|done]. Qed.

Lemma ret_Some {S A} (a : A) (s : S) b s' : (mret a : ST S A) s = Some (b, s') → b = a ∧ s' = s.
Proof. by intros [= <- <-]. Qed.

(** Runs the first computation of a sequence, when it reduces by itself. *)
Ltac st_step := erewrite ST_bind_eq; [|reflexivity]; cbn beta iota.

(** ** Partial triples *)

Definition hoare {S A} (P : S → Prop) (m : ST S A) (Q : A → S → Prop) : Prop :=
  ∀ s a s', P s → m s = Some (a, s') → Q a s'.

(** Computations that keep an invariant. *)
Definition keeps {S A} (I : S → Prop) (m : ST S A) : Prop := hoare I m (λ _, I).

Section triples.
Context {S : Type}.
Implicit Types (P I : S → Prop).

Lemma hoare_bind {A B} P (m : ST S A) (R : A → S → Prop) (f : A → ST S B) (Q : B → S → Prop) :
  hoare P m R → (∀ a, hoare (R a) (f a) Q) → hoare P (x ← m; f x) Q.
Proof.
  intros Hm Hf s b s' HP. unfold mbind, ST_bind.
  destruct (m s) as [[a s1]|] eqn:E; [|done]. intros E'. eapply Hf; [by eapply Hm|exact E'].
Qed.

Lemma hoare_ret {A} P (a : A) (Q : A → S → Prop) : (∀ s, P s → Q a s) → hoare P (mret a) Q.
Proof. intros H s a' s' HP [= <- <-]. auto. Qed.

Lemma hoare_gets {A} P (f : S → A) (Q : A → S → Prop) :
  (∀ s, P s → Q (f s) s) → hoare P (gets f) Q.
Proof. intros H s a' s' HP [= <- <-]. auto. Qed.

Lemma hoare_modifies P (f : S → S) (Q : unit → S → Prop) :
  (∀ s, P s → Q tt (f s)) → hoare P (modifies f) Q.
Proof. intros H s a' s' HP [= <- <-]. auto. Qed.

Lemma hoare_opt {A} P (o : option A) (Q : A → S → Prop) :
  (∀ s a, P s → o = Some a → Q a s) → hoare P (opt o) Q.
Proof. intros H s a s' HP. unfold opt. destruct o; [|done]. intros [= <- <-]. auto. Qed.

Lemma hoare_weaken {A} P P' (m : ST S A) (Q Q' : A → S → Prop) :
  hoare P' m Q' → (∀ s, P s → P' s) → (∀ a s, Q' a s → Q a s) → hoare P m Q.
Proof. unfold hoare. eauto. Qed.

Lemma hoare_if {A} P (b : bool) (m n : ST S A) Q :
  hoare P m Q → hoare P n Q → hoare P (if b then m else n) Q.
Proof. by destruct b. Qed.

(** A value tied to the state it was read from. *)
Lemma hoare_gets_bind {A B} P (f : S → A) (k : A → ST S B) Q :
  (∀ a, hoare (λ s, P s ∧ f s = a) (k a) Q) → hoare P (x ← gets f; k x) Q.
Proof. intros H. eapply hoare_bind; [by apply hoare_gets with (Q := λ a s, P s ∧ f s = a)|exact H]. Qed.

Lemma hoare_opt_bind {A B} P (o : option A) (k : A → ST S B) Q :
  (∀ a, o = Some a → hoare P (k a) Q) → hoare P (x ← opt o; k x) Q.
Proof.
  intros H s b s' HP. unfold mbind, ST_bind, opt. destruct o as [a|] eqn:E; [|done].
  intros E'. by eapply H.
Qed.

Lemma keeps_bind {A B} I (m : ST S A) (f : A → ST S B) :
  keeps I m → (∀ a, keeps I (f a)) → keeps I (x ← m; f x).
Proof. intros Hm Hf. by eapply hoare_bind. Qed.

Lemma keeps_ret {A} I (a : A) : keeps I (mret a).
Proof. by apply hoare_ret. Qed.

Lemma keeps_gets {A} I (f : S → A) : keeps I (gets f).
Proof. by apply hoare_gets. Qed.

(** What the invariant says of a value read from the state. *)
Lemma keeps_gets_bind {A B} I (f : S → A) (φ : A → Prop) (k : A → ST S B) :
  (∀ s, I s → φ (f s)) → (∀ a, φ a → keeps I (k a)) → keeps I (x ← gets f; k x).
Proof.
  intros Hf Hk s b s' HI E. eapply (Hk (f s) (Hf s HI)); [exact HI|exact E].
Qed.

Lemma keeps_opt_bind {A B} I (o : option A) (k : A → ST S B) :
  (∀ a, o = Some a → keeps I (k a)) → keeps I (x ← opt o; k x).
Proof. apply hoare_opt_bind. Qed.

Lemma keeps_opt {A} I (o : option A) : keeps I (opt o).
Proof. by apply hoare_opt. Qed.

Lemma keeps_modifies I (f : S → S) : (∀ s, I s → I (f s)) → keeps I (modifies f).
Proof. by intros; apply hoare_modifies. Qed.

Lemma keeps_if {A} I (b : bool) (m n : ST S A) : keeps I m → keeps I n → keeps I (if b then m else n).
Proof. by destruct b. Qed.
End triples.

Create HintDb keeps discriminated.
#[export] Hint Constants Opaque : keeps.
#[export] Hint Resolve keeps_ret keeps_gets keeps_opt : keeps.

(** Splits a computation into its steps. *)
Ltac keeps_step :=
  first [ solve [auto with keeps]
        | apply keeps_bind; [|intros ?]
        | apply keeps_if
        | progress cbn beta iota
        | match goal with |- keeps _ (let '_ := ?p in _) => destruct p end
        | match goal with |- keeps _ (match ?o with Some _ => _ | None => _ end) => destruct o end ].
