(* ===== verification/ProfileInfo.v ===== *)
(** * Profiles as the API describes them

    The structures of lpasdk_api.h and lpasdk_internal_api.h that describe the
    profiles of the eUICC; arrays of them are blocks of the heap (Heap.v). *)

From S2P Require Import Prelude.

Definition LPA_PROFILE_INFO_BUFFER_MAX_SIZE : Z := 1300.
Definition LPA_PROFILE_ICCID_BUFFER_MAX_SIZE : Z := 10.
Definition LPA_PROFILE_STATE_MAX_SIZE : Z := 2.
Definition LPA_PROFILE_SERVICE_PROVIDER_NAME_MAX_SIZE : Z := 32.
Definition LPA_PROFILE_NAME_MAX_SIZE : Z := 64.
Definition LPA_PROFILE_CLASS_MAX_SIZE : Z := 2.
Definition LPA_PROFILE_ICON_MAX_SIZE : Z := 1024.
Definition LPA_PROFILE_ICON_TYPE_MAX_SIZE : Z := 2.
Definition LPA_RAT_MAXIMUM_SIZE : Z := 1024.
Definition LPA_PROFILE_NICKNAME_MAX_SIZE : Z := 64.
Definition LPA_PROFILE_PPR_MAX_SIZE : Z := 2.

(** What the policy check needs. *)
Record LPA_PROFILE_INFO_FOR_PPR := ProfileInfo {
  iccid : list Z;
  iccidSize : Z;
  profileState : list Z;
  profileStateSize : Z;
  profileClass : list Z;
  profileClassSize : Z;
  profilePolicyRules : list Z;
  profilePolicyRulesSize : Z
}.

(** An array and the field behind it that counts its used cells. *)
Record sized := Sized { cells : list Z; used : Z }.

(** What the application sees. *)
Record LPA_PROFILE_INFO := NormalInfo {
  n_rawData : sized;
  n_iccid : sized;
  n_profileState : sized;
  n_serviceProviderName : sized;
  n_profileName : sized;
  n_profileClass : sized;
  n_profileNickname : sized;
  n_profileIcon : sized;
  n_profileIconType : sized
}.

#[export] Instance LPA_PROFILE_INFO_FOR_PPR_eq_dec : EqDecision LPA_PROFILE_INFO_FOR_PPR.
Proof. solve_decision. Defined.
#[export] Instance sized_eq_dec : EqDecision sized.
Proof. solve_decision. Defined.
#[export] Instance LPA_PROFILE_INFO_eq_dec : EqDecision LPA_PROFILE_INFO.
Proof. solve_decision. Defined.

(** With the padding of 64-bit targets. *)
Definition sizeof_LPA_PROFILE_INFO_FOR_PPR : Z := 72.
Definition sizeof_LPA_PROFILE_INFO : Z := 2600.

(** After [memset(p, 0, sizeof *p)]. *)
Definition zero_sized (n : Z) : sized := Sized (fill 0 n) 0.
Definition zero_profile_info_for_ppr : LPA_PROFILE_INFO_FOR_PPR :=
  ProfileInfo (fill 0 LPA_PROFILE_ICCID_BUFFER_MAX_SIZE) 0 (fill 0 LPA_PROFILE_STATE_MAX_SIZE) 0
    (fill 0 LPA_PROFILE_CLASS_MAX_SIZE) 0 (fill 0 LPA_PROFILE_PPR_MAX_SIZE) 0.
Definition zero_profile_info : LPA_PROFILE_INFO :=
  NormalInfo (zero_sized LPA_PROFILE_INFO_BUFFER_MAX_SIZE) (zero_sized LPA_PROFILE_ICCID_BUFFER_MAX_SIZE)
    (zero_sized LPA_PROFILE_STATE_MAX_SIZE) (zero_sized LPA_PROFILE_SERVICE_PROVIDER_NAME_MAX_SIZE)
    (zero_sized LPA_PROFILE_NAME_MAX_SIZE) (zero_sized LPA_PROFILE_CLASS_MAX_SIZE)
    (zero_sized LPA_PROFILE_NICKNAME_MAX_SIZE) (zero_sized LPA_PROFILE_ICON_MAX_SIZE)
    (zero_sized LPA_PROFILE_ICON_TYPE_MAX_SIZE).
