(* ===== verification/Heap.v ===== *)
(** * The heap of the LPA SDK and the monad of its pointer code

    The SDK allocates every object with [lpaCoreMemoryAlloc] and frees it with
    [lpaCoreMemoryFree] ([core/lpa_memory.c], modelled byte by byte in
    LpaMemory.v). The code built on top of them sees the interface below: an
    allocation either returns [NULL] or a fresh block filled with [0xBD]; the
    first store of a structure gives a block its type; an access to a block
    that is not live, or of another type, or out of bounds, and the release of
    a pointer that is not live are undefined behaviour ([None]).

    Which allocations fail is decided by an oracle, so that theorems quantify
    over every failure pattern. *)

From stdpp Require Import gmap.
From S2P Require Import Prelude ProfileInfo.

(** A pointer to a heap block; [None] is [NULL]. *)
Abbreviation loc := positive.
Abbreviation ptr := (option positive).

(** The types of heap blocks: [unsigned char] arrays and the structures of
    rawdata_object.h and bertlv_object.h; arrays of the descriptions of
    profiles, of which the caller holds a [unsigned char] pointer. *)
Inductive block :=
  | BBytes (bytes : list Z)
  | BRaw (rawData : ptr) (rawDataSize : Z)
  | BTlv (tag length : Z) (value : ptr)
  | BList (index : Z) (berTLV ptrNext : ptr)
  | BPprInfos (infos : list LPA_PROFILE_INFO_FOR_PPR)
  | BInfos (infos : list LPA_PROFILE_INFO).

#[export] Instance block_eq_dec : EqDecision block.
Proof. solve_decision. Defined.

(** [sizeof] on the 64-bit targets. *)
Definition sizeof_RawDataObject : Z := 16.
Definition sizeof_BeerTLV : Z := 24.
Definition sizeof_BerTLVList : Z := 24.
Definition sizeof (b : block) : Z :=
  match b with
  | BBytes bs => zlen bs
  | BRaw _ _ => sizeof_RawDataObject
  | BTlv _ _ _ => sizeof_BeerTLV
  | BList _ _ _ => sizeof_BerTLVList
  | BPprInfos l => zlen l * sizeof_LPA_PROFILE_INFO_FOR_PPR
  | BInfos l => zlen l * sizeof_LPA_PROFILE_INFO
  end.

Abbreviation heap := (gmap positive block).

Section monad.
(** The globals of the translation unit that uses the heap. *)
Context {G : Type}.

Record world := World {
  wheap : heap;
  woracle : list bool;   (** [true]: the next allocation fails *)
  wglobals : G
}.

(** A computation; [None] is undefined behaviour. *)
Definition M (A : Type) : Type := world → option (A * world).

Definition ret {A} (a : A) : M A := λ w, Some (a, w).
Definition bnd {A B} (m : M A) (f : A → M B) : M B :=
  λ w, '(a, w) ← m w; f a w.
Definition ub {A} : M A := λ _, None.
Definition of_option {A} (o : option A) : M A := λ w, a ← o; Some (a, w).

Definition get_globals : M G := λ w, Some (wglobals w, w).
Definition set_globals (g : G) : M unit := λ w, Some (tt, World (wheap w) (woracle w) g).

(** ** The allocator's interface *)

(** Contents of the [MEMORY_INIT_CONTENT] bytes of a new block. *)
Definition new_bytes (n : Z) : list Z := fill 0xBD n.

Definition lpaCoreMemoryAlloc (n : Z) : M ptr := λ w,
  if n >? 0 then
    let fail := match woracle w with true :: _ => true | _ => false end in
    let o := match woracle w with _ :: o => o | [] => [] end in
    if fail then Some (None, World (wheap w) o (wglobals w))
    else
      let l := fresh (dom (wheap w)) in
      Some (Some l, World (<[l := BBytes (new_bytes n)]> (wheap w)) o (wglobals w))
  else Some (None, w).

Definition lpaCoreMemoryFree (p : ptr) : M unit := λ w,
  match p with
  | None => Some (tt, w)
  | Some l => match wheap w !! l with
              | Some _ => Some (tt, World (delete l (wheap w)) (woracle w) (wglobals w))
              | None => None
              end
  end.

(** ** Loads and stores *)

Definition load (p : ptr) : M block := λ w,
  l ← p; b ← wheap w !! l; Some (b, w).

(** Stores a whole object in a block of its size. *)
Definition store (p : ptr) (b : block) : M unit := λ w,
  l ← p; b0 ← wheap w !! l;
  if sizeof b0 =? sizeof b
  then Some (tt, World (<[l := b]> (wheap w)) (woracle w) (wglobals w)) else None.

Definition load_bytes (p : ptr) : M (list Z) :=
  bnd (load p) (λ b, match b with BBytes bs => ret bs | _ => ub end).
Definition load_RawDataObject (p : ptr) : M (ptr * Z) :=
  bnd (load p) (λ b, match b with BRaw d n => ret (d, n) | _ => ub end).
Definition load_BeerTLV (p : ptr) : M (Z * Z * ptr) :=
  bnd (load p) (λ b, match b with BTlv t n v => ret (t, n, v) | _ => ub end).
Definition load_BerTLVList (p : ptr) : M (Z * ptr * ptr) :=
  bnd (load p) (λ b, match b with BList i t n => ret (i, t, n) | _ => ub end).
Definition load_ppr_infos (p : ptr) : M (list LPA_PROFILE_INFO_FOR_PPR) :=
  bnd (load p) (λ b, match b with BPprInfos l => ret l | _ => ub end).
Definition load_infos (p : ptr) : M (list LPA_PROFILE_INFO) :=
  bnd (load p) (λ b, match b with BInfos l => ret l | _ => ub end).

(** [memcpy(p + off, vs, n)], and [memcpy] from a block to a local copy. *)
Definition memcpy_to (p : ptr) (off : Z) (vs : list Z) : M unit :=
  bnd (load_bytes p) (λ bs, bnd (of_option (wr_range bs off vs)) (λ bs', store p (BBytes bs'))).
Definition memcpy_from (p : ptr) (off n : Z) : M (list Z) :=
  bnd (load_bytes p) (λ bs, of_option (rd_range bs off n)).
End monad.

(** A computation on a part of the globals. *)
Definition zoom {G G' A} (get : G → G') (put : G' → G → G) (m : @M G' A) : @M G A := λ w,
  '(a, w') ← m (World (wheap w) (woracle w) (get (wglobals w)));
  Some (a, World (wheap w') (woracle w') (put (wglobals w') (wglobals w))).

Arguments world : clear implicits.
Arguments M : clear implicits.

Declare Scope lpa_monad_scope.
Delimit Scope lpa_monad_scope with M.
Notation "'let*' x := m 'in' k" := (bnd m (λ x, k))
  (at level 10, x name, m at level 100, k at level 200,
   format "'[v' 'let*'  x  :=  m  'in' '/' k ']'") : lpa_monad_scope.
Notation "'let*' ' p := m 'in' k" := (bnd m (λ p, k))
  (at level 10, p strict pattern, m at level 100, k at level 200,
   format "'[v' 'let*'  ' p  :=  m  'in' '/' k ']'") : lpa_monad_scope.
Notation "m ;; k" := (bnd m (λ _, k)) (at level 100, k at level 200, right associativity) : lpa_monad_scope.
#[global] Open Scope lpa_monad_scope.

Definition isNull (p : ptr) : bool := match p with None => true | Some _ => false end.
