(* ===== verification/Wp.v ===== *)
(** * Separation logic for the pointer code

    Assertions over the heap of Heap.v as a BI of Iris, so that Iris's proof
    mode applies, and a weakest precondition for the monad. The logic is
    linear: a proof that ends with [emp] or with an exact list of blocks shows
    that nothing else stays allocated. *)

From stdpp Require Import gmap.
From iris.bi Require Import bi.
From iris.proofmode Require Import proofmode.
From S2P Require Import Prelude StateMonad ProfileInfo Heap.
Set Default Proof Using "Type".

(** ** The BI of heap assertions *)

Record heapProp := HeapProp { holds : heap → Prop }.
Arguments holds : simpl never.

Section defs.
Inductive heap_entails' (P Q : heapProp) : Prop :=
  { heap_entails_at : ∀ h, holds P h → holds Q h }.
Inductive heap_equiv' (P Q : heapProp) : Prop :=
  { heap_equiv_at : ∀ h, holds P h ↔ holds Q h }.

#[export] Instance heapProp_equiv : Equiv heapProp := heap_equiv'.
#[export] Instance heapProp_equivalence : Equivalence (≡@{heapProp}).
Proof.
  split.
  - intros P. by split.
  - intros P Q [H]. split=> h. by rw H.
  - intros P Q R [H1] [H2]. split=> h. by rw H1.
Qed.
#[warnings="-redundant-canonical-projection"]
Canonical Structure heapPropO := discreteO heapProp.

Definition heap_entails : heapProp → heapProp → Prop := heap_entails'.
Definition heap_emp : heapProp := {| holds h := h = ∅ |}.
Definition heap_pure (φ : Prop) : heapProp := {| holds _ := φ |}.
Definition heap_and (P Q : heapProp) : heapProp := {| holds h := holds P h ∧ holds Q h |}.
Definition heap_or (P Q : heapProp) : heapProp := {| holds h := holds P h ∨ holds Q h |}.
Definition heap_impl (P Q : heapProp) : heapProp := {| holds h := holds P h → holds Q h |}.
Definition heap_forall {A} (Ψ : A → heapProp) : heapProp := {| holds h := ∀ a, holds (Ψ a) h |}.
Definition heap_exist {A} (Ψ : A → heapProp) : heapProp := {| holds h := ∃ a, holds (Ψ a) h |}.
Definition heap_sep (P Q : heapProp) : heapProp :=
  {| holds h := ∃ h1 h2, h = h1 ∪ h2 ∧ h1 ##ₘ h2 ∧ holds P h1 ∧ holds Q h2 |}.
Definition heap_wand (P Q : heapProp) : heapProp :=
  {| holds h := ∀ h', h ##ₘ h' → holds P h' → holds Q (h ∪ h') |}.
Definition heap_persistently (P : heapProp) : heapProp := heap_pure (heap_entails heap_emp P).
Definition heap_later (P : heapProp) : heapProp := P.
End defs.


Lemma heapProp_bi_mixin :
  BiMixin heap_entails heap_emp heap_pure heap_and heap_or heap_impl (@heap_forall)
    (@heap_exist) heap_sep heap_wand.
Proof.
  split.
  - split; [by intros P; split|]. intros P Q R [H1] [H2]. split=> h HP. apply H2, H1, HP.
  - intros P Q. split.
    + intros [H]. split; split=> h; apply H.
    + intros [[H1] [H2]]. split=> h. split; [apply H1|apply H2].
  - intros n φ ψ H. split=> h. apply H.
  - intros n P P' [H1] Q Q' [H2]. split=> h. rw /heap_and /holds -!/(holds _ _).
    split; intros [??]; (split; [by apply H1|by apply H2]).
  - intros n P P' [H1] Q Q' [H2]. split=> h.
    split; (intros [?|?]; [left; by apply H1|right; by apply H2]).
  - intros n P P' [H1] Q Q' [H2]. split=> h. split; intros H HP; apply H2, H, H1, HP.
  - intros A n Φ Ψ H. split=> h. split; intros HΦ a; by apply (H a).
  - intros A n Φ Ψ H. split=> h. split; (intros [a HΦ]; exists a; by apply (H a)).
  - intros n P P' [H1] Q Q' [H2]. split=> h.
    split; intros (h1 & h2 & ? & ? & HP & HQ); exists h1, h2; (do 2 (split; [done|]));
      (split; [by apply H1|by apply H2]).
  - intros n P P' [H1] Q Q' [H2]. split=> h. split; intros H h' Hd HP; apply H2, H, H1; done.
  - intros φ P Hφ. by split.
  - intros φ P H. split=> h Hφ. by destruct (H Hφ) as [H']; apply H'.
  - intros P Q. split=> h [HP _]. done.
  - intros P Q. split=> h [_ HQ]. done.
  - intros P Q R [H1] [H2]. split=> h HP. split; [by apply H1|by apply H2].
  - intros P Q. split=> h HP. by left.
  - intros P Q. split=> h HQ. by right.
  - intros P Q R [H1] [H2]. split=> h [HP|HQ]; [by apply H1|by apply H2].
  - intros P Q R [H]. split=> h HP HQ. apply H. by split.
  - intros P Q R [H]. split=> h [HP HQ]. by apply (H h HP).
  - intros A P Ψ H. split=> h HP a. by apply (H a).
  - intros A Ψ a. split=> h H. apply H.
  - intros A Ψ a. split=> h H. by exists a.
  - intros A Φ Q H. split=> h [a HΦ]. by apply (H a).
  - intros P P' Q Q' [H1] [H2]. split; intros h (h1 & h2 & ? & ? & HP & HQ).
    exists h1, h2. do 2 (split; [done|]). split; [by apply H1|by apply H2].
  - intros P. split=> h HP. exists ∅, h. rw left_id_L. split; [done|].
    split; [apply map_disjoint_empty_l|done].
  - intros P. split; intros h (h1 & h2 & -> & ? & -> & HP). by rw left_id_L.
  - intros P Q. split; intros h (h1 & h2 & -> & ? & HP & HQ). exists h2, h1.
    rw map_union_comm //.
  - intros P Q R. split; intros h (h12 & h3 & -> & Hd & (h1 & h2 & -> & ? & HP & HQ) & HR).
    apply map_disjoint_union_l in Hd as [??].
    exists h1, (h2 ∪ h3). rw assoc_L. split; [done|].
    split; [by apply map_disjoint_union_r|]. split; [done|]. by exists h2, h3.
  - intros P Q R [H]. split=> h HP h' Hd HQ. apply H. by exists h, h'.
  - intros P Q R [H]. split; intros h (h1 & h2 & -> & Hd & HP & HQ). by apply (H h1 HP h2).
Qed.

Lemma heapProp_bi_persistently_mixin :
  BiPersistentlyMixin heap_entails heap_emp heap_and (@heap_exist) heap_sep heap_persistently.
Proof.
  eapply bi_persistently_mixin_discrete, heapProp_bi_mixin; [done| |done].
  intros A Φ [H]. destruct (H ∅) as [a Ha]; [done|]. exists a. by split=> h ->.
Qed.

Lemma heapProp_bi_later_mixin :
  BiLaterMixin heap_entails heap_pure heap_or heap_impl (@heap_forall) (@heap_exist) heap_sep
    heap_persistently heap_later.
Proof. eapply bi_later_mixin_id; [done|apply heapProp_bi_mixin]. Qed.

#[warnings="-redundant-canonical-projection"]
Canonical Structure heapPropI : bi :=
  {| bi_ofe_mixin := ofe_mixin_of heapProp; bi_bi_mixin := heapProp_bi_mixin;
     bi_bi_persistently_mixin := heapProp_bi_persistently_mixin;
     bi_bi_later_mixin := heapProp_bi_later_mixin |}.

#[export] Instance heapProp_pure_forall : BiPureForall heapPropI.
Proof. intros A φ. by split. Qed.

(** ** Blocks *)

Definition points_to (l : loc) (b : block) : heapProp := HeapProp (λ h, h = {[l := b]}).
Notation "l ↦ b" := (points_to l b) (at level 20, format "l  ↦  b") : bi_scope.

(** A fact that owns no block. *)
Notation "⟦ φ ⟧" := (bi_affinely (bi_pure φ%type%stdpp)) (at level 0, φ at level 200, format "⟦ φ ⟧") : bi_scope.

Lemma points_to_exclusive l b b' : l ↦ b ∗ l ↦ b' ⊢ False.
Proof.
  split. intros h (h1 & h2 & -> & Hd & -> & ->). exfalso.
  by apply map_disjoint_singleton_l, lookup_singleton_None in Hd.
Qed.

(** ** Weakest preconditions *)

Section wp.
Context {G : Type}.
Implicit Types (g : G) (w : world G).

(** [nf]: the allocator never fails. *)
Definition oracle_ok (nf : bool) (o : list bool) : Prop := nf = true → Forall (eq false) o.

(** [m], started with the globals [g] in a heap of which it owns a part, has
    a defined behaviour, leaves the rest of the heap alone, and what it owns
    at its end satisfies the postcondition of its result and globals. *)
Definition wp {A} (nf : bool) (m : M G A) (g : G) (Φ : A → G → heapProp) : heapProp :=
  HeapProp (λ h, ∀ hf o, h ##ₘ hf → oracle_ok nf o →
    ∃ a h' o' g', m (World (h ∪ hf) o g) = Some (a, World (h' ∪ hf) o' g') ∧
      h' ##ₘ hf ∧ oracle_ok nf o' ∧ holds (Φ a g') h').

Lemma wp_ret {A} nf (a : A) g Φ : Φ a g ⊢ wp nf (ret a) g Φ.
Proof. split=> h HΦ hf o Hd Ho. by exists a, h, o, g. Qed.

Lemma wp_bnd {A B} nf (m : M G A) (f : A → M G B) g Φ :
  wp nf m g (λ a g', wp nf (f a) g' Φ) ⊢ wp nf (bnd m f) g Φ.
Proof.
  split=> h Hm hf o Hd Ho.
  destruct (Hm hf o Hd Ho) as (a & h1 & o1 & g1 & E1 & Hd1 & Ho1 & Hf).
  destruct (Hf hf o1 Hd1 Ho1) as (b & h2 & o2 & g2 & E2 & Hd2 & Ho2 & HΦ).
  exists b, h2, o2, g2. split; [|done]. rw /bnd E1 /=. done.
Qed.

Lemma wp_mono {A} nf (m : M G A) g Φ Ψ :
  (∀ a g', Φ a g' ⊢ Ψ a g') → wp nf m g Φ ⊢ wp nf m g Ψ.
Proof.
  intros HΦ. split=> h Hm hf o Hd Ho.
  destruct (Hm hf o Hd Ho) as (a & h1 & o1 & g1 & E1 & Hd1 & Ho1 & H).
  exists a, h1, o1, g1. do 3 (split; [done|]). by apply (HΦ a g1).
Qed.

Lemma wp_frame_l {A} nf (m : M G A) g P Φ :
  P ∗ wp nf m g Φ ⊢ wp nf m g (λ a g', P ∗ Φ a g').
Proof.
  split. intros h (h1 & h2 & -> & Hd12 & HP & Hm) hf o Hd Ho.
  apply map_disjoint_union_l in Hd as [Hd1 Hd2].
  destruct (Hm (h1 ∪ hf) o) as (a & h' & o' & g' & E & Hd' & Ho' & H); [|done|].
  { apply map_disjoint_union_r. by split. }
  apply map_disjoint_union_r in Hd' as [Hd1' Hdf'].
  exists a, (h1 ∪ h'), o', g'. split; [|split; [|split; [done|by exists h1, h']]].
  - rw -(assoc_L _ h1 h2) (assoc_L _ h1 h2) (map_union_comm h1 h2) // -(assoc_L _ h2 h1) E.
    do 3 f_equal. rw !assoc_L. f_equal. by apply map_union_comm.
  - by apply map_disjoint_union_l.
Qed.

(** Framing and consequence together. *)
Lemma wp_wand {A} nf (m : M G A) g Φ Ψ :
  wp nf m g Φ -∗ (∀ a g', Φ a g' -∗ Ψ a g') -∗ wp nf m g Ψ.
Proof.
  iIntros "Hm HΦ". 
  iDestruct (wp_frame_l _ _ _ (∀ a g', Φ a g' -∗ Ψ a g')%I with "[$HΦ $Hm]") as "H".
  iApply (wp_mono with "H"). iIntros (a g') "[HΦ Ha]". by iApply "HΦ".
Qed.

(** ** Rules of the primitives *)

Lemma wp_of_option {A} nf (a : A) g Φ : Φ a g ⊢ wp nf (of_option (Some a)) g Φ.
Proof. split=> h HΦ hf o Hd Ho. by exists a, h, o, g. Qed.

Lemma wp_get_globals nf g Φ : Φ g g ⊢ wp nf get_globals g Φ.
Proof. split=> h HΦ hf o Hd Ho. by exists g, h, o, g. Qed.

Lemma wp_set_globals nf g g' Φ : Φ tt g' ⊢ wp nf (set_globals g') g Φ.
Proof. split=> h HΦ hf o Hd Ho. by exists tt, h, o, g'. Qed.

(** The post of an allocation: [NULL], which a never failing allocator does
    not answer, or a new block. *)
Definition alloc_post (nf : bool) (n : Z) (p : ptr) : heapProp :=
  match p with
  | None => ⟦nf = false⟧%I
  | Some l => (l ↦ BBytes (new_bytes n))%I
  end.

Lemma oracle_ok_tail nf b o : oracle_ok nf (b :: o) → oracle_ok nf o.
Proof. intros H Hnf. by specialize (H Hnf); inversion H. Qed.

Lemma wp_alloc nf n g Φ :
  0 < n → (∀ p, alloc_post nf n p -∗ Φ p g) ⊢ wp nf (lpaCoreMemoryAlloc n) g Φ.
Proof.
  intros Hn. split=> h HΦ hf o Hd Ho. rw /lpaCoreMemoryAlloc.
  assert ((n >? 0) = true) as -> by lia. cbn [woracle wheap wglobals].
  assert (oracle_ok nf (match o with [] => [] | _ :: o' => o' end)) as Ho'.
  { destruct o; [done|]. by eapply oracle_ok_tail. }
  destruct (match o with true :: _ => true | _ => false end) eqn:Eo.
  - exists None, h, (match o with [] => [] | _ :: o' => o' end), g.
    do 3 (split; [done|]). rw -(right_id_L ∅ (∪) h).
    apply (HΦ None); [apply map_disjoint_empty_r|]. split; [done|].
    destruct nf; [|done]. destruct o as [|[] o]; try done.
    specialize (Ho eq_refl). by inversion Ho.
  - set (l := fresh (dom (h ∪ hf))).
    assert (l ∉ dom (h ∪ hf)) as Hl by apply is_fresh.
    rw dom_union_L in Hl. apply not_elem_of_union in Hl as [Hl1 Hl2].
    apply not_elem_of_dom in Hl1, Hl2.
    exists (Some l), (<[l := BBytes (new_bytes n)]> h), (match o with [] => [] | _ :: o' => o' end), g.
    rw insert_union_l. split; [done|]. split; [by apply map_disjoint_insert_l_2|].
    split; [done|]. rw insert_union_singleton_r //.
    apply (HΦ (Some l)); [|done]. by apply map_disjoint_singleton_r_2.
Qed.

Lemma wp_free nf l b g Φ :
  l ↦ b ∗ Φ tt g ⊢ wp nf (lpaCoreMemoryFree (Some l)) g Φ.
Proof.
  split. intros h (h1 & h2 & -> & Hd12 & -> & HΦ) hf o Hd Ho.
  apply map_disjoint_singleton_l in Hd12. apply map_disjoint_union_l in Hd as [Hd1 Hd2].
  apply map_disjoint_singleton_l in Hd1.
  exists tt, h2, o, g. split; [|done]. rw /lpaCoreMemoryFree /=.
  rw -(assoc_L _) lookup_union_l ?lookup_singleton_eq //.
  - do 3 f_equal. rw -insert_union_singleton_l. apply delete_insert_id, lookup_union_None. done.
  - by apply lookup_union_None.
Qed.

Lemma wp_free_null nf g Φ : Φ tt g ⊢ wp nf (lpaCoreMemoryFree None) g Φ.
Proof. split=> h HΦ hf o Hd Ho. by exists tt, h, o, g. Qed.

Lemma wp_load nf l b g Φ :
  l ↦ b ∗ (l ↦ b -∗ Φ b g) ⊢ wp nf (load (Some l)) g Φ.
Proof.
  split. intros h (h1 & h2 & -> & Hd12 & -> & HΦ) hf o Hd Ho.
  exists b, ({[l := b]} ∪ h2), o, g. split; [|split; [done|split; [done|]]].
  - rw /load /= -(assoc_L _) (lookup_union_Some_l _ _ _ b) //. apply lookup_singleton_eq.
  - rw map_union_comm //. by apply HΦ.
Qed.

Lemma wp_store nf l b b' g Φ :
  sizeof b = sizeof b' → l ↦ b ∗ (l ↦ b' -∗ Φ tt g) ⊢ wp nf (store (Some l) b') g Φ.
Proof.
  intros Hs. split. intros h (h1 & h2 & -> & Hd12 & -> & HΦ) hf o Hd Ho.
  apply map_disjoint_singleton_l in Hd12. apply map_disjoint_union_l in Hd as [Hd1 Hd2].
  apply map_disjoint_singleton_l in Hd1.
  exists tt, ({[l := b']} ∪ h2), o, g. split; [|split; [|split; [done|]]].
  - rw /store /= -(assoc_L _) (lookup_union_Some_l _ _ _ b) /= ?lookup_singleton_eq //.
    rw Hs Z.eqb_refl. do 3 f_equal. rw -(assoc_L _ {[l := b']}) -!insert_union_singleton_l.
    by rw insert_insert_eq.
  - apply map_disjoint_union_l. split; [|done]. by apply map_disjoint_singleton_l_2.
  - assert (h2 ##ₘ {[l := b']}) by by apply map_disjoint_singleton_r_2.
    rw map_union_comm; [|done]. by apply HΦ.
Qed.

Lemma wp_alloc_zero nf n g Φ : n <= 0 → Φ None g ⊢ wp nf (lpaCoreMemoryAlloc n) g Φ.
Proof.
  intros Hn. split=> h HΦ hf o Hd Ho. exists None, h, o, g. split; [|done].
  rw /lpaCoreMemoryAlloc. by assert ((n >? 0) = false) as -> by lia.
Qed.

(** A computation that takes the number of live blocks as its fuel. *)
Lemma wp_live {A} nf (k : nat) (f : nat → M G A) P g Φ :
  (∀ h, holds P h → (k <= size h)%nat) →
  (∀ n, (k <= n)%nat → P ⊢ wp nf (f n) g Φ) →
  P ⊢ wp nf (λ w, f (size (wheap w)) w) g Φ.
Proof.
  intros Hk Hf. split=> h HP hf o Hd Ho.
  assert (k <= size (h ∪ hf))%nat as Hle.
  { etrans; [by apply Hk|]. apply map_subseteq_size, map_union_subseteq_l. }
  by destruct (Hf _ Hle) as [H]; apply H.
Qed.

(** ** Typed loads and copies *)

Lemma wp_load_block nf l b g Φ :
  l ↦ b -∗ (l ↦ b -∗ Φ b g) -∗ wp nf (load (Some l)) g Φ.
Proof. iIntros "Hl HΦ". iApply wp_load. iFrame. Qed.

Lemma wp_store_block nf l b b' g Φ :
  sizeof b = sizeof b' → l ↦ b -∗ (l ↦ b' -∗ Φ tt g) -∗ wp nf (store (Some l) b') g Φ.
Proof. iIntros (?) "Hl HΦ". iApply (wp_store with "[$Hl $HΦ]"). done. Qed.

Lemma wp_free_block nf l b g Φ :
  l ↦ b -∗ Φ tt g -∗ wp nf (lpaCoreMemoryFree (Some l)) g Φ.
Proof. iIntros "Hl HΦ". iApply wp_free. iFrame. Qed.

Lemma wp_load_bytes nf l bs g Φ :
  l ↦ BBytes bs -∗ (l ↦ BBytes bs -∗ Φ bs g) -∗ wp nf (load_bytes (Some l)) g Φ.
Proof.
  iIntros "Hl HΦ". iApply wp_bnd. iApply (wp_load_block with "Hl"). iIntros "Hl".
  iApply wp_ret. by iApply "HΦ".
Qed.

Lemma wp_load_raw nf l d n g Φ :
  l ↦ BRaw d n -∗ (l ↦ BRaw d n -∗ Φ (d, n) g) -∗ wp nf (load_RawDataObject (Some l)) g Φ.
Proof.
  iIntros "Hl HΦ". iApply wp_bnd. iApply (wp_load_block with "Hl"). iIntros "Hl".
  iApply wp_ret. by iApply "HΦ".
Qed.

Lemma wp_load_tlv nf l t n v g Φ :
  l ↦ BTlv t n v -∗ (l ↦ BTlv t n v -∗ Φ (t, n, v) g) -∗ wp nf (load_BeerTLV (Some l)) g Φ.
Proof.
  iIntros "Hl HΦ". iApply wp_bnd. iApply (wp_load_block with "Hl"). iIntros "Hl".
  iApply wp_ret. by iApply "HΦ".
Qed.

Lemma wp_load_list nf l i t n g Φ :
  l ↦ BList i t n -∗ (l ↦ BList i t n -∗ Φ (i, t, n) g) -∗ wp nf (load_BerTLVList (Some l)) g Φ.
Proof.
  iIntros "Hl HΦ". iApply wp_bnd. iApply (wp_load_block with "Hl"). iIntros "Hl".
  iApply wp_ret. by iApply "HΦ".
Qed.

Lemma wp_memcpy_to nf l bs off vs bs' g Φ :
  wr_range bs off vs = Some bs' →
  l ↦ BBytes bs -∗ (l ↦ BBytes bs' -∗ Φ tt g) -∗ wp nf (memcpy_to (Some l) off vs) g Φ.
Proof.
  iIntros (E) "Hl HΦ". iApply wp_bnd. iApply (wp_load_bytes with "Hl"). iIntros "Hl".
  iApply wp_bnd. rw E. iApply wp_of_option. iApply (wp_store_block with "Hl"); [|done].
  cbn [sizeof]. by apply wr_range_zlen in E.
Qed.

Lemma wp_memcpy_from nf l bs off n vs g Φ :
  rd_range bs off n = Some vs →
  l ↦ BBytes bs -∗ (l ↦ BBytes bs -∗ Φ vs g) -∗ wp nf (memcpy_from (Some l) off n) g Φ.
Proof.
  iIntros (E) "Hl HΦ". iApply wp_bnd. iApply (wp_load_bytes with "Hl"). iIntros "Hl".
  rw E. iApply wp_of_option. by iApply "HΦ".
Qed.

Lemma wp_malloc nf n g Φ :
  0 < n → (∀ p, alloc_post nf n p -∗ Φ p g) -∗ wp nf (lpaCoreMemoryAlloc n) g Φ.
Proof. iIntros (?) "HΦ". by iApply wp_alloc. Qed.

(** Runs a computation that does not use the heap. *)
Definition lift {A} (m : ST G A) : M G A := λ w,
  match m (wglobals w) with
  | Some (a, g) => Some (a, World (wheap w) (woracle w) g)
  | None => None
  end.

Lemma wp_lift {A} nf (m : ST G A) g a g' Φ :
  m g = Some (a, g') → Φ a g' -∗ wp nf (lift m) g Φ.
Proof.
  intros E. apply bi.entails_wand. split=> h HΦ hf o Hd Ho. exists a, h, o, g'. split; [|done].
  rw /lift /= E. done.
Qed.
End wp.

(** Runs on a part of the globals. *)
Lemma wp_zoom {G G' A} nf (get : G → G') put (m : M G' A) g Φ :
  wp nf m (get g) (λ a g', Φ a (put g' g)) ⊢ wp nf (zoom get put m) g Φ.
Proof.
  split=> h Hm hf o Hd Ho. destruct (Hm hf o Hd Ho) as (a & h' & o' & g' & E & H).
  exists a, h', o', (put g' g). by rw /zoom /= E.
Qed.

Lemma wp_load_ppr_infos {G} nf l xs (g : G) Φ :
  l ↦ BPprInfos xs -∗ (l ↦ BPprInfos xs -∗ Φ xs g) -∗ wp nf (load_ppr_infos (Some l)) g Φ.
Proof.
  iIntros "Hl HΦ". iApply wp_bnd. iApply (wp_load_block with "Hl"). iIntros "Hl".
  iApply wp_ret. by iApply "HΦ".
Qed.

Lemma wp_load_infos {G} nf l xs (g : G) Φ :
  l ↦ BInfos xs -∗ (l ↦ BInfos xs -∗ Φ xs g) -∗ wp nf (load_infos (Some l)) g Φ.
Proof.
  iIntros "Hl HΦ". iApply wp_bnd. iApply (wp_load_block with "Hl"). iIntros "Hl".
  iApply wp_ret. by iApply "HΦ".
Qed.

(** ** Triples

    [triple nf P m g Φ]: from every heap part satisfying [P], whatever else is
    allocated and whichever allocations fail (none when [nf]), [m] has no
    undefined behaviour, leaves the other blocks alone, and ends owning exactly
    the blocks its postcondition lists. *)
Definition triple {G A} (nf : bool) (P : heapProp) (m : M G A) (g : G) (Φ : A → G → heapProp) : Prop :=
  P ⊢ wp nf m g Φ.

(** What a triple says of a run. *)
Lemma triple_run {G A} nf P (m : M G A) g Φ h hf o :
  triple nf P m g Φ → holds P h → h ##ₘ hf → oracle_ok nf o →
  ∃ a h' o' g', m (World (h ∪ hf) o g) = Some (a, World (h' ∪ hf) o' g') ∧
    h' ##ₘ hf ∧ oracle_ok nf o' ∧ holds (Φ a g') h'.
Proof. intros [H] HP. by apply H. Qed.

(** ** Proof automation *)

Tactic Notation "wp_seq" := iApply wp_bnd.
Tactic Notation "wp_value" := iApply wp_ret.
