(* ===== verification/RawData.v ===== *)
(** * rawdata_object.c: growable byte strings

    Every function of [core/rawdata_object.c], over the heap of Heap.v. The
    data of a [const unsigned char *] argument is the list of the bytes of its
    object from the pointer on, [None] for [NULL]. *)

From iris.bi Require Import bi.
From iris.proofmode Require Import proofmode.
From S2P Require Import Prelude CLib Heap Wp Util.

Section code.
Context {G : Type}.
Abbreviation M := (M G).

(** [ptr->rawData = d;] and [ptr->rawDataSize = n;] *)
Definition set_rawData (p d : ptr) : M unit :=
  let* '(_, n) := load_RawDataObject p in store p (BRaw d n).
Definition set_rawDataSize (p : ptr) (n : Z) : M unit :=
  let* '(d, _) := load_RawDataObject p in store p (BRaw d n).

(** [if (p->rawData != NULL) lpaCoreMemoryFree(p->rawData);] *)
Definition free_rawData (p : ptr) : M unit :=
  let* '(d, _) := load_RawDataObject p in
  if isNull d then ret tt else lpaCoreMemoryFree d.

(** [ptr[i] = v;] *)
Definition set_byte (p : ptr) (i v : Z) : M unit := memcpy_to p i [u8 v].

(** [memcpy(dst + off, src, n)] from a caller's array. *)
Definition memcpy_arg (dst : ptr) (off : Z) (src : list Z) (n : Z) : M unit :=
  let* vs := of_option (rd_range src 0 n) in memcpy_to dst off vs.

(** [memcpy(dst + off, obj->rawData + o, n)] *)
Definition memcpy_obj (dst : ptr) (off : Z) (obj : ptr) (o n : Z) : M unit :=
  let* '(d, _) := load_RawDataObject obj in
  let* vs := memcpy_from d o n in memcpy_to dst off vs.

(** [(p != NULL && p->rawData != NULL) ? p->rawDataSize : 0] *)
Definition data_size (p : ptr) : M Z :=
  if isNull p then ret 0 else
  let* '(d, n) := load_RawDataObject p in
  ret (if isNull d then 0 else n).

Definition rawDataObject_allocate : M ptr :=
  let* p := lpaCoreMemoryAlloc sizeof_RawDataObject in
  if isNull p then ret p else
  store p (BRaw None 0) ;;
  ret p.

Definition rawDataObject_create (ptrRawData : option (list Z)) (rawDataSize : Z) : M ptr :=
  let* p := rawDataObject_allocate in
  if isNull p then ret p else
  match ptrRawData with
  | None => ret p
  | Some src =>
      if rawDataSize >? 0 then
        let* d := lpaCoreMemoryAlloc rawDataSize in
        set_rawData p d ;;
        if isNull d then lpaCoreMemoryFree p ;; ret None
        else
          memcpy_arg d 0 src rawDataSize ;;
          set_rawDataSize p rawDataSize ;;
          ret p
      else ret p
  end.

Definition lv_length_size (n : Z) : Z :=
  if n <=? 0x7F then 1 else if n <=? 0xFF then 2 else if n <=? 0xFFFF then 3 else 4.

(** The [switch] that writes the length. *)
Definition lv_write_length (d : ptr) (nbBytesLength n : Z) : M unit :=
  if nbBytesLength =? 1 then set_byte d 0 n
  else if nbBytesLength =? 2 then set_byte d 0 0x81 ;; set_byte d 1 n
  else if nbBytesLength =? 3 then
    set_byte d 0 0x82 ;;
    set_byte d 1 (Z.land (Z.shiftr n 8) 0xFF) ;;
    set_byte d 2 (Z.land n 0x00FF)
  else if nbBytesLength =? 4 then
    set_byte d 0 0x83 ;;
    set_byte d 1 (Z.land (Z.shiftr n 16) 0xFF) ;;
    set_byte d 2 (Z.land (Z.shiftr n 8) 0xFF) ;;
    set_byte d 3 (Z.land n 0x00FF)
  else ret tt.

Definition rawDataObject_createAsLV (ptrRawData : option (list Z)) (rawDataSize : Z) : M ptr :=
  match ptrRawData with
  | None => ret None
  | Some src =>
      if rawDataSize >? 0 then
        let* p := rawDataObject_allocate in
        if isNull p then ret p else
        let nbBytesLength := lv_length_size rawDataSize in
        let totalRawDataObjectSize := u64 (nbBytesLength + rawDataSize) in
        let* d := lpaCoreMemoryAlloc totalRawDataObjectSize in
        set_rawData p d ;;
        if isNull d then lpaCoreMemoryFree p ;; ret None
        else
          lv_write_length d nbBytesLength rawDataSize ;;
          memcpy_arg d nbBytesLength src rawDataSize ;;
          set_rawDataSize p totalRawDataObjectSize ;;
          ret p
      else ret None
  end.

Definition rawDataObject_concat (ptrRawDataObject1 ptrRawDataObject2 : ptr) : M ptr :=
  let* p := rawDataObject_allocate in
  if isNull p then ret p else
  let* rawDataSize1 := data_size ptrRawDataObject1 in
  let* rawDataSize2 := data_size ptrRawDataObject2 in
  let rawDataSize := u64 (rawDataSize1 + rawDataSize2) in
  if rawDataSize >? 0 then
    let* d := lpaCoreMemoryAlloc rawDataSize in
    set_rawData p d ;;
    if isNull d then lpaCoreMemoryFree p ;; ret None
    else
      (if rawDataSize1 >? 0 then memcpy_obj d 0 ptrRawDataObject1 0 rawDataSize1 else ret tt) ;;
      (if rawDataSize2 >? 0 then memcpy_obj d rawDataSize1 ptrRawDataObject2 0 rawDataSize2
       else ret tt) ;;
      set_rawDataSize p rawDataSize ;;
      ret p
  else ret p.

Definition rawDataObject_concatRawDataArray (ptrRawDataObjectInput1 : ptr)
    (ptrRawDataInput2 : option (list Z)) (rawDataSizeInput2 : Z) : M ptr :=
  let* p := rawDataObject_allocate in
  if isNull p then ret p else
  let* rawDataSize1 := data_size ptrRawDataObjectInput1 in
  let rawDataSize2 := match ptrRawDataInput2 with Some _ => rawDataSizeInput2 | None => 0 end in
  let rawDataSize := u64 (rawDataSize1 + rawDataSize2) in
  if rawDataSize >? 0 then
    let* d := lpaCoreMemoryAlloc rawDataSize in
    set_rawData p d ;;
    if isNull d then lpaCoreMemoryFree p ;; ret None
    else
      (if rawDataSize1 >? 0 then memcpy_obj d 0 ptrRawDataObjectInput1 0 rawDataSize1 else ret tt) ;;
      (match ptrRawDataInput2 with
       | Some src => if rawDataSize2 >? 0 then memcpy_arg d rawDataSize1 src rawDataSize2 else ret tt
       | None => ret tt
       end) ;;
      set_rawDataSize p rawDataSize ;;
      ret p
  else ret p.

Definition rawDataObject_appendRawDataArray (ptrRawDataObjectSource : ptr)
    (ptrRawDataAppend : option (list Z)) (rawDataSizeAppend : Z) : M bool :=
  let* res :=
    match ptrRawDataAppend with
    | Some src =>
        if negb (isNull ptrRawDataObjectSource) && (rawDataSizeAppend >? 0) then
          let* '(d0, n0) := load_RawDataObject ptrRawDataObjectSource in
          let rawDataSize1 := if isNull d0 then 0 else n0 in
          let rawDataSize2 := rawDataSizeAppend in
          let rawDataSize := u64 (rawDataSize1 + rawDataSize2) in
          if rawDataSize >? 0 then
            let* d := lpaCoreMemoryAlloc rawDataSize in
            if isNull d then ret false
            else
              (if rawDataSize1 >? 0 then memcpy_obj d 0 ptrRawDataObjectSource 0 rawDataSize1
               else ret tt) ;;
              (if rawDataSize2 >? 0 then memcpy_arg d rawDataSize1 src rawDataSizeAppend
               else ret tt) ;;
              free_rawData ptrRawDataObjectSource ;;
              set_rawData ptrRawDataObjectSource d ;;
              set_rawDataSize ptrRawDataObjectSource rawDataSize ;;
              ret true
          else ret false
        else ret false
    | None => ret false
    end in
  ret (match ptrRawDataAppend with
       | None => if rawDataSizeAppend =? 0 then true else res
       | Some _ => res
       end).

Definition rawDataObject_concatPartially (ptrRawDataObject1 ptrRawDataObject2 : ptr)
    (offset length : Z) : M ptr :=
  let* p := rawDataObject_allocate in
  if isNull p then ret p else
  let* rawDataSize1 := data_size ptrRawDataObject1 in
  let* rawDataSize2 := data_size ptrRawDataObject2 in
  let rawPartialSize2 :=
    if offset <? rawDataSize2 then
      if u64 (offset + length) <=? rawDataSize2 then length else rawDataSize2 - offset
    else 0 in
  let rawDataSize := u64 (rawDataSize1 + rawPartialSize2) in
  if rawDataSize >? 0 then
    let* d := lpaCoreMemoryAlloc rawDataSize in
    set_rawData p d ;;
    if isNull d then lpaCoreMemoryFree p ;; ret None
    else
      (if rawDataSize1 >? 0 then memcpy_obj d 0 ptrRawDataObject1 0 rawDataSize1 else ret tt) ;;
      (if rawPartialSize2 >? 0
       then memcpy_obj d rawDataSize1 ptrRawDataObject2 offset rawPartialSize2 else ret tt) ;;
      set_rawDataSize p rawDataSize ;;
      ret p
  else ret p.

Definition rawDataObject_update (ptrRawDataObject : ptr) (ptrRawData : option (list Z))
    (rawDataSize : Z) : M bool :=
  if isNull ptrRawDataObject then ret false else
  let* '(d0, n0) := load_RawDataObject ptrRawDataObject in
  if n0 =? rawDataSize then
    if rawDataSize >? 0 then
      match ptrRawData with
      | Some src => memcpy_arg d0 0 src rawDataSize ;; ret true
      | None => ret false
      end
    else ret true
  else if rawDataSize >? 0 then
    match ptrRawData with
    | Some src =>
        let* d := lpaCoreMemoryAlloc rawDataSize in
        if isNull d then ret false
        else
          memcpy_arg d 0 src rawDataSize ;;
          free_rawData ptrRawDataObject ;;
          set_rawData ptrRawDataObject d ;;
          set_rawDataSize ptrRawDataObject rawDataSize ;;
          ret true
    | None => ret false
    end
  else
    (if isNull d0 then ret tt
     else lpaCoreMemoryFree d0 ;; set_rawData ptrRawDataObject None) ;;
    set_rawDataSize ptrRawDataObject 0 ;;
    ret true.

Definition rawDataObject_clear (ptrRawDataObject : ptr) : M unit :=
  if isNull ptrRawDataObject then ret tt else
  let* '(d, _) := load_RawDataObject ptrRawDataObject in
  (if isNull d then ret tt
   else lpaCoreMemoryFree d ;; set_rawData ptrRawDataObject None) ;;
  set_rawDataSize ptrRawDataObject 0.

Definition rawDataObject_free (ptrRawDataObject : ptr) : M unit :=
  if isNull ptrRawDataObject then ret tt else
  let* '(d, _) := load_RawDataObject ptrRawDataObject in
  (if isNull d then ret tt else lpaCoreMemoryFree d) ;;
  lpaCoreMemoryFree ptrRawDataObject.
End code.

(** ** Ownership *)

(** A buffer pointer: empty data has no buffer. *)
Definition buf (d : ptr) (bs : list Z) : heapProp :=
  match d with
  | None => ⟦bs = []⟧%I
  | Some l => (⟦bs ≠ []⟧ ∗ l ↦ BBytes bs)%I
  end.

(** A RawDataObject holding [bs]. *)
Definition raw (p : ptr) (bs : list Z) : heapProp :=
  (∃ l d, ⟦p = Some l⟧ ∗ l ↦ BRaw d (zlen bs) ∗ buf d bs)%I.

(** A pointer argument, [NULL] or an object. *)
Definition raw_arg (p : ptr) (o : option (list Z)) : heapProp :=
  match o with
  | None => ⟦p = None⟧%I
  | Some bs => raw p bs
  end.

(** A returned object, [NULL] only when an allocation failed. *)
Definition raw_result (nf : bool) (p : ptr) (bs : list Z) : heapProp :=
  match p with
  | None => ⟦nf = false⟧%I
  | Some _ => raw p bs
  end.

Abbreviation content o := (default [] o).

(** ** Buffers under construction *)

Lemma new_bytes_app a b : 0 <= a → 0 <= b → new_bytes (a + b) = new_bytes a ++ new_bytes b.
Proof. intros. rw /new_bytes /fill Z2Nat.inj_add //. apply replicate_add. Qed.

Lemma zlen_new_bytes n : 0 <= n → zlen (new_bytes n) = n.
Proof. intros. rw /new_bytes /fill zlen_replicate. lia. Qed.

Lemma app_nil_mid (xs k : list Z) : (xs ++ []) ++ k = xs ++ k.
Proof. by rw app_nil_r. Qed.

(** Filling the next cells of a new buffer. *)
Lemma wr_range_new xs vs k off :
  0 <= k → off = zlen xs →
  wr_range (xs ++ new_bytes (zlen vs + k)) off vs = Some ((xs ++ vs) ++ new_bytes k).
Proof.
  intros Hk ->. pose proof (zlen_nonneg vs). rw new_bytes_app //.
  rw wr_range_mid; [by rw -app_assoc|].
  rw /new_bytes /fill length_replicate. rw /zlen. lia.
Qed.

Lemma ber_length_bounds n : 1 <= zlen (ber_length n) <= 4.
Proof. rw ber_length_zlen. repeat ztest; lia. Qed.

Section specs.
Context {G : Type} (nf : bool).
Implicit Types (g : G).

Lemma wp_set_rawData l d0 n d g Φ :
  l ↦ BRaw d0 n -∗ (l ↦ BRaw d n -∗ Φ tt g) -∗ wp nf (set_rawData (Some l) d) g Φ.
Proof.
  iIntros "Hl HΦ". wp_seq. iApply (wp_load_raw with "Hl"). iIntros "Hl".
  by iApply (wp_store_block with "Hl").
Qed.

Lemma wp_set_rawDataSize l d n0 n g Φ :
  l ↦ BRaw d n0 -∗ (l ↦ BRaw d n -∗ Φ tt g) -∗ wp nf (set_rawDataSize (Some l) n) g Φ.
Proof.
  iIntros "Hl HΦ". wp_seq. iApply (wp_load_raw with "Hl"). iIntros "Hl".
  by iApply (wp_store_block with "Hl").
Qed.

Lemma wp_data_size p o g Φ :
  raw_arg p o -∗ (raw_arg p o -∗ Φ (zlen (content o)) g) -∗ wp nf (data_size p) g Φ.
Proof.
  iIntros "Hp HΦ". rw /data_size. destruct o as [bs|]; cbn [raw_arg default].
  - iDestruct "Hp" as (l d) "(-> & Hl & Hd)". wp_seq. iApply (wp_load_raw with "Hl"). iIntros "Hl".
    iApply wp_ret. destruct d as [d|]; cbn [isNull buf].
    + iApply "HΦ". iExists l, (Some d). by iFrame.
    + iDestruct "Hd" as %->. iApply "HΦ". iExists l, None. by iFrame.
  - iDestruct "Hp" as %->. iApply wp_ret. by iApply "HΦ".
Qed.

Lemma wp_allocate g Φ :
  (∀ p, match p with None => ⟦nf = false⟧ | Some l => l ↦ BRaw None 0 end -∗ Φ p g) -∗
  wp nf rawDataObject_allocate g Φ.
Proof.
  iIntros "HΦ". wp_seq. iApply wp_malloc; [done|]. iIntros ([l|]) "Hl"; cbn [isNull alloc_post].
  - wp_seq. iApply (wp_store_block with "Hl"); [done|]. iIntros "Hl". iApply wp_ret. by iApply "HΦ".
  - iApply wp_ret. by iApply "HΦ".
Qed.

(** Copies to the next cells of a new buffer. *)
Lemma wp_copy_arg l xs src n vs k off g Φ :
  rd_range src 0 n = Some vs → off = zlen xs → 0 <= k →
  l ↦ BBytes (xs ++ new_bytes (zlen vs + k)) -∗
  (l ↦ BBytes ((xs ++ vs) ++ new_bytes k) -∗ Φ tt g) -∗
  wp nf (memcpy_arg (Some l) off src n) g Φ.
Proof.
  iIntros (E Hoff Hk) "Hl HΦ". wp_seq. rw E. iApply wp_of_option.
  iApply (wp_memcpy_to with "Hl"); [|done]. by apply wr_range_new.
Qed.

Lemma wp_copy_obj l xs p o off0 n vs k off g Φ :
  rd_range (content o) off0 n = Some vs → off = zlen xs → 0 <= k → n = zlen vs →
  raw_arg p o -∗ l ↦ BBytes (xs ++ new_bytes (zlen vs + k)) -∗
  (raw_arg p o -∗ l ↦ BBytes ((xs ++ vs) ++ new_bytes k) -∗ Φ tt g) -∗
  wp nf (if n >? 0 then memcpy_obj (Some l) off p off0 n else ret tt) g Φ.
Proof.
  iIntros (E Hoff Hk ->) "Hp Hl HΦ". destruct (zlen vs >? 0) eqn:Ez.
  - destruct o as [bs|]; cbn [raw_arg default].
    2: { apply rd_range_length in E as (? & ? & ? & Hr). change (zlen _) with 0 in Hr at 2. lia. }
    iDestruct "Hp" as (lp d) "(-> & Hp & Hd)". wp_seq. iApply (wp_load_raw with "Hp"). iIntros "Hp".
    destruct d as [d|]; cbn [buf].
    + iDestruct "Hd" as "[%Hne Hd]". wp_seq. iApply (wp_memcpy_from with "Hd"); [done|].
      iIntros "Hd". iApply (wp_memcpy_to with "Hl"); [by apply wr_range_new|]. iIntros "Hl".
      iApply ("HΦ" with "[Hp Hd] Hl"). iExists lp, (Some d). by iFrame.
    + iDestruct "Hd" as %->. apply rd_range_length in E as (? & ? & ? & Hr).
      change (zlen _) with 0 in Hr at 2. lia.
  - assert (vs = []) as -> by (apply zlen_0_inv; pose proof (zlen_nonneg vs); lia).
    iApply wp_ret. rw app_nil_r. by iApply ("HΦ" with "Hp").
Qed.

(** ** Functional specifications *)

(** The end of the functions that build an object from two pieces: the data
    buffer is filled, the size is set. *)
Lemma raw_intro l d bs n : n = zlen bs → bs ≠ [] →
  l ↦ BRaw (Some d) n -∗ d ↦ BBytes bs -∗ raw (Some l) bs.
Proof. iIntros (-> Hne) "Hl Hd". iExists l, (Some d). by iFrame. Qed.

Lemma raw_empty l : l ↦ BRaw None 0 -∗ raw (Some l) [].
Proof. iIntros "Hl". iExists l, None. by iFrame. Qed.

(** rawDataObject_create *)
Lemma create_spec (src : option (list Z)) n bs g Φ :
  n <= 2 ^ 63 → match src with
                | None => bs = []
                | Some s => rd_range s 0 n = Some bs
                end →
  (∀ p, raw_result nf p bs -∗ Φ p g) -∗ wp nf (rawDataObject_create src n) g Φ.
Proof.
  iIntros (Hn Hsrc) "HΦ". wp_seq. iApply wp_allocate. iIntros ([l|]) "Hl"; cbn [isNull].
  2: { iApply wp_ret. by iApply "HΦ". }
  destruct src as [s|].
  2: { subst. iApply wp_ret. iApply ("HΦ" $! (Some l)). by iApply raw_empty. }
  pose proof (rd_range_length _ _ _ _ Hsrc) as (Hl & _ & Hn0 & _).
  destruct (n >? 0) eqn:En.
  - wp_seq. iApply wp_malloc; [lia|]. iIntros (d) "Hd". wp_seq.
    iApply (wp_set_rawData with "Hl"). iIntros "Hl". destruct d as [d|]; cbn [isNull alloc_post].
    + wp_seq. iApply (wp_copy_arg _ [] _ _ bs 0 with "[Hd]"); [done|done|done| |].
      { by rw Z.add_0_r Hl. }
      iIntros "Hd". wp_seq. iApply (wp_set_rawDataSize with "Hl"). iIntros "Hl".
      iApply wp_ret. iApply ("HΦ" $! (Some l)). change (new_bytes 0) with (@nil Z). rw app_nil_r /=.
      iApply (raw_intro with "Hl Hd"); [done|]. intros ->. change (zlen []) with 0 in Hl. lia.
    + wp_seq. iApply (wp_free_block with "Hl"). iApply wp_ret. by iApply ("HΦ" $! None).
  - iApply wp_ret. assert (bs = []) as -> by (apply zlen_0_inv; lia).
    iApply ("HΦ" $! (Some l)). by iApply raw_empty.
Qed.

(** The common end of the three concatenations, for any second copy [m2]. *)
Lemma wp_concat_tail l p1 o1 ys (m2 : ptr → M G unit) (P : heapProp) g Φ :
  zlen (content o1) + zlen ys < 2 ^ 64 →
  (∀ d Ψ, P -∗ d ↦ BBytes (content o1 ++ new_bytes (zlen ys + 0)) -∗
     (P -∗ d ↦ BBytes ((content o1 ++ ys) ++ new_bytes 0) -∗ Ψ tt g) -∗
     wp nf (m2 (Some d)) g Ψ) →
  raw_arg p1 o1 -∗ P -∗ l ↦ BRaw None 0 -∗
  (∀ p, raw_arg p1 o1 -∗ P -∗ raw_result nf p (content o1 ++ ys) -∗ Φ p g) -∗
  wp nf (let rawDataSize := u64 (zlen (content o1) + zlen ys) in
         if rawDataSize >? 0 then
           let* d := lpaCoreMemoryAlloc rawDataSize in
           set_rawData (Some l) d ;;
           if isNull d then lpaCoreMemoryFree (Some l) ;; ret None
           else
             (if zlen (content o1) >? 0 then memcpy_obj d 0 p1 0 (zlen (content o1)) else ret tt) ;;
             m2 d ;;
             set_rawDataSize (Some l) rawDataSize ;;
             ret (Some l)
         else ret (Some l)) g Φ.
Proof.
  iIntros (Hlen Hm2) "Hp HP Hl HΦ".
  pose proof (zlen_nonneg (content o1)). pose proof (zlen_nonneg ys).
  rw /u64 Z.mod_small; [|lia]. cbv zeta.
  destruct (zlen (content o1) + zlen ys >? 0) eqn:E.
  - wp_seq. iApply wp_malloc; [lia|]. iIntros (d) "Hd". wp_seq.
    iApply (wp_set_rawData with "Hl"). iIntros "Hl". destruct d as [d|]; cbn [isNull alloc_post].
    + wp_seq. iApply (wp_copy_obj _ [] _ _ _ _ (content o1) (zlen ys) with "Hp Hd");
        [by apply rd_range_all|done|done|done|]. iIntros "Hp Hd".
      wp_seq. rw -(Z.add_0_r (zlen ys)). iApply (Hm2 with "HP Hd"). iIntros "HP Hd".
      wp_seq. iApply (wp_set_rawDataSize with "Hl"). iIntros "Hl". iApply wp_ret.
      iApply ("HΦ" $! (Some l) with "Hp HP"). change (new_bytes 0) with (@nil Z). rw app_nil_r.
      iApply (raw_intro with "Hl Hd"); [by rw zlen_app Z.add_0_r|].
      intros Ha%(f_equal zlen). rw zlen_app in Ha. change (zlen []) with 0 in Ha. lia.
    + wp_seq. iApply (wp_free_block with "Hl"). iApply wp_ret. by iApply ("HΦ" $! None with "Hp HP").
  - iApply wp_ret. iApply ("HΦ" $! (Some l) with "Hp HP").
    assert (content o1 ++ ys = []) as -> by (apply zlen_0_inv; rw zlen_app; lia).
    by iApply raw_empty.
Qed.

(** rawDataObject_concat *)
Lemma concat_spec p1 o1 p2 o2 g Φ :
  zlen (content o1) + zlen (content o2) < 2 ^ 64 →
  raw_arg p1 o1 -∗ raw_arg p2 o2 -∗
  (∀ p, raw_arg p1 o1 -∗ raw_arg p2 o2 -∗ raw_result nf p (content o1 ++ content o2) -∗ Φ p g) -∗
  wp nf (rawDataObject_concat p1 p2) g Φ.
Proof.
  iIntros (Hlen) "H1 H2 HΦ". wp_seq. iApply wp_allocate. iIntros ([l|]) "Hl"; cbn [isNull].
  2: { iApply wp_ret. by iApply ("HΦ" with "H1 H2"). }
  wp_seq. iApply (wp_data_size with "H1"). iIntros "H1".
  wp_seq. iApply (wp_data_size with "H2"). iIntros "H2".
  iApply (wp_concat_tail l p1 o1 (content o2)
    (λ d, if zlen (content o2) >? 0
          then memcpy_obj d (zlen (content o1)) p2 0 (zlen (content o2)) else ret tt)
    with "H1 H2 Hl"); [done| |done].
  iIntros (d Ψ) "H2 Hd HΨ". iApply (wp_copy_obj with "H2 Hd"); [by apply rd_range_all|done..].
Qed.

(** rawDataObject_concatRawDataArray *)
Lemma concatRawDataArray_spec p1 o1 src n bs g Φ :
  match src with None => bs = [] | Some s => rd_range s 0 n = Some bs end →
  zlen (content o1) + zlen bs < 2 ^ 64 →
  raw_arg p1 o1 -∗
  (∀ p, raw_arg p1 o1 -∗ raw_result nf p (content o1 ++ bs) -∗ Φ p g) -∗
  wp nf (rawDataObject_concatRawDataArray p1 src n) g Φ.
Proof.
  iIntros (Hsrc Hlen) "H1 HΦ". wp_seq. iApply wp_allocate. iIntros ([l|]) "Hl"; cbn [isNull].
  2: { iApply wp_ret. by iApply ("HΦ" with "H1"). }
  wp_seq. iApply (wp_data_size with "H1"). iIntros "H1".
  assert (match src with Some _ => n | None => 0 end = zlen bs) as ->.
  { destruct src; [by apply rd_range_length in Hsrc as (? & _)|by subst]. }
  iApply (wp_concat_tail l p1 o1 bs
    (λ d, match src with
          | Some src => if zlen bs >? 0 then memcpy_arg d (zlen (content o1)) src (zlen bs) else ret tt
          | None => ret tt
          end) emp%I with "H1 [//] Hl"); [done| |].
  - iIntros (d Ψ) "_ Hd HΨ". destruct src as [s|].
    + destruct (zlen bs >? 0) eqn:E.
      * iApply (wp_copy_arg with "Hd"); [|done|done|by iApply "HΨ"].
        by destruct (rd_range_length _ _ _ _ Hsrc) as [-> _].
      * iApply wp_ret. assert (bs = []) as -> by (apply zlen_0_inv; pose proof (zlen_nonneg bs); lia).
        change (zlen [] + 0) with 0. rw app_nil_mid.
        by iApply ("HΨ" with "[//] Hd").
    + subst. iApply wp_ret. change (zlen [] + 0) with 0. rw app_nil_mid.
        by iApply ("HΨ" with "[//] Hd").
  - iIntros (p) "H1 _ Hp". by iApply ("HΦ" with "H1").
Qed.

(** What rawDataObject_concatPartially takes from its second object. *)
Definition partial (bs : list Z) (offset length : Z) : list Z :=
  take (Z.to_nat length) (drop (Z.to_nat offset) bs).

Lemma concatPartially_spec p1 o1 p2 o2 offset length g Φ :
  0 <= offset → 0 <= length → offset + length < 2 ^ 64 →
  zlen (content o1) + zlen (content o2) < 2 ^ 64 →
  raw_arg p1 o1 -∗ raw_arg p2 o2 -∗
  (∀ p, raw_arg p1 o1 -∗ raw_arg p2 o2 -∗
     raw_result nf p (content o1 ++ partial (content o2) offset length) -∗ Φ p g) -∗
  wp nf (rawDataObject_concatPartially p1 p2 offset length) g Φ.
Proof.
  iIntros (Hoff Hlen Hol Hsize) "H1 H2 HΦ". wp_seq. iApply wp_allocate.
  iIntros ([l|]) "Hl"; cbn [isNull].
  2: { iApply wp_ret. by iApply ("HΦ" with "H1 H2"). }
  wp_seq. iApply (wp_data_size with "H1"). iIntros "H1".
  wp_seq. iApply (wp_data_size with "H2"). iIntros "H2".
  set (ys := partial (content o2) offset length).
  assert (zlen ys = Z.min length (Z.max 0 (zlen (content o2) - offset))) as Hys.
  { rw /ys /partial zlen_take zlen_drop. lia. }
  pose proof (zlen_nonneg (content o2)).
  rw /u64 (Z.mod_small (offset + length)); [|lia].
  assert ((if offset <? zlen (content o2)
           then if offset + length <=? zlen (content o2) then length
                else zlen (content o2) - offset else 0) = zlen ys) as ->.
  { rw Hys. repeat ztest; lia. }
  iApply (wp_concat_tail l p1 o1 ys
    (λ d, if zlen ys >? 0
          then memcpy_obj d (zlen (content o1)) p2 offset (zlen ys) else ret tt)
    with "H1 H2 Hl"); [lia| |done].
  iIntros (d Ψ) "H2 Hd HΨ".
  destruct (zlen ys >? 0) eqn:E.
  - iPoseProof (wp_copy_obj d (content o1) p2 o2 offset (zlen ys) ys 0 with "H2 Hd HΨ") as "H";
      [|done|done|done|by rw E].
    rw rd_range_Some; [|lia..]. f_equal. rw /ys /partial Hys.
    rw -{1}(firstn_skipn (Z.to_nat length) (drop (Z.to_nat offset) (content o2))).
    rw take_app_le; [|rw length_take length_drop /zlen; lia].
    apply take_ge. rw length_take length_drop /zlen. lia.
  - assert (ys = []) as -> by (apply zlen_0_inv; pose proof (zlen_nonneg ys); lia).
    iApply wp_ret. change (zlen [] + 0) with 0. rw app_nil_mid.
    by iApply ("HΨ" with "H2").
Qed.

(** [if (d != NULL) lpaCoreMemoryFree(d);] *)
Lemma wp_free_buf d bs g Φ :
  buf d bs -∗ Φ tt g -∗ wp nf (if isNull d then ret tt else lpaCoreMemoryFree d) g Φ.
Proof.
  iIntros "Hd HΦ". destruct d as [d|]; cbn [isNull buf].
  - iDestruct "Hd" as "[_ Hd]". by iApply (wp_free_block with "Hd").
  - iDestruct "Hd" as %->. by iApply wp_ret.
Qed.

Lemma wp_free_rawData l d bs n g Φ :
  l ↦ BRaw d n -∗ buf d bs -∗ (l ↦ BRaw d n -∗ Φ tt g) -∗ wp nf (free_rawData (Some l)) g Φ.
Proof.
  iIntros "Hl Hd HΦ". wp_seq. iApply (wp_load_raw with "Hl"). iIntros "Hl".
  iApply (wp_free_buf with "Hd"). by iApply "HΦ".
Qed.

(** rawDataObject_free releases the object and its buffer. *)
Lemma free_spec p o g Φ :
  raw_arg p o -∗ Φ tt g -∗ wp nf (rawDataObject_free p) g Φ.
Proof.
  iIntros "Hp HΦ". rw /rawDataObject_free. destruct o as [bs|]; cbn [raw_arg].
  - iDestruct "Hp" as (l d) "(-> & Hl & Hd)". cbn [isNull]. wp_seq.
    iApply (wp_load_raw with "Hl"). iIntros "Hl". wp_seq. iApply (wp_free_buf with "Hd").
    by iApply (wp_free_block with "Hl").
  - iDestruct "Hp" as %->. by iApply wp_ret.
Qed.

(** rawDataObject_clear *)
Lemma clear_spec p bs g Φ :
  raw p bs -∗ (raw p [] -∗ Φ tt g) -∗ wp nf (rawDataObject_clear p) g Φ.
Proof.
  iIntros "Hp HΦ". iDestruct "Hp" as (l d) "(-> & Hl & Hd)". wp_seq.
  iApply (wp_load_raw with "Hl"). iIntros "Hl". wp_seq. destruct d as [d|]; cbn [isNull buf].
  - iDestruct "Hd" as "[_ Hd]". wp_seq. iApply (wp_free_block with "Hd").
    iApply (wp_set_rawData with "Hl"). iIntros "Hl". iApply (wp_set_rawDataSize with "Hl").
    iIntros "Hl". iApply "HΦ". by iApply raw_empty.
  - iDestruct "Hd" as %->. wp_value. iApply (wp_set_rawDataSize with "Hl").
    iIntros "Hl". iApply "HΦ". by iApply raw_empty.
Qed.

(** rawDataObject_appendRawDataArray *)
Lemma append_spec p bs src n xs g Φ :
  rd_range src 0 n = Some xs → 0 < n → zlen bs + n < 2 ^ 64 →
  raw p bs -∗
  (∀ b, (if (b : bool) then raw p (bs ++ xs) else ⟦nf = false⟧ ∗ raw p bs) -∗ Φ b g) -∗
  wp nf (rawDataObject_appendRawDataArray p (Some src) n) g Φ.
Proof.
  iIntros (Hsrc Hn Hlen) "Hp HΦ". iDestruct "Hp" as (l d0) "(-> & Hl & Hd0)".
  pose proof (rd_range_length _ _ _ _ Hsrc) as (Hxs & _). pose proof (zlen_nonneg bs).
  wp_seq. cbn [isNull negb]. assert ((n >? 0) = true) as -> by lia. cbn [andb].
  wp_seq. iApply (wp_load_raw with "Hl"). iIntros "Hl". cbv zeta.
  iAssert (⟦(if isNull d0 then 0 else zlen bs) = zlen bs⟧ ∗ buf d0 bs)%I with "[Hd0]" as "[%Hsz Hd0]".
  { destruct d0; cbn [isNull buf]; [by iFrame|]. iDestruct "Hd0" as %->. done. }
  rw Hsz /u64 Z.mod_small; [|lia].
  assert ((zlen bs + n >? 0) = true) as -> by lia.
  wp_seq. iApply wp_malloc; [lia|]. iIntros ([d|]) "Hd"; cbn [isNull alloc_post].
  2: { wp_value. wp_value. iApply ("HΦ" $! false). iSplitL "Hd"; [done|].
       iExists l, d0. by iFrame. }
  wp_seq. rw -Hxs.
  iApply (wp_copy_obj _ [] _ (Some bs) _ _ bs (zlen xs) with "[Hl Hd0] Hd");
    [by apply rd_range_all|done|apply zlen_nonneg|done|iExists l, d0; by iFrame|].
  iIntros "Hp Hd". wp_seq.
  rw -(Z.add_0_r (zlen xs)). iApply (wp_copy_arg with "Hd"); [by rw Z.add_0_r Hxs|done|done|].
  iIntros "Hd". iDestruct "Hp" as (l' d0') "(%El & Hl & Hd0)". injection El as <-.
  wp_seq. iApply (wp_free_rawData with "Hl Hd0"). iIntros "Hl".
  wp_seq. iApply (wp_set_rawData with "Hl"). iIntros "Hl".
  wp_seq. iApply (wp_set_rawDataSize with "Hl"). iIntros "Hl". wp_value. wp_value.
  iApply ("HΦ" $! true). change (new_bytes 0) with (@nil Z). rw app_nil_r.
  iApply (raw_intro with "Hl Hd"); [by rw zlen_app Z.add_0_r|].
  intros Ha%(f_equal zlen). rw !zlen_app in Ha. change (zlen []) with 0 in Ha. lia.
Qed.

(** rawDataObject_update with non-empty data *)
Lemma update_spec p bs src n xs g Φ :
  rd_range src 0 n = Some xs → 0 < n →
  raw p bs -∗
  (∀ b, (if (b : bool) then raw p xs else ⟦nf = false⟧ ∗ raw p bs) -∗ Φ b g) -∗
  wp nf (rawDataObject_update p (Some src) n) g Φ.
Proof.
  iIntros (Hsrc Hn) "Hp HΦ". iDestruct "Hp" as (l d0) "(-> & Hl & Hd0)".
  pose proof (rd_range_length _ _ _ _ Hsrc) as (Hxs & _). cbn [isNull].
  wp_seq. iApply (wp_load_raw with "Hl"). iIntros "Hl".
  assert ((n >? 0) = true) as -> by lia. destruct (zlen bs =? n) eqn:E.
  - destruct d0 as [d|]; cbn [buf].
    2: { iDestruct "Hd0" as %->. change (zlen []) with 0 in E. lia. }
    iDestruct "Hd0" as "[_ Hd]". wp_seq. wp_seq. rw Hsrc. iApply wp_of_option.
    assert (length xs = length bs) as Hll by (rw /zlen in Hxs E; lia).
    iApply (wp_memcpy_to with "Hd").
    { pose proof (wr_range_mid [] bs [] xs Hll) as Ew. rw !app_nil_r /= in Ew. exact Ew. }
    iIntros "Hd". wp_value. iApply ("HΦ" $! true).
    iApply (raw_intro with "Hl Hd"); [lia|]. intros ->. change (zlen []) with 0 in Hxs. lia.
  - wp_seq. iApply wp_malloc; [lia|]. iIntros ([d|]) "Hd"; cbn [isNull alloc_post].
    2: { wp_value. iApply ("HΦ" $! false). iSplitL "Hd"; [done|]. iExists l, d0. by iFrame. }
    wp_seq. iApply (wp_copy_arg _ [] _ _ xs 0 with "[Hd]"); [done..| |].
    { by rw Z.add_0_r Hxs. }
    iIntros "Hd". wp_seq. iApply (wp_free_rawData with "Hl Hd0"). iIntros "Hl".
    wp_seq. iApply (wp_set_rawData with "Hl"). iIntros "Hl".
    wp_seq. iApply (wp_set_rawDataSize with "Hl"). iIntros "Hl". wp_value.
    iApply ("HΦ" $! true). change (new_bytes 0) with (@nil Z). rw app_nil_r /=.
    iApply (raw_intro with "Hl Hd"); [done|]. intros ->. change (zlen []) with 0 in Hxs. lia.
Qed.

(** [ptr[i] = v;] on the next cell of a new buffer *)
Lemma wp_set_next l xs v m i g Φ :
  i = zlen xs → 1 <= m →
  l ↦ BBytes (xs ++ new_bytes m) -∗
  (l ↦ BBytes ((xs ++ [u8 v]) ++ new_bytes (m - 1)) -∗ Φ tt g) -∗
  wp nf (set_byte (Some l) i v) g Φ.
Proof.
  iIntros (-> Hm) "Hl HΦ". iApply (wp_memcpy_to with "Hl"); [|done].
  replace m with (zlen [u8 v] + (m - 1)) at 1 by (change (zlen [u8 v]) with 1; lia).
  apply wr_range_new; [lia|done].
Qed.

Lemma lv_length_size_ok n : lv_length_size n = zlen (ber_length n).
Proof. rw ber_length_zlen /lv_length_size. repeat ztest; lia. Qed.

(** The octets of a length, written in the first cells of a new buffer. *)
Lemma wp_lv_write_length l n k g Φ :
  0 < n < 2 ^ 24 → 0 <= k →
  l ↦ BBytes (new_bytes (zlen (ber_length n) + k)) -∗
  (l ↦ BBytes (ber_length n ++ new_bytes k) -∗ Φ tt g) -∗
  wp nf (lv_write_length (Some l) (zlen (ber_length n)) n) g Φ.
Proof.
  iIntros (Hn Hk) "Hl HΦ". rw -(app_nil_l (new_bytes _)).
  rw /lv_write_length /ber_length. rw !Z.shiftr_div_pow2 // !land_255. pows.
  assert (n / 65536 < 256 ∧ 0 <= n / 65536) as Hm3 by dlia.
  destruct (Z.ltb_spec n 0x80); [|destruct (Z.ltb_spec n 0x100); [|destruct (Z.ltb_spec n 0x10000)]];
    rw !zlen_cons; change (zlen []) with 0; cbn [Z.add Pos.add Pos.succ Z.eqb Pos.eqb];
    repeat first [iApply (wp_set_next with "Hl"); [done|lia|]; iIntros "Hl" | wp_seq];
    cbn [app]; rw /u8; pows; rw ?Zmod_mod; change (129 mod 256) with 129;
    change (130 mod 256) with 130; change (131 mod 256) with 131.
  - rw Z.mod_small; [|lia]. replace (_ + k - 1) with k by lia. by iApply "HΦ".
  - rw Z.mod_small; [|lia]. replace (_ + k - 1 - 1) with k by lia. by iApply "HΦ".
  - rw (Z.mod_small (n / 256)); [|dlia]. replace (_ + k - 1 - 1 - 1) with k by lia. by iApply "HΦ".
  - rw (Z.mod_small (n / 65536)); [|lia]. replace (_ + k - 1 - 1 - 1 - 1) with k by lia.
    by iApply "HΦ".
Qed.

(** rawDataObject_createAsLV *)
Lemma createAsLV_spec src n bs g Φ :
  0 < n < 2 ^ 24 → rd_range src 0 n = Some bs →
  (∀ p, raw_result nf p (ber_length n ++ bs) -∗ Φ p g) -∗
  wp nf (rawDataObject_createAsLV (Some src) n) g Φ.
Proof.
  iIntros (Hn Hsrc) "HΦ". pose proof (rd_range_length _ _ _ _ Hsrc) as (Hl & _).
  rw /rawDataObject_createAsLV. assert ((n >? 0) = true) as -> by lia.
  wp_seq. iApply wp_allocate. iIntros ([l|]) "Hl"; cbn [isNull].
  2: { iApply wp_ret. by iApply "HΦ". }
  cbv zeta. rw lv_length_size_ok /u64.
  pose proof (ber_length_bounds n).
  rw (Z.mod_small (_ + n)); [|pows; lia].
  wp_seq. iApply wp_malloc; [lia|]. iIntros (d) "Hd". wp_seq.
  iApply (wp_set_rawData with "Hl"). iIntros "Hl". destruct d as [d|]; cbn [isNull alloc_post].
  - wp_seq. iApply (wp_lv_write_length with "Hd"); [done|lia|]. iIntros "Hd". wp_seq.
    iApply (wp_copy_arg _ _ _ _ bs 0 with "[Hd]"); [done..| |].
    { by rw Z.add_0_r Hl. }
    iIntros "Hd". wp_seq. iApply (wp_set_rawDataSize with "Hl"). iIntros "Hl".
    iApply wp_ret. iApply ("HΦ" $! (Some l)). change (new_bytes 0) with (@nil Z). rw app_nil_r.
    iApply (raw_intro with "Hl Hd"); [by rw zlen_app Hl|].
    intros Ha%(f_equal zlen). rw zlen_app in Ha. change (zlen []) with 0 in Ha. lia.
  - wp_seq. iApply (wp_free_block with "Hl"). iApply wp_ret. by iApply ("HΦ" $! None).
Qed.
End specs.

(** ** Properties *)

(** The heap of a non-empty object. *)
Definition raw_heap (l d : loc) (bs : list Z) : heap :=
  {[l := BRaw (Some d) (zlen bs)]} ∪ {[d := BBytes bs]}.

Lemma raw_holds p bs h : bs ≠ [] → holds (raw p bs) h →
  ∃ l d, p = Some l ∧ l ≠ d ∧ h = raw_heap l d bs.
Proof.
  intros Hne (l & d & h0 & h' & -> & _ & [He0 ->] & h1 & h2 & -> & Hd & He1 & H2).
  destruct d as [d|]; [|by destruct H2 as [_ ?]].
  destruct H2 as (h3 & h4 & -> & _ & [He3 _] & He4). exists l, d.
  change (h0 = ∅) in He0. change (h1 = {[l := BRaw (Some d) (zlen bs)]}) in He1.
  change (h3 = ∅) in He3. change (h4 = {[d := BBytes bs]}) in He4. subst.
  rw !(left_id_L ∅ (∪)). split; [done|]. split; [|done]. intros ->.
  rw !(left_id_L ∅ (∪)) in Hd. by apply map_disjoint_singleton_l, lookup_singleton_None in Hd.
Qed.

(** Whatever is allocated and whichever allocations fail,
    rawDataObject_createAsLV either answers NULL with the heap as it was, or a
    new object that holds the BER length octets of the data and then the
    data, and allocates nothing else; it never answers NULL when no allocation
    fails. *)
Theorem createAsLV_correct {G} (hf : heap) (o : list bool) (g : G) (src : list Z) (n : Z) :
  0 < n < 2 ^ 24 → n <= zlen src →
  ∃ p h o', rawDataObject_createAsLV (Some src) n (World hf o g) = Some (p, World (h ∪ hf) o' g) ∧
    h ##ₘ hf ∧
    match p with
    | None => h = ∅ ∧ ¬ Forall (eq false) o
    | Some l => ∃ d, l ≠ d ∧ h = raw_heap l d (ber_length n ++ take (Z.to_nat n) src)
    end.
Proof.
  intros Hn Hl.
  assert (rd_range src 0 n = Some (take (Z.to_nat n) src)) as Hsrc.
  { rw rd_range_Some; [done|lia..]. }
  set (nf := bool_decide (Forall (eq false) o)).
  assert (triple nf emp%I (rawDataObject_createAsLV (Some src) n) g
    (λ p g', ⟦g' = g⟧ ∗ raw_result nf p (ber_length n ++ take (Z.to_nat n) src))%I) as Ht.
  { iIntros "_". iApply createAsLV_spec; [done|done|]. iIntros (p) "Hp". by iFrame. }
  destruct (triple_run _ _ _ _ _ ∅ hf o Ht) as (p & h & o' & g' & E & Hd & _ & H); [done| | |].
  { apply map_disjoint_empty_l. }
  { rw /oracle_ok /nf. by case_bool_decide. }
  destruct H as (h1 & h2 & -> & _ & [He1 ->] & H). change (h1 = ∅) in He1. subst h1.
  rw !(left_id_L ∅ (∪)) in E. rw (left_id_L ∅ (∪)) in Hd. exists p, h2, o'. split; [done|]. split; [done|].
  destruct p as [l|]; cbn [raw_result] in H.
  - apply raw_holds in H as (l' & d & [= ->] & ? & ->); [by exists d|].
    intros Ha%(f_equal zlen). rw zlen_app in Ha. change (zlen []) with 0 in Ha.
    pose proof (zlen_nonneg (take (Z.to_nat n) src)). pose proof (ber_length_bounds n). lia.
  - destruct H as [He Hnf]. split; [done|]. change (nf = false) in Hnf. rw /nf in Hnf. by case_bool_decide.
Qed.

Lemma createAsLV_correct_witness :
  ∃ p h o', rawDataObject_createAsLV (Some [7; 8; 9]) 3 (World ∅ [false; true] tt)
              = Some (p, World (h ∪ ∅) o' tt) ∧
    h ##ₘ ∅ ∧
    match p with
    | None => h = ∅ ∧ ¬ Forall (eq false) [false; true]
    | Some l => ∃ d, l ≠ d ∧ h = raw_heap l d (ber_length 3 ++ take (Z.to_nat 3) [7; 8; 9])
    end.
Proof. apply (createAsLV_correct ∅ [false; true] tt [7; 8; 9] 3); vm_compute; [split|]; congruence. Defined.

(** RawDataObject_appendRawDataArray appends the bytes to the object in
    place and releases the old buffer, or answers false and leaves the object
    as it was, which happens only when the allocation fails. *)
Theorem append_correct {G} (nf : bool) (p : ptr) (bs src : list Z) (n : Z) (g : G) :
  0 < n <= zlen src → zlen bs + n < 2 ^ 64 →
  triple nf (raw p bs) (rawDataObject_appendRawDataArray p (Some src) n) g
    (λ b g', ⟦g' = g⟧ ∗ (if b then raw p (bs ++ take (Z.to_nat n) src)
                         else ⟦nf = false⟧ ∗ raw p bs))%I.
Proof.
  intros Hn Hl. iIntros "Hp". iApply (append_spec with "Hp"); [|lia|done|].
  { rw rd_range_Some; [done|lia..]. }
  iIntros (b) "Hb". by iFrame.
Qed.

Lemma append_correct_witness :
  triple false (raw (Some 1%positive) [1; 2])
    (rawDataObject_appendRawDataArray (Some 1%positive) (Some [3; 4]) 1) tt
    (λ b g', ⟦g' = tt⟧ ∗ (if b then raw (Some 1%positive) ([1; 2] ++ take (Z.to_nat 1) [3; 4])
                          else ⟦false = false⟧ ∗ raw (Some 1%positive) [1; 2]))%I.
Proof. apply (append_correct false (Some 1%positive) [1; 2] [3; 4] 1 tt); vm_compute; [split|]; congruence. Defined.

(** RawDataObject_concatPartially builds the concatenation of the first
    object and of the part of the second from the offset on, at most the given
    length, each taken as empty when NULL, and gives the two objects back
    unchanged. *)
Theorem concatPartially_correct {G} (nf : bool) (p1 p2 : ptr) (o1 o2 : option (list Z))
    (offset length : Z) (g : G) :
  0 <= offset → 0 <= length → offset + length < 2 ^ 64 →
  zlen (content o1) + zlen (content o2) < 2 ^ 64 →
  triple nf (raw_arg p1 o1 ∗ raw_arg p2 o2)%I (rawDataObject_concatPartially p1 p2 offset length) g
    (λ p g', ⟦g' = g⟧ ∗ raw_arg p1 o1 ∗ raw_arg p2 o2 ∗
             raw_result nf p (content o1 ++ partial (content o2) offset length))%I.
Proof.
  intros Ho Hl Hol Hs. iIntros "[H1 H2]".
  iApply (concatPartially_spec with "H1 H2"); [done..|]. iIntros (p) "H1 H2 Hp". by iFrame.
Qed.

Lemma concatPartially_correct_witness :
  triple true (raw_arg (Some 1%positive) (Some [1; 2]) ∗ raw_arg None None)%I
    (rawDataObject_concatPartially (Some 1%positive) None 3 4) tt
    (λ p g', ⟦g' = tt⟧ ∗ raw_arg (Some 1%positive) (Some [1; 2]) ∗ raw_arg None None ∗
             raw_result true p (content (Some [1; 2]) ++ partial (content None) 3 4))%I.
Proof.
  apply (concatPartially_correct true (Some 1%positive) None (Some [1; 2]) None 3 4 tt);
    vm_compute; congruence.
Defined.
