(* ===== verification/BerTlv.v ===== *)
(** * bertlv_object.c: parsing and building BER-TLV objects

    Every function of [core/bertlv_object.c], over the heap of Heap.v. The raw
    data a function parses is the list of the bytes of the caller's object from
    the pointer on; sizes are small enough that no sum of an offset and a
    24-bit length wraps in a [size_t]. *)

From stdpp Require Import gmap.
From iris.bi Require Import bi.
From iris.proofmode Require Import proofmode.
From S2P Require Import Prelude CLib Heap Wp Util RawData.

(** ** Headers *)

(** The first bytes of the tags of two bytes. *)
Definition is_two_bytes_tag (c : Z) : bool :=
  (c =? 0xFF) || (c =? 0x9F) || (c =? 0xDF) || (c =? 0x5F) || (c =? 0xBF).

(** "Read <Length>" of the parsing loops: the tag, the length and the next
    offset; [Some None] when [invalidRawData] is set. *)
Definition read_length (src : list Z) (rawDataSize currentTag offset : Z)
    : option (option (Z * Z * Z)) :=
  if offset <? rawDataSize then
    b ← src.[offset];
    if b <=? 0x7F then Some (Some (currentTag, b, offset + 1))
    else if b =? 0x81 then
      if offset + 1 <? rawDataSize then
        l1 ← src.[offset + 1]; Some (Some (currentTag, l1, offset + 2))
      else Some None
    else if b =? 0x82 then
      if offset + 2 <? rawDataSize then
        l1 ← src.[offset + 1]; l2 ← src.[offset + 2];
        Some (Some (currentTag, Z.lor (Z.shiftl l1 8) l2, offset + 3))
      else Some None
    else if b =? 0x83 then
      if offset + 3 <? rawDataSize then
        l1 ← src.[offset + 1]; l2 ← src.[offset + 2]; l3 ← src.[offset + 3];
        Some (Some (currentTag, Z.lor (Z.lor (Z.shiftl l1 16) (Z.shiftl l2 8)) l3, offset + 4))
      else Some None
    else Some None
  else Some None.

(** "Read Tag", then the length. *)
Definition read_header (src : list Z) (rawDataSize offset : Z) : option (option (Z * Z * Z)) :=
  c ← src.[offset];
  if is_two_bytes_tag c then
    if offset + 1 <? rawDataSize then
      c2 ← src.[offset + 1];
      read_length src rawDataSize (u16 (Z.lor (Z.shiftl c 8) c2)) (offset + 2)
    else Some None
  else read_length src rawDataSize c (offset + 1).

Section code.
Context {G : Type}.
Abbreviation M := (M G).

Definition berTLV_create (tag length : Z) (ptrValue : option (list Z)) : M ptr :=
  let* p := lpaCoreMemoryAlloc sizeof_BeerTLV in
  if isNull p then ret p else
  store p (BTlv tag 0 None) ;;
  match ptrValue with
  | None => ret p
  | Some src =>
      if length >? 0 then
        let* d := lpaCoreMemoryAlloc length in
        (let* '(t, n, _) := load_BeerTLV p in store p (BTlv t n d)) ;;
        if isNull d then lpaCoreMemoryFree p ;; ret None
        else
          memcpy_arg d 0 src length ;;
          (let* '(t, _, v) := load_BeerTLV p in store p (BTlv t length v)) ;;
          ret p
      else ret p
  end.

Definition berTLV_freeBerTLV (ptrBerTLV : ptr) : M bool :=
  (if isNull ptrBerTLV then ret tt else
   let* '(_, _, v) := load_BeerTLV ptrBerTLV in
   (if isNull v then ret tt else lpaCoreMemoryFree v) ;;
   lpaCoreMemoryFree ptrBerTLV) ;;
  ret true.

(** The [while] loop of berTLV_extractTagUInt16: the object and
    [isTagFound]. Every round consumes at least two bytes, so the size of the
    data is enough fuel. *)
Fixpoint extractTag_loop (fuel : nat) (tag : Z) (src : list Z) (rawDataSize offset : Z)
    : M (ptr * bool) :=
  if offset <? rawDataSize then
    match fuel with
    | O => ub
    | S fuel' =>
        let* h := of_option (read_header src rawDataSize offset) in
        match h with
        | None => ret (None, false)
        | Some (currentTag, currentLength, offset) =>
            if currentTag =? tag then
              if offset + currentLength <=? rawDataSize then
                let* p := berTLV_create tag currentLength (Some (drop (Z.to_nat offset) src)) in
                ret (p, true)
              else ret (None, true)
            else extractTag_loop fuel' tag src rawDataSize (offset + currentLength)
        end
    end
  else ret (None, false).

(** The object and [*ptrIsTagFound]. *)
Definition berTLV_extractTagUInt16 (tag : Z) (ptrRawData : option (list Z)) (rawDataSize : Z)
    : M (ptr * bool) :=
  match ptrRawData with
  | Some src =>
      if rawDataSize >=? 2 then
        extractTag_loop (Z.to_nat rawDataSize) tag src rawDataSize 0
      else ret (None, false)
  | None => ret (None, false)
  end.

(** [*ptrIsTagFound] is [None] when it is not written. *)
Definition berTLV_extractTagUInt8 (tag : Z) (ptrRawData : option (list Z)) (rawDataSize : Z)
    : M (ptr * option bool) :=
  match ptrRawData with
  | Some src =>
      if rawDataSize >=? 2 then
        let tag16 := Z.land tag 0x00FF in
        let* '(p, b) := berTLV_extractTagUInt16 tag16 ptrRawData rawDataSize in
        ret (p, Some b)
      else ret (None, None)
  | None => ret (None, None)
  end.

(** The [while] loop of berTLV_freeBerTLVList. *)
Fixpoint freeList_loop (fuel : nat) (p : ptr) : M unit :=
  match p with
  | None => ret tt
  | Some _ =>
      match fuel with
      | O => ub
      | S fuel' =>
          let* '(i, t, next) := load_BerTLVList p in
          (if isNull t then ret tt
           else berTLV_freeBerTLV t ;; store p (BList i None next)) ;;
          lpaCoreMemoryFree p ;;
          freeList_loop fuel' next
      end
  end.

(** Every round of the loop releases a live block, so the number of live
    blocks is enough fuel. *)
Definition berTLV_freeBerTLVList (ptrBerTLVList : ptr) : M bool := λ w,
  (freeList_loop (size (wheap w)) ptrBerTLVList ;; ret true) w.

(** [last->ptrNext = p;] *)
Definition set_ptrNext (last p : ptr) : M unit :=
  let* '(i, t, _) := load_BerTLVList last in store last (BList i t p).

(** The [while] loop of berTLV_extractList: the first element and
    [countTLVFound], a [uint8_t]. *)
Fixpoint extractList_loop (fuel : nat) (src : list Z) (rawDataSize offset : Z)
    (first last : ptr) (count : Z) : M (ptr * Z) :=
  if offset <? rawDataSize then
    match fuel with
    | O => ub
    | S fuel' =>
        let* h := of_option (read_header src rawDataSize offset) in
        match h with
        | None => ret (first, count)
        | Some (currentTag, currentLength, offset) =>
            let* p := lpaCoreMemoryAlloc sizeof_BerTLVList in
            if isNull p then
              (if isNull first then ret tt else berTLV_freeBerTLVList first ;; ret tt) ;;
              ret (None, count)
            else
              store p (BList count None None) ;;
              let* t := berTLV_create currentTag currentLength
                          (Some (drop (Z.to_nat offset) src)) in
              store p (BList count t None) ;;
              if isNull t then
                (if isNull first then ret tt else berTLV_freeBerTLVList first ;; ret tt) ;;
                lpaCoreMemoryFree p ;;
                ret (None, count)
              else
                let* first' := (if isNull first then ret p
                                else set_ptrNext last p ;; ret first) in
                extractList_loop fuel' src rawDataSize (offset + currentLength)
                  first' p (u8 (count + 1))
        end
    end
  else ret (first, count).

(** The first element and [*ptrCountTLVFound]. *)
Definition berTLV_extractList (ptrRawData : option (list Z)) (rawDataSize : Z) : M (ptr * Z) :=
  match ptrRawData with
  | Some src =>
      if rawDataSize >=? 2 then
        extractList_loop (Z.to_nat rawDataSize) src rawDataSize 0 None None 0
      else ret (None, 0)
  | None => ret (None, 0)
  end.

(** The buffer and [*ptrRawDataSize]. *)
Definition _berTLV_createRawDataBuffer (ptrBerTlv : ptr) : M (ptr * Z) :=
  if isNull ptrBerTlv then ret (None, 0) else
  let* '(tag, length, value) := load_BeerTLV ptrBerTlv in
  let tlvTagSize := if negb (Z.land tag 0xFF00 =? 0) then 2 else 1 in
  let tlvLengthSize := lv_length_size length in
  let tlvDataSize := u32 length in
  let tlvTotalSize := u32 (tlvTagSize + tlvLengthSize + tlvDataSize) in
  if tlvTotalSize >? 0 then
    let* d := lpaCoreMemoryAlloc tlvTotalSize in
    if isNull d then ret (None, 0) else
    let* o :=
      (if tlvTagSize =? 1 then set_byte d 0 (Z.land tag 0xFF) ;; ret 1
       else
         set_byte d 0 (Z.land (Z.shiftr tag 8) 0xFF) ;;
         set_byte d 1 (Z.land tag 0x00FF) ;; ret 2) in
    let* o :=
      (if tlvLengthSize =? 1 then set_byte d o length ;; ret (o + 1)
       else if tlvLengthSize =? 2 then
         set_byte d o 0x81 ;; set_byte d (o + 1) length ;; ret (o + 2)
       else if tlvLengthSize =? 3 then
         set_byte d o 0x82 ;;
         set_byte d (o + 1) (Z.land (Z.shiftr length 8) 0xFF) ;;
         set_byte d (o + 2) (Z.land length 0x00FF) ;; ret (o + 3)
       else
         set_byte d o 0x83 ;;
         set_byte d (o + 1) (Z.land (Z.shiftr length 16) 0xFF) ;;
         set_byte d (o + 2) (Z.land (Z.shiftr length 8) 0xFF) ;;
         set_byte d (o + 3) (Z.land length 0x00FF) ;; ret (o + 4)) in
    (if tlvDataSize >? 0 then
       let* vs := memcpy_from value 0 tlvDataSize in memcpy_to d o vs
     else ret tt) ;;
    ret (d, tlvTotalSize)
  else ret (None, 0).

Definition berTLV_buildRawDataObject (ptrBerTlv : ptr) : M ptr :=
  if isNull ptrBerTlv then ret None else
  let* p := rawDataObject_allocate in
  if isNull p then ret None else
  let* '(d, rawDataSize) := _berTLV_createRawDataBuffer ptrBerTlv in
  set_rawData p d ;;
  if isNull d then rawDataObject_free p ;; ret None
  else set_rawDataSize p rawDataSize ;; ret p.

Definition berTLV_createAndBuildRawDataObject (tag length : Z) (ptrValue : option (list Z))
    : M ptr :=
  let* t := berTLV_create tag length ptrValue in
  if isNull t then ret None else
  let* p := berTLV_buildRawDataObject t in
  berTLV_freeBerTLV t ;;
  ret p.

Definition _berTLV_freeRawDataBuffer (ptrRawData : ptr) : M unit :=
  if isNull ptrRawData then ret tt else lpaCoreMemoryFree ptrRawData.
End code.

(** ** Reference parser, on the remaining bytes *)

Definition parse_length (tag : Z) (s : list Z) : option (Z * Z * list Z) :=
  match s with
  | b :: s =>
      if b <? 0x80 then Some (tag, b, s)
      else match s with
           | l1 :: s1 =>
               if b =? 0x81 then Some (tag, l1, s1)
               else match s1 with
                    | l2 :: s2 =>
                        if b =? 0x82 then Some (tag, be_value [l1; l2], s2)
                        else match s2 with
                             | l3 :: s3 => if b =? 0x83 then Some (tag, be_value [l1; l2; l3], s3)
                                           else None
                             | [] => None
                             end
                    | [] => None
                    end
           | [] => None
           end
  | [] => None
  end.

(** Tag, length and the bytes after the header. *)
Definition parse_header (s : list Z) : option (Z * Z * list Z) :=
  match s with
  | c :: s => if is_two_bytes_tag c then
                match s with
                | c2 :: s => parse_length (c * 256 + c2) s
                | [] => None
                end
              else parse_length c s
  | [] => None
  end.

(** The first object with a tag: whether the tag was found, and the value when
    it is complete. *)
Fixpoint find_tag (fuel : nat) (tag : Z) (s : list Z) : bool * option (list Z) :=
  match fuel, s with
  | S f, _ :: _ =>
      match parse_header s with
      | Some (t, n, r) =>
          if t =? tag then
            if n <=? zlen r then (true, Some (take (Z.to_nat n) r)) else (true, None)
          else find_tag f tag (drop (Z.to_nat n) r)
      | None => (false, None)
      end
  | _, _ => (false, None)
  end.

(** All objects up to the first malformed header; [None] when a value is
    longer than the data. *)
Fixpoint parse_list (fuel : nat) (s : list Z) : option (list (Z * list Z)) :=
  match fuel, s with
  | S f, _ :: _ =>
      match parse_header s with
      | Some (t, n, r) =>
          if n <=? zlen r then
            rest ← parse_list f (drop (Z.to_nat n) r);
            Some ((t, take (Z.to_nat n) r) :: rest)
          else None
      | None => Some []
      end
  | _, _ => Some []
  end.

Lemma parse_length_suffix tag s t n r : parse_length tag s = Some (t, n, r) →
  ∃ h, s = h ++ r ∧ h ≠ [].
Proof.
  rw /parse_length. destruct s as [|b s]; [done|]. ztest; [intros [= <- <- <-]; by exists [b]|].
  destruct s as [|l1 s]; [done|]. ztest; [intros [= <- <- <-]; by exists [b; l1]|].
  destruct s as [|l2 s]; [done|]. ztest; [intros [= <- <- <-]; by exists [b; l1; l2]|].
  destruct s as [|l3 s]; [done|]. ztest; [intros [= <- <- <-]; by exists [b; l1; l2; l3]|done].
Qed.

Lemma parse_header_suffix s t n r : parse_header s = Some (t, n, r) →
  ∃ h, s = h ++ r ∧ (2 <= length h)%nat.
Proof.
  rw /parse_header. destruct s as [|c s]; [done|]. destruct (is_two_bytes_tag c).
  - destruct s as [|c2 s]; [done|]. intros (h & -> & Hh)%parse_length_suffix.
    exists (c :: c2 :: h). split; [done|]. cbn. lia.
  - intros (h & -> & Hh)%parse_length_suffix. exists (c :: h). split; [done|].
    destruct h; [done|cbn; lia].
Qed.

Lemma parse_length_bound tag s t n r : Forall is_byte s → parse_length tag s = Some (t, n, r) →
  0 <= n < 2 ^ 24.
Proof.
  intros Hs. rw /parse_length /be_value. pows.
  destruct s as [|b s]; [done|]. inversion_clear Hs as [|?? Hb Hs'].
  ztest; [intros [= <- <- <-]; rw /is_byte in Hb; lia|].
  destruct s as [|l1 s]; [done|]. inversion_clear Hs' as [|?? H1 Hs].
  ztest; [intros [= <- <- <-]; rw /is_byte in H1; lia|].
  destruct s as [|l2 s]; [done|]. inversion_clear Hs as [|?? H2 Hs'].
  ztest; [intros [= <- <- <-]; rw /is_byte in H1 H2; cbn [foldl]; lia|].
  destruct s as [|l3 s]; [done|]. inversion_clear Hs' as [|?? H3 Hs].
  ztest; [intros [= <- <- <-]; rw /is_byte in H1 H2 H3; cbn [foldl]; lia|done].
Qed.

Lemma parse_header_bound s t n r : Forall is_byte s → parse_header s = Some (t, n, r) →
  0 <= n < 2 ^ 24.
Proof.
  intros Hs. rw /parse_header. destruct s as [|c s]; [done|]. inversion_clear Hs as [|?? Hc Hs'].
  destruct (is_two_bytes_tag c); [|by apply parse_length_bound].
  destruct s as [|c2 s]; [done|]. inversion_clear Hs'. by apply parse_length_bound.
Qed.

(** ** Header reading is the reference parser *)

Lemma rd_app_0 (l k : list Z) : (l ++ k).[zlen l] = k.[0].
Proof. rw rd_app_r; [|lia]. by rw Z.sub_diag. Qed.

Lemma rd_app_n (l k : list Z) n : 0 <= n → (l ++ k).[zlen l + n] = k.[n].
Proof. intros. rw rd_app_r; [|lia]. f_equal. lia. Qed.

Definition header_result (size : Z) (h : option (Z * Z * list Z)) : option (Z * Z * Z) :=
  match h with
  | None => None
  | Some (t, n, r) => Some (t, n, size - zlen r)
  end.

Lemma read_length_ok l s tag :
  Forall is_byte s →
  read_length (l ++ s) (zlen (l ++ s)) tag (zlen l) =
    Some (header_result (zlen (l ++ s)) (parse_length tag s)).
Proof.
  intros Hs. pose proof (zlen_nonneg l). rw /read_length rd_app_0 !rd_app_n // zlen_app.
  destruct s as [|b s].
  { change (zlen []) with 0. by assert ((zlen l <? zlen l + 0) = false) as -> by lia. }
  inversion_clear Hs as [|?? Hb Hs']. rw /is_byte in Hb. pose proof (zlen_nonneg s).
  rw zlen_cons. assert ((zlen l <? zlen l + (1 + zlen s)) = true) as -> by lia.
  rw rd_cons_0. cbn [mbind option_bind]. rw /parse_length /header_result /be_value.
  destruct (Z.leb_spec b 0x7F).
  { assert ((b <? 128) = true) as -> by lia. do 3 f_equal. lia. }
  assert ((b <? 128) = false) as -> by lia.
  destruct s as [|l1 [|l2 [|l3 s]]]; rw ?rd_cell1 ?rd_cell2 ?rd_cell3; cbn [mbind option_bind foldl];
    rw ?zlen_cons; rw ?zlen_cons in H0; change (zlen []) with 0 in *;
    repeat match goal with H : Forall _ (_ :: _) |- _ => inversion_clear H end; unfold is_byte in *;
    zlen_pos.
  all: repeat (ztest; try (exfalso; lia); try done); repeat f_equal; rw ?zlen_cons;
    change (zlen []) with 0; try lia.
  - rw lor_shiftl_add; lia.
  - rw lor_shiftl_add; lia.
  - rw -Z.lor_assoc (lor_shiftl_add l2); [|lia|pows; lia]. rw lor_shiftl_add; lia.
Qed.

Lemma read_header_ok l s :
  Forall is_byte s → s ≠ [] →
  read_header (l ++ s) (zlen (l ++ s)) (zlen l) =
    Some (header_result (zlen (l ++ s)) (parse_header s)).
Proof.
  intros Hs Hne. destruct s as [|c s]; [done|]. inversion_clear Hs as [|?? Hc Hs'].
  rw /is_byte in Hc. rw /read_header rd_app_0 rd_cons_0. cbn [mbind option_bind parse_header].
  assert (∀ h r, l ++ h ++ r = (l ++ h) ++ r) as Happ by (intros; apply app_assoc).
  destruct (is_two_bytes_tag c).
  - destruct s as [|c2 s].
    { rw zlen_app. change (zlen [c]) with 1.
      by assert ((zlen l + 1 <? zlen l + 1) = false) as -> by lia. }
    inversion_clear Hs' as [|?? Hc2 Hs]. rw /is_byte in Hc2.
    assert ((zlen l + 1 <? zlen (l ++ c :: c2 :: s)) = true) as ->.
    { rw zlen_app !zlen_cons. pose proof (zlen_nonneg s). lia. }
    rw rd_app_n // rd_cell1. cbn [mbind option_bind].
    rw /u16 lor_shiftl_add; [|lia|lia]. rw Z.mod_small; [|pows; lia]. change (2 ^ 8) with 256.
    rw (Happ [c; c2] s). replace (zlen l + 2) with (zlen (l ++ [c; c2])) by (by rw zlen_app).
    by apply read_length_ok.
  - rw (Happ [c] s). replace (zlen l + 1) with (zlen (l ++ [c])) by (by rw zlen_app).
    by apply read_length_ok.
Qed.

(** ** Ownership *)

(** A BeerTLV holding a value. *)
Definition tlv (p : ptr) (tag : Z) (v : list Z) : heapProp :=
  (∃ l d, ⟦p = Some l⟧ ∗ l ↦ BTlv tag (zlen v) d ∗ buf d v)%I.

Definition tlv_result (nf : bool) (p : ptr) (tag : Z) (v : list Z) : heapProp :=
  match p with
  | None => ⟦nf = false⟧%I
  | Some _ => tlv p tag v
  end.

(** The elements of a BerTLVList from [p] up to [q], numbered from [i]. *)
Fixpoint tlv_seg (p : ptr) (i : Z) (tvs : list (Z * list Z)) (q : ptr) : heapProp :=
  match tvs with
  | [] => ⟦p = q⟧%I
  | (t, v) :: r =>
      (∃ l b n, ⟦p = Some l⟧ ∗ l ↦ BList i (Some b) n ∗ tlv (Some b) t v ∗
                tlv_seg n (u8 (i + 1)) r q)%I
  end.

Definition tlv_list (p : ptr) (tvs : list (Z * list Z)) : heapProp := tlv_seg p 0 tvs None.

Lemma u8_range z : 0 <= u8 z < 256.
Proof. rw /u8. apply Z.mod_pos_bound. lia. Qed.

Definition first_tag (tag : Z) (s : list Z) : bool * option (list Z) := find_tag (length s) tag s.

(** A header takes at least two bytes. *)
Lemma first_tag_short tag s : zlen s < 2 → first_tag tag s = (false, None).
Proof.
  intros Hs. rw /first_tag. destruct s as [|c s]; [done|]. cbn [length find_tag].
  destruct (parse_header (c :: s)) as [[[t n] r]|] eqn:E; [|done].
  destruct (parse_header_suffix _ _ _ _ E) as (h & Eh & Hh). exfalso.
  apply (f_equal zlen) in Eh. rw zlen_app in Eh. rw /zlen in Eh Hs. lia.
Qed.

(** ** Reference encoder *)

Definition tag_bytes (tag : Z) : list Z :=
  if negb (Z.land tag 0xFF00 =? 0) then [tag / 256; tag mod 256] else [tag mod 256].

Definition tlv_bytes (tag : Z) (v : list Z) : list Z := tag_bytes tag ++ ber_length (zlen v) ++ v.

Lemma tag_bytes_zlen tag : zlen (tag_bytes tag) = if negb (Z.land tag 0xFF00 =? 0) then 2 else 1.
Proof. rw /tag_bytes. by ztest. Qed.

Section specs.
Context {G : Type} (nf : bool).
Implicit Types (g : G).

Lemma tlv_intro l d t v n : n = zlen v → v ≠ [] →
  l ↦ BTlv t n (Some d) -∗ d ↦ BBytes v -∗ tlv (Some l) t v.
Proof. iIntros (-> Hne) "Hl Hd". iExists l, (Some d). by iFrame. Qed.

Lemma tlv_empty l t : l ↦ BTlv t 0 None -∗ tlv (Some l) t [].
Proof. iIntros "Hl". iExists l, None. by iFrame. Qed.

(** berTLV_create *)
Lemma tlv_create_spec tag (src : option (list Z)) n v g Φ :
  match src with
  | None => v = []
  | Some s => rd_range s 0 n = Some v
  end →
  (∀ p, tlv_result nf p tag v -∗ Φ p g) -∗ wp nf (berTLV_create tag n src) g Φ.
Proof.
  iIntros (Hsrc) "HΦ". wp_seq. iApply wp_malloc; [done|].
  iIntros ([l|]) "Hl"; cbn [isNull alloc_post].
  2: { wp_value. by iApply ("HΦ" $! None). }
  wp_seq. iApply (wp_store_block with "Hl"); [done|]. iIntros "Hl".
  destruct src as [s|].
  2: { subst. wp_value. iApply ("HΦ" $! (Some l)). by iApply tlv_empty. }
  pose proof (rd_range_length _ _ _ _ Hsrc) as (Hl & _ & Hn0 & _).
  destruct (n >? 0) eqn:En.
  - wp_seq. iApply wp_malloc; [lia|]. iIntros (d) "Hd". wp_seq. wp_seq.
    iApply (wp_load_tlv with "Hl"). iIntros "Hl".
    iApply (wp_store_block with "Hl"); [done|]. iIntros "Hl".
    destruct d as [d|]; cbn [isNull alloc_post].
    + wp_seq. iApply (wp_copy_arg _ _ [] _ _ v 0 with "[Hd]"); [done..| |].
      { by rw Z.add_0_r Hl. }
      iIntros "Hd". wp_seq. wp_seq. iApply (wp_load_tlv with "Hl"). iIntros "Hl".
      iApply (wp_store_block with "Hl"); [done|]. iIntros "Hl". wp_value.
      iApply ("HΦ" $! (Some l)). change (new_bytes 0) with (@nil Z). rw app_nil_r /=.
      iApply (tlv_intro with "Hl Hd"); [done|]. intros ->. change (zlen []) with 0 in Hl. lia.
    + wp_seq. iApply (wp_free_block with "Hl"). wp_value. by iApply ("HΦ" $! None).
  - wp_value. assert (v = []) as -> by (apply zlen_0_inv; lia).
    iApply ("HΦ" $! (Some l)). by iApply tlv_empty.
Qed.

(** berTLV_freeBerTLV *)
Lemma tlv_free_spec p t v g Φ :
  tlv p t v -∗ Φ true g -∗ wp nf (berTLV_freeBerTLV p) g Φ.
Proof.
  iIntros "Hp HΦ". iDestruct "Hp" as (l d) "(-> & Hl & Hd)". wp_seq. cbn [isNull]. wp_seq.
  iApply (wp_load_tlv with "Hl"). iIntros "Hl". wp_seq. iApply (wp_free_buf with "Hd").
  iApply (wp_free_block with "Hl"). by wp_value.
Qed.

Definition find_post (p : ptr) (tag : Z) (r : option (list Z)) : heapProp :=
  match r with
  | Some v => tlv_result nf p tag v
  | None => ⟦p = None⟧%I
  end.

(** The header at an offset inside of the data, and where it leaves off. *)
Lemma read_header_at src off s :
  Forall is_byte src → 0 <= off < zlen src → s = drop (Z.to_nat off) src →
  read_header src (zlen src) off = Some (header_result (zlen src) (parse_header s)) ∧
  ∀ t n r, parse_header s = Some (t, n, r) →
    0 <= n ∧ off + 2 <= zlen src - zlen r ∧ r = drop (Z.to_nat (zlen src - zlen r)) src.
Proof.
  intros Hsrc Hoff ->. set (l := take (Z.to_nat off) src). set (s := drop (Z.to_nat off) src).
  assert (src = l ++ s) as E by (by rw /l /s take_drop).
  assert (zlen l = off) as Hl by (rw /l zlen_take; lia).
  assert (Forall is_byte s) as Hs by by apply Forall_drop.
  assert (s ≠ []) as Hne.
  { intros Hs0. rw Hs0 app_nil_r in E. apply (f_equal zlen) in E. lia. }
  split.
  - rw E -Hl. by apply read_header_ok.
  - intros t n r Hp. destruct (parse_header_bound _ _ _ _ Hs Hp) as [Hn _].
    destruct (parse_header_suffix _ _ _ _ Hp) as (h & Eh & Hh).
    split; [done|]. rw E Eh !zlen_app Hl. pose proof (zlen_nonneg h).
    split; [rw /zlen; rw /zlen in H; lia|].
    replace (Z.to_nat _) with (length (l ++ h)) by (rw length_app; rw /zlen in Hl H |- *; lia).
    by rw app_assoc drop_app_length.
Qed.

Lemma extractTag_loop_spec fuel tag src off s g Φ :
  Forall is_byte src → 0 <= off → s = drop (Z.to_nat off) src → (length s <= fuel)%nat →
  (∀ p, find_post p tag (find_tag fuel tag s).2 -∗ Φ (p, (find_tag fuel tag s).1) g) -∗
  wp nf (extractTag_loop fuel tag src (zlen src) off) g Φ.
Proof.
  revert off s. induction fuel as [|fuel IH]; iIntros (off s Hsrc Hoff Hs Hf) "HΦ";
    cbn [extractTag_loop find_tag].
  - assert (zlen s = 0) as Hs0 by (rw /zlen; lia). rw Hs zlen_drop in Hs0.
    assert ((off <? zlen src) = false) as -> by lia. wp_value. by iApply "HΦ".
  - destruct (Z.ltb_spec off (zlen src)) as [Hlt|Hge].
    2: { assert (s = []) as -> by (rw Hs; apply drop_ge; rw /zlen in Hge; lia).
         wp_value. by iApply "HΦ". }
    destruct (read_header_at src off s Hsrc) as [Eh Hh]; [lia|done|].
    destruct s as [|c s']; [exfalso; apply (f_equal zlen) in Hs; rw zlen_drop in Hs;
      change (zlen []) with 0 in Hs; lia|].
    rw Eh. wp_seq. iApply wp_of_option.
    destruct (parse_header (c :: s')) as [[[t n] r]|] eqn:Ep; cbn [header_result].
    2: { wp_value. by iApply "HΦ". }
    destruct (Hh t n r eq_refl) as (Hn & Ho & Er). destruct (Z.eqb_spec t tag) as [->|Ht].
    + assert ((zlen src - zlen r + n <=? zlen src) = (n <=? zlen r)) as -> by lia.
      destruct (Z.leb_spec n (zlen r)).
      * wp_seq. iApply (tlv_create_spec tag _ _ (take (Z.to_nat n) r)).
        { rw -Er rd_range_Some; [done|lia..]. }
        iIntros (p) "Hp". wp_value. by iApply "HΦ".
      * wp_value. by iApply "HΦ".
    + iApply (IH with "HΦ"); [done|lia| |].
      * rw {1}Er drop_drop. f_equal. pose proof (zlen_nonneg r).
        lia.
      * destruct (parse_header_suffix _ _ _ _ Ep) as (h & Eq & Hlen2).
        rw length_drop. rw Eq length_app in Hf. lia.
Qed.

(** berTLV_extractTagUInt16 and berTLV_extractTagUInt8 *)
Lemma extractTag16_spec tag src g Φ :
  Forall is_byte src →
  (∀ p, find_post p tag (first_tag tag src).2 -∗ Φ (p, (first_tag tag src).1) g) -∗
  wp nf (berTLV_extractTagUInt16 tag (Some src) (zlen src)) g Φ.
Proof.
  iIntros (Hsrc) "HΦ". rw /berTLV_extractTagUInt16. ztest.
  - rw zlen_to_nat. by iApply (extractTag_loop_spec with "HΦ").
  - rw first_tag_short; [|lia]. wp_value. by iApply "HΦ".
Qed.

Lemma extractTag8_spec tag src g Φ :
  Forall is_byte src → 0 <= tag < 256 →
  (∀ p b, find_post p tag (first_tag tag src).2 -∗ Φ (p, b) g) -∗
  wp nf (berTLV_extractTagUInt8 tag (Some src) (zlen src)) g Φ.
Proof.
  iIntros (Hsrc Ht) "HΦ". rw /berTLV_extractTagUInt8. ztest.
  - wp_seq. rw land_255 Z.mod_small //. iApply extractTag16_spec; [done|]. iIntros (p) "Hp".
    wp_value. by iApply "HΦ".
  - wp_value. iApply ("HΦ" $! None). rw first_tag_short; [done|lia].
Qed.

(** ** Lists *)

Lemma tlv_seg_size p i tvs q h : holds (tlv_seg p i tvs q) h → (length tvs <= size h)%nat.
Proof.
  revert p i h. induction tvs as [|[t v] tvs IH]; intros p i h; cbn [tlv_seg length]; [lia|].
  intros (l & b & n & h0 & h1 & -> & Hd & [He0 _] & h2 & h3 & -> & Hd2 & He2 & h4 & h5 & -> & Hd4 & _ & H).
  apply IH in H. change (h0 = ∅) in He0. change (h2 = {[l := BList i (Some b) n]}) in He2. subst.
  rw (left_id_L ∅ (∪)). apply map_disjoint_union_r in Hd2 as [_ Hd2].
  pose proof (map_size_disj_union {[l := BList i (Some b) n]} h5 Hd2) as Hs.
  rw map_size_singleton in Hs.
  etrans; [apply le_n_S, H|]. rw -(Nat.add_1_l (size h5)) -Hs.
  apply map_subseteq_size. apply map_union_mono_l, map_union_subseteq_r. done.
Qed.

Lemma freeList_loop_spec fuel p i tvs g Φ :
  (length tvs <= fuel)%nat →
  tlv_seg p i tvs None -∗ Φ tt g -∗ wp nf (freeList_loop fuel p) g Φ.
Proof.
  revert p i fuel. induction tvs as [|[t v] tvs IH]; iIntros (p i fuel Hf) "Hp HΦ";
    cbn [tlv_seg length] in *.
  - iDestruct "Hp" as %->. destruct fuel; by wp_value.
  - iDestruct "Hp" as (l b n) "(-> & Hl & Ht & Hn)". destruct fuel as [|fuel]; [lia|].
    cbn [freeList_loop]. wp_seq. iApply (wp_load_list with "Hl"). iIntros "Hl". cbn [isNull].
    wp_seq. wp_seq. iApply (tlv_free_spec with "Ht"). iApply (wp_store_block with "Hl"); [done|].
    iIntros "Hl". wp_seq. iApply (wp_free_block with "Hl").
    iApply (IH with "Hn HΦ"). lia.
Qed.

(** berTLV_freeBerTLVList releases the elements and their objects. *)
Lemma freeList_spec p i tvs g Φ :
  tlv_seg p i tvs None -∗ Φ true g -∗ wp nf (berTLV_freeBerTLVList p) g Φ.
Proof.
  iIntros "Hp HΦ". iApply (wp_wand _ _ _ (λ b g', ⟦b = true⟧ ∗ ⟦g' = g⟧)%I with "[Hp]").
  - iStopProof. apply (wp_live nf (length tvs) (λ n, freeList_loop n p ;; ret true)).
    + intros h. apply tlv_seg_size.
    + intros n Hn. iIntros "Hp". wp_seq. iApply (freeList_loop_spec with "Hp"); [done|].
      by wp_value.
  - iIntros (b g') "[%Hb %Hg]". subst. done.
Qed.

(** A list under construction: its elements but the last, and the last. *)
Definition list_acc (first last : ptr) (acc : list (Z * list Z)) : heapProp :=
  match last with
  | None => ⟦first = None ∧ acc = []⟧%I
  | Some l => (∃ xs t v b, ⟦acc = xs ++ [(t, v)]⟧ ∗ tlv_seg first 0 xs (Some l) ∗
                 l ↦ BList (zlen xs mod 256) (Some b) None ∗ tlv (Some b) t v)%I
  end.

Lemma tlv_seg_snoc p i xs l t v b q :
  0 <= i < 256 →
  tlv_seg p i xs (Some l) -∗ l ↦ BList ((i + zlen xs) mod 256) (Some b) q -∗ tlv (Some b) t v -∗
  tlv_seg p i (xs ++ [(t, v)]) q.
Proof.
  revert p i. induction xs as [|[t' v'] xs IH]; iIntros (p i Hi) "Hs Hl Ht"; cbn [tlv_seg app].
  - iDestruct "Hs" as %->. change (zlen []) with 0. rw Z.add_0_r Z.mod_small //.
    iExists l, b, q. by iFrame.
  - iDestruct "Hs" as (l' b' n') "(-> & Hl' & Ht' & Hs)". iExists l', b', n'. iFrame.
    iSplit; [done|]. iApply (IH with "Hs [Hl] Ht"); [apply u8_range|].
    rw /u8 zlen_cons. change (2 ^ 8) with 256. by rw Zplus_mod_idemp_l Z.add_assoc.
Qed.

(** A finished list. *)
Lemma list_acc_end first last acc : list_acc first last acc ⊢ tlv_list first acc.
Proof.
  destruct last as [l|]; cbn [list_acc].
  - iIntros "H". iDestruct "H" as (xs t v b) "(-> & Hs & Hl & Ht)".
    by iApply (tlv_seg_snoc with "Hs Hl Ht").
  - by iIntros "%H"; destruct H as [-> ->].
Qed.

(** What berTLV_extractList answers: the list and its count, or [NULL] when
    an allocation failed, everything allocated being released. *)
Definition list_result (p : ptr) (c : Z) (tvs : list (Z * list Z)) : heapProp :=
  (⟦nf = false ∧ p = None⟧ ∨ ⟦c = zlen tvs mod 256⟧ ∗ tlv_list p tvs)%I.

(** Releasing the list built so far. *)
Lemma wp_free_acc first last acc g Φ :
  list_acc first last acc -∗ Φ tt g -∗
  wp nf (if isNull first then ret tt else berTLV_freeBerTLVList first ;; ret tt) g Φ.
Proof.
  iIntros "H HΦ". iDestruct (list_acc_end with "H") as "H". destruct first as [f|]; cbn [isNull].
  - wp_seq. iApply (freeList_spec with "H"). by wp_value.
  - wp_value. destruct acc as [|[t v] acc]; cbn [tlv_list tlv_seg].
    + iDestruct "H" as "_". done.
    + iDestruct "H" as (l b n) "(%E & ?)". done.
Qed.

(** Adding an element at the end. *)
Lemma wp_link first last acc l b t v count g Φ :
  count = zlen acc mod 256 →
  list_acc first last acc -∗ l ↦ BList count (Some b) None -∗ tlv (Some b) t v -∗
  (∀ first', list_acc first' (Some l) (acc ++ [(t, v)]) -∗ Φ first' g) -∗
  wp nf (if isNull first then ret (Some l) else set_ptrNext last (Some l) ;; ret first) g Φ.
Proof.
  iIntros (->) "H Hl Ht HΦ". destruct last as [l0|]; cbn [list_acc].
  - iDestruct "H" as (xs t0 v0 b0) "(-> & Hs & Hl0 & Ht0)".
    iAssert (⟦isNull first = false⟧ ∗ tlv_seg first 0 xs (Some l0))%I with "[Hs]" as "[%Hf Hs]".
    { destruct first; [by iFrame|]. destruct xs as [|[t1 v1] xs]; cbn [tlv_seg].
      - by iDestruct "Hs" as %?.
      - iDestruct "Hs" as (l1 b1 n1) "(%E & ?)". done. }
    rw Hf. wp_seq. wp_seq. iApply (wp_load_list with "Hl0"). iIntros "Hl0".
    iApply (wp_store_block with "Hl0"); [done|]. iIntros "Hl0". wp_value. iApply "HΦ".
    iExists (xs ++ [(t0, v0)]), t, v, b. iFrame. iSplit; [done|].
    by iApply (tlv_seg_snoc with "Hs Hl0 Ht0").
  - iDestruct "H" as %[-> ->]. cbn [isNull]. wp_value. iApply "HΦ". iExists [], t, v, b.
    by iFrame.
Qed.

Lemma extractList_loop_spec fuel src off s first last acc count tvs g Φ :
  Forall is_byte src → 0 <= off → s = drop (Z.to_nat off) src → (length s <= fuel)%nat →
  parse_list fuel s = Some tvs → count = zlen acc mod 256 →
  list_acc first last acc -∗
  (∀ p c, list_result p c (acc ++ tvs) -∗ Φ (p, c) g) -∗
  wp nf (extractList_loop fuel src (zlen src) off first last count) g Φ.
Proof.
  revert off s first last acc count tvs. induction fuel as [|fuel IH];
    iIntros (off s first last acc count tvs Hsrc Hoff Hs Hf Hp Hc) "Hacc HΦ";
    cbn [extractList_loop parse_list] in *.
  - assert (zlen s = 0) as Hs0 by (rw /zlen; lia). rw Hs zlen_drop in Hs0.
    assert ((off <? zlen src) = false) as -> by lia. wp_value. injection Hp as <-.
    iApply "HΦ". iRight. iDestruct (list_acc_end with "Hacc") as "Hacc". rw app_nil_r. by iFrame.
  - destruct (Z.ltb_spec off (zlen src)) as [Hlt|Hge].
    2: { assert (s = []) as -> by (rw Hs; apply drop_ge; rw /zlen in Hge; lia).
         injection Hp as <-. wp_value. iApply "HΦ". iRight.
         iDestruct (list_acc_end with "Hacc") as "Hacc". rw app_nil_r. by iFrame. }
    destruct (read_header_at src off s Hsrc) as [Eh Hh]; [lia|done|].
    destruct s as [|x s']; [exfalso; apply (f_equal zlen) in Hs; rw zlen_drop in Hs;
      change (zlen []) with 0 in Hs; lia|].
    rw Eh. wp_seq. iApply wp_of_option.
    destruct (parse_header (x :: s')) as [[[t n] r]|] eqn:Ep; cbn [header_result].
    2: { injection Hp as <-. wp_value. iApply "HΦ". iRight.
         iDestruct (list_acc_end with "Hacc") as "Hacc". rw app_nil_r. by iFrame. }
    destruct (Hh t n r eq_refl) as (Hn & Ho & Er).
    destruct (Z.leb_spec n (zlen r)) as [Hnr|]; [|done].
    destruct (parse_list fuel (drop (Z.to_nat n) r)) as [rest|] eqn:Erest; [|done].
    injection Hp as <-. set (v := take (Z.to_nat n) r).
    wp_seq. iApply wp_malloc; [done|]. iIntros ([l|]) "Hl"; cbn [isNull alloc_post].
    2: { wp_seq. iApply (wp_free_acc with "Hacc"). wp_value. iApply "HΦ". iLeft.
         by iDestruct "Hl" as %->. }
    wp_seq. iApply (wp_store_block with "Hl"); [done|]. iIntros "Hl".
    wp_seq. iApply (tlv_create_spec t _ _ v).
    { rw -Er rd_range_Some; [done|lia..]. }
    iIntros (b) "Hb". wp_seq. iApply (wp_store_block with "Hl"); [done|]. iIntros "Hl".
    destruct b as [b|]; cbn [isNull tlv_result].
    2: { wp_seq. iApply (wp_free_acc with "Hacc"). wp_seq. iApply (wp_free_block with "Hl").
         wp_value. iApply "HΦ". iLeft. by iDestruct "Hb" as %->. }
    wp_seq. iApply (wp_link with "Hacc Hl Hb"); [done|]. iIntros (first') "Hacc".
    iApply (IH with "Hacc [HΦ]"); [done|lia| | |done| |].
    + rw {1}Er drop_drop. f_equal. pose proof (zlen_nonneg r). lia.
    + destruct (parse_header_suffix _ _ _ _ Ep) as (h & Eq & Hlen2).
      rw length_drop. rw Eq length_app in Hf. lia.
    + rw Hc /u8 zlen_app. change (zlen [(t, v)]) with 1. change (2 ^ 8) with 256.
      by rw Zplus_mod_idemp_l.
    + by rw -app_assoc.
Qed.

(** berTLV_extractList *)
Lemma extractList_spec src tvs g Φ :
  Forall is_byte src → parse_list (length src) src = Some tvs →
  (∀ p c, list_result p c tvs -∗ Φ (p, c) g) -∗
  wp nf (berTLV_extractList (Some src) (zlen src)) g Φ.
Proof.
  iIntros (Hsrc Hp) "HΦ". rw /berTLV_extractList. ztest.
  - rw zlen_to_nat. iApply (extractList_loop_spec _ _ 0 src None None [] with "[] HΦ"); done.
  - assert (tvs = []) as ->.
    { destruct src as [|x src]; cbn [length parse_list] in Hp; [congruence|].
      destruct (parse_header (x :: src)) as [[[t n] r]|] eqn:E'; [|congruence].
      destruct (parse_header_suffix _ _ _ _ E') as (h & Eh & Hh). exfalso.
      apply (f_equal zlen) in Eh. rw zlen_app in Eh. rw /zlen in Eh E. lia. }
    wp_value. iApply "HΦ". iRight. by iSplit.
Qed.

(** ** Encoding *)

(** Writing the octets of a length from an offset on. *)
Lemma wp_write_tlv_length d xs n k o g Φ :
  0 <= n < 2 ^ 24 → 0 <= k → o = zlen xs →
  d ↦ BBytes (xs ++ new_bytes (zlen (ber_length n) + k)) -∗
  (d ↦ BBytes ((xs ++ ber_length n) ++ new_bytes k) -∗ Φ (o + zlen (ber_length n)) g) -∗
  wp nf (if zlen (ber_length n) =? 1 then set_byte (Some d) o n ;; ret (o + 1)
         else if zlen (ber_length n) =? 2 then
           set_byte (Some d) o 0x81 ;; set_byte (Some d) (o + 1) n ;; ret (o + 2)
         else if zlen (ber_length n) =? 3 then
           set_byte (Some d) o 0x82 ;;
           set_byte (Some d) (o + 1) (Z.land (Z.shiftr n 8) 0xFF) ;;
           set_byte (Some d) (o + 2) (Z.land n 0x00FF) ;; ret (o + 3)
         else
           set_byte (Some d) o 0x83 ;;
           set_byte (Some d) (o + 1) (Z.land (Z.shiftr n 16) 0xFF) ;;
           set_byte (Some d) (o + 2) (Z.land (Z.shiftr n 8) 0xFF) ;;
           set_byte (Some d) (o + 3) (Z.land n 0x00FF) ;; ret (o + 4)) g Φ.
Proof.
  iIntros (Hn Hk ->) "Hd HΦ". rw /ber_length.
  rw !Z.shiftr_div_pow2 // !land_255. pows.
  assert (n / 65536 < 256 ∧ 0 <= n / 65536) as Hm3 by dlia.
  destruct (Z.ltb_spec n 0x80); [|destruct (Z.ltb_spec n 0x100); [|destruct (Z.ltb_spec n 0x10000)]];
    rw !zlen_cons; change (zlen []) with 0; cbn [Z.add Pos.add Pos.succ Z.eqb Pos.eqb];
    repeat first [iApply (wp_set_next with "Hd");
                    [rw ?zlen_app ?zlen_cons; change (zlen []) with 0; lia|lia|]; iIntros "Hd"
                 | wp_seq];
    wp_value; rw -!app_assoc; cbn [app]; rw /u8; pows; rw ?Zmod_mod; change (129 mod 256) with 129;
    change (130 mod 256) with 130; change (131 mod 256) with 131.
  - rw Z.mod_small; [|lia]. replace (_ + k - 1) with k by lia. by iApply "HΦ".
  - rw Z.mod_small; [|lia]. replace (_ + k - 1 - 1) with k by lia. by iApply "HΦ".
  - rw (Z.mod_small (n / 256)); [|dlia]. replace (_ + k - 1 - 1 - 1) with k by lia. by iApply "HΦ".
  - rw (Z.mod_small (n / 65536)); [|lia]. replace (_ + k - 1 - 1 - 1 - 1) with k by lia.
    by iApply "HΦ".
Qed.

(** _berTLV_createRawDataBuffer *)
Lemma createRawDataBuffer_spec p tag v g Φ :
  0 <= tag < 2 ^ 16 → zlen v < 2 ^ 24 →
  tlv p tag v -∗
  (∀ d n, tlv p tag v -∗
     match d with
     | None => ⟦nf = false⟧
     | Some d => ⟦n = zlen (tlv_bytes tag v)⟧ ∗ d ↦ BBytes (tlv_bytes tag v)
     end -∗ Φ (d, n) g) -∗
  wp nf (_berTLV_createRawDataBuffer p) g Φ.
Proof.
  iIntros (Htag Hv) "Hp HΦ". iDestruct "Hp" as (l b) "(-> & Hl & Hb)".
  rw /_berTLV_createRawDataBuffer. cbn [isNull]. wp_seq. iApply (wp_load_tlv with "Hl").
  iIntros "Hl". cbv zeta. pose proof (zlen_nonneg v). rw /u32.
  rw (Z.mod_small (zlen v)); [|pows; lia].
  pose proof (ber_length_bounds (zlen v)) as Hbl. pose proof (tag_bytes_zlen tag) as Htl.
  rw -Htl lv_length_size_ok. assert (1 <= zlen (tag_bytes tag) <= 2) by (rw Htl; ztest; lia).
  rw Z.mod_small; [|pows; lia].
  ztest; [|lia]. wp_seq. iApply wp_malloc; [lia|]. iIntros ([d|]) "Hd"; cbn [isNull alloc_post].
  2: { wp_value. iApply ("HΦ" $! None with "[Hl Hb]"); [|done]. iExists l, b. by iFrame. }
  wp_seq. iApply (wp_wand _ _ _
    (λ o g', ⟦o = zlen (tag_bytes tag)⟧ ∗ ⟦g' = g⟧ ∗
       d ↦ BBytes (tag_bytes tag ++ new_bytes (zlen (ber_length (zlen v)) + zlen v)))%I with "[Hd]").
  { rw -(app_nil_l (new_bytes _)). rw Z.shiftr_div_pow2 // !land_255. rw -(Z.add_assoc _ _ (zlen v)).
    rw /tag_bytes. destruct (negb _).
    - change (zlen [tag / 256; tag mod 256]) with 2. cbn [Z.eqb Pos.eqb].
      wp_seq. iApply (wp_set_next with "Hd"); [done|lia|]. iIntros "Hd".
      wp_seq. iApply (wp_set_next with "Hd"); [done|lia|]. iIntros "Hd". wp_value.
      rw /u8. pows. rw !Zmod_mod (Z.mod_small (tag / 256)); [|dlia]. rw -app_assoc. cbn [app].
      replace (2 + (zlen (ber_length (zlen v)) + zlen v) - 1 - 1)
        with (zlen (ber_length (zlen v)) + zlen v) by lia.
      by iFrame.
    - change (zlen [tag mod 256]) with 1. cbn [Z.eqb Pos.eqb].
      wp_seq. iApply (wp_set_next with "Hd"); [done|lia|]. iIntros "Hd". wp_value.
      rw /u8. pows. rw !Zmod_mod. cbn [app].
      replace (1 + (zlen (ber_length (zlen v)) + zlen v) - 1)
        with (zlen (ber_length (zlen v)) + zlen v) by lia.
      by iFrame. }
  iIntros (o g') "(-> & -> & Hd)". wp_seq.
  iApply (wp_write_tlv_length with "Hd"); [lia|lia|done|]. iIntros "Hd". wp_seq.
  iApply (wp_wand _ _ _ (λ _ g', ⟦g' = g⟧ ∗ buf b v ∗ d ↦ BBytes (tlv_bytes tag v))%I
            with "[Hb Hd]").
  { destruct (zlen v >? 0) eqn:Ev.
    - destruct b as [b|]; cbn [buf].
      2: { iDestruct "Hb" as %->. change (zlen []) with 0 in Ev. done. }
      iDestruct "Hb" as "[%Hne Hb]". wp_seq.
      iApply (wp_memcpy_from with "Hb"); [by apply rd_range_all|]. iIntros "Hb".
      iApply (wp_memcpy_to with "Hd").
      { pose proof (wr_range_new (tag_bytes tag ++ ber_length (zlen v)) v 0) as Ew.
        rw Z.add_0_r in Ew. apply Ew; [done|]. by rw zlen_app. }
      iIntros "Hd". change (new_bytes 0) with (@nil Z). rw app_nil_r -app_assoc. by iFrame.
    - assert (v = []) as -> by (apply zlen_0_inv; lia). wp_value.
      rw /tlv_bytes !app_nil_r. by iFrame. }
  iIntros ([] g') "(-> & Hb & Hd)". wp_value. iApply ("HΦ" $! (Some d) with "[Hl Hb]").
  - iExists l, b. by iFrame.
  - iFrame. iPureIntro. rw /tlv_bytes !zlen_app. lia.
Qed.

(** berTLV_buildRawDataObject *)
Lemma buildRawDataObject_spec p tag v g Φ :
  0 <= tag < 2 ^ 16 → zlen v < 2 ^ 24 →
  tlv p tag v -∗
  (∀ q, tlv p tag v -∗ raw_result nf q (tlv_bytes tag v) -∗ Φ q g) -∗
  wp nf (berTLV_buildRawDataObject p) g Φ.
Proof.
  iIntros (Htag Hv) "Hp HΦ". iAssert (⟦isNull p = false⟧ ∗ tlv p tag v)%I with "[Hp]" as "[%Hp Hp]".
  { iDestruct "Hp" as (l d) "(-> & Hl & Hd)". iSplit; [done|]. iExists l, d. by iFrame. }
  rw /berTLV_buildRawDataObject Hp. wp_seq. iApply wp_allocate. iIntros ([q|]) "Hq"; cbn [isNull].
  2: { wp_value. by iApply ("HΦ" $! None with "Hp"). }
  wp_seq. iApply (createRawDataBuffer_spec with "Hp"); [done..|]. iIntros (d n) "Hp Hd".
  wp_seq. iApply (wp_set_rawData with "Hq"). iIntros "Hq". destruct d as [d|]; cbn [isNull].
  - iDestruct "Hd" as "[-> Hd]". wp_seq. iApply (wp_set_rawDataSize with "Hq"). iIntros "Hq".
    wp_value. iApply ("HΦ" $! (Some q) with "Hp"). iApply (raw_intro with "Hq Hd"); [done|].
    intros E%(f_equal zlen). rw /tlv_bytes !zlen_app in E. change (zlen []) with 0 in E.
    pose proof (ber_length_bounds (zlen v)). pose proof (zlen_nonneg v).
    pose proof (zlen_nonneg (tag_bytes tag)). lia.
  - wp_seq. iApply (free_spec nf _ (Some []) with "[Hq]"); [by iApply raw_empty|].
    wp_value. by iApply ("HΦ" $! None with "Hp").
Qed.

(** berTLV_createAndBuildRawDataObject *)
Lemma createAndBuild_spec tag (src : option (list Z)) n v g Φ :
  0 <= tag < 2 ^ 16 → zlen v < 2 ^ 24 →
  match src with
  | None => v = []
  | Some s => rd_range s 0 n = Some v
  end →
  (∀ q, raw_result nf q (tlv_bytes tag v) -∗ Φ q g) -∗
  wp nf (berTLV_createAndBuildRawDataObject tag n src) g Φ.
Proof.
  iIntros (Htag Hv Hsrc) "HΦ". wp_seq. iApply tlv_create_spec; [done|].
  iIntros ([t|]) "Ht"; cbn [isNull tlv_result].
  2: { wp_value. by iApply ("HΦ" $! None). }
  wp_seq. iApply (buildRawDataObject_spec with "Ht"); [done..|]. iIntros (q) "Ht Hq".
  wp_seq. iApply (tlv_free_spec with "Ht"). wp_value. by iApply "HΦ".
Qed.
End specs.

(** ** Parsing what was encoded *)

(** The tags the parser reads back. *)
Definition valid_tag (t : Z) : Prop :=
  (0 <= t < 256 ∧ is_two_bytes_tag t = false) ∨
  (256 <= t < 2 ^ 16 ∧ is_two_bytes_tag (t / 256) = true).

Lemma valid_tag_range t : valid_tag t → 0 <= t < 2 ^ 16.
Proof. rw /valid_tag. pows. lia. Qed.

Lemma tag_high t : 0 <= t < 2 ^ 16 → (Z.land t 0xFF00 =? 0) = (t <? 256).
Proof.
  intros Ht. destruct (Z.ltb_spec t 256).
  - exact (check_range (λ t, Z.land t 0xFF00 =? 0) 256 t eq_refl (conj (proj1 Ht) H)).
  - apply Z.eqb_neq. intros E. pose proof (land_mask_shiftr t 8) as Hs.
    change (Z.shiftl 0xFF 8) with 0xFF00 in Hs. rw E in Hs. change (Z.shiftr 0 8) with 0 in Hs.
    assert (0 <= 8) as H8 by lia. specialize (Hs H8). dlia.
Qed.

Lemma parse_length_ber t n r : 0 <= n < 2 ^ 24 →
  parse_length t (ber_length n ++ r) = Some (t, n, r).
Proof.
  intros Hn. rw /parse_length /ber_length. pows.
  repeat (ztest; try (exfalso; lia)); cbn [app]; rw ?Z.eqb_refl //;
    cbn [Z.ltb Z.compare Pos.compare Pos.compare_cont Z.eqb Pos.eqb].
  - by assert ((n <? 128) = true) as -> by lia.
  - rw /be_value. cbn [foldl]. do 3 f_equal. dlia.
  - rw /be_value. cbn [foldl]. do 3 f_equal. dlia.
Qed.

Lemma parse_header_tag t n r : valid_tag t → 0 <= n < 2 ^ 24 →
  parse_header (tag_bytes t ++ ber_length n ++ r) = Some (t, n, r).
Proof.
  intros Ht Hn. pose proof (valid_tag_range t Ht) as Hr. rw /tag_bytes tag_high //.
  destruct Ht as [[Ht Htwo]|[Ht Htwo]].
  - assert ((t <? 256) = true) as -> by lia. cbn [negb app]. rw Z.mod_small //.
    rw /parse_header Htwo. by apply parse_length_ber.
  - assert ((t <? 256) = false) as -> by lia. cbn [negb app]. rw /parse_header Htwo.
    rw parse_length_ber //. do 3 f_equal. dlia.
Qed.

(** Reference encoding of a list of objects. *)
Definition tlvs_bytes (tvs : list (Z * list Z)) : list Z :=
  concat (map (λ '(t, v), tlv_bytes t v) tvs).

Definition valid_tlv (tv : Z * list Z) : Prop :=
  valid_tag tv.1 ∧ zlen tv.2 < 2 ^ 24 ∧ Forall is_byte tv.2.

Lemma tlv_bytes_nonempty t v : tlv_bytes t v ≠ [].
Proof. rw /tlv_bytes /tag_bytes. by ztest. Qed.

Lemma tlvs_bytes_cons t v tvs :
  tlvs_bytes ((t, v) :: tvs) = tag_bytes t ++ ber_length (zlen v) ++ v ++ tlvs_bytes tvs.
Proof. by rw /tlvs_bytes /= /tlv_bytes -!app_assoc. Qed.

(** One step of the reference parsers on encoded objects. *)
Lemma parse_step t v tvs fuel :
  valid_tlv (t, v) → (length (tlvs_bytes ((t, v) :: tvs)) <= S fuel)%nat →
  parse_header (tlvs_bytes ((t, v) :: tvs)) = Some (t, zlen v, v ++ tlvs_bytes tvs) ∧
  (∃ c s, tlvs_bytes ((t, v) :: tvs) = c :: s) ∧
  (zlen v <=? zlen (v ++ tlvs_bytes tvs)) = true ∧
  take (Z.to_nat (zlen v)) (v ++ tlvs_bytes tvs) = v ∧
  drop (Z.to_nat (zlen v)) (v ++ tlvs_bytes tvs) = tlvs_bytes tvs ∧
  (length (tlvs_bytes tvs) <= fuel)%nat.
Proof.
  intros (Ht & Hv & _) Hf. pose proof (zlen_nonneg v). pose proof (zlen_nonneg (tlvs_bytes tvs)).
  rw zlen_to_nat take_app_length drop_app_length zlen_app.
  split; [rw tlvs_bytes_cons; by apply parse_header_tag|].
  rw tlvs_bytes_cons !length_app in Hf. pose proof (ber_length_bounds (zlen v)) as Hb.
  rw /zlen in Hb.
  split; [|split; [lia|split; [done|split; [done|]]]].
  2: { rw /zlen in Hf. lia. }
  rw tlvs_bytes_cons /tag_bytes. destruct (negb _); cbn [app]; by eexists _, _.
Qed.

Lemma parse_list_tlvs tvs fuel :
  Forall valid_tlv tvs → (length (tlvs_bytes tvs) <= fuel)%nat →
  parse_list fuel (tlvs_bytes tvs) = Some tvs.
Proof.
  intros Hv. revert fuel. induction Hv as [|[t v] tvs Htv Hv IH]; intros fuel Hf.
  { by destruct fuel. }
  destruct fuel as [|fuel].
  { rw tlvs_bytes_cons !length_app in Hf. pose proof (ber_length_bounds (zlen v)) as Hb.
    unfold zlen in *. lia. }
  destruct (parse_step t v tvs fuel Htv Hf) as (Ep & (c & s & Es) & Hle & Htake & Hdrop & Hf').
  cbn [parse_list]. rw Ep Hle Htake Hdrop Es IH //.
Qed.

Lemma find_tag_tlvs tvs tag fuel :
  Forall valid_tlv tvs → (length (tlvs_bytes tvs) <= fuel)%nat →
  find_tag fuel tag (tlvs_bytes tvs) =
    match filter (λ tv, tv.1 = tag) tvs with
    | [] => (false, None)
    | (_, v) :: _ => (true, Some v)
    end.
Proof.
  intros Hv. revert fuel. induction Hv as [|[t v] tvs Htv Hv IH]; intros fuel Hf.
  { by destruct fuel. }
  destruct fuel as [|fuel].
  { rw tlvs_bytes_cons !length_app in Hf. pose proof (ber_length_bounds (zlen v)) as Hb.
    unfold zlen in *. lia. }
  destruct (parse_step t v tvs fuel Htv Hf) as (Ep & (c & s & Es) & Hle & Htake & Hdrop & Hf').
  cbn [find_tag]. rw Ep Hle Htake Hdrop Es filter_cons /=.
  destruct (Z.eqb_spec t tag); [by rw decide_True|rw decide_False //; by apply IH].
Qed.

(** ** Properties *)

Lemma tlvs_bytes_byte tvs : Forall valid_tlv tvs → Forall is_byte (tlvs_bytes tvs).
Proof.
  induction 1 as [|[t v] tvs (Ht & Hv & Hb) _ IH]; [apply Forall_nil_2|].
  cbn [fst snd] in *. rw tlvs_bytes_cons. pose proof (valid_tag_range t Ht). pows.
  repeat (apply Forall_app; split); [|apply ber_length_byte; pose proof (zlen_nonneg v); pows; lia|done|done].
  rw /tag_bytes tag_high; [|pows; lia]. destruct (Z.ltb_spec t 256); cbn [negb];
    repeat constructor; rw /is_byte; dlia.
Qed.

(** C1: for every byte string, well formed or not, and every pattern of
    allocation failures, berTLV_extractTagUInt16 reads only inside of the data,
    terminates, reports whether the first object with the tag is reached
    before a malformed header, and answers a new object with exactly that
    value when it is complete and NULL otherwise; it leaves nothing else
    allocated. *)
Theorem extractTag_correct {G} (nf : bool) (tag : Z) (src : list Z) (g : G) :
  Forall is_byte src →
  triple nf emp%I (berTLV_extractTagUInt16 tag (Some src) (zlen src)) g
    (λ r g', ⟦g' = g⟧ ∗ ⟦r.2 = (first_tag tag src).1⟧ ∗
             match (first_tag tag src).2 with
             | Some v => tlv_result nf r.1 tag v
             | None => ⟦r.1 = None⟧
             end)%I.
Proof.
  intros Hs. iIntros "_". iApply extractTag16_spec; [done|]. iIntros (p) "Hp".
  iSplit; [done|]. by iSplit.
Qed.

Lemma extractTag_correct_witness :
  triple true emp%I (berTLV_extractTagUInt16 0x5A (Some [0x4F; 1; 0; 0x5A; 2; 9; 8]) 7) tt
    (λ r g', ⟦g' = tt⟧ ∗ ⟦r.2 = (first_tag 0x5A [0x4F; 1; 0; 0x5A; 2; 9; 8]).1⟧ ∗
             match (first_tag 0x5A [0x4F; 1; 0; 0x5A; 2; 9; 8]).2 with
             | Some v => tlv_result true r.1 0x5A v
             | None => ⟦r.1 = None⟧
             end)%I.
Proof.
  apply (extractTag_correct true 0x5A [0x4F; 1; 0; 0x5A; 2; 9; 8] tt).
  repeat constructor; rw /is_byte; lia.
Defined.

(** C2: berTLV_extractList parses back every sequence of encoded objects: on
    the concatenated encodings it answers the list of the objects, numbered in
    order, with their number modulo 256, and when an allocation fails it
    answers NULL and releases everything. *)
Theorem extractList_roundtrip {G} (nf : bool) (tvs : list (Z * list Z)) (g : G) :
  Forall valid_tlv tvs →
  triple nf emp%I (berTLV_extractList (Some (tlvs_bytes tvs)) (zlen (tlvs_bytes tvs))) g
    (λ r g', ⟦g' = g⟧ ∗
       (⟦nf = false ∧ r.1 = None⟧ ∨ ⟦r.2 = zlen tvs mod 256⟧ ∗ tlv_list r.1 tvs))%I.
Proof.
  intros Hv. iIntros "_". iApply extractList_spec; [by apply tlvs_bytes_byte|by apply parse_list_tlvs|].
  iIntros (p c) "H". by iFrame.
Qed.

Lemma extractList_roundtrip_witness :
  triple false emp%I (berTLV_extractList (Some (tlvs_bytes [(0x5A, [1; 2]); (0xBF20, [])])) 7) tt
    (λ r g', ⟦g' = tt⟧ ∗
       (⟦false = false ∧ r.1 = None⟧ ∨
        ⟦r.2 = zlen [(0x5A, [1; 2]); (0xBF20, [])] mod 256⟧ ∗
        tlv_list r.1 [(0x5A, [1; 2]); (0xBF20, [])]))%I.
Proof.
  apply (extractList_roundtrip false [(0x5A, [1; 2]); (0xBF20, [])] tt).
  constructor; [|constructor; [|constructor]].
  - split; [left; vm_compute; done|]. split; [done|]. repeat constructor; rw /is_byte; lia.
  - split; [right; vm_compute; done|]. split; [done|]. constructor.
Defined.

(** C3: parsing a list and releasing it with berTLV_freeBerTLVList leaves
    nothing allocated, whatever the data (no value being longer than it) and
    whichever allocations fail. *)
Theorem extractList_free_no_leak {G} (src : list Z) (tvs : list (Z * list Z)) (nf : bool) (g : G) :
  Forall is_byte src → parse_list (length src) src = Some tvs →
  triple nf emp%I
    (let* '(p, _) := berTLV_extractList (Some src) (zlen src) in berTLV_freeBerTLVList p) g
    (λ b g', ⟦b = true⟧ ∗ ⟦g' = g⟧)%I.
Proof.
  intros Hs Hp. iIntros "_". wp_seq. iApply extractList_spec; [done..|].
  iIntros (p c) "[%H|[_ H]]".
  - destruct H as [_ ->]. iApply (freeList_spec nf None 0 []); by iPureIntro.
  - iApply (freeList_spec with "H"). by iSplit.
Qed.

Lemma extractList_free_no_leak_witness :
  triple false emp%I
    (let* '(p, _) := berTLV_extractList (Some [0x5A; 1; 7; 0x4F]) 4 in berTLV_freeBerTLVList p) tt
    (λ b g', ⟦b = true⟧ ∗ ⟦g' = tt⟧)%I.
Proof.
  apply (extractList_free_no_leak [0x5A; 1; 7; 0x4F] [(0x5A, [7])] false tt);
    [repeat constructor; rw /is_byte; lia|done].
Defined.

(** Runs of single operations when no allocation fails. *)
Section runs.
Context {G : Type}.
Implicit Types (h : heap) (g : G).

Lemma bnd_run {A B} (m : M G A) (f : A → M G B) w a w' :
  m w = Some (a, w') → bnd m f w = f a w'.
Proof. intros E. by rw /bnd E. Qed.

Lemma bnd_ub {A B} (m : M G A) (f : A → M G B) w : m w = None → bnd m f w = None.
Proof. intros E. by rw /bnd E. Qed.

Lemma alloc_run n h g : 0 < n →
  lpaCoreMemoryAlloc n (World h [] g) =
    Some (Some (fresh (dom h)), World (<[fresh (dom h) := BBytes (new_bytes n)]> h) [] g).
Proof. intros Hn. rw /lpaCoreMemoryAlloc. by assert ((n >? 0) = true) as -> by lia. Qed.

Lemma store_run l b b' h o g : sizeof b = sizeof b' →
  store (Some l) b' (World (<[l := b]> h) o g) = Some (tt, World (<[l := b']> h) o g).
Proof. intros E. rw /store /= lookup_insert_eq /= E Z.eqb_refl. by rw insert_insert_eq. Qed.

Lemma load_tlv_run l t n v h o g :
  load_BeerTLV (Some l) (World (<[l := BTlv t n v]> h) o g) =
    Some ((t, n, v), World (<[l := BTlv t n v]> h) o g).
Proof. rw /load_BeerTLV (bnd_run _ _ _ (BTlv t n v) (World (<[l := BTlv t n v]> h) o g)) //.
       by rw /load /= lookup_insert_eq. Qed.

(** berTLV_create copies past the end of data shorter than the length. *)
Lemma create_overread tag n src h g :
  zlen src < n → berTLV_create tag n (Some src) (World h [] g) = None.
Proof.
  intros Hn. pose proof (zlen_nonneg src). rw /berTLV_create.
  rw (bnd_run _ _ _ _ _ (alloc_run _ _ _ _)) //. cbn [isNull].
  rw (bnd_run _ _ _ _ _ (store_run _ _ _ _ _ _ _)) //.
  assert ((n >? 0) = true) as -> by lia.
  rw (bnd_run _ _ _ _ _ (alloc_run n _ _ ltac:(lia))). set (l := fresh (dom h)). 
  set (h' := <[fresh (dom (<[l := BTlv tag 0 None]> h)) := BBytes (new_bytes n)]> _).
  assert (h' !! l = Some (BTlv tag 0 None)) as Hl.
  { assert (fresh (dom (<[l := BTlv tag 0 None]> h)) ≠ l) as Hne.
    { intros E. apply (is_fresh (dom (<[l := BTlv tag 0 None]> h))). rw E dom_insert_L. set_solver. }
    by rw /h' lookup_insert_ne // lookup_insert_eq. }
  rw -(insert_id _ _ _ Hl).
  erewrite bnd_run; last first.
  { erewrite bnd_run; last apply load_tlv_run. by apply store_run. }
  cbn [isNull]. apply bnd_ub, bnd_ub. rw /of_option rd_range_None //; lia.
Qed.
End runs.

(** BerTLV_extractList does not compare the length of an object with the
    size of the data: on an object whose value is truncated, with no allocation
    failing, its copy reads past the data. *)
Theorem extractList_overread {G} (t n : Z) (v : list Z) (h : heap) (g : G) :
  0 <= t < 256 → is_two_bytes_tag t = false → zlen v < n < 0x80 →
  berTLV_extractList (Some (t :: n :: v)) (zlen (t :: n :: v)) (World h [] g) = None.
Proof.
  intros Ht Htwo Hn. pose proof (zlen_nonneg v).
  assert (read_header (t :: n :: v) (zlen (t :: n :: v)) 0 = Some (Some (t, n, 2))) as Eh.
  { rw /read_header rd_cons_0. cbn [mbind option_bind]. rw Htwo /read_length !zlen_cons.
    assert ((0 + 1 <? 1 + (1 + zlen v)) = true) as -> by lia. change (0 + 1) with 1. rw rd_cell1.
    cbn [mbind option_bind]. by assert ((n <=? 0x7F) = true) as -> by lia. }
  rw /berTLV_extractList. assert ((zlen (t :: n :: v) >=? 2) = true) as -> by (rw !zlen_cons; lia).
  rw zlen_to_nat. cbn [length extractList_loop].
  assert ((0 <? zlen (t :: n :: v)) = true) as -> by (rw !zlen_cons; lia).
  rw Eh. rw (bnd_run (of_option _) _ _ (Some (t, n, 2)) (World h [] g)) //.
  rw (bnd_run _ _ _ _ _ (alloc_run _ _ _ _)) //. cbn [isNull].
  rw (bnd_run _ _ _ _ _ (store_run _ _ _ _ _ _ _)) //.
  apply bnd_ub, create_overread. change (drop (Z.to_nat 2) (t :: n :: v)) with v. lia.
Qed.

Lemma extractList_overread_witness :
  berTLV_extractList (Some [0x5A; 5; 1]) (zlen [0x5A; 5; 1]) (World ∅ [] tt) = None.
Proof. apply (extractList_overread 0x5A 5 [1] ∅ tt); vm_compute; [split; congruence|done|done]. Defined.

(** BerTLV_createAndBuildRawDataObject builds the BER-TLV encoding of a
    tag and a value, releases its intermediate object, and answers NULL only
    when an allocation fails. *)
Theorem createAndBuild_correct {G} (nf : bool) (tag : Z) (src : list Z) (n : Z) (g : G) :
  0 <= tag < 2 ^ 16 → 0 <= n <= zlen src → n < 2 ^ 24 →
  triple nf emp%I (berTLV_createAndBuildRawDataObject tag n (Some src)) g
    (λ p g', ⟦g' = g⟧ ∗ raw_result nf p (tlv_bytes tag (take (Z.to_nat n) src)))%I.
Proof.
  intros Htag Hn Hn24. iIntros "_". iApply (createAndBuild_spec nf tag _ _ (take (Z.to_nat n) src)).
  - done.
  - rw zlen_take. lia.
  - by rw rd_range_Some; [|lia..].
  - iIntros (q) "Hq". by iFrame.
Qed.

Lemma createAndBuild_correct_witness :
  triple true emp%I (berTLV_createAndBuildRawDataObject 0xBF20 2 (Some [1; 2; 3])) tt
    (λ p g', ⟦g' = tt⟧ ∗ raw_result true p (tlv_bytes 0xBF20 (take (Z.to_nat 2) [1; 2; 3])))%I.
Proof. apply (createAndBuild_correct true 0xBF20 [1; 2; 3] 2 tt); vm_compute; try split; congruence. Defined.
