(* ===== verification/TlvWalk.v ===== *)
(** * Clients of the BER-TLV parser

    What the functions that interpret eUICC objects do with the results of
    BerTlv.v: they parse the value of an object again, walk over a list with
    [while (p != NULL) { ... p = p->ptrNext; }], leave the loop with [break],
    and release objects and lists with the macros of bertlv_object.h. *)

From stdpp Require Import gmap.
From iris.bi Require Import bi.
From iris.proofmode Require Import proofmode.
From S2P Require Import Prelude StateMonad Heap Wp RawData BerTlv.

(** ** Code *)

(** [memcpy(dst, value, length)], of an array that starts at [dst]. *)
Definition copy_value (dst : list Z) (value : option (list Z)) (length : Z) : option (list Z) :=
  v ← match value with
      | Some v => rd_range v 0 length
      | None => if length =? 0 then Some [] else None
      end;
  wr_range dst 0 v.

Section code.
Context {G : Type}.
Abbreviation M := (M G).

(** [t->tag], [t->length] and the bytes [t->value] points to. *)
Definition tlv_data (t : ptr) : M (Z * Z * option (list Z)) :=
  let* '(tag, length, value) := load_BeerTLV t in
  if isNull value then ret (tag, length, None)
  else let* bs := load_bytes value in ret (tag, length, Some bs).

(** [berTLV_extractTagUInt8(tag, t->value, t->length, NULL)] *)
Definition extractTag_of (tag : Z) (t : ptr) : M ptr :=
  let* '(_, length, value) := tlv_data t in
  let* '(p, _) := berTLV_extractTagUInt8 tag value length in ret p.

(** [berTLV_extractList(t->value, t->length, &count)] *)
Definition extractList_of (t : ptr) : M (ptr * Z) :=
  let* '(_, length, value) := tlv_data t in berTLV_extractList value length.

(** [berTLV_extractTagUInt16(tag, t->value, t->length, ...)] *)
Definition extractTag16_of (tag : Z) (t : ptr) : M ptr :=
  let* '(_, length, value) := tlv_data t in
  let* '(p, _) := berTLV_extractTagUInt16 tag value length in ret p.

(** [t != NULL && t->length > n] *)
Definition longer_than (n : Z) (t : ptr) : M bool :=
  if isNull t then ret false else let* '(_, length, _) := load_BeerTLV t in ret (length >? n).

Definition ERASE_BERTLV (p : ptr) : M unit :=
  if isNull p then ret tt else berTLV_freeBerTLV p ;; ret tt.
Definition ERASE_BERTLV_LIST (p : ptr) : M unit :=
  if isNull p then ret tt else berTLV_freeBerTLVList p ;; ret tt.

(** The loop over a list: [body] runs on [p->berTLV] when it is not [NULL] and
    [on_null] otherwise, on the local variables of the loop, and answer [false]
    to leave it. Every round visits another live block, so their number is
    enough fuel. *)
Fixpoint walk_loop {S} (fuel : nat) (on_null : S → M (bool * S)) (body : ptr → S → M (bool * S))
    (p : ptr) (s : S) : M S :=
  match p with
  | None => ret s
  | Some _ =>
      match fuel with
      | O => ub
      | Datatypes.S fuel =>
          let* '(_, t, _) := load_BerTLVList p in
          let* '(go, s) := (if isNull t then on_null s else body t s) in
          if go : bool then let* '(_, _, next) := load_BerTLVList p in walk_loop fuel on_null body next s
          else ret s
      end
  end.

Definition walk_with {S} (on_null : S → M (bool * S)) (body : ptr → S → M (bool * S)) (p : ptr) (s : S)
    : M S := λ w,
  walk_loop (size (wheap w)) on_null body p s w.

(** The loops that pass over elements without an object. *)
Definition skip_null {S} (s : S) : M (bool * S) := ret (true, s).
End code.

Abbreviation walk := (walk_with skip_null).

(** ** Values *)

(** Empty values have no buffer. *)
Definition value (v : list Z) : option (list Z) := match v with [] => None | _ => Some v end.

Lemma find_tag_byte fuel tag s v :
  Forall is_byte s → (find_tag fuel tag s).2 = Some v → Forall is_byte v.
Proof.
  revert s. induction fuel as [|fuel IH]; intros [|c s]; try done. intros Hs. cbn [find_tag].
  destruct (parse_header (c :: s)) as [[[t n] r]|] eqn:E; [|done].
  destruct (parse_header_suffix _ _ _ _ E) as (h & Eh & _). rw Eh in Hs.
  apply Forall_app in Hs as [_ Hr]. destruct (t =? tag).
  - destruct (n <=? zlen r); [|done]. intros [= <-]. by apply Forall_take.
  - apply IH. by apply Forall_drop.
Qed.

Lemma first_tag_byte tag s v : Forall is_byte s → (first_tag tag s).2 = Some v → Forall is_byte v.
Proof. apply find_tag_byte. Qed.

(** A value is not longer than a header can express. *)
Lemma find_tag_bound fuel tag s v :
  Forall is_byte s → (find_tag fuel tag s).2 = Some v → zlen v < 2 ^ 24.
Proof.
  revert s. induction fuel as [|fuel IH]; intros [|c s]; try done. intros Hs. cbn [find_tag].
  destruct (parse_header (c :: s)) as [[[t n] r]|] eqn:E; [|done].
  pose proof (parse_header_bound _ _ _ _ Hs E) as Hb.
  destruct (parse_header_suffix _ _ _ _ E) as (h & Eh & _). rw Eh in Hs.
  apply Forall_app in Hs as [_ Hr]. destruct (t =? tag).
  - destruct (n <=? zlen r) eqn:En; [|done]. zprop. intros [= <-]. rw zlen_take. lia.
  - apply IH. by apply Forall_drop.
Qed.

Lemma first_tag_bound tag s v : Forall is_byte s → (first_tag tag s).2 = Some v → zlen v < 2 ^ 24.
Proof. apply find_tag_bound. Qed.

Lemma parse_list_byte fuel s tvs :
  Forall is_byte s → parse_list fuel s = Some tvs → Forall (λ tv, Forall is_byte tv.2) tvs.
Proof.
  revert s tvs. induction fuel as [|fuel IH]; intros [|c s] tvs Hs; cbn [parse_list];
    try (by intros [= <-]).
  destruct (parse_header (c :: s)) as [[[t n] r]|] eqn:E; [|by intros [= <-]].
  destruct (parse_header_suffix _ _ _ _ E) as (h & Eh & _). rw Eh in Hs.
  apply Forall_app in Hs as [_ Hr]. destruct (n <=? zlen r); [|done].
  destruct (parse_list fuel _) as [rest|] eqn:Er; [|done]. intros [= <-].
  constructor; [by apply Forall_take|]. eapply IH; [|exact Er]. by apply Forall_drop.
Qed.

Lemma parse_length_same tag s t n r : parse_length tag s = Some (t, n, r) → t = tag.
Proof.
  rw /parse_length. destruct s as [|b s]; [done|]. ztest; [by intros [= <- _ _]|].
  destruct s as [|l1 s]; [done|]. ztest; [by intros [= <- _ _]|].
  destruct s as [|l2 s]; [done|]. ztest; [by intros [= <- _ _]|].
  destruct s as [|l3 s]; [done|]. by ztest; [intros [= <- _ _]|].
Qed.

Lemma parse_header_range s t n r : Forall is_byte s → parse_header s = Some (t, n, r) → 0 <= t < 2 ^ 16.
Proof.
  intros Hs. rw /parse_header. pows. destruct s as [|c s]; [done|]. inversion_clear Hs as [|?? Hc Hs'].
  rw /is_byte in Hc. destruct (is_two_bytes_tag c).
  - destruct s as [|c2 s]; [done|]. inversion_clear Hs' as [|?? Hc2 _]. rw /is_byte in Hc2.
    intros ->%parse_length_same. lia.
  - intros ->%parse_length_same. lia.
Qed.

(** The tags and the sizes that a header can express. *)
Lemma parse_list_bound fuel s tvs :
  Forall is_byte s → parse_list fuel s = Some tvs → Forall (λ tv, 0 <= tv.1 < 2 ^ 16 ∧ zlen tv.2 < 2 ^ 24) tvs.
Proof.
  revert s tvs. induction fuel as [|fuel IH]; intros [|c s] tvs Hs; cbn [parse_list];
    try (by intros [= <-]).
  destruct (parse_header (c :: s)) as [[[t n] r]|] eqn:E; [|by intros [= <-]].
  destruct (parse_header_suffix _ _ _ _ E) as (h & Eh & _). pose proof (parse_header_bound _ _ _ _ Hs E) as Hb.
  pose proof (parse_header_range _ _ _ _ Hs E) as Ht.
  rw Eh in Hs. apply Forall_app in Hs as [_ Hr]. destruct (n <=? zlen r) eqn:En; [|done]. zprop.
  destruct (parse_list fuel _) as [rest|] eqn:Er; [|done]. intros [= <-].
  constructor; [|by eapply IH; [|exact Er]; apply Forall_drop]. cbn. rw zlen_take. lia.
Qed.

(** All objects of a byte string, when no value is longer than the data. *)
Definition objects (s : list Z) : option (list (Z * list Z)) := parse_list (length s) s.

Lemma objects_tlvs tvs : Forall valid_tlv tvs → objects (tlvs_bytes tvs) = Some tvs.
Proof. intros. by apply parse_list_tlvs. Qed.

Lemma first_tag_tlvs tvs tag : Forall valid_tlv tvs →
  (first_tag tag (tlvs_bytes tvs)).2 = snd <$> head (filter (λ tv, tv.1 = tag) tvs).
Proof.
  intros H. rw /first_tag (find_tag_tlvs tvs tag _ H) //. by destruct (filter _ tvs) as [|[??]?].
Qed.

Lemma tlvs_one t v : tlvs_bytes [(t, v)] = tlv_bytes t v.
Proof. by rw /tlvs_bytes /= app_nil_r. Qed.

(** An object alone. *)
Lemma first_only t v : valid_tag t → Forall is_byte v → zlen v < 2 ^ 24 → (first_tag t (tlv_bytes t v)).2 = Some v.
Proof.
  intros Ht Hv Hs. rw -tlvs_one first_tag_tlvs; [|by apply Forall_singleton].
  by rw filter_cons_True.
Qed.

Lemma tlv_bytes_byte t v : valid_tag t → Forall is_byte v → zlen v < 2 ^ 24 → Forall is_byte (tlv_bytes t v).
Proof. intros. rw -tlvs_one. apply tlvs_bytes_byte. by apply Forall_singleton. Qed.

(** An array after a value was copied to its start. *)
Definition put (dst v : list Z) : list Z := v ++ drop (length v) dst.

Lemma wr_range_put (dst v : list Z) : zlen v <= zlen dst → wr_range dst 0 v = Some (put dst v).
Proof.
  intros Hl. unfold wr_range, put. by destruct (Z.leb_spec (0 + zlen v) (zlen dst)); [|lia].
Qed.

Lemma copy_value_ok dst v : zlen v <= zlen dst → copy_value dst (value v) (zlen v) = Some (put dst v).
Proof.
  intros Hl. rw /copy_value. destruct v as [|x v]; cbn [value].
  - by apply wr_range_put.
  - rw rd_range_all //. by apply wr_range_put.
Qed.

Lemma put_zlen dst v : zlen v <= zlen dst → zlen (put dst v) = zlen dst.
Proof. intros H. rw /put zlen_app zlen_drop. rw /zlen in H |- *. lia. Qed.

Lemma put_all (dst v : list Z) : length v = length dst → put dst v = v.
Proof. intros H. by rw /put drop_ge ?app_nil_r // H. Qed.

(** ** Data at the start of a longer buffer *)

Section prefix.
Context (src : list Z) (n : Z) (Hn : 0 <= n <= zlen src).

Lemma rd_prefix i : i < n → src.[i] = (take (Z.to_nat n) src).[i].
Proof.
  intros Hi. rw /rd. destruct (0 <=? i) eqn:E; [|done]. symmetry. apply lookup_take_lt. zprop. lia.
Qed.

Lemma read_length_prefix t o : read_length src n t o = read_length (take (Z.to_nat n) src) n t o.
Proof.
  rw /read_length. destruct (o <? n) eqn:E; [|done]. zprop. rw (rd_prefix o) //.
  destruct (_.[o]) as [b|]; [|done]. cbn [mbind option_bind].
  destruct (b <=? 0x7F); [done|]. destruct (b =? 0x81); [|destruct (b =? 0x82); [|destruct (b =? 0x83); [|done]]].
  - destruct (o + 1 <? n) eqn:E1; [|done]. zprop. by rw rd_prefix.
  - destruct (o + 2 <? n) eqn:E1; [|done]. zprop. rw (rd_prefix (o + 1)); [|lia]. by rw (rd_prefix (o + 2)).
  - destruct (o + 3 <? n) eqn:E1; [|done]. zprop. rw (rd_prefix (o + 1)); [|lia].
    rw (rd_prefix (o + 2)); [|lia]. by rw (rd_prefix (o + 3)).
Qed.

Lemma read_header_prefix o : o < n → read_header src n o = read_header (take (Z.to_nat n) src) n o.
Proof.
  intros Ho. rw /read_header (rd_prefix o) //. destruct (_.[o]) as [c|]; [|done]. cbn [mbind option_bind].
  destruct (is_two_bytes_tag c); [|apply read_length_prefix].
  destruct (o + 1 <? n) eqn:E; [|done]. zprop. rw (rd_prefix (o + 1)) //.
  destruct (_.[o + 1]); [|done]. apply read_length_prefix.
Qed.

Lemma rd_range_prefix o m : 0 <= o → o + m <= n →
  rd_range (drop (Z.to_nat o) src) 0 m = rd_range (drop (Z.to_nat o) (take (Z.to_nat n) src)) 0 m.
Proof.
  intros Ho Hm. rw /rd_range !zlen_drop zlen_take.
  rw (_ : Z.min (Z.of_nat (Z.to_nat n)) (zlen src) = n); [|lia].
  destruct (Z.leb_spec 0 m); cbn [andb Z.leb Z.compare]; [|done]. cbn [drop].
  assert ((0 + m <=? Z.max 0 (zlen src - Z.of_nat (Z.to_nat o))) = true) as -> by lia.
  assert ((0 + m <=? Z.max 0 (n - Z.of_nat (Z.to_nat o))) = true) as -> by lia.
  rw skipn_firstn_comm take_take. f_equal. f_equal. lia.
Qed.

Lemma create_prefix {G} tag o m (w : world G) : 0 <= o → o + m <= n →
  berTLV_create tag m (Some (drop (Z.to_nat o) src)) w =
  berTLV_create tag m (Some (drop (Z.to_nat o) (take (Z.to_nat n) src))) w.
Proof.
  intros Ho Hm. rw /berTLV_create /bnd. destruct (lpaCoreMemoryAlloc _ w) as [[p w1]|]; [|done]. cbn [mbind option_bind].
  destruct (isNull p); [done|]. destruct (store p _ w1) as [[u w2]|]; [|done]. cbn [mbind option_bind].
  destruct (m >? 0); [|done]. by rw /memcpy_arg /bnd /of_option rd_range_prefix.
Qed.

Lemma extractTag_loop_prefix {G} fuel tag : ∀ o (w : world G),
  Forall is_byte (take (Z.to_nat n) src) → 0 <= o →
  extractTag_loop fuel tag src n o w = extractTag_loop fuel tag (take (Z.to_nat n) src) n o w.
Proof.
  assert (zlen (take (Z.to_nat n) src) = n) as Hl by (rw zlen_take; lia).
  induction fuel as [|fuel IH]; intros o w Hb Ho; cbn [extractTag_loop].
  { done. }
  destruct (o <? n) eqn:E; [|done]. zprop. rw read_header_prefix //.
  destruct (read_header_at (take (Z.to_nat n) src) o (drop (Z.to_nat o) (take (Z.to_nat n) src))) as [Eh Hnext];
    [done|lia|done|].
  rw Hl in Eh Hnext. rw Eh /bnd /of_option. cbn [mbind option_bind]. rw /header_result.
  destruct (parse_header _) as [[[t l] r]|]; [|done]. destruct (Hnext t l r eq_refl) as (Hl0 & Hoff & _).
  destruct (t =? tag).
  - destruct (_ <=? n) eqn:E1; [|done]. zprop. by rw create_prefix; [|lia..].
  - apply IH; [done|lia].
Qed.

Lemma extractTag16_prefix {G} tag (w : world G) : Forall is_byte (take (Z.to_nat n) src) →
  berTLV_extractTagUInt16 tag (Some src) n w = berTLV_extractTagUInt16 tag (Some (take (Z.to_nat n) src)) n w.
Proof. intros Hb. rw /berTLV_extractTagUInt16. destruct (n >=? 2); [|done]. by apply extractTag_loop_prefix. Qed.
End prefix.

(** ** Rules *)

(** An object that a search may have found: [r] is its value. *)
Definition maybe_tlv (p : ptr) (tag : Z) (r : option (list Z)) : heapProp :=
  match r with
  | None => ⟦p = None⟧%I
  | Some v => tlv p tag v
  end.

Definition present (r : option (list Z)) : bool := match r with Some _ => true | None => false end.

Lemma maybe_null p tag r : maybe_tlv p tag r ⊢ ⟦isNull p = negb (present r)⟧ ∗ maybe_tlv p tag r.
Proof.
  iIntros "H". destruct r as [v|]; cbn [maybe_tlv].
  - iDestruct "H" as (l d) "(-> & H)". iSplit; [done|]. iExists l, d. iSplit; [done|]. iExact "H".
  - iDestruct "H" as %->. by iSplit.
Qed.

(** What the allocator leaves of the result [r] of a search. *)
Definition chosen (nf : bool) (r found : option (list Z)) : Prop :=
  r = found ∨ nf = false ∧ r = None.

Lemma chosen_nf r found : chosen true r found → r = found.
Proof. by intros [|[? ?]]. Qed.

Section rules.
Context {G : Type} (nf : bool).
Implicit Types (g : G).

Lemma wp_tlv_data t tag v g Φ :
  tlv t tag v -∗ (tlv t tag v -∗ Φ (tag, zlen v, value v) g) -∗ wp nf (tlv_data t) g Φ.
Proof.
  iIntros "Ht HΦ". iDestruct "Ht" as (l d) "(-> & Hl & Hd)". wp_seq.
  iApply (wp_load_tlv with "Hl"). iIntros "Hl". destruct d as [d|]; cbn [isNull buf].
  - iDestruct "Hd" as "[%Hv Hd]". wp_seq. iApply (wp_load_bytes with "Hd"). iIntros "Hd". wp_value.
    destruct v as [|x v]; [done|]. iApply "HΦ". iExists l, (Some d). by iFrame.
  - iDestruct "Hd" as %->. wp_value. iApply "HΦ". iExists l, None. by iFrame.
Qed.

Lemma wp_load_tlv_length t tag v g (Φ : Z * Z * ptr → G → heapProp) :
  tlv t tag v -∗ (∀ q, tlv t tag v -∗ Φ (tag, zlen v, q) g) -∗ wp nf (load_BeerTLV t) g Φ.
Proof.
  iIntros "H HΦ". iDestruct "H" as (l q) "(-> & Hl & Hq)". iApply (wp_load_tlv with "Hl").
  iIntros "Hl". iApply "HΦ". iExists l, q. by iFrame.
Qed.

Lemma find_post_maybe p tag found :
  find_post nf p tag found ⊢ ∃ r, ⟦chosen nf r found⟧ ∗ maybe_tlv p tag r.
Proof.
  iIntros "H". destruct found as [v|]; cbn [find_post].
  - destruct p as [l|]; cbn [tlv_result].
    + iExists (Some v). iFrame. iPureIntro. by left.
    + iDestruct "H" as %Hn. iExists None. iPureIntro. split; [by right|done].
  - iDestruct "H" as %->. iExists None. iPureIntro. split; [by left|done].
Qed.

Lemma wp_extractTag_of tag t tg v g Φ :
  Forall is_byte v → 0 <= tag < 256 →
  tlv t tg v -∗
  (∀ p r, ⟦chosen nf r (first_tag tag v).2⟧ -∗ tlv t tg v -∗ maybe_tlv p tag r -∗ Φ p g) -∗
  wp nf (extractTag_of tag t) g Φ.
Proof.
  iIntros (Hv Ht) "Ht HΦ". wp_seq. iApply (wp_tlv_data with "Ht"). iIntros "Ht".
  destruct v as [|x v]; cbn [value].
  - wp_seq. wp_value. wp_value. iApply ("HΦ" $! None None with "[] Ht [//]"). by iLeft.
  - wp_seq. iApply extractTag8_spec; [done..|]. iIntros (p b) "Hp". wp_value.
    iDestruct (find_post_maybe with "Hp") as (r) "[%Hr Hp]". by iApply ("HΦ" with "[//] Ht Hp").
Qed.

Lemma wp_extractTag16_of tag t tg v g Φ :
  Forall is_byte v →
  tlv t tg v -∗
  (∀ p r, ⟦chosen nf r (first_tag tag v).2⟧ -∗ tlv t tg v -∗ maybe_tlv p tag r -∗ Φ p g) -∗
  wp nf (extractTag16_of tag t) g Φ.
Proof.
  iIntros (Hv) "Ht HΦ". wp_seq. iApply (wp_tlv_data with "Ht"). iIntros "Ht".
  destruct v as [|x v]; cbn [value].
  - wp_seq. wp_value. wp_value. iApply ("HΦ" $! None None with "[] Ht [//]"). by iLeft.
  - wp_seq. iApply extractTag16_spec; [done..|]. iIntros (p) "Hp". wp_value.
    iDestruct (find_post_maybe with "Hp") as (r) "[%Hr Hp]". by iApply ("HΦ" with "[//] Ht Hp").
Qed.

Lemma wp_ext {A} (m m' : M G A) g Φ : (∀ w, m w = m' w) → wp nf m' g Φ -∗ wp nf m g Φ.
Proof.
  intros E. apply bi.entails_wand. split=> h H hf o Hd Ho. rw E. by apply H.
Qed.

(** A search in the first [n] bytes of a buffer. *)
Lemma wp_extractTag16 tag src n g Φ :
  0 <= n <= zlen src → Forall is_byte (take (Z.to_nat n) src) →
  (∀ p b r, ⟦chosen nf r (first_tag tag (take (Z.to_nat n) src)).2⟧ -∗ maybe_tlv p tag r -∗ Φ (p, b) g) -∗
  wp nf (berTLV_extractTagUInt16 tag (Some src) n) g Φ.
Proof.
  iIntros (Hn Hb) "HΦ". iApply wp_ext; [intros w; by apply extractTag16_prefix|].
  assert (n = zlen (take (Z.to_nat n) src)) as Hl by (rw zlen_take; lia).
  rw (_ : berTLV_extractTagUInt16 tag (Some (take (Z.to_nat n) src)) n =
          berTLV_extractTagUInt16 tag (Some (take (Z.to_nat n) src)) (zlen (take (Z.to_nat n) src))); [|by rw -Hl].
  iApply extractTag16_spec; [done|]. iIntros (p) "Hp". iDestruct (find_post_maybe with "Hp") as (r) "[%Hr Hp]".
  by iApply ("HΦ" with "[//] Hp").
Qed.

(** A search in all the bytes of an object. *)
Lemma wp_extractTag16_value tag src g Φ :
  Forall is_byte src →
  (∀ p b r, ⟦chosen nf r (first_tag tag src).2⟧ -∗ maybe_tlv p tag r -∗ Φ (p, b) g) -∗
  wp nf (berTLV_extractTagUInt16 tag (value src) (zlen src)) g Φ.
Proof.
  iIntros (Hb) "HΦ". destruct src as [|x src]; cbn [value].
  - wp_value. iApply ("HΦ" $! None false None); [by iLeft|done].
  - iApply wp_extractTag16; [zlen_pos; lia|by rw zlen_to_nat take_ge|]. by rw zlen_to_nat take_ge.
Qed.

Lemma wp_extractList_of t tg v tvs g Φ :
  Forall is_byte v → objects v = Some tvs →
  tlv t tg v -∗ (∀ p c, tlv t tg v -∗ list_result nf p c tvs -∗ Φ (p, c) g) -∗
  wp nf (extractList_of t) g Φ.
Proof.
  iIntros (Hv Ho) "Ht HΦ". wp_seq. iApply (wp_tlv_data with "Ht"). iIntros "Ht".
  destruct v as [|x v]; cbn [value].
  - injection Ho as <-. wp_value. iApply ("HΦ" with "Ht"). iRight. by iSplit.
  - iApply extractList_spec; [done..|]. iIntros (p c) "Hp". iApply ("HΦ" with "Ht Hp").
Qed.

Lemma wp_erase p tag r g Φ :
  maybe_tlv p tag r -∗ Φ tt g -∗ wp nf (ERASE_BERTLV p) g Φ.
Proof.
  iIntros "Hp HΦ". destruct r as [v|]; cbn [maybe_tlv].
  - destruct p as [l|].
    + wp_seq. iApply (tlv_free_spec with "Hp"). by wp_value.
    + iDestruct "Hp" as (l d) "(%E & ?)". done.
  - iDestruct "Hp" as %->. by wp_value.
Qed.

Lemma wp_erase_list p tvs g Φ :
  tlv_list p tvs -∗ Φ tt g -∗ wp nf (ERASE_BERTLV_LIST p) g Φ.
Proof.
  iIntros "Hp HΦ". destruct p as [l|].
  - wp_seq. iApply (freeList_spec with "Hp"). by wp_value.
  - destruct tvs as [|[t v] tvs]; cbn [tlv_list tlv_seg].
    + iDestruct "Hp" as "_". by wp_value.
    + iDestruct "Hp" as (l b n) "(%E & ?)". done.
Qed.

Lemma wp_longer_than n t tag r g Φ :
  maybe_tlv t tag r -∗
  (maybe_tlv t tag r -∗ Φ (match r with Some v => zlen v >? n | None => false end) g) -∗
  wp nf (longer_than n t) g Φ.
Proof.
  iIntros "Ht HΦ". rw /longer_than. iDestruct (maybe_null with "Ht") as "[%En Ht]". rw En.
  destruct r as [v|]; cbn [present negb maybe_tlv].
  - wp_seq. iApply (wp_load_tlv_length with "Ht"). iIntros (q) "Ht". wp_value. by iApply "HΦ".
  - wp_value. by iApply "HΦ".
Qed.

(** A list is [NULL] exactly when it has no element. *)
Lemma tlv_list_null p tvs :
  tlv_list p tvs ⊢ ⟦isNull p = bool_decide (tvs = [])⟧ ∗ tlv_list p tvs.
Proof.
  iIntros "H". destruct tvs as [|[t v] tvs]; cbn [tlv_list tlv_seg].
  - iDestruct "H" as %->. by iSplit.
  - iDestruct "H" as (l b n) "(-> & H)". iSplit; [done|]. iExists l, b, n. iSplit; [done|].
    iExact "H".
Qed.

Lemma holds_sep_size k P Q h :
  (∀ h, holds P h → (k <= size h)%nat) → holds (P ∗ Q)%I h → (k <= size h)%nat.
Proof.
  intros HP (h1 & h2 & -> & Hd & H1 & _). etrans; [by apply HP|].
  apply map_subseteq_size, map_union_subseteq_l.
Qed.

(** ** Loops over lists

    [Inv pre] holds before the element after [pre], [Done] when the loop is
    left. *)
Section walks.
Context {S : Type} (on_null : S → M G (bool * S)) (body : ptr → S → M G (bool * S)) (tvs : list (Z * list Z)).
Context (Inv : list (Z * list Z) → S → G → heapProp) (Done : S → G → heapProp).
Context (body_ok : ∀ pre t v post b s g, tvs = pre ++ (t, v) :: post →
  tlv (Some b) t v ∗ Inv pre s g ⊢
  wp nf (body (Some b) s) g (λ r g', tlv (Some b) t v ∗
    if r.1 then Inv (pre ++ [(t, v)]) r.2 g' else Done r.2 g')).
Context (end_ok : ∀ s g, Inv tvs s g ⊢ Done s g).

Lemma walk_loop_spec rest : ∀ pre p i fuel s g,
  tvs = pre ++ rest → (length rest <= fuel)%nat →
  tlv_seg p i rest None ∗ Inv pre s g ⊢
  wp nf (walk_loop fuel on_null body p s) g (λ s' g', tlv_seg p i rest None ∗ Done s' g').
Proof.
  induction rest as [|[t v] rest IH]; iIntros (pre p i fuel s g Hp Hf) "[Hs HI]";
    cbn [tlv_seg length] in *.
  - iDestruct "Hs" as %->. rw app_nil_r in Hp. subst pre.
    destruct fuel; cbn [walk_loop]; wp_value; (iSplit; [done|]); by iApply end_ok.
  - iDestruct "Hs" as (l b n) "(-> & Hl & Hb & Hs)". destruct fuel as [|fuel]; [lia|].
    cbn [walk_loop]. wp_seq. iApply (wp_load_list with "Hl"). iIntros "Hl". cbn [isNull]. wp_seq.
    iApply (wp_wand with "[Hb HI]"); [iApply body_ok; [done|iFrame]|].
    iIntros ([go s'] g') "[Hb HI]". cbn [fst snd]. destruct go.
    + wp_seq. iApply (wp_load_list with "Hl"). iIntros "Hl".
      iApply (wp_wand with "[Hs HI]").
      { iApply (IH (pre ++ [(t, v)])); [by rw -app_assoc|lia|iFrame]. }
      iIntros (s'' g'') "[Hs HD]". iFrame "HD". iExists l, b, n. by iFrame "Hl Hb Hs".
    + wp_value. iFrame "HI". iExists l, b, n. by iFrame "Hl Hb Hs".
Qed.

Lemma wp_walk p s g Φ :
  tlv_list p tvs -∗ Inv [] s g -∗ (∀ s' g', tlv_list p tvs -∗ Done s' g' -∗ Φ s' g') -∗
  wp nf (walk_with on_null body p s) g Φ.
Proof.
  iIntros "Hp HI HΦ". iApply (wp_wand _ _ _ (λ s' g', tlv_list p tvs ∗ Done s' g')%I with "[Hp HI]").
  - iAssert (tlv_list p tvs ∗ Inv [] s g)%I with "[$Hp $HI]" as "H". iStopProof.
    apply (wp_live nf (length tvs) (λ n, walk_loop n on_null body p s)).
    + intros h. apply holds_sep_size. intros h'. apply tlv_seg_size.
    + intros n Hn. by apply walk_loop_spec.
  - iIntros (s' g') "[Hp HD]". by iApply ("HΦ" with "Hp HD").
Qed.
End walks.
End rules.
