(* ===== verification/LpaMemory.v ===== *)
(** * The memory manager of the LPA SDK ([core/lpa_memory.c])

    The allocator under every other component. It wraps [malloc] and [free]
    with a header and a trailer around the bytes it hands out,

      A5 5A | size, 4 bytes | status | index, 3 bytes | 00 00 00 00 | 16 64 |
      content | AA 55

    keeps usage counters, simulates allocation failures on demand, and, in the
    monitored build ([LPA_SDK__MEMORY_MONITORING], the one modelled here),
    records the call site of every live block in two tables.

    A pointer is the physical block it points into: the pointer the allocator
    returns is 16 bytes after the start of the block, so that byte [i] of the
    content is cell [16 + i]. Log output is not modelled, except for the
    computations that decide what is reported. *)

From stdpp Require Import gmap.
From S2P Require Import Prelude CLib Heap.

(** [long] arithmetic, as two's complement. *)
Definition s64 (z : Z) : Z := (z + 2^63) mod 2^64 - 2^63.

Definition INVALID_MONITORING_INDEX : Z := 0xFFFFFF.
Definition MEMORY_CONTENT_INIT_PATTERN : Z := 0xBD.
Definition MAX_MEMORY_BLOCK_INFORMATION : Z := 4096.
Definition MAX_MEMORY_ALLOCATION_INFORMATION : Z := 1024.
Definition ALLOCATION_FILE_NAME_SIZE : Z := 64.

(** ** State *)

Record MEMORY_BLOCK_INFORMATION := BlockInformation {
  memoryBlockAllocated : ptr;
  memorySize : Z;
  indexMemoryAllocationInformation : Z
}.

Record MEMORY_ALLOCATION_INFORMATION := AllocationInformation {
  allocationFileName : list Z;   (** the string stored in the array *)
  allocationLine : Z;
  allocationCounter : Z
}.

Record counters := Counters {
  countMemoryAllocCall : Z;
  countMemoryFreeCall : Z;
  currentMemoryBlockAllocated : Z;
  currentMemoryAllocated : Z;
  totalMemoryAllocated : Z;
  maxMemoryAllocated : Z;
  maxMemoryBlockAllocated : Z
}.

(** The six [_generateErrIf...] variables. *)
Record errors := Errors {
  counterEQ : Z; counterGT : Z; counterGE : Z;
  sizeEQ : Z; sizeGT : Z; sizeGE : Z
}.

Record memory := Memory {
  stat : counters;
  err : errors;
  ptrMemoryBlockInformation : option (list MEMORY_BLOCK_INFORMATION);
  ptrMemoryAllocationInformation : option (list MEMORY_ALLOCATION_INFORMATION)
}.

Definition free_block_record := BlockInformation None 0 0.
Definition free_alloc_record := AllocationInformation [] 0 0.

Definition initial_memory : memory :=
  Memory (Counters 0 0 0 0 0 0 0) (Errors 0 0 0 0 0 0) None None.

Definition with_stat (f : counters → counters) (g : memory) : memory :=
  Memory (f (stat g)) (err g) (ptrMemoryBlockInformation g) (ptrMemoryAllocationInformation g).
Definition with_tables bi ai (g : memory) : memory := Memory (stat g) (err g) bi ai.

Definition modify (f : memory → memory) : M memory unit :=
  let* g := get_globals in set_globals (f g).

(** ** Simulated allocation failures *)

Definition lpaCoreMemoryResetParamGenerateErr : M memory unit :=
  modify (λ g, Memory (stat g) (Errors 0 0 0 0 0 0) (ptrMemoryBlockInformation g)
                 (ptrMemoryAllocationInformation g)).

Definition set_error (param value : Z) (e : errors) : option errors :=
  let '(Errors c1 c2 c3 s1 s2 s3) := e in
  if param =? 1 then Some (Errors value c2 c3 s1 s2 s3)
  else if param =? 2 then Some (Errors c1 value c3 s1 s2 s3)
  else if param =? 3 then Some (Errors c1 c2 value s1 s2 s3)
  else if param =? 4 then Some (Errors c1 c2 c3 value s2 s3)
  else if param =? 5 then Some (Errors c1 c2 c3 s1 value s3)
  else if param =? 6 then Some (Errors c1 c2 c3 s1 s2 value)
  else None.

Definition lpaCoreMemorySetParamGenerateErr (param value : Z) : M memory bool :=
  let* g := get_globals in
  match set_error param value (err g) with
  | Some e => set_globals (Memory (stat g) e (ptrMemoryBlockInformation g)
                             (ptrMemoryAllocationInformation g)) ;; ret true
  | None => ret false
  end.

(** The value stored through [ptrValue], when the result is true. *)
Definition lpaCoreMemoryGetParamGenerateErr (param : Z) : M memory (option Z) :=
  let* g := get_globals in
  let '(Errors c1 c2 c3 s1 s2 s3) := err g in
  ret (if param =? 1 then Some c1 else if param =? 2 then Some c2
       else if param =? 3 then Some c3 else if param =? 4 then Some s1
       else if param =? 5 then Some s2 else if param =? 6 then Some s3 else None).

Definition _isSimulateMemoryErrorAllocation (g : memory) (size : Z) : bool :=
  let e := err g in
  let n := countMemoryAllocCall (stat g) in
  ((counterEQ e >? 0) && (n =? counterEQ e))
  || ((counterGT e >? 0) && (n >? counterGT e))
  || ((counterGE e >? 0) && (n >=? counterGE e))
  || ((sizeEQ e >? 0) && (size =? u64 (sizeEQ e)))
  || ((sizeGT e >? 0) && (size >? u64 (sizeGT e)))
  || ((sizeGE e >? 0) && (size >=? u64 (sizeGE e))).

(** ** [malloc] and [free] *)

(** The oracle of the world decides which calls of [malloc] fail; new cells
    are given the value [uninit], which no function of the file relies on. *)
Section allocator.
Context (uninit : Z).
(** [__FILE__] in lpa_memory.c. *)
Context (this_file : list Z).

Definition malloc (n : Z) : M memory ptr := λ w,
  let fail := match woracle w with true :: _ => true | _ => false end in
  let o := match woracle w with _ :: o => o | [] => [] end in
  if fail then Some (None, World (wheap w) o (wglobals w))
  else
    let l := fresh (dom (wheap w)) in
    Some (Some l, World (<[l := BBytes (fill uninit n)]> (wheap w)) o (wglobals w)).

(** [malloc] of a table that is never freed. *)
Definition malloc_table : M memory bool := λ w,
  let fail := match woracle w with true :: _ => true | _ => false end in
  let o := match woracle w with _ :: o => o | [] => [] end in
  Some (negb fail, World (wheap w) o (wglobals w)).

Definition free (p : ptr) : M memory unit := lpaCoreMemoryFree p.

(** [p[i] = v] and [p[i]] on a physical block. *)
Definition put (p : ptr) (i v : Z) : M memory unit :=
  let* bs := load_bytes p in
  let* bs' := of_option (bs.[i := v]) in
  store p (BBytes bs').
Definition get (p : ptr) (i : Z) : M memory Z :=
  let* bs := load_bytes p in of_option (bs.[i]).

(** ** Monitoring of the allocation sites *)

Definition _initMemoryAllocationMonitoring : M memory unit :=
  let* g := get_globals in
  (match ptrMemoryBlockInformation g with
   | Some _ => ret tt
   | None =>
       let* ok := malloc_table in
       if ok : bool then
         modify (λ g, with_tables
           (Some (replicate (Z.to_nat MAX_MEMORY_BLOCK_INFORMATION) free_block_record))
           (ptrMemoryAllocationInformation g) g)
       else ret tt
   end) ;;
  (match ptrMemoryAllocationInformation g with
   | Some _ => ret tt
   | None =>
       let* ok := malloc_table in
       if ok : bool then
         modify (λ g, with_tables (ptrMemoryBlockInformation g)
           (Some (replicate (Z.to_nat MAX_MEMORY_ALLOCATION_INFORMATION) free_alloc_record)) g)
       else ret tt
   end).

(** The [for] loops with [break]: first index that satisfies the test. *)
Fixpoint search {A} (p : A → bool) (l : list A) (i : Z) : Z :=
  match l with
  | [] => INVALID_MONITORING_INDEX
  | x :: l' => if p x then i else search p l' (i + 1)
  end.

(** The name a record keeps: the last characters of a long path. *)
Definition shortFileName (f : list Z) : list Z :=
  if zlen f <? ALLOCATION_FILE_NAME_SIZE
  then snprintf ALLOCATION_FILE_NAME_SIZE f
  else snprintf ALLOCATION_FILE_NAME_SIZE (drop (Z.to_nat (zlen f - ALLOCATION_FILE_NAME_SIZE)) f).

(** Steps 1 and 2: the record of the call site, or a free one. *)
Definition search_site (ai : list MEMORY_ALLOCATION_INFORMATION) (f : list Z) (line : Z) : Z :=
  let i := search (λ r, (allocationCounter r >? 0) && (allocationLine r =? u64 line)
                        && streqb (shortFileName f) (allocationFileName r)) ai 0 in
  if i =? INVALID_MONITORING_INDEX then search (λ r, allocationCounter r =? 0) ai 0 else i.

(** Step 3. *)
Definition record_site (ai : list MEMORY_ALLOCATION_INFORMATION) (i : Z) (f : list Z) (line : Z)
  : option (list MEMORY_ALLOCATION_INFORMATION) :=
  if i =? INVALID_MONITORING_INDEX then Some ai
  else
    r ← ai.[i];
    if allocationCounter r =? 0
    then ai.[i := AllocationInformation (shortFileName f) (u64 line) 1]
    else ai.[i := AllocationInformation (allocationFileName r) (allocationLine r)
                    (u64 (allocationCounter r + 1))].

Definition _addMemoryAllocationMonitoring (f : list Z) (line : Z) (ptrMem : ptr) (size : Z)
  : M memory Z :=
  let* g := get_globals in
  match ptrMemoryAllocationInformation g, ptrMemoryBlockInformation g with
  | Some ai, Some bi =>
      if isNull ptrMem then ret INVALID_MONITORING_INDEX
      else
        let j := search_site ai f line in
        let* ai' := of_option (record_site ai j f line) in
        let i := search (λ r, isNull (memoryBlockAllocated r)) bi 0 in
        let* bi' := of_option
          (if i =? INVALID_MONITORING_INDEX then Some bi
           else bi.[i := BlockInformation ptrMem size j]) in
        set_globals (with_tables (Some bi') (Some ai') g) ;;
        ret i
  | _, _ => ret INVALID_MONITORING_INDEX
  end.

Definition _freeMemoryAllocationMonitoring (p : ptr) (index : Z) : M memory unit :=
  let* g := get_globals in
  match ptrMemoryAllocationInformation g, ptrMemoryBlockInformation g with
  | Some ai, Some bi =>
      if isNull p then ret tt
      else if negb (index =? INVALID_MONITORING_INDEX) && (index <? MAX_MEMORY_BLOCK_INFORMATION)
      then
        let* r := of_option (bi.[index]) in
        if bool_decide (memoryBlockAllocated r = p) then
          let j := indexMemoryAllocationInformation r in
          let* ai' :=
            (if negb (j =? INVALID_MONITORING_INDEX) && (j <? MAX_MEMORY_ALLOCATION_INFORMATION)
             then
               let* s := of_option (ai.[j]) in
               if allocationCounter s >? 0
               then of_option (ai.[j := AllocationInformation (allocationFileName s)
                                          (allocationLine s) (allocationCounter s - 1)])
               else ret ai
             else ret ai) in
          let* bi' := of_option
            (bi.[index := BlockInformation None (memorySize r) INVALID_MONITORING_INDEX]) in
          set_globals (with_tables (Some bi') (Some ai') g)
        else ret tt
      else ret tt
  | _, _ => ret tt
  end.

(** The site of a live block, when it is known. *)
Definition _getMemoryAllocationInformation (index : Z)
  : M memory (option MEMORY_ALLOCATION_INFORMATION) :=
  let* g := get_globals in
  match ptrMemoryAllocationInformation g, ptrMemoryBlockInformation g with
  | Some ai, Some bi =>
      if negb (index =? INVALID_MONITORING_INDEX) && (index <? MAX_MEMORY_BLOCK_INFORMATION)
      then
        let* r := of_option (bi.[index]) in
        let j := indexMemoryAllocationInformation r in
        if negb (j =? INVALID_MONITORING_INDEX) && (j <? MAX_MEMORY_ALLOCATION_INFORMATION)
        then
          let* s := of_option (ai.[j]) in
          ret (if allocationCounter s >? 0 then Some s else None)
        else ret None
      else ret None
  | _, _ => ret None
  end.

(** The block reported as the one before [p], for overruns of a neighbour:
    the loop compares addresses, which the order on locations stands for.
    The table is read without a test for [NULL]. *)
Fixpoint before_loop (bi : list MEMORY_BLOCK_INFORMATION) (i : Z) (p : positive) (found : Z)
  : positive * Z :=
  match bi with
  | [] => (p, found)
  | r :: bi' =>
      match memoryBlockAllocated r with
      | Some b => if (b <? p)%positive then before_loop bi' (i + 1) b i
                  else before_loop bi' (i + 1) p found
      | None => before_loop bi' (i + 1) p found
      end
  end.

Definition _writeLogMemoryAllocationBlockBefore (p : ptr)
  : M memory (option (positive * Z * option MEMORY_ALLOCATION_INFORMATION)) :=
  match p with
  | None => ret None
  | Some l =>
      let* g := get_globals in
      let* bi := of_option (ptrMemoryBlockInformation g) in
      let '(b, i) := before_loop bi 0 l INVALID_MONITORING_INDEX in
      if i =? INVALID_MONITORING_INDEX then ret None
      else
        let* r := of_option (bi.[i]) in
        let j := indexMemoryAllocationInformation r in
        if j =? INVALID_MONITORING_INDEX then ret (Some (b, memorySize r, None))
        else
          let* ai := of_option (ptrMemoryAllocationInformation g) in
          let* s := of_option (ai.[j]) in
          ret (Some (b, memorySize r, Some s))
  end.

(** ** Allocation *)

Definition count_alloc_call (c : counters) : counters :=
  Counters (s64 (countMemoryAllocCall c + 1)) (countMemoryFreeCall c)
    (currentMemoryBlockAllocated c) (currentMemoryAllocated c) (totalMemoryAllocated c)
    (maxMemoryAllocated c) (maxMemoryBlockAllocated c).

Definition count_alloc (size : Z) (c : counters) : counters :=
  let blocks := s64 (currentMemoryBlockAllocated c + 1) in
  let bytes := s64 (currentMemoryAllocated c + size) in
  Counters (countMemoryAllocCall c) (countMemoryFreeCall c) blocks bytes
    (s64 (totalMemoryAllocated c + size))
    (if bytes >? maxMemoryAllocated c then bytes else maxMemoryAllocated c)
    (if blocks >? maxMemoryBlockAllocated c then blocks else maxMemoryBlockAllocated c).

Definition _lpaCoreMemoryAlloc (size : Z) (isAllocationSource : bool)
    (ptrFileName : option (list Z)) (fileLine : Z) : M memory ptr :=
  let* g := get_globals in
  (if countMemoryAllocCall (stat g) =? 0 then _initMemoryAllocationMonitoring else ret tt) ;;
  modify (with_stat count_alloc_call) ;;
  if size >? 0 then
    let* g := get_globals in
    if negb (_isSimulateMemoryErrorAllocation g size) then
      let* ptrMem := malloc (u64 (size + 18)) in
      if isNull ptrMem then ret None
      else
        put ptrMem 0 0xA5 ;;
        put ptrMem 1 0x5A ;;
        put ptrMem 2 (u8 (Z.shiftr (Z.land size 0xFF000000) 24)) ;;
        put ptrMem 3 (u8 (Z.shiftr (Z.land size 0x00FF0000) 16)) ;;
        put ptrMem 4 (u8 (Z.shiftr (Z.land size 0x0000FF00) 8)) ;;
        put ptrMem 5 (u8 (Z.land size 0x000000FF)) ;;
        put ptrMem 6 0x11 ;;
        let* index :=
          match isAllocationSource, ptrFileName with
          | true, Some f => _addMemoryAllocationMonitoring f fileLine ptrMem size
          | _, _ => ret INVALID_MONITORING_INDEX
          end in
        put ptrMem 7 (u8 (Z.shiftr (Z.land index 0xFF0000) 16)) ;;
        put ptrMem 8 (u8 (Z.shiftr (Z.land index 0x00FF00) 8)) ;;
        put ptrMem 9 (u8 (Z.land index 0x0000FF)) ;;
        put ptrMem 10 0x00 ;;
        put ptrMem 11 0x00 ;;
        put ptrMem 12 0x00 ;;
        put ptrMem 13 0x00 ;;
        put ptrMem 14 0x16 ;;
        put ptrMem 15 0x64 ;;
        memcpy_to ptrMem 16 (fill MEMORY_CONTENT_INIT_PATTERN size) ;;
        put ptrMem (u64 (size + 16)) 0xAA ;;
        put ptrMem (u64 (size + 17)) 0x55 ;;
        modify (with_stat (count_alloc size)) ;;
        ret ptrMem
    else ret None
  else ret None.

(** The macro [lpaCoreMemoryAlloc] of the monitored build. *)
Definition lpaCoreMemoryMonitorAlloc (f : list Z) (line size : Z) : M memory ptr :=
  _lpaCoreMemoryAlloc size true (Some f) line.

Definition _lpaCoreMemoryCalloc (count size : Z) : M memory ptr :=
  let memorySizeRequested := u64 (count * size) in
  if memorySizeRequested >? 0 then
    let* p := lpaCoreMemoryMonitorAlloc this_file 734 memorySizeRequested in
    if isNull p then ret None
    else memcpy_to p 16 (fill 0 memorySizeRequested) ;; ret p
  else ret None.

Definition lpaCoreMemoryMonitorCalloc (f : list Z) (line count size : Z) : M memory ptr :=
  _lpaCoreMemoryCalloc count size.

(** ** Release *)

(** [a == p[i] && b == p[i + 1]], with C's short circuit. *)
Definition tag_is (p : ptr) (i a b : Z) : M memory bool :=
  let* x := get p i in
  if x =? a then let* y := get p (i + 1) in ret (y =? b) else ret false.

(** The size field; [p[2] << 24] is an [int] before it becomes a [size_t]. *)
Definition s32 (z : Z) : Z := (z + 2^31) mod 2^32 - 2^31.
Definition size_field (p : ptr) : M memory Z :=
  let* b2 := get p 2 in
  let* b3 := get p 3 in
  let* b4 := get p 4 in
  let* b5 := get p 5 in
  ret (u64 (u64 (s32 (Z.shiftl b2 24)) + Z.shiftl b3 16 + Z.shiftl b4 8 + b5)).

(** What the function reports in the log. *)
Inductive free_report :=
  | FreeNull | InvalidBeginTag | AlreadyFree | InvalidMiddleTag | InvalidEndTag
  | Freed (unused : Z) (site : option MEMORY_ALLOCATION_INFORMATION).

Definition count_free_call (c : counters) : counters :=
  Counters (countMemoryAllocCall c) (s64 (countMemoryFreeCall c + 1))
    (currentMemoryBlockAllocated c) (currentMemoryAllocated c) (totalMemoryAllocated c)
    (maxMemoryAllocated c) (maxMemoryBlockAllocated c).

Definition count_free (size : Z) (c : counters) : counters :=
  Counters (countMemoryAllocCall c) (countMemoryFreeCall c)
    (s64 (currentMemoryBlockAllocated c - 1)) (s64 (currentMemoryAllocated c - size))
    (totalMemoryAllocated c) (maxMemoryAllocated c) (maxMemoryBlockAllocated c).

(** Bytes at the end of the content that still hold the initial pattern;
    none is reported when they all do. *)
Fixpoint unused_loop (rcontent : list Z) (n : Z) : Z :=
  match rcontent with
  | [] => 0
  | b :: r => if negb (b =? MEMORY_CONTENT_INIT_PATTERN) then n else unused_loop r (n + 1)
  end.

Definition _lpaCoreMemoryFree (p : ptr) : M memory free_report :=
  modify (with_stat count_free_call) ;;
  if isNull p then ret FreeNull
  else
    let* begin := tag_is p 0 0xA5 0x5A in
    if begin : bool then
      let* status := get p 6 in
      if status =? 0x11 then
        let* memoryBlocSize := size_field p in
        let* middle := tag_is p 14 0x16 0x64 in
        if middle : bool then
          let* b7 := get p 7 in
          let* b8 := get p 8 in
          let* b9 := get p 9 in
          let indexMemoryBlock := Z.shiftl b7 16 + Z.shiftl b8 8 + b9 in
          let* site :=
            (if indexMemoryBlock =? 0xFFFFFF then ret None
             else
               let* site := _getMemoryAllocationInformation indexMemoryBlock in
               _freeMemoryAllocationMonitoring p indexMemoryBlock ;;
               ret site) in
          let* endTag := tag_is p (memoryBlocSize + 16) 0xAA 0x55 in
          if endTag : bool then
            modify (with_stat (count_free memoryBlocSize)) ;;
            let* content := memcpy_from p 16 memoryBlocSize in
            put p 6 0x22 ;;
            free p ;;
            ret (Freed (unused_loop (rev content) 0) site)
          else ret InvalidEndTag
        else ret InvalidMiddleTag
      else ret AlreadyFree
    else
      _writeLogMemoryAllocationBlockBefore p ;;
      ret InvalidBeginTag.

Definition lpaCoreMemoryMonitorFree (f : list Z) (line : Z) (p : ptr) : M memory unit :=
  _lpaCoreMemoryFree p ;; ret tt.

(** ** Reallocation *)

(** Size and validity of a block. *)
Definition _lpaCoreMemoryGetBlockSize (p : ptr) : M memory (Z * bool) :=
  if isNull p then ret (0, false)
  else
    let* begin := tag_is p 0 0xA5 0x5A in
    if begin : bool then
      let* status := get p 6 in
      if status =? 0x11 then
        let* memoryBlockSize := size_field p in
        let* endTag := tag_is p (memoryBlockSize + 16) 0xAA 0x55 in
        ret (memoryBlockSize, endTag)
      else ret (0, false)
    else
      _writeLogMemoryAllocationBlockBefore p ;;
      ret (0, false).

Definition _lpaCoreMemoryRealloc (p : ptr) (newSize : Z) : M memory ptr :=
  if isNull p then
    if newSize >? 0 then lpaCoreMemoryMonitorAlloc this_file 760 newSize else ret None
  else if newSize =? 0 then
    lpaCoreMemoryMonitorFree this_file 774 p ;; ret None
  else
    let* '(oldMemoryBlocSize, isValidMemoryBlock) := _lpaCoreMemoryGetBlockSize p in
    if isValidMemoryBlock : bool then
      if negb (oldMemoryBlocSize =? newSize) then
        let* q := lpaCoreMemoryMonitorAlloc this_file 786 newSize in
        (if isNull q then ret tt
         else
           let* old := memcpy_from p 16 (if newSize <? oldMemoryBlocSize then newSize
                                         else oldMemoryBlocSize) in
           memcpy_to q 16 old) ;;
        lpaCoreMemoryMonitorFree this_file 795 p ;;
        ret q
      else ret None
    else ret None.

Definition lpaCoreMemoryMonitorRealloc (f : list Z) (line : Z) (p : ptr) (newSize : Z)
  : M memory ptr := _lpaCoreMemoryRealloc p newSize.

(** ** Integrity check and leak report *)

Inductive block_error :=
  | ErrBeginTag | ErrStatus | ErrSize | ErrPadding | ErrMiddleTag | ErrEndTag.

(** The checks of one record, in order; the first failure is reported. *)
Definition check_block (p : ptr) (size : Z) : M memory (option block_error) :=
  let* begin := tag_is p 0 0xA5 0x5A in
  if negb begin then _writeLogMemoryAllocationBlockBefore p ;; ret (Some ErrBeginTag)
  else
  let* status := get p 6 in
  if negb (status =? 0x11) then ret (Some ErrStatus)
  else
  let* memoryRegisteredSize := size_field p in
  if negb (memoryRegisteredSize =? size) then ret (Some ErrSize)
  else
  let* padding := tag_is p 10 0x00 0x00 in
  if negb padding then ret (Some ErrPadding)
  else
  let* middle := tag_is p 14 0x16 0x64 in
  if negb middle then ret (Some ErrMiddleTag)
  else
  let* endTag := tag_is p (u64 (size + 16)) 0xAA 0x55 in
  ret (if negb endTag then Some ErrEndTag else None).

Fixpoint check_loop (bi : list MEMORY_BLOCK_INFORMATION) : M memory (list (ptr * block_error)) :=
  match bi with
  | [] => ret []
  | r :: bi' =>
      match memoryBlockAllocated r with
      | None => check_loop bi'
      | Some _ =>
          let* e := check_block (memoryBlockAllocated r) (memorySize r) in
          let* es := check_loop bi' in
          ret (match e with Some e => (memoryBlockAllocated r, e) :: es | None => es end)
      end
  end.

(** The table is read without a test for [NULL]. *)
Definition _lpaCoreMemoryCheckMemoryAllocated : M memory (list (ptr * block_error)) :=
  let* g := get_globals in
  let* bi := of_option (ptrMemoryBlockInformation g) in
  check_loop bi.

(** The sites with live blocks and those blocks, as dumped in the log. *)
Definition lpaCoreMemoryDumpStatusIntoLog (g : memory)
  : list (MEMORY_ALLOCATION_INFORMATION * list (ptr * Z)) :=
  match ptrMemoryAllocationInformation g, ptrMemoryBlockInformation g with
  | Some ai, Some bi =>
      omap (λ '(j, s),
        if allocationCounter s >? 0 then
          Some (s, omap (λ r,
            if (indexMemoryAllocationInformation r =? Z.of_nat j)
               && negb (isNull (memoryBlockAllocated r))
            then Some (memoryBlockAllocated r, memorySize r) else None) bi)
        else None) (imap pair ai)
  | _, _ => []
  end.

End allocator.

(** ** The layout of a block *)

Definition be24 (n : Z) : list Z := [n / 65536 mod 256; n / 256 mod 256; n mod 256].
Definition be32 (n : Z) : list Z := n / 16777216 mod 256 :: be24 n.
Definition header (index size : Z) : list Z :=
  0xA5 :: 0x5A :: be32 size ++ 0x11 :: be24 index ++ [0; 0; 0; 0; 0x16; 0x64].
Definition trailer : list Z := [0xAA; 0x55].
Definition frame (index : Z) (content : list Z) : list Z :=
  header index (zlen content) ++ content ++ trailer.

Lemma frame_zlen i c : zlen (frame i c) = zlen c + 18.
Proof. unfold frame, header, be32, be24, trailer. zlia. Qed.

(** ** Running the primitives *)

Implicit Types (h : heap) (o : list bool) (g : memory).

Lemma bnd_eq {G A B} (m : M G A) (k : A → M G B) w a w' :
  m w = Some (a, w') → bnd m k w = k a w'.
Proof. intros E. unfold bnd. rewrite E. done. Qed.

Lemma get_eq l bs v i h o g :
  h !! l = Some (BBytes bs) → bs.[i] = Some v →
  get (Some l) i (World h o g) = Some (v, World h o g).
Proof.
  intros E Hv. unfold get, load_bytes, load, bnd. cbn. rewrite E. cbn. by rewrite Hv.
Qed.

Lemma put_eq l bs i v h o g :
  0 <= i < zlen bs →
  put (Some l) i v (World (<[l := BBytes bs]> h) o g)
  = Some (tt, World (<[l := BBytes (<[Z.to_nat i := v]> bs)]> h) o g).
Proof.
  intros Hi. unfold put, load_bytes, load, store, bnd. cbn.
  rewrite lookup_insert_eq. cbn. rewrite wr_Some by done. cbn.
  rewrite lookup_insert_eq. cbn. rewrite zlen_insert, Z.eqb_refl.
  by rewrite insert_insert_eq.
Qed.

Lemma put_live l bs i v h o g :
  h !! l = Some (BBytes bs) → 0 <= i < zlen bs →
  put (Some l) i v (World h o g)
  = Some (tt, World (<[l := BBytes (<[Z.to_nat i := v]> bs)]> h) o g).
Proof.
  intros E Hi. pose proof (put_eq l bs i v h o g Hi) as P.
  by rewrite (insert_id h l (BBytes bs) E) in P.
Qed.

Lemma memcpy_to_eq {G} l bs i vs bs' h o (g : G) :
  wr_range bs i vs = Some bs' →
  memcpy_to (Some l) i vs (World (<[l := BBytes bs]> h) o g)
  = Some (tt, World (<[l := BBytes bs']> h) o g).
Proof.
  intros Hi. unfold memcpy_to, load_bytes, load, store, bnd. cbn.
  rewrite lookup_insert_eq. cbn. rewrite Hi. cbn.
  rewrite lookup_insert_eq. cbn. rewrite <-(wr_range_zlen _ _ _ _ Hi), Z.eqb_refl.
  by rewrite insert_insert_eq.
Qed.

Lemma memcpy_from_eq {G} l bs i n vs h o (g : G) :
  h !! l = Some (BBytes bs) → rd_range bs i n = Some vs →
  memcpy_from (Some l) i n (World h o g) = Some (vs, World h o g).
Proof.
  intros E Hv. unfold memcpy_from, load_bytes, load, bnd. cbn. rewrite E. cbn. by rewrite Hv.
Qed.

Lemma tag_is_eq l bs i a b x y h o g :
  h !! l = Some (BBytes bs) → bs.[i] = Some x → bs.[i + 1] = Some y →
  tag_is (Some l) i a b (World h o g) = Some ((x =? a) && (y =? b), World h o g).
Proof.
  intros E Hx Hy. unfold tag_is. rewrite (bnd_eq _ _ _ _ _ (get_eq _ _ _ _ _ _ _ E Hx)).
  destruct (x =? a); [|done].
  by rewrite (bnd_eq _ _ _ _ _ (get_eq _ _ _ _ _ _ _ E Hy)).
Qed.

(** The cells of a well-formed block. *)
Lemma frame_header i c k v : header i (zlen c) !! k = Some v → frame i c !! k = Some v.
Proof. intros E. unfold frame. by apply lookup_app_l_Some. Qed.

Lemma frame_content i c n :
  0 <= n <= zlen c → rd_range (frame i c) 16 n = Some (take (Z.to_nat n) c).
Proof.
  intros Hn. rewrite rd_range_Some; [|lia|lia|rewrite frame_zlen; lia].
  unfold frame. rewrite drop_app_length' by done.
  rewrite take_app_le; [done|]. unfold zlen in *. lia.
Qed.

Lemma frame_read i c off n vs :
  rd_range c off n = Some vs → rd_range (frame i c) (16 + off) n = Some vs.
Proof.
  intros E. destruct (rd_range_length _ _ _ _ E) as (_ & Ho & Hn & Hle).
  rewrite rd_range_Some in E by done. rewrite <-E.
  rewrite rd_range_Some by (rewrite ?frame_zlen; lia). f_equal.
  unfold frame. rewrite drop_app, drop_ge by (cbn; lia).
  replace (Z.to_nat (16 + off) - _)%nat with (Z.to_nat off) by (cbn; lia). cbn [app].
  unfold zlen in *. rewrite drop_app_le by lia.
  apply take_app_le. rewrite length_drop. lia.
Qed.

Lemma frame_write i c off vs :
  0 <= off → off + zlen vs <= zlen c →
  ∃ c', wr_range c off vs = Some c' ∧ wr_range (frame i c) (16 + off) vs = Some (frame i c').
Proof.
  intros Ho Hn. rewrite (wr_range_Some c) by done. eexists; split; [done|].
  rewrite wr_range_Some; [|lia|rewrite frame_zlen; lia]. f_equal.
  set (c' := take _ c ++ _).
  assert (zlen c' = zlen c) as Hc'.
  { unfold c'. rewrite !zlen_app, zlen_take, zlen_drop. zlen_pos. unfold zlen in *. lia. }
  unfold frame. rewrite Hc'.
  assert (length (header i (zlen c)) = 16%nat) as H16 by done.
  rewrite take_app, H16, take_ge by (rewrite H16; lia).
  rewrite drop_app, H16, drop_ge by (rewrite H16; lia). cbn [app].
  rewrite <-app_assoc. f_equal. unfold c'.
  replace (Z.to_nat (16 + off) - 16)%nat with (Z.to_nat off) by lia.
  replace (Z.to_nat (16 + off) + length vs - 16)%nat with (Z.to_nat off + length vs)%nat by lia.
  unfold zlen in *. rewrite take_app_le by lia. rewrite drop_app_le by lia.
  by rewrite <-!app_assoc.
Qed.

(** The size field of a block below 2 GB reads back as its size. *)
Lemma size_field_value n :
  0 <= n < 2^31 →
  u64 (u64 (s32 (Z.shiftl (n / 16777216 mod 256) 24)) + Z.shiftl (n / 65536 mod 256) 16
       + Z.shiftl (n / 256 mod 256) 8 + n mod 256) = n.
Proof.
  intros Hn. change (2^31) with 2147483648 in *.
  rewrite !Z.shiftl_mul_pow2 by lia. unfold u64, s32.
  change (2^64) with 18446744073709551616. change (2^31) with 2147483648.
  dlia.
Qed.

Lemma header_cells i n :
  header i n = [0xA5; 0x5A; n / 16777216 mod 256; n / 65536 mod 256; n / 256 mod 256; n mod 256;
                0x11; i / 65536 mod 256; i / 256 mod 256; i mod 256; 0; 0; 0; 0; 0x16; 0x64].
Proof. done. Qed.

Lemma frame_rd i c (k : nat) v :
  header i (zlen c) !! k = Some v → (frame i c).[Z.of_nat k] = Some v.
Proof. intros E. rewrite rd_nat. by apply frame_header. Qed.

(** Reading the header of a block, whatever follows it. *)
Section header_ops.
Context (l : positive) (i n : Z) (rest : list Z) (h : heap) (o : list bool) (g : memory).
Context (Hl : h !! l = Some (BBytes (header i n ++ rest))).

Lemma get_header (k : nat) v :
  header i n !! k = Some v → get (Some l) (Z.of_nat k) (World h o g) = Some (v, World h o g).
Proof.
  intros E. apply (get_eq _ _ _ _ _ _ _ Hl). rewrite rd_nat. by apply lookup_app_l_Some.
Qed.

Lemma tag_header (k : nat) a b :
  header i n !! k = Some a → header i n !! S k = Some b →
  tag_is (Some l) (Z.of_nat k) a b (World h o g) = Some (true, World h o g).
Proof.
  intros Ea Eb. unfold tag_is. rewrite (bnd_eq _ _ _ _ _ (get_header k a Ea)), Z.eqb_refl.
  replace (Z.of_nat k + 1) with (Z.of_nat (S k)) by lia.
  by rewrite (bnd_eq _ _ _ _ _ (get_header (S k) b Eb)), Z.eqb_refl.
Qed.

Lemma size_header :
  0 <= n < 2^31 → size_field (Some l) (World h o g) = Some (n, World h o g).
Proof.
  intros Hn. unfold size_field.
  rewrite (bnd_eq _ _ _ _ _ (get_header 2 _ eq_refl)).
  rewrite (bnd_eq _ _ _ _ _ (get_header 3 _ eq_refl)).
  rewrite (bnd_eq _ _ _ _ _ (get_header 4 _ eq_refl)).
  rewrite (bnd_eq _ _ _ _ _ (get_header 5 _ eq_refl)).
  unfold ret. by rewrite size_field_value.
Qed.
End header_ops.

(** Reading the tags around the content. *)
Section block_ops.
Context (l : positive) (i : Z) (c : list Z) (x y : Z) (h : heap) (o : list bool) (g : memory).
Context (Hl : h !! l = Some (BBytes (header i (zlen c) ++ c ++ [x; y]))).

Lemma end_block :
  tag_is (Some l) (zlen c + 16) 0xAA 0x55 (World h o g)
  = Some ((x =? 0xAA) && (y =? 0x55), World h o g).
Proof.
  assert (zlen (header i (zlen c)) = 16) as E16 by done.
  apply (tag_is_eq _ _ _ _ _ _ _ _ _ _ Hl); rewrite rd_app_r by (rewrite E16; zlia);
    rewrite E16, rd_app_r by zlia.
  - by replace (zlen c + 16 - 16 - zlen c) with 0 by lia.
  - by replace (zlen c + 16 + 1 - 16 - zlen c) with 1 by lia.
Qed.
End block_ops.

Section frame_ops.
Context (l : positive) (i : Z) (c : list Z) (h : heap) (o : list bool) (g : memory).
Context (Hl : h !! l = Some (BBytes (frame i c))).

Lemma get_frame (k : nat) v :
  header i (zlen c) !! k = Some v → get (Some l) (Z.of_nat k) (World h o g) = Some (v, World h o g).
Proof. apply (get_header l i (zlen c) (c ++ trailer) h o g Hl). Qed.

Lemma tag_frame (k : nat) a b :
  header i (zlen c) !! k = Some a → header i (zlen c) !! S k = Some b →
  tag_is (Some l) (Z.of_nat k) a b (World h o g) = Some (true, World h o g).
Proof. apply (tag_header l i (zlen c) (c ++ trailer) h o g Hl). Qed.

Lemma end_frame :
  tag_is (Some l) (zlen c + 16) 0xAA 0x55 (World h o g) = Some (true, World h o g).
Proof. apply (end_block l i c 0xAA 0x55 h o g Hl). Qed.

Lemma size_frame :
  zlen c < 2^31 → size_field (Some l) (World h o g) = Some (zlen c, World h o g).
Proof. intros Hc. apply (size_header l i (zlen c) (c ++ trailer) h o g Hl). zlia. Qed.
End frame_ops.

(** ** The site tables *)

Lemma search_spec {A} (p : A → bool) (t : list A) (i : Z) :
  search p t i = INVALID_MONITORING_INDEX
  ∨ ∃ k x, search p t i = i + Z.of_nat k ∧ t !! k = Some x ∧ p x = true.
Proof.
  revert i. induction t as [|x t IH]; intros i; [by left|]. cbn [search].
  destruct (p x) eqn:E; [right; exists 0%nat, x; split; [lia|done]|].
  destruct (IH (i + 1)) as [->|(k & y & -> & Hk & Hy)]; [by left|].
  right. exists (S k), y. split; [lia|done].
Qed.

Definition tables_ok (g : memory) : Prop :=
  (∀ bi, ptrMemoryBlockInformation g = Some bi → zlen bi = MAX_MEMORY_BLOCK_INFORMATION) ∧
  (∀ ai, ptrMemoryAllocationInformation g = Some ai → zlen ai = MAX_MEMORY_ALLOCATION_INFORMATION).

(** Index of a site record, as stored in a block record. *)
Definition site_ok (j : Z) : Prop :=
  j = INVALID_MONITORING_INDEX ∨ 0 <= j < MAX_MEMORY_ALLOCATION_INFORMATION.

Lemma search_site_ok ai f line :
  zlen ai = MAX_MEMORY_ALLOCATION_INFORMATION → site_ok (search_site ai f line).
Proof.
  intros Hai. unfold search_site.
  assert (∀ p, site_ok (search p ai 0)) as Hs.
  { intros p. destruct (search_spec p ai 0) as [->|(k & x & -> & Hk & _)]; [by left|right].
    apply lookup_lt_Some in Hk. unfold zlen in Hai. lia. }
  destruct (_ =? INVALID_MONITORING_INDEX); apply Hs.
Qed.

Lemma record_site_ok ai j f line :
  zlen ai = MAX_MEMORY_ALLOCATION_INFORMATION → site_ok j →
  ∃ ai', record_site ai j f line = Some ai' ∧ zlen ai' = zlen ai.
Proof.
  intros Hai [->|Hj]; unfold record_site.
  - by exists ai.
  - ztest; [by exists ai|]. destruct (rd_is_Some ai j) as (r & -> & _); [lia|]. cbn.
    ztest; rewrite wr_Some by lia; (eexists; split; [reflexivity|apply zlen_insert]).
Qed.

(** A block is recorded in a free slot, or not at all. *)
Inductive recorded (l : positive) (size : Z) (g : memory) : Z → memory → Prop :=
  | not_recorded bi' ai' :
      bi' = ptrMemoryBlockInformation g →
      (is_Some (ptrMemoryAllocationInformation g) → is_Some ai') →
      recorded l size g INVALID_MONITORING_INDEX (with_tables bi' ai' g)
  | recorded_at bi ai' (k : nat) r j :
      ptrMemoryBlockInformation g = Some bi →
      bi !! k = Some r → memoryBlockAllocated r = None →
      Z.of_nat k < MAX_MEMORY_BLOCK_INFORMATION → site_ok j →
      recorded l size g (Z.of_nat k)
        (with_tables (Some (<[k := BlockInformation (Some l) size j]> bi)) (Some ai') g).

Lemma recorded_stat l size g i g' : recorded l size g i g' → stat g' = stat g ∧ err g' = err g.
Proof. by destruct 1. Qed.

Lemma with_tables_same g :
  with_tables (ptrMemoryBlockInformation g) (ptrMemoryAllocationInformation g) g = g.
Proof. by destruct g. Qed.

Lemma add_recorded f line l size o g :
  tables_ok g →
  ∃ i g', (∀ h, _addMemoryAllocationMonitoring f line (Some l) size (World h o g)
                = Some (i, World h o g')) ∧ recorded l size g i g' ∧ tables_ok g'.
Proof.
  intros [Hbi Hai]. unfold _addMemoryAllocationMonitoring.
  setoid_rewrite (bnd_eq get_globals _ _ g (World _ o g)); [|done].
  destruct (ptrMemoryAllocationInformation g) as [ai|] eqn:Ea;
    [destruct (ptrMemoryBlockInformation g) as [bi|] eqn:Eb|].
  2,3: exists INVALID_MONITORING_INDEX, g; split_and!;
    [done|rewrite <-(with_tables_same g) at 2; by constructor|by split; rewrite ?Ea, ?Eb].
  cbn [isNull]. specialize (Hbi _ eq_refl). specialize (Hai _ eq_refl).
  pose proof (search_site_ok ai f line Hai) as Hj.
  destruct (record_site_ok ai _ f line Hai Hj) as (ai' & Er & Hai').
  setoid_rewrite (λ h, bnd_eq (of_option (record_site ai _ f line)) _ (World h o g) ai'
    (World h o g) ltac:(unfold of_option; by rewrite Er)).
  destruct (search_spec (λ r, isNull (memoryBlockAllocated r)) bi 0)
    as [Es|(k & r & Es & Hk & Hr)]; rewrite Es; unfold INVALID_MONITORING_INDEX at 1.
  - eexists _, _. split; [done|]. split; [by constructor|].
    split; cbn; intros ? [= <-]; lia.
  - pose proof (lookup_lt_Some _ _ _ Hk). unfold zlen in Hbi.
    unfold MAX_MEMORY_BLOCK_INFORMATION in *.
    zfalse (0 + Z.of_nat k =? 0xFFFFFF).
    rewrite wr_Some by (unfold zlen; lia).
    replace (0 + Z.of_nat k) with (Z.of_nat k) by lia. rewrite Nat2Z.id.
    eexists _, _. split; [done|]. split.
    + econstructor; try done; [by destruct (memoryBlockAllocated r)|].
      unfold MAX_MEMORY_BLOCK_INFORMATION. lia.
    + split; cbn; intros ? [= <-]; [|by rewrite Hai'].
      by rewrite zlen_insert.
Qed.

(** ** The invariant *)

(** Sum of the sizes of the live blocks. *)
Definition live_bytes (h : heap) : Z := map_fold (λ _ b n, sizeof b - 18 + n) 0 h.
Arguments live_bytes : simpl never.
Arguments s64 : simpl never.
Arguments frame : simpl never.

(** Bytes the user of a block sees. *)
Definition payload (b : block) : block :=
  match b with
  | BBytes bs => BBytes (take (length bs - 18) (drop 16 bs))
  | b => b
  end.

Definition contents (h : heap) : heap := payload <$> h.

(** Every block on the heap has the layout, and every record of the block
    table is that of a live block which holds the record's index. *)
Record wf (h : heap) (g : memory) : Prop := Wf {
  wf_tables : tables_ok g;
  wf_blocks l b : h !! l = Some b →
    ∃ i c, b = BBytes (frame i c) ∧ 0 <= i < 2^24 ∧ 0 < zlen c < 2^31;
  wf_sites bi k r :
    ptrMemoryBlockInformation g = Some bi → bi !! k = Some r →
    site_ok (indexMemoryAllocationInformation r);
  wf_records bi k r l :
    ptrMemoryBlockInformation g = Some bi → bi !! k = Some r → memoryBlockAllocated r = Some l →
    is_Some (ptrMemoryAllocationInformation g) ∧
    ∃ c, h !! l = Some (BBytes (frame (Z.of_nat k) c)) ∧ memorySize r = zlen c;
  wf_count : currentMemoryBlockAllocated (stat g) = s64 (Z.of_nat (size h));
  wf_bytes : currentMemoryAllocated (stat g) = s64 (live_bytes h)
}.

Lemma s64_add a b : s64 (s64 a + b) = s64 (a + b).
Proof. unfold s64. change (2^63) with 9223372036854775808. change (2^64) with 18446744073709551616. dlia. Qed.

Lemma payload_frame i c : payload (BBytes (frame i c)) = BBytes c.
Proof.
  unfold payload. f_equal. unfold frame.
  rewrite drop_app_length' by done. rewrite take_app_le.
  - rewrite take_ge; [done|]. rewrite !length_app. cbn. lia.
  - rewrite !length_app. cbn. lia.
Qed.

Lemma live_bytes_insert h l i c :
  h !! l = None → live_bytes (<[l := BBytes (frame i c)]> h) = live_bytes h + zlen c.
Proof.
  intros E. unfold live_bytes. rewrite map_fold_insert_L; [|intros; lia|done].
  cbn [sizeof]. rewrite frame_zlen. lia.
Qed.

Lemma live_bytes_delete h l i c :
  h !! l = Some (BBytes (frame i c)) → live_bytes (delete l h) = live_bytes h - zlen c.
Proof.
  intros E. rewrite <-(insert_delete_id h l (BBytes (frame i c)) E) at 2.
  rewrite live_bytes_insert by apply lookup_delete_eq. lia.
Qed.

Lemma live_bytes_update h l i c i' c' :
  h !! l = Some (BBytes (frame i c)) → zlen c' = zlen c →
  live_bytes (<[l := BBytes (frame i' c')]> h) = live_bytes h.
Proof.
  intros E Hc. rewrite <-(insert_delete_id h l _ E) at 2.
  rewrite <-insert_delete_eq, !live_bytes_insert by apply lookup_delete_eq. lia.
Qed.

Lemma fresh_heap h : h !! fresh (dom h) = None.
Proof. apply not_elem_of_dom, is_fresh. Qed.

(** *** Initialisation *)

Lemma init_ok h o g :
  wf h g →
  ∃ o' g', _initMemoryAllocationMonitoring (World h o g) = Some (tt, World h o' g') ∧
           wf h g' ∧ stat g' = stat g ∧ err g' = err g.
Proof.
  intros [[Hb Ha] H1 Hs H2 H3 H4].
  unfold _initMemoryAllocationMonitoring, bnd, get_globals, ret, malloc_table, modify, set_globals.
  cbn. destruct g as [st er bi ai]. cbn in *.
  assert (∀ k r (l : positive), replicate (Z.to_nat MAX_MEMORY_BLOCK_INFORMATION) free_block_record !! k = Some r
            → memoryBlockAllocated r = Some l → False) as Hno.
  { intros k r l [-> _]%lookup_replicate. done. }
  assert (∀ k r, replicate (Z.to_nat MAX_MEMORY_BLOCK_INFORMATION) free_block_record !! k = Some r
            → site_ok (indexMemoryAllocationInformation r)) as Hsite.
  { intros k r [-> _]%lookup_replicate. by right. }
  assert (∀ A (x : A) n, 0 <= n → zlen (replicate (Z.to_nat n) x) = n) as Hrep.
  { intros. rewrite zlen_replicate. lia. }
  destruct bi as [bi|], ai as [ai|]; cbn;
    repeat match goal with |- context [negb ?b] => destruct b; cbn end;
    (eexists _, _; split; [reflexivity|split; [|split; reflexivity]]);
    split; cbn; try done; try (by split);
    try (intros ? ? ? ? [= <-] Hk Hl; by destruct (Hno _ _ _ Hk Hl));
    try (intros ? ? ? [= <-]; by apply Hsite);
    try (intros ? ? ? ? Hb' Hk Hl; destruct (H2 _ _ _ _ Hb' Hk Hl) as [_ ?]; split; [by eexists|done]);
    split; cbn; intros ? [= <-]; auto; by apply Hrep.
Qed.

(** *** Running an allocation *)

Lemma fill_split v n :
  0 <= n → fill v (n + 18) = replicate 16 v ++ replicate (Z.to_nat n) v ++ [v; v].
Proof.
  intros Hn. unfold fill. change [v; v] with (replicate 2 v).
  rewrite <-!replicate_add. f_equal. lia.
Qed.

Lemma size_byte n k : 0 <= k → u8 (Z.shiftr (Z.land n (Z.shiftl 0xFF k)) k) = n / 2^k mod 256.
Proof. intros Hk. rewrite land_mask_shiftr by done. unfold u8. pows. by rewrite Zmod_mod. Qed.

(** A live block whose sixteen first cells are known. *)
Ltac put_step :=
  erewrite bnd_eq; [|apply put_eq; unfold header, be32, be24, trailer; zlia].

(** The writes of [_lpaCoreMemoryAlloc] give a block its layout. *)
Lemma index_bytes i :
  u8 (Z.shiftr (Z.land i 0xFF0000) 16) = i / 65536 mod 256 ∧
  u8 (Z.shiftr (Z.land i 0x00FF00) 8) = i / 256 mod 256 ∧
  u8 (Z.land i 0x0000FF) = i mod 256.
Proof.
  split_and!; [exact (size_byte i 16 ltac:(lia))|exact (size_byte i 8 ltac:(lia))|].
  rewrite land_255. unfold u8. pows. by rewrite Zmod_mod.
Qed.

Lemma alloc_writes {B} u size l h o g (mon : M memory Z) i g' (k : M memory B) :
  0 < size < 2^31 →
  (∀ h', mon (World h' o g) = Some (i, World h' o g')) →
  (put (Some l) 0 0xA5 ;;
   put (Some l) 1 0x5A ;;
   put (Some l) 2 (u8 (Z.shiftr (Z.land size 0xFF000000) 24)) ;;
   put (Some l) 3 (u8 (Z.shiftr (Z.land size 0x00FF0000) 16)) ;;
   put (Some l) 4 (u8 (Z.shiftr (Z.land size 0x0000FF00) 8)) ;;
   put (Some l) 5 (u8 (Z.land size 0x000000FF)) ;;
   put (Some l) 6 0x11 ;;
   let* index := mon in
   put (Some l) 7 (u8 (Z.shiftr (Z.land index 0xFF0000) 16)) ;;
   put (Some l) 8 (u8 (Z.shiftr (Z.land index 0x00FF00) 8)) ;;
   put (Some l) 9 (u8 (Z.land index 0x0000FF)) ;;
   put (Some l) 10 0x00 ;;
   put (Some l) 11 0x00 ;;
   put (Some l) 12 0x00 ;;
   put (Some l) 13 0x00 ;;
   put (Some l) 14 0x16 ;;
   put (Some l) 15 0x64 ;;
   memcpy_to (Some l) 16 (fill MEMORY_CONTENT_INIT_PATTERN size) ;;
   put (Some l) (u64 (size + 16)) 0xAA ;;
   put (Some l) (u64 (size + 17)) 0x55 ;; k)
    (World (<[l := BBytes (fill u (size + 18))]> h) o g)
  = k (World (<[l := BBytes (frame i (new_bytes size))]> h) o g').
Proof.
  intros Hs Hmon. rewrite fill_split by lia.
  destruct (index_bytes size) as (E1 & E2 & E3). 
  pose proof (size_byte size 24 ltac:(lia)) as E0. change (Z.shiftl 0xFF 24) with 0xFF000000 in E0.
  rewrite E0, E1, E2, E3. clear E0 E1 E2 E3.
  do 7 put_step. rewrite (bnd_eq mon _ _ i _ (Hmon _)).
  destruct (index_bytes i) as (-> & -> & ->).
  do 9 put_step.
  match goal with |- bnd _ _ (World (<[l := BBytes ?bs]> h) o g') = _ =>
    change bs with (header i size ++ replicate (Z.to_nat size) u ++ [u; u]) end.
  erewrite bnd_eq; [|apply memcpy_to_eq; apply wr_range_mid with (l := header i size)].
  2: unfold fill; by rewrite !length_replicate.
  assert (zlen (fill MEMORY_CONTENT_INIT_PATTERN size) = size) as Ez
    by (unfold fill; rewrite zlen_replicate; lia).
  assert (u64 (size + 16) = size + 16 ∧ u64 (size + 17) = size + 17) as [-> ->].
  { unfold u64. change (2^64) with 18446744073709551616. split; dlia. }
  set (c := fill _ _) in *.
  assert (∀ x y v k, k = size + 16 →
    <[Z.to_nat k := v]> (header i size ++ c ++ [x; y]) = header i size ++ c ++ [v; y]) as I1.
  { intros x y v ? ->. rewrite insert_app_r_alt by (cbn; lia).
    rewrite insert_app_r_alt by (unfold zlen in Ez; cbn; lia).
    by replace (_ - _)%nat with 0%nat by (unfold zlen in Ez; cbn; lia). }
  assert (∀ x y v k, k = size + 17 →
    <[Z.to_nat k := v]> (header i size ++ c ++ [x; y]) = header i size ++ c ++ [x; v]) as I2.
  { intros x y v ? ->. rewrite insert_app_r_alt by (cbn; lia).
    rewrite insert_app_r_alt by (unfold zlen in Ez; cbn; lia).
    by replace (_ - _)%nat with 1%nat by (unfold zlen in Ez; cbn; lia). }
  put_step. rewrite I1 by done. put_step. rewrite I2 by done.
  unfold frame. change (new_bytes size) with c. by rewrite Ez.
Qed.

Lemma wf_insert l c i h g g' :
  wf h g → h !! l = None → 0 < zlen c < 2^31 →
  recorded l (zlen c) g i g' → tables_ok g' →
  wf (<[l := BBytes (frame i c)]> h) (with_stat (count_alloc (zlen c)) g').
Proof.
  intros [_ Hb Hsite Hr Hn Ht] Hl Hc Hrec Htab.
  assert (stat g' = stat g ∧ 0 <= i < 2^24) as [Est Hi].
  { destruct Hrec as [|bi ai' k r j _ _ _ Hk _]; split; try done.
    unfold MAX_MEMORY_BLOCK_INFORMATION in Hk. pows. lia. }
  split; [done| | | |cbn; rewrite Est..].
  - intros l' b. rewrite lookup_insert_Some.
    intros [[<- <-]|[_ E]]; [by exists i, c|by apply (Hb l')].
  - cbn. intros bi k r Ebi Hk.
    destruct Hrec as [bi0 ai' -> Hai|bi0 ai' k0 r0 j E0 Hk0 Hfree Hlt Hj]; [by eapply Hsite|].
    cbn in Ebi. injection Ebi as <-.
    apply list_lookup_insert_Some in Hk as [(<- & <- & _)|[Hne Hk]]; [done|by eapply Hsite].
  - cbn. intros bi k r l' Ebi Hk Hr'.
    destruct Hrec as [bi0 ai' -> Hai|bi0 ai' k0 r0 j E0 Hk0 Hfree Hlt Hj].
    + destruct (Hr bi k r l' Ebi Hk Hr') as (? & c' & E' & ?).
      split; [by apply Hai|]. exists c'. rewrite lookup_insert_ne by congruence. done.
    + cbn in Ebi. injection Ebi as <-.
      apply list_lookup_insert_Some in Hk as [(<- & <- & _)|[Hne Hk]].
      * cbn in Hr'. injection Hr' as <-. split; [done|]. exists c. rewrite lookup_insert_eq. done.
      * destruct (Hr bi0 k r l' E0 Hk Hr') as (? & c' & E' & ?).
        split; [done|]. exists c'. rewrite lookup_insert_ne by congruence. done.
  - rewrite Hn, s64_add, map_size_insert_None by done. f_equal. lia.
  - by rewrite Ht, s64_add, live_bytes_insert.
Qed.

Lemma wf_stat_other h g f :
  wf h g →
  (∀ c, currentMemoryBlockAllocated (f c) = currentMemoryBlockAllocated c ∧
        currentMemoryAllocated (f c) = currentMemoryAllocated c) →
  wf h (with_stat f g).
Proof.
  intros [H1 H2 H3 H4 H5 H6] Hf. destruct (Hf (stat g)) as [E1 E2].
  split; cbn; rewrite ?E1, ?E2; done.
Qed.

Lemma monitor_ok (src : bool) (f : option (list Z)) line l size o g :
  tables_ok g →
  ∃ i g', (∀ h, match src, f with
                | true, Some f => _addMemoryAllocationMonitoring f line (Some l) size
                | _, _ => ret INVALID_MONITORING_INDEX
                end (World h o g) = Some (i, World h o g')) ∧
          recorded l size g i g' ∧ tables_ok g'.
Proof.
  intros Hg. destruct src; [destruct f as [f|]; [by apply add_recorded|]|].
  all: exists INVALID_MONITORING_INDEX, g; split_and!; [done| |done].
  all: rewrite <-(with_tables_same g) at 2; by constructor.
Qed.

(** What an allocation may do. *)
Inductive allocated (size : Z) (h : heap) : ptr → heap → Prop :=
  | alloc_none : allocated size h None h
  | alloc_some i :
      0 < size →
      allocated size h (Some (fresh (dom h)))
        (<[fresh (dom h) := BBytes (frame i (new_bytes size))]> h).

Lemma new_bytes_zlen n : 0 <= n → zlen (new_bytes n) = n.
Proof. intros. unfold new_bytes, fill. rewrite zlen_replicate. lia. Qed.

(** Whether the next [malloc] fails, and the oracle after it. *)
Definition next_fails o : bool := match o with true :: _ => true | _ => false end.
Definition next_oracle o : list bool := match o with _ :: o => o | [] => [] end.

Lemma malloc_run u n h o g :
  malloc u n (World h o g) =
  if next_fails o then Some (None, World h (next_oracle o) g)
  else Some (Some (fresh (dom h)),
             World (<[fresh (dom h) := BBytes (fill u n)]> h) (next_oracle o) g).
Proof. by destruct o as [|[] o]. Qed.

(** The three outcomes of an allocation, once the tables are initialised. *)
Lemma outcome_run u size src f line h o g o1 g1 :
  (if countMemoryAllocCall (stat g) =? 0 then _initMemoryAllocationMonitoring
   else ret tt) (World h o g) = Some (tt, World h o1 g1) →
  tables_ok g1 → 0 <= size < 2^31 →
  let g2 := with_stat count_alloc_call g1 in
  if (size =? 0) || _isSimulateMemoryErrorAllocation g2 size
  then _lpaCoreMemoryAlloc u size src f line (World h o g) = Some (None, World h o1 g2)
  else if next_fails o1
  then _lpaCoreMemoryAlloc u size src f line (World h o g) = Some (None, World h (next_oracle o1) g2)
  else ∃ i g3,
    _lpaCoreMemoryAlloc u size src f line (World h o g)
    = Some (Some (fresh (dom h)),
            World (<[fresh (dom h) := BBytes (frame i (new_bytes size))]> h) (next_oracle o1)
                  (with_stat (count_alloc size) g3)) ∧
    recorded (fresh (dom h)) size g2 i g3 ∧ tables_ok g3.
Proof.
  intros E1 Htab Hs g2. unfold _lpaCoreMemoryAlloc.
  rewrite (bnd_eq get_globals _ _ g (World h o g)) by done.
  rewrite (bnd_eq _ _ _ _ _ E1), (bnd_eq _ _ _ tt (World h o1 g2)) by done.
  destruct (Z.eqb_spec size 0) as [->|Hne]; [done|]. ztrue (size >? 0). cbn [orb].
  rewrite (bnd_eq get_globals _ _ g2 (World h o1 g2)) by done.
  destruct (_isSimulateMemoryErrorAllocation g2 size); [done|]. cbn [negb].
  pose proof (malloc_run u (u64 (size + 18)) h o1 g2) as Em.
  destruct (next_fails o1); rewrite (bnd_eq _ _ _ _ _ Em); [done|]. cbn [isNull].
  assert (u64 (size + 18) = size + 18) as ->.
  { unfold u64. change (2^64) with 18446744073709551616. dlia. }
  destruct (monitor_ok src f line (fresh (dom h)) size (next_oracle o1) g2 Htab)
    as (i & g3 & Hmon & Hrec & Htab3).
  exists i, g3. rewrite (alloc_writes u size _ h _ g2 _ i g3) by (done || lia). done.
Qed.

Lemma init_run h o g :
  wf h g →
  ∃ o1 g1, (if countMemoryAllocCall (stat g) =? 0 then _initMemoryAllocationMonitoring
            else ret tt) (World h o g) = Some (tt, World h o1 g1) ∧ wf h g1.
Proof.
  intros Hwf. ztest; [|by exists o, g].
  destruct (init_ok h o g Hwf) as (o1 & g1 & -> & ? & _). by exists o1, g1.
Qed.

Lemma alloc_ok u size src f line h o g :
  wf h g → 0 <= size < 2^31 →
  ∃ r h' o' g', _lpaCoreMemoryAlloc u size src f line (World h o g)
                = Some (r, World h' o' g') ∧ wf h' g' ∧ allocated size h r h'.
Proof.
  intros Hwf Hs. destruct (init_run h o g Hwf) as (o1 & g1 & E1 & Hwf1).
  pose proof (outcome_run u size src f line h o g o1 g1 E1 (wf_tables _ _ Hwf1) Hs) as Hr.
  cbn zeta in Hr. set (g2 := with_stat count_alloc_call g1) in *.
  assert (wf h g2) as Hwf2 by (by apply wf_stat_other).
  destruct ((size =? 0) || _) eqn:E0; zprop;
    [by exists None, h, o1, g2; split_and!; [done|done|constructor]|].
  destruct (next_fails o1);
    [by exists None, h, (next_oracle o1), g2; split_and!; [done|done|constructor]|].
  destruct Hr as (i & g3 & -> & Hrec & Htab).
  eexists _, _, _, _. split; [reflexivity|]. split; [|by constructor; lia].
  replace (count_alloc size) with (count_alloc (zlen (new_bytes size)))
    by (by rewrite new_bytes_zlen by lia).
  apply wf_insert with (g := g2); rewrite ?new_bytes_zlen by lia; [done|apply fresh_heap|lia|done..].
Qed.

(** *** Running a release *)

(** The table after the record of a block has been cleared. *)
Record unrecorded (l : positive) (g g' : memory) : Prop := Unrecorded {
  un_stat : stat g' = stat g;
  un_tables : tables_ok g';
  un_sites bi' k r :
    ptrMemoryBlockInformation g' = Some bi' → bi' !! k = Some r →
    site_ok (indexMemoryAllocationInformation r);
  un_allocations :
    is_Some (ptrMemoryAllocationInformation g) → is_Some (ptrMemoryAllocationInformation g');
  un_records bi' k r l' :
    ptrMemoryBlockInformation g' = Some bi' → bi' !! k = Some r →
    memoryBlockAllocated r = Some l' →
    l' ≠ l ∧ ∃ bi, ptrMemoryBlockInformation g = Some bi ∧ bi !! k = Some r
}.

Lemma site_rd ai j :
  zlen ai = MAX_MEMORY_ALLOCATION_INFORMATION → site_ok j →
  negb (j =? INVALID_MONITORING_INDEX) && (j <? MAX_MEMORY_ALLOCATION_INFORMATION) = true →
  0 <= j < zlen ai ∧ ∃ s : MEMORY_ALLOCATION_INFORMATION, ai.[j] = Some s.
Proof.
  intros Hai [->|Hj] E; [done|]. split; [lia|].
  destruct (rd_is_Some ai j) as (s & ? & _); [lia|]. by exists s.
Qed.

Lemma getInformation_ok h h' g o index :
  wf h g → 0 <= index →
  ∃ s, _getMemoryAllocationInformation index (World h' o g) = Some (s, World h' o g).
Proof.
  intros [[Hb Ha] _ Hs _ _ _] Hi. unfold _getMemoryAllocationInformation.
  rewrite (bnd_eq _ _ _ g (World h' o g)) by done.
  destruct (ptrMemoryAllocationInformation g) as [ai|]; [|by eexists].
  destruct (ptrMemoryBlockInformation g) as [bi|]; [|by eexists].
  ztest; [|by eexists].
  destruct (rd_is_Some bi index) as (r & Er & _); [rewrite (Hb _ eq_refl); lia|].
  rewrite Er. rewrite (bnd_eq _ _ _ r (World h' o g)) by done.
  assert (site_ok (indexMemoryAllocationInformation r)) as Hsite.
  { unfold rd in Er. destruct (0 <=? index); [|done]. by eapply Hs. }
  destruct (negb (indexMemoryAllocationInformation r =? _) && _) eqn:Et; [|by eexists].
  destruct (site_rd ai _ (Ha _ eq_refl) Hsite Et) as (_ & s & ->). by eexists.
Qed.

Lemma frame_inj i i' c c' :
  frame i c = frame i' c' → 0 <= i < 2^24 → 0 <= i' < 2^24 → i = i' ∧ c = c'.
Proof.
  intros E Hi Hi'. split.
  - assert (∀ k, (frame i c).[k] = (frame i' c').[k]) as Ek by (by rewrite E).
    pose proof (Ek 7) as E7. pose proof (Ek 8) as E8. pose proof (Ek 9) as E9.
    rewrite !(frame_rd _ _ 7 _ eq_refl) in E7. rewrite !(frame_rd _ _ 8 _ eq_refl) in E8.
    rewrite !(frame_rd _ _ 9 _ eq_refl) in E9. injection E7. injection E8. injection E9. dlia.
  - assert (payload (BBytes (frame i c)) = payload (BBytes (frame i' c'))) as Ep by (by rewrite E).
    rewrite !payload_frame in Ep. by injection Ep.
Qed.

(** The record of a live block is at the index the block holds. *)
Lemma record_index h g bi k r l i c :
  wf h g → ptrMemoryBlockInformation g = Some bi → bi !! k = Some r →
  memoryBlockAllocated r = Some l → h !! l = Some (BBytes (frame i c)) → 0 <= i < 2^24 →
  i = Z.of_nat k ∧ memorySize r = zlen c.
Proof.
  intros Hwf Hbi Hk Hl E Hi.
  destruct (wf_records _ _ Hwf _ _ _ _ Hbi Hk Hl) as (_ & c' & E1 & Hs).
  assert (frame i c = frame (Z.of_nat k) c') as E' by congruence.
  pose proof (proj1 (wf_tables _ _ Hwf) _ Hbi) as Hlen.
  apply lookup_lt_Some in Hk. unfold zlen, MAX_MEMORY_BLOCK_INFORMATION in Hlen.
  destruct (frame_inj _ _ _ _ E' Hi) as [-> ->]; [pows; lia|done].
Qed.

Lemma unrecorded_same h g l i c :
  wf h g → h !! l = Some (BBytes (frame i c)) → 0 <= i < 2^24 →
  (∀ bi, ptrMemoryBlockInformation g = Some bi → 
         (∀ r, bi.[i] = Some r → memoryBlockAllocated r ≠ Some l)) →
  unrecorded l g g.
Proof.
  intros Hwf E Hi Hno. split; [done|apply Hwf|intros bi k r; apply Hwf|done|].
  intros bi k r l' Hbi Hk Hl. split; [|by eauto]. intros ->.
  destruct (record_index _ _ _ _ _ _ _ _ Hwf Hbi Hk Hl E Hi) as [-> _].
  eapply Hno; [done| |done]. by rewrite rd_nat.
Qed.

Lemma freeMonitoring_ok h h' g o l i c :
  wf h g → h !! l = Some (BBytes (frame i c)) → 0 <= i < 2^24 → i ≠ INVALID_MONITORING_INDEX →
  ∃ g', _freeMemoryAllocationMonitoring (Some l) i (World h' o g) = Some (tt, World h' o g')
        ∧ unrecorded l g g'.
Proof.
  intros Hwf E Hi Hne. unfold _freeMemoryAllocationMonitoring.
  rewrite (bnd_eq _ _ _ g (World h' o g)) by done.
  destruct (wf_tables _ _ Hwf) as [Hb Ha].
  destruct (ptrMemoryAllocationInformation g) as [ai|] eqn:Eai,
    (ptrMemoryBlockInformation g) as [bi|] eqn:Ebi.
  2-4: exists g; split; [done|]; apply (unrecorded_same _ _ _ _ _ Hwf E Hi); rewrite Ebi.
  2,4: done.
  2: { intros ? [= <-] r Hr Hl. rewrite <-(Z2Nat.id i), rd_nat in Hr by lia.
       destruct (wf_records _ _ Hwf _ _ _ _ Ebi Hr Hl) as [[? ?] _]. congruence. }
  specialize (Hb _ eq_refl). specialize (Ha _ eq_refl). cbn [isNull]. ztest.
  2: { exists g. split; [done|]. apply (unrecorded_same _ _ _ _ _ Hwf E Hi). rewrite Ebi.
       intros ? [= <-] r Hr%rd_Some_range. rewrite Hb in Hr. lia. }
  destruct (rd_is_Some bi i) as (r & Er & _); [lia|].
  rewrite Er, (bnd_eq _ _ _ r (World h' o g)) by done.
  case_bool_decide as Hl.
  2: { exists g. split; [done|]. apply (unrecorded_same _ _ _ _ _ Hwf E Hi). rewrite Ebi.
       intros ? [= <-] r' Hr. congruence. }
  rewrite <-(Z2Nat.id i), rd_nat in Er by lia.
  assert (site_ok (indexMemoryAllocationInformation r)) as Hsite by (by eapply Hwf).
  set (j := indexMemoryAllocationInformation r) in *.
  assert (∃ ai', (if negb (j =? INVALID_MONITORING_INDEX) && (j <? MAX_MEMORY_ALLOCATION_INFORMATION)
             then
               let* s := of_option (ai.[j]) in
               if allocationCounter s >? 0
               then of_option (ai.[j := AllocationInformation (allocationFileName s)
                                          (allocationLine s) (allocationCounter s - 1)])
               else ret ai
             else ret ai) (World h' o g) = Some (ai', World h' o g) ∧ zlen ai' = zlen ai)
    as (ai' & Eai' & Hlen').
  { destruct (negb _ && _) eqn:Et; [|by exists ai].
    destruct (site_rd ai j Ha Hsite Et) as (Hj & s & ->).
    rewrite (bnd_eq _ _ _ s (World h' o g)) by done.
    ztest; [|by exists ai]. rewrite wr_Some by done. eexists; split; [reflexivity|apply zlen_insert]. }
  rewrite (bnd_eq _ _ _ ai' (World h' o g)) by exact Eai'.
  rewrite wr_Some by lia. eexists. split; [reflexivity|].
  split; [done|split; cbn; intros ? [= <-]; by rewrite ?zlen_insert, ?Hlen'|cbn|done|cbn].
  - intros ? k r' [= <-] Hk. apply list_lookup_insert_Some in Hk as [(<- & <- & _)|[_ Hk]].
    + by left.
    + by eapply Hwf.
  - intros ? k r' l' [= <-] Hk Hl'.
    apply list_lookup_insert_Some in Hk as [(<- & <- & _)|[Hnk Hk]]; [done|].
    split; [|by eauto]. intros ->.
    destruct (record_index _ _ _ _ _ _ _ _ Hwf Ebi Hk Hl' E Hi). lia.
Qed.

Lemma wf_delete l i c h g g' :
  wf h g → h !! l = Some (BBytes (frame i c)) → unrecorded l g g' →
  wf (delete l h) (with_stat (count_free (zlen c)) g').
Proof.
  intros [_ Hb Hsite Hr Hn Ht] Hl [Est Htab Hs' Hai Hr'].
  split; [done| |exact Hs'| |cbn; rewrite Est..].
  - intros l' b [_ E]%lookup_delete_Some. by apply (Hb l').
  - cbn. intros bi' k r l' Ebi Hk Hl'.
    destruct (Hr' bi' k r l' Ebi Hk Hl') as (Hne & bi & Ebi0 & Hk0).
    destruct (Hr bi k r l' Ebi0 Hk0 Hl') as (? & c' & E' & ?).
    split; [by apply Hai|]. exists c'. by rewrite lookup_delete_ne.
  - rewrite Hn. unfold Z.sub. rewrite s64_add, map_size_delete, Hl. f_equal.
    assert (size h ≠ 0%nat); [|lia].
    intros E0%map_size_empty_inv. subst. by rewrite lookup_empty in Hl.
  - rewrite Ht. unfold Z.sub. rewrite s64_add, (live_bytes_delete h l i c Hl). done.
Qed.

Lemma index_value i :
  0 <= i < 2^24 →
  Z.shiftl (i / 65536 mod 256) 16 + Z.shiftl (i / 256 mod 256) 8 + i mod 256 = i.
Proof. intros Hi. rewrite !Z.shiftl_mul_pow2 by lia. dlia. Qed.

(** The site of the block is looked up and its record dropped. *)
Lemma free_site_ok h h' g o l i c :
  wf h g → h !! l = Some (BBytes (frame i c)) → 0 <= i < 2^24 →
  ∃ site g', (if i =? 0xFFFFFF then ret None
              else
                let* site := _getMemoryAllocationInformation i in
                _freeMemoryAllocationMonitoring (Some l) i ;;
                ret site) (World h' o g) = Some (site, World h' o g') ∧ unrecorded l g g'.
Proof.
  intros Hwf E Hi. ztest.
  - exists None, g. split; [done|]. apply (unrecorded_same _ _ _ _ _ Hwf E Hi).
    intros bi Hbi r Hr%rd_Some_range. rewrite (proj1 (wf_tables _ _ Hwf) _ Hbi) in Hr.
    unfold MAX_MEMORY_BLOCK_INFORMATION in Hr. lia.
  - destruct (getInformation_ok h h' g o i Hwf) as [site Es]; [lia|].
    destruct (freeMonitoring_ok h h' g o l i c Hwf E Hi) as (g2 & Ef & ?); [done|].
    exists site, g2. by rewrite (bnd_eq _ _ _ _ _ Es), (bnd_eq _ _ _ _ _ Ef).
Qed.

(** Releasing a live block. *)
Lemma free_ok l i c h o g :
  wf h g → h !! l = Some (BBytes (frame i c)) → 0 <= i < 2^24 → zlen c < 2^31 →
  ∃ site g', _lpaCoreMemoryFree (Some l) (World h o g)
             = Some (Freed (unused_loop (rev c) 0) site, World (delete l h) o g') ∧
             wf (delete l h) g'.
Proof.
  intros Hwf0 E Hi Hc. unfold _lpaCoreMemoryFree.
  rewrite (bnd_eq _ _ _ tt (World h o (with_stat count_free_call g))) by done.
  set (g1 := with_stat count_free_call g).
  assert (wf h g1) as Hwf by (by apply wf_stat_other). clearbody g1. clear Hwf0.
  cbn [isNull].
  rewrite (bnd_eq _ _ _ _ _ (tag_frame l i c h o g1 E 0 _ _ eq_refl eq_refl)).
  rewrite (bnd_eq _ _ _ _ _ (get_frame l i c h o g1 E 6 _ eq_refl)).
  ztrue (17 =? 17).
  rewrite (bnd_eq _ _ _ _ _ (size_frame l i c h o g1 E Hc)).
  rewrite (bnd_eq _ _ _ _ _ (tag_frame l i c h o g1 E 14 _ _ eq_refl eq_refl)).
  rewrite (bnd_eq _ _ _ _ _ (get_frame l i c h o g1 E 7 _ eq_refl)).
  rewrite (bnd_eq _ _ _ _ _ (get_frame l i c h o g1 E 8 _ eq_refl)).
  rewrite (bnd_eq _ _ _ _ _ (get_frame l i c h o g1 E 9 _ eq_refl)).
  rewrite index_value by done.
  destruct (free_site_ok h h g1 o l i c Hwf E Hi) as (site & g2 & Esite & Hun).
  rewrite (bnd_eq _ _ _ _ _ Esite).
  rewrite (bnd_eq _ _ _ _ _ (end_frame l i c h o g2 E)).
  rewrite (bnd_eq _ _ _ tt (World h o (with_stat (count_free (zlen c)) g2))) by done.
  rewrite (bnd_eq _ _ _ _ _ (memcpy_from_eq l (frame i c) 16 (zlen c) c _ _ _ E
    ltac:(rewrite frame_content by zlia; by rewrite zlen_to_nat, firstn_all))).
  rewrite (bnd_eq _ _ _ _ _ (put_live l (frame i c) 6 0x22 _ _ _ E ltac:(rewrite frame_zlen; zlia))).
  unfold bnd at 1, free, lpaCoreMemoryFree. cbn [wheap woracle wglobals].
  rewrite lookup_insert_eq, delete_insert_eq. cbn [mbind option_bind].
  eexists site, _. split; [done|]. by apply (wf_delete l i c h g1).
Qed.

(** ** Use of the blocks *)

(** Replacing the content of a block. *)
Lemma wf_write l i c c' h g :
  wf h g → h !! l = Some (BBytes (frame i c)) → 0 <= i < 2^24 → zlen c' = zlen c →
  wf (<[l := BBytes (frame i c')]> h) g.
Proof.
  intros Hwf E Hi Hc. pose proof Hwf as [Ht Hb Hs Hr Hn Hl].
  assert (0 < zlen c < 2^31) as Hsz.
  { destruct (Hb _ _ E) as (i0 & c0 & E0 & ? & ?).
    assert (frame i c = frame i0 c0) as Ef by congruence.
    by destruct (frame_inj _ _ _ _ Ef) as [_ ->]. }
  split; [done| |done| | |].
  - intros l' b [[<- <-]|[_ E']]%lookup_insert_Some; [|by apply (Hb l')].
    exists i, c'. by rewrite Hc.
  - intros bi k r l' Hbi Hk Hr'.
    destruct (Hr bi k r l' Hbi Hk Hr') as (? & c0 & E' & Hsz'). split; [done|].
    destruct (decide (l' = l)) as [->|].
    + destruct (record_index _ _ _ _ _ _ _ _ Hwf Hbi Hk Hr' E Hi) as [-> ?].
      exists c'. rewrite lookup_insert_eq. by rewrite Hc.
    + exists c0. by rewrite lookup_insert_ne.
  - by rewrite Hn, (map_size_insert_Some l _ h (ex_intro _ _ E)).
  - by rewrite Hl, (live_bytes_update h l i c).
Qed.

Lemma wf_block h g l b :
  wf h g → h !! l = Some b →
  ∃ i c, h !! l = Some (BBytes (frame i c)) ∧ 0 <= i < 2^24 ∧ 0 < zlen c < 2^31 ∧
         payload b = BBytes c.
Proof.
  intros Hwf E. destruct (wf_blocks _ _ Hwf _ _ E) as (i & c & -> & ? & ?).
  exists i, c. split; [done|]. split; [done|]. split; [done|]. by rewrite payload_frame.
Qed.

Lemma initial_wf : wf ∅ initial_memory.
Proof. split; done. Qed.

(** A small well-formed heap: one block of four bytes, without tables. *)
Definition sample_memory : memory :=
  Memory (Counters 1 0 1 4 4 4 1) (Errors 0 0 0 0 0 0) None None.
Definition sample_heap : heap := <[1%positive := BBytes (frame 0xFFFFFF [1; 2; 3; 4])]> ∅.

Lemma sample_wf : wf sample_heap sample_memory.
Proof.
  split; [done| |done|done|done|done]. intros l b.
  unfold sample_heap. rewrite lookup_insert_Some. intros [[<- <-]|[_ E]]; [|done].
  by exists 0xFFFFFF, [1; 2; 3; 4].
Qed.

(** ** Clients

    A client of the allocator is a program that allocates, frees, writes and
    reads the blocks it was given, each step depending on the results of the
    previous ones. *)

Inductive op :=
  | OpAlloc (file : list Z) (line size : Z)
  | OpFree (file : list Z) (line : Z) (p : ptr)
  | OpWrite (p : ptr) (off : Z) (vs : list Z)
  | OpRead (p : ptr) (off n : Z).

Inductive result := RPtr (p : ptr) | RDone | RBytes (bs : list Z).

Inductive client (A : Type) :=
  | Done (a : A)
  | Step (o : op) (k : result → client A).
Arguments Done {A} a.
Arguments Step {A} o k.

Fixpoint run {G A} (exec : op → M G result) (c : client A) : M G A :=
  match c with
  | Done a => ret a
  | Step o k => let* r := exec o in run exec (k r)
  end.

(** The interface of Heap.v, for sizes below 2 GB. *)
Definition abstract_exec (o : op) : M unit result :=
  match o with
  | OpAlloc _ _ size =>
      if (0 <=? size) && (size <? 2^31)
      then let* p := lpaCoreMemoryAlloc size in ret (RPtr p) else ub
  | OpFree _ _ p => lpaCoreMemoryFree p ;; ret RDone
  | OpWrite p off vs => memcpy_to p off vs ;; ret RDone
  | OpRead p off n => let* bs := memcpy_from p off n in ret (RBytes bs)
  end.

(** The functions of lpa_memory.c; the content begins at cell 16. *)
Definition concrete_exec (u : Z) (o : op) : M memory result :=
  match o with
  | OpAlloc f line size => let* p := lpaCoreMemoryMonitorAlloc u f line size in ret (RPtr p)
  | OpFree f line p => lpaCoreMemoryMonitorFree f line p ;; ret RDone
  | OpWrite p off vs => memcpy_to p (16 + off) vs ;; ret RDone
  | OpRead p off n => let* bs := memcpy_from p (16 + off) n in ret (RBytes bs)
  end.

Lemma bnd_inv {G A B} (m : M G A) (k : A → M G B) w r :
  bnd m k w = Some r → ∃ a w', m w = Some (a, w') ∧ k a w' = Some r.
Proof. unfold bnd. destruct (m w) as [[a w']|]; [|done]. cbn. eauto. Qed.

Lemma contents_lookup h l : contents h !! l = payload <$> h !! l.
Proof. apply lookup_fmap. Qed.

Lemma contents_dom h : dom (contents h) = dom h.
Proof. apply dom_fmap_L. Qed.

Lemma contents_insert h l i c :
  contents (<[l := BBytes (frame i c)]> h) = <[l := BBytes c]> (contents h).
Proof. unfold contents. by rewrite fmap_insert, payload_frame. Qed.

(** One step: for some outcome of the allocation, the concrete operation
    does what the abstract one does, unless that is undefined. *)
Definition step_refines u op h o g (bs : list bool) : Prop :=
  (∀ oa, abstract_exec op (World (contents h) (bs ++ oa) tt) = None) ∨
  ∃ r h' o' g',
    concrete_exec u op (World h o g) = Some (r, World h' o' g') ∧ wf h' g' ∧
    ∀ oa, abstract_exec op (World (contents h) (bs ++ oa) tt) = Some (r, World (contents h') oa tt).

Lemma alloc_refines u f line size h o g :
  wf h g → ∃ bs, step_refines u (OpAlloc f line size) h o g bs.
Proof.
  intros Hwf. unfold step_refines. cbn [abstract_exec concrete_exec].
  destruct (_ && _) eqn:Es; zprop; [|by exists []; left].
  destruct (alloc_ok u size true (Some f) line h o g Hwf) as (r & h' & o' & g' & E & Hwf' & Ha);
    [done|].
  exists (if size >? 0 then [isNull r] else []). right.
  exists (RPtr r), h', o', g'. unfold lpaCoreMemoryMonitorAlloc.
  rewrite (bnd_eq _ _ _ _ _ E). split; [done|]. split; [done|]. intros oa.
  unfold lpaCoreMemoryAlloc, bnd.
  destruct Ha as [|i Hpos]; [by ztest|]. ztrue (size >? 0). cbn.
  by rewrite contents_insert, contents_dom.
Qed.

Lemma free_refines u f line p h o g :
  wf h g → step_refines u (OpFree f line p) h o g [].
Proof.
  intros Hwf. unfold step_refines. cbn [abstract_exec concrete_exec].
  destruct p as [l|].
  - destruct (h !! l) as [b|] eqn:E.
    2: { left. intros oa. unfold lpaCoreMemoryFree, bnd. cbn. by rewrite contents_lookup, E. }
    destruct (wf_block h g l b Hwf E) as (i & c & E' & Hi & Hc & _).
    destruct (free_ok l i c h o g Hwf E' Hi) as (site & g' & Ef & Hwf'); [apply Hc|].
    right. exists RDone, (delete l h), o, g'.
    assert (lpaCoreMemoryMonitorFree f line (Some l) (World h o g)
            = Some (tt, World (delete l h) o g')) as Em
      by (unfold lpaCoreMemoryMonitorFree; by rewrite (bnd_eq _ _ _ _ _ Ef)).
    rewrite (bnd_eq _ _ _ _ _ Em). split; [done|]. split; [done|]. intros oa.
    unfold lpaCoreMemoryFree, bnd. cbn. rewrite contents_lookup, E. cbn.
    unfold contents. by rewrite fmap_delete.
  - right. exists RDone, h, o, (with_stat count_free_call g). split; [done|].
    split; [by apply wf_stat_other|done].
Qed.

Lemma write_refines u p off vs h o g :
  wf h g → step_refines u (OpWrite p off vs) h o g [].
Proof.
  intros Hwf. unfold step_refines. cbn [abstract_exec concrete_exec app].
  destruct p as [l|]; [|by left].
  destruct (h !! l) as [b|] eqn:E.
  2: { left. intros oa. unfold memcpy_to, load_bytes, load, bnd. cbn.
       by rewrite contents_lookup, E. }
  destruct (wf_block h g l b Hwf E) as (i & c & E' & Hi & Hc & Hp).
  assert (contents h !! l = Some (BBytes c)) as Ec by (by rewrite contents_lookup, E; cbn; rewrite Hp).
  destruct ((0 <=? off) && (off + zlen vs <=? zlen c)) eqn:Er.
  2: { left. intros oa. unfold memcpy_to, load_bytes, load, bnd. cbn. rewrite Ec. cbn.
       unfold wr_range. by rewrite Er. }
  zprop. destruct (frame_write i c off vs) as (c' & Ew & Ew'); [done|done|].
  right. exists RDone, (<[l := BBytes (frame i c')]> h), o, g.
  pose proof (wr_range_zlen _ _ _ _ Ew) as Hlen.
  rewrite <-(insert_id h l _ E') at 1.
  rewrite (bnd_eq _ _ _ _ _ (memcpy_to_eq l _ _ _ _ _ _ _ Ew')).
  split; [done|]. split; [by apply (wf_write l i c)|]. intros oa.
  rewrite <-(insert_id (contents h) l _ Ec) at 1.
  rewrite (bnd_eq _ _ _ _ _ (memcpy_to_eq l _ _ _ _ _ _ _ Ew)).
  by rewrite contents_insert.
Qed.

Lemma read_refines u p off n h o g :
  wf h g → step_refines u (OpRead p off n) h o g [].
Proof.
  intros Hwf. unfold step_refines. cbn [abstract_exec concrete_exec app].
  destruct p as [l|]; [|by left].
  destruct (h !! l) as [b|] eqn:E.
  2: { left. intros oa. unfold memcpy_from, load_bytes, load, bnd. cbn.
       by rewrite contents_lookup, E. }
  destruct (wf_block h g l b Hwf E) as (i & c & E' & Hi & Hc & Hp).
  assert (contents h !! l = Some (BBytes c)) as Ec by (by rewrite contents_lookup, E; cbn; rewrite Hp).
  destruct (rd_range c off n) as [vs|] eqn:Er.
  2: { left. intros oa. unfold memcpy_from, load_bytes, load, bnd. cbn. rewrite Ec. cbn.
       by rewrite Er. }
  right. exists (RBytes vs), h, o, g.
  rewrite (bnd_eq _ _ _ _ _ (memcpy_from_eq l _ (16 + off) n vs _ _ _ E'
    ltac:(by apply frame_read))).
  split; [done|]. split; [done|]. intros oa.
  by rewrite (bnd_eq _ _ _ _ _ (memcpy_from_eq l _ _ _ _ _ _ _ Ec Er)).
Qed.

Lemma exec_refines u op h o g : wf h g → ∃ bs, step_refines u op h o g bs.
Proof.
  intros Hwf. destruct op.
  - by apply alloc_refines.
  - exists []. by apply free_refines.
  - exists []. by apply write_refines.
  - exists []. by apply read_refines.
Qed.

(** C36: The memory manager implements the allocator's interface (refinement):
    from a well-formed heap and whatever [malloc] does, for every client of
    the interface of Heap.v there is a pattern of allocation failures such that,
    if the client has no undefined behaviour under it, it gets the same results
    from lpa_memory.c, headers, counters and site tables included, and leaves
    the same contents in a well-formed heap. *)
Theorem memory_refines {A} u (c : client A) h o g :
  wf h g →
  ∃ oa, ∀ a wa,
    run abstract_exec c (World (contents h) oa tt) = Some (a, wa) →
    ∃ h' o' g', run (concrete_exec u) c (World h o g) = Some (a, World h' o' g') ∧
      wheap wa = contents h' ∧ wf h' g'.
Proof.
  revert h o g. induction c as [a|op k IH]; intros h o g Hwf; cbn [run].
  { exists []. intros a' wa [= <- <-]. by exists h, o, g. }
  destruct (exec_refines u op h o g Hwf) as [bs [Hub|(r & h1 & o1 & g1 & E & Hwf1 & Ha)]].
  - exists bs. intros a wa Hrun. apply bnd_inv in Hrun as (r & w' & Hr & _).
    specialize (Hub []). rewrite app_nil_r in Hub. congruence.
  - destruct (IH r h1 o1 g1 Hwf1) as [oa Hoa]. exists (bs ++ oa). intros a wa.
    rewrite (bnd_eq _ _ _ _ _ (Ha oa)), (bnd_eq _ _ _ _ _ E). apply Hoa.
Qed.

Lemma memory_refines_witness :
  wf ∅ initial_memory ∧
  let c := Step (OpAlloc [97; 46; 99] 7 4) (λ r,
             match r with
             | RPtr p => Step (OpWrite p 1 [5]) (λ _, Step (OpRead p 0 2) (λ r,
                 Step (OpFree [97; 46; 99] 9 p) (λ _, Done r)))
             | _ => Done r
             end) in
  run abstract_exec c (World ∅ [false] tt) = Some (RBytes [0xBD; 5], World ∅ [] tt) ∧
  ∃ oa, ∀ a wa,
    run abstract_exec c (World (contents ∅) oa tt) = Some (a, wa) →
    ∃ h' o' g', run (concrete_exec 0) c (World ∅ [] initial_memory) = Some (a, World h' o' g') ∧
      wheap wa = contents h' ∧ wf h' g'.
Proof.
  split; [apply initial_wf|]. intros c. split; [vm_compute; reflexivity|].
  exact (memory_refines 0 c ∅ [] initial_memory initial_wf).
Defined.

(** The outcome of an allocation (functional): with the tables initialised,
    a request of [size] bytes returns [NULL] exactly when [size] is zero, a
    simulated failure applies to the call (counted after its increment), or
    [malloc] fails; it then changes nothing but the count of calls. Otherwise
    it returns a new block with [size] bytes 0xBD in the documented layout and
    updates the usage counters. *)
Theorem allocation_outcome u size f line h o g :
  wf h g → countMemoryAllocCall (stat g) ≠ 0 → 0 <= size < 2^31 →
  let g1 := with_stat count_alloc_call g in
  if (size =? 0) || _isSimulateMemoryErrorAllocation g1 size
  then lpaCoreMemoryMonitorAlloc u f line size (World h o g) = Some (None, World h o g1)
  else if next_fails o
  then lpaCoreMemoryMonitorAlloc u f line size (World h o g)
       = Some (None, World h (next_oracle o) g1)
  else ∃ i g2,
    lpaCoreMemoryMonitorAlloc u f line size (World h o g)
    = Some (Some (fresh (dom h)),
            World (<[fresh (dom h) := BBytes (frame i (new_bytes size))]> h) (next_oracle o) g2) ∧
    stat g2 = count_alloc size (stat g1) ∧ err g2 = err g ∧
    wf (<[fresh (dom h) := BBytes (frame i (new_bytes size))]> h) g2.
Proof.
  intros Hwf Hc Hs g1. unfold lpaCoreMemoryMonitorAlloc.
  pose proof (outcome_run u size true (Some f) line h o g o g) as Hr.
  replace (countMemoryAllocCall (stat g) =? 0) with false in Hr by lia.
  specialize (Hr eq_refl (wf_tables _ _ Hwf) Hs). cbn zeta in Hr. fold g1 in Hr.
  destruct ((size =? 0) || _) eqn:E0; [done|]. destruct (next_fails o); [done|].
  zprop. destruct Hr as (i & g3 & -> & Hrec & Htab). destruct (recorded_stat _ _ _ _ _ Hrec) as [E1 E2].
  eexists i, _. split; [reflexivity|]. split; [by cbn; rewrite E1|]. split; [by cbn; rewrite E2|].
  replace (count_alloc size) with (count_alloc (zlen (new_bytes size)))
    by (by rewrite new_bytes_zlen by lia).
  apply wf_insert with (g := g1); rewrite ?new_bytes_zlen by lia;
    [by apply wf_stat_other|apply fresh_heap|lia|done..].
Qed.

Lemma allocation_outcome_witness :
  countMemoryAllocCall (stat sample_memory) ≠ 0 ∧
  ∃ i g2, lpaCoreMemoryMonitorAlloc 0 [] 3 2 (World sample_heap [] sample_memory)
    = Some (Some (fresh (dom sample_heap)),
            World (<[fresh (dom sample_heap) := BBytes (frame i (new_bytes 2))]> sample_heap) [] g2) ∧
    stat g2 = Counters 2 0 2 6 6 6 2 ∧ err g2 = Errors 0 0 0 0 0 0 ∧
    wf (<[fresh (dom sample_heap) := BBytes (frame i (new_bytes 2))]> sample_heap) g2.
Proof.
  split; [done|].
  exact (allocation_outcome 0 2 [] 3 sample_heap [] sample_memory sample_wf
           ltac:(done) ltac:(lia)).
Defined.

Lemma blockSize_ok l i c h o g :
  h !! l = Some (BBytes (frame i c)) → zlen c < 2^31 →
  _lpaCoreMemoryGetBlockSize (Some l) (World h o g) = Some ((zlen c, true), World h o g).
Proof.
  intros E Hc. unfold _lpaCoreMemoryGetBlockSize. cbn [isNull].
  rewrite (bnd_eq _ _ _ _ _ (tag_frame l i c h o g E 0 _ _ eq_refl eq_refl)).
  rewrite (bnd_eq _ _ _ _ _ (get_frame l i c h o g E 6 _ eq_refl)). ztrue (17 =? 17).
  rewrite (bnd_eq _ _ _ _ _ (size_frame l i c h o g E Hc)).
  by rewrite (bnd_eq _ _ _ _ _ (end_frame l i c h o g E)).
Qed.

(** Bytes of a block resized to [n]. *)
Definition resized (c : list Z) (n : Z) : list Z :=
  take (Z.to_nat n) c ++ new_bytes (n - zlen c).

Lemma resize_write i c n :
  0 < n →
  wr_range (frame i (new_bytes n)) 16 (take (Z.to_nat (if n <? zlen c then n else zlen c)) c)
  = Some (frame i (resized c n)).
Proof.
  intros Hn. set (k := if n <? zlen c then n else zlen c).
  assert (k = Z.min n (zlen c)) as Ek by (subst k; ztest; zlia).
  destruct (frame_write i (new_bytes n) 0 (take (Z.to_nat k) c)) as (c' & Ew & Ew');
    [lia|rewrite new_bytes_zlen by lia; zlia|].
  change (16 + 0) with 16 in Ew'. rewrite Ew'. do 2 f_equal. unfold wr_range in Ew. destruct (_ && _); [|done].
  injection Ew as <-. cbn [take app]. unfold resized, new_bytes, fill. f_equal.
  - destruct (Z.le_gt_cases n (zlen c)); [by rewrite Ek, Z.min_l by lia|].
    rewrite Ek, Z.min_r, zlen_to_nat by lia. unfold zlen in *. rewrite !take_ge by lia. done.
  - rewrite drop_replicate. f_equal. rewrite length_take. zlen_pos. unfold zlen in *. lia.
Qed.

Lemma copy_ok l l' i c j n h o g :
  wf h g → h !! l = Some (BBytes (frame i c)) → h !! l' = Some (BBytes (frame j (new_bytes n))) →
  0 <= j < 2^24 → 0 < n →
  (let* old := memcpy_from (Some l) 16 (if n <? zlen c then n else zlen c) in
   memcpy_to (Some l') 16 old) (World h o g)
  = Some (tt, World (<[l' := BBytes (frame j (resized c n))]> h) o g) ∧
  wf (<[l' := BBytes (frame j (resized c n))]> h) g.
Proof.
  intros Hwf E E' Hj Hn. split.
  - rewrite (bnd_eq _ _ _ _ _ (memcpy_from_eq l _ 16 _ _ _ _ _ E
      (frame_content i c (if n <? zlen c then n else zlen c) ltac:(ztest; zlia)))).
    rewrite <-(insert_id h l' _ E') at 1. by apply memcpy_to_eq, resize_write.
  - apply (wf_write l' j (new_bytes n)); [done..|].
    unfold resized, new_bytes, fill. rewrite zlen_app, zlen_take, !zlen_replicate. zlia.
Qed.

(** Reallocation (functional): growing or shrinking a live block to a size
    other than its own moves its bytes to a new block, the added bytes being
    0xBD, and releases the old one; the old block is also released when the
    new one cannot be allocated, so that its bytes are lost (unlike
    [realloc]); a request for the size the block already has returns [NULL]
    and leaves the block allocated. *)
Theorem realloc_spec u this_file l i c n h o g :
  wf h g → h !! l = Some (BBytes (frame i c)) → 0 <= i < 2^24 → 0 < n < 2^31 →
  if n =? zlen c
  then _lpaCoreMemoryRealloc u this_file (Some l) n (World h o g) = Some (None, World h o g)
  else ∃ r h' o' g',
    _lpaCoreMemoryRealloc u this_file (Some l) n (World h o g) = Some (r, World h' o' g') ∧
    wf h' g' ∧
    match r with
    | None => h' = delete l h
    | Some l' => h !! l' = None ∧
        ∃ i', h' = delete l (<[l' := BBytes (frame i' (resized c n))]> h)
    end.
Proof.
  intros Hwf E Hi Hn.
  destruct (wf_blocks _ _ Hwf _ _ E) as (i0 & c0 & E0 & _ & Hc).
  assert (frame i c = frame i0 c0) as Ef by congruence.
  assert (0 < zlen c < 2^31) as Hc'.
  { apply (f_equal (λ b, payload (BBytes b))) in Ef. rewrite !payload_frame in Ef. 
    by injection Ef as ->. }
  unfold _lpaCoreMemoryRealloc. cbn [isNull]. zfalse (n =? 0).
  rewrite (bnd_eq _ _ _ _ _ (blockSize_ok l i c h o g E ltac:(lia))).
  rewrite (Z.eqb_sym (zlen c) n). destruct (n =? zlen c); [done|]. cbn [negb].
  destruct (alloc_ok u n true (Some this_file) 786 h o g Hwf) as (r & h1 & o1 & g1 & Ea & Hwf1 & Ha);
    [lia|]. unfold lpaCoreMemoryMonitorAlloc. rewrite (bnd_eq _ _ _ _ _ Ea).
  destruct Ha as [|j _]; cbn [isNull].
  - rewrite (bnd_eq (ret tt) _ _ tt (World h o1 g1)) by done.
    destruct (free_ok l i c h o1 g1 Hwf1 E Hi) as (site & g2 & Efr & Hwf2); [lia|].
    unfold lpaCoreMemoryMonitorFree.
    eexists None, _, _, _. split; [|by split].
    rewrite (bnd_eq _ _ _ tt (World (delete l h) o1 g2));
      [done|by rewrite (bnd_eq _ _ _ _ _ Efr)].
  - pose proof (fresh_heap h) as Hfr. set (l' := fresh (dom h)) in *.
    assert (l' ≠ l) as Hne by congruence.
    destruct (wf_block _ g1 l' _ Hwf1 (lookup_insert_eq _ _ _)) as (j0 & cj & Ej0 & Hj0 & _ & Hp).
    rewrite payload_frame in Hp. injection Hp as <-.
    destruct (copy_ok l l' i c j0 n _ o1 g1 Hwf1) as [Ecp Hwf2];
      [by rewrite lookup_insert_ne|done|done|lia|].
    rewrite (bnd_eq _ _ _ _ _ Ecp). rewrite insert_insert_eq in Hwf2 |- *.
    destruct (free_ok l i c _ o1 g1 Hwf2) as (site & g2 & Efr & Hwf3);
      [by rewrite lookup_insert_ne|done|lia|].
    unfold lpaCoreMemoryMonitorFree.
    eexists (Some l'), _, _, _. split; [|split; [exact Hwf3|split; [done|by exists j0]]].
    rewrite (bnd_eq _ _ _ tt (World (delete l (<[l' := BBytes (frame j0 (resized c n))]> h)) o1 g2));
      [done|by rewrite (bnd_eq _ _ _ _ _ Efr)].
Qed.

Lemma realloc_spec_witness :
  ∃ r h' o' g',
    _lpaCoreMemoryRealloc 0 [] (Some 1%positive) 6 (World sample_heap [] sample_memory)
    = Some (r, World h' o' g') ∧ wf h' g' ∧
    match r with
    | None => h' = delete 1%positive sample_heap
    | Some l' => sample_heap !! l' = None ∧
        ∃ i', h' = delete 1%positive
                     (<[l' := BBytes (frame i' [1; 2; 3; 4; 0xBD; 0xBD])]> sample_heap)
    end.
Proof.
  exact (realloc_spec 0 [] 1 0xFFFFFF [1; 2; 3; 4] 6 sample_heap [] sample_memory sample_wf
           (lookup_insert_eq _ _ _) ltac:(lia) ltac:(lia)).
Defined.

(** ** Detection of corrupted blocks *)

Lemma check_block_eq l i c x y h o g :
  h !! l = Some (BBytes (header i (zlen c) ++ c ++ [x; y])) → zlen c < 2^31 →
  check_block (Some l) (zlen c) (World h o g)
  = Some (if (x =? 0xAA) && (y =? 0x55) then None else Some ErrEndTag, World h o g).
Proof.
  intros E Hc. unfold check_block.
  rewrite (bnd_eq _ _ _ _ _ (tag_header _ _ _ _ _ _ _ E 0 _ _ eq_refl eq_refl)). cbn [negb].
  rewrite (bnd_eq _ _ _ _ _ (get_header _ _ _ _ _ _ _ E 6 _ eq_refl)). ztrue (17 =? 17). cbn [negb].
  rewrite (bnd_eq _ _ _ _ _ (size_header _ _ _ _ _ _ _ E ltac:(zlia))), Z.eqb_refl. cbn [negb].
  rewrite (bnd_eq _ _ _ _ _ (tag_header _ _ _ _ _ _ _ E 10 _ _ eq_refl eq_refl)). cbn [negb].
  rewrite (bnd_eq _ _ _ _ _ (tag_header _ _ _ _ _ _ _ E 14 _ _ eq_refl eq_refl)). cbn [negb].
  assert (u64 (zlen c + 16) = zlen c + 16) as ->.
  { unfold u64. change (2^64) with 18446744073709551616. pows. rewrite Z.mod_small; zlia. }
  rewrite (bnd_eq _ _ _ _ _ (end_block _ _ _ _ _ _ _ _ E)). unfold ret.
  by destruct ((x =? 0xAA) && (y =? 0x55)).
Qed.

(** The integrity check (safety): in a well-formed heap it reads inside
    the recorded blocks only and reports nothing. *)
Theorem check_reports_nothing h o g bi :
  wf h g → ptrMemoryBlockInformation g = Some bi →
  _lpaCoreMemoryCheckMemoryAllocated (World h o g) = Some ([], World h o g).
Proof.
  intros Hwf Hbi. unfold _lpaCoreMemoryCheckMemoryAllocated.
  rewrite (bnd_eq _ _ _ g (World h o g)), Hbi by done.
  rewrite (bnd_eq _ _ _ bi (World h o g)) by done.
  assert (∀ r, r ∈ bi → ∀ l, memoryBlockAllocated r = Some l →
    check_block (Some l) (memorySize r) (World h o g) = Some (None, World h o g)) as Hck.
  { intros r [k Hk]%list_elem_of_lookup_1 l Hl.
    destruct (wf_records _ _ Hwf _ _ _ _ Hbi Hk Hl) as (_ & c & E & ->).
    destruct (wf_block _ _ _ _ Hwf E) as (i & c' & _ & _ & Hc & Hp).
    rewrite payload_frame in Hp. injection Hp as <-.
    by rewrite (check_block_eq _ _ _ _ _ _ _ _ E) by apply Hc. }
  clear Hbi. induction bi as [|r bi IH]; [done|]. cbn [check_loop].
  assert (check_loop bi (World h o g) = Some ([], World h o g)) as IH'
    by (apply IH; intros; apply Hck; (by right || done)).
  destruct (memoryBlockAllocated r) as [l|] eqn:El; [|done].
  rewrite (bnd_eq _ _ _ _ _ (Hck r (list_elem_of_here _ _) l El)).
  by rewrite (bnd_eq _ _ _ _ _ IH').
Qed.

Lemma check_reports_nothing_witness :
  ∃ g', _initMemoryAllocationMonitoring (World ∅ [] initial_memory) = Some (tt, World ∅ [] g') ∧
        _lpaCoreMemoryCheckMemoryAllocated (World ∅ [] g') = Some ([], World ∅ [] g').
Proof.
  eexists. split; [reflexivity|]. eapply check_reports_nothing; [|reflexivity].
  destruct (init_ok ∅ [] initial_memory initial_wf) as (o' & g' & E & Hwf & _).
  injection E as <- <-. exact Hwf.
Defined.

(** Buffer overruns are detected (safety): when the bytes that follow the
    content of a live block have been overwritten, the integrity check reports
    its end tag, and a release reports it too, does not free the block and
    counts nothing but the call. *)
Theorem overrun_detected l i c c' x y h o g :
  wf h g → h !! l = Some (BBytes (frame i c)) → 0 <= i < 2^24 → zlen c' = zlen c →
  (x, y) ≠ (0xAA, 0x55) →
  let h' := <[l := BBytes (header i (zlen c) ++ c' ++ [x; y])]> h in
  check_block (Some l) (zlen c) (World h' o g) = Some (Some ErrEndTag, World h' o g) ∧
  ∃ g', _lpaCoreMemoryFree (Some l) (World h' o g) = Some (InvalidEndTag, World h' o g') ∧
        stat g' = count_free_call (stat g).
Proof.
  intros Hwf E Hi Hlen Hxy h'.
  assert (zlen c < 2^31) as Hc.
  { destruct (wf_block _ _ _ _ Hwf E) as (? & ? & _ & _ & ? & Hp).
    rewrite payload_frame in Hp. injection Hp as <-. lia. }
  assert (h' !! l = Some (BBytes (header i (zlen c') ++ c' ++ [x; y]))) as E'
    by (rewrite Hlen; apply lookup_insert_eq).
  assert ((x =? 0xAA) && (y =? 0x55) = false) as Ex.
  { destruct ((x =? 0xAA) && (y =? 0x55)) eqn:Exy; [|done]. zprop. congruence. }
  split; [by rewrite <-Hlen, (check_block_eq _ _ _ _ _ _ _ _ E'), Ex by lia|].
  unfold _lpaCoreMemoryFree.
  rewrite (bnd_eq _ _ _ tt (World h' o (with_stat count_free_call g))) by done.
  set (g1 := with_stat count_free_call g).
  assert (wf h g1) as Hwf1 by (by apply wf_stat_other).
  assert (stat g1 = count_free_call (stat g)) as Est by done. clearbody g1.
  cbn [isNull].
  rewrite (bnd_eq _ _ _ _ _ (tag_header _ _ _ _ _ _ _ E' 0 _ _ eq_refl eq_refl)).
  rewrite (bnd_eq _ _ _ _ _ (get_header _ _ _ _ _ _ _ E' 6 _ eq_refl)). ztrue (17 =? 17).
  rewrite (bnd_eq _ _ _ _ _ (size_header _ _ _ _ _ _ _ E' ltac:(rewrite Hlen; zlia))).
  rewrite (bnd_eq _ _ _ _ _ (tag_header _ _ _ _ _ _ _ E' 14 _ _ eq_refl eq_refl)).
  rewrite (bnd_eq _ _ _ _ _ (get_header _ _ _ _ _ _ _ E' 7 _ eq_refl)).
  rewrite (bnd_eq _ _ _ _ _ (get_header _ _ _ _ _ _ _ E' 8 _ eq_refl)).
  rewrite (bnd_eq _ _ _ _ _ (get_header _ _ _ _ _ _ _ E' 9 _ eq_refl)).
  rewrite index_value by done.
  destruct (free_site_ok h h' g1 o l i c Hwf1 E Hi) as (site & g2 & Esite & Hun).
  rewrite (bnd_eq _ _ _ _ _ Esite).
  rewrite (bnd_eq _ _ _ _ _ (end_block _ _ _ _ _ _ _ _ E')), Ex.
  exists g2. split; [done|]. by rewrite (un_stat _ _ _ Hun).
Qed.

Lemma overrun_detected_witness :
  let h' := <[1%positive := BBytes (header 0xFFFFFF 4 ++ [1; 2; 3; 4] ++ [5; 0x55])]> sample_heap in
  check_block (Some 1%positive) 4 (World h' [] sample_memory)
    = Some (Some ErrEndTag, World h' [] sample_memory) ∧
  ∃ g', _lpaCoreMemoryFree (Some 1%positive) (World h' [] sample_memory)
        = Some (InvalidEndTag, World h' [] g') ∧ stat g' = Counters 1 1 1 4 4 4 1.
Proof.
  exact (overrun_detected 1 0xFFFFFF [1; 2; 3; 4] [1; 2; 3; 4] 5 0x55 sample_heap [] sample_memory
           sample_wf (lookup_insert_eq _ _ _) ltac:(lia) eq_refl ltac:(done)).
Defined.

(** ** Defects *)

Lemma put_undefined {B} l bs i v h o g (k : unit → M memory B) :
  (∀ bs', zlen bs' = zlen bs → k tt (World (<[l := BBytes bs']> h) o g) = None) →
  bnd (put (Some l) i v) k (World (<[l := BBytes bs]> h) o g) = None.
Proof.
  intros Hk. destruct (decide (0 <= i < zlen bs)) as [Hi|Hi].
  - rewrite (bnd_eq _ _ _ _ _ (put_eq _ _ _ _ _ _ _ Hi)). apply Hk, zlen_insert.
  - unfold bnd at 1, put, load_bytes, load, bnd. cbn. rewrite lookup_insert_eq. cbn.
    apply wr_None with (v := v) in Hi. by rewrite Hi.
Qed.

(** Size overflow (error): a request of at least [2^64 - 18] bytes wraps
    the size passed to [malloc], and when that succeeds the allocator writes
    outside of the few bytes it got. *)
Theorem alloc_size_wraps u size f line h o g :
  wf h g → countMemoryAllocCall (stat g) ≠ 0 → 2^64 - 18 <= size < 2^64 →
  _isSimulateMemoryErrorAllocation (with_stat count_alloc_call g) size = false →
  next_fails o = false →
  lpaCoreMemoryMonitorAlloc u f line size (World h o g) = None.
Proof.
  intros Hwf Hc Hs Hsim Ho. unfold lpaCoreMemoryMonitorAlloc, _lpaCoreMemoryAlloc.
  rewrite (bnd_eq get_globals _ _ g (World h o g)) by done.
  zfalse (countMemoryAllocCall (stat g) =? 0).
  set (g1 := with_stat count_alloc_call g) in *.
  rewrite (bnd_eq _ _ _ tt (World h o g)), (bnd_eq _ _ _ tt (World h o g1)) by done.
  change (2^64) with 18446744073709551616 in Hs. ztrue (size >? 0).
  rewrite (bnd_eq get_globals _ _ g1 (World h o g1)), Hsim by done. cbn [negb].
  pose proof (malloc_run u (u64 (size + 18)) h o g1) as Em. rewrite Ho in Em.
  rewrite (bnd_eq _ _ _ _ _ Em). cbn [isNull].
  assert (zlen (fill u (u64 (size + 18))) < 18) as Hlen.
  { unfold fill, u64. change (2^64) with 18446744073709551616. rewrite zlen_replicate. dlia. }
  set (bs := fill u _) in *. set (l := fresh (dom h)). clearbody bs l.
  destruct (monitor_ok true (Some f) line l size (next_oracle o) g1) as (i & g2 & Hmon & _ & _);
    [by apply Hwf|].
  do 7 (apply put_undefined; intros ? Hb; rewrite <-Hb in Hlen; clear Hb). rewrite (bnd_eq _ _ _ _ _ (Hmon _)).
  do 9 (apply put_undefined; intros ? Hb; rewrite <-Hb in Hlen; clear Hb).
  unfold bnd at 1, memcpy_to, load_bytes, load, bnd. cbn. rewrite lookup_insert_eq. cbn.
  unfold wr_range. rewrite (proj2 (andb_false_iff _ _)); [done|right].
  unfold fill at 1. rewrite zlen_replicate. lia.
Qed.

Lemma alloc_size_wraps_witness :
  lpaCoreMemoryMonitorAlloc 0 [] 3 (2^64 - 1) (World sample_heap [] sample_memory) = None.
Proof.
  apply (alloc_size_wraps 0 (2^64 - 1) [] 3 sample_heap [] sample_memory sample_wf);
    [done|lia|reflexivity|reflexivity].
Defined.

Lemma before_loop_same bi n l found b i :
  before_loop bi n l found = (b, i) → (b < l)%positive ∨ b = l ∧ i = found.
Proof.
  induction bi as [|r bi IH] in n, l, found |- *; cbn [before_loop]; [intros [= -> ->]; by right|].
  destruct (memoryBlockAllocated r) as [b0|]; [destruct (Pos.ltb_spec b0 l)|];
    intros E; destruct (IH _ _ _ E) as [|[-> ->]]; auto; left; lia.
Qed.

(** The block reported before a damaged one (functional): it is the live
    block with the lowest address, not the one just before as intended. *)
Theorem before_block_is_lowest bi n l found b i :
  before_loop bi n l found = (b, i) →
  (b ≤ l)%positive ∧
  (∀ r b', r ∈ bi → memoryBlockAllocated r = Some b' → (b ≤ b')%positive) ∧
  (b ≠ l → ∃ k r, i = n + Z.of_nat k ∧ bi !! k = Some r ∧ memoryBlockAllocated r = Some b).
Proof.
  induction bi as [|r bi IH] in n, l, found |- *; cbn [before_loop].
  { intros [= -> ->]. split; [done|]. split; [intros ? ? Hr; by apply elem_of_nil in Hr|done]. }
  assert (∀ n l, (∃ k r', i = n + 1 + Z.of_nat k ∧ bi !! k = Some r' ∧ memoryBlockAllocated r' = Some l)
    → ∃ k r', i = n + Z.of_nat k ∧ (r :: bi) !! k = Some r' ∧ memoryBlockAllocated r' = Some l) as Hs.
  { intros n' l' (k & r' & -> & ? & ?). exists (S k), r'. split; [lia|done]. }
  destruct (memoryBlockAllocated r) as [b0|] eqn:Er; [destruct (Pos.ltb_spec b0 l)|];
    intros E; destruct (IH _ _ _ E) as (H1 & H2 & H3).
  - split; [lia|]. split.
    + intros r' b' [->|Hr]%elem_of_cons Hb'; [assert (b' = b0) as -> by congruence; lia|eauto].
    + intros Hb. destruct (decide (b = b0)) as [->|]; [|by apply Hs, H3].
      destruct (before_loop_same _ _ _ _ _ _ E) as [|[_ ->]]; [lia|].
      exists 0%nat, r. split; [lia|done].
  - split; [done|]. split; [|by intros; apply Hs, H3].
    intros r' b' [->|Hr]%elem_of_cons Hb'; [assert (b' = b0) as -> by congruence; lia|eauto].
  - split; [done|]. split; [|by intros; apply Hs, H3].
    intros r' b' [->|Hr]%elem_of_cons Hb'; [congruence|eauto].
Qed.

Lemma before_block_is_lowest_witness :
  let bi := [BlockInformation (Some 8%positive) 1 0; BlockInformation (Some 2%positive) 1 0] in
  before_loop bi 0 9%positive INVALID_MONITORING_INDEX = (2%positive, 1) ∧
  (2 ≤ 9)%positive ∧
  (∀ r b', r ∈ bi → memoryBlockAllocated r = Some b' → (2 ≤ b')%positive) ∧
  (2%positive ≠ 9%positive → ∃ k r, 1 = 0 + Z.of_nat k ∧ bi !! k = Some r ∧
     memoryBlockAllocated r = Some 2%positive).
Proof.
  intros bi. split; [reflexivity|].
  exact (before_block_is_lowest bi 0 9 INVALID_MONITORING_INDEX 2 1 eq_refl).
Defined.
