(* ===== verification/ApiError.v ===== *)
(** * The error code of the API

    [_errorCode] of [lpasdk_api.c]: the functions of the library report errors
    through one variable, of which only the first error since the last reset is
    kept. *)

From S2P Require Import Prelude StateMonad.

(** The enumeration of lpasdk_api.h. *)
Inductive LPA_API_ERROR :=
  | LPA_NO_ERROR | LPA_NOT_INITIALIZED | LPA_ERROR_INVALID_PARAMETER | LPA_ERROR_INSUFFICIENT_BUFFER
  | LPA_ERROR_INVALID_SW | LPA_ERROR_ISDR_NOT_SELECTED | LPA_ERROR_ISDR_ALREADY_SELECTED
  | LPA_ERROR_SE_MEDIA_NOT_INITIALIZED | LPA_ERROR_SE_MEDIA_CONTEXT_NOT_ESTABLISHED
  | LPA_ERROR_SE_MEDIA_READER_CONNECTION | LPA_ERROR_SE_MEDIA_CONTEXT_NOT_RELEASED
  | LPA_ERROR_SE_MEDIA_READER_NOT_DISCONNECTED | LPA_ERROR_SE_MEDIA_UNABLE_TO_SELECT_ISDR
  | LPA_ERROR_INVALID_GET_PROFILES_INFO_EXCHANGE | LPA_ERROR_INVALID_GET_EID_EXCHANGE
  | LPA_ERROR_INVALID_GET_EUICC_ADDRESS | LPA_ERROR_INVALID_MEMORY_RESET_EXCHANGE
  | LPA_ERROR_INVALID_SET_DEFAULT_SMDP_ADDRESS | LPA_ERROR_INVALID_GET_SMDP_ADDRESS
  | LPA_ERROR_INVALID_GET_SMDS_ADDRESS | LPA_ERROR_PARAMETER_NOT_AUTHORIZED | LPA_ERROR_UNKNOWN_PARAMETER
  | LPA_ERROR_INVALID_PARAMETER_TYPE | LPA_ERROR_INCORRECT_PARAMETER_TYPE | LPA_ERROR_PARAMETER_INTERNAL_ERROR
  | LPA_ERROR_UNABLE_TO_INIT_LOG | LPA_ERROR_MISSING_CONFIG_FILE | LPA_ERROR_UNABLE_TO_LOAD_CONFIG_FILE
  | LPA_ERROR_CONFIG_FILE_MISSING_MANDATORY_KEY | LPA_ERROR_CONFIG_FILE_INCORRECT_KEY_VALUE
  | LPA_ERROR_UNABLE_TO_INITIALIZE_LPA_MANAGER | LPA_ERROR_UNABLE_TO_INITIALIZE_HTTP_MEDIA
  | LPA_ERROR_EXTENDED_API_UNAVAILABLE | LPA_ERROR_PROCESSING_ERROR | LPA_ERROR_LOCAL_PROFILE_NOT_FOUND
  | LPA_ERROR_LOCAL_PROFILE_INCORRECT_STATE | LPA_ERROR_LOCAL_PROFILE_CAT_BUSY
  | LPA_ERROR_LOCAL_PROFILE_INCORRECT_CARD_RESPONSE | LPA_ERROR_LOCAL_PROFILE_UNKNOWN_ERROR
  | LPA_ERROR_LOCAL_PROFILE_NOTHING_TO_DELETE | LPA_ERROR_LOCAL_PROFILE_UNDEFINED_ERROR
  | LPA_ERROR_LOCAL_PROFILE_UNABLE_TO_EXTRACT_DATA | LPA_ERROR_LOCAL_PROFILE_ICCID_OR_AID_NOT_FOUND
  | LPA_ERROR_LOCAL_PROFILE_NOT_IN_DISABLE_STATE | LPA_ERROR_LOCAL_PROFILE_DISALLOWED_BY_POLICY
  | LPA_ERROR_LOCAL_PROFILE_WRONG_PROFILE_REENABLING | LPA_ERROR_LOCAL_PROFILE_NOT_IN_ENABLE_STATE
  | LPA_ERROR_LOCAL_PROFILE_INVALID_DATA_EXCHANGE | LPA_ERROR_NOTIFICATION_INCORRECT_CARD_RESPONSE
  | LPA_ERROR_NOTIFICATION_NOTHING_TO_DELETE | LPA_ERROR_NOTIFICATION_UNDEFINED_ERROR
  | LPA_ERROR_NOTIFICATION_UNKNOWN_ERROR | LPA_ERROR_NOTIFICATION_INVALID_CARD_DATA
  | LPA_ERROR_DOWNLOAD_PROFILE_PARAMETER_ERROR | LPA_ERROR_INVALID_GET_EUICC_INFO
  | LPA_ERROR_INVALID_GET_UICC_CHALLENGE | LPA_ERROR_INVALID_SERVER_ADDRESS
  | LPA_ERROR_FAILED_INITIAL_AUTHENTICATION | LPA_ERROR_FAILED_AUTHENTICATE_SERVER
  | LPA_ERROR_FAILED_AUTHENTICATE_CLIENT | LPA_ERROR_AUTHENTICATE_CLIENT_EXCHANGE
  | LPA_ERROR_FAILED_PREPARE_DOWNLOAD | LPA_ERROR_INVALID_ACTIVATION_CODE | LPA_ERROR_INVALID_CTX_PARAM
  | LPA_ERROR_INVALID_TRANSACTIONID | LPA_ERROR_INVALID_AUTHENTICATE_SERVER_RESPONSE
  | LPA_ERROR_INVALID_PREPARE_DOWNLOAD_RESPONSE | LPA_ERROR_INVALID_MATCHINGID_OR_DEVICE_INFO_TLV
  | LPA_ERROR_INVALID_DEVICE_INFO_TLV | LPA_ERROR_FAILED_GET_BOUND_PROFILE_PACKAGE | LPA_ERROR_FAILED_LOAD_BPP
  | LPA_ERROR_FAILED_INITIAL_SECURITY_CHANNEL | LPA_ERROR_FAILED_CONFIGURE_ISDP
  | LPA_ERROR_FAILED_STORE_META_DATA | LPA_ERROR_FAILED_REPLACE_SESSION_KEY
  | LPA_ERROR_FAILED_LOAD_PROFILE_ELEMENTS | LPA_ERROR_FAILED_GET_DATA_FROM_ACTIVATION_CODE
  | LPA_ERROR_INVALID_PIR_RESPONSE | LPA_ERROR_GET_INTERNAL_SERVER_ERROR | LPA_ERROR_CJSON_PARSE_FAILURE
  | LPA_ERROR_FAILED_SEND_NOTIFICATION_OR_NOT_GET_STATUS_CODE | LPA_ERROR_SERVER_COMMUNICATION_ISSUE
  | LPA_ERROR_INVALID_EVENT_ID | LPA_ERROR_INVALID_RSP_SERVER_ADDRESS | LPA_ERROR_INVALID_EVENT_ENTRIES
  | LPA_ERROR_NO_EVENT_RECORD_FOUND | LPA_ERROR_CONFIRMATION_CODE_MISSING_OR_EMPTY
  | LPA_ERROR_SERVER_RETURN_404_STATUS_CODE | LPA_ERROR_SERVER_RETURN_500_STATUS_CODE
  | LPA_ERROR_SE_MEDIA_UNABLE_TO_UNSELECT_ISDR | LPA_ERROR_INVALID_SERVERSIGNED1
  | LPA_ERROR_INVALID_SERVERSIGNATURE1 | LPA_ERROR_INVALID_EUICCCIPKIDTOBEUSED
  | LPA_ERROR_INVALID_SERVERCERTIFICATE | LPA_ERROR_INVALID_SERVER_RESPONSE | LPA_ERROR_FAILED_CANCEL_SESSION
  | LPA_ERROR_INVALID_PROFILE_METADATA | LPA_ERROR_INVALID_GET_RAT | LPA_ERROR_PPR_NOT_ALLOWED
  | LPA_ERROR_DOWNLOAD_SESSION_CANCELED_BY_USER | LPA_ERROR_OID_MISMATCH | LPA_ERROR_INVALID_BPP_DATA
  | SE_MEDIA_ERROR_BROKEN_PIPE | SE_MEDIA_E_CANCELLED | SE_MEDIA_E_CANT_DISPOSE | SE_MEDIA_E_CARD_UNSUPPORTED
  | SE_MEDIA_E_DUPLICATE_READER | SE_MEDIA_E_FILE_NOT_FOUND | SE_MEDIA_E_INSUFFICIENT_BUFFER
  | SE_MEDIA_E_INVALID_ATR | SE_MEDIA_E_INVALID_HANDLE | SE_MEDIA_E_INVALID_PARAMETER
  | SE_MEDIA_E_INVALID_TARGET | SE_MEDIA_E_INVALID_VALUE | SE_MEDIA_E_NO_MEMORY
  | SE_MEDIA_E_NO_READERS_AVAILABLE | SE_MEDIA_E_NO_SMARTCARD | SE_MEDIA_E_NOT_READY
  | SE_MEDIA_E_PROTO_MISMATCH | SE_MEDIA_E_READER_UNAVAILABLE | SE_MEDIA_E_READER_UNSUPPORTED
  | SE_MEDIA_E_SERVER_TOO_BUSY | SE_MEDIA_E_SERVICE_STOPPED | SE_MEDIA_E_SHARING_VIOLATION
  | SE_MEDIA_E_SYSTEM_CANCELLED | SE_MEDIA_E_TIMEOUT | SE_MEDIA_E_UNEXPECTED | SE_MEDIA_E_UNKNOWN_CARD
  | SE_MEDIA_E_UNKNOWN_READER | SE_MEDIA_W_REMOVED_CARD | SE_MEDIA_W_RESET_CARD | SE_MEDIA_W_UNSUPPORTED_CARD
  | SE_MEDIA_E_CHAINING_GET_RESPONSE.

(** The value of a constant: the first of a group is given, the others follow
    it. *)
Definition error_value (e : LPA_API_ERROR) : Z :=
  match e with
  | LPA_NO_ERROR => 0 | LPA_NOT_INITIALIZED => 0x1001 | LPA_ERROR_INVALID_PARAMETER => 0x2001
  | LPA_ERROR_INSUFFICIENT_BUFFER => 0x2002 | LPA_ERROR_INVALID_SW => 0x2003
  | LPA_ERROR_ISDR_NOT_SELECTED => 0x2004 | LPA_ERROR_ISDR_ALREADY_SELECTED => 0x2005
  | LPA_ERROR_SE_MEDIA_NOT_INITIALIZED => 0x2006 | LPA_ERROR_SE_MEDIA_CONTEXT_NOT_ESTABLISHED => 0x2007
  | LPA_ERROR_SE_MEDIA_READER_CONNECTION => 0x2008 | LPA_ERROR_SE_MEDIA_CONTEXT_NOT_RELEASED => 0x2009
  | LPA_ERROR_SE_MEDIA_READER_NOT_DISCONNECTED => 0x200a | LPA_ERROR_SE_MEDIA_UNABLE_TO_SELECT_ISDR => 0x200b
  | LPA_ERROR_INVALID_GET_PROFILES_INFO_EXCHANGE => 0x200c | LPA_ERROR_INVALID_GET_EID_EXCHANGE => 0x200d
  | LPA_ERROR_INVALID_GET_EUICC_ADDRESS => 0x200e | LPA_ERROR_INVALID_MEMORY_RESET_EXCHANGE => 0x200f
  | LPA_ERROR_INVALID_SET_DEFAULT_SMDP_ADDRESS => 0x2010 | LPA_ERROR_INVALID_GET_SMDP_ADDRESS => 0x2011
  | LPA_ERROR_INVALID_GET_SMDS_ADDRESS => 0x2012 | LPA_ERROR_PARAMETER_NOT_AUTHORIZED => 0x2013
  | LPA_ERROR_UNKNOWN_PARAMETER => 0x2014 | LPA_ERROR_INVALID_PARAMETER_TYPE => 0x2015
  | LPA_ERROR_INCORRECT_PARAMETER_TYPE => 0x2016 | LPA_ERROR_PARAMETER_INTERNAL_ERROR => 0x2017
  | LPA_ERROR_UNABLE_TO_INIT_LOG => 0x2018 | LPA_ERROR_MISSING_CONFIG_FILE => 0x2019
  | LPA_ERROR_UNABLE_TO_LOAD_CONFIG_FILE => 0x201a | LPA_ERROR_CONFIG_FILE_MISSING_MANDATORY_KEY => 0x201b
  | LPA_ERROR_CONFIG_FILE_INCORRECT_KEY_VALUE => 0x201c | LPA_ERROR_UNABLE_TO_INITIALIZE_LPA_MANAGER => 0x201d
  | LPA_ERROR_UNABLE_TO_INITIALIZE_HTTP_MEDIA => 0x201e | LPA_ERROR_EXTENDED_API_UNAVAILABLE => 0x201f
  | LPA_ERROR_PROCESSING_ERROR => 0x2020 | LPA_ERROR_LOCAL_PROFILE_NOT_FOUND => 0x2101
  | LPA_ERROR_LOCAL_PROFILE_INCORRECT_STATE => 0x2102 | LPA_ERROR_LOCAL_PROFILE_CAT_BUSY => 0x2103
  | LPA_ERROR_LOCAL_PROFILE_INCORRECT_CARD_RESPONSE => 0x2104 | LPA_ERROR_LOCAL_PROFILE_UNKNOWN_ERROR => 0x2105
  | LPA_ERROR_LOCAL_PROFILE_NOTHING_TO_DELETE => 0x2106 | LPA_ERROR_LOCAL_PROFILE_UNDEFINED_ERROR => 0x2107
  | LPA_ERROR_LOCAL_PROFILE_UNABLE_TO_EXTRACT_DATA => 0x2108
  | LPA_ERROR_LOCAL_PROFILE_ICCID_OR_AID_NOT_FOUND => 0x2109
  | LPA_ERROR_LOCAL_PROFILE_NOT_IN_DISABLE_STATE => 0x210a
  | LPA_ERROR_LOCAL_PROFILE_DISALLOWED_BY_POLICY => 0x210b
  | LPA_ERROR_LOCAL_PROFILE_WRONG_PROFILE_REENABLING => 0x210c
  | LPA_ERROR_LOCAL_PROFILE_NOT_IN_ENABLE_STATE => 0x210d
  | LPA_ERROR_LOCAL_PROFILE_INVALID_DATA_EXCHANGE => 0x210e
  | LPA_ERROR_NOTIFICATION_INCORRECT_CARD_RESPONSE => 0x2201
  | LPA_ERROR_NOTIFICATION_NOTHING_TO_DELETE => 0x2202 | LPA_ERROR_NOTIFICATION_UNDEFINED_ERROR => 0x2203
  | LPA_ERROR_NOTIFICATION_UNKNOWN_ERROR => 0x2204 | LPA_ERROR_NOTIFICATION_INVALID_CARD_DATA => 0x2205
  | LPA_ERROR_DOWNLOAD_PROFILE_PARAMETER_ERROR => 0x2301 | LPA_ERROR_INVALID_GET_EUICC_INFO => 0x2302
  | LPA_ERROR_INVALID_GET_UICC_CHALLENGE => 0x2303 | LPA_ERROR_INVALID_SERVER_ADDRESS => 0x2304
  | LPA_ERROR_FAILED_INITIAL_AUTHENTICATION => 0x2305 | LPA_ERROR_FAILED_AUTHENTICATE_SERVER => 0x2306
  | LPA_ERROR_FAILED_AUTHENTICATE_CLIENT => 0x2307 | LPA_ERROR_AUTHENTICATE_CLIENT_EXCHANGE => 0x2308
  | LPA_ERROR_FAILED_PREPARE_DOWNLOAD => 0x2309 | LPA_ERROR_INVALID_ACTIVATION_CODE => 0x230a
  | LPA_ERROR_INVALID_CTX_PARAM => 0x230b | LPA_ERROR_INVALID_TRANSACTIONID => 0x230c
  | LPA_ERROR_INVALID_AUTHENTICATE_SERVER_RESPONSE => 0x230d
  | LPA_ERROR_INVALID_PREPARE_DOWNLOAD_RESPONSE => 0x230e
  | LPA_ERROR_INVALID_MATCHINGID_OR_DEVICE_INFO_TLV => 0x230f | LPA_ERROR_INVALID_DEVICE_INFO_TLV => 0x2310
  | LPA_ERROR_FAILED_GET_BOUND_PROFILE_PACKAGE => 0x2311 | LPA_ERROR_FAILED_LOAD_BPP => 0x2312
  | LPA_ERROR_FAILED_INITIAL_SECURITY_CHANNEL => 0x2313 | LPA_ERROR_FAILED_CONFIGURE_ISDP => 0x2314
  | LPA_ERROR_FAILED_STORE_META_DATA => 0x2315 | LPA_ERROR_FAILED_REPLACE_SESSION_KEY => 0x2316
  | LPA_ERROR_FAILED_LOAD_PROFILE_ELEMENTS => 0x2317 | LPA_ERROR_FAILED_GET_DATA_FROM_ACTIVATION_CODE => 0x2318
  | LPA_ERROR_INVALID_PIR_RESPONSE => 0x2319 | LPA_ERROR_GET_INTERNAL_SERVER_ERROR => 0x231a
  | LPA_ERROR_CJSON_PARSE_FAILURE => 0x231b
  | LPA_ERROR_FAILED_SEND_NOTIFICATION_OR_NOT_GET_STATUS_CODE => 0x231c
  | LPA_ERROR_SERVER_COMMUNICATION_ISSUE => 0x231d | LPA_ERROR_INVALID_EVENT_ID => 0x231e
  | LPA_ERROR_INVALID_RSP_SERVER_ADDRESS => 0x231f | LPA_ERROR_INVALID_EVENT_ENTRIES => 0x2320
  | LPA_ERROR_NO_EVENT_RECORD_FOUND => 0x2321 | LPA_ERROR_CONFIRMATION_CODE_MISSING_OR_EMPTY => 0x2322
  | LPA_ERROR_SERVER_RETURN_404_STATUS_CODE => 0x2323 | LPA_ERROR_SERVER_RETURN_500_STATUS_CODE => 0x2324
  | LPA_ERROR_SE_MEDIA_UNABLE_TO_UNSELECT_ISDR => 0x2325 | LPA_ERROR_INVALID_SERVERSIGNED1 => 0x2326
  | LPA_ERROR_INVALID_SERVERSIGNATURE1 => 0x2327 | LPA_ERROR_INVALID_EUICCCIPKIDTOBEUSED => 0x2328
  | LPA_ERROR_INVALID_SERVERCERTIFICATE => 0x2329 | LPA_ERROR_INVALID_SERVER_RESPONSE => 0x232a
  | LPA_ERROR_FAILED_CANCEL_SESSION => 0x232b | LPA_ERROR_INVALID_PROFILE_METADATA => 0x232c
  | LPA_ERROR_INVALID_GET_RAT => 0x232d | LPA_ERROR_PPR_NOT_ALLOWED => 0x232e
  | LPA_ERROR_DOWNLOAD_SESSION_CANCELED_BY_USER => 0x232f | LPA_ERROR_OID_MISMATCH => 0x2330
  | LPA_ERROR_INVALID_BPP_DATA => 0x2331 | SE_MEDIA_ERROR_BROKEN_PIPE => 0x8000
  | SE_MEDIA_E_CANCELLED => 0x8001 | SE_MEDIA_E_CANT_DISPOSE => 0x8002 | SE_MEDIA_E_CARD_UNSUPPORTED => 0x8003
  | SE_MEDIA_E_DUPLICATE_READER => 0x8004 | SE_MEDIA_E_FILE_NOT_FOUND => 0x8005
  | SE_MEDIA_E_INSUFFICIENT_BUFFER => 0x8006 | SE_MEDIA_E_INVALID_ATR => 0x8007
  | SE_MEDIA_E_INVALID_HANDLE => 0x8008 | SE_MEDIA_E_INVALID_PARAMETER => 0x8009
  | SE_MEDIA_E_INVALID_TARGET => 0x800a | SE_MEDIA_E_INVALID_VALUE => 0x800b | SE_MEDIA_E_NO_MEMORY => 0x800c
  | SE_MEDIA_E_NO_READERS_AVAILABLE => 0x800d | SE_MEDIA_E_NO_SMARTCARD => 0x800e
  | SE_MEDIA_E_NOT_READY => 0x800f | SE_MEDIA_E_PROTO_MISMATCH => 0x8010
  | SE_MEDIA_E_READER_UNAVAILABLE => 0x8011 | SE_MEDIA_E_READER_UNSUPPORTED => 0x8012
  | SE_MEDIA_E_SERVER_TOO_BUSY => 0x8013 | SE_MEDIA_E_SERVICE_STOPPED => 0x8014
  | SE_MEDIA_E_SHARING_VIOLATION => 0x8015 | SE_MEDIA_E_SYSTEM_CANCELLED => 0x8016
  | SE_MEDIA_E_TIMEOUT => 0x8017 | SE_MEDIA_E_UNEXPECTED => 0x8018 | SE_MEDIA_E_UNKNOWN_CARD => 0x8019
  | SE_MEDIA_E_UNKNOWN_READER => 0x801a | SE_MEDIA_W_REMOVED_CARD => 0x801b | SE_MEDIA_W_RESET_CARD => 0x801c
  | SE_MEDIA_W_UNSUPPORTED_CARD => 0x801d | SE_MEDIA_E_CHAINING_GET_RESPONSE => 0x801e
  end.

Definition all_errors : list LPA_API_ERROR :=
  [LPA_NO_ERROR; LPA_NOT_INITIALIZED; LPA_ERROR_INVALID_PARAMETER; LPA_ERROR_INSUFFICIENT_BUFFER;
   LPA_ERROR_INVALID_SW; LPA_ERROR_ISDR_NOT_SELECTED; LPA_ERROR_ISDR_ALREADY_SELECTED;
   LPA_ERROR_SE_MEDIA_NOT_INITIALIZED; LPA_ERROR_SE_MEDIA_CONTEXT_NOT_ESTABLISHED;
   LPA_ERROR_SE_MEDIA_READER_CONNECTION; LPA_ERROR_SE_MEDIA_CONTEXT_NOT_RELEASED;
   LPA_ERROR_SE_MEDIA_READER_NOT_DISCONNECTED; LPA_ERROR_SE_MEDIA_UNABLE_TO_SELECT_ISDR;
   LPA_ERROR_INVALID_GET_PROFILES_INFO_EXCHANGE; LPA_ERROR_INVALID_GET_EID_EXCHANGE;
   LPA_ERROR_INVALID_GET_EUICC_ADDRESS; LPA_ERROR_INVALID_MEMORY_RESET_EXCHANGE;
   LPA_ERROR_INVALID_SET_DEFAULT_SMDP_ADDRESS; LPA_ERROR_INVALID_GET_SMDP_ADDRESS;
   LPA_ERROR_INVALID_GET_SMDS_ADDRESS; LPA_ERROR_PARAMETER_NOT_AUTHORIZED; LPA_ERROR_UNKNOWN_PARAMETER;
   LPA_ERROR_INVALID_PARAMETER_TYPE; LPA_ERROR_INCORRECT_PARAMETER_TYPE; LPA_ERROR_PARAMETER_INTERNAL_ERROR;
   LPA_ERROR_UNABLE_TO_INIT_LOG; LPA_ERROR_MISSING_CONFIG_FILE; LPA_ERROR_UNABLE_TO_LOAD_CONFIG_FILE;
   LPA_ERROR_CONFIG_FILE_MISSING_MANDATORY_KEY; LPA_ERROR_CONFIG_FILE_INCORRECT_KEY_VALUE;
   LPA_ERROR_UNABLE_TO_INITIALIZE_LPA_MANAGER; LPA_ERROR_UNABLE_TO_INITIALIZE_HTTP_MEDIA;
   LPA_ERROR_EXTENDED_API_UNAVAILABLE; LPA_ERROR_PROCESSING_ERROR; LPA_ERROR_LOCAL_PROFILE_NOT_FOUND;
   LPA_ERROR_LOCAL_PROFILE_INCORRECT_STATE; LPA_ERROR_LOCAL_PROFILE_CAT_BUSY;
   LPA_ERROR_LOCAL_PROFILE_INCORRECT_CARD_RESPONSE; LPA_ERROR_LOCAL_PROFILE_UNKNOWN_ERROR;
   LPA_ERROR_LOCAL_PROFILE_NOTHING_TO_DELETE; LPA_ERROR_LOCAL_PROFILE_UNDEFINED_ERROR;
   LPA_ERROR_LOCAL_PROFILE_UNABLE_TO_EXTRACT_DATA; LPA_ERROR_LOCAL_PROFILE_ICCID_OR_AID_NOT_FOUND;
   LPA_ERROR_LOCAL_PROFILE_NOT_IN_DISABLE_STATE; LPA_ERROR_LOCAL_PROFILE_DISALLOWED_BY_POLICY;
   LPA_ERROR_LOCAL_PROFILE_WRONG_PROFILE_REENABLING; LPA_ERROR_LOCAL_PROFILE_NOT_IN_ENABLE_STATE;
   LPA_ERROR_LOCAL_PROFILE_INVALID_DATA_EXCHANGE; LPA_ERROR_NOTIFICATION_INCORRECT_CARD_RESPONSE;
   LPA_ERROR_NOTIFICATION_NOTHING_TO_DELETE; LPA_ERROR_NOTIFICATION_UNDEFINED_ERROR;
   LPA_ERROR_NOTIFICATION_UNKNOWN_ERROR; LPA_ERROR_NOTIFICATION_INVALID_CARD_DATA;
   LPA_ERROR_DOWNLOAD_PROFILE_PARAMETER_ERROR; LPA_ERROR_INVALID_GET_EUICC_INFO;
   LPA_ERROR_INVALID_GET_UICC_CHALLENGE; LPA_ERROR_INVALID_SERVER_ADDRESS;
   LPA_ERROR_FAILED_INITIAL_AUTHENTICATION; LPA_ERROR_FAILED_AUTHENTICATE_SERVER;
   LPA_ERROR_FAILED_AUTHENTICATE_CLIENT; LPA_ERROR_AUTHENTICATE_CLIENT_EXCHANGE;
   LPA_ERROR_FAILED_PREPARE_DOWNLOAD; LPA_ERROR_INVALID_ACTIVATION_CODE; LPA_ERROR_INVALID_CTX_PARAM;
   LPA_ERROR_INVALID_TRANSACTIONID; LPA_ERROR_INVALID_AUTHENTICATE_SERVER_RESPONSE;
   LPA_ERROR_INVALID_PREPARE_DOWNLOAD_RESPONSE; LPA_ERROR_INVALID_MATCHINGID_OR_DEVICE_INFO_TLV;
   LPA_ERROR_INVALID_DEVICE_INFO_TLV; LPA_ERROR_FAILED_GET_BOUND_PROFILE_PACKAGE; LPA_ERROR_FAILED_LOAD_BPP;
   LPA_ERROR_FAILED_INITIAL_SECURITY_CHANNEL; LPA_ERROR_FAILED_CONFIGURE_ISDP; LPA_ERROR_FAILED_STORE_META_DATA;
   LPA_ERROR_FAILED_REPLACE_SESSION_KEY; LPA_ERROR_FAILED_LOAD_PROFILE_ELEMENTS;
   LPA_ERROR_FAILED_GET_DATA_FROM_ACTIVATION_CODE; LPA_ERROR_INVALID_PIR_RESPONSE;
   LPA_ERROR_GET_INTERNAL_SERVER_ERROR; LPA_ERROR_CJSON_PARSE_FAILURE;
   LPA_ERROR_FAILED_SEND_NOTIFICATION_OR_NOT_GET_STATUS_CODE; LPA_ERROR_SERVER_COMMUNICATION_ISSUE;
   LPA_ERROR_INVALID_EVENT_ID; LPA_ERROR_INVALID_RSP_SERVER_ADDRESS; LPA_ERROR_INVALID_EVENT_ENTRIES;
   LPA_ERROR_NO_EVENT_RECORD_FOUND; LPA_ERROR_CONFIRMATION_CODE_MISSING_OR_EMPTY;
   LPA_ERROR_SERVER_RETURN_404_STATUS_CODE; LPA_ERROR_SERVER_RETURN_500_STATUS_CODE;
   LPA_ERROR_SE_MEDIA_UNABLE_TO_UNSELECT_ISDR; LPA_ERROR_INVALID_SERVERSIGNED1;
   LPA_ERROR_INVALID_SERVERSIGNATURE1; LPA_ERROR_INVALID_EUICCCIPKIDTOBEUSED;
   LPA_ERROR_INVALID_SERVERCERTIFICATE; LPA_ERROR_INVALID_SERVER_RESPONSE; LPA_ERROR_FAILED_CANCEL_SESSION;
   LPA_ERROR_INVALID_PROFILE_METADATA; LPA_ERROR_INVALID_GET_RAT; LPA_ERROR_PPR_NOT_ALLOWED;
   LPA_ERROR_DOWNLOAD_SESSION_CANCELED_BY_USER; LPA_ERROR_OID_MISMATCH; LPA_ERROR_INVALID_BPP_DATA;
   SE_MEDIA_ERROR_BROKEN_PIPE; SE_MEDIA_E_CANCELLED; SE_MEDIA_E_CANT_DISPOSE; SE_MEDIA_E_CARD_UNSUPPORTED;
   SE_MEDIA_E_DUPLICATE_READER; SE_MEDIA_E_FILE_NOT_FOUND; SE_MEDIA_E_INSUFFICIENT_BUFFER;
   SE_MEDIA_E_INVALID_ATR; SE_MEDIA_E_INVALID_HANDLE; SE_MEDIA_E_INVALID_PARAMETER; SE_MEDIA_E_INVALID_TARGET;
   SE_MEDIA_E_INVALID_VALUE; SE_MEDIA_E_NO_MEMORY; SE_MEDIA_E_NO_READERS_AVAILABLE; SE_MEDIA_E_NO_SMARTCARD;
   SE_MEDIA_E_NOT_READY; SE_MEDIA_E_PROTO_MISMATCH; SE_MEDIA_E_READER_UNAVAILABLE;
   SE_MEDIA_E_READER_UNSUPPORTED; SE_MEDIA_E_SERVER_TOO_BUSY; SE_MEDIA_E_SERVICE_STOPPED;
   SE_MEDIA_E_SHARING_VIOLATION; SE_MEDIA_E_SYSTEM_CANCELLED; SE_MEDIA_E_TIMEOUT; SE_MEDIA_E_UNEXPECTED;
   SE_MEDIA_E_UNKNOWN_CARD; SE_MEDIA_E_UNKNOWN_READER; SE_MEDIA_W_REMOVED_CARD; SE_MEDIA_W_RESET_CARD;
   SE_MEDIA_W_UNSUPPORTED_CARD; SE_MEDIA_E_CHAINING_GET_RESPONSE].

Lemma error_value_inv e : head (filter (λ e', error_value e' = error_value e) all_errors) = Some e.
Proof. by destruct e. Qed.

#[export] Instance error_value_inj : Inj (=) (=) error_value.
Proof. intros e e' H. pose proof (error_value_inv e) as E. rewrite H, error_value_inv in E. congruence. Qed.

#[export] Instance LPA_API_ERROR_eq_dec : EqDecision LPA_API_ERROR.
Proof. refine (λ e e', cast_if (decide (error_value e = error_value e'))); [by apply (inj error_value)|congruence]. Defined.

(** The variable when [e] is reported over the code [c]. *)
Definition first_error (e c : LPA_API_ERROR) : LPA_API_ERROR :=
  if decide (c = LPA_NO_ERROR) then e else c.

Abbreviation API := (ST LPA_API_ERROR).

Definition lpaSetErrorCode (errorCode : LPA_API_ERROR) : API unit := modifies (first_error errorCode).
Definition lpaResetErrorCode : API unit := modifies (λ _, LPA_NO_ERROR).
Definition lpaIsError : API bool := gets (λ c, negb (bool_decide (c = LPA_NO_ERROR))).
Definition lpaGetErrorCodeNoClear : API LPA_API_ERROR := gets id.
Definition lpaGetErrorCode : API LPA_API_ERROR :=
  errorCode ← gets id; modifies (λ _, LPA_NO_ERROR);; mret errorCode.

(** The local variable of the functions that go on while no error occurred. *)
Definition no_error (e : LPA_API_ERROR) : bool := bool_decide (e = LPA_NO_ERROR).

Lemma no_error_true e : no_error e = true → e = LPA_NO_ERROR.
Proof. apply bool_decide_eq_true_1. Qed.
Lemma no_error_false e : no_error e = false → e ≠ LPA_NO_ERROR.
Proof. apply bool_decide_eq_false_1. Qed.

Lemma first_error_none e : first_error e LPA_NO_ERROR = e.
Proof. done. Qed.

Lemma first_error_kept e c : c ≠ LPA_NO_ERROR → first_error e c = c.
Proof. intros H. unfold first_error. by rewrite decide_False. Qed.

Lemma first_error_error e c : e ≠ LPA_NO_ERROR → first_error e c ≠ LPA_NO_ERROR.
Proof. intros H. unfold first_error. by case_decide. Qed.

(** Reports accumulate: the first of a sequence of errors is the one that stays. *)
Lemma first_error_assoc e1 e2 c :
  first_error e2 (first_error e1 c) = first_error (first_error e2 e1) c.
Proof. unfold first_error. by repeat case_decide. Qed.
