(* ===== verification/SeMedia.v ===== *)
(** * The secure element media manager ([core/semedia_manager.c])

    The layer between the LPA and the driver of the card reader: it dispatches
    to the driver, assembles the pieces of a chained response (status words
    61XX), and filters the final status word.

    A driver is the structure of function pointers of semedia_base.h, some of
    which may be [NULL]; its own state is of any type [D]. The functions are
    executable: they run in a state monad whose [None] is undefined behaviour
    (an access outside of the response buffer, a call of [NULL]). *)

From S2P Require Import Prelude.
From S2P Require Export StateMonad ApiError.

(** ** The driver's interface *)

(** [seMediaTransmitApdu(cmd, ..., p, &size)]: the command, the cells of the
    response buffer from [p] on and the value of [size]; the result, the cells
    and the size it leaves. *)
Abbreviation transmitter D := (list Z → list Z → Z → ST D (bool * list Z * Z)).

Record TSEMedia (D : Type) := {
  seMediaEstablishContext : option (ST D bool);
  seMediaReleaseContext : option (ST D bool);
  seMediaIsValidContext : option (ST D bool);
  seMediaIsContextEstablished : option (ST D bool);
  (** whether the callback is non-null *)
  seMediaSetCallbackEventExecutionError : option (bool → ST D bool);
  (** the result and the names stored in the caller's array *)
  seMediaListReader : option (Z → ST D (bool * list (list Z)));
  seMediaConnect : option (list Z → ST D bool);
  seMediaIsConnected : option (ST D bool);
  seMediaTransmitApdu : option (transmitter D);
  seMediaDisconnect : option (ST D bool);
  seMediaDisconnectWithReset : option (ST D bool);
  (** result and status of the card *)
  seMediaGetStatus : option (ST D (bool * Z))
}.
Arguments seMediaEstablishContext {D}.
Arguments seMediaReleaseContext {D}.
Arguments seMediaIsValidContext {D}.
Arguments seMediaIsContextEstablished {D}.
Arguments seMediaSetCallbackEventExecutionError {D}.
Arguments seMediaListReader {D}.
Arguments seMediaConnect {D}.
Arguments seMediaIsConnected {D}.
Arguments seMediaTransmitApdu {D}.
Arguments seMediaDisconnect {D}.
Arguments seMediaDisconnectWithReset {D}.
Arguments seMediaGetStatus {D}.

Definition SE_MEDIA_STATUS_REMOVED_CARD : Z := 0x80001.

Definition _manageAutomatically61XX : bool := true.
(** LPA_SDK__NUMBER_OF_RETRY_FOR_CHAINED_GET_RESPONSE is 2 in the build. *)
Definition LPA_RETRY_CHAINED_GET_RESPONSE_MGT : bool := true.

Section manager.
Context {D : Type}.

(** [_seMedia], the state of the driver it points to, and [_errorCode] of
    lpasdk_api.c. *)
Record se_state := SeState {
  _seMedia : option (TSEMedia D);
  driver : D;
  _errorCode : LPA_API_ERROR
}.

Abbreviation SE := (ST se_state).

Definition set_seMedia (m : option (TSEMedia D)) : SE unit :=
  modifies (λ s, SeState m (driver s) (_errorCode s)).

(** Only the first error is kept. *)
Definition lpaSetErrorCode (e : LPA_API_ERROR) : SE unit :=
  modifies (λ s, SeState (_seMedia s) (driver s) (first_error e (_errorCode s))).

(** Calls a function of the driver. *)
Definition call {A} (f : ST D A) : SE A := λ s,
  match f (driver s) with
  | Some (a, d) => Some (a, SeState (_seMedia s) d (_errorCode s))
  | None => None
  end.

(** [if (_seMedia != NULL) if (_seMedia->f != NULL) res = _seMedia->f(...);] *)
Definition dispatch (f : TSEMedia D → option (ST D bool)) : SE bool :=
  m ← gets _seMedia;
  match m with
  | Some t => match f t with Some g => call g | None => mret false end
  | None => mret false
  end.

(** [New_SEMedia] is the constructor of the driver of the build; it returns
    [NULL] when its allocation fails. *)
Definition seMediaManagerInitialize (New_SEMedia : ST D (option (TSEMedia D))) : SE bool :=
  m ← gets _seMedia;
  match m with
  | None =>
      t ← call New_SEMedia;
      set_seMedia t;; mret (match t with Some _ => true | None => false end)
  | Some _ => mret false
  end.

(** The pointer is called without a test. *)
Definition seMediaManagerSetCallbackEventExecutionError (callback : bool) : SE bool :=
  m ← gets _seMedia;
  match m with
  | Some t => g ← opt (seMediaSetCallbackEventExecutionError t); call (g callback)
  | None => mret false
  end.

Definition seMediaManagerIsInitialized : SE bool :=
  m ← gets _seMedia; mret (match m with Some _ => true | None => false end).

(** [Delete_SEMedia] is the destructor of the driver of the build. *)
Definition seMediaManagerUninitialize (Delete_SEMedia : ST D unit) : SE bool :=
  m ← gets _seMedia;
  match m with
  | Some _ => call Delete_SEMedia;; set_seMedia None;; mret true
  | None => mret false
  end.

Definition seMediaManagerEstablishContext : SE bool := dispatch seMediaEstablishContext.
Definition seMediaManagerReleaseContext : SE bool := dispatch seMediaReleaseContext.
Definition seMediaManagerIsContextEstablished : SE bool := dispatch seMediaIsContextEstablished.
Definition seMediaManagerIsValidContext : SE bool := dispatch seMediaIsValidContext.

(** The arguments are non-null. *)
Definition seMediaManagerListReader (readerNameInfoMax : Z) : SE (bool * list (list Z)) :=
  m ← gets _seMedia;
  match m with
  | Some t => match seMediaListReader t with
              | Some f => call (f readerNameInfoMax)
              | None => mret (false, [])
              end
  | None => mret (false, [])
  end.

Definition seMediaManagerConnect (readerName : option (list Z)) : SE bool :=
  match readerName with
  | Some n => dispatch (λ t, (λ f, f n) <$> seMediaConnect t)
  | None => mret false
  end.

Definition seMediaManagerIsConnected : SE bool := dispatch seMediaIsConnected.
Definition seMediaManagerDisconnect : SE bool := dispatch seMediaDisconnect.

(** The test is on another pointer than the call. *)
Definition seMediaManagerDisconnectWithReset : SE bool :=
  m ← gets _seMedia;
  match m with
  | Some t =>
      match seMediaDisconnect t with
      | Some _ => g ← opt (seMediaDisconnectWithReset t); call g
      | None => mret false
      end
  | None => mret false
  end.

(** ** Transmission *)

(** [&buf[off]], which points into the buffer or just past it. *)
Definition cells_from (buf : list Z) (off : Z) : option (list Z) :=
  if (0 <=? off) && (off <=? zlen buf) then Some (drop (Z.to_nat off) buf) else None.

(** [f(_seMedia, cmd, ..., &buf[off], &size)] with [size = max]. *)
Definition transmit_at (f : transmitter D) (cmd buf : list Z) (off max : Z)
  : SE (bool * list Z * Z) :=
  dst ← opt (cells_from buf off);
  '(res, dst', size) ← call (f cmd dst max);
  mret (res, take (Z.to_nat off) buf ++ dst', size).

(** The local variables of the loop on chained responses. *)
Record chain := Chain {
  errorManaging61XX : bool;
  endOfData : bool;
  totalDataSize : Z;
  dataSizeRequested : Z;
  apduResponseSize : Z;
  apduResponseBytes : list Z;
  chain_res : bool
}.

Definition chain_error (c : chain) (buf : list Z) (res : bool) : chain :=
  Chain true (endOfData c) (totalDataSize c) (dataSizeRequested c) 0 buf res.

(** One iteration: a GET RESPONSE for the bytes announced by the last 61XX. *)
Definition get_response_step (f : transmitter D) (max : Z) (c : chain)
  : SE chain :=
  let total := totalDataSize c in
  '(res, buf, size) ← transmit_at f [0x00; 0xC0; 0x00; 0x00; dataSizeRequested c]
                        (apduResponseBytes c) total (u64 (max - total));
  if res && (size >=? 2) then
    sw1 ← opt buf.[total + size - 2];
    if sw1 =? 0x61 then
      le ← opt buf.[total + size - 1];
      mret (Chain false false (total + (size - 2)) le (apduResponseSize c) buf res)
    else
      accepted ← (if sw1 =? 0x90 then sw2 ← opt buf.[total + size - 1]; mret (sw2 =? 0x00)
                  else mret (sw1 =? 0x91));
      if accepted : bool then
        mret (Chain false true (total + size) (dataSizeRequested c) (total + size) buf res)
      else
        instruction_not_supported ←
          (if LPA_RETRY_CHAINED_GET_RESPONSE_MGT && (sw1 =? 0x6D)
           then sw2 ← opt buf.[total + size - 1]; mret (sw2 =? 0x00) else mret false);
        (if instruction_not_supported : bool then lpaSetErrorCode SE_MEDIA_E_CHAINING_GET_RESPONSE
         else mret tt);;
        mret (chain_error c buf res)
  else mret (chain_error c buf res).

(** [while (!errorManaging61XX && !endOfData)]; the loop is not bounded. *)
Fixpoint get_response_loop (fuel : nat) (f : transmitter D) (max : Z) (c : chain)
  : SE chain :=
  if errorManaging61XX c || endOfData c then mret c
  else match fuel with
       | O => mret c
       | S fuel => c' ← get_response_step f max c; get_response_loop fuel f max c'
       end.

(** The driver's status after a failure: a removed card is disconnected. *)
Definition check_card_status (t : TSEMedia D) : SE unit :=
  match seMediaGetStatus t with
  | Some g =>
      '(ok, cardStatus) ← call g;
      if ok && (cardStatus =? SE_MEDIA_STATUS_REMOVED_CARD)
      then seMediaManagerDisconnect;; mret tt else mret tt
  | None => mret tt
  end.

(** The result, the response buffer and the size of the response; [None] when
    the loop has not ended after [fuel] iterations. [buf] is the caller's
    buffer, [max] the value of [*apduResponseMaxSize]. *)
Definition seMediaManagerTransmitApdu (fuel : nat) (cmd buf : list Z) (max : Z)
  : SE (option (bool * list Z * Z)) :=
  m ← gets _seMedia;
  match m with
  | None => mret (Some (false, buf, max))
  | Some t =>
      match seMediaTransmitApdu t with
      | None => mret (Some (false, buf, max))
      | Some f =>
          connected ← seMediaManagerIsConnected;
          if negb connected then mret (Some (false, buf, max))
          else
            '(res, buf, size) ← transmit_at f cmd buf 0 max;
            r ←
              (if res : bool then
                 if size >=? 2 then
                   sw1 ← opt buf.[size - 2];
                   if (sw1 =? 0x61) && _manageAutomatically61XX then
                     le ← opt buf.[size - 1];
                     let total := if size >? 2 then size - 2 else 0 in
                     c ← get_response_loop fuel f max (Chain false false total le size buf res);
                     mret (if errorManaging61XX c || endOfData c
                           then Some (chain_res c, apduResponseBytes c, apduResponseSize c)
                           else None)
                   else mret (Some (res, buf, size))
                 else mret (Some (res, buf, size))
               else mret (Some (res, buf, 0)));
            match r with
            | None => mret None
            | Some (res, buf, size) =>
                (if negb res then check_card_status t else mret tt);;
                mret (Some (res, buf, size))
            end
      end
  end.
End manager.
Arguments se_state : clear implicits.

(** ** Chained responses *)

Section chained.
Context {D : Type} (f : transmitter D) (max : Z).
Implicit Types (s : se_state D) (d : D).

Definition GET_RESPONSE (le : Z) : list Z := [0x00; 0xC0; 0x00; 0x00; le].

(** The driver answers [cmd] with the bytes [bs], in any buffer with enough
    room. *)
Definition answers (d : D) (cmd : list Z) (room : Z) (bs : list Z) (d' : D) : Prop :=
  ∀ dst, room <= zlen dst → f cmd dst room d = Some ((true, bs ++ drop (length bs) dst, zlen bs), d').

Definition accepted_sw (sw1 sw2 : Z) : Prop := (sw1 = 0x90 ∧ sw2 = 0x00) ∨ sw1 = 0x91.

(** After [off] bytes of data, the card holds more data, announced by [le]:
    [n] GET RESPONSE commands yield the bytes [rest], status word included. *)
Inductive chained : nat → Z → Z → D → list Z → D → Prop :=
  | chained_last off le d data sw1 sw2 d' :
      answers d (GET_RESPONSE le) (max - off) (data ++ [sw1; sw2]) d' →
      accepted_sw sw1 sw2 → off + zlen data + 2 <= max →
      chained 1 off le d (data ++ [sw1; sw2]) d'
  | chained_more n off le d data le' d' rest d'' :
      answers d (GET_RESPONSE le) (max - off) (data ++ [0x61; le']) d' →
      off + zlen data + 2 <= max →
      chained n (off + zlen data) le' d' rest d'' →
      chained (S n) off le d (data ++ rest) d''.

Definition with_driver s d : se_state D := SeState (_seMedia s) d (_errorCode s).

Lemma transmit_at_ok s cmd buf off room bs d' pre tl :
  answers (driver s) cmd room bs d' → buf = pre ++ tl → zlen pre = off → room <= zlen tl →
  transmit_at f cmd buf off room s
  = Some ((true, pre ++ bs ++ drop (length bs) tl, zlen bs), with_driver s d').
Proof.
  intros E -> <- Hbs. unfold transmit_at, cells_from. pose proof (zlen_nonneg tl).
  rewrite (proj2 (andb_true_iff _ _)) by zlia. rewrite zlen_to_nat, drop_app_length, take_app_length.
  unfold call, opt, mbind, ST_bind. by rewrite E.
Qed.

Lemma rd_mid {A} (pre data tl : list A) x y i :
  i = zlen pre + zlen data → (pre ++ (data ++ [x; y]) ++ tl).[i] = Some x ∧
                             (pre ++ (data ++ [x; y]) ++ tl).[i + 1] = Some y.
Proof.
  intros ->. rewrite <-app_assoc, app_assoc. split; rewrite rd_app_r, zlen_app by zlia.
  - by rewrite Z.sub_diag.
  - by rewrite Z.add_simpl_l.
Qed.

Lemma get_response_more s pre tl data le le' d' sz :
  answers (driver s) (GET_RESPONSE le) (max - zlen pre) (data ++ [0x61; le']) d' →
  zlen pre + zlen data + 2 <= max → max <= zlen pre + zlen tl → max < 2^64 →
  get_response_step f max (Chain false false (zlen pre) le sz (pre ++ tl) true) s
  = Some (Chain false false (zlen pre + zlen data) le' sz
            (pre ++ (data ++ [0x61; le']) ++ drop (length data + 2) tl) true, with_driver s d').
Proof.
  intros E Hroom Hbuf Hmax. unfold get_response_step.
  cbn [totalDataSize dataSizeRequested apduResponseBytes].
  assert (u64 (max - zlen pre) = max - zlen pre) as ->.
  { unfold u64. apply Z.mod_small. pose proof (zlen_nonneg pre). pose proof (zlen_nonneg data). lia. }
  erewrite ST_bind_eq; [|apply (transmit_at_ok s _ _ _ _ _ _ pre tl E); [done|done|zlia]].
  rewrite length_app. cbn [length]. set (buf := pre ++ _ ++ _).
  destruct (rd_mid pre data (drop (length data + 2) tl) 0x61 le' (zlen pre + zlen data) eq_refl)
    as [E1 E2]. fold buf in E1, E2.
  assert (zlen (data ++ [0x61; le']) = zlen data + 2) as Ez by (rewrite zlen_app; done).
  pose proof (zlen_nonneg data). rewrite Ez. cbn [andb]. ztrue (zlen data + 2 >=? 2).
  replace (zlen pre + (zlen data + 2) - 2) with (zlen pre + zlen data) by lia.
  replace (zlen pre + (zlen data + 2) - 1) with (zlen pre + zlen data + 1) by lia.
  rewrite E1, E2. unfold opt, mbind, ST_bind, mret, ST_ret. ztrue (97 =? 97).
  by replace (zlen pre + (zlen data + 2 - 2)) with (zlen pre + zlen data) by lia.
Qed.

Lemma get_response_last s pre tl data le sw1 sw2 d' sz :
  answers (driver s) (GET_RESPONSE le) (max - zlen pre) (data ++ [sw1; sw2]) d' →
  accepted_sw sw1 sw2 →
  zlen pre + zlen data + 2 <= max → max <= zlen pre + zlen tl → max < 2^64 →
  get_response_step f max (Chain false false (zlen pre) le sz (pre ++ tl) true) s
  = Some (Chain false true (zlen pre + zlen (data ++ [sw1; sw2])) le
            (zlen pre + zlen (data ++ [sw1; sw2]))
            (pre ++ (data ++ [sw1; sw2]) ++ drop (length data + 2) tl) true, with_driver s d').
Proof.
  intros E Hsw Hroom Hbuf Hmax. unfold get_response_step.
  cbn [totalDataSize dataSizeRequested apduResponseBytes].
  assert (u64 (max - zlen pre) = max - zlen pre) as ->.
  { unfold u64. apply Z.mod_small. pose proof (zlen_nonneg pre). pose proof (zlen_nonneg data). lia. }
  erewrite ST_bind_eq; [|apply (transmit_at_ok s _ _ _ _ _ _ pre tl E); [done|done|zlia]].
  rewrite length_app. cbn [length]. set (buf := pre ++ _ ++ _).
  destruct (rd_mid pre data (drop (length data + 2) tl) sw1 sw2 (zlen pre + zlen data) eq_refl)
    as [E1 E2]. fold buf in E1, E2.
  assert (zlen (data ++ [sw1; sw2]) = zlen data + 2) as Ez by (rewrite zlen_app; done).
  pose proof (zlen_nonneg data). rewrite Ez. cbn [andb]. ztrue (zlen data + 2 >=? 2).
  replace (zlen pre + (zlen data + 2) - 2) with (zlen pre + zlen data) by lia.
  replace (zlen pre + (zlen data + 2) - 1) with (zlen pre + zlen data + 1) by lia.
  rewrite E1, E2. unfold opt, mbind, ST_bind, mret, ST_ret.
  by destruct Hsw as [[-> ->]| ->].
Qed.

Lemma chained_length n off le d rest d' : chained n off le d rest d' → (2 <= length rest)%nat.
Proof. induction 1; rewrite length_app; cbn [length]; lia. Qed.

(** The loop collects the pieces behind the data it already has. *)
Lemma get_response_loop_chained n off le d rest d' :
  chained n off le d rest d' → ∀ fuel s pre tl sz,
  (n <= fuel)%nat → d = driver s → off = zlen pre → max <= zlen pre + zlen tl → max < 2^64 →
  ∃ le', get_response_loop fuel f max (Chain false false off le sz (pre ++ tl) true) s
  = Some (Chain false true (off + zlen rest) le' (off + zlen rest)
            (pre ++ rest ++ drop (length rest) tl) true, with_driver s d').
Proof.
  induction 1 as [off le d data sw1 sw2 d' Ea Hsw Hroom
                 |n off le d data x d' rest d'' Ea Hroom Hrest IH];
    intros [|fuel] s pre tl sz Hn -> -> Hbuf Hmax; [lia| |lia|].
  - exists le. cbn [get_response_loop errorManaging61XX endOfData orb].
    rewrite (ST_bind_eq _ _ _ _ _ (get_response_last s pre tl data le sw1 sw2 d' sz Ea Hsw Hroom Hbuf Hmax)).
    rewrite length_app. by destruct fuel.
  - cbn [get_response_loop errorManaging61XX endOfData orb].
    rewrite (ST_bind_eq _ _ _ _ _ (get_response_more s pre tl data le x d' sz Ea Hroom Hbuf Hmax)).
    rewrite <-app_assoc, app_assoc.
    destruct (IH fuel (with_driver s d') (pre ++ data) ([0x61; x] ++ drop (length data + 2) tl) sz)
      as [le' Hl]; [lia|done|by rewrite zlen_app| |done|].
    { rewrite !zlen_app, zlen_drop. pose proof (zlen_nonneg data). unfold zlen in *. cbn [length]. lia. }
    exists le'. rewrite Hl. rewrite <-!app_assoc, zlen_app, Z.add_assoc. 
    do 6 f_equal. apply chained_length in Hrest.
    rewrite drop_app_ge by done. rewrite drop_drop, length_app. cbn [length]. f_equal. lia.
Qed.

(** The last iterations of a chain do not depend on the fuel. *)
Lemma get_response_loop_done fuel c s :
  errorManaging61XX c || endOfData c = true → get_response_loop fuel f max c s = Some (c, s).
Proof. intros E. destruct fuel; cbn; by rewrite E. Qed.
End chained.

Section transmit.
Context {D : Type}.
Implicit Types (s : se_state D) (t : TSEMedia D).

(** The manager is connected to the driver [t]. *)
Definition connected_to t s : Prop :=
  _seMedia s = Some t ∧ ∃ g, seMediaIsConnected t = Some g ∧ g (driver s) = Some (true, driver s).

Lemma isConnected_ok t s :
  connected_to t s → seMediaManagerIsConnected s = Some (true, s).
Proof.
  intros (Em & g & Eg & Ed). unfold seMediaManagerIsConnected, dispatch.
  rewrite (ST_bind_eq (gets _seMedia) _ _ (Some t) s) by (unfold gets; by rewrite Em).
  rewrite Eg. unfold call. rewrite Ed. by destruct s.
Qed.

(** Unfolds a transmission up to the driver's first answer. *)
Lemma transmit_first t f fuel s cmd buf max bs d' :
  connected_to t s → seMediaTransmitApdu t = Some f →
  answers f (driver s) cmd max bs d' → max <= zlen buf →
  let buf' := bs ++ drop (length bs) buf in
  seMediaManagerTransmitApdu fuel cmd buf max s =
  (r ← (if zlen bs >=? 2 then
          sw1 ← opt buf'.[zlen bs - 2];
          if (sw1 =? 0x61) && _manageAutomatically61XX then
            le ← opt buf'.[zlen bs - 1];
            let total := if zlen bs >? 2 then zlen bs - 2 else 0 in
            c ← get_response_loop fuel f max (Chain false false total le (zlen bs) buf' true);
            mret (if errorManaging61XX c || endOfData c
                  then Some (chain_res c, apduResponseBytes c, apduResponseSize c) else None)
          else mret (Some (true, buf', zlen bs))
        else mret (Some (true, buf', zlen bs)));
   match r with
   | None => mret None
   | Some (res, buf, size) =>
       (if negb res then check_card_status t else mret tt);;
       mret (Some (res, buf, size))
   end) (with_driver s d').
Proof.
  intros Hc Hf Ea Hlen buf'. pose proof Hc as [Em _]. unfold seMediaManagerTransmitApdu.
  rewrite (ST_bind_eq (gets _seMedia) _ _ (Some t) s) by (unfold gets; by rewrite Em).
  rewrite Hf, (ST_bind_eq _ _ _ _ _ (isConnected_ok t s Hc)). cbn [negb].
  rewrite (ST_bind_eq _ _ _ _ _ (transmit_at_ok f s cmd buf 0 max bs d' [] buf Ea eq_refl eq_refl Hlen)).
  done.
Qed.

(** C34: Chained responses (functional): when the card answers a command with
    part of its data and the status word 61XX, and then yields the rest to the
    GET RESPONSE commands for the announced sizes up to a final 9000 or 91XX,
    the manager returns all the data in order with the final status word, as
    if the card had answered at once, using one iteration per command. *)
Theorem transmit_chained t f fuel s cmd buf max data le d n rest d' :
  connected_to t s → seMediaTransmitApdu t = Some f → 0 <= max < 2^64 → max <= zlen buf →
  answers f (driver s) cmd max (data ++ [0x61; le]) d → zlen data + 2 <= max →
  chained f max n (zlen data) le d rest d' → (n <= fuel)%nat →
  ∃ tl, seMediaManagerTransmitApdu fuel cmd buf max s
        = Some (Some (true, data ++ rest ++ tl, zlen data + zlen rest), with_driver s d').
Proof.
  intros Hc Hf Hmax Hbuf Ea Hroom Hch Hn.
  assert (zlen (data ++ [0x61; le]) = zlen data + 2) as Ez by (rewrite zlen_app; done).
  rewrite (transmit_first t f fuel s cmd buf max _ d Hc Hf Ea) by lia.
  set (buf0 := drop _ buf). rewrite Ez. pose proof (zlen_nonneg data). ztrue (zlen data + 2 >=? 2).
  destruct (rd_mid [] data buf0 0x61 le (zlen data) eq_refl) as [E1 E2]. cbn [app] in E1, E2.
  replace (zlen data + 2 - 2) with (zlen data) by lia.
  replace (zlen data + 2 - 1) with (zlen data + 1) by lia.
  rewrite E1, E2. 
  assert ((if zlen data + 2 >? 2 then zlen data else 0) = zlen data) as -> by (ztest; lia).
  rewrite <-app_assoc.
  destruct (get_response_loop_chained f max n _ le d rest d' Hch fuel (with_driver s d) data
    ([0x61; le] ++ buf0) (zlen data + 2)) as [le' Hl]; [done..| |lia|].
  { subst buf0. rewrite zlen_app, zlen_drop, length_app. unfold zlen in *. cbn [length]. lia. }
  unfold mbind, ST_bind, opt, mret, ST_ret, _manageAutomatically61XX. 
  ztrue (97 =? 97). cbn [andb]. rewrite Hl. eexists. reflexivity.
Qed.
End transmit.

(** ** Termination *)

(** What a driver promises: it is defined in any buffer with the room it is
    given, and reports a size that fits in it. *)
Class SoundDriver {D} (f : transmitter D) : Prop := driver_sound cmd dst room d :
  0 <= room <= zlen dst →
  ∃ res dst' size d', f cmd dst room d = Some ((res, dst', size), d') ∧ zlen dst' = zlen dst ∧
    (res = true → 0 <= size <= room).

(** A function of the driver that is always defined, when present. *)
Definition defined {D A} (o : option (ST D A)) : Prop := ∀ g d, o = Some g → is_Some (g d).

Class SoundMedia {D} (t : TSEMedia D) : Prop := {
  media_isConnected : defined (seMediaIsConnected t);
  media_getStatus : defined (seMediaGetStatus t);
  media_disconnect : defined (seMediaDisconnect t);
  #[global] media_transmit f :: seMediaTransmitApdu t = Some f → SoundDriver f
}.

(** A card that announces more data sends some. *)
Definition card_progress {D} (f : transmitter D) : Prop :=
  ∀ cmd dst room d dst' size d', f cmd dst room d = Some ((true, dst', size), d') →
    dst'.[size - 2] = Some 0x61 → 2 < size.

Section termination.
Context {D : Type} (f : transmitter D) {Hf : SoundDriver f} (max : Z).
Context (Hmax : 0 <= max < 2^64).
Implicit Types (s : se_state D) (c : chain).

Lemma transmit_at_sound s cmd buf off room :
  0 <= off → 0 <= room → off + room <= zlen buf →
  ∃ res dst' size s' d',
    transmit_at f cmd buf off room s = Some ((res, take (Z.to_nat off) buf ++ dst', size), s') ∧
    zlen (take (Z.to_nat off) buf ++ dst') = zlen buf ∧
    f cmd (drop (Z.to_nat off) buf) room (driver s) = Some ((res, dst', size), d') ∧
    (res = true → 0 <= size <= room).
Proof.
  intros Ho Hr Hb. unfold transmit_at, cells_from.
  rewrite (proj2 (andb_true_iff _ _)) by zlia.
  destruct (driver_sound cmd (drop (Z.to_nat off) buf) room (driver s)) as
    (res & dst' & size & d' & E & Hl & Hs); [rewrite zlen_drop; lia|].
  exists res, dst', size, (with_driver s d'), d'. unfold opt, call, mbind, ST_bind. rewrite E.
  split_and!; try done. rewrite zlen_app, Hl, zlen_take, zlen_drop. lia.
Qed.

(** The cells behind the ones already in the buffer. *)
Lemma rd_behind (buf dst' : list Z) off i :
  0 <= off <= zlen buf → 0 <= i → (take (Z.to_nat off) buf ++ dst').[off + i] = dst'.[i].
Proof.
  intros Ho Hi. rewrite rd_app_r by (rewrite zlen_take; lia). f_equal. rewrite zlen_take. lia.
Qed.

(** One iteration accesses the buffer in bounds and ends the chain or
    consumes some of the room. *)
Definition chain_ok (len : Z) (c : chain) : Prop :=
  zlen (apduResponseBytes c) = len ∧ 0 <= apduResponseSize c <= max ∧
  (errorManaging61XX c || endOfData c = false → 0 <= totalDataSize c <= max).

Lemma get_response_step_sound len c s :
  max <= len → chain_ok len c → errorManaging61XX c || endOfData c = false →
  ∃ c' s', get_response_step f max c s = Some (c', s') ∧ chain_ok len c' ∧
    (errorManaging61XX c' || endOfData c' = false → card_progress f →
     totalDataSize c < totalDataSize c').
Proof.
  intros Hlen (Hbuf & Hsize & Htot) Hrun. specialize (Htot Hrun).
  unfold get_response_step.
  assert (u64 (max - totalDataSize c) = max - totalDataSize c) as ->
    by (unfold u64; apply Z.mod_small; lia).
  destruct (transmit_at_sound s [0x00; 0xC0; 0x00; 0x00; dataSizeRequested c] (apduResponseBytes c)
    (totalDataSize c) (max - totalDataSize c)) as
    (res & dst & n & s' & d' & Et & Hb & Ef & Hs); [lia..|].
  rewrite (ST_bind_eq _ _ _ _ _ Et). clear Et.
  set (buf := take _ _ ++ dst) in *. set (tot := totalDataSize c) in *.
  assert (chain_ok len (chain_error c buf res)) as Herr.
  { split; [by cbn; rewrite Hb|]. split; [cbn; lia|done]. }
  destruct res; cbn [andb]; [|by exists (chain_error c buf false), s'].
  specialize (Hs eq_refl). ztest; [|by exists (chain_error c buf true), s'].
  destruct (rd_is_Some buf (tot + n - 2)) as (sw1 & E1 & _); [lia|].
  destruct (rd_is_Some buf (tot + n - 1)) as (sw2 & E2 & _); [lia|].
  rewrite E1, E2. unfold opt, mbind, ST_bind, mret, ST_ret.
  destruct (sw1 =? 0x61) eqn:E61.
  { zprop. subst sw1. eexists _, s'. split; [reflexivity|]. split.
    - split; [by cbn; rewrite Hb|]. split; [done|]. cbn. lia.
    - cbn. intros _ Hp. enough (2 < n) by lia. apply (Hp _ _ _ _ _ _ _ Ef).
      rewrite <-E1. subst buf. rewrite <-Z.add_sub_assoc, rd_behind by lia. done. }
  assert (chain_ok len (Chain false true (tot + n) (dataSizeRequested c) (tot + n) buf true)) as Hend.
  { split; [by cbn; rewrite Hb|]. split; [cbn; lia|done]. }
  destruct (sw1 =? 0x90), (sw2 =? 0x00), (sw1 =? 0x91), (sw1 =? 0x6D); cbn;
    (eexists _, _; split; [reflexivity|split; [assumption|done]]).
Qed.

(** With enough fuel for the room, the loop ends. *)
Lemma get_response_loop_sound len fuel c s :
  max <= len → chain_ok len c → card_progress f →
  (errorManaging61XX c || endOfData c = true ∨ max - totalDataSize c < Z.of_nat fuel) →
  ∃ c' s', get_response_loop fuel f max c s = Some (c', s') ∧ chain_ok len c' ∧
           errorManaging61XX c' || endOfData c' = true.
Proof.
  intros Hlen. revert c s. induction fuel as [|fuel IH]; intros c s Hok Hp Hfuel;
    cbn [get_response_loop]; destruct (errorManaging61XX c || endOfData c) eqn:Erun;
    try (by exists c, s).
  - destruct Hfuel as [|Hfuel]; [done|]. destruct Hok as (_ & _ & Ht). specialize (Ht Erun). lia.
  - destruct (get_response_step_sound len c s Hlen Hok Erun) as (c' & s' & E & Hok' & Hprog).
    rewrite (ST_bind_eq _ _ _ _ _ E). apply IH; [done|done|].
    destruct Hfuel as [|Hfuel]; [done|].
    destruct (errorManaging61XX c' || endOfData c'); [by left|right].
    specialize (Hprog eq_refl Hp). lia.
Qed.
End termination.

Section results.
Context {D : Type}.
Implicit Types (s : se_state D) (t : TSEMedia D).

Lemma call_total {A} (o : option (ST D A)) g s :
  defined o → o = Some g → ∃ a s', call g s = Some (a, s') ∧ _seMedia s' = _seMedia s.
Proof.
  intros Hd Ho. destruct (Hd g (driver s) Ho) as [[a d'] E]. unfold call. rewrite E. by eexists _, _.
Qed.

Lemma dispatch_total t (h : TSEMedia D → option (ST D bool)) s :
  _seMedia s = Some t → defined (h t) →
  ∃ b s', dispatch h s = Some (b, s') ∧ _seMedia s' = Some t.
Proof.
  intros Em Hd. unfold dispatch. rewrite (ST_bind_eq (gets _seMedia) _ _ (_seMedia s) s) by done.
  rewrite Em. destruct (h t) as [g|] eqn:E; [|by exists false, s].
  rewrite <-Em. by apply (call_total (Some g)).
Qed.

Lemma check_card_status_total t s :
  SoundMedia t → _seMedia s = Some t → ∃ s', check_card_status t s = Some (tt, s') ∧ _seMedia s' = Some t.
Proof.
  intros Ht Em. unfold check_card_status. destruct (seMediaGetStatus t) as [g|] eqn:Eg; [|by exists s].
  destruct (call_total _ g s media_getStatus Eg) as ([ok st] & s1 & E & Em1).
  rewrite (ST_bind_eq _ _ _ _ _ E). destruct (ok && _); [|exists s1; split; [done|congruence]].
  destruct (dispatch_total t seMediaDisconnect s1) as (b & s2 & E2 & Em2); [congruence|apply Ht|].
  unfold seMediaManagerDisconnect. rewrite (ST_bind_eq _ _ _ _ _ E2). by exists s2.
Qed.

Lemma get_response_step_media (f : transmitter D) max c s c' s' :
  get_response_step f max c s = Some (c', s') → _seMedia s' = _seMedia s.
Proof.
  unfold get_response_step, transmit_at, mbind, ST_bind, opt, call, mret, ST_ret. intros E.
  repeat (case_match; simplify_eq; try done); cbn in *; try done.
  all: by unfold lpaSetErrorCode, modifies in *; simplify_eq; cbn.
Qed.

Lemma get_response_loop_media (f : transmitter D) max fuel c s c' s' :
  get_response_loop fuel f max c s = Some (c', s') → _seMedia s' = _seMedia s.
Proof.
  revert c s. induction fuel as [|fuel IH]; intros c s; cbn [get_response_loop];
    (destruct (_ || _); [by intros [= <- <-]|]).
  { by intros [= <- <-]. }
  destruct (get_response_step f max c s) as [[c1 s1]|] eqn:E; unfold mbind, ST_bind; rewrite E; [|done].
  intros H. apply IH in H. rewrite H. by eapply get_response_step_media.
Qed.

Lemma transmit_total fuel s cmd buf max :
  (∀ t, _seMedia s = Some t →
     SoundMedia t ∧ ∀ f, seMediaTransmitApdu t = Some f → card_progress f) →
  0 <= max < 2^64 → max <= zlen buf → max < Z.of_nat fuel →
  ∃ res buf' size s',
    seMediaManagerTransmitApdu fuel cmd buf max s = Some (Some (res, buf', size), s') ∧
    zlen buf' = zlen buf ∧ 0 <= size <= max ∧ _seMedia s' = _seMedia s.
Proof.
  intros Hdrv Hmax Hbuf Hfuel. unfold seMediaManagerTransmitApdu.
  rewrite (ST_bind_eq (gets _seMedia) _ _ (_seMedia s) s) by done.
  destruct (_seMedia s) as [t|] eqn:Em; [|exists false, buf, max, s; split_and!; (done || lia)].
  destruct (Hdrv t eq_refl) as [Ht Hp].
  destruct (seMediaTransmitApdu t) as [f|] eqn:Ef;
    [|exists false, buf, max, s; split_and!; (done || lia)].
  specialize (Hp f eq_refl). pose proof (media_transmit f Ef) as Hf.
  destruct (dispatch_total t seMediaIsConnected s Em media_isConnected)
    as (connected & s1 & Ec & Em1).
  unfold seMediaManagerIsConnected. rewrite (ST_bind_eq _ _ _ _ _ Ec).
  destruct connected; cbn [negb]; [|exists false, buf, max, s1; split_and!; (done || lia || congruence)].
  destruct (transmit_at_sound f s1 cmd buf 0 max) as
    (res & buf1 & size & s2 & d' & Et & Hb & _ & Hs); [lia..|].
  assert (_seMedia s2 = Some t) as Em2.
  { revert Et. unfold transmit_at, opt, mbind, ST_bind, call, mret, ST_ret. intros Et.
    repeat (case_match; simplify_eq; try done). }
  rewrite (ST_bind_eq _ _ _ _ _ Et). clear Et. set (b := take _ buf ++ buf1) in *.
  clearbody b. clear buf1. rename b into buf1.
  assert (∀ (m : ST (se_state D) (option (bool * list Z * Z))) res buf' size s3,
    m s2 = Some (Some (res, buf', size), s3) → _seMedia s3 = Some t → zlen buf' = zlen buf →
    0 <= size <= max →
    ∃ res buf' size s', (r ← m;
      match r with
      | None => mret None
      | Some (res, buf, size) =>
          (if negb res then check_card_status t else mret tt);;
          mret (Some (res, buf, size))
      end) s2 = Some (Some (res, buf', size), s') ∧ zlen buf' = zlen buf ∧ 0 <= size <= max ∧ _seMedia s' = Some t) as Hend.
  { intros m res' buf' size' s3 E Em3 Hb' Hs'. rewrite (ST_bind_eq _ _ _ _ _ E).
    destruct (check_card_status_total t s3 Ht Em3) as (s4 & E4 & Em4).
    exists res', buf', size', (if negb res' then s4 else s3).
    destruct res'; cbn [negb]; [done|]. by rewrite (ST_bind_eq _ _ _ _ _ E4). }
  destruct res; [|by eapply (Hend _ false); [reflexivity|done|done|lia]]. specialize (Hs eq_refl).
  destruct (size >=? 2) eqn:E2; [|by eapply (Hend _ true); [reflexivity|done|done|lia]]. zprop.
  destruct (rd_is_Some buf1 (size - 2)) as (sw1 & E1 & _); [lia|].
  destruct (rd_is_Some buf1 (size - 1)) as (le & Ele & _); [lia|]. rewrite E1, Ele.
  destruct (sw1 =? 0x61) eqn:E61.
  2: { eapply (Hend _ true); [unfold opt, mbind, ST_bind; rewrite E61; reflexivity|done|done|lia]. }
  destruct (get_response_loop_sound f max Hmax (zlen buf) fuel
    (Chain false false (if size >? 2 then size - 2 else 0) le size buf1 true) s2)
    as (c & s3 & El & (Hlen & Hsize & _) & Edone); [done| |exact Hp|right; cbn [totalDataSize]; destruct (size >? 2) eqn:E3; lia|].
  { split; [done|]. split; [cbn; lia|]. intros _. cbn. ztest; lia. }
  apply (Hend _ (chain_res c) (apduResponseBytes c) (apduResponseSize c) s3); [| |done|done].
  - unfold opt, mbind, ST_bind, mret, ST_ret, _manageAutomatically61XX. rewrite E61. cbn [andb].
    by rewrite El, Edone.
  - by rewrite (get_response_loop_media f max _ _ _ _ _ El).
Qed.

(** C35: Transmission ends and stays in bounds (termination): with a driver
    whose functions are defined and respect the room they are given, and a
    card that sends at least one byte of data with every 61XX, a transmission into a buffer of at least [max]
    bytes ends within [max + 1] GET RESPONSE commands, whatever the answers;
    it never accesses the buffer out of bounds, keeps its size, and reports a
    response that fits in [max]. *)
Theorem transmit_terminates fuel s cmd buf max :
  (∀ t, _seMedia s = Some t →
     SoundMedia t ∧ ∀ f, seMediaTransmitApdu t = Some f → card_progress f) →
  0 <= max < 2^64 → max <= zlen buf → max < Z.of_nat fuel →
  ∃ res buf' size s',
    seMediaManagerTransmitApdu fuel cmd buf max s = Some (Some (res, buf', size), s') ∧
    zlen buf' = zlen buf ∧ 0 <= size <= max.
Proof.
  intros Hdrv Hmax Hbuf Hfuel. destruct (transmit_total fuel s cmd buf max) as (res & buf' & size & s' & E & H1 & H2 & _); [done..|].
  by exists res, buf', size, s'.
Qed.

Lemma get_response_loop_diverges (f : transmitter D) max :
  (∀ cmd room d, answers f d cmd room [0x61; 0x00] d) → 2 <= max < 2^64 →
  ∀ fuel s le sz buf, max <= zlen buf →
  ∃ c s', get_response_loop fuel f max (Chain false false 0 le sz buf true) s = Some (c, s') ∧
          errorManaging61XX c || endOfData c = false.
Proof.
  intros Hf Hmax. induction fuel as [|fuel IH]; intros s le sz buf Hbuf; [by eexists _, _|].
  cbn [get_response_loop errorManaging61XX endOfData orb].
  rewrite (ST_bind_eq _ _ _ _ _ (get_response_more f max s [] buf [] le 0x00 (driver s) sz
    (Hf _ _ _) ltac:(change (2 <= max); lia) Hbuf ltac:(lia))).
  apply IH. cbn [app length Nat.add]. rewrite !zlen_cons, zlen_drop. lia.
Qed.

(** A card that announces data it does not send (error): when every answer
    is the bare status word 6100, the transmission never ends, whatever the
    number of iterations. *)
Theorem transmit_diverges t f fuel s cmd buf max :
  connected_to t s → seMediaTransmitApdu t = Some f →
  (∀ cmd room d, answers f d cmd room [0x61; 0x00] d) →
  2 <= max < 2^64 → max <= zlen buf →
  ∃ s', seMediaManagerTransmitApdu fuel cmd buf max s = Some (None, s').
Proof.
  intros Hc Ht Hf Hmax Hbuf.
  rewrite (transmit_first t f fuel s cmd buf max [0x61; 0x00] (driver s) Hc Ht (Hf _ _ _))
    by done.
  set (buf' := [97; 0] ++ drop (length [97; 0]) buf).
  assert (zlen buf' = zlen buf) as Hb by (subst buf'; rewrite zlen_app, zlen_drop; cbn; 
    change (zlen [97; 0]) with 2; lia).
  destruct (get_response_loop_diverges f max Hf Hmax fuel (with_driver s (driver s)) 0 2 buf')
    as (c & s' & El & Ec); [lia|].
  exists s'. unfold mbind, ST_bind, opt, mret, ST_ret.
  change (buf'.[zlen [97; 0] - 2]) with (Some 97). change (buf'.[zlen [97; 0] - 1]) with (Some 0).
  change (zlen [97; 0]) with 2. cbn [Z.geb Z.compare Pos.compare Pos.compare_cont].
  change (97 =? 97) with true. cbn. cbn in El. by rewrite El, Ec.
Qed.
End results.

(** ** Sample drivers *)

(** A driver around any transmission function, always connected. *)
Definition sample_media {D} (f : transmitter D) : TSEMedia D := {|
  seMediaEstablishContext := None; seMediaReleaseContext := None;
  seMediaIsValidContext := None; seMediaIsContextEstablished := None;
  seMediaSetCallbackEventExecutionError := None; seMediaListReader := None;
  seMediaConnect := None; seMediaIsConnected := Some (mret true);
  seMediaTransmitApdu := Some f; seMediaDisconnect := None;
  seMediaDisconnectWithReset := None; seMediaGetStatus := None |}.

Definition sample_state {D} (f : transmitter D) (d : D) : se_state D :=
  SeState (Some (sample_media f)) d LPA_NO_ERROR.

Lemma sample_connected {D} (f : transmitter D) d :
  connected_to (sample_media f) (sample_state f d).
Proof. split; [done|]. by exists (mret true). Qed.

(** Stores the part of the answer that fits. *)
Definition reply (a dst : list Z) (room : Z) : bool * list Z * Z :=
  let a := take (Z.to_nat room) a in (true, a ++ drop (length a) dst, zlen a).

(** Answers a script, then fails; records the commands. *)
Definition script : transmitter (list (list Z) * list (list Z)) := λ cmd dst room d,
  match d with
  | (a :: answers, cmds) => Some (reply a dst room, (answers, cmds ++ [cmd]))
  | ([], cmds) => Some ((false, dst, 0), ([], cmds ++ [cmd]))
  end.

(** Always the same answer. *)
Definition constant (a : list Z) : transmitter unit := λ _ dst room d, Some (reply a dst room, d).

Lemma constant_sound a : SoundDriver (constant a).
Proof.
  intros cmd dst room d Hr. eexists _, _, _, _. split; [reflexivity|]. split.
  - rewrite zlen_app, zlen_drop, zlen_take. unfold zlen in *. rewrite length_take. lia.
  - rewrite zlen_take. unfold zlen. lia.
Qed.

Lemma script_answers a l c cmd room :
  zlen a <= room → answers script (a :: l, c) cmd room a (l, c ++ [cmd]).
Proof.
  intros Ha dst Hr. cbn. unfold reply. rewrite take_ge; [done|unfold zlen in Ha; lia].
Qed.

Lemma transmit_chained_witness :
  let s := sample_state script ([[1; 2; 0x61; 3]; [3; 0x61; 1]; [4; 0x90; 0]], []) in
  ∃ tl, seMediaManagerTransmitApdu 2 [0; 0xB0] (replicate 16 0) 16 s
        = Some (Some (true, [1; 2] ++ [3; 4; 0x90; 0] ++ tl, 6),
                with_driver s ([], [[0; 0xB0]; GET_RESPONSE 3; GET_RESPONSE 1])).
Proof.
  intros s. refine (transmit_chained (sample_media script) script 2 s [0; 0xB0] (replicate 16 0) 16
    [1; 2] 3 ([[3; 0x61; 1]; [4; 0x90; 0]], [[0; 0xB0]]) 2 [3; 4; 0x90; 0]
    ([], [[0; 0xB0]; GET_RESPONSE 3; GET_RESPONSE 1]) (sample_connected _ _) eq_refl _ _ _ _ _ _).
  - lia.
  - done.
  - by apply (script_answers [1; 2; 0x61; 3]).
  - done.
  - apply (chained_more script 16 1 2 3 _ [3] 1 ([[4; 0x90; 0]], [[0; 0xB0]; GET_RESPONSE 3])
             [4; 0x90; 0]); [by apply (script_answers [3; 0x61; 1])|done|].
    apply (chained_last script 16 3 1 _ [4] 0x90 0); [by apply (script_answers [4; 0x90; 0])|by left|done].
  - lia.
Defined.

Lemma transmit_terminates_witness :
  ∃ res buf' size s',
    seMediaManagerTransmitApdu 9 [0; 0xB0] (replicate 8 0) 8 (sample_state (constant [1; 0x90; 0]) tt)
    = Some (Some (res, buf', size), s') ∧ zlen buf' = 8 ∧ 0 <= size <= 8.
Proof.
  refine (transmit_terminates 9 _ [0; 0xB0] (replicate 8 0) 8 _ _ _ _).
  - intros t [= <-]. split; [split; [|done|done|]|].
    + intros g d [= <-]. by eexists.
    + intros f [= <-]. apply constant_sound.
    + intros f [= <-] cmd dst room d dst' size d' [= <- <- <-].
      destruct (Z.to_nat room) as [|[|[|[|n]]]]; done.
  - lia.
  - done.
  - lia.
Defined.

Lemma transmit_diverges_witness :
  let f := (λ _ dst _ d, Some ((true, [0x61; 0x00] ++ drop 2 dst, 2), d)) : transmitter unit in
  ∃ s', seMediaManagerTransmitApdu 1000 [0; 0xB0] (replicate 8 0) 8 (sample_state f tt) = Some (None, s').
Proof.
  intros f. apply (transmit_diverges (sample_media f) f 1000 _ [0; 0xB0] (replicate 8 0) 8
    (sample_connected _ _)); [reflexivity| |lia|done].
  by intros cmd room d dst _.
Defined.
