(* ===== verification/Apdu.v ===== *)
(** * APDU commands and the ISD-R applet

    [core/lpa_manager_helper.c], which sends commands and STORE DATA blocks to
    the eUICC, and [core/isdr_applet_manager.c], which selects the applet they
    are addressed to. Commands are built as raw data objects on the heap; the
    exchange itself goes through the manager of SeMedia.v. *)

From iris.bi Require Import bi.
From iris.proofmode Require Import proofmode.
From S2P Require Import Prelude CLib Heap StateMonad Wp RawData SeMedia.

Definition MAX_LPA_MANAGER_APDU_BUFFER_SIZE : Z := 8192.
(** LPA_SDK__MAX_SIZE_OF_DATA_IN_STORE_DATA_APDU is 255 in the build. *)
Definition LPA_STORE_DATA_APDU_DATA_SIZE_MAX : Z := 0xFF.

Definition _apduCommandStoreDataProfileCase3Header : list Z := [0x80; 0xE2; 0x90; 0x00; 0x00].
Definition _apduCommandStoreDataProfileCase4Header : list Z := [0x80; 0xE2; 0x91; 0x00; 0x00].
Definition _apduCommandSelectISDR : list Z :=
  [0x00; 0xA4; 0x04; 0x00; 0x10; 0xA0; 0x00; 0x00; 0x05; 0x59; 0x10; 0x10; 0xFF; 0xFF; 0xFF; 0xFF;
   0x89; 0x00; 0x00; 0x01; 0x00].

(** Iterations allowed to a chained response: one more than the bytes of the
    response buffer, which is enough by [transmit_terminates]. *)
Definition chain_fuel : nat := Z.to_nat (MAX_LPA_MANAGER_APDU_BUFFER_SIZE + 1).

Section code.
Context {D : Type}.

(** The static variables of the two files and the manager they use. *)
Record globals := Globals {
  se : se_state D;
  _apduResponseBytes : list Z;
  _addLeToApuCase4 : bool;
  _isSelectedISDR : bool;
  isdr_apduResponseBytes : list Z
}.

Abbreviation M := (M globals).

Definition with_se {A} (m : ST (se_state D) A) : ST globals A := λ g,
  match m (se g) with
  | Some (a, s) => Some (a, Globals s (_apduResponseBytes g) (_addLeToApuCase4 g)
                              (_isSelectedISDR g) (isdr_apduResponseBytes g))
  | None => None
  end.

Definition lpaManagerHelperSetLeToAddApduCase4 (enable : bool) : ST globals unit :=
  modifies (λ g, Globals (se g) (_apduResponseBytes g) enable (_isSelectedISDR g)
                   (isdr_apduResponseBytes g)).
Definition lpaManagerHelperIsLeAddedToApduCase4 : ST globals bool := gets _addLeToApuCase4.

(** The arguments a function stores its results in; [None] is [NULL]. *)
Record out := Out {
  ptrSW : option Z;
  ptrResponseApduData : option (list Z);
  responseApduDataMaxSize : Z;
  ptrResponseApduDataSize : option Z
}.

(** [seMediaManagerTransmitApdu(cmd, ..., _apduResponseBytes, &size)] *)
Definition transmit (cmd : option (list Z)) : ST globals (bool * Z) :=
  match cmd with
  | None => mret (false, MAX_LPA_MANAGER_APDU_BUFFER_SIZE)
  | Some c =>
      buf ← gets _apduResponseBytes;
      r ← with_se (seMediaManagerTransmitApdu chain_fuel c buf MAX_LPA_MANAGER_APDU_BUFFER_SIZE);
      '(res, buf', size) ← opt r;
      _ ← modifies (λ g, Globals (se g) buf' (_addLeToApuCase4 g) (_isSelectedISDR g)
                           (isdr_apduResponseBytes g));
      mret (res, size)
  end.

(** [_apduResponseBytes[n - 2] << 8 | _apduResponseBytes[n - 1]] *)
Definition status_word (n : Z) : ST globals Z :=
  buf ← gets _apduResponseBytes;
  sw1 ← opt buf.[n - 2];
  sw2 ← opt buf.[n - 1];
  mret (Z.lor (Z.shiftl sw1 8) sw2).

(** The end of [_buildAndSendApduCase4], after a successful transmission. *)
Definition response_data (size : Z) (o : out) : ST globals (bool * out) :=
  if size >=? 2 then
    sw ← status_word size;
    let '(Out _ data max dsize) := o in
    match data, dsize with
    | Some dst, Some _ =>
        if max >? 0 then
          let dataSize := size - 2 in
          if dataSize >? 0 then
            if dataSize <=? max then
              buf ← gets _apduResponseBytes;
              vs ← opt (rd_range buf 0 dataSize);
              dst' ← opt (wr_range dst 0 vs);
              mret (true, Out (Some sw) (Some dst') max (Some dataSize))
            else mret (false, Out (Some sw) data max (Some 0))
          else mret (true, Out (Some sw) data max (Some 0))
        else mret (true, Out (Some sw) data max dsize)
    | _, _ => mret (true, Out (Some sw) data max dsize)
    end
  else mret (false, o).

(** The bytes of an object passed as [p->rawData, p->rawDataSize]. *)
Definition obj_bytes (p : ptr) : M (option (list Z)) :=
  let* '(d, n) := load_RawDataObject p in
  if isNull d then ret None else let* bs := memcpy_from d 0 n in ret (Some bs).

Definition _buildAndSendApduCase4 (ptrRawDataObject : ptr) (o : out) : M (bool * out) :=
  match ptrSW o, ptrResponseApduDataSize o with
  | Some _, Some _ =>
      if isNull ptrRawDataObject then ret (false, o) else
      let* addLe := lift lpaManagerHelperIsLeAddedToApduCase4 in
      let* '(apduSend, size) :=
        (if negb addLe then
           let* cmd := obj_bytes ptrRawDataObject in lift (transmit cmd)
         else
           let* rawDataObjectWithZeroFinal := rawDataObject_create (Some [0x00]) 1 in
           let* apduCase4WithLe :=
             (if isNull rawDataObjectWithZeroFinal then ret None
              else rawDataObject_concat ptrRawDataObject rawDataObjectWithZeroFinal) in
           let* r :=
             (if isNull apduCase4WithLe then ret (false, MAX_LPA_MANAGER_APDU_BUFFER_SIZE)
              else let* cmd := obj_bytes apduCase4WithLe in lift (transmit cmd)) in
           rawDataObject_free rawDataObjectWithZeroFinal ;;
           rawDataObject_free apduCase4WithLe ;;
           ret r) in
      if apduSend : bool then lift (response_data size o) else ret (false, o)
  | _, _ => ret (false, o)
  end.

Definition buildAndSendApduCase4 (ptrRawDataObject : ptr) (o : out) : M (bool * out) :=
  _buildAndSendApduCase4 ptrRawDataObject o.

(** An object in automatic storage over a caller's array: both are in the
    heap for the duration of the call. Its allocation cannot fail. *)
Definition push (b : block) : M ptr := λ w,
  let l := fresh (dom (wheap w)) in
  Some (Some l, World (<[l := b]> (wheap w)) (woracle w) (wglobals w)).
Definition pop (p : ptr) : M unit :=
  let* '(d, _) := load_RawDataObject p in
  lpaCoreMemoryFree d ;;
  lpaCoreMemoryFree p.

Definition buildAndSendApduCase4Ex (ptrApduC : list Z) (apduCSize : Z) (o : out) : M (bool * out) :=
  let* rawData := push (BBytes ptrApduC) in
  let* rawDataObjectApduC := push (BRaw rawData apduCSize) in
  let* r := _buildAndSendApduCase4 rawDataObjectApduC o in
  pop rawDataObjectApduC ;;
  ret r.

(** [p->rawData[i] = v;] *)
Definition set_obj_byte (p : ptr) (i v : Z) : M unit :=
  let* '(d, _) := load_RawDataObject p in set_byte d i v.

Definition set_ptrSW (o : out) (sw : Z) : out :=
  Out (Some sw) (ptrResponseApduData o) (responseApduDataMaxSize o) (ptrResponseApduDataSize o).

Definition buildAndSendStoreDataCase3 (ptrRawDataObject : ptr) (o : out) : M (bool * out) :=
  match ptrSW o with
  | None => ret (false, o)
  | Some _ =>
      if isNull ptrRawDataObject then ret (false, o) else
      let* '(_, rawDataSize) := load_RawDataObject ptrRawDataObject in
      if rawDataSize <=? LPA_STORE_DATA_APDU_DATA_SIZE_MAX then
        let* header := rawDataObject_create (Some _apduCommandStoreDataProfileCase3Header)
                         (zlen _apduCommandStoreDataProfileCase3Header) in
        if isNull header then ret (false, o) else
        let* apduStoreData := rawDataObject_concat header ptrRawDataObject in
        let* r :=
          (if isNull apduStoreData then ret (false, o)
           else
             let* '(_, n) := load_RawDataObject apduStoreData in
             let* r :=
               (if n >? 4 then
                  set_obj_byte apduStoreData 4 rawDataSize ;;
                  let* cmd := obj_bytes apduStoreData in
                  let* '(sent, size) := lift (transmit cmd) in
                  if sent && (size >=? 2)
                  then let* sw := lift (status_word size) in ret (true, set_ptrSW o sw)
                  else ret (false, o)
                else ret (false, o)) in
             rawDataObject_free apduStoreData ;;
             ret r) in
        rawDataObject_free header ;;
        ret r
      else ret (false, o)
  end.

Definition buildAndSendStoreDataCase3WithoutResponseData (ptrRawDataObject : ptr) (sw : option Z)
  : M (bool * out) :=
  buildAndSendStoreDataCase3 ptrRawDataObject (Out sw None 0 None).

(** The [while (!isLastBlock)] of [buildAndSendStoreDataCase4]; [res] is the
    result of the previous block. *)
Fixpoint storeData_loop (fuel : nat) (header ptrRawDataObject : ptr)
    (blockNumber dataSizeAlreadySend : Z) (res : bool) (o : out) : M (bool * out) :=
  match fuel with
  | O => ub
  | S fuel =>
      let* '(_, rawDataSize) := load_RawDataObject ptrRawDataObject in
      let remainingSize := rawDataSize - dataSizeAlreadySend in
      let isLastBlock := remainingSize <=? LPA_STORE_DATA_APDU_DATA_SIZE_MAX in
      let blockSize := if isLastBlock then remainingSize else LPA_STORE_DATA_APDU_DATA_SIZE_MAX in
      let* apduStoreData :=
        rawDataObject_concatPartially header ptrRawDataObject dataSizeAlreadySend blockSize in
      if isNull apduStoreData then ret (res, o)
      else
        let* '(_, n) := load_RawDataObject apduStoreData in
        let* '(res, o) :=
          (if n >? 4 then
             set_obj_byte apduStoreData 2 (if isLastBlock then 0x91 else 0x11) ;;
             set_obj_byte apduStoreData 3 blockNumber ;;
             set_obj_byte apduStoreData 4 blockSize ;;
             buildAndSendApduCase4 apduStoreData o
           else ret (false, o)) in
        rawDataObject_free apduStoreData ;;
        if negb res then ret (false, o)
        else if isLastBlock then ret (res, o)
        else storeData_loop fuel header ptrRawDataObject (u8 (blockNumber + 1))
               (dataSizeAlreadySend + blockSize) res o
  end.

Definition buildAndSendStoreDataCase4 (ptrRawDataObject : ptr) (o : out) : M (bool * out) :=
  match ptrSW o with
  | None => ret (false, o)
  | Some _ =>
      if isNull ptrRawDataObject then ret (false, o) else
      let* '(rawData, rawDataSize) := load_RawDataObject ptrRawDataObject in
      if (rawDataSize >? 0) && negb (isNull rawData) then
        let* header := rawDataObject_create (Some _apduCommandStoreDataProfileCase4Header)
                         (zlen _apduCommandStoreDataProfileCase4Header) in
        if isNull header then ret (false, o) else
        let* r :=
          (if rawDataSize <=? LPA_STORE_DATA_APDU_DATA_SIZE_MAX then
             let* apdu := rawDataObject_concat header ptrRawDataObject in
             if isNull apdu then ret (false, o)
             else
               let* '(_, n) := load_RawDataObject apdu in
               let* r :=
                 (if n >? 4 then
                    set_obj_byte apdu 4 rawDataSize ;;
                    buildAndSendApduCase4 apdu o
                  else ret (false, o)) in
               rawDataObject_free apdu ;;
               ret r
           else storeData_loop (Z.to_nat rawDataSize) header ptrRawDataObject 0 0 false o) in
        rawDataObject_free header ;;
        ret r
      else ret (false, o)
  end.

Definition buildAndSendStoreDataCase4WithoutResponseData (ptrRawDataObject : ptr) (sw : option Z)
  : M (bool * out) :=
  buildAndSendStoreDataCase4 ptrRawDataObject (Out sw None 0 None).

(** ** The ISD-R applet *)

Definition lpaSetErrorCode (e : LPA_API_ERROR) : M unit := lift (with_se (SeMedia.lpaSetErrorCode e)).

Definition set_selected (b : bool) (bytes : list Z) : M unit :=
  lift (modifies (λ g, Globals (se g) (_apduResponseBytes g) (_addLeToApuCase4 g) b bytes)).

(** The status words taken for a success. *)
Definition select_sw_ok (sw : Z) : bool :=
  (sw =? 0x9000) || (Z.land sw 0x9100 =? 0x9100) || (Z.land sw 0x6100 =? 0x6100).

Definition isISDRAppletSelected : M bool := lift (gets _isSelectedISDR).

Definition selectISDRApplet : M bool :=
  let* selected := isISDRAppletSelected in
  (if negb selected then
     let* buf := lift (gets isdr_apduResponseBytes) in
     let* '(res, o) := buildAndSendApduCase4Ex _apduCommandSelectISDR (zlen _apduCommandSelectISDR)
                         (Out (Some 0) (Some buf) (zlen buf) (Some 0)) in
     set_selected false (default buf (ptrResponseApduData o)) ;;
     if res : bool then
       if default 0 (ptrResponseApduDataSize o) >=? 2 then
         if select_sw_ok (default 0 (ptrSW o))
         then let* buf := lift (gets isdr_apduResponseBytes) in set_selected true buf
         else lpaSetErrorCode LPA_ERROR_SE_MEDIA_UNABLE_TO_SELECT_ISDR
       else lpaSetErrorCode LPA_ERROR_SE_MEDIA_UNABLE_TO_SELECT_ISDR
     else lpaSetErrorCode LPA_ERROR_SE_MEDIA_UNABLE_TO_SELECT_ISDR
   else ret tt) ;;
  isISDRAppletSelected.

Definition unselectISDRApplet : M bool :=
  let* buf := lift (gets isdr_apduResponseBytes) in
  set_selected false buf ;; ret true.
End code.
Arguments globals : clear implicits.

(** ** Reference: the commands of a data block *)

Section reference.
Context {D : Type}.
Implicit Types (g : globals D) (o : out).

(** One exchange, without the heap. *)
Definition exchange (cmd : list Z) (o : out) : ST (globals D) (bool * out) :=
  '(sent, size) ← transmit (Some cmd);
  if sent : bool then response_data size o else mret (false, o).

(** A case 4 command, with the Le byte when it is asked for. *)
Definition with_le (g : globals D) (cmd : list Z) : list Z :=
  if _addLeToApuCase4 g then cmd ++ [0x00] else cmd.

(** The commands one after the other, up to the first that fails. *)
Fixpoint send_all (cmds : list (list Z)) (o : out) : ST (globals D) (bool * out) :=
  match cmds with
  | [] => mret (true, o)
  | c :: cmds' =>
      le ← gets _addLeToApuCase4;
      '(r, o') ← exchange (if le : bool then c ++ [0x00] else c) o;
      if r : bool then send_all cmds' o' else mret (false, o')
  end.
End reference.

(** A STORE DATA command: P1 tells the last block, P2 numbers it. *)
Definition block_apdu (isLast : bool) (number : Z) (chunk : list Z) : list Z :=
  [0x80; 0xE2; if isLast then 0x91 else 0x11; number; zlen chunk] ++ chunk.

(** The commands for [bs], from block [k] on. *)
Fixpoint store_apdus (fuel : nat) (k : Z) (bs : list Z) : list (list Z) :=
  if zlen bs <=? LPA_STORE_DATA_APDU_DATA_SIZE_MAX then [block_apdu true (k mod 256) bs]
  else match fuel with
       | O => []
       | S fuel => block_apdu false (k mod 256) (take 255 bs) :: store_apdus fuel (k + 1) (drop 255 bs)
       end.

(** ** Rules *)

Section rules.
Context {D : Type} (nf : bool).
Implicit Types (g : globals D) (o : out).

Lemma wp_push b g Φ : (∀ l, l ↦ b -∗ Φ (Some l) g) -∗ wp nf (push b) g Φ.
Proof.
  iIntros "HΦ". iStopProof. split=> h HΦ hf or Hd Ho.
  set (l := fresh (dom (h ∪ hf))).
  assert (l ∉ dom (h ∪ hf)) as Hl by apply is_fresh.
  rw dom_union_L in Hl. apply not_elem_of_union in Hl as [Hl1 Hl2].
  apply not_elem_of_dom in Hl1, Hl2.
  exists (Some l), (<[l := b]> h), or, g.
  rw /push /= -/l insert_union_l. split; [done|]. split; [by apply map_disjoint_insert_l_2|].
  split; [done|]. rw insert_union_singleton_r //.
  apply (HΦ l); [|done]. by apply map_disjoint_singleton_r_2.
Qed.

(** The bytes of an object that is not empty. *)
Lemma wp_obj_bytes p bs g Φ :
  bs ≠ [] → raw p bs -∗ (raw p bs -∗ Φ (Some bs) g) -∗ wp nf (obj_bytes p) g Φ.
Proof.
  iIntros (Hne) "Hp HΦ". iDestruct "Hp" as (l d) "(-> & Hl & Hd)".
  wp_seq. iApply (wp_load_raw with "Hl"). iIntros "Hl".
  destruct d as [d|]; cbn [isNull buf]; [|by iDestruct "Hd" as %?].
  iDestruct "Hd" as "[%Hn Hd]".
  wp_seq. iApply (wp_memcpy_from with "Hd"); [by apply rd_range_all|]. iIntros "Hd".
  iApply wp_ret. iApply "HΦ". iExists l, (Some d). by iFrame.
Qed.

Lemma wp_set_obj_byte p bs bs' i v g Φ :
  bs ≠ [] → bs.[i := u8 v] = Some bs' → raw p bs -∗ (raw p bs' -∗ Φ tt g) -∗
  wp nf (set_obj_byte p i v) g Φ.
Proof.
  iIntros (Hne E) "Hp HΦ". iDestruct "Hp" as (l d) "(-> & Hl & Hd)".
  wp_seq. iApply (wp_load_raw with "Hl"). iIntros "Hl".
  destruct d as [d|]; cbn [buf]; [|by iDestruct "Hd" as %?].
  iDestruct "Hd" as "[%Hn Hd]".
  apply wr_Some_inv in E as [Hi ->].
  iApply (wp_memcpy_to with "Hd"); [by apply wr_range_single|].
  iIntros "Hd". iApply "HΦ". iExists l, (Some d). rw zlen_insert. iFrame.
  iSplit; [done|]. iPureIntro. intros Hi0%(f_equal length). rw length_insert in Hi0.
  by destruct bs.
Qed.

(** The fields of an object. *)
Lemma wp_load_obj {A} p bs g (k : ptr * Z → M (globals D) A) Φ :
  raw p bs -∗ (∀ d, ⟦isNull d = bool_decide (bs = [])⟧ -∗ raw p bs -∗ wp nf (k (d, zlen bs)) g Φ) -∗
  wp nf (bnd (load_RawDataObject p) k) g Φ.
Proof.
  iIntros "Hp HΦ". iDestruct "Hp" as (l d) "(-> & Hl & Hd)".
  wp_seq. iApply (wp_load_raw with "Hl"). iIntros "Hl".
  destruct d as [d|]; cbn [buf].
  - iDestruct "Hd" as "[%Hn Hd]". iApply "HΦ"; [by rw bool_decide_eq_false_2|].
    iExists l, (Some d). by iFrame.
  - iDestruct "Hd" as %->. iApply "HΦ"; [done|]. iExists l, None. by iFrame.
Qed.

Lemma exchange_inv cmd o g r g' :
  exchange cmd o g = Some (r, g') →
  ∃ sent size g1, transmit (Some cmd) g = Some ((sent, size), g1) ∧
    (if sent : bool then response_data size o g1 = Some (r, g') else r = (false, o) ∧ g' = g1).
Proof.
  rw /exchange /mbind /ST_bind.
  destruct (transmit (Some cmd) g) as [[[sent size] g1]|] eqn:E; [|done].
  intros Hr. exists sent, size, g1. split; [done|]. destruct sent; [done|].
  by injection Hr as <- <-.
Qed.

(** A command sent through an object: what the exchange answers, or, when an
    allocation fails, a failure that has sent nothing. *)
Lemma apdu_spec p bs o g r g' Φ :
  bs ≠ [] → is_Some (ptrSW o) → is_Some (ptrResponseApduDataSize o) → zlen bs + 1 < 2^64 →
  exchange (with_le g bs) o g = Some (r, g') →
  raw p bs -∗
  (∀ r0 g0, ⟦(r0, g0) = (r, g') ∨ nf = false ∧ (r0, g0) = ((false, o), g)⟧ -∗ raw p bs -∗ Φ r0 g0) -∗
  wp nf (_buildAndSendApduCase4 p o) g Φ.
Proof.
  iIntros (Hne [sw Hsw] [ds Hds] Hlen Ex) "Hp HΦ". rw /_buildAndSendApduCase4 Hsw Hds.
  destruct p as [l|]; [|by iDestruct "Hp" as (l d) "(%E & Hp)"]. cbn [isNull].
  wp_seq. iApply wp_lift; [done|]. rw /with_le in Ex. wp_seq.
  apply exchange_inv in Ex as (sent & size & g1 & Et & Er).
  destruct (_addLeToApuCase4 g); cbn [negb].
  - wp_seq. iApply (create_spec _ _ _ [0x00]); [done|done|]. iIntros (z) "Hz".
    destruct z as [z|]; cbn [isNull raw_result].
    2: { iDestruct "Hz" as %Hnf. wp_seq. wp_value. wp_seq. cbn [isNull]. wp_value. 
         wp_seq. iApply (free_spec _ _ None); [done|]. wp_seq. iApply (free_spec _ _ None); [done|].
         wp_value. wp_value. iApply ("HΦ" with "[] Hp"). iPureIntro. by right. }
    wp_seq. iApply (concat_spec _ _ (Some bs) _ (Some [0x00]) with "Hp Hz"); [done|].
    iIntros (a) "Hp Hz Ha". cbn [raw_arg default]. wp_seq.
    destruct a as [a|]; cbn [isNull raw_result].
    2: { iDestruct "Ha" as %Hnf. wp_value. 
         wp_seq. iApply (free_spec _ _ (Some [0x00]) with "Hz"). wp_seq. iApply (free_spec _ _ None); [done|].
         wp_value. wp_value. iApply ("HΦ" with "[] Hp"). iPureIntro. by right. }
    wp_seq. iApply (wp_obj_bytes with "Ha"); [by destruct bs|]. iIntros "Ha".
    iApply wp_lift; [done|].
    wp_seq. iApply (free_spec _ _ (Some [0x00]) with "Hz").
    wp_seq. iApply (free_spec _ _ (Some _) with "Ha"). wp_value.
    destruct sent; [iApply wp_lift; [done|]|destruct Er as [-> ->]; wp_value];
      (iApply ("HΦ" with "[] Hp"); iPureIntro; by left).
  - wp_seq. iApply (wp_obj_bytes with "Hp"); [done|]. iIntros "Hp".
    iApply wp_lift; [done|].
    destruct sent; [iApply wp_lift; [done|]|destruct Er as [-> ->]; wp_value];
      (iApply ("HΦ" with "[] Hp"); iPureIntro; by left).
Qed.

Definition out_ok o : Prop := is_Some (ptrSW o) ∧ is_Some (ptrResponseApduDataSize o).

Lemma exchange_out cmd o g r o' g' : out_ok o → exchange cmd o g = Some ((r, o'), g') → out_ok o'.
Proof.
  intros Hok Ex. apply exchange_inv in Ex as (sent & size & g1 & _ & Er).
  destruct sent; [|by destruct Er as [[= -> ->] _]].
  revert Er. destruct o as [sw data max ds], Hok as [[sw0 Hsw] [ds0 Hds]]. cbn in Hsw, Hds. subst.
  rw /response_data /mbind /ST_bind /opt /gets /mret /ST_ret.
  destruct (size >=? 2); [|by intros [= <- <- <-]].
  destruct (status_word size g1) as [[sw g2]|]; [|done].
  destruct data as [dst|]; [|by intros [= <- <- <-]].
  destruct (max >? 0); [|by intros [= <- <- <-]].
  destruct (size - 2 >? 0); [|by intros [= <- <- <-]].
  destruct (size - 2 <=? max); [|by intros [= <- <- <-]].
  destruct (rd_range _ _ _) as [vs|]; [|done]. destruct (wr_range _ _ _); [|done].
  by intros [= <- <- <-].
Qed.

(** The command of one block, written over the header. *)
Lemma block_bytes (isLast : bool) k chunk :
  zlen chunk <= 255 →
  ∃ a b, ([0x80; 0xE2; 0x91; 0x00; 0x00] ++ chunk).[2 := u8 (if isLast then 0x91 else 0x11)] = Some a ∧
         a.[3 := u8 (k mod 256)] = Some b ∧
         b.[4 := u8 (zlen chunk)] = Some (block_apdu isLast (k mod 256) chunk) ∧ a ≠ [] ∧ b ≠ [].
Proof.
  intros Hc. cbn [app]. rw wr_cell2. eexists _, _. split; [done|]. rw wr_cell3. split; [done|].
  rw wr_cell4. split; [|done].
  rw /block_apdu /u8. change (2^8) with 256. rw Zmod_mod (Z.mod_small (zlen chunk)).
  - by destruct isLast.
  - pose proof (zlen_nonneg chunk). lia.
Qed.

Lemma u8_succ k : u8 (k mod 256 + 1) = (k + 1) mod 256.
Proof. rw /u8. change (2^8) with 256. by rw Zplus_mod_idemp_l. Qed.

(** Sends one block of [bs], of [n] bytes from [off]. *)
Lemma send_cons c cmds o g r g' :
  send_all (c :: cmds) o g = Some (r, g') →
  ∃ r1 o1 g1, exchange (with_le g c) o g = Some ((r1, o1), g1) ∧
    (if r1 : bool then send_all cmds o1 g1 = Some (r, g') else r = (false, o1) ∧ g' = g1).
Proof.
  cbn [send_all]. rw /gets /mbind /ST_bind /with_le.
  destruct (exchange _ o g) as [[[r1 o1] g1]|] eqn:E; [|done].
  intros Hr. exists r1, o1, g1. split; [done|]. destruct r1; [done|]. by injection Hr as <- <-.
Qed.

Lemma storeData_loop_spec fuel h p bs k off res o g r g' Φ :
  0 <= off < zlen bs → zlen bs < 2^32 → zlen bs - off <= 255 * Z.of_nat fuel → out_ok o →
  send_all (store_apdus fuel k (drop (Z.to_nat off) bs)) o g = Some (r, g') →
  raw h _apduCommandStoreDataProfileCase4Header -∗ raw p bs -∗
  (∀ r0 g0, ⟦(r0, g0) = (r, g') ∨ nf = false⟧ -∗
     raw h _apduCommandStoreDataProfileCase4Header -∗ raw p bs -∗ Φ r0 g0) -∗
  wp nf (storeData_loop fuel h p (k mod 256) off res o) g Φ.
Proof.
  iInduction fuel as [|fuel] "IH" forall (k off res o g Φ); iIntros (Hoff Hbs Hfuel Hok Hs) "Hh Hp HΦ".
  { lia. }
  cbn [storeData_loop]. iApply (wp_load_obj with "Hp"). iIntros (d _) "Hp".
  cbn [store_apdus] in Hs. set (rest := drop (Z.to_nat off) bs) in *.
  assert (zlen rest = zlen bs - off) as Hrest by (rw /rest zlen_drop; lia).
  rw Hrest in Hs. change LPA_STORE_DATA_APDU_DATA_SIZE_MAX with 255 in *.
  set (last := zlen bs - off <=? 255) in *. cbv zeta.
  set (n := if last then zlen bs - off else 255).
  assert (0 < n <= 255 ∧ off + n <= zlen bs ∧ (last = false → n = 255 ∧ off + n < zlen bs))
    as (Hn & Hon & Hlast).
  { rw /n /last. destruct (Z.leb_spec (zlen bs - off) 255); cbn iota;
      (split; [lia|]); (split; [lia|]); [done|lia]. }
  set (cmds := if last then [] else store_apdus fuel (k + 1) (drop (Z.to_nat (off + n)) bs)).
  assert (send_all (block_apdu last (k mod 256) (partial bs off n) :: cmds) o g = Some (r, g')) as Hs'.
  { rw -Hs /cmds /partial -/rest. f_equal. destruct last eqn:El; f_equal.
    - f_equal. apply take_ge. rw /n. rw /zlen in Hrest *. lia.
    - destruct (Hlast eq_refl) as [-> _]. f_equal. rw /rest drop_drop. f_equal. lia. }
  clear Hs. apply send_cons in Hs' as (r1 & o1 & g1 & Ex & Hr).
  assert (zlen (partial bs off n) = n) as Hc.
  { rw /partial zlen_take zlen_drop. lia. }
  wp_seq. iApply (concatPartially_spec _ _ (Some _) _ (Some bs) with "Hh Hp"); [lia..| | |].
  { change (2^64) with 18446744073709551616. pows. lia. }
  { change (5 + zlen bs < 18446744073709551616). pows. lia. }
  iIntros (q) "Hh Hp Hq". cbn [raw_arg default from_option id]. destruct q as [q|]; cbn [isNull raw_result].
  2: { iDestruct "Hq" as %Hnf. wp_value. iApply ("HΦ" with "[] Hh Hp"). by iRight. }
  destruct (block_bytes last k (partial bs off n)) as (b1 & b2 & E1 & E2 & E3 & Hb1 & Hb2); [lia|].
  iApply (wp_load_obj with "Hq"). iIntros (d' _) "Hq".
  rw zlen_app Hc. change (zlen _apduCommandStoreDataProfileCase4Header) with 5.
  assert ((5 + n >? 4) = true) as -> by lia. wp_seq. cbn iota. rw Hc in E3.
  wp_seq. iApply (wp_set_obj_byte with "Hq"); [done|exact E1|]. iIntros "Hq".
  wp_seq. iApply (wp_set_obj_byte with "Hq"); [done|exact E2|]. iIntros "Hq".
  wp_seq. iApply (wp_set_obj_byte with "Hq"); [done|exact E3|]. iIntros "Hq".
  rw /buildAndSendApduCase4. iApply (apdu_spec with "Hq"); [done|apply Hok|apply Hok| |exact Ex|].
  { rw /block_apdu zlen_app Hc. change (5 + n + 1 < 18446744073709551616). lia. }
  iIntros (r0 g0 Hr0) "Hq". destruct r0 as [r0 o0]. wp_seq.
  iApply (free_spec _ _ (Some _) with "Hq").
  destruct Hr0 as [[= -> -> ->]|[Hnf [= -> -> ->]]]; cbn [negb].
  2: { wp_value. iApply ("HΦ" with "[] Hh Hp"). by iRight. }
  destruct r1; cbn [negb].
  2: { destruct Hr as [-> ->]. wp_value. iApply ("HΦ" with "[] Hh Hp"). by iLeft. }
  rw /cmds in Hr. destruct last.
  { injection Hr as <- <-. wp_value. iApply ("HΦ" with "[] Hh Hp"). by iLeft. }
  destruct (Hlast eq_refl) as [-> Hlt]. rw u8_succ.
  iApply ("IH" with "[] [] [] [] [] Hh Hp HΦ"); iPureIntro; [lia|done|lia|by eapply exchange_out|done].
Qed.
End rules.

(** ** STORE DATA *)

(** The commands that carry the pieces [chunks] of some data, in order. *)
Definition store_commands (k : Z) (chunks : list (list Z)) : list (list Z) :=
  imap (λ i c, block_apdu (Nat.eqb (S i) (length chunks)) ((k + Z.of_nat i) mod 256) c) chunks.

Lemma store_apdus_chunks fuel k bs :
  bs ≠ [] → zlen bs <= 255 * (Z.of_nat fuel + 1) →
  ∃ chunks, store_apdus fuel k bs = store_commands k chunks ∧ concat chunks = bs ∧
            Forall (λ c, 1 <= zlen c <= 255) chunks ∧ chunks ≠ [].
Proof.
  revert k bs. induction fuel as [|fuel IH]; intros k bs Hne Hf; cbn [store_apdus];
    change LPA_STORE_DATA_APDU_DATA_SIZE_MAX with 255;
    (destruct (Z.leb_spec (zlen bs) 255) as [Hle|Hgt];
     [exists [bs]; rw /store_commands /= Z.add_0_r app_nil_r; split_and!; try done;
      constructor; [|done]; destruct bs; [done|]; rw zlen_cons in Hle *; zlen_pos; lia|]).
  - lia.
  - destruct (IH (k + 1) (drop 255 bs)) as (chunks & -> & Hc & Hall & Hcn).
    { intros E%(f_equal zlen). rw zlen_drop in E. change (zlen []) with 0 in E. lia. }
    { rw zlen_drop. lia. }
    exists (take 255 bs :: chunks). split; [|split; [|split; [|done]]].
    + rw /store_commands /=. f_equal.
      * rw Z.add_0_r. by destruct chunks.
      * apply imap_ext. intros i c _. cbn. by rw (_ : k + 1 + Z.of_nat i = k + Z.of_nat (S i)); last lia.
    + cbn. by rw Hc take_drop.
    + constructor; [|done]. rw zlen_take. lia.
Qed.

(** The commands of a data object: what [buildAndSendStoreDataCase4] sends. *)
Lemma storeData_spec {D} (nf : bool) (p : ptr) (bs : list Z) (o : out) (g : globals D) r g' Φ :
  bs ≠ [] → zlen bs < 2^32 → out_ok o →
  send_all (store_apdus (Z.to_nat (zlen bs)) 0 bs) o g = Some (r, g') →
  raw p bs -∗ (∀ r0 g0, ⟦(r0, g0) = (r, g') ∨ nf = false⟧ -∗ raw p bs -∗ Φ r0 g0) -∗
  wp nf (buildAndSendStoreDataCase4 p o) g Φ.
Proof.
  intros Hne Hbs Hok Hs. pose proof (zlen_nonneg bs).
  assert (0 < zlen bs) as Hpos by (destruct bs; [done|]; rw zlen_cons; zlen_pos; lia).
  iIntros "Hp HΦ". pose proof Hok as [[sw Hsw] [ds Hds]]. rw /buildAndSendStoreDataCase4 Hsw.
  destruct p as [l|]; [|by iDestruct "Hp" as (l d) "(%E & Hp)"]. cbn [isNull].
  iApply (wp_load_obj with "Hp"). iIntros (d Hd) "Hp". rw bool_decide_eq_false_2 // in Hd.
  rw Hd. assert ((zlen bs >? 0) && negb false = true) as -> by lia.
  wp_seq. iApply (create_spec _ _ _ _apduCommandStoreDataProfileCase4Header); [done|done|].
  iIntros (h) "Hh". destruct h as [h|]; cbn [isNull raw_result].
  2: { iDestruct "Hh" as %Hnf. wp_value. iApply ("HΦ" with "[] Hp"). iPureIntro. by right. }
  wp_seq. change LPA_STORE_DATA_APDU_DATA_SIZE_MAX with 255.
  destruct (Z.leb_spec (zlen bs) 255) as [Hle|Hgt].
  - assert (store_apdus (Z.to_nat (zlen bs)) 0 bs = [block_apdu true 0 bs]) as Est.
    { destruct (Z.to_nat (zlen bs)); cbn [store_apdus]; change LPA_STORE_DATA_APDU_DATA_SIZE_MAX with 255;
        by rw (proj2 (Z.leb_le _ _) Hle). }
    rw Est in Hs. apply send_cons in Hs as (r1 & o1 & g1 & Ex & Hr).
    assert ((r, g') = ((r1, o1), g1)) as [= -> ->].
    { destruct r1; [by injection Hr as <- <-|by destruct Hr as [-> ->]]. }
    wp_seq. iApply (concat_spec _ _ (Some _) _ (Some bs) with "Hh Hp").
    { change (5 + zlen bs < 18446744073709551616). lia. }
    iIntros (q) "Hh Hp Hq". cbn [raw_arg default from_option id].
    destruct q as [q|]; cbn [isNull raw_result].
    2: { iDestruct "Hq" as %Hnf. wp_value. wp_seq. iApply (free_spec _ _ (Some _) with "Hh").
         wp_value. iApply ("HΦ" with "[] Hp"). iPureIntro. by right. }
    iApply (wp_load_obj with "Hq"). iIntros (d' _) "Hq". rw zlen_app.
    change (zlen _apduCommandStoreDataProfileCase4Header) with 5.
    assert ((5 + zlen bs >? 4) = true) as -> by lia. wp_seq. cbn iota.
    wp_seq. iApply (wp_set_obj_byte _ _ _ (block_apdu true 0 bs) with "Hq"); [done| |].
    { cbn [app _apduCommandStoreDataProfileCase4Header]. rw wr_cell4 /block_apdu /u8.
      change (2^8) with 256. rw Z.mod_small //. lia. }
    iIntros "Hq". rw /buildAndSendApduCase4.
    iApply (apdu_spec with "Hq"); [done|by eexists|by eexists| |exact Ex|].
    { rw /block_apdu zlen_app. change (5 + zlen bs + 1 < 18446744073709551616). lia. }
    iIntros (r0 g0 Hr0) "Hq". wp_seq. iApply (free_spec _ _ (Some _) with "Hq"). wp_value.
    wp_seq. iApply (free_spec _ _ (Some _) with "Hh"). wp_value. iApply ("HΦ" with "[] Hp"). iPureIntro.
    destruct Hr0 as [->|[? _]]; [by left|by right].
  - iApply (storeData_loop_spec nf _ _ _ _ 0 0 with "Hh Hp"); [lia|done|lia|done|exact Hs|].
    iIntros (r0 g0 Hr0) "Hh Hp". wp_seq. iApply (free_spec _ _ (Some _) with "Hh"). wp_value.
    by iApply ("HΦ" with "[] Hp").
Qed.

(** C4: STORE DATA segmentation (refinement): a non-empty data object is sent
    as consecutive STORE DATA commands whose data fields, of 1 to 255 bytes,
    concatenate to the object, numbered modulo 256, only the last one marked
    as such in P1; the function answers what this sequence of exchanges,
    stopped at its first failure, answers, unless an allocation fails; in
    every case the object is given back and nothing is leaked. *)
Theorem storeData_correct {D} (nf : bool) (p : ptr) (bs : list Z) (o : out) (g : globals D) :
  bs ≠ [] → zlen bs < 2^32 → out_ok o →
  ∃ chunks, concat chunks = bs ∧ Forall (λ c, 1 <= zlen c <= 255) chunks ∧
    ∀ r g', send_all (store_commands 0 chunks) o g = Some (r, g') →
      triple nf (raw p bs) (buildAndSendStoreDataCase4 p o) g
        (λ r0 g0, ⟦(r0, g0) = (r, g') ∨ nf = false⟧ ∗ raw p bs)%I.
Proof.
  intros Hne Hbs Hok. pose proof (zlen_nonneg bs).
  destruct (store_apdus_chunks (Z.to_nat (zlen bs)) 0 bs Hne) as (chunks & Hst & Hc & Hall & _);
    [lia|]. exists chunks. split; [done|]. split; [done|]. intros r g' Hs. rw -Hst in Hs.
  iIntros "Hp". iApply (storeData_spec with "Hp"); [done..|]. iIntros (r0 g0 Hr0) "Hp". by iFrame.
Qed.

(** Globals around a scripted card. *)
Definition sample_globals (answers : list (list Z)) : globals (list (list Z) * list (list Z)) :=
  Globals (sample_state script (answers, [])) (fill 0 8192) true false (fill 0 256).

Lemma storeData_correct_witness :
  ∃ chunks, concat chunks = [1; 2; 3] ∧ Forall (λ c, 1 <= zlen c <= 255) chunks ∧
    ∀ r g', send_all (store_commands 0 chunks) (Out (Some 0) None 0 (Some 0))
              (sample_globals [[0x90; 0x00]]) = Some (r, g') →
      triple false (raw (Some 1%positive) [1; 2; 3])
        (buildAndSendStoreDataCase4 (Some 1%positive) (Out (Some 0) None 0 (Some 0)))
        (sample_globals [[0x90; 0x00]])
        (λ r0 g0, ⟦(r0, g0) = (r, g') ∨ false = false⟧ ∗ raw (Some 1%positive) [1; 2; 3])%I.
Proof.
  apply (storeData_correct false (Some 1%positive) [1; 2; 3] (Out (Some 0) None 0 (Some 0))
           (sample_globals [[0x90; 0x00]])); [done|done|by split; eexists].
Defined.

(** Truncated STORE DATA reported as a success (error): when the memory
    for the second of two blocks cannot be allocated, the function answers
    true although the card has received the first block only, which announces
    a second one. *)
Theorem storeData_truncated :
  ∃ o w, buildAndSendStoreDataCase4 (Some 1%positive) (Out (Some 0) None 0 (Some 0))
           (World (raw_heap 1 2 (replicate 300 7)) (replicate 8 false ++ [true])
                  (sample_globals [[0x90; 0x00]; [0x90; 0x00]])) = Some ((true, o), w) ∧
         (driver (se (wglobals w))).2 = [block_apdu false 0 (replicate 255 7) ++ [0x00]].
Proof. eexists _, _. split; vm_compute; reflexivity. Qed.

(** ** Selection of the ISD-R *)

Section isdr.
Context {D : Type}.
Implicit Types (g : globals D).

Definition select_out g : out :=
  Out (Some 0) (Some (isdr_apduResponseBytes g)) (zlen (isdr_apduResponseBytes g)) (Some 0).

(** The verdict on the answer to SELECT. *)
Definition select_accepted (r : bool) (o : out) : bool :=
  r && (default 0 (ptrResponseApduDataSize o) >=? 2) && select_sw_ok (default 0 (ptrSW o)).

Lemma wp_pop {nf} l bs g Φ : bs ≠ [] → raw l bs -∗ Φ tt g -∗ wp nf (pop l) g Φ.
Proof.
  iIntros (Hne) "Hp HΦ". iDestruct "Hp" as (lo d) "(-> & Hl & Hd)".
  wp_seq. iApply (wp_load_raw with "Hl"). iIntros "Hl".
  destruct d as [d|]; cbn [buf]; [|by iDestruct "Hd" as %?]. iDestruct "Hd" as "[_ Hd]".
  wp_seq. iApply (wp_free_block with "Hd"). by iApply (wp_free_block with "Hl").
Qed.

Lemma set_error_nonzero e s :
  e ≠ LPA_NO_ERROR →
  ∃ s', SeMedia.lpaSetErrorCode e s = Some (tt, s') ∧ _errorCode (D:=D) s' ≠ LPA_NO_ERROR ∧
    _seMedia s' = _seMedia s ∧ driver s' = driver s.
Proof.
  intros He. rw /SeMedia.lpaSetErrorCode /modifies. eexists. split; [done|]. split; [by apply first_error_error|done].
Qed.

(** The driver, its state and the buffer of the answers, which a report of an
    error leaves alone. *)
Definition same_media g' g : Prop :=
  _seMedia (se g') = _seMedia (se g) ∧ driver (se g') = driver (se g) ∧ _apduResponseBytes g' = _apduResponseBytes g.

(** What is done with the answer to SELECT. *)
Lemma wp_verdict (nf : bool) (r : bool) o g Φ :
  _isSelectedISDR g = false →
  (∀ g', ⟦_isSelectedISDR g' = select_accepted r o⟧ -∗
         ⟦select_accepted r o = false → _errorCode (se g') ≠ LPA_NO_ERROR⟧ -∗ ⟦same_media g' g⟧ -∗ Φ tt g') -∗
  wp nf (if r then
           if default 0 (ptrResponseApduDataSize o) >=? 2 then
             if select_sw_ok (default 0 (ptrSW o))
             then let* buf := lift (gets isdr_apduResponseBytes) in set_selected true buf
             else lpaSetErrorCode LPA_ERROR_SE_MEDIA_UNABLE_TO_SELECT_ISDR
           else lpaSetErrorCode LPA_ERROR_SE_MEDIA_UNABLE_TO_SELECT_ISDR
         else lpaSetErrorCode LPA_ERROR_SE_MEDIA_UNABLE_TO_SELECT_ISDR) g Φ.
Proof.
  iIntros (Hsel) "HΦ". rw /select_accepted.
  destruct (set_error_nonzero LPA_ERROR_SE_MEDIA_UNABLE_TO_SELECT_ISDR (se g)) as (s' & E & Hs' & Hm); [done|].
  destruct r; [destruct (_ >=? 2); [destruct (select_sw_ok _)|]|]; cbn [andb].
  1: { wp_seq. iApply wp_lift; [done|]. iApply wp_lift; [done|]. by iApply "HΦ". }
  all: iApply wp_lift; [by rw /with_se E|]; iApply "HΦ"; iPureIntro; by destruct Hm.
Qed.

Lemma wp_select (nf : bool) g r o g1 Φ :
  exchange (with_le g _apduCommandSelectISDR) (select_out g) g = Some ((r, o), g1) →
  (∀ b g', ⟦_isSelectedISDR g' = b⟧ -∗
     ⟦if _isSelectedISDR g then b = true ∧ g' = g
      else (b = select_accepted r o ∨ nf = false ∧ b = false) ∧ (b = false → _errorCode (se g') ≠ LPA_NO_ERROR) ∧
           (same_media g' g1 ∨ nf = false ∧ same_media g' g)⟧ -∗ Φ b g') -∗
  wp nf selectISDRApplet g Φ.
Proof.
  iIntros (Ex) "HΦ". rw /selectISDRApplet. wp_seq. iApply wp_lift; [done|].
  destruct (_isSelectedISDR g) eqn:Esel; cbn [negb]; wp_seq.
  { wp_value. iApply wp_lift; [done|]. rw Esel. by iApply "HΦ". }
  wp_seq. iApply wp_lift; [done|]. wp_seq. wp_seq.
  iApply wp_push. iIntros (lb) "Hb". wp_seq. iApply wp_push. iIntros (lo) "Ho". wp_seq.
  iApply (apdu_spec _ _ _apduCommandSelectISDR with "[Hb Ho]"); [done|by eexists|by eexists|done|exact Ex| |].
  { iExists lo, (Some lb). by iFrame. }
  iIntros (r0 g0 Hr0) "Hraw". wp_seq. iApply (wp_pop with "Hraw"); [done|]. wp_value.
  destruct r0 as [r0 o0]. wp_seq. iApply wp_lift; [done|].
  set (g2 := Globals _ _ _ false _). assert (same_media g2 g0) as H2 by done.
  assert ((select_accepted r0 o0 = select_accepted r o ∨ nf = false ∧ select_accepted r0 o0 = false) ∧
          (g0 = g1 ∨ nf = false ∧ g0 = g)) as [Hacc Hg0].
  { destruct Hr0 as [[= -> -> ->]|[? [= -> -> ->]]]; split; by (left + right). }
  iApply (wp_verdict nf r0 o0 g2); [done|]. iIntros (g3 H3 H4 H5). iApply wp_lift; [done|]. iApply "HΦ"; [done|].
  iPureIntro. rw H3. split; [by destruct Hacc as [->|[? ->]]; [left|right]|]. split; [done|].
  destruct Hg0 as [->|[? ->]]; [by left|by right].
Qed.

(** Selecting the ISD-R (functional): an applet already selected is not
    selected again; otherwise the answer is true, and recorded, exactly when
    the exchange succeeds with at least two bytes of data and a status word
    the code accepts; a failed selection leaves an error code. *)
Theorem select_correct (nf : bool) g r o g1 :
  exchange (with_le g _apduCommandSelectISDR) (select_out g) g = Some ((r, o), g1) →
  triple nf emp%I selectISDRApplet g
    (λ b g', ⟦_isSelectedISDR g' = b ∧
       (if _isSelectedISDR g then b = true ∧ g' = g
        else (b = select_accepted r o ∨ nf = false ∧ b = false) ∧
             (b = false → _errorCode (se g') ≠ LPA_NO_ERROR))⟧)%I.
Proof.
  intros Ex. iIntros "_". iApply wp_select; [exact Ex|]. iIntros (b g') "%Hb %H". iPureIntro. split; [done|].
  destruct (_isSelectedISDR g); [done|]. by destruct H as (? & ? & _).
Qed.
End isdr.

Lemma select_correct_witness :
  ∃ r o g1,
    exchange (with_le (sample_globals [[0x6F; 0x00; 0x90; 0x00]]) _apduCommandSelectISDR)
      (select_out (sample_globals [[0x6F; 0x00; 0x90; 0x00]]))
      (sample_globals [[0x6F; 0x00; 0x90; 0x00]]) = Some ((r, o), g1) ∧
    select_accepted r o = true ∧
    triple true emp%I selectISDRApplet (sample_globals [[0x6F; 0x00; 0x90; 0x00]])
      (λ b g', ⟦_isSelectedISDR g' = b ∧
         (b = select_accepted r o ∨ true = false ∧ b = false) ∧
         (b = false → _errorCode (se g') ≠ LPA_NO_ERROR)⟧)%I.
Proof.
  eexists _, _, _. split; [vm_compute; reflexivity|]. split; [vm_compute; reflexivity|].
  eapply (select_correct true (sample_globals [[0x6F; 0x00; 0x90; 0x00]])). vm_compute. reflexivity.
Defined.

(** Misjudged answers to SELECT (error): the status word 9000 without data
    is refused, and status words such as 6D00, instruction not supported,
    pass the mask meant for 61XX when data comes with them. *)
Theorem select_misjudges :
  (∃ w, selectISDRApplet (World ∅ [] (sample_globals [[0x90; 0x00]])) = Some (false, w)) ∧
  (∃ w, selectISDRApplet (World ∅ [] (sample_globals [[1; 2; 0x6D; 0x00]])) = Some (true, w)).
Proof. split; eexists; vm_compute; reflexivity. Qed.
