(* ===== verification/Es10.v ===== *)
(** * Requests to the eUICC

    What the functions of [lpa_manager_es10b.c] and [lpa_manager_es10c.c]
    share: a request is a BER-TLV object, sent with STORE DATA commands, and
    its answer a status word and some data. Their static variables, together
    with those of the layers below, are the record [sdk]. *)

From iris.bi Require Import bi.
From iris.proofmode Require Import proofmode.
From S2P Require Import Prelude StateMonad ApiError ProfileInfo Heap Wp RawData BerTlv TlvWalk SeMedia Apdu.

Section code.
Context {D : Type}.

(** [_dataBuffer] of the two files and of [lpa_manager.c], and
    [_refreshFlagActivated]; the layers below hold the error code. *)
Record sdk := Sdk {
  apdu : globals D;
  es10b_dataBuffer : list Z;
  es10c_dataBuffer : list Z;
  manager_dataBuffer : list Z;
  _refreshFlagActivated : bool
}.

Definition set_apdu (a : globals D) (g : sdk) : sdk :=
  Sdk a (es10b_dataBuffer g) (es10c_dataBuffer g) (manager_dataBuffer g) (_refreshFlagActivated g).
Definition set_es10b_dataBuffer (b : list Z) (g : sdk) : sdk :=
  Sdk (apdu g) b (es10c_dataBuffer g) (manager_dataBuffer g) (_refreshFlagActivated g).
Definition set_es10c_dataBuffer (b : list Z) (g : sdk) : sdk :=
  Sdk (apdu g) (es10b_dataBuffer g) b (manager_dataBuffer g) (_refreshFlagActivated g).
Definition set_manager_dataBuffer (b : list Z) (g : sdk) : sdk :=
  Sdk (apdu g) (es10b_dataBuffer g) (es10c_dataBuffer g) b (_refreshFlagActivated g).

Abbreviation M := (M sdk).

Definition with_apdu {A} (m : Heap.M (globals D) A) : M A := zoom apdu set_apdu m.

(** The files that have a [_dataBuffer]. *)
Inductive es10_file := ES10b | ES10c | Manager.
Definition dataBuffer (f : es10_file) (g : sdk) : list Z :=
  match f with ES10b => es10b_dataBuffer g | ES10c => es10c_dataBuffer g | Manager => manager_dataBuffer g end.
Definition set_dataBuffer (f : es10_file) (b : list Z) (g : sdk) : sdk :=
  match f with
  | ES10b => set_es10b_dataBuffer b g
  | ES10c => set_es10c_dataBuffer b g
  | Manager => set_manager_dataBuffer b g
  end.

(** The error code, at the place where the layers below keep it. *)
Definition errorCode (g : sdk) : LPA_API_ERROR := _errorCode (se (apdu g)).
Definition set_se_error (e : LPA_API_ERROR) (s : se_state D) : se_state D :=
  SeState (_seMedia s) (driver s) e.
Definition set_errorCode (e : LPA_API_ERROR) (g : sdk) : sdk :=
  let a := apdu g in
  set_apdu (Globals (set_se_error e (se a)) (_apduResponseBytes a) (_addLeToApuCase4 a)
              (_isSelectedISDR a) (isdr_apduResponseBytes a)) g.

(** Functions of the files whose only static variable is the error code. *)
Definition with_error {A} (m : Heap.M LPA_API_ERROR A) : M A := zoom errorCode set_errorCode m.
Definition setError (e : LPA_API_ERROR) : M unit := with_error (lift (ApiError.lpaSetErrorCode e)).
Definition resetError : M unit := with_error (lift lpaResetErrorCode).
Definition isError : M bool := with_error (lift lpaIsError).
Definition getErrorNoClear : M LPA_API_ERROR := with_error (lift lpaGetErrorCodeNoClear).

(** [buildAndSendStoreDataCase4(request, &sw, buf, max, &size)], with [sw] and
    [size] 0 before: the result, [sw], [buf] and [size]. *)
Definition storeData (request : ptr) (buf : list Z) (max : Z) : M (bool * Z * list Z * Z) :=
  let* '(sent, o) :=
    with_apdu (buildAndSendStoreDataCase4 request (Out (Some 0) (Some buf) max (Some 0))) in
  ret (sent, default 0 (ptrSW o), default buf (ptrResponseApduData o), default 0 (ptrResponseApduDataSize o)).

(** The same, with [_dataBuffer] for the answer; [None] for its size. *)
Definition room_of (f : es10_file) (max : option Z) (g : sdk) : Z := default (zlen (dataBuffer f g)) max.
Definition storeData_in (f : es10_file) (request : ptr) (max : option Z) : M (bool * Z * Z) :=
  let* g := get_globals in
  let* '(sent, sw, buf, size) := storeData request (dataBuffer f g) (room_of f max g) in
  let* g := get_globals in
  set_globals (set_dataBuffer f buf g) ;;
  ret (sent, sw, size).

(** [_dataBuffer], as the argument of a function. *)
Definition data_of (f : es10_file) : M (option (list Z)) := let* g := get_globals in ret (Some (dataBuffer f g)).

(** The same, into a block of the heap. *)
Definition storeData_to (request p : ptr) (max : Z) : M (bool * Z * Z) :=
  let* buf := load_bytes p in
  let* '(sent, sw, buf, size) := storeData request buf max in
  store p (BBytes buf) ;;
  ret (sent, sw, size).

(** [(sw == 0x9000) || ((sw & 0xFF00) == 0x9100)] *)
Definition sw_success (sw : Z) : bool := (sw =? 0x9000) || (Z.land sw 0xFF00 =? 0x9100).

Definition ERASE_RAWDATAOBJECT (p : ptr) : M unit :=
  if isNull p then ret tt else rawDataObject_free p.

(** [report the error, return false] *)
Definition fail {A} (e : LPA_API_ERROR) (a : A) : M (bool * A) := setError e ;; ret (false, a).

(** [if (t != NULL && t->length == 1) ... t->value[0]] *)
Definition result_byte (t : ptr) : M (option Z) :=
  if isNull t then ret None else
  let* '(_, length, value) := tlv_data t in
  if length =? 1 then
    let* v := of_option value in let* b := of_option v.[0] in ret (Some b)
  else ret None.

(** [berTLV_createAndBuildRawDataObject(tag, p->rawDataSize, p->rawData)] *)
Definition wrap_object (tag : Z) (p : ptr) : M ptr :=
  let* '(d, n) := load_RawDataObject p in
  let* v := (if isNull d then ret None else let* bs := load_bytes d in ret (Some bs)) in
  berTLV_createAndBuildRawDataObject tag n v.

(** The dereference in [formatBytesToHexaString(p->rawData, ...)]. *)
Definition deref (p : ptr) : M unit := load_RawDataObject p ;; ret tt.

(** ** Reference: a request and its answer, without the heap *)

(** What the card answers to a request: the result, the status word, the
    buffer and the number of its bytes that are data. *)
Definition ask (request buf : list Z) (max : Z) : ST (globals D) (bool * Z * list Z * Z) := λ g,
  '((sent, o), g') ← send_all (store_apdus (Z.to_nat (zlen request)) 0 request)
                       (Out (Some 0) (Some buf) max (Some 0)) g;
  Some ((sent, default 0 (ptrSW o), default buf (ptrResponseApduData o),
         default 0 (ptrResponseApduDataSize o)), g').

(** The data of an answer; none when the exchange fails. *)
Definition answer_data (a : bool * Z * list Z * Z) : option (list Z) :=
  let '(sent, sw, buf, size) := a in
  if sent && sw_success sw then Some (take (Z.to_nat size) buf) else None.
(** The verdict on an exchange: [failed] when it did not take place, [bad_sw]
    when the status word is not a success. *)
Definition exchange_verdict (failed bad_sw : LPA_API_ERROR) (judge : list Z → option LPA_API_ERROR)
    (x : bool * Z * list Z * Z) : option LPA_API_ERROR :=
  let '(sent, sw, buf, size) := x in
  if sent then if sw_success sw then judge (take (Z.to_nat size) buf) else Some bad_sw else Some failed.
End code.
Arguments sdk : clear implicits.

(** ** Rules *)

Section rules.
Context {D : Type}.
Implicit Types (g : sdk D) (a : globals D).

Lemma set_errorCode_same g : set_errorCode (errorCode g) g = g.
Proof. destruct g as [[[s d e] b le sel i] b1 b2 b3 r]. done. Qed.

Lemma set_errorCode_twice e e' g : set_errorCode e (set_errorCode e' g) = set_errorCode e g.
Proof. by destruct g. Qed.

Lemma errorCode_set e g : errorCode (set_errorCode e g) = e.
Proof. done. Qed.

(** The globals after a report. *)
Definition reporting (e : LPA_API_ERROR) g : sdk D := set_errorCode (first_error e (errorCode g)) g.

Section wp.
Context (nf : bool).

Lemma wp_setError e g Φ : Φ tt (reporting e g) -∗ wp nf (setError e) g Φ.
Proof. iIntros "HΦ". iApply wp_zoom. iApply wp_lift; [done|]. iExact "HΦ". Qed.

Lemma wp_resetError g Φ : Φ tt (set_errorCode LPA_NO_ERROR g) -∗ wp nf resetError g Φ.
Proof. iIntros "HΦ". iApply wp_zoom. iApply wp_lift; [done|]. iExact "HΦ". Qed.

Lemma wp_isError g Φ : Φ (negb (bool_decide (errorCode g = LPA_NO_ERROR))) g -∗ wp nf isError g Φ.
Proof.
  iIntros "HΦ". iApply wp_zoom. iApply wp_lift; [done|]. by rw set_errorCode_same.
Qed.

Lemma wp_getErrorNoClear g Φ : Φ (errorCode g) g -∗ wp nf getErrorNoClear g Φ.
Proof. iIntros "HΦ". iApply wp_zoom. iApply wp_lift; [done|]. by rw set_errorCode_same. Qed.

Lemma wp_erase_raw p o g Φ : raw_arg p o -∗ Φ tt g -∗ wp nf (ERASE_RAWDATAOBJECT (D := D) p) g Φ.
Proof.
  iIntros "Hp HΦ". rw /ERASE_RAWDATAOBJECT. destruct o as [bs|]; cbn [raw_arg].
  - iDestruct "Hp" as (l d) "(-> & Hl & Hd)". cbn [isNull].
    iApply (free_spec _ _ (Some bs) with "[Hl Hd]"); [|done]. iExists l, d. by iFrame.
  - iDestruct "Hp" as %->. by wp_value.
Qed.
End wp.

(** An exchange when no allocation fails. *)
Lemma wp_storeData p bs buf max g x a' Φ :
  bs ≠ [] → zlen bs < 2^32 → ask bs buf max (apdu g) = Some (x, a') →
  raw p bs -∗ (raw p bs -∗ Φ x (set_apdu a' g)) -∗ wp true (storeData p buf max) g Φ.
Proof.
  iIntros (Hne Hl Ha) "Hp HΦ". rw /ask in Ha. destruct (send_all _ _ _) as [[[sent o] a1]|] eqn:Es; [|done].
  injection Ha as <- <-. wp_seq. iApply wp_zoom.
  iApply (storeData_spec with "Hp"); [done|done|split; by eexists|exact Es|].
  iIntros ([r0 o0] g0 Hr) "Hp". destruct Hr as [[= -> -> ->]|]; [|done]. wp_value. by iApply "HΦ".
Qed.

Lemma wp_storeData_to p q bs buf max g sent sw buf' size a' Φ :
  bs ≠ [] → zlen bs < 2^32 → ask bs buf max (apdu g) = Some ((sent, sw, buf', size), a') → zlen buf' = zlen buf →
  raw p bs -∗ q ↦ BBytes buf -∗
  (raw p bs -∗ q ↦ BBytes buf' -∗ Φ (sent, sw, size) (set_apdu a' g)) -∗
  wp true (storeData_to p (Some q) max) g Φ.
Proof.
  iIntros (Hne Hl Ha Hz) "Hp Hq HΦ". wp_seq. iApply (wp_load_bytes with "Hq"). iIntros "Hq".
  wp_seq. iApply (wp_storeData with "Hp"); [done..|]. iIntros "Hp".
  wp_seq. iApply (wp_store_block with "Hq"); [by cbn [sizeof]|]. iIntros "Hq". wp_value.
  iApply ("HΦ" with "Hp Hq").
Qed.
End rules.

(** ** Answers *)

(** The buffer keeps its size, and the data fit the room that is offered. *)
Definition answer_fits (buf : list Z) (max : Z) (o : out) : Prop :=
  ∃ dst n, ptrResponseApduData o = Some dst ∧ zlen dst = zlen buf ∧ responseApduDataMaxSize o = max ∧
    ptrResponseApduDataSize o = Some n ∧ 0 <= n <= max.

Section answers.
Context {D : Type}.
Implicit Types (a : globals D).

Lemma response_data_fits buf max size o a r o' a' :
  answer_fits buf max o → response_data size o a = Some ((r, o'), a') → answer_fits buf max o'.
Proof.
  intros (dst & n & Hd & Hz & Hm & Hs & Hn). destruct o as [sw data mx ds]. cbn in Hd, Hm, Hs. subst.
  rw /response_data /mbind /ST_bind /opt /gets /mret /ST_ret.
  destruct (size >=? 2); [|intros [= <- <- <-]; by exists dst, n].
  destruct (status_word size a) as [[sw' g2]|]; [|done].
  destruct (max >? 0) eqn:E1; [|intros [= <- <- <-]; by exists dst, n]. zprop.
  destruct (size - 2 >? 0) eqn:E2; [|intros [= <- <- <-]; exists dst, 0; cbn; split_and!; (done || lia)]. zprop.
  destruct (size - 2 <=? max) eqn:E3; [|intros [= <- <- <-]; exists dst, 0; cbn; split_and!; (done || lia)]. zprop.
  destruct (rd_range _ _ _) as [vs|]; [|done]. destruct (wr_range _ _ _) as [dst'|] eqn:Ew; [|done].
  intros [= <- <- <-]. exists dst', (size - 2). apply wr_range_zlen in Ew. cbn. split_and!; try done; lia.
Qed.

Lemma exchange_fits cmd buf max o a r o' a' :
  answer_fits buf max o → exchange cmd o a = Some ((r, o'), a') → answer_fits buf max o'.
Proof.
  intros Hf Ex. apply exchange_inv in Ex as (sent & size & a1 & _ & Er).
  destruct sent; [by eapply response_data_fits|]. by destruct Er as [[= -> ->] _].
Qed.

Lemma send_all_fits cmds buf max o a r o' a' :
  answer_fits buf max o → send_all cmds o a = Some ((r, o'), a') → answer_fits buf max o'.
Proof.
  revert o a. induction cmds as [|c cmds IH]; intros o a Hf Hs.
  { by injection Hs as <- <- <-. }
  apply send_cons in Hs as (r1 & o1 & a1 & Ex & Hr). pose proof (exchange_fits _ _ _ _ _ _ _ _ Hf Ex) as Hf1.
  destruct r1; [by eapply IH|]. by destruct Hr as [[= -> ->] _].
Qed.

Lemma ask_fits request buf max a sent sw buf' size a' :
  0 <= max → ask request buf max a = Some ((sent, sw, buf', size), a') →
  zlen buf' = zlen buf ∧ 0 <= size <= max.
Proof.
  intros Hmax Ha. rw /ask in Ha. destruct (send_all _ _ _) as [[[s o] a1]|] eqn:Es; [|done]. injection Ha as <- <- <- <- <-.
  eapply (send_all_fits _ buf max) in Es as (dst & n & -> & Hz & _ & -> & Hn); [done|].
  exists buf, 0. cbn. split_and!; try done; lia.
Qed.
End answers.

(** The globals after an error, if any. *)
Definition reporting_opt {D} (r : option LPA_API_ERROR) (g : sdk D) : sdk D :=
  match r with Some e => reporting e g | None => g end.

(** ** Objects of a request and of an answer *)

Section objects.
Context {D : Type} (nf : bool).
Implicit Types (g : sdk D).

Lemma wp_fail {A} e (a : A) g Φ : Φ (false, a) (reporting e g) -∗ wp nf (fail e a) g Φ.
Proof. iIntros "HΦ". wp_seq. iApply wp_setError. by wp_value. Qed.

(** The byte of an object of one byte. *)
Definition one_byte (r : option (list Z)) : option Z := match r with Some [b] => Some b | _ => None end.

Lemma wp_result_byte p tag r g Φ :
  maybe_tlv p tag r -∗ (maybe_tlv p tag r -∗ Φ (one_byte r) g) -∗ wp nf (result_byte (D := D) p) g Φ.
Proof.
  iIntros "Hp HΦ". rw /result_byte. destruct r as [v|]; cbn [maybe_tlv].
  - destruct p as [l|]; [|by iDestruct "Hp" as (l d) "(%E & ?)"]. cbn [isNull].
    wp_seq. iApply (wp_tlv_data with "Hp"). iIntros "Hp". iSpecialize ("HΦ" with "Hp").
    destruct v as [|b [|c v]]; cbn [value one_byte].
    + by wp_value.
    + wp_seq. iApply wp_of_option. wp_seq. iApply (wp_of_option _ b). by wp_value.
    + rw (_ : (zlen (b :: c :: v) =? 1) = false); [|rw !zlen_cons; zlen_pos; lia]. by wp_value.
  - iDestruct "Hp" as %->. wp_value. by iApply "HΦ".
Qed.

Lemma wp_wrap_object tag p bs g Φ :
  0 <= tag < 2 ^ 16 → zlen bs < 2 ^ 24 →
  raw p bs -∗ (∀ q, raw p bs -∗ raw_result nf q (tlv_bytes tag bs) -∗ Φ q g) -∗
  wp nf (wrap_object (D := D) tag p) g Φ.
Proof.
  iIntros (Ht Hl) "Hp HΦ". iDestruct "Hp" as (l d) "(-> & Hl & Hd)". wp_seq.
  iApply (wp_load_raw with "Hl"). iIntros "Hl". wp_seq. destruct d as [d|]; cbn [isNull buf].
  - iDestruct "Hd" as "[%Hne Hd]". wp_seq. iApply (wp_load_bytes with "Hd"). iIntros "Hd". wp_value.
    iApply (createAndBuild_spec _ _ _ _ bs); [done|done|by apply rd_range_all|]. iIntros (q) "Hq".
    iApply ("HΦ" with "[Hl Hd] Hq"). iExists l, (Some d). by iFrame.
  - iDestruct "Hd" as %->. wp_value. iApply createAndBuild_spec; [done..|]. iIntros (q) "Hq".
    iApply ("HΦ" with "[Hl] Hq"). iExists l, None. by iFrame.
Qed.
End objects.

Section requests.
Context {D : Type}.
Implicit Types (g : sdk D).

Lemma tlv_bytes_bound t v : zlen (tlv_bytes t v) <= zlen v + 6.
Proof.
  rw /tlv_bytes !zlen_app tag_bytes_zlen. pose proof (ber_length_bounds (zlen v)). destruct (negb _); lia.
Qed.

(** Answer NULL is excluded. *)
Lemma raw_result_sure q bs : raw_result true q bs ⊢ ⟦isNull q = false⟧ ∗ raw q bs.
Proof.
  iIntros "Hq". destruct q as [l|]; cbn [raw_result isNull]; [by iFrame|by iDestruct "Hq" as %?].
Qed.

Lemma wp_deref nf p bs g Φ : raw p bs -∗ (raw p bs -∗ Φ tt g) -∗ wp nf (deref (D := D) p) g Φ.
Proof.
  iIntros "Hp HΦ". iDestruct "Hp" as (l d) "(-> & Hl & Hd)". wp_seq. iApply (wp_load_raw with "Hl"). iIntros "Hl".
  wp_value. iApply "HΦ". iExists l, d. by iFrame.
Qed.

(** An object of a tag, when the allocator does not fail. *)
Lemma wp_build tag v g Φ :
  0 <= tag < 2 ^ 16 → zlen v < 2 ^ 24 →
  (∀ l, raw (Some l) (tlv_bytes tag v) -∗ Φ (Some l) g) -∗
  wp true (berTLV_createAndBuildRawDataObject tag (zlen v) (Some v)) g Φ.
Proof.
  iIntros (Ht Hv) "HΦ". iApply (createAndBuild_spec _ _ _ _ v); [done|done|by apply rd_range_all|].
  iIntros ([l|]) "Hq"; cbn [raw_result]; [by iApply "HΦ"|by iDestruct "Hq" as %?].
Qed.

Lemma wp_wrap tag p bs g Φ :
  0 <= tag < 2 ^ 16 → zlen bs < 2 ^ 24 →
  raw p bs -∗ (∀ l, raw p bs -∗ raw (Some l) (tlv_bytes tag bs) -∗ Φ (Some l) g) -∗
  wp true (wrap_object (D := D) tag p) g Φ.
Proof.
  iIntros (Ht Hl) "Hp HΦ". iApply (wp_wrap_object with "Hp"); [done..|].
  iIntros ([l|]) "Hp Hq"; cbn [raw_result]; [by iApply ("HΦ" with "Hp")|by iDestruct "Hq" as %?].
Qed.

Lemma wp_concat p q bs cs g Φ :
  zlen bs + zlen cs < 2 ^ 64 →
  raw p bs -∗ raw q cs -∗
  (∀ l, raw p bs -∗ raw q cs -∗ raw (Some l) (bs ++ cs) -∗ Φ (Some l) g) -∗
  wp true (rawDataObject_concat p q) g Φ.
Proof.
  iIntros (Hl) "Hp Hq HΦ". iApply (concat_spec _ _ (Some bs) _ (Some cs) with "Hp Hq"); [done|].
  iIntros ([l|]) "Hp Hq Hr"; cbn [raw_result]; [by iApply ("HΦ" with "Hp Hq")|by iDestruct "Hr" as %?].
Qed.

Lemma wp_erase_obj nf p bs g Φ : raw p bs -∗ Φ tt g -∗ wp nf (ERASE_RAWDATAOBJECT (D := D) p) g Φ.
Proof. iIntros "Hp". by iApply (wp_erase_raw _ _ (Some bs) with "Hp"). Qed.

Lemma wp_erase_none nf g Φ : Φ tt g -∗ wp nf (ERASE_RAWDATAOBJECT (D := D) None) g Φ.
Proof. by iApply (wp_erase_raw _ _ None with "[]"). Qed.
End requests.

(** ** Exchanges, when no allocation fails *)

Section exchanges.
Context {D : Type} (f : es10_file).
Implicit Types (g : sdk D) (x : bool * Z * list Z * Z).

(** The globals after an exchange through [_dataBuffer]. *)
Definition answered_in x (a : globals D) g : sdk D := set_dataBuffer f x.1.2 (set_apdu a g).

(** The exchange of [request] that [g] has ahead, with the room [max]:
    its answer and the globals of the lower layers behind it. *)
Definition exchanges_in (max : option Z) (request : list Z) g x (a : globals D) : Prop :=
  ask request (dataBuffer f g) (room_of f max g) (apdu g) = Some (x, a) ∧
  Forall is_byte (take (Z.to_nat x.2) x.1.2).

Lemma dataBuffer_answered x a g : dataBuffer f (answered_in x a g) = x.1.2.
Proof. rw /answered_in. by destruct f. Qed.

Definition room_ok (max : option Z) g : Prop := 0 <= room_of f max g <= zlen (dataBuffer f g).

Lemma room_all g : room_ok None g.
Proof. rw /room_ok. cbn. pose proof (zlen_nonneg (dataBuffer f g)). lia. Qed.

Lemma exchanges_in_fits max request g x a :
  room_ok max g → exchanges_in max request g x a → 0 <= x.2 <= room_of f max g ∧ x.2 <= zlen x.1.2.
Proof.
  intros Hm [Ha _]. destruct x as [[[sent sw] buf] n]. cbn [fst snd].
  apply ask_fits in Ha as [-> ?]; [|apply Hm]. rw /room_ok in Hm. lia.
Qed.

Lemma wp_storeData_in max p bs g x a Φ :
  bs ≠ [] → zlen bs < 2 ^ 32 → exchanges_in max bs g x a →
  raw p bs -∗ (raw p bs -∗ Φ (x.1.1.1, x.1.1.2, x.2) (answered_in x a g)) -∗
  wp true (storeData_in f p max) g Φ.
Proof.
  iIntros (Hne Hl [Ha _]) "Hp HΦ". destruct x as [[[sent sw] buf] n]. wp_seq. iApply wp_get_globals.
  wp_seq. iApply (wp_storeData with "Hp"); [done..|]. iIntros "Hp".
  wp_seq. iApply wp_get_globals. wp_seq. iApply wp_set_globals. wp_value. by iApply "HΦ".
Qed.

Lemma wp_data_of nf g Φ : Φ (Some (dataBuffer f g)) g -∗ wp nf (data_of (D := D) f) g Φ.
Proof. iIntros "HΦ". wp_seq. iApply wp_get_globals. by wp_value. Qed.

(** What is done with the answer to an operation. *)
Lemma wp_judged max failed bad_sw judge (response : option (list Z) → Z → M (sdk D) bool) request p g x a Φ :
  room_ok max g → request ≠ [] → zlen request < 2 ^ 32 → exchanges_in max request g x a →
  (∀ src n g Φ, 0 <= n <= zlen src → Forall is_byte (take (Z.to_nat n) src) →
     Φ (bool_decide (judge (take (Z.to_nat n) src) = None)) (reporting_opt (judge (take (Z.to_nat n) src)) g) -∗
     wp true (response (Some src) n) g Φ) →
  raw p request -∗
  (raw p request -∗ Φ (bool_decide (exchange_verdict failed bad_sw judge x = None))
     (reporting_opt (exchange_verdict failed bad_sw judge x) (answered_in x a g))) -∗
  wp true (let* '(sent, sw, size) := storeData_in f p max in
           if sent : bool then
             if sw_success sw then let* data := data_of f in response data size
             else setError bad_sw ;; ret false
           else setError failed ;; ret false) g Φ.
Proof.
  iIntros (Hmax Hne Hl Hx Hresp) "Hp HΦ". wp_seq. iApply (wp_storeData_in with "Hp"); [done..|]. iIntros "Hp".
  iSpecialize ("HΦ" with "Hp"). pose proof (exchanges_in_fits _ _ _ _ _ Hmax Hx) as [Hn Hz]. destruct Hx as [_ Hb].
  destruct x as [[[sent sw] buf] n]. cbn [fst snd exchange_verdict] in *.
  destruct sent; [destruct (sw_success sw)|].
  - wp_seq. iApply wp_data_of. rw dataBuffer_answered. iApply Hresp; [cbn; lia|done|done].
  - wp_seq. iApply wp_setError. by wp_value.
  - wp_seq. iApply wp_setError. by wp_value.
Qed.
End exchanges.

(** ** Samples *)

(** The SDK before a scripted card. *)
Definition sample_sdk (answers : list (list Z)) : sdk (list (list Z) * list (list Z)) :=
  Sdk (sample_globals answers) (fill 0 8192) (fill 0 8192) (fill 0 8192) true.

(** The data of an answer are bytes. *)
Ltac answer_bytes := apply (bool_decide_unpack _); vm_compute; exact I.
