(* ===== verification/Es10b.v ===== *)
(** * Authentication, cancellation and rules ([lpa_manager_es10b.c])

    The requests of the ES10b interface of the eUICC that open and close an
    RSP session: the challenge and the information of the eUICC, the
    authentication of the server, the preparation of the download, the
    cancellation of the session, and the rules access table. The texts formatted
    for the log are not modelled. *)

From stdpp Require Import gmap.
From iris.bi Require Import bi.
From iris.proofmode Require Import proofmode.
From S2P Require Import Prelude CLib Util Base64 StateMonad ApiError ProfileInfo Heap Wp RawData BerTlv TlvWalk.
From S2P Require Import SeMedia Apdu Es10.

Definition GET_EUICC_CHALLENGE_DGI_TAG : Z := 0xBF2E.
Definition PREPARE_DOWNLOAD_DGI_TAG : Z := 0xBF21.
Definition AUTH_SERVER_DGI_TAG : Z := 0xBF38.
Definition CANCEL_SESSION_DGI_TAG : Z := 0xBF41.
Definition GET_EUICC_INFO_DGI_TAG : Z := 0xBF20.
Definition GET_RAT_DGI_TAG : Z := 0xBF43.

Definition LPA_GET_EUICC_BUFFER_MAX_SIZE : Z := 384.
Definition LPA_CANCEL_SESSION_RESPONSE_BUFFER_SIZE : Z := 160.
Definition LPA_AUTHENTICATE_SERVER_MAX_SIZE : Z := 4500.
Definition LPA_TRANSACTION_ID_MAX_SIZE : Z := 40.
Definition LPA_ALLOWED_CANCEL_SESSION_CODE_LIST : list Z := [0; 1; 2; 3; 4; 5; 127].
Definition LPA_ALLOWED_CANCEL_SESSION_CODE_LIST_SIZE : Z := 7.

(** LPA_GET_EUICC, AUTHENTICATE_SERVER_RESPONSE and PREPARE_DOWNLOAD_RESPONSE
    are each a pair of pointers: the bytes of an answer, and their text in base
    64. *)
Record answer_pair := AnswerPair { ap_hex : ptr; ap_base64 : ptr }.

Record CANCEL_SESSION_RESPONSE := CancelSessionResponse {
  resultOK : bool;
  cancelSessionResponse_RawData : list Z;
  cancelSessionResponse_RawDataSize : Z
}.

(** A buffer of the caller and the number of its bytes that are used. *)
Record data_s := DataS { val : option (list Z); len : Z }.

(** LPA_SERVER_DATA. *)
Record server_data := ServerData {
  _transactionId : data_s;
  _serverSigned1 : data_s;
  _serverSignature1 : data_s;
  _euiccCiPKIdToBeUsed : data_s;
  _serverCertificate : data_s;
  _smdpCertificate : data_s;
  _smdpSignature2 : data_s;
  _smdpSigned2 : data_s;
  _profileMetadata : data_s;
  _boundProfilePackage : data_s
}.

Record SMDP_SIGNED2_DATA := SmdpSigned2Data {
  ptrRawDataObjectTLV_transactionId : ptr;
  ptrRawDataObjectTLV_ccRequiredFlag : ptr;
  ptrRawDataObjectTLV_bppEuiccOtpk : ptr
}.

(** ** Code *)

Section code.
Context {D : Type}.
Abbreviation M := (M (sdk D)).

(** [p->rawData] and [p->rawDataSize], with the bytes. *)
Definition raw_bytes (p : ptr) : M (option (list Z) * Z) :=
  let* '(d, n) := load_RawDataObject p in
  if isNull d then ret (None, n) else let* bs := load_bytes d in ret (Some bs, n).

(** [p != NULL && p->rawDataSize > 0] *)
Definition has_data (p : ptr) : M bool :=
  if isNull p then ret false else let* '(_, n) := load_RawDataObject p in ret (n >? 0).

(** The pair of objects behind the two addresses. *)
Definition _storeHexBase64StructureRawDataPair (resp : answer_pair) (ptrHexData : option (list Z))
    (hexDataSize maxDataSize : Z) : M (bool * answer_pair) :=
  match ptrHexData with
  | Some _ =>
      if hexDataSize >? 0 then
        if hexDataSize <=? maxDataSize then
          let BASE_64_CONVERSION_BUFFER_SIZE := hexDataSize + hexDataSize / 2 + 1 in
          let* tmpInfo := lpaCoreMemoryAlloc BASE_64_CONVERSION_BUFFER_SIZE in
          if isNull tmpInfo then fail LPA_ERROR_INSUFFICIENT_BUFFER resp
          else
            store tmpInfo (BBytes (fill 0 BASE_64_CONVERSION_BUFFER_SIZE)) ;;
            ERASE_RAWDATAOBJECT (ap_hex resp) ;;
            ERASE_RAWDATAOBJECT (ap_base64 resp) ;;
            let* hex := rawDataObject_create ptrHexData hexDataSize in
            let* created := has_data hex in
            let* r :=
              (if created : bool then
                 let* '(data, n) := raw_bytes hex in
                 let* out := load_bytes tmpInfo in
                 let* '(encoded, out, outlen) :=
                   of_option (ffw_base64_encode data n (Some out) (Some 0) BASE_64_CONVERSION_BUFFER_SIZE) in
                 let outlen := default 0 outlen in
                 store tmpInfo (BBytes (default [] out)) ;;
                 if encoded : bool then
                   memcpy_to tmpInfo outlen [0] ;;
                   let* out := load_bytes tmpInfo in
                   let* base64 := rawDataObject_create (Some out) (outlen + 1) in
                   let* created := has_data base64 in
                   if created : bool then ret (true, AnswerPair hex base64)
                   else
                     ERASE_RAWDATAOBJECT hex ;;
                     ERASE_RAWDATAOBJECT base64 ;;
                     fail LPA_ERROR_INSUFFICIENT_BUFFER (AnswerPair None None)
                 else
                   ERASE_RAWDATAOBJECT hex ;;
                   fail LPA_ERROR_INSUFFICIENT_BUFFER (AnswerPair None None)
               else
                 ERASE_RAWDATAOBJECT hex ;;
                 fail LPA_ERROR_INSUFFICIENT_BUFFER (AnswerPair None None)) in
            lpaCoreMemoryFree tmpInfo ;;
            ret r
        else fail LPA_ERROR_INSUFFICIENT_BUFFER resp
      else fail LPA_ERROR_INVALID_PARAMETER resp
  | None => fail LPA_ERROR_INVALID_PARAMETER resp
  end.

(** *** Rules access table *)

(** The object behind the address, which is read before it is tested. *)
Definition lpaManagerES10b_GetRAT (ptrGetRAT : option ptr) : M (bool * ptr) :=
  let* old := of_option ptrGetRAT in
  ERASE_RAWDATAOBJECT old ;;
  let* request := berTLV_createAndBuildRawDataObject GET_RAT_DGI_TAG 0 None in
  if isNull request then fail LPA_ERROR_INSUFFICIENT_BUFFER None
  else
    let* r :=
      (let* '(sent, sw, dataBufferSize) := storeData_in ES10b request None in
       if sent : bool then
         if sw_success sw then
           if (dataBufferSize >? 4) && (dataBufferSize <=? LPA_RAT_MAXIMUM_SIZE) then
             let* data := data_of ES10b in
             let* p := rawDataObject_create data dataBufferSize in
             if isNull p then fail LPA_ERROR_INSUFFICIENT_BUFFER None else ret (true, p)
           else fail LPA_ERROR_INVALID_GET_RAT None
         else fail LPA_ERROR_INVALID_SW None
       else fail LPA_ERROR_INVALID_GET_RAT None) in
    ERASE_RAWDATAOBJECT request ;;
    ret r.

(** *** Challenge and information of the eUICC *)

Definition _checkAndExtractEuiccChallenge (ptrRawData : option (list Z)) (rawDataSize : Z) (resp : answer_pair)
    : M (bool * answer_pair) :=
  match ptrRawData with
  | Some _ =>
      if rawDataSize >? 0 then
        let* '(berTLV_BF2E, _) := berTLV_extractTagUInt16 0xBF2E ptrRawData rawDataSize in
        if isNull berTLV_BF2E then ret (false, resp)
        else
          let* berTLV_80 := extractTag_of 0x80 berTLV_BF2E in
          let* r :=
            (if isNull berTLV_80 then ret (false, resp)
             else
               let* '(_, length, value) := tlv_data berTLV_80 in
               let* r := _storeHexBase64StructureRawDataPair resp value length LPA_GET_EUICC_BUFFER_MAX_SIZE in
               berTLV_freeBerTLV berTLV_80 ;;
               ret r) in
          berTLV_freeBerTLV berTLV_BF2E ;;
          ret r
      else ret (false, resp)
  | None => ret (false, resp)
  end.

Definition lpaManagerES10b_GetEuiccChallenge (ptrGetEUICC : option answer_pair) : M (bool * option answer_pair) :=
  match ptrGetEUICC with
  | Some resp =>
      let* request := berTLV_createAndBuildRawDataObject GET_EUICC_CHALLENGE_DGI_TAG 0 None in
      if isNull request then fail LPA_ERROR_INSUFFICIENT_BUFFER ptrGetEUICC
      else
        let* '(res, resp) :=
          (let* '(sent, sw, dataBufferSize) := storeData_in ES10b request None in
           if sent : bool then
             if sw_success sw then
               if dataBufferSize >? 0 then
                 if dataBufferSize <=? LPA_GET_EUICC_BUFFER_MAX_SIZE then
                   let* data := data_of ES10b in
                   let* '(ok, resp) := _checkAndExtractEuiccChallenge data dataBufferSize resp in
                   if ok : bool then ret (true, resp) else fail LPA_ERROR_INVALID_GET_UICC_CHALLENGE resp
                 else fail LPA_ERROR_INSUFFICIENT_BUFFER resp
               else fail LPA_ERROR_INVALID_GET_UICC_CHALLENGE resp
             else fail LPA_ERROR_INVALID_SW resp
           else fail LPA_ERROR_INVALID_GET_UICC_CHALLENGE resp) in
        ERASE_RAWDATAOBJECT request ;;
        ret (res, Some resp)
  | None => fail LPA_ERROR_INVALID_PARAMETER None
  end.

Definition lpaManagerES10b_GetEuiccInfo (ptrGetEUICC : option answer_pair) : M (bool * option answer_pair) :=
  match ptrGetEUICC with
  | Some resp =>
      let* request := berTLV_createAndBuildRawDataObject GET_EUICC_INFO_DGI_TAG 0 None in
      if isNull request then fail LPA_ERROR_INSUFFICIENT_BUFFER ptrGetEUICC
      else
        let* '(res, resp) :=
          (let* '(sent, sw, dataBufferSize) := storeData_in ES10b request None in
           if sent : bool then
             if sw_success sw then
               if dataBufferSize >? 0 then
                 let* data := data_of ES10b in
                 _storeHexBase64StructureRawDataPair resp data dataBufferSize LPA_GET_EUICC_BUFFER_MAX_SIZE
               else fail LPA_ERROR_INVALID_GET_EUICC_INFO resp
             else fail LPA_ERROR_INVALID_SW resp
           else fail LPA_ERROR_INVALID_GET_EUICC_INFO resp) in
        ERASE_RAWDATAOBJECT request ;;
        ret (res, Some resp)
  | None => fail LPA_ERROR_INVALID_PARAMETER None
  end.

(** *** Authentication of the server *)

(** _isValidAuthenticateServerResponse and _isValidPrepareDownloadResponse,
    which differ in the tag. *)
Definition is_valid_response (tag : Z) (ptrRawData : option (list Z)) (rawDataSize maxRawDataSize : Z) : M bool :=
  match ptrRawData with
  | Some _ =>
      if (rawDataSize >? 0) && (rawDataSize <=? maxRawDataSize) then
        let* '(t, _) := berTLV_extractTagUInt16 tag ptrRawData rawDataSize in
        if isNull t then ret false
        else
          let* '(l, countTLVFound) := extractList_of t in
          let* isValid :=
            (if isNull l then ret false
             else
               let* isValid :=
                 (if countTLVFound =? 1 then
                    let* '(_, first, _) := load_BerTLVList l in
                    let* '(tag, _, _) := load_BeerTLV first in
                    ret (tag =? 0xA0)
                  else ret false) in
               berTLV_freeBerTLVList l ;;
               ret isValid) in
          berTLV_freeBerTLV t ;;
          ret isValid
      else ret false
  | None => ret false
  end.
Definition _isValidAuthenticateServerResponse := is_valid_response 0xBF38.
Definition _isValidPrepareDownloadResponse := is_valid_response 0xBF21.

(** [d.val != NULL && d.len > 0] *)
Definition is_set (d : data_s) : bool := bool_decide (is_Some (val d)) && (len d >? 0).

(** [if (!error && !rawDataObject_appendRawDataArray(p, val, len)) error = true;] *)
Definition append_part (p : ptr) (error : bool) (val : option (list Z)) (len : Z) : M bool :=
  if error then ret true else let* ok := rawDataObject_appendRawDataArray p val len in ret (negb ok).

(** The object behind the address, [NULL] before. *)
Definition _prepareAuthenticateServerTlv (p_serverData : server_data) (ptrCtxParam : ptr) : M (bool * ptr) :=
  let* '(ctx, ctxSize) := raw_bytes ptrCtxParam in
  if is_set (_serverSigned1 p_serverData) && is_set (_serverSignature1 p_serverData) &&
     is_set (_euiccCiPKIdToBeUsed p_serverData) && is_set (_serverCertificate p_serverData) &&
     is_set (DataS ctx ctxSize) then
    let* p := rawDataObject_allocate in
    if isNull p then fail LPA_ERROR_INSUFFICIENT_BUFFER None
    else
      let* error := append_part p false (val (_serverSigned1 p_serverData)) (len (_serverSigned1 p_serverData)) in
      let* error := append_part p error (val (_serverSignature1 p_serverData)) (len (_serverSignature1 p_serverData)) in
      let* error := append_part p error (val (_euiccCiPKIdToBeUsed p_serverData)) (len (_euiccCiPKIdToBeUsed p_serverData)) in
      let* error := append_part p error (val (_serverCertificate p_serverData)) (len (_serverCertificate p_serverData)) in
      let* error := append_part p error ctx ctxSize in
      let* r :=
        (if error : bool then ret (false, None)
         else
           let* request := wrap_object AUTH_SERVER_DGI_TAG p in
           if isNull request then fail LPA_ERROR_INSUFFICIENT_BUFFER None
           else
             let* '(data, n) := raw_bytes request in
             let* r :=
               (if n <=? LPA_AUTHENTICATE_SERVER_MAX_SIZE then
                  let* copy := rawDataObject_create data n in
                  ret (negb (isNull copy), copy)
                else fail LPA_ERROR_INSUFFICIENT_BUFFER None) in
             rawDataObject_free request ;;
             ret r) in
      rawDataObject_free p ;;
      ret r
  else ret (false, None).

Definition lpaManagerES10b_AuthenticateServer (p_serverData : option server_data) (ptrCtxParam : ptr)
    (ptrAuthServerResp : option answer_pair) : M (bool * option answer_pair) :=
  match p_serverData, ptrAuthServerResp with
  | Some p_serverData, Some resp =>
      if isNull ptrCtxParam then fail LPA_ERROR_INVALID_PARAMETER ptrAuthServerResp
      else
        let* '(prepared, authServerTlv) := _prepareAuthenticateServerTlv p_serverData ptrCtxParam in
        let* '(res, resp) :=
          (if prepared && negb (isNull authServerTlv) then
             let* '(sent, sw, dataBufferSize) := storeData_in ES10b authServerTlv None in
             if sent : bool then
               if sw_success sw then
                 let* data := data_of ES10b in
                 let* valid :=
                   _isValidAuthenticateServerResponse data dataBufferSize LPA_AUTHENTICATE_SERVER_MAX_SIZE in
                 if valid : bool then
                   let* data := data_of ES10b in
                   _storeHexBase64StructureRawDataPair resp data dataBufferSize LPA_AUTHENTICATE_SERVER_MAX_SIZE
                 else ret (false, resp)
               else fail LPA_ERROR_INVALID_SW resp
             else fail LPA_ERROR_INVALID_AUTHENTICATE_SERVER_RESPONSE resp
           else ret (false, resp)) in
        ERASE_RAWDATAOBJECT authServerTlv ;;
        ret (res, Some resp)
  | _, _ => fail LPA_ERROR_INVALID_PARAMETER ptrAuthServerResp
  end.

(** *** Preparation of the download *)

(** One of the three blocks of _extractDataFromSmdpSigned2: the object of the
    element [item], if any, provided that the element [tested] has one; the
    error and the next element. *)
Definition smdp_item (tested item : ptr) (error : bool) : M (ptr * bool * ptr) :=
  if isNull item then ret (None, error, item)
  else
    let* '(_, t, _) := load_BerTLVList tested in
    let* t := (if isNull t then ret None else let* '(_, t, _) := load_BerTLVList item in ret t) in
    let* '(p, error) :=
      (if isNull t then ret (None, true) else let* p := berTLV_buildRawDataObject t in ret (p, error)) in
    let* '(_, _, next) := load_BerTLVList item in
    ret (p, error, next).

Definition no_smdp_data : SMDP_SIGNED2_DATA := SmdpSigned2Data None None None.

(** The structure behind the address, empty before. *)
Definition _extractDataFromSmdpSigned2 (ptrSmdpSigned2 : option (list Z)) (smdpSigned2Len : Z)
    : M (bool * SMDP_SIGNED2_DATA) :=
  match ptrSmdpSigned2 with
  | Some _ =>
      if smdpSigned2Len >? 0 then
        let* '(ptrBerTLV30, _) := berTLV_extractTagUInt16 0x30 ptrSmdpSigned2 smdpSigned2Len in
        let* '(r, ptrTlvList) :=
          (if isNull ptrBerTLV30 then ret ((false, no_smdp_data), None)
           else
             let* '(l, countTlvFound) := extractList_of ptrBerTLV30 in
             if negb (isNull l) && (countTlvFound >=? 2) then
               let* '(transactionId, error, item) := smdp_item l l false in
               let* '(ccRequiredFlag, error, item) := smdp_item l item error in
               let* '(bppEuiccOtpk, error, item) := smdp_item l item error in
               ret ((negb error, SmdpSigned2Data transactionId ccRequiredFlag bppEuiccOtpk), l)
             else ret ((false, no_smdp_data), l)) in
        ERASE_BERTLV_LIST ptrTlvList ;;
        ERASE_BERTLV ptrBerTLV30 ;;
        ret r
      else fail LPA_ERROR_INVALID_PARAMETER no_smdp_data
  | None => fail LPA_ERROR_INVALID_PARAMETER no_smdp_data
  end.

(** The object behind the address, [NULL] before. *)
Definition _prepareDownloadTlv (p_serverData : server_data) (ptrStringHashCC : list Z) : M (bool * ptr) :=
  if (len (_smdpSigned2 p_serverData) >? 0) && (len (_smdpSignature2 p_serverData) >? 0) &&
     (len (_smdpCertificate p_serverData) >? 0) then
    let* p := rawDataObject_allocate in
    let* r :=
      (if isNull p then fail LPA_ERROR_INSUFFICIENT_BUFFER None
       else
         let* error := append_part p false (val (_smdpSigned2 p_serverData)) (len (_smdpSigned2 p_serverData)) in
         let* error := append_part p error (val (_smdpSignature2 p_serverData)) (len (_smdpSignature2 p_serverData)) in
         let* error :=
           (if error : bool then ret true
            else
              let* n := of_option (strlen ptrStringHashCC) in
              if n =? 64 then
                let* '(ok, out, _) :=
                  of_option (hexStr2ByteArray (Some ptrStringHashCC) 64 (Some (fill 0 32)) (Some 32)) in
                if ok : bool then append_part p false (Some ([0x04; 0x20] ++ default [] out)) 34
                else ret true
              else ret false) in
         let* error := append_part p error (val (_smdpCertificate p_serverData)) (len (_smdpCertificate p_serverData)) in
         if error : bool then ret (false, None)
         else
           let* '(_, n) := load_RawDataObject p in
           if n <? LPA_AUTHENTICATE_SERVER_MAX_SIZE then
             let* request := wrap_object PREPARE_DOWNLOAD_DGI_TAG p in
             let* built := has_data request in
             if built : bool then ret (true, request) else fail LPA_ERROR_INSUFFICIENT_BUFFER request
           else fail LPA_ERROR_INSUFFICIENT_BUFFER None) in
    ERASE_RAWDATAOBJECT p ;;
    ret r
  else ret (false, None).

Definition lpaManagerES10b_PrepareDownload (p_serverData : option server_data) (ptrStringHashCC : option (list Z))
    (ptrPrepareDownloadResp : option answer_pair) : M (bool * option answer_pair) :=
  match p_serverData, ptrStringHashCC, ptrPrepareDownloadResp with
  | Some p_serverData, Some ptrStringHashCC, Some resp =>
      let* '(res, resp, smdpSigned2Detail, prepareDownloadTlv) :=
        (match val (_smdpSigned2 p_serverData) with
         | None => ret (false, resp, no_smdp_data, None)
         | Some _ =>
             let* '(extracted, detail) :=
               _extractDataFromSmdpSigned2 (val (_smdpSigned2 p_serverData)) (len (_smdpSigned2 p_serverData)) in
             let* '(prepared, tlv) :=
               (if extracted : bool then _prepareDownloadTlv p_serverData ptrStringHashCC else ret (false, None)) in
             let* '(res, resp) :=
               (if prepared : bool then
                  let* '(data, n) := raw_bytes tlv in
                  if is_set (DataS data n) then
                    let* '(sent, sw, dataBufferSize) := storeData_in ES10b tlv (Some LPA_AUTHENTICATE_SERVER_MAX_SIZE) in
                    if sent : bool then
                      if sw_success sw then
                        let* data := data_of ES10b in
                        let* valid :=
                          _isValidPrepareDownloadResponse data dataBufferSize LPA_AUTHENTICATE_SERVER_MAX_SIZE in
                        if valid : bool then
                          let* data := data_of ES10b in
                          _storeHexBase64StructureRawDataPair resp data dataBufferSize LPA_AUTHENTICATE_SERVER_MAX_SIZE
                        else ret (false, resp)
                      else fail LPA_ERROR_INVALID_SW resp
                    else fail LPA_ERROR_INVALID_PREPARE_DOWNLOAD_RESPONSE resp
                  else ret (false, resp)
                else ret (false, resp)) in
             ret (res, resp, detail, tlv)
         end) in
      ERASE_RAWDATAOBJECT (ptrRawDataObjectTLV_transactionId smdpSigned2Detail) ;;
      ERASE_RAWDATAOBJECT (ptrRawDataObjectTLV_ccRequiredFlag smdpSigned2Detail) ;;
      ERASE_RAWDATAOBJECT (ptrRawDataObjectTLV_bppEuiccOtpk smdpSigned2Detail) ;;
      ERASE_RAWDATAOBJECT prepareDownloadTlv ;;
      ret (res, Some resp)
  | _, _, _ => fail LPA_ERROR_INVALID_PARAMETER ptrPrepareDownloadResp
  end.

(** *** Cancellation of the session *)

(** The object behind the address, [NULL] before. The text is read up to its
    32nd character, whatever its length. *)
Definition _prepareCancelSessionTlv (transactionID : option (list Z)) (p_reasonCode : Z) : M (bool * ptr) :=
  match transactionID with
  | Some text =>
      let* n := of_option (strlen text) in
      if (n >? 0) && (n <? LPA_TRANSACTION_ID_MAX_SIZE) && (p_reasonCode >=? 0) && (p_reasonCode <? 256) then
        let* '(ok, tabTransactionID, convLen) :=
          of_option (hexStr2ByteArray transactionID 32 (Some (fill 0 16)) (Some 16)) in
        if ok && (default 0 convLen =? 16) then
          let* ptrRawDataTransactionID := berTLV_createAndBuildRawDataObject 0x80 16 tabTransactionID in
          let* ptrRawDataReasonCode := berTLV_createAndBuildRawDataObject 0x81 1 (Some [u8 p_reasonCode]) in
          let* r :=
            (if negb (isNull ptrRawDataTransactionID) && negb (isNull ptrRawDataReasonCode) then
               let* both := rawDataObject_concat ptrRawDataTransactionID ptrRawDataReasonCode in
               let* r := (if isNull both then ret (false, None)
                          else let* request := wrap_object CANCEL_SESSION_DGI_TAG both in
                               ret (negb (isNull request), request)) in
               rawDataObject_free both ;;
               ret r
             else ret (false, None)) in
          rawDataObject_free ptrRawDataTransactionID ;;
          rawDataObject_free ptrRawDataReasonCode ;;
          ret r
        else ret (false, None)
      else ret (false, None)
  | None => ret (false, None)
  end.

Definition _isValidCancelSessionResponse (ptrRawResponse : option (list Z)) (rawResponseSize : Z) : M bool :=
  match ptrRawResponse with
  | Some _ =>
      if rawResponseSize >? 0 then
        let* '(berTLV_BF41, _) := berTLV_extractTagUInt16 CANCEL_SESSION_DGI_TAG ptrRawResponse rawResponseSize in
        if isNull berTLV_BF41 then ret false
        else
          let* berTLV_A0 := extractTag_of 0xA0 berTLV_BF41 in
          let* isValid := (if isNull berTLV_A0 then ret false else berTLV_freeBerTLV berTLV_A0 ;; ret true) in
          berTLV_freeBerTLV berTLV_BF41 ;;
          ret isValid
      else ret false
  | None => ret false
  end.

Definition lpaManagerES10b_CancelSession (transactionID : option (list Z)) (p_reasonCode : Z)
    (ptrCancelSessionResp : option CANCEL_SESSION_RESPONSE) : M (bool * option CANCEL_SESSION_RESPONSE) :=
  let* allowed :=
    (match transactionID, ptrCancelSessionResp with
     | Some _, Some _ => of_option (isElementPresentInArrayUInt (Some LPA_ALLOWED_CANCEL_SESSION_CODE_LIST)
                                      LPA_ALLOWED_CANCEL_SESSION_CODE_LIST_SIZE p_reasonCode)
     | _, _ => ret false
     end) in
  match ptrCancelSessionResp with
  | Some resp =>
      if allowed : bool then
        let* '(prepared, request) := _prepareCancelSessionTlv transactionID p_reasonCode in
        let* r :=
          (if prepared && negb (isNull request) then
             let* '(sent, sw, dataBufferSize) := storeData_in ES10b request None in
             if sent && sw_success sw && (dataBufferSize >? 0) &&
                (dataBufferSize <=? LPA_CANCEL_SESSION_RESPONSE_BUFFER_SIZE) then
               let* data := data_of ES10b in
               let* copy := of_option (copy_value (cancelSessionResponse_RawData resp) data dataBufferSize) in
               let* valid := _isValidCancelSessionResponse data dataBufferSize in
               ret (valid, CancelSessionResponse valid copy dataBufferSize)
             else ret (false, resp)
           else ret (false, resp)) in
        let '(res, resp) := r in
        rawDataObject_free request ;;
        ret (res, Some resp)
      else ret (false, ptrCancelSessionResp)
  | None => ret (false, None)
  end.
End code.

(** ** Reference *)

(** The size of the text in base 64 of [n] bytes, and of the buffer for it. *)
Definition text_size (n : Z) : Z := 4 * ((n + 2) / 3).
Definition text_room (n : Z) : Z := n + n / 2 + 1.

(** What storing [data] reports, and the objects behind it. *)
Definition store_verdict (max : Z) (data : list Z) : option LPA_API_ERROR :=
  if zlen data =? 0 then Some LPA_ERROR_INVALID_PARAMETER
  else if max <? zlen data then Some LPA_ERROR_INSUFFICIENT_BUFFER
  else if text_size (zlen data) <? text_room (zlen data) then None
  else Some LPA_ERROR_INSUFFICIENT_BUFFER.

Definition pair_value : Type := option (list Z) * option (list Z).
Definition stored (max : Z) (data : list Z) (old : pair_value) : pair_value :=
  if (zlen data =? 0) || (max <? zlen data) then old
  else if text_size (zlen data) <? text_room (zlen data) then (Some data, Some (b64_ref data ++ [0]))
  else (None, None).

(** Sizes for which the NUL behind the text is in the buffer. *)
Definition safe_size (n : Z) : Prop := text_size n ≠ text_room n.

Lemma unsafe_sizes n : 0 <= n → text_size n = text_room n ↔ n = 2 ∨ n = 5 ∨ n = 10 ∨ n = 13.
Proof. rw /text_size /text_room. intros. dlia. Qed.

Lemma text_fits n : 14 <= n → text_size n < text_room n.
Proof. rw /text_size /text_room. intros. dlia. Qed.

Definition owned_pair (r : answer_pair) (o : pair_value) : heapProp :=
  (raw_arg (ap_hex r) o.1 ∗ raw_arg (ap_base64 r) o.2)%I.

(** The rules access table: the error reported and the object. *)
Definition rat_request : list Z := tlv_bytes GET_RAT_DGI_TAG [].
Definition rat_outcome (x : bool * Z * list Z * Z) : option LPA_API_ERROR * option (list Z) :=
  let '(sent, sw, buf, size) := x in
  if sent then
    if sw_success sw then
      if (4 <? size) && (size <=? LPA_RAT_MAXIMUM_SIZE) then (None, Some (take (Z.to_nat size) buf))
      else (Some LPA_ERROR_INVALID_GET_RAT, None)
    else (Some LPA_ERROR_INVALID_SW, None)
  else (Some LPA_ERROR_INVALID_GET_RAT, None).

(** The challenge of the eUICC: the value of the object 80 of the object BF2E. *)
Definition challenge_request : list Z := tlv_bytes GET_EUICC_CHALLENGE_DGI_TAG [].
Definition challenge_of (data : list Z) : option (list Z) :=
  (first_tag 0xBF2E data).2 ≫= λ v, (first_tag 0x80 v).2.
Definition challenge_outcome (old : pair_value) (x : bool * Z * list Z * Z) : option LPA_API_ERROR * pair_value :=
  let '(sent, sw, buf, size) := x in
  if sent then
    if sw_success sw then
      if 0 <? size then
        if size <=? LPA_GET_EUICC_BUFFER_MAX_SIZE then
          match challenge_of (take (Z.to_nat size) buf) with
          | Some v => (store_verdict LPA_GET_EUICC_BUFFER_MAX_SIZE v, stored LPA_GET_EUICC_BUFFER_MAX_SIZE v old)
          | None => (Some LPA_ERROR_INVALID_GET_UICC_CHALLENGE, old)
          end
        else (Some LPA_ERROR_INSUFFICIENT_BUFFER, old)
      else (Some LPA_ERROR_INVALID_GET_UICC_CHALLENGE, old)
    else (Some LPA_ERROR_INVALID_SW, old)
  else (Some LPA_ERROR_INVALID_GET_UICC_CHALLENGE, old).

(** The information of the eUICC: the whole answer. *)
Definition info_request : list Z := tlv_bytes GET_EUICC_INFO_DGI_TAG [].
Definition info_outcome (old : pair_value) (x : bool * Z * list Z * Z) : option LPA_API_ERROR * pair_value :=
  let '(sent, sw, buf, size) := x in
  let data := take (Z.to_nat size) buf in
  if sent then
    if sw_success sw then
      if 0 <? size then (store_verdict LPA_GET_EUICC_BUFFER_MAX_SIZE data, stored LPA_GET_EUICC_BUFFER_MAX_SIZE data old)
      else (Some LPA_ERROR_INVALID_GET_EUICC_INFO, old)
    else (Some LPA_ERROR_INVALID_SW, old)
  else (Some LPA_ERROR_INVALID_GET_EUICC_INFO, old).

(** A positive answer: its object holds one object, of tag A0. The number of
    objects is counted in a byte. *)
Definition positive (tag : Z) (data : list Z) : bool :=
  match (first_tag tag data).2 ≫= objects with
  | Some ((t, v) :: tvs) => (zlen ((t, v) :: tvs) mod 256 =? 1) && (t =? 0xA0)
  | _ => false
  end.

(** No object inside of the object [tag] is longer than it. *)
Definition well_nested (tag : Z) (data : list Z) : Prop :=
  match (first_tag tag data).2 with Some v => is_Some (objects v) | None => True end.

(** What is done with a positive answer of at most
    LPA_AUTHENTICATE_SERVER_MAX_SIZE bytes: the result, the error and the
    objects. A negative one is no error. *)
Definition signed_outcome (failed : LPA_API_ERROR) (tag : Z) (old : pair_value) (x : bool * Z * list Z * Z)
    : bool * option LPA_API_ERROR * pair_value :=
  let '(sent, sw, buf, size) := x in
  let data := take (Z.to_nat size) buf in
  if sent then
    if sw_success sw then
      if (0 <? size) && (size <=? LPA_AUTHENTICATE_SERVER_MAX_SIZE) && positive tag data then
        let e := store_verdict LPA_AUTHENTICATE_SERVER_MAX_SIZE data in
        (bool_decide (e = None), e, stored LPA_AUTHENTICATE_SERVER_MAX_SIZE data old)
      else (false, None, old)
    else (false, Some LPA_ERROR_INVALID_SW, old)
  else (false, Some failed, old).

(** The bytes of a part of the server's data. *)
Definition part_bytes (d : data_s) (bs : list Z) : Prop :=
  ∃ src, val d = Some src ∧ bs ≠ [] ∧ rd_range src 0 (len d) = Some bs.

(** smdpSigned2 is usable when its object 30 holds two objects. *)
Definition smdp_usable (data : list Z) : bool :=
  match (first_tag 0x30 data).2 ≫= objects with Some tvs => 2 <=? zlen tvs mod 256 | None => false end.

(** The object of the hash of the confirmation code, left out when the text has
    not 64 characters. *)
Definition hash_part (text h : list Z) : Prop :=
  (∃ d t, text = hex_of d ++ t ∧ Forall is_byte d ∧ zlen d = 32 ∧ strlen text = Some 64 ∧ h = tlv_bytes 0x04 d) ∨
  (∃ n, strlen text = Some n ∧ n ≠ 64 ∧ h = []).

(** The cancellation of a session. *)
Definition cancel_request (tid : list Z) (reason : Z) : list Z :=
  tlv_bytes CANCEL_SESSION_DGI_TAG (tlv_bytes 0x80 tid ++ tlv_bytes 0x81 [reason]).
Definition cancel_accepted (data : list Z) : bool :=
  bool_decide (is_Some ((first_tag CANCEL_SESSION_DGI_TAG data).2 ≫= λ v, (first_tag 0xA0 v).2)).
Definition cancel_outcome (resp : CANCEL_SESSION_RESPONSE) (x : bool * Z * list Z * Z) : bool * CANCEL_SESSION_RESPONSE :=
  let '(sent, sw, buf, size) := x in
  let data := take (Z.to_nat size) buf in
  if sent && sw_success sw && (0 <? size) && (size <=? LPA_CANCEL_SESSION_RESPONSE_BUFFER_SIZE) then
    (cancel_accepted data,
     CancelSessionResponse (cancel_accepted data) (put (cancelSessionResponse_RawData resp) data) size)
  else (false, resp).

(** ** Proofs *)

Section proofs.
Context {D : Type}.
Implicit Types (g : sdk D).

Lemma wp_raw_bytes nf p bs g Φ :
  raw p bs -∗ (raw p bs -∗ Φ (value bs, zlen bs) g) -∗ wp nf (raw_bytes (D := D) p) g Φ.
Proof.
  iIntros "Hp HΦ". iDestruct "Hp" as (l d) "(-> & Hl & Hd)". wp_seq. iApply (wp_load_raw with "Hl"). iIntros "Hl".
  destruct d as [d|]; cbn [isNull buf].
  - iDestruct "Hd" as "[%Hne Hd]". wp_seq. iApply (wp_load_bytes with "Hd"). iIntros "Hd". wp_value.
    destruct bs as [|b bs]; [done|]. iApply "HΦ". iExists l, (Some d). by iFrame.
  - iDestruct "Hd" as %->. wp_value. iApply "HΦ". iExists l, None. by iFrame.
Qed.

Lemma wp_has_data nf l bs g Φ :
  0 < zlen bs → raw (Some l) bs -∗ (raw (Some l) bs -∗ Φ true g) -∗ wp nf (has_data (D := D) (Some l)) g Φ.
Proof.
  iIntros (Hn) "Hp HΦ". iDestruct "Hp" as (l' d) "(%E & Hl & Hd)". injection E as <-. cbn [has_data isNull].
  wp_seq. iApply (wp_load_raw with "Hl"). iIntros "Hl". wp_value. rw (_ : (zlen bs >? 0) = true); [|lia].
  iApply "HΦ". iExists l, d. by iFrame.
Qed.

Lemma value_some bs : 0 < zlen bs → value bs = Some bs.
Proof. destruct bs as [|b bs]; [change (zlen []) with 0; lia|done]. Qed.

Lemma rd_range_prefix_all (bs t : list Z) n : n = zlen bs → rd_range (bs ++ t) 0 n = Some bs.
Proof.
  intros ->. pose proof (zlen_nonneg bs). pose proof (zlen_nonneg t).
  rw rd_range_Some; [|lia|lia|rw zlen_app; lia]. by rw drop_0 zlen_to_nat take_app_length.
Qed.

Lemma wp_create src n bs g Φ :
  0 <= n <= 2 ^ 32 → rd_range src 0 n = Some bs →
  (∀ l, raw (Some l) bs -∗ Φ (Some l) g) -∗ wp true (rawDataObject_create (G := sdk D) (Some src) n) g Φ.
Proof.
  iIntros (Hn Hr) "HΦ". iApply (create_spec _ (Some src) n bs); [|done|].
  { change (2 ^ 63) with 9223372036854775808. pows. lia. }
  iIntros ([l|]) "Hq"; cbn [raw_result]; [by iApply "HΦ"|by iDestruct "Hq" as %?].
Qed.
(** The conversion of [bs], when its NUL fits: the buffer behind it. *)
Lemma wp_store_pair max src n bs resp o g Φ :
  0 <= n <= zlen src → bs = take (Z.to_nat n) src → Forall is_byte bs → max < 2 ^ 24 →
  (n <= max → safe_size n) →
  owned_pair resp o -∗
  (∀ resp', owned_pair resp' (stored max bs o) -∗
     Φ (bool_decide (store_verdict max bs = None), resp') (reporting_opt (store_verdict max bs) g)) -∗
  wp true (_storeHexBase64StructureRawDataPair (D := D) resp (Some src) n max) g Φ.
Proof.
  iIntros (Hn Hbs Hb Hmax Hsafe) "Ho HΦ". rw /_storeHexBase64StructureRawDataPair.
  assert (zlen bs = n) as Hz by (rw Hbs zlen_take; lia). pows.
  destruct (Z.gtb_spec n 0).
  2: { iApply wp_fail. rw /store_verdict /stored Hz (_ : (n =? 0) = true); [|lia]. by iApply ("HΦ" with "Ho"). }
  destruct (Z.leb_spec n max) as [Hle|].
  2: { iApply wp_fail. rw /store_verdict /stored Hz (_ : (n =? 0) = false); [|lia].
       rw (_ : (max <? n) = true); [|lia]. by iApply ("HΦ" with "Ho"). }
  specialize (Hsafe Hle). set (room := text_room n). assert (n + 1 <= room <= 2 * n + 1) as Hroom.
  { rw /room /text_room. dlia. }
  wp_seq. rw -/(text_room n) -/room. iApply wp_malloc; [pows; lia|]. iIntros ([tmp|]) "Ht"; [|by iDestruct "Ht" as %?].
  cbn [isNull alloc_post]. wp_seq. iApply (wp_store_block with "Ht").
  { cbn [sizeof]. rw zlen_new_bytes; [|lia]. by rw zlen_fill; [|lia]. }
  iIntros "Ht". iDestruct "Ho" as "[H1 H2]". wp_seq. iApply (wp_erase_raw with "H1").
  wp_seq. iApply (wp_erase_raw with "H2"). wp_seq.
  iApply (wp_create src n bs); [pows; lia|rw rd_range_Some; [by rw drop_0 Hbs|lia..]|]. iIntros (l) "Hl".
  wp_seq. iApply (wp_has_data with "Hl"); [lia|]. iIntros "Hl". cbn [isNull].
  wp_seq. wp_seq. iApply (wp_raw_bytes with "Hl"). iIntros "Hl".
  rw (value_some bs); [|lia]. wp_seq. iApply (wp_load_bytes with "Ht"). iIntros "Ht".
  assert (zlen (fill 0 room) = room) as Hfill by (rw zlen_fill; lia).
  rw /store_verdict /stored Hz (_ : (n =? 0) = false); [|lia]. rw (_ : (max <? n) = false); [|lia]. cbn [orb].
  rw -/room. destruct (Z.ltb_spec (text_size n) room) as [Hs|Hs].
  - assert (ffw_base64_encode (Some bs) n (Some (fill 0 room)) (Some 0) room =
      Some (true, Some (b64_ref bs ++ [0] ++ drop (S (length (b64_ref bs))) (fill 0 room)), Some (zlen (b64_ref bs)))) as E.
    { rw -{2}Hfill -Hz. apply ffw_encode_ok; [done|change (2 ^ 30) with 1073741824; lia|]. rw Hz Hfill. apply Hs. }
    wp_seq. rw E. iApply wp_of_option. cbn [default from_option id].
    wp_seq. iApply (wp_store_block with "Ht").
    { cbn [sizeof]. rw zlen_app !zlen_app zlen_drop Hfill. change (zlen [0]) with 1.
      pose proof (zlen_b64_ref bs) as Hr. rw Hz in Hr. rw /text_size in Hs. rw /zlen in Hr |- *. lia. }
    iIntros "Ht". wp_seq. iApply (wp_memcpy_to with "Ht"); [by apply wr_range_mid|]. iIntros "Ht".
    wp_seq. iApply (wp_load_bytes with "Ht"). iIntros "Ht". wp_seq.
    pose proof (zlen_b64_ref bs) as Hr. rw Hz in Hr. pose proof (zlen_nonneg (b64_ref bs)).
    iApply (wp_create _ _ (b64_ref bs ++ [0])).
    { rw /text_size in Hs. pows. lia. }
    { rw app_assoc. apply rd_range_prefix_all. by rw zlen_app. }
    iIntros (q) "Hq". wp_seq. iApply (wp_has_data with "Hq"); [rw zlen_app; change (zlen [0]) with 1; lia|].
    iIntros "Hq". wp_value. wp_seq. iApply (wp_free_block with "Ht"). wp_value.
    iApply ("HΦ" $! (AnswerPair (Some l) (Some q)) with "[Hl Hq]"). rw /owned_pair. cbn. iFrame.
  - assert (room < text_size n) as Hs' by (rw /safe_size -/room in Hsafe; lia).
    assert (ffw_base64_encode (Some bs) n (Some (fill 0 room)) (Some 0) room = Some (false, Some (fill 0 room), Some 0)) as E.
    { rw -{2}Hfill -Hz. apply ffw_encode_small; [change (2 ^ 30) with 1073741824; lia|]. rw Hz Hfill. apply Hs'. }
    wp_seq. rw E.
    iApply wp_of_option. cbn [default from_option id].
    wp_seq. iApply (wp_store_block with "Ht"); [by cbn [sizeof]; rw Hfill|]. iIntros "Ht".
    wp_seq. iApply (wp_erase_obj with "Hl"). iApply wp_fail.
    wp_seq. iApply (wp_free_block with "Ht"). wp_value. iApply ("HΦ" $! (AnswerPair None None)). by iSplit.
Qed.
(** An object without a value. *)
Lemma wp_build_empty tag g Φ :
  0 <= tag < 2 ^ 16 → (∀ l, raw (Some l) (tlv_bytes tag []) -∗ Φ (Some l) g) -∗
  wp true (berTLV_createAndBuildRawDataObject (G := sdk D) tag 0 None) g Φ.
Proof.
  iIntros (Ht) "HΦ". iApply (createAndBuild_spec _ _ None _ []); [done..|].
  iIntros ([l|]) "Hq"; cbn [raw_result]; [by iApply "HΦ"|by iDestruct "Hq" as %?].
Qed.

Lemma reporting_twice e e' g : e ≠ LPA_NO_ERROR → reporting e' (reporting e g) = reporting e g.
Proof.
  intros He. rw /reporting errorCode_set. rw (first_error_kept e'); [|by apply first_error_error].
  by rw set_errorCode_twice.
Qed.

Lemma store_verdict_error max data e : store_verdict max data = Some e → e ≠ LPA_NO_ERROR.
Proof. rw /store_verdict. repeat ztest; by intros [= <-]. Qed.
End proofs.

Section requests_b.
Context {D : Type}.
Implicit Types (g : sdk D).

(** Storing the value of an object. *)
Lemma wp_store_value max resp v o g Φ :
  Forall is_byte v → max < 2 ^ 24 → (zlen v <= max → safe_size (zlen v)) →
  owned_pair resp o -∗
  (∀ resp', owned_pair resp' (stored max v o) -∗
     Φ (bool_decide (store_verdict max v = None), resp') (reporting_opt (store_verdict max v) g)) -∗
  wp true (_storeHexBase64StructureRawDataPair (D := D) resp (value v) (zlen v) max) g Φ.
Proof.
  iIntros (Hv Hm Hs) "Ho HΦ". destruct v as [|b v]; cbn [value].
  - iApply wp_fail. by iApply ("HΦ" with "Ho").
  - iApply (wp_store_pair with "Ho"); [zlen_pos; lia|by rw zlen_to_nat take_ge|done..].
Qed.

Lemma wp_check_challenge src n resp o g Φ :
  0 < n <= zlen src → Forall is_byte (take (Z.to_nat n) src) →
  (∀ v, challenge_of (take (Z.to_nat n) src) = Some v → zlen v <= LPA_GET_EUICC_BUFFER_MAX_SIZE → safe_size (zlen v)) →
  owned_pair resp o -∗
  (∀ resp', match challenge_of (take (Z.to_nat n) src) with
            | Some v =>
                owned_pair resp' (stored LPA_GET_EUICC_BUFFER_MAX_SIZE v o) -∗
                Φ (bool_decide (store_verdict LPA_GET_EUICC_BUFFER_MAX_SIZE v = None), resp')
                  (reporting_opt (store_verdict LPA_GET_EUICC_BUFFER_MAX_SIZE v) g)
            | None => owned_pair resp' o -∗ Φ (false, resp') g
            end) -∗
  wp true (_checkAndExtractEuiccChallenge (D := D) (Some src) n resp) g Φ.
Proof.
  iIntros (Hn Hb Hs) "Ho HΦ". rw /_checkAndExtractEuiccChallenge (_ : (n >? 0) = true); [|lia].
  set (data := take _ src) in *. wp_seq. iApply wp_extractTag16; [lia|done|]. iIntros (p _ r1) "%H1 Hp".
  apply chosen_nf in H1. rw /challenge_of -H1 in Hs |- *. iDestruct (maybe_null with "Hp") as "[%En Hp]". rw En.
  destruct r1 as [v|]; cbn [present negb maybe_tlv mbind option_bind] in *.
  2: { wp_value. iDestruct "Hp" as "_". by iApply ("HΦ" with "Ho"). }
  wp_seq. iApply (wp_extractTag_of with "Hp"); [by apply (first_tag_byte 0xBF2E data)|done|].
  iIntros (q r2) "%H2 Hp Hq". apply chosen_nf in H2. rw -H2 in Hs |- *.
  iDestruct (maybe_null with "Hq") as "[%En2 Hq]". rw En2. wp_seq.
  destruct r2 as [w|]; cbn [present negb maybe_tlv] in *.
  - wp_seq. iApply (wp_tlv_data with "Hq"). iIntros "Hq". wp_seq.
    assert (Forall is_byte w) as Hw.
    { apply (first_tag_byte 0x80 v); [by apply (first_tag_byte 0xBF2E data)|done]. }
    iApply (wp_store_value with "Ho"); [done|by rw /LPA_GET_EUICC_BUFFER_MAX_SIZE|by apply Hs|].
    iIntros (resp') "Ho". wp_seq. iApply (tlv_free_spec with "Hq"). wp_value.
    wp_seq. iApply (tlv_free_spec with "Hp"). wp_value. by iApply ("HΦ" with "Ho").
  - iDestruct "Hq" as "_". wp_value. wp_seq. iApply (tlv_free_spec with "Hp"). wp_value. by iApply ("HΦ" with "Ho").
Qed.

(** The rules access table, as the download uses it. *)
Lemma rat_read (old : ptr) (o : option (list Z)) (g : sdk D) x (a : globals D) :
  exchanges_in ES10b None rat_request g x a →
  triple true (raw_arg old o) (lpaManagerES10b_GetRAT (Some old)) g
    (λ r g', let '(e, data) := rat_outcome x in
       ⟦r.1 = bool_decide (e = None) ∧ g' = reporting_opt e (answered_in ES10b x a g)⟧ ∗ raw_arg r.2 data)%I.
Proof.
  intros Hx. iIntros "Ho". wp_seq. iApply wp_of_option. wp_seq. iApply (wp_erase_raw with "Ho").
  wp_seq. iApply wp_build_empty; [done|]. iIntros (p) "Hp". cbn [isNull]. wp_seq. wp_seq.
  iApply (wp_storeData_in with "Hp"); [apply tlv_bytes_nonempty|done|exact Hx|]. iIntros "Hp".
  pose proof (exchanges_in_fits _ _ _ _ _ _ (room_all _ _) Hx) as [[Hn0 _] Hn].
  destruct x as [[[sent sw] buf] n]. cbn [fst snd] in *.
  set (out := rat_outcome _). set (g1 := answered_in _ _ _ _).
  iApply (wp_wand _ _ _ (λ r g', ⟦r.1 = bool_decide (out.1 = None) ∧ g' = reporting_opt out.1 g1⟧ ∗ raw_arg r.2 out.2)%I).
  { rw /out /rat_outcome. destruct sent; [destruct (sw_success sw)|]; [|by iApply wp_fail..].
    rw Z.gtb_ltb. rw /LPA_RAT_MAXIMUM_SIZE. destruct (_ && _) eqn:E; [|by iApply wp_fail].
    assert (4 < n <= 1024) as [H4 H1024] by lia.
    wp_seq. iApply wp_data_of. wp_seq. rw dataBuffer_answered. cbn [fst snd].
    iApply (wp_create _ _ (take (Z.to_nat n) buf)); [pows; lia|rw rd_range_Some; [by rw drop_0|lia..]|].
    iIntros (l) "Hl". cbn [isNull]. wp_value. cbn. by iFrame. }
  iIntros (r g') "[%Hr Hr]". destruct out as [e data]. wp_seq. iApply (wp_erase_obj with "Hp"). wp_value. by iFrame.
Qed.

(** LpaManagerES10b_GetRAT releases the object it is given, asks the eUICC for its rules access table and stores the
    answer in a new object when its status is correct and it has 5 to 1024 bytes; every other outcome stores NULL and
    reports the error; the request is released. *)
Theorem get_rat (old : ptr) (o : option (list Z)) (g : sdk D) x (a : globals D) :
  exchanges_in ES10b None rat_request g x a →
  triple true (raw_arg old o) (lpaManagerES10b_GetRAT (Some old)) g
    (λ r g', let '(e, data) := rat_outcome x in
       ⟦r.1 = bool_decide (e = None) ∧ g' = reporting_opt e (answered_in ES10b x a g)⟧ ∗ raw_arg r.2 data)%I.
Proof. apply rat_read. Qed.

(** LpaManagerES10b_GetEuiccChallenge stores the challenge found in object 80 of object BF2E of the answer, and its text
    in base 64, in place of the former pair, on any answer of a correct status that fits; every other outcome keeps the
    pair that is there or clears it, and reports the error. *)
Theorem get_challenge (resp : answer_pair) (old : pair_value) (g : sdk D) x (a : globals D) :
  exchanges_in ES10b None challenge_request g x a →
  (∀ v, challenge_of (take (Z.to_nat x.2) x.1.2) = Some v → zlen v <= LPA_GET_EUICC_BUFFER_MAX_SIZE → safe_size (zlen v)) →
  triple true (owned_pair resp old) (lpaManagerES10b_GetEuiccChallenge (Some resp)) g
    (λ r g', let '(e, o) := challenge_outcome old x in
       ⟦r.1 = bool_decide (e = None) ∧ g' = reporting_opt e (answered_in ES10b x a g)⟧ ∗
       ∃ resp', ⟦r.2 = Some resp'⟧ ∗ owned_pair resp' o)%I.
Proof.
  intros Hx Hs. iIntros "Ho". rw /lpaManagerES10b_GetEuiccChallenge.
  wp_seq. iApply wp_build_empty; [done|]. iIntros (p) "Hp". cbn [isNull]. wp_seq. wp_seq.
  iApply (wp_storeData_in with "Hp"); [apply tlv_bytes_nonempty|done|exact Hx|]. iIntros "Hp".
  pose proof (exchanges_in_fits _ _ _ _ _ _ (room_all _ _) Hx) as [[Hn0 _] Hn].
  destruct Hx as [_ Hb]. destruct x as [[[sent sw] buf] n]. cbn [fst snd] in *.
  set (out := challenge_outcome _ _). set (g1 := answered_in _ _ _ _).
  iApply (wp_wand _ _ _ (λ r g', ⟦r.1 = bool_decide (out.1 = None) ∧ g' = reporting_opt out.1 g1⟧ ∗ owned_pair r.2 out.2)%I with "[Ho]").
  { rw /out /challenge_outcome. destruct sent; [destruct (sw_success sw)|]; [|iApply wp_fail; by iFrame..].
    rw Z.gtb_ltb. destruct (Z.ltb_spec 0 n); [|iApply wp_fail; by iFrame].
    destruct (Z.leb_spec n LPA_GET_EUICC_BUFFER_MAX_SIZE); [|iApply wp_fail; by iFrame].
    wp_seq. iApply wp_data_of. wp_seq. rw dataBuffer_answered. cbn [fst snd].
    iApply (wp_check_challenge with "Ho"); [lia|done..|]. iIntros (resp').
    destruct (challenge_of _) as [v|]; iIntros "Ho"; [|iApply wp_fail; by iFrame].
    destruct (store_verdict _ v) as [e|] eqn:E; cbn [bool_decide reporting_opt].
    - iApply wp_fail. rw reporting_twice; [|by eapply store_verdict_error]. by iFrame.
    - wp_value. by iFrame. }
  iIntros ([res resp'] g') "[%Hr Ho]". wp_seq. iApply (wp_erase_obj with "Hp"). wp_value.
  destruct out as [e o]. cbn [fst snd] in *. iSplit; [done|]. iExists resp'. by iFrame.
Qed.

(** LpaManagerES10b_GetEuiccInfo stores the whole answer and its text in base 64 in place of the former pair, and
    reports the error otherwise. *)
Theorem get_info (resp : answer_pair) (old : pair_value) (g : sdk D) x (a : globals D) :
  exchanges_in ES10b None info_request g x a →
  (x.2 <= LPA_GET_EUICC_BUFFER_MAX_SIZE → safe_size x.2) →
  triple true (owned_pair resp old) (lpaManagerES10b_GetEuiccInfo (Some resp)) g
    (λ r g', let '(e, o) := info_outcome old x in
       ⟦r.1 = bool_decide (e = None) ∧ g' = reporting_opt e (answered_in ES10b x a g)⟧ ∗
       ∃ resp', ⟦r.2 = Some resp'⟧ ∗ owned_pair resp' o)%I.
Proof.
  intros Hx Hs. iIntros "Ho". rw /lpaManagerES10b_GetEuiccInfo.
  wp_seq. iApply wp_build_empty; [done|]. iIntros (p) "Hp". cbn [isNull]. wp_seq. wp_seq.
  iApply (wp_storeData_in with "Hp"); [apply tlv_bytes_nonempty|done|exact Hx|]. iIntros "Hp".
  pose proof (exchanges_in_fits _ _ _ _ _ _ (room_all _ _) Hx) as [[Hn0 _] Hn].
  destruct Hx as [_ Hb]. destruct x as [[[sent sw] buf] n]. cbn [fst snd] in *.
  set (out := info_outcome _ _). set (g1 := answered_in _ _ _ _).
  iApply (wp_wand _ _ _ (λ r g', ⟦r.1 = bool_decide (out.1 = None) ∧ g' = reporting_opt out.1 g1⟧ ∗ owned_pair r.2 out.2)%I with "[Ho]").
  { rw /out /info_outcome. destruct sent; [destruct (sw_success sw)|]; [|iApply wp_fail; by iFrame..].
    rw Z.gtb_ltb. destruct (Z.ltb_spec 0 n); [|iApply wp_fail; by iFrame].
    wp_seq. iApply wp_data_of. rw dataBuffer_answered. cbn [fst snd].
    iApply (wp_store_pair with "Ho"); [lia|done..|]. iIntros (resp') "Ho". by iFrame. }
  iIntros ([res resp'] g') "[%Hr Ho]". wp_seq. iApply (wp_erase_obj with "Hp"). wp_value.
  destruct out as [e o]. cbn [fst snd] in *. iSplit; [done|]. iExists resp'. by iFrame.
Qed.
Lemma wp_is_valid tag src n max g Φ :
  0 <= n <= zlen src → Forall is_byte (take (Z.to_nat n) src) → well_nested tag (take (Z.to_nat n) src) →
  Φ ((0 <? n) && (n <=? max) && positive tag (take (Z.to_nat n) src)) g -∗
  wp true (is_valid_response (D := D) tag (Some src) n max) g Φ.
Proof.
  iIntros (Hn Hb Hw) "HΦ". rw /is_valid_response Z.gtb_ltb. destruct ((0 <? n) && (n <=? max)); cbn [andb]; [|by wp_value].
  set (data := take _ src) in *. wp_seq. iApply wp_extractTag16; [lia|done|]. iIntros (p _ r1) "%H1 Hp".
  apply chosen_nf in H1. rw /positive /well_nested -H1 in Hw |- *. iDestruct (maybe_null with "Hp") as "[%En Hp]". rw En.
  destruct r1 as [v|]; cbn [present negb maybe_tlv mbind option_bind] in *.
  2: { wp_value. iDestruct "Hp" as "_". done. }
  destruct Hw as [tvs Ho]. rw Ho. wp_seq.
  iApply (wp_extractList_of with "Hp"); [by apply (first_tag_byte tag data)|exact Ho|]. iIntros (l c) "Hp [%Hl|[-> Hl]]"; [by destruct Hl|].
  iDestruct (tlv_list_null with "Hl") as "[%Enl Hl]". rw Enl. wp_seq.
  destruct tvs as [|[t w] tvs]; cbn [bool_decide].
  { wp_value. wp_seq. iApply (tlv_free_spec with "Hp"). iDestruct "Hl" as "_". by wp_value. }
  iApply (wp_wand _ _ _ (λ b g', ⟦b = (zlen ((t, w) :: tvs) mod 256 =? 1) && (t =? 160) ∧ g' = g⟧)%I with "[Hl]").
  { wp_seq. iAssert (wp true (if zlen ((t, w) :: tvs) mod 256 =? 1 then _ else ret false) g
      (λ b g', ⟦b = (zlen ((t, w) :: tvs) mod 256 =? 1) && (t =? 160) ∧ g' = g⟧ ∗ tlv_list l ((t, w) :: tvs)))%I with "[Hl]" as "H".
    2: { iApply (wp_wand with "H"). iIntros (b g') "[%Hbg Hl]". destruct Hbg as [-> ->]. wp_seq.
         iApply (freeList_spec with "Hl"). by wp_value. }
    destruct (_ =? 1); cbn [andb]; [|wp_value; by iFrame]. rw /tlv_list; cbn [tlv_seg].
    iDestruct "Hl" as (b0 t0 q) "(-> & Hl & Ht & Hs)". wp_seq. iApply (wp_load_list with "Hl"). iIntros "Hl".
    iDestruct "Ht" as (lt d) "(%Et & Ht & Hd)". injection Et as <-. wp_seq. iApply (wp_load_tlv with "Ht"). iIntros "Ht".
    wp_value. iSplit; [done|]. iExists b0, _, q. iFrame. by iSplit. }
  iIntros (b g') "%Hbg". destruct Hbg as [-> ->]. wp_seq. iApply (tlv_free_spec with "Hp"). by wp_value.
Qed.

Lemma part_set d bs : part_bytes d bs → is_set d = true ∧ 0 < len d ∧ zlen bs = len d.
Proof.
  intros (src & E & Hne & Hr). destruct (rd_range_length _ _ _ _ Hr) as (Hl & _ & Hn & _).
  assert (0 < len d) by (destruct bs; [done|]; rw -Hl zlen_cons; zlen_pos; lia).
  split; [|done]. rw /is_set E bool_decide_true; [|by eexists]. cbn. lia.
Qed.

Lemma wp_append_part p bs d xs g Φ :
  part_bytes d xs → zlen bs + zlen xs < 2 ^ 32 →
  raw p bs -∗ (raw p (bs ++ xs) -∗ Φ false g) -∗
  wp true (append_part (D := D) p false (val d) (len d)) g Φ.
Proof.
  iIntros (Hd Hl) "Hp HΦ". destruct (part_set _ _ Hd) as (_ & Hn & Hz). destruct Hd as (src & E & _ & Hr).
  rw /append_part E. wp_seq. iApply (append_spec with "Hp"); [exact Hr|done|change (2 ^ 64) with 18446744073709551616; pows; lia|].
  iIntros ([|]) "Hp"; [|by iDestruct "Hp" as "[%Hf Hp]"]. wp_value. by iApply "HΦ".
Qed.

Lemma wp_allocate_sure g Φ :
  (∀ l, raw (Some l) [] -∗ Φ (Some l) g) -∗ wp true (rawDataObject_allocate (G := sdk D)) g Φ.
Proof.
  iIntros "HΦ". iApply wp_allocate. iIntros ([l|]) "Hl"; [|by iDestruct "Hl" as %?]. iApply "HΦ". by iApply raw_empty.
Qed.

Lemma wp_prepare_auth sd b1 b2 b3 b4 ctx c g Φ :
  part_bytes (_serverSigned1 sd) b1 → part_bytes (_serverSignature1 sd) b2 →
  part_bytes (_euiccCiPKIdToBeUsed sd) b3 → part_bytes (_serverCertificate sd) b4 → ctx ≠ [] →
  zlen (b1 ++ b2 ++ b3 ++ b4 ++ ctx) < 2 ^ 23 →
  raw c ctx -∗
  (let request := tlv_bytes AUTH_SERVER_DGI_TAG (b1 ++ b2 ++ b3 ++ b4 ++ ctx) in
   ∀ q, raw c ctx -∗
     if zlen request <=? LPA_AUTHENTICATE_SERVER_MAX_SIZE then raw q request -∗ Φ (true, q) g
     else ⟦q = None⟧ -∗ Φ (false, q) (reporting LPA_ERROR_INSUFFICIENT_BUFFER g)) -∗
  wp true (_prepareAuthenticateServerTlv (D := D) sd c) g Φ.
Proof.
  iIntros (H1 H2 H3 H4 Hc Hl) "Hc HΦ". cbv zeta. set (body := b1 ++ b2 ++ b3 ++ b4 ++ ctx) in *.
  pose proof (tlv_bytes_bound AUTH_SERVER_DGI_TAG body). set (request := tlv_bytes _ body) in *.
  assert (0 < zlen ctx) as Hc0 by (destruct ctx; [done|]; rw zlen_cons; zlen_pos; lia).
  assert (part_bytes (DataS (Some ctx) (zlen ctx)) ctx) as H5 by (exists ctx; split_and!; [done..|by apply rd_range_all]).
  assert (zlen b1 + zlen b2 + zlen b3 + zlen b4 + zlen ctx = zlen body) as Hsum by (rw /body !zlen_app; lia).
  zlen_pos. change (2 ^ 23) with 8388608 in Hl.
  wp_seq. iApply (wp_raw_bytes with "Hc"). iIntros "Hc". rw (value_some ctx) //.
  rw (proj1 (part_set _ _ H1)) (proj1 (part_set _ _ H2)) (proj1 (part_set _ _ H3)) (proj1 (part_set _ _ H4))
     (proj1 (part_set _ _ H5)). cbn [andb].
  wp_seq. iApply wp_allocate_sure. iIntros (p) "Hp". cbn [isNull].
  wp_seq. iApply (wp_append_part with "Hp"); [exact H1|pows; cbn [app]; rw zlen_nil; lia|]. iIntros "Hp". cbn [app].
  wp_seq. iApply (wp_append_part with "Hp"); [exact H2|pows; lia|]. iIntros "Hp".
  wp_seq. iApply (wp_append_part with "Hp"); [exact H3|rw zlen_app; pows; lia|]. iIntros "Hp".
  wp_seq. iApply (wp_append_part with "Hp"); [exact H4|rw !zlen_app; pows; lia|]. iIntros "Hp".
  wp_seq. iApply (wp_append_part _ _ (DataS (Some ctx) (zlen ctx)) with "Hp"); [exact H5|rw !zlen_app; pows; lia|]. iIntros "Hp".
  rw -!app_assoc -/body. wp_seq. wp_seq. iApply (wp_wrap with "Hp"); [done|pows; lia|]. rw -/request. iIntros (q) "Hp Hq".
  cbn [isNull]. wp_seq. iApply (wp_raw_bytes with "Hq"). iIntros "Hq".
  assert (0 < zlen request) as Hr0 by (pose proof (tlv_bytes_nonempty AUTH_SERVER_DGI_TAG body) as Hne; rw -/request in Hne;
    destruct request; [done|]; rw zlen_cons; zlen_pos; lia).
  rw (value_some request) //. wp_seq. destruct (zlen request <=? LPA_AUTHENTICATE_SERVER_MAX_SIZE).
  - wp_seq. iApply (wp_create _ _ request); [pows; lia|by apply rd_range_all|]. iIntros (r) "Hr". wp_value.
    wp_seq. iApply (free_spec _ _ (Some request) with "Hq"). wp_value.
    wp_seq. iApply (free_spec _ _ (Some body) with "Hp"). wp_value. cbn [isNull negb]. by iApply ("HΦ" with "Hc").
  - iApply wp_fail. wp_seq. iApply (free_spec _ _ (Some request) with "Hq"). wp_value.
    wp_seq. iApply (free_spec _ _ (Some body) with "Hp"). wp_value. by iApply ("HΦ" with "Hc").
Qed.

(** A signed request and the storage of its answer. *)
Lemma wp_signed room failed tag p request resp old g x (a : globals D) Φ :
  room_ok ES10b room g → request ≠ [] → zlen request < 2 ^ 32 → exchanges_in ES10b room request g x a →
  well_nested tag (take (Z.to_nat x.2) x.1.2) →
  (positive tag (take (Z.to_nat x.2) x.1.2) = true → x.2 <= LPA_AUTHENTICATE_SERVER_MAX_SIZE → safe_size x.2) →
  raw p request -∗ owned_pair resp old -∗
  (∀ resp', raw p request -∗ owned_pair resp' (signed_outcome failed tag old x).2 -∗
     Φ ((signed_outcome failed tag old x).1.1, resp')
       (reporting_opt (signed_outcome failed tag old x).1.2 (answered_in ES10b x a g))) -∗
  wp true (let* '(sent, sw, dataBufferSize) := storeData_in ES10b p room in
           if sent : bool then
             if sw_success sw then
               let* data := data_of ES10b in
               let* valid := is_valid_response tag data dataBufferSize LPA_AUTHENTICATE_SERVER_MAX_SIZE in
               if valid : bool then
                 let* data := data_of ES10b in
                 _storeHexBase64StructureRawDataPair resp data dataBufferSize LPA_AUTHENTICATE_SERVER_MAX_SIZE
               else ret (false, resp)
             else fail LPA_ERROR_INVALID_SW resp
           else fail failed resp) g Φ.
Proof.
  iIntros (Hroom Hne Hl Hx Hw Hs) "Hp Ho HΦ". wp_seq. iApply (wp_storeData_in with "Hp"); [done..|]. iIntros "Hp".
  pose proof (exchanges_in_fits _ _ _ _ _ _ Hroom Hx) as [[Hn0 _] Hn].
  destruct Hx as [_ Hb]. destruct x as [[[sent sw] buf] n]. cbn [fst snd signed_outcome] in *.
  set (g1 := answered_in _ _ _ _). destruct sent; [destruct (sw_success sw)|]; cbn [fst snd];
    [|iApply wp_fail; by iApply ("HΦ" with "Hp Ho")..].
  wp_seq. iApply wp_data_of. rw dataBuffer_answered. cbn [fst snd]. wp_seq.
  iApply wp_is_valid; [lia|done..|]. destruct (_ && positive _ _) eqn:E.
  - apply andb_prop in E as [En Ep]. apply andb_prop in En as [_ En]. zprop. cbn [fst snd].
    wp_seq. iApply wp_data_of. rw dataBuffer_answered. cbn [fst snd].
    iApply (wp_store_pair with "Ho"); [lia|done..|by rw /LPA_AUTHENTICATE_SERVER_MAX_SIZE|by apply Hs|].
    iIntros (resp') "Ho". by iApply ("HΦ" with "Hp Ho").
  - wp_value. by iApply ("HΦ" with "Hp Ho").
Qed.

(** C7: The authentication of the server, lpaManagerES10b_AuthenticateServer (functional), when no allocation fails, and the
    context and the server's parts are not empty and have less than 2^23 bytes together: it wraps what the server signed, its certificate and the context into one
    request, refuses it with an insufficient buffer when it is too large, and otherwise sends it. When the card answers a
    success of 1 to LPA_AUTHENTICATE_SERVER_MAX_SIZE bytes whose object BF38 holds objects of which the first has tag A0 and
    whose number is 1 modulo 256, being counted in a byte, the pair receives the answer and its Base64 text, or is emptied with
    an insufficient buffer when the text does not fit; otherwise it stays as it was. The verdict and the error are those of the
    exchange; the context is given back and the request is released. Two kinds of answers are excluded, for which the function
    has no defined behaviour (authenticate_server_limits): those whose BF38 holds an object that is longer than it, and, of
    those that are stored, the ones of 2, 5, 10 or 13 bytes, whose text overflows its buffer by the NUL. *)
Theorem authenticate_server (sd : server_data) (b1 b2 b3 b4 ctx : list Z) (c : ptr) (resp : answer_pair)
    (old : pair_value) (g : sdk D) x (a : globals D) :
  part_bytes (_serverSigned1 sd) b1 → part_bytes (_serverSignature1 sd) b2 →
  part_bytes (_euiccCiPKIdToBeUsed sd) b3 → part_bytes (_serverCertificate sd) b4 → ctx ≠ [] →
  zlen (b1 ++ b2 ++ b3 ++ b4 ++ ctx) < 2 ^ 23 →
  let request := tlv_bytes AUTH_SERVER_DGI_TAG (b1 ++ b2 ++ b3 ++ b4 ++ ctx) in
  exchanges_in ES10b None request g x a → well_nested 0xBF38 (take (Z.to_nat x.2) x.1.2) →
  (positive 0xBF38 (take (Z.to_nat x.2) x.1.2) = true → x.2 <= LPA_AUTHENTICATE_SERVER_MAX_SIZE → safe_size x.2) →
  triple true (raw c ctx ∗ owned_pair resp old)%I (lpaManagerES10b_AuthenticateServer (Some sd) c (Some resp)) g
    (λ r g',
       raw c ctx ∗ ∃ resp', ⟦r.2 = Some resp'⟧ ∗
       if zlen request <=? LPA_AUTHENTICATE_SERVER_MAX_SIZE then
         let '(ok, e, o) := signed_outcome LPA_ERROR_INVALID_AUTHENTICATE_SERVER_RESPONSE 0xBF38 old x in
         ⟦r.1 = ok ∧ g' = reporting_opt e (answered_in ES10b x a g)⟧ ∗ owned_pair resp' o
       else ⟦r.1 = false ∧ g' = reporting LPA_ERROR_INSUFFICIENT_BUFFER g⟧ ∗ owned_pair resp' old)%I.
Proof.
  intros H1 H2 H3 H4 Hc Hl request Hx Hw Hs. iIntros "[Hc Ho]". rw /lpaManagerES10b_AuthenticateServer.
  destruct c as [c|]; [|by iDestruct "Hc" as (? ?) "[%Hc0 ?]"]. cbn [isNull].
  wp_seq. iApply (wp_prepare_auth with "Hc"); [done..|]. cbv zeta. rw -/request. iIntros (q) "Hc".
  destruct (Z.leb_spec (zlen request) LPA_AUTHENTICATE_SERVER_MAX_SIZE) as [Hreq|].
  - iIntros "Hq". destruct q as [q|]; [|by iDestruct "Hq" as (? ?) "[%Hc0 ?]"]. cbn [isNull negb andb]. wp_seq.
    iApply (wp_signed with "Hq Ho"); [apply room_all|apply tlv_bytes_nonempty|rw /LPA_AUTHENTICATE_SERVER_MAX_SIZE in Hreq; pows; lia|done..|].
    iIntros (resp') "Hq Ho". destruct (signed_outcome _ _ _ _) as [[ok e] o]. wp_seq. iApply (wp_erase_obj with "Hq").
    wp_value. iFrame "Hc". iExists resp'. by iFrame.
  - iIntros "%Hq". subst q. wp_seq. wp_value. wp_seq. iApply wp_erase_none. wp_value. iFrame "Hc". iExists resp. by iFrame.
Qed.

(** *** Preparation of the download *)

Lemma wp_build_of_tlv b t v g Φ :
  0 <= t < 2 ^ 16 → zlen v < 2 ^ 24 → tlv (Some b) t v -∗
  (∀ l, tlv (Some b) t v -∗ raw (Some l) (tlv_bytes t v) -∗ Φ (Some l) g) -∗
  wp true (berTLV_buildRawDataObject (G := sdk D) (Some b)) g Φ.
Proof.
  iIntros (Ht Hv) "Hb HΦ". iApply (buildRawDataObject_spec with "Hb"); [done..|].
  iIntros ([l|]) "Hb Hq"; cbn [raw_result]; [by iApply ("HΦ" with "Hb")|by iDestruct "Hq" as %?].
Qed.

(** A block on the first element, and on a later one. *)
Lemma wp_smdp_first l i b n t v g Φ :
  0 <= t < 2 ^ 16 → zlen v < 2 ^ 24 → l ↦ BList i (Some b) n -∗ tlv (Some b) t v -∗
  (∀ p, l ↦ BList i (Some b) n -∗ tlv (Some b) t v -∗ raw p (tlv_bytes t v) -∗ Φ (p, false, n) g) -∗
  wp true (smdp_item (D := D) (Some l) (Some l) false) g Φ.
Proof.
  iIntros (Ht Hv) "Hl Hb HΦ". wp_seq. iApply (wp_load_list with "Hl"). iIntros "Hl". cbn [isNull].
  wp_seq. wp_seq. iApply (wp_load_list with "Hl"). iIntros "Hl". wp_value. cbn [isNull].
  wp_seq. wp_seq. iApply (wp_build_of_tlv with "Hb"); [done..|]. iIntros (q) "Hb Hq". wp_value.
  wp_seq. iApply (wp_load_list with "Hl"). iIntros "Hl". wp_value. iApply ("HΦ" with "Hl Hb Hq").
Qed.

Lemma wp_smdp_next l0 i0 b0 n0 l i b n t v g Φ :
  0 <= t < 2 ^ 16 → zlen v < 2 ^ 24 →
  l0 ↦ BList i0 (Some b0) n0 -∗ l ↦ BList i (Some b) n -∗ tlv (Some b) t v -∗
  (∀ p, l0 ↦ BList i0 (Some b0) n0 -∗ l ↦ BList i (Some b) n -∗ tlv (Some b) t v -∗ raw p (tlv_bytes t v) -∗
        Φ (p, false, n) g) -∗
  wp true (smdp_item (D := D) (Some l0) (Some l) false) g Φ.
Proof.
  iIntros (Ht Hv) "H0 Hl Hb HΦ". wp_seq. iApply (wp_load_list with "H0"). iIntros "H0". cbn [isNull].
  wp_seq. wp_seq. iApply (wp_load_list with "Hl"). iIntros "Hl". wp_value. cbn [isNull].
  wp_seq. wp_seq. iApply (wp_build_of_tlv with "Hb"); [done..|]. iIntros (q) "Hb Hq". wp_value.
  wp_seq. iApply (wp_load_list with "Hl"). iIntros "Hl". wp_value. iApply ("HΦ" with "H0 Hl Hb Hq").
Qed.

(** The objects of the first elements of a list of at least two. *)
Definition smdp_owned (d : SMDP_SIGNED2_DATA) (o : option (list Z) * option (list Z) * option (list Z)) : heapProp :=
  (raw_arg (ptrRawDataObjectTLV_transactionId d) o.1.1 ∗ raw_arg (ptrRawDataObjectTLV_ccRequiredFlag d) o.1.2 ∗
   raw_arg (ptrRawDataObjectTLV_bppEuiccOtpk d) o.2)%I.

Lemma wp_smdp_items l tv1 tv2 tvs g Φ :
  Forall (λ tv, 0 <= tv.1 < 2 ^ 16 ∧ zlen tv.2 < 2 ^ 24) (tv1 :: tv2 :: tvs) →
  tlv_list l (tv1 :: tv2 :: tvs) -∗
  (∀ d o, tlv_list l (tv1 :: tv2 :: tvs) -∗ smdp_owned d o -∗ Φ (true, d, l) g) -∗
  wp true (let* '(transactionId, error, item) := smdp_item (D := D) l l false in
           let* '(ccRequiredFlag, error, item) := smdp_item l item error in
           let* '(bppEuiccOtpk, error, item) := smdp_item l item error in
           ret ((negb error, SmdpSigned2Data transactionId ccRequiredFlag bppEuiccOtpk), l)) g Φ.
Proof.
  iIntros (Hb) "Hl HΦ". destruct tv1 as [t1 v1], tv2 as [t2 v2].
  apply Forall_cons_1 in Hb as [[H1 H1'] Hb]. apply Forall_cons_1 in Hb as [[H2 H2'] Hb]. cbn [fst snd] in *.
  rw /tlv_list. cbn [tlv_seg]. iDestruct "Hl" as (l1 b1 n1) "(-> & Hl1 & Hb1 & Hl)".
  iDestruct "Hl" as (l2 b2 n2) "(-> & Hl2 & Hb2 & Hl)".
  wp_seq. iApply (wp_smdp_first with "Hl1 Hb1"); [done..|]. iIntros (p1) "Hl1 Hb1 Hp1".
  wp_seq. iApply (wp_smdp_next with "Hl1 Hl2 Hb2"); [done..|]. iIntros (p2) "Hl1 Hl2 Hb2 Hp2". wp_seq.
  destruct tvs as [|[t3 v3] tvs]; cbn [tlv_seg].
  - iDestruct "Hl" as %->. wp_value. wp_value.
    iApply ("HΦ" $! _ (Some (tlv_bytes t1 v1), Some (tlv_bytes t2 v2), None) with "[Hl1 Hb1 Hl2 Hb2] [Hp1 Hp2]").
    + iExists l1, b1, _. iFrame "Hl1 Hb1". iSplit; [done|]. iExists l2, b2, _. iFrame "Hl2 Hb2". by iSplit.
    + rw /smdp_owned. cbn. by iFrame.
  - apply Forall_cons_1 in Hb as [[H3 H3'] _]. cbn [fst snd] in *.
    iDestruct "Hl" as (l3 b3 n3) "(-> & Hl3 & Hb3 & Hl)".
    iApply (wp_smdp_next with "Hl1 Hl3 Hb3"); [done..|]. iIntros (p3) "Hl1 Hl3 Hb3 Hp3". wp_value.
    iApply ("HΦ" $! _ (Some (tlv_bytes t1 v1), Some (tlv_bytes t2 v2), Some (tlv_bytes t3 v3)) with
      "[Hl1 Hb1 Hl2 Hb2 Hl3 Hb3 Hl] [Hp1 Hp2 Hp3]").
    + iExists l1, b1, _. iFrame "Hl1 Hb1". iSplit; [done|]. iExists l2, b2, _. iFrame "Hl2 Hb2". iSplit; [done|].
      iExists l3, b3, _. iFrame "Hl3 Hb3 Hl". done.
    + rw /smdp_owned. cbn. by iFrame.
Qed.

Lemma wp_extract_smdp src n g Φ :
  0 < n <= zlen src → Forall is_byte (take (Z.to_nat n) src) → well_nested 0x30 (take (Z.to_nat n) src) →
  (∀ d o, smdp_owned d o -∗ Φ (smdp_usable (take (Z.to_nat n) src), d) g) -∗
  wp true (_extractDataFromSmdpSigned2 (D := D) (Some src) n) g Φ.
Proof.
  iIntros (Hn Hb Hw) "HΦ". rw /_extractDataFromSmdpSigned2 (_ : (n >? 0) = true); [|lia].
  set (data := take _ src) in *. wp_seq. iApply wp_extractTag16; [lia|done|]. iIntros (p _ r1) "%H1 Hp".
  apply chosen_nf in H1. rw /smdp_usable /well_nested -H1 in Hw |- *. iDestruct (maybe_null with "Hp") as "[%En Hp]". rw En.
  destruct r1 as [v|]; cbn [present negb mbind option_bind] in *.
  2: { wp_seq. wp_value. wp_seq. iApply (wp_erase_list _ None []); [done|]. wp_seq. iApply (wp_erase with "Hp").
       wp_value. iApply ("HΦ" $! _ (None, None, None)). rw /smdp_owned /=. by iSplit; [|iSplit]. }
  destruct Hw as [tvs Ho]. rw Ho. cbn [maybe_tlv].
  assert (Forall is_byte v) as Hv by by apply (first_tag_byte 0x30 data).
  pose proof (parse_list_bound _ _ _ Hv Ho) as Hbd. wp_seq. wp_seq.
  iApply (wp_extractList_of with "Hp"); [done|exact Ho|]. iIntros (l c) "Hp [%Hl|[-> Hl]]"; [by destruct Hl|].
  iDestruct (tlv_list_null with "Hl") as "[%Enl Hl]". rw Enl Z.geb_leb.
  iApply (wp_wand _ _ _ (λ r g', ∃ d o, ⟦r = (2 <=? zlen tvs mod 256, d, l) ∧ g' = g⟧ ∗ tlv_list l tvs ∗ smdp_owned d o)%I with "[Hl]").
  { destruct (Z.leb_spec 2 (zlen tvs mod 256)) as [Hc|].
    - destruct tvs as [|tv1 [|tv2 tvs]]; [change (zlen []) with 0 in Hc; done|change (zlen [tv1]) with 1 in Hc; done|].
      cbn [bool_decide negb andb]. iApply (wp_smdp_items with "Hl"); [done|]. iIntros (d o) "Hl Hd". iExists d, o. by iFrame.
    - rw andb_false_r. wp_value. iExists no_smdp_data, (None, None, None). iFrame. rw /smdp_owned /=. by iSplit; [|iSplit; [|iSplit]]. }
  iIntros (r g') "(%d & %o & %Hr & Hl & Hd)". destruct Hr as [-> ->]. wp_seq. iApply (wp_erase_list with "Hl").
  wp_seq. iApply (wp_erase _ p 0x30 (Some v) with "Hp"). wp_value. by iApply "HΦ".
Qed.

Lemma wp_append_hash p bs text h g Φ :
  hash_part text h → zlen bs + zlen h < 2 ^ 31 →
  raw p bs -∗ (raw p (bs ++ h) -∗ Φ false g) -∗
  wp true (let* n := of_option (strlen text) in
           if n =? 64 then
             let* '(ok, out, _) := of_option (hexStr2ByteArray (Some text) 64 (Some (fill 0 32)) (Some 32)) in
             if ok : bool then append_part (D := D) p false (Some ([0x04; 0x20] ++ default [] out)) 34
             else ret true
           else ret false) g Φ.
Proof.
  iIntros (Hh Hl) "Hp HΦ". destruct Hh as [(d & t & -> & Hd & Hz & Hs & ->)|(n & Hs & Hn & ->)].
  - wp_seq. rw Hs. iApply wp_of_option. wp_seq. rw (_ : 64 = 2 * zlen d); [|by rw Hz].
    rw hexStr2ByteArray_text; [|done|lia|by rw zlen_fill|rw /int_max; lia].
    iApply wp_of_option. rw drop_ge; [|rw /zlen in Hz; rw /fill length_replicate; lia]. rw app_nil_r. cbn [default from_option id].
    iApply (wp_append_part _ _ (DataS (Some ([0x04; 0x20] ++ d)) 34) (tlv_bytes 4 d) with "Hp"); [|pows; lia|done].
    assert (tlv_bytes 4 d = [4; 32] ++ d) as E by (rw /tlv_bytes Hz; done).
    exists ([4; 32] ++ d). rw E. split_and!; [done..|]. apply rd_range_all. cbn [len]. rw zlen_app Hz. done.
  - wp_seq. rw Hs. iApply wp_of_option. rw (_ : (n =? 64) = false); [|lia]. wp_value. rw app_nil_r. by iApply "HΦ".
Qed.

Lemma wp_prepare_tlv sd b1 b2 b3 text h g Φ :
  part_bytes (_smdpSigned2 sd) b1 → part_bytes (_smdpSignature2 sd) b2 → part_bytes (_smdpCertificate sd) b3 →
  hash_part text h → zlen (b1 ++ b2 ++ h ++ b3) < 2 ^ 23 →
  (let body := b1 ++ b2 ++ h ++ b3 in
   ∀ q, if zlen body <? LPA_AUTHENTICATE_SERVER_MAX_SIZE then raw q (tlv_bytes PREPARE_DOWNLOAD_DGI_TAG body) -∗ Φ (true, q) g
        else ⟦q = None⟧ -∗ Φ (false, q) (reporting LPA_ERROR_INSUFFICIENT_BUFFER g)) -∗
  wp true (_prepareDownloadTlv (D := D) sd text) g Φ.
Proof.
  iIntros (H1 H2 H3 Hh Hl) "HΦ". cbv zeta. set (body := b1 ++ b2 ++ h ++ b3) in *.
  pose proof (tlv_bytes_bound PREPARE_DOWNLOAD_DGI_TAG body) as Hreq. set (request := tlv_bytes _ body) in *.
  assert (zlen b1 + zlen b2 + zlen h + zlen b3 = zlen body) as Hsum by (rw /body !zlen_app; lia).
  zlen_pos. change (2 ^ 23) with 8388608 in Hl.
  destruct (part_set _ _ H1) as (_ & L1 & _). destruct (part_set _ _ H2) as (_ & L2 & _). destruct (part_set _ _ H3) as (_ & L3 & _).
  rw /_prepareDownloadTlv (_ : (len (_smdpSigned2 sd) >? 0) = true); [|lia].
  rw (_ : (len (_smdpSignature2 sd) >? 0) = true); [|lia]. rw (_ : (len (_smdpCertificate sd) >? 0) = true); [|lia]. cbn [andb].
  wp_seq. iApply wp_allocate_sure. iIntros (p) "Hp". cbn [isNull]. wp_seq.
  wp_seq. iApply (wp_append_part with "Hp"); [exact H1|pows; cbn [app]; rw zlen_nil; lia|]. iIntros "Hp". cbn [app].
  wp_seq. iApply (wp_append_part with "Hp"); [exact H2|pows; lia|]. iIntros "Hp".
  wp_seq. iApply (wp_append_hash with "Hp"); [exact Hh|change (2 ^ 31) with 2147483648; rw zlen_app; lia|]. iIntros "Hp".
  wp_seq. iApply (wp_append_part with "Hp"); [exact H3|rw !zlen_app; pows; lia|]. iIntros "Hp".
  rw -!app_assoc -/body. iDestruct "Hp" as (l d) "(%El & Hp & Hd)". injection El as <-.
  wp_seq. iApply (wp_load_raw with "Hp"). iIntros "Hp". iAssert (raw (Some p) body) with "[Hp Hd]" as "Hp"; [iExists p, d; by iFrame|].
  destruct (zlen body <? LPA_AUTHENTICATE_SERVER_MAX_SIZE).
  - wp_seq. iApply (wp_wrap with "Hp"); [done|pows; lia|]. rw -/request. iIntros (q) "Hp Hq".
    wp_seq. iApply (wp_has_data with "Hq").
    { pose proof (tlv_bytes_nonempty PREPARE_DOWNLOAD_DGI_TAG body) as Hne. rw -/request in Hne.
      destruct request; [done|]. rw zlen_cons. zlen_pos. lia. }
    iIntros "Hq". wp_value. wp_seq. iApply (wp_erase_obj with "Hp"). wp_value. by iApply "HΦ".
  - iApply wp_fail. wp_seq. iApply (wp_erase_obj with "Hp"). wp_value. by iApply "HΦ".
Qed.

(** LpaManagerES10b_PrepareDownload sends what the server signed, the hash of the confirmation code when there is one,
    and the certificate, when smdpSigned2 has the form of the specification and the request fits; the pair receives an
    answer whose object BF21 holds the one object A0, and no other; everything it builds is released. *)
Theorem prepare_download (sd : server_data) (b1 b2 b3 text h : list Z) (resp : answer_pair) (old : pair_value)
    (g : sdk D) x (a : globals D) :
  part_bytes (_smdpSigned2 sd) b1 → part_bytes (_smdpSignature2 sd) b2 → part_bytes (_smdpCertificate sd) b3 →
  Forall is_byte b1 → well_nested 0x30 b1 → hash_part text h → zlen (b1 ++ b2 ++ h ++ b3) < 2 ^ 23 →
  let body := b1 ++ b2 ++ h ++ b3 in
  LPA_AUTHENTICATE_SERVER_MAX_SIZE <= zlen (es10b_dataBuffer g) →
  exchanges_in ES10b (Some LPA_AUTHENTICATE_SERVER_MAX_SIZE) (tlv_bytes PREPARE_DOWNLOAD_DGI_TAG body) g x a →
  well_nested 0xBF21 (take (Z.to_nat x.2) x.1.2) →
  (positive 0xBF21 (take (Z.to_nat x.2) x.1.2) = true → x.2 <= LPA_AUTHENTICATE_SERVER_MAX_SIZE → safe_size x.2) →
  triple true (owned_pair resp old) (lpaManagerES10b_PrepareDownload (Some sd) (Some text) (Some resp)) g
    (λ r g', ∃ resp', ⟦r.2 = Some resp'⟧ ∗
       if smdp_usable b1 then
         if zlen body <? LPA_AUTHENTICATE_SERVER_MAX_SIZE then
           let '(ok, e, o) := signed_outcome LPA_ERROR_INVALID_PREPARE_DOWNLOAD_RESPONSE 0xBF21 old x in
           ⟦r.1 = ok ∧ g' = reporting_opt e (answered_in ES10b x a g)⟧ ∗ owned_pair resp' o
         else ⟦r.1 = false ∧ g' = reporting LPA_ERROR_INSUFFICIENT_BUFFER g⟧ ∗ owned_pair resp' old
       else ⟦r.1 = false ∧ g' = g⟧ ∗ owned_pair resp' old)%I.
Proof.
  intros H1 H2 H3 Hb Hw1 Hh Hl body Hbuf Hx Hw Hs. iIntros "Ho". rw /lpaManagerES10b_PrepareDownload.
  destruct (part_set _ _ H1) as (_ & L1 & Z1). pose proof H1 as (src & E1 & _ & Hr). rw E1.
  destruct (rd_range_length _ _ _ _ Hr) as (_ & _ & _ & Hlen).
  assert (b1 = take (Z.to_nat (len (_smdpSigned2 sd))) src) as Eb.
  { rw rd_range_Some in Hr; [|lia..]. injection Hr as <-. by rw drop_0. }
  wp_seq. wp_seq. iApply wp_extract_smdp; [lia|by rw -Eb|by rw -Eb|]. rw -Eb. iIntros (d o) "Hd".
  set (Ψ := (λ r g', ∃ q oq resp', ⟦r = (r.1.1.1, resp', d, q)⟧ ∗ raw_arg q oq ∗
       if smdp_usable b1 then
         if zlen body <? LPA_AUTHENTICATE_SERVER_MAX_SIZE then
           let '(ok, e, o) := signed_outcome LPA_ERROR_INVALID_PREPARE_DOWNLOAD_RESPONSE 0xBF21 old x in
           ⟦r.1.1.1 = ok ∧ g' = reporting_opt e (answered_in ES10b x a g)⟧ ∗ owned_pair resp' o
         else ⟦r.1.1.1 = false ∧ g' = reporting LPA_ERROR_INSUFFICIENT_BUFFER g⟧ ∗ owned_pair resp' old
       else ⟦r.1.1.1 = false ∧ g' = g⟧ ∗ owned_pair resp' old)%I : bool * answer_pair * SMDP_SIGNED2_DATA * ptr → sdk D → heapProp).
  iApply (wp_wand _ _ _ Ψ with "[Ho]").
  2: { iIntros ([[[res resp'] d'] q] g') "(%q' & %oq & %resp'' & %E & Hq & Hr)". injection E as -> -> ->.
       iDestruct "Hd" as "(Hd1 & Hd2 & Hd3)". wp_seq. iApply (wp_erase_raw with "Hd1"). wp_seq. iApply (wp_erase_raw with "Hd2").
       wp_seq. iApply (wp_erase_raw with "Hd3"). wp_seq. iApply (wp_erase_raw with "Hq"). wp_value. iExists resp''. by iFrame. }
  rw /Ψ. wp_seq. destruct (smdp_usable b1).
  2: { wp_value. wp_seq. wp_value. wp_value. iExists None, None, resp. iFrame. by iSplit. }
  iApply wp_prepare_tlv; [done..|]. cbv zeta. rw -/body. iIntros (q).
  destruct (Z.ltb_spec (zlen body) LPA_AUTHENTICATE_SERVER_MAX_SIZE) as [Hs1|].
  2: { iIntros "%Hq". subst q. wp_seq. wp_value. wp_value. iExists None, None, resp. iFrame. by iSplit. }
  iIntros "Hq". wp_seq. wp_seq. iApply (wp_raw_bytes with "Hq"). iIntros "Hq".
  set (request := tlv_bytes PREPARE_DOWNLOAD_DGI_TAG body) in *.
  pose proof (tlv_bytes_bound PREPARE_DOWNLOAD_DGI_TAG body) as Hrl. rw -/request in Hrl.
  assert (0 < zlen request) as Hr0.
  { pose proof (tlv_bytes_nonempty PREPARE_DOWNLOAD_DGI_TAG body) as Hne. rw -/request in Hne.
    destruct request; [done|]. rw zlen_cons. zlen_pos. lia. }
  rw (value_some request) //. rw /is_set. cbn [val len]. rw bool_decide_true; [|by eexists].
  rw (_ : (zlen request >? 0) = true); [|lia]. cbn [andb].
  rw /LPA_AUTHENTICATE_SERVER_MAX_SIZE in Hs1.
  iApply (wp_signed with "Hq Ho"); [split; [done|exact Hbuf]|apply tlv_bytes_nonempty|pows; lia|exact Hx|exact Hw|exact Hs|].
  iIntros (resp') "Hq Ho". wp_value. iExists q, (Some request), resp'. destruct (signed_outcome _ _ _ _) as [[ok e] o'].
  cbn [fst snd]. by iFrame.
Qed.

(** *** Cancellation of the session *)

Lemma wp_prepare_cancel tid t n reason g Φ :
  Forall is_byte tid → zlen tid = 16 → strlen (hex_of tid ++ t) = Some n → 0 < n < LPA_TRANSACTION_ID_MAX_SIZE →
  0 <= reason < 256 →
  (∀ l, raw (Some l) (cancel_request tid reason) -∗ Φ (true, Some l) g) -∗
  wp true (_prepareCancelSessionTlv (D := D) (Some (hex_of tid ++ t)) reason) g Φ.
Proof.
  iIntros (Hd Hz Hs Hn Hr) "HΦ". wp_seq. rw Hs. iApply wp_of_option.
  rw (_ : (n >? 0) = true); [|lia]. rw (_ : (n <? LPA_TRANSACTION_ID_MAX_SIZE) = true); [|lia].
  rw (_ : (reason >=? 0) = true); [|lia]. rw (_ : (reason <? 256) = true); [|lia]. cbn [andb].
  wp_seq. rw (_ : 32 = 2 * zlen tid); [|by rw Hz].
  rw hexStr2ByteArray_text; [|done|lia|by rw zlen_fill|rw /int_max; lia]. iApply wp_of_option.
  rw drop_ge; [|rw /zlen in Hz; rw /fill length_replicate; lia]. rw app_nil_r Hz. cbn [default from_option id andb Z.eqb Pos.eqb].
  rw (_ : u8 reason = reason); [|rw /u8; change (2 ^ 8) with 256; by rw Z.mod_small].
  pose proof (tlv_bytes_bound 0x80 tid). pose proof (tlv_bytes_bound 0x81 [reason]) as H1. change (zlen [reason]) with 1 in H1.
  wp_seq. rw -Hz. iApply wp_build; [done|pows; lia|]. iIntros (p) "Hp". wp_seq. iApply (wp_build 0x81 [reason]); [done..|].
  iIntros (q) "Hq". cbn [isNull negb andb]. wp_seq. wp_seq.
  iApply (wp_concat with "Hp Hq"); [change (2 ^ 64) with 18446744073709551616; lia|]. iIntros (r) "Hp Hq Hr". cbn [isNull].
  wp_seq. wp_seq. iApply (wp_wrap with "Hr"); [done|rw zlen_app; pows; lia|]. iIntros (s) "Hr Hs". wp_value.
  wp_seq. iApply (free_spec _ _ (Some _) with "Hr"). wp_value. wp_seq. iApply (free_spec _ _ (Some _) with "Hp").
  wp_seq. iApply (free_spec _ _ (Some _) with "Hq"). wp_value. by iApply "HΦ".
Qed.

Lemma wp_cancel_valid src n g Φ :
  0 < n <= zlen src → Forall is_byte (take (Z.to_nat n) src) →
  Φ (cancel_accepted (take (Z.to_nat n) src)) g -∗
  wp true (_isValidCancelSessionResponse (D := D) (Some src) n) g Φ.
Proof.
  iIntros (Hn Hb) "HΦ". rw /_isValidCancelSessionResponse (_ : (n >? 0) = true); [|lia].
  set (data := take _ src) in *. wp_seq. iApply wp_extractTag16; [lia|done|]. iIntros (p _ r1) "%H1 Hp".
  apply chosen_nf in H1. rw /cancel_accepted -H1. iDestruct (maybe_null with "Hp") as "[%En Hp]". rw En.
  destruct r1 as [v|]; cbn [present negb maybe_tlv mbind option_bind] in *.
  2: { wp_value. iDestruct "Hp" as "_". by rw bool_decide_false; [|by intros [? ?]]. }
  wp_seq. iApply (wp_extractTag_of with "Hp"); [by apply (first_tag_byte CANCEL_SESSION_DGI_TAG data)|done|].
  iIntros (q r2) "%H2 Hp Hq". apply chosen_nf in H2. rw -H2. iDestruct (maybe_null with "Hq") as "[%En2 Hq]". rw En2. wp_seq.
  destruct r2 as [w|]; cbn [present negb maybe_tlv].
  - wp_seq. iApply (tlv_free_spec with "Hq"). wp_value. wp_seq. iApply (tlv_free_spec with "Hp"). wp_value.
    by rw bool_decide_true; [|by eexists].
  - iDestruct "Hq" as "_". wp_value. wp_seq. iApply (tlv_free_spec with "Hp"). wp_value.
    by rw bool_decide_false; [|by intros [? ?]].
Qed.

(** LpaManagerES10b_CancelSession sends the transaction and the reason, for the reasons of the specification only, and
    accepts an answer in which object BF41 holds an object A0; it copies the answer and its size into the structure when it
    fits; what it builds is released. *)
Theorem cancel_session (tid t : list Z) (n reason : Z) (resp : CANCEL_SESSION_RESPONSE) (g : sdk D) x (a : globals D) :
  Forall is_byte tid → zlen tid = 16 → strlen (hex_of tid ++ t) = Some n → 0 < n < LPA_TRANSACTION_ID_MAX_SIZE →
  zlen (cancelSessionResponse_RawData resp) = LPA_CANCEL_SESSION_RESPONSE_BUFFER_SIZE →
  exchanges_in ES10b None (cancel_request tid reason) g x a →
  triple true emp%I (lpaManagerES10b_CancelSession (Some (hex_of tid ++ t)) reason (Some resp)) g
    (λ r g', if bool_decide (reason ∈ LPA_ALLOWED_CANCEL_SESSION_CODE_LIST) then
               ⟦r = ((cancel_outcome resp x).1, Some (cancel_outcome resp x).2) ∧ g' = answered_in ES10b x a g⟧
             else ⟦r = (false, Some resp) ∧ g' = g⟧)%I.
Proof.
  intros Hd Hz Hs Hn Hr Hx. iIntros "_". wp_seq.
  rw (_ : LPA_ALLOWED_CANCEL_SESSION_CODE_LIST_SIZE = zlen LPA_ALLOWED_CANCEL_SESSION_CODE_LIST); [|done].
  rw isElementPresent_ok //. iApply wp_of_option. case_bool_decide as Hin; [|by wp_value].
  assert (0 <= reason < 256) as Hrange.
  { rw /LPA_ALLOWED_CANCEL_SESSION_CODE_LIST in Hin. repeat (apply elem_of_cons in Hin as [->|Hin]; [done|]). by apply elem_of_nil in Hin. }
  pose proof (tlv_bytes_bound 0x80 tid). pose proof (tlv_bytes_bound 0x81 [reason]) as H1. change (zlen [reason]) with 1 in H1.
  pose proof (tlv_bytes_bound CANCEL_SESSION_DGI_TAG (tlv_bytes 0x80 tid ++ tlv_bytes 0x81 [reason])) as H2. rw zlen_app in H2.
  wp_seq. iApply wp_prepare_cancel; [done..|]. iIntros (p) "Hp". cbn [isNull negb andb]. wp_seq. wp_seq.
  iApply (wp_storeData_in with "Hp"); [apply tlv_bytes_nonempty|rw /cancel_request; pows; lia|exact Hx|]. iIntros "Hp".
  pose proof (exchanges_in_fits _ _ _ _ _ _ (room_all _ _) Hx) as [[Hn0 _] Hnb].
  destruct Hx as [_ Hb]. destruct x as [[[sent sw] buf] m]. cbn [fst snd cancel_outcome] in *.
  rw Z.gtb_ltb. destruct (_ && (m <=? _)) eqn:E; cbn [fst snd].
  - apply andb_prop in E as [E Em]. apply andb_prop in E as [_ Em0]. zprop.
    wp_seq. iApply wp_data_of. rw dataBuffer_answered. cbn [fst snd]. wp_seq.
    rw (_ : copy_value (cancelSessionResponse_RawData resp) (Some buf) m = Some (put (cancelSessionResponse_RawData resp) (take (Z.to_nat m) buf))).
    2: { rw /copy_value rd_range_Some; [|lia..]. cbn [mbind option_bind]. rw drop_0. apply wr_range_put. rw zlen_take Hr. lia. }
    iApply wp_of_option. wp_seq. iApply wp_cancel_valid; [lia|done|]. wp_value.
    wp_seq. iApply (free_spec _ _ (Some _) with "Hp"). by wp_value.
  - wp_value. wp_seq. iApply (free_spec _ _ (Some _) with "Hp"). by wp_value.
Qed.
End requests_b.

(** ** Witnesses *)

Definition sample_rat : list Z := [0xBF; 0x43; 0x03; 0xA0; 0x01; 0x00; 0x90; 0x00].

Lemma get_rat_witness :
  ∃ x a, exchanges_in ES10b None rat_request (sample_sdk [sample_rat]) x a ∧
    rat_outcome x = (None, Some [0xBF; 0x43; 0x03; 0xA0; 0x01; 0x00]) ∧
    triple true (raw_arg None None) (lpaManagerES10b_GetRAT (Some None)) (sample_sdk [sample_rat])
      (λ r g', let '(e, data) := rat_outcome x in
         ⟦r.1 = bool_decide (e = None) ∧ g' = reporting_opt e (answered_in ES10b x a (sample_sdk [sample_rat]))⟧ ∗
         raw_arg r.2 data)%I.
Proof.
  assert (∃ x a, exchanges_in ES10b None rat_request (sample_sdk [sample_rat]) x a ∧
    rat_outcome x = (None, Some [0xBF; 0x43; 0x03; 0xA0; 0x01; 0x00])) as (x & a & Hx & Hr).
  { eexists _, _. split; [split; [vm_compute; reflexivity|answer_bytes]|vm_compute; reflexivity]. }
  exists x, a. split; [exact Hx|]. split; [exact Hr|]. exact (get_rat None None _ x a Hx).
Defined.

Definition sample_challenge : list Z :=
  tlv_bytes 0xBF2E (tlv_bytes 0x80 (replicate 16 7)) ++ [0x90; 0x00].

Lemma get_challenge_witness :
  ∃ x a, exchanges_in ES10b None challenge_request (sample_sdk [sample_challenge]) x a ∧
    (challenge_outcome (None, None) x).1 = None ∧
    triple true (owned_pair (AnswerPair None None) (None, None))
      (lpaManagerES10b_GetEuiccChallenge (Some (AnswerPair None None))) (sample_sdk [sample_challenge])
      (λ r g', let '(e, o) := challenge_outcome (None, None) x in
         ⟦r.1 = bool_decide (e = None) ∧ g' = reporting_opt e (answered_in ES10b x a (sample_sdk [sample_challenge]))⟧ ∗
         ∃ resp', ⟦r.2 = Some resp'⟧ ∗ owned_pair resp' o)%I.
Proof.
  assert (∃ x a, exchanges_in ES10b None challenge_request (sample_sdk [sample_challenge]) x a ∧
    challenge_of (take (Z.to_nat x.2) x.1.2) = Some (replicate 16 7) ∧
    (challenge_outcome (None, None) x).1 = None) as (x & a & Hx & Hc & Ho).
  { eexists _, _. split; [split; [vm_compute; reflexivity|answer_bytes]|split; vm_compute; reflexivity]. }
  exists x, a. split; [exact Hx|]. split; [exact Ho|].
  apply (get_challenge (AnswerPair None None) (None, None) _ x a); [exact Hx|].
  rw Hc. intros v [= <-] _. vm_compute. discriminate.
Defined.

Definition sample_info : list Z := tlv_bytes 0xBF20 (tlv_bytes 0x82 [2; 2; 0] ++ tlv_bytes 0xA9 (replicate 8 1)) ++ [0x90; 0x00].

Lemma get_info_witness :
  ∃ x a, exchanges_in ES10b None info_request (sample_sdk [sample_info]) x a ∧
    (info_outcome (None, None) x).1 = None ∧
    triple true (owned_pair (AnswerPair None None) (None, None))
      (lpaManagerES10b_GetEuiccInfo (Some (AnswerPair None None))) (sample_sdk [sample_info])
      (λ r g', let '(e, o) := info_outcome (None, None) x in
         ⟦r.1 = bool_decide (e = None) ∧ g' = reporting_opt e (answered_in ES10b x a (sample_sdk [sample_info]))⟧ ∗
         ∃ resp', ⟦r.2 = Some resp'⟧ ∗ owned_pair resp' o)%I.
Proof.
  assert (∃ x a, exchanges_in ES10b None info_request (sample_sdk [sample_info]) x a ∧
    x.2 = 18 ∧ (info_outcome (None, None) x).1 = None) as (x & a & Hx & Hc & Ho).
  { eexists _, _. split; [split; [vm_compute; reflexivity|answer_bytes]|split; vm_compute; reflexivity]. }
  exists x, a. split; [exact Hx|]. split; [exact Ho|].
  apply (get_info (AnswerPair None None) (None, None) _ x a); [exact Hx|].
  rw Hc. intros _. vm_compute. discriminate.
Defined.

(** An answer of five bytes that is accepted overflows the buffer of its text. *)
Lemma short_answer_overflows :
  lpaManagerES10b_GetEuiccInfo (Some (AnswerPair None None))
    (World ∅ [] (sample_sdk [[0xBF; 0x20; 0x02; 0x81; 0x00; 0x90; 0x00]])) = None.
Proof. vm_compute. reflexivity. Qed.

Definition sample_part (bs : list Z) : data_s := DataS (Some bs) (zlen bs).
Lemma sample_part_ok bs : bs ≠ [] → part_bytes (sample_part bs) bs.
Proof. intros H. exists bs. split_and!; [done..|]. by apply rd_range_all. Qed.

(** smdpSigned2 holds the transaction and the flag of the confirmation code. *)
Definition sample_signed2 : list Z := tlv_bytes 0x30 (tlv_bytes 0x80 [1; 2] ++ tlv_bytes 0x01 [0]).
Definition no_data : data_s := DataS None 0.
Definition sample_server : server_data :=
  ServerData no_data (sample_part [0x30; 1; 5]) (sample_part [0x5F; 0x37; 1; 6]) (sample_part [0x04; 1; 7])
    (sample_part [0x30; 1; 8]) (sample_part [0x30; 1; 9]) (sample_part [0x5F; 0x37; 1; 4]) (sample_part sample_signed2) no_data no_data.

Definition sample_signed (tag t : Z) : list Z := tlv_bytes tag (tlv_bytes t (replicate 12 3)) ++ [0x90; 0x00].

Lemma authenticate_server_witness :
  let body := [0x30; 1; 5] ++ [0x5F; 0x37; 1; 6] ++ [0x04; 1; 7] ++ [0x30; 1; 8] ++ [0x80; 1; 2] in
  let g := sample_sdk [sample_signed 0xBF38 0xA0] in
  ∃ x a, exchanges_in ES10b None (tlv_bytes AUTH_SERVER_DGI_TAG body) g x a ∧
    (signed_outcome LPA_ERROR_INVALID_AUTHENTICATE_SERVER_RESPONSE 0xBF38 (None, None) x).1 = (true, None) ∧
    ∀ c, triple true (raw c [0x80%Z; 1%Z; 2%Z] ∗ owned_pair (AnswerPair None None) (None, None))%I
      (lpaManagerES10b_AuthenticateServer (Some sample_server) c (Some (AnswerPair None None))) g
      (λ r g',
         raw c [0x80; 1; 2] ∗ ∃ resp', ⟦r.2 = Some resp'⟧ ∗
         if zlen (tlv_bytes AUTH_SERVER_DGI_TAG body) <=? LPA_AUTHENTICATE_SERVER_MAX_SIZE then
           let '(ok, e, o) := signed_outcome LPA_ERROR_INVALID_AUTHENTICATE_SERVER_RESPONSE 0xBF38 (None, None) x in
           ⟦r.1 = ok ∧ g' = reporting_opt e (answered_in ES10b x a g)⟧ ∗ owned_pair resp' o
         else ⟦r.1 = false ∧ g' = reporting LPA_ERROR_INSUFFICIENT_BUFFER g⟧ ∗ owned_pair resp' (None, None))%I.
Proof.
  intros body g.
  assert (∃ x a, exchanges_in ES10b None (tlv_bytes AUTH_SERVER_DGI_TAG body) g x a ∧
    is_Some ((first_tag 0xBF38 (take (Z.to_nat x.2) x.1.2)).2 ≫= objects) ∧ x.2 = 17 ∧
    (signed_outcome LPA_ERROR_INVALID_AUTHENTICATE_SERVER_RESPONSE 0xBF38 (None, None) x).1 = (true, None))
    as (x & a & Hx & Hw & Hn & Ho).
  { eexists _, _. split; [split; [vm_compute; reflexivity|answer_bytes]|].
    split; [eexists; vm_compute; reflexivity|split; vm_compute; reflexivity]. }
  exists x, a. split; [exact Hx|]. split; [exact Ho|]. intros c.
  apply (authenticate_server sample_server [0x30; 1; 5] [0x5F; 0x37; 1; 6] [0x04; 1; 7] [0x30; 1; 8] [0x80; 1; 2] c
    (AnswerPair None None) (None, None) g x a); try (by apply sample_part_ok); [done|vm_compute; reflexivity|exact Hx| |].
  - rw /well_nested. destruct (first_tag _ _).2; [exact Hw|done].
  - rw Hn. intros _ _. vm_compute. discriminate.
Defined.

(** AuthenticateServer with a context of three bytes and an answer of the card. *)
Definition authenticated (answer : list Z) : option bool :=
  (λ r, r.1.1) <$> lpaManagerES10b_AuthenticateServer (Some sample_server) (Some 1%positive) (Some (AnswerPair None None))
    (World {[1%positive := BRaw (Some 2%positive) 3; 2%positive := BBytes [0x80; 1; 2]]} []
       (sample_sdk [answer ++ [0x90; 0x00]])).

(** The text of an answer of five bytes overflows its buffer; an object that is
    longer than BF38 is copied from behind the answer; 257 objects count as one. *)
Lemma authenticate_server_limits :
  authenticated (tlv_bytes 0xBF38 (tlv_bytes 0xA0 [])) = None ∧
  authenticated (tlv_bytes 0xBF38 ([0xA0; 0x20] ++ fill 0 13)) = None ∧
  authenticated (tlv_bytes 0xBF38 (tlvs_bytes (replicate 257 (0xA0, [5])))) = Some true ∧
  authenticated (tlv_bytes 0xBF38 (tlvs_bytes (replicate 2 (0xA0, replicate 12 5)))) = Some false.
Proof. vm_compute. split_and!; reflexivity. Qed.

Lemma prepare_download_witness :
  let body := sample_signed2 ++ [0x5F; 0x37; 1; 4] ++ [] ++ [0x30; 1; 9] in
  let g := sample_sdk [sample_signed 0xBF21 0xA1] in
  ∃ x a, exchanges_in ES10b (Some LPA_AUTHENTICATE_SERVER_MAX_SIZE) (tlv_bytes PREPARE_DOWNLOAD_DGI_TAG body) g x a ∧
    signed_outcome LPA_ERROR_INVALID_PREPARE_DOWNLOAD_RESPONSE 0xBF21 (None, None) x = (false, None, (None, None)) ∧
    triple true (owned_pair (AnswerPair None None) (None, None))
      (lpaManagerES10b_PrepareDownload (Some sample_server) (Some [0]) (Some (AnswerPair None None))) g
      (λ r g', ∃ resp', ⟦r.2 = Some resp'⟧ ∗
         if smdp_usable sample_signed2 then
           if zlen body <? LPA_AUTHENTICATE_SERVER_MAX_SIZE then
             let '(ok, e, o) := signed_outcome LPA_ERROR_INVALID_PREPARE_DOWNLOAD_RESPONSE 0xBF21 (None, None) x in
             ⟦r.1 = ok ∧ g' = reporting_opt e (answered_in ES10b x a g)⟧ ∗ owned_pair resp' o
           else ⟦r.1 = false ∧ g' = reporting LPA_ERROR_INSUFFICIENT_BUFFER g⟧ ∗ owned_pair resp' (None, None)
         else ⟦r.1 = false ∧ g' = g⟧ ∗ owned_pair resp' (None, None))%I.
Proof.
  intros body g.
  assert (∃ x a, exchanges_in ES10b (Some LPA_AUTHENTICATE_SERVER_MAX_SIZE) (tlv_bytes PREPARE_DOWNLOAD_DGI_TAG body) g x a ∧
    is_Some ((first_tag 0xBF21 (take (Z.to_nat x.2) x.1.2)).2 ≫= objects) ∧ x.2 = 17 ∧
    signed_outcome LPA_ERROR_INVALID_PREPARE_DOWNLOAD_RESPONSE 0xBF21 (None, None) x = (false, None, (None, None)))
    as (x & a & Hx & Hw & Hn & Ho).
  { eexists _, _. split; [split; [vm_compute; reflexivity|answer_bytes]|].
    split; [eexists; vm_compute; reflexivity|split; vm_compute; reflexivity]. }
  exists x, a. split; [exact Hx|]. split; [exact Ho|].
  apply (prepare_download sample_server sample_signed2 [0x5F; 0x37; 1; 4] [0x30; 1; 9] [0] [] (AnswerPair None None)
    (None, None) g x a); try (by apply sample_part_ok); [answer_bytes| | |vm_compute; reflexivity| |exact Hx| |].
  - rw /well_nested (_ : (first_tag 0x30 sample_signed2).2 = Some (tlv_bytes 0x80 [1; 2] ++ tlv_bytes 0x01 [0])); [|vm_compute; reflexivity].
    eexists. vm_compute. reflexivity.
  - right. exists 0. done.
  - vm_compute. discriminate.
  - rw /well_nested. destruct (first_tag _ _).2; [exact Hw|done].
  - rw Hn. intros _ _. vm_compute. discriminate.
Defined.

Definition sample_cancelled : list Z := tlv_bytes CANCEL_SESSION_DGI_TAG (tlv_bytes 0xA0 [0x30; 0]) ++ [0x90; 0x00].

Lemma cancel_session_witness :
  let resp := CancelSessionResponse false (fill 0 160) 0 in
  let g := sample_sdk [sample_cancelled] in
  ∃ x a, exchanges_in ES10b None (cancel_request (replicate 16 0xAB) 3) g x a ∧
    (cancel_outcome resp x).1 = true ∧
    triple true emp%I (lpaManagerES10b_CancelSession (Some (hex_of (replicate 16 0xAB) ++ [0])) 3 (Some resp)) g
      (λ r g', if bool_decide (3 ∈ LPA_ALLOWED_CANCEL_SESSION_CODE_LIST) then
                 ⟦r = ((cancel_outcome resp x).1, Some (cancel_outcome resp x).2) ∧ g' = answered_in ES10b x a g⟧
               else ⟦r = (false, Some resp) ∧ g' = g⟧)%I.
Proof.
  intros resp g.
  assert (∃ x a, exchanges_in ES10b None (cancel_request (replicate 16 0xAB) 3) g x a ∧ (cancel_outcome resp x).1 = true)
    as (x & a & Hx & Ho).
  { eexists _, _. split; [split; [vm_compute; reflexivity|answer_bytes]|vm_compute; reflexivity]. }
  exists x, a. split; [exact Hx|]. split; [exact Ho|].
  apply (cancel_session (replicate 16 0xAB) [0] 32 3 resp g x a); [answer_bytes|done|vm_compute; reflexivity|done|done|exact Hx].
Defined.
