(* ===== verification/Bpp.v ===== *)
(** * Installation of a bound profile package ([lpa_manager_es10b.c])

    A bound profile package is sent to the eUICC in segments: the header of the
    package with its object BF23, the object A0, the header of A1 and each of
    its objects 88, the object A2 if present, the header of A3 and each of its
    objects 86. The eUICC answers the last segment, or an erroneous one, with a
    profile installation result. The texts formatted for the log are not
    modelled. *)

From stdpp Require Import gmap.
From iris.bi Require Import bi.
From iris.proofmode Require Import proofmode.
From S2P Require Import Prelude CLib Util Base64 StateMonad ApiError ProfileInfo Heap Wp RawData BerTlv TlvWalk.
From S2P Require Import SeMedia Apdu Es10 Es10b.

Definition LPA_PIR_BUFFER_MAX_SIZE : Z := 400.

Record PROFILE_INSTALLATION_RESULT := Pir {
  hasResult : bool;
  profileInstallationResultTlv : answer_pair
}.

(** ** Code *)

Section code.
Context {D : Type}.
Abbreviation M := (M (sdk D)).

(** [t != NULL && t->length > 0] *)
Definition has_value (t : ptr) : M bool :=
  if isNull t then ret false else let* '(_, length, _) := load_BeerTLV t in ret (length >? 0).

(** The loop over the objects of BF27, up to an object A2; elements without an
    object end it. *)
Definition find_A2 (l : ptr) : M ptr :=
  walk_with (λ s, ret (false, s))
    (λ t s, let* '(tag, _, _) := load_BeerTLV t in ret (if tag =? 0xA2 then (false, t) else (true, s))) l None.

Definition _isPIRContainsSuccessResult (pir : PROFILE_INSTALLATION_RESULT) : M bool :=
  let* '(data, n) := raw_bytes (ap_hex (profileInstallationResultTlv pir)) in
  let* '(ptrBerTLV_BF37, _) := berTLV_extractTagUInt16 0xBF37 data n in
  let* filled := has_value ptrBerTLV_BF37 in
  let* '(isOk, ptrBerTLV_BF27, ptrBerTlvList) :=
    (if filled : bool then
       let* ptrBerTLV_BF27 := extractTag16_of 0xBF27 ptrBerTLV_BF37 in
       let* filled := has_value ptrBerTLV_BF27 in
       if filled : bool then
         let* '(l, countTlvTag) := extractList_of ptrBerTLV_BF27 in
         if negb (isNull l) && (countTlvTag >? 0) then
           let* ptrBerTLV_A2 := find_A2 l in
           if isNull ptrBerTLV_A2 then ret (false, ptrBerTLV_BF27, l)
           else
             let* ptrBerTLV_A2_A0 := extractTag16_of 0xA0 ptrBerTLV_A2 in
             let* ptrBerTLV_A2_A1 := extractTag16_of 0xA1 ptrBerTLV_A2 in
             ERASE_BERTLV ptrBerTLV_A2_A0 ;;
             ERASE_BERTLV ptrBerTLV_A2_A1 ;;
             ret (negb (isNull ptrBerTLV_A2_A0), ptrBerTLV_BF27, l)
         else ret (false, ptrBerTLV_BF27, l)
       else ret (false, ptrBerTLV_BF27, None)
     else ret (false, None, None)) in
  ERASE_BERTLV ptrBerTLV_BF27 ;;
  ERASE_BERTLV ptrBerTLV_BF37 ;;
  ERASE_BERTLV_LIST ptrBerTlvList ;;
  ret isOk.

Definition _extract_PIRdataFromEUICCresponse (pir : PROFILE_INSTALLATION_RESULT) (dataFromEUICC : option (list Z))
    (dataFromEUICC_size : Z) : M (bool * PROFILE_INSTALLATION_RESULT) :=
  match dataFromEUICC with
  | Some _ =>
      if dataFromEUICC_size >? 0 then
        let* '(res, stored) :=
          _storeHexBase64StructureRawDataPair (profileInstallationResultTlv pir) dataFromEUICC dataFromEUICC_size
            LPA_PIR_BUFFER_MAX_SIZE in
        ret (res, Pir res stored)
      else fail LPA_ERROR_INVALID_PARAMETER pir
  | None => fail LPA_ERROR_INVALID_PARAMETER pir
  end.

(** The result of the transmission, and the installation result. *)
Definition _sendBoundProfileRawDataOject (rawDataObj : ptr) (pir : PROFILE_INSTALLATION_RESULT)
    : M (bool * PROFILE_INSTALLATION_RESULT) :=
  if isNull rawDataObj then ret (false, pir)
  else
    let* '(sent, apduSW, dataBufferSize) := storeData_in ES10b rawDataObj None in
    if sent : bool then
      if sw_success apduSW then
        if dataBufferSize =? 0 then ret (true, pir)
        else
          let* data := data_of ES10b in
          let* '(extracted, pir) := _extract_PIRdataFromEUICCresponse pir data dataBufferSize in
          if extracted : bool then let* ok := _isPIRContainsSuccessResult pir in ret (ok, pir)
          else ret (false, pir)
      else fail LPA_ERROR_LOCAL_PROFILE_INCORRECT_CARD_RESPONSE pir
    else ret (false, pir).

(** *** Check of the main objects *)

(** The least length of an object, [None] for unknown tags. *)
Definition main_object (tag : Z) : option Z :=
  if tag =? 0xBF23 then Some 1
  else if (tag =? 0xA0) || (tag =? 0xA1) || (tag =? 0xA2) || (tag =? 0xA3) then Some 2
  else None.

(** The state of the loop: [objectA3notReached] and [res]. *)
Definition check_main_object (t : ptr) (s : bool * bool) : M (bool * (bool * bool)) :=
  let '(objectA3notReached, res) := s in
  let* '(tag, length, _) := load_BeerTLV t in
  let res := match main_object tag with Some least => if length <? least then false else res | None => false end in
  let objectA3notReached := if tag =? 0xA3 then false else objectA3notReached in
  ret (objectA3notReached && res, (objectA3notReached, res)).

Definition _checkBoundProfilePackageMainObjects (p_berTLV_BF36 : ptr) : M bool :=
  if isNull p_berTLV_BF36 then ret false
  else
    let* '(l, count) := extractList_of p_berTLV_BF36 in
    let* '(_, res) :=
      (if negb (isNull l) && (count >? 3) then walk_with (λ _, ub) check_main_object l (true, true)
       else ret (true, false)) in
    ERASE_BERTLV_LIST l ;;
    ret res.

(** *** Segments

    Each of the five functions answers its result, the installation result and
    [*cancelForBPPerrors]. *)

(** [encodeLength(length, lenHexStr, sizeof(lenHexStr), &headsize)] *)
Definition encode_length (length : Z) : M (list Z * Z) :=
  let* '(_, lenHexStr, headsize) := of_option (encodeLength length (Some (fill 0 10)) 10 (Some 0)) in
  ret (default [] lenHexStr, default 0 headsize).

Definition _sendInitalizeSecureChannel (p_berTLV_BF36 : ptr) (pir : PROFILE_INSTALLATION_RESULT) (cancel : bool)
    : M (bool * PROFILE_INSTALLATION_RESULT * bool) :=
  if isNull p_berTLV_BF36 then ret (false, pir, cancel)
  else
    let* '(_, length, _) := load_BeerTLV p_berTLV_BF36 in
    let* '(lenHexStr, headsize) := encode_length length in
    let headsize := headsize + 2 in
    let* rest := of_option (rd_range lenHexStr 0 headsize) in
    let* BF36Header := of_option (wr_range ([0xBF; 0x36] ++ fill 0 18) 2 rest) in
    let* rawDataObjectBF36Header := rawDataObject_create (Some BF36Header) headsize in
    let* berTLV_BF23 := extractTag16_of 0xBF23 p_berTLV_BF36 in
    if isNull berTLV_BF23 then ret (false, pir, true)
    else
      let* '(tag, length, value) := tlv_data berTLV_BF23 in
      let* rawDataObjectBF23Data := berTLV_createAndBuildRawDataObject tag length value in
      ERASE_BERTLV berTLV_BF23 ;;
      if isNull rawDataObjectBF23Data then ret (false, pir, cancel)
      else
        let* request := rawDataObject_concat rawDataObjectBF36Header rawDataObjectBF23Data in
        ERASE_RAWDATAOBJECT rawDataObjectBF36Header ;;
        ERASE_RAWDATAOBJECT rawDataObjectBF23Data ;;
        if isNull request then ret (false, pir, cancel)
        else
          let* '(res, pir) := _sendBoundProfileRawDataOject request pir in
          ERASE_RAWDATAOBJECT request ;;
          ret (res, pir, cancel).

(** What _sendConfigureISDP and _sendReplaceSessionKey do with their object:
    its first byte is read, whatever its length. *)
Definition send_sequence_of_87 (t : ptr) (pir : PROFILE_INSTALLATION_RESULT) (cancel : bool)
    : M (bool * PROFILE_INSTALLATION_RESULT * bool * ptr) :=
  let* '(tag, length, value) := tlv_data t in
  let* v := of_option value in
  let* b := of_option v.[0] in
  if b =? 0x87 then
    let* p := berTLV_createAndBuildRawDataObject tag length value in
    if isNull p then ret (false, pir, cancel, p)
    else let* '(res, pir) := _sendBoundProfileRawDataOject p pir in ret (res, pir, cancel, p)
  else ret (false, pir, true, None).

Definition _sendConfigureISDP (berTLV_BF36 : ptr) (pir : PROFILE_INSTALLATION_RESULT) (cancel : bool)
    : M (bool * PROFILE_INSTALLATION_RESULT * bool) :=
  if isNull berTLV_BF36 then ret (false, pir, cancel)
  else
    let* berTLV_A0 := extractTag_of 0xA0 berTLV_BF36 in
    let* '(res, pir, cancel, p) :=
      (if isNull berTLV_A0 then ret (false, pir, true, None) else send_sequence_of_87 berTLV_A0 pir cancel) in
    ERASE_BERTLV berTLV_A0 ;;
    ERASE_RAWDATAOBJECT p ;;
    ret (res, pir, cancel).

Definition _sendReplaceSessionKey (berTLV_BF36 : ptr) (pir : PROFILE_INSTALLATION_RESULT) (cancel : bool)
    : M (bool * PROFILE_INSTALLATION_RESULT * bool) :=
  if isNull berTLV_BF36 then ret (false, pir, cancel)
  else
    let* berTLV_A2 := extractTag_of 0xA2 berTLV_BF36 in
    let* '(res, pir, cancel, p) :=
      (if isNull berTLV_A2 then ret (true, pir, cancel, None) else send_sequence_of_87 berTLV_A2 pir cancel) in
    ERASE_BERTLV berTLV_A2 ;;
    ERASE_RAWDATAOBJECT p ;;
    ret (res, pir, cancel).

(** The loop over the objects of A1; its state is [countTLV88], the result, the
    installation result and [*cancelForBPPerrors]. The object of a segment is
    released before the next, and none is left behind the loop. *)
Definition send_88 (t : ptr) (s : Z * bool * PROFILE_INSTALLATION_RESULT * bool)
    : M (bool * (Z * bool * PROFILE_INSTALLATION_RESULT * bool)) :=
  let '(countTLV88, res, pir, cancel) := s in
  let* '(tag, length, value) := tlv_data t in
  if tag =? 0x88 then
    let countTLV88 := countTLV88 + 1 in
    let* p := berTLV_createAndBuildRawDataObject tag length value in
    if isNull p then setError LPA_ERROR_INSUFFICIENT_BUFFER ;; ret (false, (countTLV88, false, pir, cancel))
    else
      let* '(sent, pir) := _sendBoundProfileRawDataOject p pir in
      ERASE_RAWDATAOBJECT p ;;
      ret (sent, (countTLV88, sent, pir, cancel))
  else ret (false, (countTLV88, false, pir, true)).
Definition no_88 (s : Z * bool * PROFILE_INSTALLATION_RESULT * bool)
    : M (bool * (Z * bool * PROFILE_INSTALLATION_RESULT * bool)) :=
  let '(countTLV88, _, pir, _) := s in ret (false, (countTLV88, false, pir, true)).

Definition _sendStoreMetaData (berTLV_BF36 : ptr) (pir : PROFILE_INSTALLATION_RESULT) (cancel : bool)
    : M (bool * PROFILE_INSTALLATION_RESULT * bool) :=
  if isNull berTLV_BF36 then ret (false, pir, cancel)
  else
    let* berTLV_A1 := extractTag_of 0xA1 berTLV_BF36 in
    if isNull berTLV_A1 then ret (false, pir, true)
    else
      let* '(tag, length, value) := tlv_data berTLV_A1 in
      let* rawDataObjectA1 := berTLV_createAndBuildRawDataObject tag length value in
      let* '(_, headsize) := encode_length length in
      let headsize := headsize + 1 in
      let* rawDataObjectHeader :=
        (if headsize >? 1 then
           let* '(data, _) := raw_bytes rawDataObjectA1 in
           let* data := of_option data in
           let* A1Header := of_option (rd_range data 0 headsize) in
           rawDataObject_create (Some A1Header) headsize
         else ret None) in
      let* '(res, pir, cancel, l) :=
        (if isNull rawDataObjectHeader then ret (false, pir, cancel, None)
         else
           let* '(sent, pir) := _sendBoundProfileRawDataOject rawDataObjectHeader pir in
           if sent : bool then
             let* '(l, count) := extractList_of berTLV_A1 in
             if negb (isNull l) && (count >? 0) then
               let* '(countTLV88, res, pir, cancel) := walk_with no_88 send_88 l (0, false, pir, cancel) in
               ret (res, pir, if countTLV88 <? 1 then true else cancel, l)
             else ret (false, pir, true, l)
           else ret (false, pir, cancel, None)) in
      ERASE_BERTLV berTLV_A1 ;;
      ERASE_BERTLV_LIST l ;;
      ERASE_RAWDATAOBJECT rawDataObjectA1 ;;
      ERASE_RAWDATAOBJECT rawDataObjectHeader ;;
      ret (res, pir, cancel).

(** The header of A3, [None] when no case of the [switch] applies: the array is
    not written then. *)
Definition A3Header (tag length headsize : Z) : option (list Z) :=
  let first := Z.land tag 0x00FF in
  if headsize =? 2 then Some [first; u8 length]
  else if headsize =? 3 then Some [first; 0x81; u8 length]
  else if headsize =? 4 then Some [first; 0x82; Z.land (Z.shiftr length 8) 0xFF; Z.land length 0x00FF]
  else if headsize =? 5 then
    Some [first; 0x83; Z.land (Z.shiftr length 16) 0xFF; Z.land (Z.shiftr length 8) 0x00FF; u8 (Z.land length 0x0000FF)]
  else None.

(** The loop that checks the objects of A3, and its state: [countTLV86] and
    [*cancelForBPPerrors]. *)
Definition check_86 (t : ptr) (s : Z * bool) : M (bool * (Z * bool)) :=
  let '(countTLV86, cancel) := s in
  let* '(tag, _, _) := load_BeerTLV t in
  ret (if tag =? 0x86 then (true, (countTLV86 + 1, cancel)) else (false, (countTLV86 + 1, true))).
Definition check_no_86 (s : Z * bool) : M (bool * (Z * bool)) :=
  let '(countTLV86, _) := s in ret (false, (countTLV86 + 1, true)).

(** The state of the loop that sends them: [countTLV86], the result, the
    installation result, [*cancelForBPPerrors] and [ptrRawData86]. *)
Record state_86 := State86 {
  countTLV86 : Z;
  res_86 : bool;
  pir_86 : PROFILE_INSTALLATION_RESULT;
  cancel_86 : bool;
  ptrRawData86 : ptr
}.

Definition send_86 (countTLVFoundInsideA3 : Z) (t : ptr) (s : state_86) : M (bool * state_86) :=
  let '(State86 count res pir cancel raw86) := s in
  let* '(tag, length, value) := tlv_data t in
  if tag =? 0x86 then
    let* raw86 := berTLV_createAndBuildRawDataObject tag length value in
    if isNull raw86 then
      setError LPA_ERROR_INSUFFICIENT_BUFFER ;; ret (false, State86 count res pir cancel raw86)
    else
      let count := count + 1 in
      let* '(sent, sw, dataBufferSize) := storeData_in ES10b raw86 (Some LPA_PIR_BUFFER_MAX_SIZE) in
      if sent : bool then
        if sw_success sw then
          if dataBufferSize >? 0 then
            let* data := data_of ES10b in
            let* '(extracted, pir) := _extract_PIRdataFromEUICCresponse pir data dataBufferSize in
            let* res :=
              (if extracted : bool then
                 let* ok := _isPIRContainsSuccessResult pir in
                 if ok : bool then ret true
                 else setError LPA_ERROR_FAILED_LOAD_PROFILE_ELEMENTS ;; ret res
               else ret res) in
            if negb (count =? countTLVFoundInsideA3) then ret (false, State86 count res pir cancel raw86)
            else ERASE_RAWDATAOBJECT raw86 ;; ret (true, State86 count res pir cancel None)
          else ERASE_RAWDATAOBJECT raw86 ;; ret (true, State86 count res pir cancel None)
        else setError LPA_ERROR_INVALID_SW ;; ret (false, State86 count res pir cancel raw86)
      else setError LPA_ERROR_FAILED_LOAD_BPP ;; ret (false, State86 count res pir cancel raw86)
  else ret (false, State86 count res pir true raw86).
Definition no_86 (s : state_86) : M (bool * state_86) :=
  let '(State86 count res pir _ raw86) := s in ret (false, State86 count res pir true raw86).

Definition _loadProfileElements (berTLV_BF36 : ptr) (pir : PROFILE_INSTALLATION_RESULT) (cancel : bool)
    : M (bool * PROFILE_INSTALLATION_RESULT * bool) :=
  if isNull berTLV_BF36 then ret (false, pir, cancel)
  else
    let* berTLV_A3 := extractTag_of 0xA3 berTLV_BF36 in
    if isNull berTLV_A3 then ret (false, pir, true)
    else
      let* '(tag, length, _) := load_BeerTLV berTLV_A3 in
      let* '(_, headsize) := encode_length length in
      let headsize := headsize + 1 in
      let* rawDataObjectHeader :=
        (if headsize >? 1 then
           let* header := of_option (A3Header tag length headsize) in rawDataObject_create (Some header) headsize
         else ret None) in
      let* '(res, pir, cancel, berTLV_A3, rawDataObjectHeader) :=
        (if isNull rawDataObjectHeader then ret (false, pir, cancel, berTLV_A3, rawDataObjectHeader)
         else
           let* '(sent, pir) := _sendBoundProfileRawDataOject rawDataObjectHeader pir in
           if sent : bool then
             ERASE_RAWDATAOBJECT rawDataObjectHeader ;;
             let* '(l, countTLVFoundInsideA3) := extractList_of berTLV_A3 in
             ERASE_BERTLV berTLV_A3 ;;
             let* '(res, pir, cancel) :=
               (if negb (isNull l) && (countTLVFoundInsideA3 >? 0) then
                  let* '(count, cancel) := walk_with check_no_86 check_86 l (0, cancel) in
                  let* '(State86 count res pir cancel raw86) :=
                    (if cancel : bool then ret (State86 count false pir cancel None)
                     else walk_with no_86 (send_86 countTLVFoundInsideA3) l (State86 0 false pir cancel None)) in
                  ERASE_RAWDATAOBJECT raw86 ;;
                  ret (res, pir, if count <? 1 then true else cancel)
                else ret (false, pir, true)) in
             ERASE_BERTLV_LIST l ;;
             ret (res, pir, cancel, None, None)
           else ret (false, pir, cancel, berTLV_A3, rawDataObjectHeader)) in
      ERASE_BERTLV berTLV_A3 ;;
      ERASE_RAWDATAOBJECT rawDataObjectHeader ;;
      ret (res, pir, cancel).

(** *** The whole package *)

(** Steps 03 to 06: the next step is taken when the segment was sent and the
    eUICC has not answered a result. *)
Definition segment_step (failed : LPA_API_ERROR) (r : bool * PROFILE_INSTALLATION_RESULT * bool)
    (next : PROFILE_INSTALLATION_RESULT → bool → M (bool * PROFILE_INSTALLATION_RESULT * bool))
    : M (bool * PROFILE_INSTALLATION_RESULT * bool) :=
  let '(sent, pir, cancel) := r in
  if sent : bool then
    if hasResult pir then setError failed ;; ret (false, pir, cancel) else next pir cancel
  else
    setError (if cancel : bool then LPA_ERROR_INVALID_BPP_DATA else failed) ;;
    ret (false, pir, cancel).

(** Step 07. *)
Definition last_step (r : bool * PROFILE_INSTALLATION_RESULT * bool) : M (bool * PROFILE_INSTALLATION_RESULT * bool) :=
  let '(sent, pir, cancel) := r in
  if sent : bool then
    (if negb (hasResult pir) || isNull (ap_hex (profileInstallationResultTlv pir))
     then setError LPA_ERROR_FAILED_LOAD_PROFILE_ELEMENTS
     else
       let* ok := _isPIRContainsSuccessResult pir in
       if ok : bool then ret tt else setError LPA_ERROR_FAILED_LOAD_PROFILE_ELEMENTS) ;;
    ret (true, pir, cancel)
  else
    setError (if cancel : bool then LPA_ERROR_INVALID_BPP_DATA else LPA_ERROR_FAILED_LOAD_PROFILE_ELEMENTS) ;;
    ret (false, pir, cancel).

Definition load_package (boundProfilePackage : data_s) (pir : PROFILE_INSTALLATION_RESULT)
    : M (bool * PROFILE_INSTALLATION_RESULT * bool) :=
  if is_set boundProfilePackage then
    let* '(bf36, _) := berTLV_extractTagUInt16 0xBF36 (val boundProfilePackage) (len boundProfilePackage) in
    let* filled := has_value bf36 in
    let* r :=
      (if filled : bool then
         let* checked := _checkBoundProfilePackageMainObjects bf36 in
         if checked : bool then
           let* r := _sendInitalizeSecureChannel bf36 pir false in
           segment_step LPA_ERROR_FAILED_INITIAL_SECURITY_CHANNEL r (λ pir cancel,
           let* r := _sendConfigureISDP bf36 pir cancel in
           segment_step LPA_ERROR_FAILED_CONFIGURE_ISDP r (λ pir cancel,
           let* r := _sendStoreMetaData bf36 pir cancel in
           segment_step LPA_ERROR_FAILED_STORE_META_DATA r (λ pir cancel,
           let* r := _sendReplaceSessionKey bf36 pir cancel in
           segment_step LPA_ERROR_FAILED_REPLACE_SESSION_KEY r (λ pir cancel,
           let* r := _loadProfileElements bf36 pir cancel in last_step r))))
         else setError LPA_ERROR_INVALID_BPP_DATA ;; ret (false, pir, true)
       else setError LPA_ERROR_INVALID_BPP_DATA ;; ret (false, pir, true)) in
    ERASE_BERTLV bf36 ;;
    ret r
  else setError LPA_ERROR_FAILED_LOAD_BPP ;; ret (false, pir, false).

Definition lpaManagerES10b_LoadBoundProfilePackage (p_serverData : option server_data)
    (pir : option PROFILE_INSTALLATION_RESULT) : M (bool * option PROFILE_INSTALLATION_RESULT * bool) :=
  match p_serverData, pir with
  | Some sd, Some pir =>
      let* '(res, pir, cancel) := load_package (_boundProfilePackage sd) pir in ret (res, Some pir, cancel)
  | _, _ => setError LPA_ERROR_INVALID_PARAMETER ;; ret (false, pir, false)
  end.
End code.

(** ** Reference

    The segments and the decisions, without the heap: programs on the state of
    the library that end when an answer is not made of bytes, or has a size
    for which the conversion to base 64 overflows. *)

Definition pir_value : Type := bool * pair_value.

(** The result of an installation: successful, when the first object A2 inside
    BF37 and BF27 holds an object A0. *)
Definition pir_success (hex : list Z) : option bool :=
  if bool_decide (Forall is_byte hex) then
    match (first_tag 0xBF37 hex).2 with
    | Some (b :: v) =>
        match (first_tag 0xBF27 (b :: v)).2 with
        | Some (c :: w) =>
            tvs ← objects (c :: w);
            Some (if 0 <? zlen tvs mod 256 then
                    match head (filter (λ tv, tv.1 = 0xA2) tvs) with
                    | Some (_, u) => bool_decide (is_Some (first_tag 0xA0 u).2)
                    | None => false
                    end
                  else false)
        | _ => Some false
        end
    | _ => Some false
    end
  else None.

(** An answer becomes the installation result. *)
Definition new_pir (data : list Z) (pv : pir_value) : option (option LPA_API_ERROR * pir_value) :=
  if (zlen data <=? LPA_PIR_BUFFER_MAX_SIZE) && bool_decide (text_size (zlen data) = text_room (zlen data)) then None
  else
    let e := store_verdict LPA_PIR_BUFFER_MAX_SIZE data in
    Some (e, (bool_decide (e = None), stored LPA_PIR_BUFFER_MAX_SIZE data pv.2)).

Definition tlv_header (tag n : Z) : list Z := tag_bytes tag ++ ber_length n.

Fixpoint check_objects (tvs : list (Z * list Z)) : bool :=
  match tvs with
  | [] => true
  | (t, w) :: tvs =>
      match main_object t with
      | Some least => if zlen w <? least then false else if t =? 0xA3 then true else check_objects tvs
      | None => false
      end
  end.
Definition package_ok (v : list Z) : option bool :=
  tvs ← objects v; Some ((3 <? zlen tvs mod 256) && check_objects tvs).

Section reference.
Context {D : Type}.
Abbreviation R := (ST (sdk D)).

Definition report (e : LPA_API_ERROR) : R unit := modifies (reporting e).

Definition exchange_b (room : option Z) (request : list Z) : R (bool * Z * list Z) := λ g,
  '(x, a) ← ask request (dataBuffer ES10b g) (room_of ES10b room g) (apdu g);
  let data := take (Z.to_nat x.2) x.1.2 in
  if bool_decide (room_ok ES10b room g) && bool_decide (Forall is_byte data) then Some ((x.1.1, data), answered_in ES10b x a g) else None.

Definition send_segment (segment : list Z) (pv : pir_value) : R (bool * pir_value) :=
  '(sent, sw, data) ← exchange_b None segment;
  if (sent : bool) then
    if sw_success sw then
      match data with
      | [] => mret (true, pv)
      | _ => '(e, pv) ← opt (new_pir data pv);
             match e with
             | Some e => _ ← report e; mret (false, pv)
             | None => ok ← opt (pir_success data); mret (ok, pv)
             end
      end
    else _ ← report LPA_ERROR_LOCAL_PROFILE_INCORRECT_CARD_RESPONSE; mret (false, pv)
  else mret (false, pv).

(** What the steps answer: whether the next one is taken, the installation
    result, and whether the session is to be cancelled. *)
Definition step : Type := bool * pir_value * bool.

Definition initialise_channel (v : list Z) (pv : pir_value) : R step :=
  match (first_tag 0xBF23 v).2 with
  | Some w => '(ok, pv) ← send_segment (tlv_header 0xBF36 (zlen v) ++ tlv_bytes 0xBF23 w) pv; mret (ok, pv, false)
  | None => mret (false, pv, true)
  end.

Definition sequence_of_87 (mandatory : bool) (tag : Z) (v : list Z) (pv : pir_value) : R step :=
  match (first_tag tag v).2 with
  | Some w =>
      b ← opt w.[0];
      if b =? 0x87 then '(ok, pv) ← send_segment (tlv_bytes tag w) pv; mret (ok, pv, false)
      else mret (false, pv, true)
  | None => mret (negb mandatory, pv, mandatory)
  end.

Fixpoint segments_88 (tvs : list (Z * list Z)) (pv : pir_value) : R step :=
  match tvs with
  | [] => mret (true, pv, false)
  | (t, w) :: tvs =>
      if t =? 0x88 then
        '(ok, pv) ← send_segment (tlv_bytes 0x88 w) pv;
        if (ok : bool) then segments_88 tvs pv else mret (false, pv, false)
      else mret (false, pv, true)
  end.

Definition store_metadata (v : list Z) (pv : pir_value) : R step :=
  match (first_tag 0xA1 v).2 with
  | Some [] => mret (false, pv, false)
  | Some w =>
      '(ok, pv) ← send_segment (tlv_header 0xA1 (zlen w)) pv;
      if (ok : bool) then
        tvs ← opt (objects w);
        if 0 <? zlen tvs mod 256 then segments_88 tvs pv else mret (false, pv, true)
      else mret (false, pv, false)
  | None => mret (false, pv, true)
  end.

(** The segments 86: after a result, only a segment that is the [n]th is
    followed by others. *)
Fixpoint segments_86 (n k : Z) (tvs : list (Z * list Z)) (res : bool) (pv : pir_value) : R (bool * pir_value) :=
  match tvs with
  | [] => mret (res, pv)
  | (t, w) :: tvs =>
      '(sent, sw, data) ← exchange_b (Some LPA_PIR_BUFFER_MAX_SIZE) (tlv_bytes 0x86 w);
      if (sent : bool) then
        if sw_success sw then
          match data with
          | [] => segments_86 n (k + 1) tvs res pv
          | _ =>
              '(e, pv) ← opt (new_pir data pv);
              res ← match e with
                    | Some e => _ ← report e; mret res
                    | None => ok ← opt (pir_success data);
                              if (ok : bool) then mret true
                              else _ ← report LPA_ERROR_FAILED_LOAD_PROFILE_ELEMENTS; mret res
                    end;
              if k + 1 =? n then segments_86 n (k + 1) tvs res pv else mret (res, pv)
          end
        else _ ← report LPA_ERROR_INVALID_SW; mret (res, pv)
      else _ ← report LPA_ERROR_FAILED_LOAD_BPP; mret (res, pv)
  end.

Definition load_elements (v : list Z) (pv : pir_value) : R step :=
  match (first_tag 0xA3 v).2 with
  | Some [] => mret (false, pv, false)
  | Some w =>
      '(ok, pv) ← send_segment (tlv_header 0xA3 (zlen w)) pv;
      if (ok : bool) then
        tvs ← opt (objects w);
        if (0 <? zlen tvs mod 256) && forallb (λ tv, tv.1 =? 0x86) tvs then
          '(res, pv) ← segments_86 (zlen tvs mod 256) 0 tvs false pv; mret (res, pv, false)
        else mret (false, pv, true)
      else mret (false, pv, false)
  | None => mret (false, pv, true)
  end.

(** The order of the steps, and the errors they are reported with. *)
Definition then_step (failed : LPA_API_ERROR) (r : R step) (next : pir_value → R step) : R step :=
  '(sent, pv, cancel) ← r;
  if (sent : bool) then
    if pv.1 : bool then _ ← report failed; mret (false, pv, cancel) else next pv
  else _ ← report (if (cancel : bool) then LPA_ERROR_INVALID_BPP_DATA else failed); mret (false, pv, cancel).

Definition conclude (r : R step) : R step :=
  '(sent, pv, cancel) ← r;
  if (sent : bool) then
    ok ← match pv with
         | (true, (Some hex, _)) => opt (pir_success hex)
         | _ => mret false
         end;
    _ ← (if (ok : bool) then mret tt else report LPA_ERROR_FAILED_LOAD_PROFILE_ELEMENTS);
    mret (true, pv, cancel)
  else
    _ ← report (if (cancel : bool) then LPA_ERROR_INVALID_BPP_DATA else LPA_ERROR_FAILED_LOAD_PROFILE_ELEMENTS);
    mret (false, pv, cancel).

Definition install (package : list Z) (pv : pir_value) : R step :=
  let invalid := _ ← report LPA_ERROR_INVALID_BPP_DATA; mret (false, pv, true) in
  match (first_tag 0xBF36 package).2 with
  | Some (b :: v) =>
      let v := b :: v in
      ok ← opt (package_ok v);
      if (ok : bool) then
        then_step LPA_ERROR_FAILED_INITIAL_SECURITY_CHANNEL (initialise_channel v pv) (λ pv,
        then_step LPA_ERROR_FAILED_CONFIGURE_ISDP (sequence_of_87 true 0xA0 v pv) (λ pv,
        then_step LPA_ERROR_FAILED_STORE_META_DATA (store_metadata v pv) (λ pv,
        then_step LPA_ERROR_FAILED_REPLACE_SESSION_KEY (sequence_of_87 false 0xA2 v pv) (λ pv,
        conclude (load_elements v pv)))))
      else invalid
  | _ => invalid
  end.
End reference.

(** ** Proofs *)

Section proofs.
Context {D : Type}.
Implicit Types (g : sdk D).

Definition owned_pir (pir : PROFILE_INSTALLATION_RESULT) (pv : pir_value) : heapProp :=
  (⟦hasResult pir = pv.1⟧ ∗ owned_pair (profileInstallationResultTlv pir) pv.2)%I.

Lemma wp_exchange_b room p request g sent sw data g' Φ :
  request ≠ [] → zlen request < 2 ^ 32 → exchange_b room request g = Some ((sent, sw, data), g') →
  raw p request -∗
  (raw p request -∗ ⟦data = take (Z.to_nat (zlen data)) (dataBuffer ES10b g') ∧
     zlen data <= zlen (dataBuffer ES10b g') ∧ Forall is_byte data⟧ -∗ Φ (sent, sw, zlen data) g') -∗
  wp true (storeData_in ES10b p room) g Φ.
Proof.
  iIntros (Hne Hl Hx) "Hp HΦ". rw /exchange_b in Hx. destruct (ask _ _ _ _) as [[x a]|] eqn:Ha; [|done].
  cbn [mbind option_bind] in Hx. destruct (_ && _) eqn:E; [|done]. apply andb_prop in E as [E1 E2].
  apply bool_decide_eq_true in E1, E2. destruct x as [[[sent' sw'] buf] n]. cbn [fst snd] in *. injection Hx as <- <- <- <-.
  assert (exchanges_in ES10b room request g (sent', sw', buf, n) a) as Hx by by split.
  pose proof (exchanges_in_fits _ _ _ _ _ _ E1 Hx) as [[Hn0 _] Hn]. cbn [fst snd] in *.
  assert (zlen (take (Z.to_nat n) buf) = n) as Hz by (rw zlen_take; lia).
  iApply (wp_storeData_in with "Hp"); [done..|]. iIntros "Hp". rw Hz. cbn [fst snd].
  iApply ("HΦ" with "Hp"). by iPureIntro.
Qed.
(** *** The installation result *)

Lemma wp_has_value p tag r g Φ :
  maybe_tlv p tag r -∗ (maybe_tlv p tag r -∗ Φ (match r with Some (_ :: _) => true | _ => false end) g) -∗
  wp true (has_value (D := D) p) g Φ.
Proof.
  iIntros "Hp HΦ". rw /has_value. destruct r as [v|]; cbn [maybe_tlv].
  - iDestruct "Hp" as (l d) "(-> & Hl & Hd)". cbn [isNull]. wp_seq. iApply (wp_load_tlv with "Hl"). iIntros "Hl". wp_value.
    rw (_ : (zlen v >? 0) = match v with _ :: _ => true | _ => false end).
    2: { destruct v as [|b v]; [done|]. rw zlen_cons. zlen_pos. lia. }
    iApply "HΦ". iExists l, d. by iFrame.
  - iDestruct "Hp" as %->. wp_value. by iApply "HΦ".
Qed.

(** The search in a list: the object that is found is borrowed from it. *)
Definition A2_of (tvs : list (Z * list Z)) : option (Z * list Z) := head (filter (λ tv, tv.1 = 0xA2) tvs).
Definition found_A2 (l : ptr) (tvs : list (Z * list Z)) (i : Z) (p : ptr) : heapProp :=
  match A2_of tvs with
  | Some (_, u) => (⟦isNull p = false⟧ ∗ tlv p 0xA2 u ∗ (tlv p 0xA2 u -∗ tlv_seg l i tvs None))%I
  | None => (⟦p = None⟧ ∗ tlv_seg l i tvs None)%I
  end.

Lemma find_A2_loop tvs : ∀ fuel l i g,
  (length tvs <= fuel)%nat →
  tlv_seg l i tvs None ⊢
  wp true (walk_loop (G := sdk D) fuel (λ s, ret (false, s))
    (λ t s, let* '(tag, _, _) := load_BeerTLV t in ret (if tag =? 0xA2 then (false, t) else (true, s))) l None) g
    (λ p g', ⟦g' = g⟧ ∗ found_A2 l tvs i p)%I.
Proof.
  induction tvs as [|[t v] tvs IH]; iIntros (fuel l i g Hf) "Hl"; cbn [tlv_seg length] in *.
  - iDestruct "Hl" as %->. destruct fuel; cbn [walk_loop]; wp_value; by iSplit.
  - iDestruct "Hl" as (l0 b n) "(-> & Hl & Hb & Hs)". destruct fuel as [|fuel]; [lia|]. cbn [walk_loop].
    wp_seq. iApply (wp_load_list with "Hl"). iIntros "Hl". cbn [isNull]. wp_seq.
    iDestruct "Hb" as (lb d) "(%Eb & Hb & Hd)". injection Eb as <-.
    wp_seq. iApply (wp_load_tlv with "Hb"). iIntros "Hb". wp_value.
    iAssert (tlv (Some b) t v) with "[Hb Hd]" as "Hb"; [iExists b, d; by iFrame|].
    rw /found_A2 /A2_of.
    destruct (Z.eqb_spec t 0xA2) as [->|Hne].
    + rw filter_cons_True; [|done]. cbn [head]. wp_value. iSplit; [done|]. iFrame "Hb". iSplit; [done|]. iIntros "Hb".
      iExists l0, b, n. by iFrame.
    + rw filter_cons_False; [|done]. wp_seq. iApply (wp_load_list with "Hl"). iIntros "Hl".
      iApply (wp_wand with "[Hs]"); [iApply (IH with "Hs"); lia|]. iIntros (p g') "[-> Hp]". iSplit; [done|].
      rw /found_A2 /A2_of. destruct (head _) as [[t' u]|].
      * iDestruct "Hp" as "(Hn & Hu & Hback)". iFrame "Hn Hu". iIntros "Hu". iExists l0, b, n. iFrame. iSplit; [done|]. by iApply "Hback".
      * iDestruct "Hp" as "[-> Hs]". iSplit; [done|]. iExists l0, b, n. by iFrame.
Qed.

Lemma wp_find_A2 l tvs g Φ :
  tlv_list l tvs -∗ (∀ p, found_A2 l tvs 0 p -∗ Φ p g) -∗ wp true (find_A2 (D := D) l) g Φ.
Proof.
  iIntros "Hl HΦ". iApply (wp_wand _ _ _ (λ p g', ⟦g' = g⟧ ∗ found_A2 l tvs 0 p)%I with "[Hl]").
  - iStopProof. apply (wp_live true (length tvs) (λ n, walk_loop n _ _ l None)).
    + intros h. apply tlv_seg_size.
    + intros n Hn. by apply find_A2_loop.
  - iIntros (p g') "[-> Hp]". by iApply "HΦ".
Qed.

(** What is done inside of BF27. *)
Lemma wp_search_result b27 w tvs g Φ :
  Forall is_byte w → objects w = Some tvs → tlv b27 0xBF27 w -∗
  (∀ l, tlv b27 0xBF27 w -∗ tlv_list l tvs -∗
     Φ (if 0 <? zlen tvs mod 256 then
          match A2_of tvs with Some (_, u) => bool_decide (is_Some (first_tag 0xA0 u).2) | None => false end
        else false, b27, l) g) -∗
  wp true (let* '(l, countTlvTag) := extractList_of (G := sdk D) b27 in
           if negb (isNull l) && (countTlvTag >? 0) then
             let* ptrBerTLV_A2 := find_A2 l in
             if isNull ptrBerTLV_A2 then ret (false, b27, l)
             else
               let* ptrBerTLV_A2_A0 := extractTag16_of 0xA0 ptrBerTLV_A2 in
               let* ptrBerTLV_A2_A1 := extractTag16_of 0xA1 ptrBerTLV_A2 in
               ERASE_BERTLV ptrBerTLV_A2_A0 ;;
               ERASE_BERTLV ptrBerTLV_A2_A1 ;;
               ret (negb (isNull ptrBerTLV_A2_A0), b27, l)
           else ret (false, b27, l)) g Φ.
Proof.
  iIntros (Hw Ho) "Hp HΦ". wp_seq. iApply (wp_extractList_of with "Hp"); [done|exact Ho|].
  iIntros (l c) "Hp [%Hl|[-> Hl]]"; [by destruct Hl|]. iDestruct (tlv_list_null with "Hl") as "[%En Hl]". rw En Z.gtb_ltb.
  destruct (Z.ltb_spec 0 (zlen tvs mod 256)) as [Hc|Hc].
  2: { rw andb_false_r. wp_value. by iApply ("HΦ" with "Hp"). }
  rw bool_decide_false; [|by intros ->]. cbn [negb andb].
  wp_seq. iApply (wp_find_A2 with "Hl"). iIntros (p) "Hf". rw /found_A2 /A2_of.
  pose proof (parse_list_byte _ _ _ Hw Ho) as Hb. destruct (head _) as [[t u]|] eqn:Eh.
  - iDestruct "Hf" as "(%Hn & Hu & Hback)". rw Hn. assert (Forall is_byte u) as Hu.
    { apply head_Some_elem_of, list_elem_of_filter in Eh as [_ Hin].
      exact (proj1 (Forall_forall _ _) Hb _ Hin). }
    wp_seq. iApply (wp_extractTag16_of with "Hu"); [done|]. iIntros (a0 r0) "%H0 Hu H0".
    wp_seq. iApply (wp_extractTag16_of with "Hu"); [done|]. iIntros (a1 r1) "%H1 Hu H1". apply chosen_nf in H0 as ->, H1 as ->.
    iDestruct (maybe_null with "H0") as "[%En0 H0]". wp_seq. iApply (wp_erase with "H0"). wp_seq. iApply (wp_erase with "H1").
    wp_value. rw En0 negb_involutive. rw (_ : present (first_tag 160 u).2 = bool_decide (is_Some (first_tag 160 u).2)).
    2: { destruct (first_tag 160 u).2; symmetry; [by apply bool_decide_eq_true_2; eexists|by apply bool_decide_eq_false_2; intros [? ?]]. }
    iApply ("HΦ" with "Hp"). by iApply "Hback".
  - iDestruct "Hf" as "[-> Hl]". cbn [isNull]. wp_value. by iApply ("HΦ" with "Hp").
Qed.

Lemma wp_pir_success pir hex ok g Φ :
  pir_success hex = Some ok → raw (ap_hex (profileInstallationResultTlv pir)) hex -∗
  (raw (ap_hex (profileInstallationResultTlv pir)) hex -∗ Φ ok g) -∗
  wp true (_isPIRContainsSuccessResult (D := D) pir) g Φ.
Proof.
  iIntros (Hok) "Hp HΦ". rw /pir_success in Hok. case_bool_decide as Hb; [|done].
  wp_seq. iApply (wp_raw_bytes with "Hp"). iIntros "Hp".
  wp_seq. iApply wp_extractTag16_value; [done|]. iIntros (p37 b r37) "%H37 H37". apply chosen_nf in H37. rw -H37 in Hok.
  wp_seq. iApply (wp_has_value with "H37"). iIntros "H37". wp_seq.
  iApply (wp_wand _ _ _ (λ r g', ⟦g' = g⟧ ∗ ∃ p27 l r27 tvs, ⟦r = (ok, p27, l)⟧ ∗ maybe_tlv p37 0xBF37 r37 ∗
    maybe_tlv p27 0xBF27 r27 ∗ tlv_list l tvs)%I with "[H37]").
  2: { iIntros (r g') "(-> & %p27 & %l & %r27 & %tvs & -> & H37 & H27 & Hl)". wp_seq. iApply (wp_erase with "H27").
       wp_seq. iApply (wp_erase with "H37"). wp_seq. iApply (wp_erase_list with "Hl"). wp_value. by iApply "HΦ". }
  destruct r37 as [[|b0 v]|]; [injection Hok as <-; wp_value; iSplit; [done|]; iExists None, None, None, []; by iFrame| |
    injection Hok as <-; wp_value; iSplit; [done|]; iExists None, None, None, []; by iFrame].
  assert (Forall is_byte (b0 :: v)) as Hv by by apply (first_tag_byte 0xBF37 hex).
  wp_seq. iApply (wp_extractTag16_of with "H37"); [done|]. iIntros (p27 r27) "%H27 H37 H27". apply chosen_nf in H27. rw -H27 in Hok.
  wp_seq. iApply (wp_has_value with "H27"). iIntros "H27".
  destruct r27 as [[|c w]|]; [injection Hok as <-; wp_value; iSplit; [done|]; iExists p27, None, (Some []), []; by iFrame| |
    injection Hok as <-; wp_value; iSplit; [done|]; iExists p27, None, None, []; by iFrame].
  assert (Forall is_byte (c :: w)) as Hw by by apply (first_tag_byte 0xBF27 (b0 :: v)).
  destruct (objects (c :: w)) as [tvs|] eqn:Eo; [|done]. injection Hok as <-.
  iApply (wp_search_result with "H27"); [done|exact Eo|]. iIntros (l) "H27 Hl". iSplit; [done|].
  iExists p27, l, (Some (c :: w)), tvs. by iFrame.
Qed.

(** *** Segments *)

Lemma wp_new_pir pir src data pv e pv' g Φ :
  data = take (Z.to_nat (zlen data)) src → zlen data <= zlen src → Forall is_byte data → data ≠ [] →
  new_pir data pv = Some (e, pv') →
  owned_pir pir pv -∗
  (∀ pir', owned_pir pir' pv' -∗ Φ (bool_decide (e = None), pir') (reporting_opt e g)) -∗
  wp true (_extract_PIRdataFromEUICCresponse (D := D) pir (Some src) (zlen data)) g Φ.
Proof.
  iIntros (Hd Hz Hb Hne Hn) "[%Hr Ho] HΦ". rw /new_pir in Hn. destruct (_ && _) eqn:Es; [done|]. injection Hn as <- <-.
  assert (0 < zlen data) by (destruct data; [done|]; rw zlen_cons; zlen_pos; lia).
  rw /_extract_PIRdataFromEUICCresponse (_ : (zlen data >? 0) = true); [|lia]. wp_seq.
  iApply (wp_store_pair _ _ _ data with "Ho"); [lia|done|done|by rw /LPA_PIR_BUFFER_MAX_SIZE| |].
  { intros Hle. apply andb_false_iff in Es as [Es|Es]; [zprop; lia|]. by apply bool_decide_eq_false in Es. }
  iIntros (p) "Ho". wp_value. iApply "HΦ". rw /owned_pir. cbn. by iFrame.
Qed.

Lemma new_pir_hex data pv pv' : new_pir data pv = Some (None, pv') → data ≠ [] → pv'.2.1 = Some data.
Proof.
  rw /new_pir. destruct (_ && _); [done|]. intros [= E <-] Hne. cbn. rw /store_verdict in E. rw /stored.
  destruct (zlen data =? 0) eqn:E0; [done|]. destruct (_ <? zlen data); [done|]. by destruct (_ <? text_room _).
Qed.

(** A result of the installation that was just received. *)
Lemma wp_success pir pv hex ok g Φ :
  pv.2.1 = Some hex → pir_success hex = Some ok → owned_pir pir pv -∗
  (owned_pir pir pv -∗ Φ ok g) -∗ wp true (_isPIRContainsSuccessResult (D := D) pir) g Φ.
Proof.
  iIntros (Hh Hok) "[%Hr [H1 H2]] HΦ". rw Hh. cbn [raw_arg]. iApply (wp_pir_success with "H1"); [done|].
  iIntros "H1". iApply "HΦ". rw /owned_pir /owned_pair Hh. by iFrame.
Qed.

Lemma wp_send_segment p segment pir pv ok pv' g g' Φ :
  segment ≠ [] → zlen segment < 2 ^ 32 → send_segment segment pv g = Some ((ok, pv'), g') →
  raw p segment -∗ owned_pir pir pv -∗
  (∀ pir', raw p segment -∗ owned_pir pir' pv' -∗ Φ (ok, pir') g') -∗
  wp true (_sendBoundProfileRawDataOject (D := D) p pir) g Φ.
Proof.
  iIntros (Hne Hl Hs) "Hp Ho HΦ". destruct p as [p|]; [|by iDestruct "Hp" as (? ?) "[%Hc ?]"]. rw /_sendBoundProfileRawDataOject. cbn [isNull].
  apply ST_bind_Some in Hs as ([[sent sw] data] & g1 & Hx & Hs). wp_seq.
  iApply (wp_exchange_b with "Hp"); [done..|]. iIntros "Hp (%Hd & %Hz & %Hb)".
  destruct sent; [|apply ret_Some in Hs as [[= -> ->] ->]; wp_value; by iApply ("HΦ" with "Hp")].
  destruct (sw_success sw).
  2: { apply ST_bind_Some in Hs as (u & g2 & [= <- <-] & Hs). apply ret_Some in Hs as [[= -> ->] ->].
       iApply wp_fail. by iApply ("HΦ" with "Hp"). }
  destruct data as [|b data].
  { apply ret_Some in Hs as [[= -> ->] ->]. wp_value. by iApply ("HΦ" with "Hp"). }
  rw (_ : (zlen (b :: data) =? 0) = false); [|rw zlen_cons; zlen_pos; lia]. set (ans := b :: data) in *.
  apply ST_bind_Some in Hs as ([e pv1] & g2 & [Hn ->]%opt_Some & Hs).
  wp_seq. iApply wp_data_of. wp_seq. iApply (wp_new_pir with "Ho"); [exact Hd|exact Hz|exact Hb|done|exact Hn|]. iIntros (pir') "Ho".
  destruct e as [e|]; cbn [reporting_opt].
  - rw bool_decide_false //. apply ST_bind_Some in Hs as (u & g2 & [= <- <-] & Hs). apply ret_Some in Hs as [[= -> ->] ->].
    wp_value. by iApply ("HΦ" with "Hp").
  - rw bool_decide_true //. apply ST_bind_Some in Hs as (ok' & g2 & [Hok ->]%opt_Some & Hs). apply ret_Some in Hs as [[= -> ->] ->].
    wp_seq. iApply (wp_success with "Ho"); [by eapply new_pir_hex|exact Hok|]. iIntros "Ho". wp_value. by iApply ("HΦ" with "Hp").
Qed.

Lemma wp_check_package p v ok g Φ :
  Forall is_byte v → package_ok v = Some ok → tlv p 0xBF36 v -∗
  (tlv p 0xBF36 v -∗ Φ ok g) -∗ wp true (_checkBoundProfilePackageMainObjects (D := D) p) g Φ.
Proof.
  iIntros (Hv Hok) "Hp HΦ". rw /package_ok in Hok. destruct (objects v) as [tvs|] eqn:Ho; [|done]. injection Hok as <-.
  iAssert (⟦isNull p = false⟧ ∗ tlv p 0xBF36 v)%I with "[Hp]" as "[%Hn Hp]".
  { iDestruct "Hp" as (l d) "(-> & Hp)". iSplit; [done|]. iExists l, d. by iFrame. }
  rw /_checkBoundProfilePackageMainObjects Hn. wp_seq. iApply (wp_extractList_of with "Hp"); [done|exact Ho|].
  iIntros (l c) "Hp [%Hl|[-> Hl]]"; [by destruct Hl|]. iDestruct (tlv_list_null with "Hl") as "[%En Hl]". rw En Z.gtb_ltb.
  iSpecialize ("HΦ" with "Hp"). wp_seq. destruct (Z.ltb_spec 3 (zlen tvs mod 256)) as [Hc|Hc]; cbn [andb].
  2: { rw andb_false_r. wp_value. wp_seq. iApply (wp_erase_list with "Hl"). by wp_value. }
  rw bool_decide_false; [|by intros ->]. cbn [negb andb].
  iApply (wp_walk _ _ _ tvs
    (λ pre s g', ⟦∃ post, tvs = pre ++ post ∧ g' = g ∧ s = (true, true) ∧ check_objects post = check_objects tvs⟧)%I
    (λ s g', ⟦g' = g ∧ s.2 = check_objects tvs⟧)%I with "Hl").
  - intros pre t w post b s g' Ht. iIntros "[Ht %H]". destruct H as (post' & Ht' & -> & -> & Hc').
    assert (post' = (t, w) :: post) as -> by (apply (app_inv_head pre); congruence).
    iDestruct "Ht" as (lb d) "(%Eb & Hb & Hd)". injection Eb as <-. wp_seq. iApply (wp_load_tlv with "Hb"). iIntros "Hb". wp_value.
    iSplitL; [iExists b, d; by iFrame|]. cbn [check_objects] in Hc'.
    destruct (main_object t) as [least|]; cbn [fst snd]; [|rw andb_false_r; iPureIntro; by rw -Hc'].
    destruct (zlen w <? least); cbn [fst snd]; [rw andb_false_r; iPureIntro; by rw -Hc'|].
    destruct (t =? 163); cbn [andb fst snd]; iPureIntro; [by rw -Hc'|]. exists post. by rw -app_assoc.
  - iIntros (s g') "%H". destruct H as (post & Ht & -> & -> & Hc'). iPureIntro. split; [done|].
    assert (post = []) as -> by (apply (app_inv_head tvs); by rw app_nil_r). by rw -Hc'.
  - iPureIntro. by exists tvs.
  - iIntros (s g') "Hl %Hs". destruct Hs as [-> Hs], s as [a res]. cbn in Hs. subst res. wp_seq. iApply (wp_erase_list with "Hl"). by wp_value.
Qed.

(** *** The steps *)

Definition installed_pir (r : bool * PROFILE_INSTALLATION_RESULT * bool) (st : step) : heapProp :=
  (⟦r.1.1 = st.1.1 ∧ r.2 = st.2⟧ ∗ owned_pir r.1.2 st.1.2)%I.

Lemma tlv_header_bytes tag v : tlv_bytes tag v = tlv_header tag (zlen v) ++ v.
Proof. by rw /tlv_bytes /tlv_header app_assoc. Qed.

Lemma tlv_not_null p tag v : tlv p tag v ⊢ ⟦isNull p = false⟧ ∗ tlv p tag v.
Proof. iIntros "Hp". iDestruct "Hp" as (l d) "(-> & Hp)". iSplit; [done|]. iExists l, d. by iFrame. Qed.

Lemma wp_tlv_length nf p tag v g Φ :
  tlv p tag v -∗ (∀ d, tlv p tag v -∗ Φ (tag, zlen v, d) g) -∗ wp nf (load_BeerTLV (G := sdk D) p) g Φ.
Proof.
  iIntros "Hp HΦ". iDestruct "Hp" as (l d) "(-> & Hl & Hd)". iApply (wp_load_tlv with "Hl"). iIntros "Hl".
  iApply "HΦ". iExists l, d. by iFrame.
Qed.

(** The octets of a length, in an array of ten cells. *)
Lemma wp_encode_length nf n g Φ :
  0 < n < 2 ^ 24 →
  (∀ rest, ⟦zlen rest = 10 ∧ take (length (ber_length n)) rest = ber_length n⟧ -∗ Φ (rest, zlen (ber_length n)) g) -∗
  wp nf (encode_length (D := D) n) g Φ.
Proof.
  iIntros (Hn) "HΦ". wp_seq. change 10 with (zlen (fill 0 10)) at 2. rw encodeLength_ok; [|done|done].
  change (zlen (fill 0 10)) with 10. rw (_ : (zlen (ber_length n) <? 10) = true); [|pose proof (ber_length_bounds n); lia].
  iApply wp_of_option. wp_value. iApply "HΦ". iPureIntro. cbn [default from_option id]. rw take_app_length. split; [|done].
  rw zlen_app zlen_cons zlen_drop. change (zlen (fill 0 10)) with 10. pose proof (ber_length_bounds n). rw /zlen in H |- *. lia.
Qed.

(** An object of the value of another. *)
Lemma wp_build_value tag v g Φ :
  0 <= tag < 2 ^ 16 → zlen v < 2 ^ 24 → (∀ l, raw (Some l) (tlv_bytes tag v) -∗ Φ (Some l) g) -∗
  wp true (berTLV_createAndBuildRawDataObject (G := sdk D) tag (zlen v) (value v)) g Φ.
Proof.
  iIntros (Ht Hv) "HΦ". destruct v as [|b v]; cbn [value]; [by iApply wp_build_empty|by iApply wp_build].
Qed.

Lemma wp_sequence_of_87 t tag w pir pv ok pv' cancel g g' Φ :
  0 <= tag < 2 ^ 16 → zlen w < 2 ^ 24 →
  (b ← opt w.[0];
   if b =? 0x87 then '(ok, pv) ← send_segment (tlv_bytes tag w) pv; mret (ok, pv, false)
   else mret (false, pv, true)) g = Some ((ok, pv', cancel), g') →
  tlv t tag w -∗ owned_pir pir pv -∗
  (∀ pir' p o, tlv t tag w -∗ raw_arg p o -∗ owned_pir pir' pv' -∗ Φ (ok, pir', cancel, p) g') -∗
  wp true (send_sequence_of_87 (D := D) t pir false) g Φ.
Proof.
  iIntros (Ht Hw Hs) "Hp Ho HΦ". apply ST_bind_Some in Hs as (b & g1 & [Hb ->]%opt_Some & Hs).
  destruct w as [|b0 w]; [done|]. injection Hb as ->. pose proof (tlv_bytes_bound tag (b :: w)).
  wp_seq. iApply (wp_tlv_data with "Hp"). iIntros "Hp". wp_seq. iApply wp_of_option. wp_seq. iApply (wp_of_option _ b).
  destruct (b =? 0x87).
  - apply ST_bind_Some in Hs as ([ok1 pv1] & g1 & Hs & Hr). apply ret_Some in Hr as [[= -> -> ->] ->].
    wp_seq. iApply wp_build; [done..|]. iIntros (l) "Hl". cbn [isNull]. wp_seq.
    iApply (wp_send_segment with "Hl Ho"); [apply tlv_bytes_nonempty|pows; lia|exact Hs|]. iIntros (pir') "Hl Ho". wp_value.
    iApply ("HΦ" $! _ _ (Some _) with "Hp Hl Ho").
  - apply ret_Some in Hs as [[= -> -> ->] ->]. wp_value. by iApply ("HΦ" $! pir None None with "Hp").
Qed.

(** The header of the package is not released when BF23 is missing. *)
Definition header_leak (v : list Z) : heapProp :=
  match (first_tag 0xBF23 v).2 with
  | Some _ => emp%I
  | None => (∃ l, raw (Some l) (tlv_header 0xBF36 (zlen v)))%I
  end.

Lemma wp_initialise p v pir pv st g g' Φ :
  Forall is_byte v → 0 < zlen v < 2 ^ 24 → initialise_channel v pv g = Some (st, g') →
  tlv p 0xBF36 v -∗ owned_pir pir pv -∗
  (∀ r, tlv p 0xBF36 v -∗ installed_pir r st -∗ header_leak v -∗ Φ r g') -∗
  wp true (_sendInitalizeSecureChannel (D := D) p pir false) g Φ.
Proof.
  iIntros (Hv Hz Hs) "Hp Ho HΦ". iDestruct (tlv_not_null with "Hp") as "[%Hn Hp]".
  rw /_sendInitalizeSecureChannel Hn. wp_seq. iApply (wp_tlv_length with "Hp"). iIntros (d) "Hp".
  wp_seq. iApply wp_encode_length; [done|]. iIntros (rest) "[%Hrest %Htake]".
  pose proof (ber_length_bounds (zlen v)) as Hb. set (bl := ber_length (zlen v)) in *.
  wp_seq. rw rd_range_Some; [|lia..]. rw drop_0. iApply wp_of_option.
  set (part := take (Z.to_nat (zlen bl + 2)) rest).
  assert (zlen part = zlen bl + 2) as Hp by (rw /part zlen_take; lia).
  wp_seq. rw wr_range_Some; [|lia|rw zlen_app zlen_fill; [|lia]; change (zlen [_; _]) with 2; lia]. iApply wp_of_option.
  assert (part = bl ++ drop (length bl) part) as Epart.
  { etrans; [symmetry; apply (take_drop (length bl))|]. f_equal. rw /part take_take (_ : (length bl `min` _)%nat = length bl) //.
    rw /zlen. lia. }
  wp_seq. iApply (wp_create _ _ (tlv_header 0xBF36 (zlen v))); [pows; lia| |].
  { rw (_ : take (Z.to_nat 2) ([191; 54] ++ fill 0 18) = [191; 54]); [|done]. rw Epart -(app_assoc bl) (app_assoc [191; 54]).
    apply rd_range_prefix_all. rw zlen_app. change (zlen (tag_bytes 48950)) with 2. rw -/bl. lia. }
  iIntros (l) "Hl". wp_seq. iApply (wp_extractTag16_of with "Hp"); [done|]. iIntros (q r) "%Hr Hp Hq". apply chosen_nf in Hr.
  rw /initialise_channel /header_leak -Hr in Hs |- *. iDestruct (maybe_null with "Hq") as "[%Enq Hq]". rw Enq.
  destruct r as [w|]; cbn [present negb maybe_tlv].
  2: { apply ret_Some in Hs as [-> ->]. wp_value. iDestruct "Hq" as "_". iApply ("HΦ" with "Hp [Ho]"); [by iFrame|]. by iExists l. }
  apply ST_bind_Some in Hs as ([ok pv1] & g1 & Hs & Hr'). apply ret_Some in Hr' as [-> ->].
  assert (zlen w < 2 ^ 24) as Hw by by eapply first_tag_bound. pose proof (tlv_bytes_bound 0xBF23 w) as Hlw.
  assert (zlen (tlv_header 0xBF36 (zlen v)) <= 6) as Hhd.
  { rw /tlv_header zlen_app -/bl. change (zlen (tag_bytes 0xBF36)) with 2. lia. }
  wp_seq. iApply (wp_tlv_data with "Hq"). iIntros "Hq". wp_seq.
  iApply wp_build_value; [done|done|]. iIntros (b) "Hb". wp_seq. iApply (wp_erase _ q 0xBF23 (Some w) with "Hq"). cbn [isNull].
  wp_seq. iApply (wp_concat with "Hl Hb"); [change (2 ^ 64) with 18446744073709551616; pows; lia|]. iIntros (c) "Hl Hb Hc".
  wp_seq. iApply (wp_erase_obj with "Hl"). wp_seq. iApply (wp_erase_obj with "Hb"). cbn [isNull]. wp_seq.
  iApply (wp_send_segment with "Hc Ho"); [|rw zlen_app; pows; lia|exact Hs|].
  { intros E%(f_equal zlen). rw zlen_app in E. pose proof (zlen_nonneg (tlv_header 0xBF36 (zlen v))).
    pose proof (tlv_bytes_nonempty 0xBF23 w). change (zlen []) with 0 in E. destruct (tlv_bytes 0xBF23 w); [done|].
    rw zlen_cons in E. zlen_pos. lia. }
  iIntros (pir') "Hc Ho". wp_seq. iApply (wp_erase_obj with "Hc"). wp_value. iApply ("HΦ" with "Hp [Ho]"); [by iFrame|done].
Qed.

Lemma wp_step_of_87 (mandatory : bool) tag p v pir pv st g g' Φ :
  Forall is_byte v → 0 <= tag < 256 → sequence_of_87 mandatory tag v pv g = Some (st, g') →
  tlv p 0xBF36 v -∗ owned_pir pir pv -∗
  (∀ r, tlv p 0xBF36 v -∗ installed_pir r st -∗ Φ r g') -∗
  wp true (let* t := extractTag_of (G := sdk D) tag p in
           let* '(res, pir, cancel, q) :=
             (if isNull t then ret (negb mandatory, pir, mandatory, None) else send_sequence_of_87 t pir false) in
           ERASE_BERTLV t ;;
           ERASE_RAWDATAOBJECT q ;;
           ret (res, pir, cancel)) g Φ.
Proof.
  iIntros (Hv Ht Hs) "Hp Ho HΦ". wp_seq. iApply (wp_extractTag_of with "Hp"); [done..|]. iIntros (q r) "%Hr Hp Hq".
  apply chosen_nf in Hr. rw /sequence_of_87 -Hr in Hs. iDestruct (maybe_null with "Hq") as "[%En Hq]". rw En.
  destruct r as [w|]; cbn [present negb maybe_tlv].
  - destruct st as [[ok pv'] cancel]. wp_seq.
    iApply (wp_sequence_of_87 with "Hq Ho"); [pows; lia|by eapply first_tag_bound|exact Hs|].
    iIntros (pir' x o) "Hq Hx Ho". wp_seq. iApply (wp_erase _ q tag (Some w) with "Hq"). wp_seq. iApply (wp_erase_raw with "Hx").
    wp_value. iApply ("HΦ" with "Hp"). by iFrame.
  - apply ret_Some in Hs as [-> ->]. wp_seq. wp_value. wp_seq. iApply (wp_erase _ q tag None with "Hq"). wp_seq. iApply wp_erase_none.
    wp_value. iApply ("HΦ" with "Hp"). by iFrame.
Qed.

Lemma wp_configure p v pir pv st g g' Φ :
  Forall is_byte v → sequence_of_87 true 0xA0 v pv g = Some (st, g') →
  tlv p 0xBF36 v -∗ owned_pir pir pv -∗ (∀ r, tlv p 0xBF36 v -∗ installed_pir r st -∗ Φ r g') -∗
  wp true (_sendConfigureISDP (D := D) p pir false) g Φ.
Proof.
  iIntros (Hv Hs) "Hp Ho HΦ". iDestruct (tlv_not_null with "Hp") as "[%Hn Hp]". rw /_sendConfigureISDP Hn.
  by iApply (wp_step_of_87 true with "Hp Ho").
Qed.

Lemma wp_replace_key p v pir pv st g g' Φ :
  Forall is_byte v → sequence_of_87 false 0xA2 v pv g = Some (st, g') →
  tlv p 0xBF36 v -∗ owned_pir pir pv -∗ (∀ r, tlv p 0xBF36 v -∗ installed_pir r st -∗ Φ r g') -∗
  wp true (_sendReplaceSessionKey (D := D) p pir false) g Φ.
Proof.
  iIntros (Hv Hs) "Hp Ho HΦ". iDestruct (tlv_not_null with "Hp") as "[%Hn Hp]". rw /_sendReplaceSessionKey Hn.
  by iApply (wp_step_of_87 false with "Hp Ho").
Qed.

(** The loop over the objects of A1: [rest] is what the reference has ahead. *)
Lemma wp_segments_88 l w tvs pir pv st g g' Φ :
  Forall is_byte w → objects w = Some tvs → segments_88 tvs pv g = Some (st, g') → tvs ≠ [] →
  tlv_list l tvs -∗ owned_pir pir pv -∗
  (∀ count res pir' cancel, tlv_list l tvs -∗ ⟦res = st.1.1 ∧ (count <? 1) || cancel = st.2⟧ -∗ owned_pir pir' st.1.2 -∗
     Φ (count, res, pir', cancel) g') -∗
  wp true (walk_with no_88 (send_88 (D := D)) l (0, false, pir, false)) g Φ.
Proof.
  iIntros (Hw Ho Hs Hne) "Hl Ho HΦ". pose proof (parse_list_bound _ _ _ Hw Ho) as Hbd.
  iApply (wp_walk _ _ _ tvs
    (λ pre s g1, ∃ post pv1, ⟦tvs = pre ++ post ∧ segments_88 post pv1 g1 = Some (st, g') ∧ 0 <= s.1.1.1 ∧
        (pre ≠ [] → 0 < s.1.1.1 ∧ s.1.1.2 = true) ∧ s.2 = false⟧ ∗ owned_pir s.1.2 pv1)%I
    (λ s g1, ⟦g1 = g' ∧ s.1.1.2 = st.1.1 ∧ (s.1.1.1 <? 1) || s.2 = st.2⟧ ∗ owned_pir s.1.2 st.1.2)%I with "Hl [Ho]").
  - intros pre t v post b [[[count res] pir1] cancel] g1 Ht. iIntros "[Ht (%post' & %pv1 & %H & Ho)]". cbn [fst snd] in H.
    destruct H as (Ht' & Hs1 & Hc0 & Hc & ->).
    assert (post' = (t, v) :: post) as -> by (apply (app_inv_head pre); congruence). cbn [segments_88] in Hs1.
    assert (0 <= t < 2 ^ 16 ∧ zlen v < 2 ^ 24) as [Htr Hvr].
    { rw Ht in Hbd. apply Forall_app in Hbd as [_ Hbd]. by apply Forall_cons_1 in Hbd as [Hbd _]. }
    wp_seq. iApply (wp_tlv_data with "Ht"). iIntros "Ht". cbn [fst snd]. destruct (Z.eqb_spec t 0x88) as [->|Hne'].
    + apply ST_bind_Some in Hs1 as ([ok pv2] & g2 & Hs1 & Hs2). pose proof (tlv_bytes_bound 0x88 v).
      wp_seq. iApply wp_build_value; [done..|]. iIntros (q) "Hq". cbn [isNull].
      wp_seq. iApply (wp_send_segment with "Hq Ho"); [apply tlv_bytes_nonempty|pows; lia|exact Hs1|]. iIntros (pir2) "Hq Ho".
      wp_seq. iApply (wp_erase_obj with "Hq"). wp_value. iFrame "Ht". cbn [fst snd]. destruct ok.
      * iExists post, pv2. iFrame "Ho". iPureIntro. split_and!; [by rw -app_assoc|done|lia|intros _; split; [lia|done]|done].
      * apply ret_Some in Hs2 as [-> ->]. cbn [fst snd]. iFrame "Ho". iPureIntro. split_and!; [done..|].
        rw (_ : (count + 1 <? 1) = false); [done|lia].
    + apply ret_Some in Hs1 as [-> ->]. wp_value. iFrame "Ht". cbn [fst snd]. iFrame "Ho". iPureIntro. by rw orb_true_r.
  - iIntros ([[[count res] pir1] cancel] g1) "(%post & %pv1 & %H & Ho)". cbn [fst snd] in *.
    destruct H as (Ht & Hs1 & Hc0 & Hc & ->). destruct (Hc Hne) as [Hc1 ->].
    assert (post = []) as -> by (apply (app_inv_head tvs); by rw app_nil_r). apply ret_Some in Hs1 as [-> ->].
    cbn [fst snd]. iFrame "Ho". iPureIntro. split_and!; [done..|]. rw orb_false_r. lia.
  - iExists tvs, pv. iFrame "Ho". by iPureIntro.
  - iIntros ([[[count res] pir1] cancel] g1) "Hl [%H Ho]". cbn [fst snd] in *. destruct H as (-> & Hr & Hc).
    by iApply ("HΦ" with "Hl [//] Ho").
Qed.

(** An empty value has no header. *)
Lemma wp_encode_length_0 nf g Φ : Φ (fill 0 10, 0) g -∗ wp nf (encode_length (D := D) 0) g Φ.
Proof. iIntros "HΦ". wp_seq. iApply wp_of_option. by wp_value. Qed.

Lemma wp_metadata_segments p w pir pv st g g' Φ :
  Forall is_byte w →
  (tvs ← opt (objects w);
   if 0 <? zlen tvs mod 256 then segments_88 tvs pv else mret (false, pv, true)) g = Some (st, g') →
  tlv p 0xA1 w -∗ owned_pir pir pv -∗
  (∀ res pir' cancel l tvs, tlv p 0xA1 w -∗ tlv_list l tvs -∗ ⟦res = st.1.1 ∧ cancel = st.2⟧ -∗ owned_pir pir' st.1.2 -∗
     Φ (res, pir', cancel, l) g') -∗
  wp true (let* '(l, count) := extractList_of (G := sdk D) p in
           if negb (isNull l) && (count >? 0) then
             let* '(countTLV88, res, pir, cancel) := walk_with no_88 send_88 l (0, false, pir, false) in
             ret (res, pir, if countTLV88 <? 1 then true else cancel, l)
           else ret (false, pir, true, l)) g Φ.
Proof.
  iIntros (Hw Hs) "Hp Ho HΦ". apply ST_bind_Some in Hs as (tvs & g1 & [Hob ->]%opt_Some & Hs).
  wp_seq. iApply (wp_extractList_of with "Hp"); [done|exact Hob|]. iIntros (l c) "Hp [%Hl|[-> Hl]]"; [by destruct Hl|].
  iDestruct (tlv_list_null with "Hl") as "[%En Hl]". rw En Z.gtb_ltb. destruct (Z.ltb_spec 0 (zlen tvs mod 256)) as [Hc|Hc].
  - assert (tvs ≠ []) as Hne by (by intros ->). rw bool_decide_false //. cbn [negb andb]. wp_seq.
    iApply (wp_segments_88 with "Hl Ho"); [done|exact Hob|exact Hs|done|]. iIntros (count res pir' cancel) "Hl %Hst Ho".
    wp_value. iApply ("HΦ" with "Hp Hl [] Ho"). iPureIntro. destruct Hst as [Hr Hst]. split; [done|]. by destruct (count <? 1).
  - rw andb_false_r. apply ret_Some in Hs as [-> ->]. wp_value. by iApply ("HΦ" with "Hp Hl [] Ho").
Qed.

Lemma wp_store_metadata p v pir pv st g g' Φ :
  Forall is_byte v → store_metadata v pv g = Some (st, g') →
  tlv p 0xBF36 v -∗ owned_pir pir pv -∗ (∀ r, tlv p 0xBF36 v -∗ installed_pir r st -∗ Φ r g') -∗
  wp true (_sendStoreMetaData (D := D) p pir false) g Φ.
Proof.
  iIntros (Hv Hs) "Hp Ho HΦ". iDestruct (tlv_not_null with "Hp") as "[%Hn Hp]". rw /_sendStoreMetaData Hn.
  wp_seq. iApply (wp_extractTag_of with "Hp"); [done..|]. iIntros (q r) "%Hr Hp Hq".
  apply chosen_nf in Hr. rw /store_metadata -Hr in Hs. iDestruct (maybe_null with "Hq") as "[%En Hq]". rw En.
  destruct r as [w|]; cbn [present negb maybe_tlv].
  2: { apply ret_Some in Hs as [-> ->]. wp_value. iDestruct "Hq" as "_". iApply ("HΦ" with "Hp"). by iFrame. }
  assert (Forall is_byte w) as Hw by by apply (first_tag_byte 0xA1 v).
  assert (zlen w < 2 ^ 24) as Hwl by by apply (first_tag_bound 0xA1 v).
  pose proof (tlv_bytes_bound 0xA1 w). wp_seq. iApply (wp_tlv_data with "Hq"). iIntros "Hq".
  wp_seq. iApply wp_build_value; [done..|]. iIntros (a) "Ha".
  wp_seq. destruct w as [|b0 w].
  { change (zlen []) with 0. iApply wp_encode_length_0. apply ret_Some in Hs as [-> ->]. wp_seq. wp_value. wp_seq. wp_value.
    wp_seq. iApply (wp_erase _ q 0xA1 (Some []) with "Hq"). wp_seq. iApply (wp_erase_list _ None []); [done|].
    wp_seq. iApply (wp_erase_obj with "Ha"). wp_seq. iApply wp_erase_none. wp_value. iApply ("HΦ" with "Hp"). by iFrame. }
  set (w1 := b0 :: w) in *. assert (0 < zlen w1) by (rw /w1 zlen_cons; zlen_pos; lia).
  iApply wp_encode_length; [done|]. iIntros (rest) "_". pose proof (ber_length_bounds (zlen w1)) as Hb.
  rw (_ : (zlen (ber_length (zlen w1)) + 1 >? 1) = true); [|lia].
  wp_seq. wp_seq. iApply (wp_raw_bytes with "Ha"). iIntros "Ha".
  rw (value_some (tlv_bytes 0xA1 w1)); [|rw tlv_header_bytes zlen_app; pose proof (zlen_nonneg (tlv_header 161 (zlen w1))); lia].
  wp_seq. iApply wp_of_option. wp_seq.
  assert (zlen (ber_length (zlen w1)) + 1 = zlen (tlv_header 0xA1 (zlen w1))) as Eh.
  { rw /tlv_header zlen_app. change (zlen (tag_bytes 161)) with 1. lia. }
  assert (rd_range (tlv_bytes 0xA1 w1) 0 (zlen (tlv_header 0xA1 (zlen w1))) = Some (tlv_header 0xA1 (zlen w1))) as Er.
  { rw tlv_header_bytes. by apply rd_range_prefix_all. }
  rw Eh Er. iApply wp_of_option.
  iApply (wp_create _ _ (tlv_header 0xA1 (zlen w1))); [pows; lia|by apply rd_range_all|]. iIntros (h) "Hh". cbn [isNull].
  apply ST_bind_Some in Hs as ([ok pv1] & g1 & Hs1 & Hs). wp_seq.
  iApply (wp_wand _ _ _ (λ r g1, ∃ l tvs, ⟦g1 = g' ∧ r = (st.1.1, r.1.1.2, st.2, l)⟧ ∗ tlv q 0xA1 w1 ∗ raw (Some h) (tlv_header 0xA1 (zlen w1)) ∗
    tlv_list l tvs ∗ owned_pir r.1.1.2 st.1.2)%I with "[Hq Ho Hh]").
  2: { iIntros ([[[res pir'] cancel] l] g2) "(%l' & %tvs & %E & Hq & Hh & Hl & Ho)". destruct E as [-> E]. cbn [fst snd] in *.
       injection E as -> -> <-. wp_seq. iApply (wp_erase _ q 0xA1 (Some w1) with "Hq"). wp_seq. iApply (wp_erase_list with "Hl").
       wp_seq. iApply (wp_erase_obj with "Ha"). wp_seq. iApply (wp_erase_obj with "Hh"). wp_value. iApply ("HΦ" with "Hp"). by iFrame. }
  wp_seq. iApply (wp_send_segment with "Hh Ho"); [by rw /tlv_header|pows; lia|exact Hs1|]. iIntros (pir') "Hh Ho". destruct ok.
  - iApply (wp_metadata_segments with "Hq Ho"); [done|exact Hs|]. iIntros (res pir2 cancel l tvs) "Hq Hl %Hst Ho".
    destruct Hst as [-> ->]. iExists l, tvs. by iFrame.
  - apply ret_Some in Hs as [-> ->]. wp_value. iExists None, []. by iFrame.
Qed.

(** The header written by hand is the one of the encoder. *)
Lemma A3Header_ok n : 0 < n < 2 ^ 24 → A3Header 0xA3 n (zlen (ber_length n) + 1) = Some (tlv_header 0xA3 n).
Proof.
  intros Hn. rw /A3Header /tlv_header ber_length_zlen. change (Z.land 163 255) with 163. change (tag_bytes 163) with [163].
  pows. rw /ber_length /u8. change 255 with (Z.ones 8). rw !Z.land_ones; [|lia..]. rw !Z.shiftr_div_pow2; [|lia..].
  change (2 ^ 8) with 256. change (2 ^ 16) with 65536. rw Z.mod_mod; [|lia].
  repeat (ztest; try (exfalso; lia)); cbn [Z.add Pos.add Pos.succ Z.eqb Pos.eqb app]; repeat f_equal; dlia.
Qed.

(** All objects of A3 are segments. *)
Lemma wp_check_86 l tvs g Φ :
  tvs ≠ [] → tlv_list l tvs -∗
  (∀ count cancel, tlv_list l tvs -∗ ⟦cancel = negb (forallb (λ tv, tv.1 =? 0x86) tvs) ∧ 0 < count⟧ -∗ Φ (count, cancel) g) -∗
  wp true (walk_with check_no_86 (check_86 (D := D)) l (0, false)) g Φ.
Proof.
  iIntros (Hne) "Hl HΦ".
  iApply (wp_walk _ _ _ tvs
    (λ pre s g1, ⟦g1 = g ∧ s.2 = false ∧ 0 <= s.1 ∧ (pre ≠ [] → 0 < s.1) ∧ forallb (λ tv, tv.1 =? 0x86) pre = true⟧)%I
    (λ s g1, ⟦g1 = g ∧ s.2 = negb (forallb (λ tv, tv.1 =? 0x86) tvs) ∧ 0 < s.1⟧)%I with "Hl").
  - intros pre t v post b [count cancel] g1 Ht. iIntros "[Ht %H]". cbn [fst snd] in H. destruct H as (-> & -> & Hc0 & Hc & Hf).
    wp_seq. iApply (wp_tlv_length with "Ht"). iIntros (d) "Ht". wp_value. iFrame "Ht".
    destruct (t =? 134) eqn:E; cbn [fst snd]; iPureIntro.
    + split_and!; [done..|lia|intros _; lia|]. rw forallb_app Hf. cbn. by rw E.
    + split_and!; [done| |lia]. rw Ht forallb_app. cbn. by rw E andb_false_r.
  - iIntros ([count cancel] g1) "%H". cbn [fst snd] in *. destruct H as (-> & -> & Hc0 & Hc & Hf). iPureIntro.
    split_and!; [done| |by apply Hc]. by destruct (forallb _ tvs).
  - by iPureIntro.
  - iIntros ([count cancel] g1) "Hl %H". cbn [fst snd] in H. destruct H as (-> & -> & Hc). by iApply ("HΦ" with "Hl").
Qed.

(** The answer to a segment 86 that is not empty. *)
Lemma wp_result_86 {A} src data res pir pv e pv1 res' g g' (k : PROFILE_INSTALLATION_RESULT → bool → M (sdk D) A) Φ :
  data = take (Z.to_nat (zlen data)) src → zlen data <= zlen src → Forall is_byte data → data ≠ [] →
  new_pir data pv = Some (e, pv1) →
  (match e with
   | Some e => _ ← report e; mret res
   | None => ok ← opt (pir_success data);
             if (ok : bool) then mret true else _ ← report LPA_ERROR_FAILED_LOAD_PROFILE_ELEMENTS; mret res
   end) g = Some (res', g') →
  owned_pir pir pv -∗
  (∀ pir', owned_pir pir' pv1 -∗ wp true (k pir' res') g' Φ) -∗
  wp true (let* '(extracted, pir) := _extract_PIRdataFromEUICCresponse (D := D) pir (Some src) (zlen data) in
           let* res :=
             (if extracted : bool then
                let* ok := _isPIRContainsSuccessResult pir in
                if ok : bool then ret true
                else setError LPA_ERROR_FAILED_LOAD_PROFILE_ELEMENTS ;; ret res
              else ret res) in
           k pir res) g Φ.
Proof.
  iIntros (Hd Hz Hb Hne Hn Hr) "Ho HΦ". wp_seq. iApply (wp_new_pir with "Ho"); [done..|]. iIntros (pir') "Ho". wp_seq.
  destruct e as [e|]; cbn [reporting_opt].
  - rw bool_decide_false //. apply ST_bind_Some in Hr as (u & g2 & [= <- <-] & Hr). apply ret_Some in Hr as [-> ->].
    wp_value. by iApply "HΦ".
  - rw bool_decide_true //. apply ST_bind_Some in Hr as (ok & g2 & [Hok ->]%opt_Some & Hr).
    wp_seq. iApply (wp_success with "Ho"); [by eapply new_pir_hex|exact Hok|]. iIntros "Ho". destruct ok.
    + apply ret_Some in Hr as [-> ->]. wp_value. by iApply "HΦ".
    + apply ST_bind_Some in Hr as (u & g2 & [= <- <-] & Hr). apply ret_Some in Hr as [-> ->].
      wp_seq. iApply wp_setError. wp_value. by iApply "HΦ".
Qed.

Lemma wp_segments_86 n l w tvs pir pv res pv' g g' Φ :
  Forall is_byte w → objects w = Some tvs → forallb (λ tv, tv.1 =? 0x86) tvs = true → tvs ≠ [] →
  segments_86 n 0 tvs false pv g = Some ((res, pv'), g') →
  tlv_list l tvs -∗ owned_pir pir pv -∗
  (∀ count pir' raw86 o, ⟦0 < count⟧ -∗ tlv_list l tvs -∗ owned_pir pir' pv' -∗ raw_arg raw86 o -∗
     Φ (State86 count res pir' false raw86) g') -∗
  wp true (walk_with no_86 (send_86 (D := D) n) l (State86 0 false pir false None)) g Φ.
Proof.
  iIntros (Hw Hob Hall Hne Hs) "Hl Ho HΦ". pose proof (parse_list_bound _ _ _ Hw Hob) as Hbd.
  iApply (wp_walk _ _ _ tvs
    (λ pre s g1, ∃ post pv1, ⟦tvs = pre ++ post ∧ segments_86 n (countTLV86 s) post (res_86 s) pv1 g1 = Some ((res, pv'), g') ∧
        0 <= countTLV86 s ∧ (pre ≠ [] → 0 < countTLV86 s) ∧ cancel_86 s = false ∧ ptrRawData86 s = None⟧ ∗ owned_pir (pir_86 s) pv1)%I
    (λ s g1, ∃ o, ⟦g1 = g' ∧ res_86 s = res ∧ 0 < countTLV86 s ∧ cancel_86 s = false⟧ ∗ owned_pir (pir_86 s) pv' ∗
        raw_arg (ptrRawData86 s) o)%I with "Hl [Ho]").
  - intros pre t v post b [count r pir1 cancel raw86] g1 Ht. iIntros "[Ht (%post' & %pv1 & %H & Ho)]".
    cbn [countTLV86 res_86 cancel_86 ptrRawData86 pir_86] in *. destruct H as (Ht' & Hs1 & Hc0 & Hc & -> & ->).
    assert (post' = (t, v) :: post) as -> by (apply (app_inv_head pre); congruence). cbn [segments_86] in Hs1.
    assert (0 <= t < 2 ^ 16 ∧ zlen v < 2 ^ 24) as [Htr Hvr].
    { rw Ht in Hbd. apply Forall_app in Hbd as [_ Hbd]. by apply Forall_cons_1 in Hbd as [Hbd _]. }
    assert (t = 0x86) as ->.
    { rw Ht forallb_app in Hall. cbn [forallb fst] in Hall. lia. }
    apply ST_bind_Some in Hs1 as ([[sent sw] data] & g2 & Hx & Hs1). pose proof (tlv_bytes_bound 0x86 v).
    wp_seq. iApply (wp_tlv_data with "Ht"). iIntros "Ht". cbn [Z.eqb Pos.eqb].
    wp_seq. iApply wp_build_value; [done..|]. iIntros (q) "Hq". cbn [isNull].
    wp_seq. iApply (wp_exchange_b with "Hq"); [apply tlv_bytes_nonempty|pows; lia|exact Hx|]. iIntros "Hq (%Hd & %Hz & %Hb)".
    destruct sent; [destruct (sw_success sw)|].
    2-3: apply ST_bind_Some in Hs1 as (u & g3 & [= <- <-] & Hs1); apply ret_Some in Hs1 as [[= -> ->] ->];
      wp_seq; iApply wp_setError; wp_value; iFrame "Ht"; iExists (Some _); iFrame; iPureIntro; cbn; split_and!; (done || lia).
    destruct data as [|d0 data].
    { wp_seq. iApply (wp_erase_obj with "Hq"). wp_value. iFrame "Ht". iExists post, pv1. iFrame "Ho". iPureIntro.
      cbn. split_and!; [by rw -app_assoc|done|lia|intros _; lia|done|done]. }
    set (ans := d0 :: data) in *. rw (_ : (zlen ans >? 0) = true); [|rw /ans zlen_cons; zlen_pos; lia].
    apply ST_bind_Some in Hs1 as ([e pv2] & g3 & [Hn ->]%opt_Some & Hs1).
    apply ST_bind_Some in Hs1 as (r2 & g3 & Hr & Hs1). wp_seq. iApply wp_data_of.
    iApply (wp_result_86 with "Ho"); [exact Hd|exact Hz|exact Hb|done|exact Hn|exact Hr|]. iIntros (pir2) "Ho".
    destruct (count + 1 =? n); cbn [negb].
    + wp_seq. iApply (wp_erase_obj with "Hq"). wp_value. iFrame "Ht". iExists post, pv2. iFrame "Ho". iPureIntro.
      cbn. split_and!; [by rw -app_assoc|done|lia|intros _; lia|done|done].
    + apply ret_Some in Hs1 as [[= -> ->] ->]. wp_value. iFrame "Ht". iExists (Some _). iFrame. iPureIntro. cbn. split_and!; (done || lia).
  - iIntros ([count r pir1 cancel raw86] g1) "(%post & %pv1 & %H & Ho)". cbn [countTLV86 res_86 cancel_86 ptrRawData86 pir_86] in *.
    destruct H as (Ht & Hs1 & Hc0 & Hc & -> & ->). assert (post = []) as -> by (apply (app_inv_head tvs); by rw app_nil_r).
    apply ret_Some in Hs1 as [[= -> ->] ->]. iExists None. iFrame "Ho". iPureIntro. split; [|done]. split_and!; [done..|by apply Hc|done].
  - iExists tvs, pv. iFrame "Ho". by iPureIntro.
  - iIntros ([count r pir1 cancel raw86] g1) "Hl (%o & %H & Ho & Hr)". cbn [countTLV86 res_86 cancel_86 ptrRawData86 pir_86] in *.
    destruct H as (-> & -> & Hc & ->). by iApply ("HΦ" with "[//] Hl Ho Hr").
Qed.

Lemma wp_element_segments q w pir pv st g g' Φ :
  Forall is_byte w →
  (tvs ← opt (objects w);
   if (0 <? zlen tvs mod 256) && forallb (λ tv, tv.1 =? 0x86) tvs then
     '(res, pv) ← segments_86 (zlen tvs mod 256) 0 tvs false pv; mret (res, pv, false)
   else mret (false, pv, true)) g = Some (st, g') →
  tlv q 0xA3 w -∗ owned_pir pir pv -∗
  (∀ res pir' cancel, ⟦res = st.1.1 ∧ cancel = st.2⟧ -∗ owned_pir pir' st.1.2 -∗ Φ (res, pir', cancel, None : ptr, None : ptr) g') -∗
  wp true (let* '(l, countTLVFoundInsideA3) := extractList_of (G := sdk D) q in
           ERASE_BERTLV q ;;
           let* '(res, pir, cancel) :=
             (if negb (isNull l) && (countTLVFoundInsideA3 >? 0) then
                let* '(count, cancel) := walk_with check_no_86 check_86 l (0, false) in
                let* '(State86 count res pir cancel raw86) :=
                  (if cancel : bool then ret (State86 count false pir cancel None)
                   else walk_with no_86 (send_86 countTLVFoundInsideA3) l (State86 0 false pir cancel None)) in
                ERASE_RAWDATAOBJECT raw86 ;;
                ret (res, pir, if count <? 1 then true else cancel)
              else ret (false, pir, true)) in
           ERASE_BERTLV_LIST l ;;
           ret (res, pir, cancel, None, None)) g Φ.
Proof.
  iIntros (Hw Hs) "Hq Ho HΦ". apply ST_bind_Some in Hs as (tvs & g1 & [Hob ->]%opt_Some & Hs).
  wp_seq. iApply (wp_extractList_of with "Hq"); [done|exact Hob|]. iIntros (l c) "Hq [%Hl|[-> Hl]]"; [by destruct Hl|].
  iDestruct (tlv_list_null with "Hl") as "[%En Hl]". rw En Z.gtb_ltb. wp_seq. iApply (wp_erase _ q 0xA3 (Some w) with "Hq"). wp_seq.
  iApply (wp_wand _ _ _ (λ r g1, ⟦g1 = g' ∧ r = (st.1.1, r.1.2, st.2)⟧ ∗ tlv_list l tvs ∗ owned_pir r.1.2 st.1.2)%I with "[Hl Ho]").
  2: { iIntros ([[res pir'] cancel] g2) "(%E & Hl & Ho)". destruct E as [-> E]. cbn [fst snd] in *. injection E as -> ->.
       wp_seq. iApply (wp_erase_list with "Hl"). wp_value. by iApply ("HΦ" with "[//] Ho"). }
  destruct (Z.ltb_spec 0 (zlen tvs mod 256)) as [Hc|Hc]; cbn [andb] in Hs.
  2: { rw andb_false_r. apply ret_Some in Hs as [-> ->]. wp_value. by iFrame. }
  assert (tvs ≠ []) as Hne by (by intros ->). rw bool_decide_false //. cbn [negb andb]. wp_seq.
  iApply (wp_check_86 with "Hl"); [done|]. iIntros (count cancel) "Hl %Hcount". destruct Hcount as [-> Hcount].
  destruct (forallb _ tvs) eqn:Ef; cbn [negb].
  - apply ST_bind_Some in Hs as ([res pv'] & g2 & Hs & Hr). apply ret_Some in Hr as [-> ->]. wp_seq.
    iApply (wp_segments_86 with "Hl Ho"); [done|exact Hob|done|done|exact Hs|]. iIntros (count' pir' raw86 o) "%Hc' Hl Ho Hr".
    wp_seq. iApply (wp_erase_raw with "Hr"). wp_value. rw (_ : (count' <? 1) = false); [|lia]. by iFrame.
  - apply ret_Some in Hs as [-> ->]. wp_seq. wp_value. wp_seq. iApply wp_erase_none. wp_value.
    rw (_ : (count <? 1) = false); [|lia]. by iFrame.
Qed.

Lemma wp_load_elements p v pir pv st g g' Φ :
  Forall is_byte v → load_elements v pv g = Some (st, g') →
  tlv p 0xBF36 v -∗ owned_pir pir pv -∗ (∀ r, tlv p 0xBF36 v -∗ installed_pir r st -∗ Φ r g') -∗
  wp true (_loadProfileElements (D := D) p pir false) g Φ.
Proof.
  iIntros (Hv Hs) "Hp Ho HΦ". iDestruct (tlv_not_null with "Hp") as "[%Hn Hp]". rw /_loadProfileElements Hn.
  wp_seq. iApply (wp_extractTag_of with "Hp"); [done..|]. iIntros (q r) "%Hr Hp Hq".
  apply chosen_nf in Hr. rw /load_elements -Hr in Hs. iDestruct (maybe_null with "Hq") as "[%En Hq]". rw En.
  destruct r as [w|]; cbn [present negb maybe_tlv].
  2: { apply ret_Some in Hs as [-> ->]. wp_value. iDestruct "Hq" as "_". iApply ("HΦ" with "Hp"). by iFrame. }
  assert (Forall is_byte w) as Hw by by apply (first_tag_byte 0xA3 v).
  assert (zlen w < 2 ^ 24) as Hwl by by apply (first_tag_bound 0xA3 v).
  wp_seq. iApply (wp_tlv_length with "Hq"). iIntros (d) "Hq". wp_seq. destruct w as [|b0 w].
  { change (zlen []) with 0. iApply wp_encode_length_0. apply ret_Some in Hs as [-> ->]. wp_seq. wp_value. wp_seq. wp_value.
    wp_seq. iApply (wp_erase _ q 0xA3 (Some []) with "Hq"). wp_seq. iApply wp_erase_none. wp_value.
    iApply ("HΦ" with "Hp"). by iFrame. }
  set (w1 := b0 :: w) in *. assert (0 < zlen w1) by (rw /w1 zlen_cons; zlen_pos; lia).
  iApply wp_encode_length; [done|]. iIntros (rest) "_". pose proof (ber_length_bounds (zlen w1)) as Hb.
  rw (_ : (zlen (ber_length (zlen w1)) + 1 >? 1) = true); [|lia]. wp_seq. rw A3Header_ok //. wp_seq. iApply wp_of_option.
  assert (zlen (ber_length (zlen w1)) + 1 = zlen (tlv_header 0xA3 (zlen w1))) as Eh.
  { rw /tlv_header zlen_app. change (zlen (tag_bytes 163)) with 1. lia. }
  iApply (wp_create _ _ (tlv_header 0xA3 (zlen w1))); [pows; lia|by apply rd_range_all|]. iIntros (h) "Hh". cbn [isNull].
  apply ST_bind_Some in Hs as ([ok pv1] & g1 & Hs1 & Hs). wp_seq.
  wp_seq. iApply (wp_send_segment with "Hh Ho"); [by rw /tlv_header|pows; lia|exact Hs1|]. iIntros (pir') "Hh Ho". destruct ok.
  - wp_seq. iApply (wp_erase_obj with "Hh"). iApply (wp_element_segments with "Hq Ho"); [done|exact Hs|].
    iIntros (res pir2 cancel) "%Hst Ho". destruct Hst as [-> ->]. wp_seq. iApply (wp_erase _ None 0 None); [done|].
    wp_seq. iApply wp_erase_none. wp_value. iApply ("HΦ" with "Hp"). by iFrame.
  - apply ret_Some in Hs as [-> ->]. wp_value. wp_seq. iApply (wp_erase _ q 0xA3 (Some w1) with "Hq").
    wp_seq. iApply (wp_erase_obj with "Hh"). wp_value. iApply ("HΦ" with "Hp"). by iFrame.
Qed.
(** *** The composition *)

(** A step that goes on does not ask for the cancellation. *)
Definition quiet (r : ST (sdk D) step) : Prop := ∀ g st g', r g = Some (st, g') → st.1.1 = true → st.2 = false.

Lemma quiet_channel v pv : quiet (initialise_channel v pv).
Proof.
  intros g st g'. rw /initialise_channel. destruct (first_tag _ _).2; intros Hs.
  - apply ST_bind_Some in Hs as ([ok pv1] & g1 & Hs & Hr). by apply ret_Some in Hr as [-> ->].
  - by apply ret_Some in Hs as [-> ->].
Qed.

Lemma quiet_87 mandatory tag v pv : quiet (sequence_of_87 mandatory tag v pv).
Proof.
  intros g st g'. rw /sequence_of_87. destruct (first_tag _ _).2; intros Hs.
  - apply ST_bind_Some in Hs as (b & g1 & _ & Hs). destruct (b =? 0x87); [|by apply ret_Some in Hs as [-> ->]].
    apply ST_bind_Some in Hs as ([ok pv1] & g2 & Hs & Hr). by apply ret_Some in Hr as [-> ->].
  - apply ret_Some in Hs as [-> ->]. by destruct mandatory.
Qed.

Lemma quiet_88 tvs : ∀ pv, quiet (segments_88 tvs pv).
Proof.
  induction tvs as [|[t w] tvs IH]; intros pv g st g' Hs; cbn [segments_88] in Hs.
  - by apply ret_Some in Hs as [-> ->].
  - destruct (t =? 0x88); [|by apply ret_Some in Hs as [-> ->]].
    apply ST_bind_Some in Hs as ([ok pv1] & g1 & _ & Hs). destruct ok; [by apply IH in Hs|by apply ret_Some in Hs as [-> ->]].
Qed.

Lemma quiet_metadata v pv : quiet (store_metadata v pv).
Proof.
  intros g st g'. rw /store_metadata. destruct (first_tag _ _).2 as [[|b w]|]; intros Hs; try by apply ret_Some in Hs as [-> ->].
  apply ST_bind_Some in Hs as ([ok pv1] & g1 & _ & Hs). destruct ok; [|by apply ret_Some in Hs as [-> ->]].
  apply ST_bind_Some in Hs as (tvs & g2 & _ & Hs). destruct (0 <? _); [by apply quiet_88 in Hs|by apply ret_Some in Hs as [-> ->]].
Qed.

(** [m] implements [ref] on the package [p] of the value [v]. *)
Definition implements (p : ptr) (v : list Z)
    (m : PROFILE_INSTALLATION_RESULT → bool → M (sdk D) (bool * PROFILE_INSTALLATION_RESULT * bool))
    (ref : pir_value → ST (sdk D) step) : Prop :=
  ∀ pir pv g st g', ref pv g = Some (st, g') →
    tlv p 0xBF36 v ∗ owned_pir pir pv ⊢ wp true (m pir false) g (λ r g1, ⟦g1 = g'⟧ ∗ tlv p 0xBF36 v ∗ installed_pir r st)%I.

Lemma wp_segment_step p v failed r (ref : ST (sdk D) step) k next st1 g g1 st g' :
  quiet ref → implements p v k next → ref g = Some (st1, g1) → then_step failed ref next g = Some (st, g') →
  tlv p 0xBF36 v ∗ installed_pir r st1 ⊢
  wp true (segment_step failed r k) g1 (λ r g1, ⟦g1 = g'⟧ ∗ tlv p 0xBF36 v ∗ installed_pir r st)%I.
Proof.
  intros Hq Hk Hr Hs. apply ST_bind_Some in Hs as ([[sent pv1] cancel] & g2 & Hr' & Hs). rw Hr in Hr'. injection Hr' as -> ->.
  pose proof (Hq _ _ _ Hr) as Hc. destruct r as [[sent' pir1] cancel'].
  iIntros "(Hp & %Hi & Ho)". cbn [fst snd] in *. destruct Hi as [-> ->]. destruct sent.
  - rw Hc //. iAssert (⟦hasResult pir1 = pv1.1⟧ ∗ owned_pir pir1 pv1)%I with "[Ho]" as "[%Hh Ho]".
    { iDestruct "Ho" as "[%Hh Ho]". by iFrame. }
    cbn [segment_step]. rw Hh. destruct pv1.1; [|iApply Hk; [exact Hs|by iFrame]].
    apply ST_bind_Some in Hs as (u & g3 & [= <- <-] & Hs). apply ret_Some in Hs as [-> ->].
    wp_seq. iApply wp_setError. wp_value. rw Hc //. by iFrame.
  - apply ST_bind_Some in Hs as (u & g3 & [= <- <-] & Hs). apply ret_Some in Hs as [-> ->].
    wp_seq. iApply wp_setError. wp_value. by iFrame.
Qed.

Lemma implements_step p v failed m ref k next :
  implements p v m ref → (∀ pv, quiet (ref pv)) → implements p v k next →
  implements p v (λ pir cancel, let* r := m pir cancel in segment_step failed r k) (λ pv, then_step failed (ref pv) next).
Proof.
  intros Hm Hq Hk pir pv g st g' Hs. pose proof Hs as (st1 & g1 & Hr & _)%ST_bind_Some.
  iIntros "H". wp_seq. iApply (wp_wand with "[H]"); [by iApply Hm|].
  iIntros (r g2) "(-> & H)". by iApply wp_segment_step.
Qed.

Lemma raw_arg_null p o : raw_arg p o ⊢ ⟦isNull p = match o with Some _ => false | None => true end⟧ ∗ raw_arg p o.
Proof.
  iIntros "Hp". destruct o as [bs|]; cbn [raw_arg].
  - destruct p; [by iFrame|]. by iDestruct "Hp" as (? ?) "[%Hc ?]".
  - iDestruct "Hp" as %->. by iSplit.
Qed.

Lemma wp_last_step r p v st1 g1 g st g' (ref : ST (sdk D) step) :
  ref g = Some (st1, g1) → conclude ref g = Some (st, g') →
  tlv p 0xBF36 v ∗ installed_pir r st1 ⊢
  wp true (last_step r) g1 (λ r g1, ⟦g1 = g'⟧ ∗ tlv p 0xBF36 v ∗ installed_pir r st)%I.
Proof.
  intros Hr Hs. apply ST_bind_Some in Hs as ([[sent pv1] cancel] & g2 & Hr' & Hs). rw Hr in Hr'. injection Hr' as -> ->.
  iIntros "(Hp & %Hi & Ho)". destruct r as [[sent' pir1] cancel']. cbn [fst snd] in *. destruct Hi as [-> ->]. destruct sent.
  2: { apply ST_bind_Some in Hs as (u & g3 & [= <- <-] & Hs). apply ret_Some in Hs as [-> ->].
       wp_seq. iApply wp_setError. wp_value. by iFrame. }
  apply ST_bind_Some in Hs as (ok & g3 & Hok & Hs). apply ST_bind_Some in Hs as (u & g4 & He & Hs). apply ret_Some in Hs as [-> ->].
  cbn [last_step]. wp_seq.
  iApply (wp_wand _ _ _ (λ _ g1, ⟦g1 = g4⟧ ∗ owned_pir pir1 pv1)%I with "[Ho]").
  2: { iIntros (_ g5) "[-> Ho]". wp_value. by iFrame. }
  iDestruct "Ho" as "(%Hh & H1 & H2)". destruct pv1 as [has [hex text]]. cbn [fst snd] in *. rw Hh.
  iDestruct (raw_arg_null with "H1") as "[%En H1]". rw En.
  destruct has; cbn [negb orb]; [destruct hex as [hex|]|].
  - apply opt_Some in Hok as [Hok ->]. wp_seq. iApply (wp_success pir1 (true, (Some hex, text)) hex with "[H1 H2]"); [done|exact Hok|by iFrame|].
    iIntros "Ho". destruct ok; [apply ret_Some in He as [-> ->]; wp_value; by iFrame|].
    injection He as <- <-. iApply wp_setError. by iFrame.
  - apply ret_Some in Hok as [-> ->]. injection He as <- <-. iApply wp_setError. by iFrame.
  - apply ret_Some in Hok as [-> ->]. injection He as <- <-. iApply wp_setError. by iFrame.
Qed.

Lemma implements_last p v m ref :
  implements p v m ref →
  implements p v (λ pir cancel, let* r := m pir cancel in last_step r) (λ pv, conclude (ref pv)).
Proof.
  intros Hm pir pv g st g' Hs. pose proof Hs as ([[sent pv1] cancel] & g1 & Hr & _)%ST_bind_Some.
  iIntros "H". wp_seq. iApply (wp_wand with "[H]"); [by iApply Hm|]. iIntros (r g2) "(-> & H)". by iApply wp_last_step.
Qed.

(** The four steps behind the first. *)
Lemma implements_rest p v :
  Forall is_byte v →
  implements p v
    (λ pir cancel,
       let* r := _sendConfigureISDP p pir cancel in
       segment_step LPA_ERROR_FAILED_CONFIGURE_ISDP r (λ pir cancel,
       let* r := _sendStoreMetaData p pir cancel in
       segment_step LPA_ERROR_FAILED_STORE_META_DATA r (λ pir cancel,
       let* r := _sendReplaceSessionKey p pir cancel in
       segment_step LPA_ERROR_FAILED_REPLACE_SESSION_KEY r (λ pir cancel,
       let* r := _loadProfileElements p pir cancel in last_step r))))
    (λ pv,
       then_step LPA_ERROR_FAILED_CONFIGURE_ISDP (sequence_of_87 true 0xA0 v pv) (λ pv,
       then_step LPA_ERROR_FAILED_STORE_META_DATA (store_metadata v pv) (λ pv,
       then_step LPA_ERROR_FAILED_REPLACE_SESSION_KEY (sequence_of_87 false 0xA2 v pv) (λ pv,
       conclude (load_elements v pv))))).
Proof.
  intros Hv. apply implements_step; [|by intros; apply quiet_87|apply implements_step; [|by intros; apply quiet_metadata|
    apply implements_step; [|by intros; apply quiet_87|apply implements_last]]];
    intros pir pv g st g' Hs; iIntros "[Hp Ho]".
  - iApply (wp_configure with "Hp Ho"); [done..|]. iIntros (r) "Hp Hi". by iFrame.
  - iApply (wp_store_metadata with "Hp Ho"); [done..|]. iIntros (r) "Hp Hi". by iFrame.
  - iApply (wp_replace_key with "Hp Ho"); [done..|]. iIntros (r) "Hp Hi". by iFrame.
  - iApply (wp_load_elements with "Hp Ho"); [done..|]. iIntros (r) "Hp Hi". by iFrame.
Qed.

(** What is left allocated: the header of a package without BF23. *)
Definition package_leak (package : list Z) : heapProp :=
  match (first_tag 0xBF36 package).2 with
  | Some (b :: v) => if bool_decide (package_ok (b :: v) = Some true) then header_leak (b :: v) else emp%I
  | _ => emp%I
  end.

Lemma wp_install (d : data_s) (package : list Z) (pir : PROFILE_INSTALLATION_RESULT) (pv : pir_value) g st g' :
  part_bytes d package → Forall is_byte package → install package pv g = Some (st, g') →
  triple true (owned_pir pir pv) (load_package d pir) g
    (λ r g1, ⟦g1 = g'⟧ ∗ installed_pir r st ∗ package_leak package)%I.
Proof.
  intros Hd Hb Hs. iIntros "Ho". rw /load_package.
  destruct (part_set _ _ Hd) as (-> & Hlen & Hz). destruct Hd as (src & -> & Hne & Hr).
  destruct (rd_range_length _ _ _ _ Hr) as (_ & _ & _ & Hl2). rw rd_range_Some in Hr; [|lia..].
  rw drop_0 in Hr. injection Hr as Hr.
  wp_seq. iApply wp_extractTag16; [lia|by rw Hr|]. rw Hr. iIntros (p b r) "%Hp Hp". apply chosen_nf in Hp.
  rw /install /package_leak -Hp in Hs |- *.
  wp_seq. iApply (wp_has_value with "Hp"). iIntros "Hp". wp_seq.
  iApply (wp_wand _ _ _ (λ st1 g1, ⟦g1 = g'⟧ ∗ maybe_tlv p 0xBF36 r ∗ installed_pir st1 st ∗ package_leak package)%I with "[Hp Ho]").
  2: { iIntros (st1 g1) "(-> & Hp & Hi)". wp_seq. iApply (wp_erase with "Hp"). wp_value. rw /package_leak -Hp. by iFrame. }
  rw /package_leak -Hp. destruct r as [[|c v]|]; cbn [maybe_tlv].
  1,3: apply ST_bind_Some in Hs as (u & g2 & [= <- <-] & Hs); apply ret_Some in Hs as [-> ->];
    wp_seq; iApply wp_setError; wp_value; by iFrame.
  set (w := c :: v) in *. assert (Forall is_byte w) as Hw by by apply (first_tag_byte 0xBF36 package).
  assert (zlen w < 2 ^ 24) as Hwl by by apply (first_tag_bound 0xBF36 package).
  assert (0 < zlen w) by (rw /w zlen_cons; zlen_pos; lia).
  apply ST_bind_Some in Hs as (ok & g1 & [Hok ->]%opt_Some & Hs).
  wp_seq. iApply (wp_check_package with "Hp"); [done|exact Hok|]. iIntros "Hp". rw Hok. destruct ok.
  2: { rw bool_decide_false //. apply ST_bind_Some in Hs as (u & g2 & [= <- <-] & Hs); apply ret_Some in Hs as [-> ->];
       wp_seq; iApply wp_setError; wp_value; by iFrame. }
  rw bool_decide_true //. pose proof Hs as ([[sent pv1] cancel] & g1 & Hr1 & _)%ST_bind_Some.
  wp_seq. iApply (wp_initialise with "Hp Ho"); [done..|exact Hr1|]. iIntros (r1) "Hp Hi Hleak".
  iApply (wp_wand _ _ _ (λ st1 g2, ⟦g2 = g'⟧ ∗ tlv p 0xBF36 w ∗ installed_pir st1 st)%I with "[Hp Hi]").
  2: { iIntros (st1 g2) "(-> & Hp & Hi)". by iFrame. }
  iApply (wp_segment_step with "[$Hp $Hi]"); [apply quiet_channel|by apply implements_rest|exact Hr1|exact Hs].
Qed.
(** The number of elements is kept in eight bits: 256 of them count as none. *)
Lemma segments_256_refused v w tvs pv g st g' :
  (first_tag 0xA3 v).2 = Some w → w ≠ [] → objects w = Some tvs → zlen tvs mod 256 = 0 →
  load_elements v pv g = Some (st, g') → st.1.1 = false.
Proof.
  intros Hw Hne Ho Hm. rw /load_elements Hw. destruct w as [|b w]; [done|].
  intros ([[] pv1] & g1 & _ & Hs)%ST_bind_Some; [|by apply ret_Some in Hs as [-> ->]].
  apply ST_bind_Some in Hs as (tvs' & g2 & [Ho' _]%opt_Some & Hs). rw Ho in Ho'. injection Ho' as <-.
  rw Hm in Hs. by apply ret_Some in Hs as [-> ->].
Qed.

(** *** The order of the segments *)

(** The segments reach the card: nothing is sent after a segment that was not
    accepted, and errors may be reported in between. *)
Inductive delivered : bool → list (list Z) → sdk D → sdk D → Prop :=
  | delivered_none g : delivered true [] g g
  | delivered_error ok s g g1 e : delivered ok s g g1 → delivered ok s g (reporting e g1)
  | delivered_segment room s segment g g1 sent sw data g2 :
      delivered true s g g1 → exchange_b room segment g1 = Some ((sent, sw, data), g2) →
      delivered (sent && sw_success sw) (s ++ [segment]) g g2.

Definition segment_of (tag : Z) (v : list Z) : list (list Z) :=
  match (first_tag tag v).2 with Some w => [tlv_bytes tag w] | None => [] end.
Definition segments_in (tag : Z) (v : list Z) : list (list Z) :=
  match (first_tag tag v).2 with
  | Some w => tlv_header tag (zlen w) :: map (λ tv, tlv_bytes tv.1 tv.2) (default [] (objects w))
  | None => []
  end.
Definition package_segments (package : list Z) : list (list Z) :=
  match (first_tag 0xBF36 package).2 with
  | Some v =>
      match (first_tag 0xBF23 v).2 with
      | Some w => [tlv_header 0xBF36 (zlen v) ++ tlv_bytes 0xBF23 w]
      | None => []
      end ++ segment_of 0xA0 v ++ segments_in 0xA1 v ++ segment_of 0xA2 v ++ segments_in 0xA3 v
  | None => []
  end.

Lemma delivered_app s1 g g1 : delivered true s1 g g1 → ∀ ok s2 g2, delivered ok s2 g1 g2 → delivered ok (s1 ++ s2) g g2.
Proof.
  intros H1 ok s2 g2 H2. induction H2 as [|ok s g1 g2 e H2 IH|room s segment g1 g2 sent sw data g3 H2 IH Hx].
  - by rw app_nil_r.
  - by apply delivered_error, IH.
  - rw app_assoc. by eapply delivered_segment; [apply IH|].
Qed.

(** A computation sends a part of [l], and all of it when it is done. *)
Definition sends {A} (m : ST (sdk D) A) (l : list (list Z)) (finished : A → Prop) : Prop :=
  ∀ g a g', m g = Some (a, g') →
    ∃ ok s, s `prefix_of` l ∧ delivered ok s g g' ∧ (finished a → ok = true ∧ s = l).

(** A computation that sends nothing. *)
Definition silent {A} (m : ST (sdk D) A) : Prop :=
  ∀ g a g', m g = Some (a, g') → ∀ ok s g0, delivered ok s g0 g → delivered ok s g0 g'.

Lemma silent_ret {A} (a : A) : silent (mret a).
Proof. by intros g b g' [-> ->]%ret_Some. Qed.
Lemma silent_opt {A} (o : option A) : silent (opt o).
Proof. by intros g b g' [_ ->]%opt_Some. Qed.
Lemma silent_report e : silent (report e).
Proof. intros g b g' [= <- <-] ok s g0. apply delivered_error. Qed.
Lemma silent_bind {A B} (m : ST (sdk D) A) (k : A → ST (sdk D) B) :
  silent m → (∀ a, silent (k a)) → silent (x ← m; k x).
Proof. intros Hm Hk g b g' (a & g1 & Ha & Hb)%ST_bind_Some ok s g0 H. eapply Hk; [exact Hb|]. by eapply Hm. Qed.

Lemma sends_none {A} (m : ST (sdk D) A) finished : silent m → sends m [] finished.
Proof. intros Hm g a g' Ha. exists true, []. split_and!; [done|eapply Hm; [exact Ha|constructor]|done]. Qed.

Lemma sends_ret {A} (a : A) l (finished : A → Prop) : ¬ finished a → sends (mret a) l finished.
Proof. intros H g b g' [-> ->]%ret_Some. exists true, []. split_and!; [apply prefix_nil|constructor|done]. Qed.

Lemma sends_opt {A B} (o : option A) (k : A → ST (sdk D) B) l finished :
  (∀ a, o = Some a → sends (k a) l finished) → sends (x ← opt o; k x) l finished.
Proof. intros Hk g b g' (a & g1 & [Ha ->]%opt_Some & Hb)%ST_bind_Some. by eapply Hk. Qed.

Lemma sends_after {A B} (m : ST (sdk D) A) (k : A → ST (sdk D) B) l finished :
  silent m → (∀ a, sends (k a) l finished) → sends (x ← m; k x) l finished.
Proof.
  intros Hm Hk g b g' (a & g1 & Ha & Hb)%ST_bind_Some. destruct (Hk _ _ _ _ Hb) as (ok & s & Hp & Hd & Hf).
  exists ok, s. split_and!; [done| |done]. apply (delivered_app [] g g1); [|done]. eapply Hm; [exact Ha|constructor].
Qed.

Lemma sends_bind {A B} (m : ST (sdk D) A) (k : A → ST (sdk D) B) l1 l2 (done1 : A → Prop) (done2 : B → Prop) :
  sends m l1 done1 →
  (∀ a, done1 a ∧ sends (k a) l2 done2 ∨ silent (k a) ∧ ∀ g b g', k a g = Some (b, g') → ¬ done2 b) →
  sends (x ← m; k x) (l1 ++ l2) done2.
Proof.
  intros Hm Hk g b g' (a & g1 & Ha & Hb)%ST_bind_Some. destruct (Hm _ _ _ Ha) as (ok & s & Hp & Hd & Hdone).
  destruct (Hk a) as [[H1 H2]|[H2 Hno]].
  - destruct (Hdone H1) as [-> ->]. destruct (H2 _ _ _ Hb) as (ok & s & Hp2 & Hd2 & Hdone2).
    exists ok, (l1 ++ s). split_and!; [by apply prefix_app|by eapply delivered_app|].
    intros [-> ->]%Hdone2. done.
  - exists ok, s. split_and!; [by apply prefix_app_r|by eapply H2|]. intros Hb'. by destruct (Hno _ _ _ Hb).
Qed.

Create HintDb silence.
#[local] Hint Resolve silent_ret silent_opt silent_report silent_bind : silence.

Lemma sends_exchange room segment :
  sends (exchange_b room segment) [segment] (λ a, a.1.1 && sw_success a.1.2 = true).
Proof.
  intros g [[sent sw] data] g' Hx. exists (sent && sw_success sw), [segment]. split_and!; [done| |cbn [fst snd]; by intros ->].
  apply (delivered_segment room [] segment g g sent sw data); [constructor|done].
Qed.

Lemma sends_segment segment pv : sends (send_segment segment pv) [segment] (λ a, a.1 = true).
Proof.
  apply (sends_bind _ _ [segment] [] _ _ (sends_exchange None segment)). intros [[sent sw] data]. cbn [fst snd].
  destruct sent; [|right; split; [auto with silence|by intros ??? [-> ->]%ret_Some]].
  destruct (sw_success sw).
  2: { right. split; [auto with silence|]. intros ??? (u & g1 & _ & [-> ->]%ret_Some)%ST_bind_Some. done. }
  left. split; [done|]. apply sends_none. destruct data as [|b data]; [auto with silence|].
  apply silent_bind; [auto with silence|]. intros [[e|] pv']; auto with silence.
Qed.

Definition sent_of (st : step) : Prop := st.1.1 = true.

Lemma sends_88 tvs : ∀ pv, sends (segments_88 tvs pv) (map (λ tv, tlv_bytes tv.1 tv.2) tvs) sent_of.
Proof.
  induction tvs as [|[t w] tvs IH]; intros pv; cbn [segments_88 map fst snd].
  - apply sends_none. auto with silence.
  - destruct (Z.eqb_spec t 0x88) as [->|_]; [|by apply sends_ret].
    apply (sends_bind _ _ [tlv_bytes 0x88 w] _ _ _ (sends_segment _ pv)). intros [[] pv'].
    + left. split; [done|apply IH].
    + right. split; [auto with silence|by intros ??? [-> ->]%ret_Some].
Qed.

Lemma sends_86 n tvs : forallb (λ tv, tv.1 =? 0x86) tvs = true → ∀ k res pv,
  sends (segments_86 n k tvs res pv) (map (λ tv, tlv_bytes tv.1 tv.2) tvs) (λ _, False).
Proof.
  induction tvs as [|[t w] tvs IH]; intros Hall k res pv; cbn [segments_86 map fst snd]; [apply sends_none; auto with silence|].
  cbn [forallb fst] in Hall. apply andb_prop in Hall as [->%Z.eqb_eq Hall].
  apply (sends_bind _ _ [tlv_bytes 0x86 w] _ _ _ (sends_exchange _ _)). intros [[sent sw] data]. cbn [fst snd].
  destruct sent; [|right; split; [auto with silence|tauto]]. destruct (sw_success sw); [|right; split; [auto with silence|tauto]].
  left. split; [done|]. destruct data as [|b data]; [by apply IH|].
  apply sends_opt. intros [e pv'] _. apply sends_after.
  - destruct e; [auto with silence|]. apply silent_bind; [auto with silence|]. intros []; auto with silence.
  - intros res'. destruct (k + 1 =? n); [by apply IH|apply sends_ret; tauto].
Qed.

Lemma sends_87 mandatory tag v pv : sends (sequence_of_87 mandatory tag v pv) (segment_of tag v) sent_of.
Proof.
  rw /sequence_of_87 /segment_of. destruct (first_tag tag v).2 as [w|]; [|apply sends_none; auto with silence].
  apply sends_opt. intros b _. destruct (b =? 0x87); [|by apply sends_ret].
  apply (sends_bind _ _ [tlv_bytes tag w] [] _ _ (sends_segment _ pv)). intros [[] pv'].
  - left. split; [done|]. apply sends_none. auto with silence.
  - right. split; [auto with silence|by intros ??? [-> ->]%ret_Some].
Qed.

Lemma sends_metadata v pv : sends (store_metadata v pv) (segments_in 0xA1 v) sent_of.
Proof.
  rw /store_metadata /segments_in. destruct (first_tag 0xA1 v).2 as [[|b w]|]; [by apply sends_ret| |by apply sends_ret].
  apply (sends_bind _ _ [_] _ _ _ (sends_segment _ pv)). intros [[] pv'].
  - left. split; [done|]. apply sends_opt. intros tvs ->. cbn [default from_option id].
    destruct (0 <? _); [apply sends_88|by apply sends_ret].
  - right. split; [auto with silence|by intros ??? [-> ->]%ret_Some].
Qed.

Lemma sends_elements v pv : sends (load_elements v pv) (segments_in 0xA3 v) (λ _, False).
Proof.
  rw /load_elements /segments_in. destruct (first_tag 0xA3 v).2 as [[|b w]|]; [apply sends_ret; tauto| |apply sends_ret; tauto].
  apply (sends_bind _ _ [_] _ _ _ (sends_segment _ pv)). intros [[] pv']; [|right; split; [auto with silence|tauto]].
  left. split; [done|]. apply sends_opt. intros tvs ->. cbn [default from_option id]. destruct (0 <? _); cbn [andb]; [|apply sends_ret; tauto].
  destruct (forallb _ tvs) eqn:Hall; [|apply sends_ret; tauto].
  rw -(app_nil_r (map _ tvs)). apply (sends_bind _ _ _ [] _ _ (sends_86 _ _ Hall _ _ _)). intros [res pv''].
  right. split; [auto with silence|tauto].
Qed.

Lemma sends_step failed r next l1 l2 :
  sends r l1 sent_of → (∀ pv, sends (next pv) l2 (λ _, False)) → sends (then_step failed r next) (l1 ++ l2) (λ _, False).
Proof.
  intros Hr Hn. apply (sends_bind _ _ l1 l2 _ _ Hr). intros [[[] pv] cancel].
  - destruct pv.1; [right; split; [auto with silence|tauto]|]. left. split; [done|apply Hn].
  - right. split; [auto with silence|tauto].
Qed.

Lemma sends_conclude r l : sends r l (λ _, False) → sends (conclude r) l (λ _, False).
Proof.
  intros Hr. rw -(app_nil_r l). apply (sends_bind _ _ _ [] _ _ Hr). intros [[[] pv] cancel]; right; (split; [|tauto]);
    [|auto with silence]. apply silent_bind; [destruct pv as [[] [[] ?]]; auto with silence|].
  intros []; auto with silence.
Qed.

Lemma install_sends package pv : sends (install package pv) (package_segments package) (λ _, False).
Proof.
  rw /install /package_segments. destruct (first_tag 0xBF36 package).2 as [[|b v]|];
    [apply sends_after; [auto with silence|intros; apply sends_ret; tauto]| |apply sends_none; auto with silence].
  apply sends_opt. intros [] _; [|apply sends_after; [auto with silence|intros; apply sends_ret; tauto]].
  apply sends_step; [|intros pv1; apply sends_step; [apply sends_87|intros pv2; apply sends_step; [apply sends_metadata|intros pv3;
    apply sends_step; [apply sends_87|intros pv4; apply sends_conclude, sends_elements]]]].
  rw /initialise_channel. destruct (first_tag 0xBF23 _).2 as [w|]; [|by apply sends_ret].
  apply (sends_bind _ _ [_] [] _ _ (sends_segment _ pv)). intros [[] pv'].
  - left. split; [done|]. apply sends_none. auto with silence.
  - right. split; [auto with silence|by intros ??? [-> ->]%ret_Some].
Qed.

(** The verdict, the installation result and the flag of the cancellation, as the caller receives them. *)
Definition installed_result (r : bool * option PROFILE_INSTALLATION_RESULT * bool) (st : step) : heapProp :=
  (∃ pir, ⟦r.1.2 = Some pir⟧ ∗ installed_pir (r.1.1, pir, r.2) st)%I.


(** The segments of a package reach the card in the order of the package, none is skipped or repeated, and none follows one
    that was refused. *)
Lemma install_in_order (sd : server_data) (package : list Z) (pir : PROFILE_INSTALLATION_RESULT) (pv : pir_value) g st g' :
  part_bytes (_boundProfilePackage sd) package → Forall is_byte package → install package pv g = Some (st, g') →
  triple true (owned_pir pir pv) (lpaManagerES10b_LoadBoundProfilePackage (Some sd) (Some pir)) g
    (λ r g1, ⟦∃ ok sent, sent `prefix_of` package_segments package ∧ delivered ok sent g g1⟧ ∗
       installed_result r st ∗ package_leak package)%I.
Proof.
  intros Hd Hb Hs. destruct (install_sends _ _ _ _ _ Hs) as (ok & sent & Hp & Hx & _). iIntros "Ho". wp_seq.
  iApply (wp_wand with "[Ho]"); [by iApply wp_install|]. iIntros ([[res pir'] cancel] g1) "(-> & Hi & Hl)". wp_value.
  iFrame "Hl". iSplit; [iPureIntro; by eauto|]. iExists pir'. by iFrame.
Qed.
End proofs.

(** ** The cut of a package *)

(** The objects of a package as the specification of the format lists them. *)
Definition package_objects (bf23 a0 : list Z) (metadata : list (Z * list Z)) (a2 : option (list Z))
    (elements : list (Z * list Z)) : list (Z * list Z) :=
  [(0xBF23, bf23); (0xA0, a0); (0xA1, tlvs_bytes metadata)]
  ++ match a2 with Some w => [(0xA2, w)] | None => [] end ++ [(0xA3, tlvs_bytes elements)].

(** The segments a package is cut into are the whole package: put together, they are its bytes. *)
Lemma segments_of_package bf23 a0 metadata a2 elements :
  let tvs := package_objects bf23 a0 metadata a2 elements in
  valid_tlv (0xBF36, tlvs_bytes tvs) → Forall valid_tlv tvs → Forall valid_tlv metadata → Forall valid_tlv elements →
  concat (package_segments (tlvs_bytes [(0xBF36, tlvs_bytes tvs)])) = tlv_bytes 0xBF36 (tlvs_bytes tvs).
Proof.
  intros tvs Hp Ht Hm He. rw /package_segments first_tag_tlvs; [|by constructor].
  change (snd <$> head _) with (Some (tlvs_bytes tvs)). rw /segment_of /segments_in !(first_tag_tlvs tvs) //.
  rw (_ : snd <$> head (filter (λ tv, tv.1 = 0xBF23) tvs) = Some bf23) //.
  rw (_ : snd <$> head (filter (λ tv, tv.1 = 0xA0) tvs) = Some a0) //.
  rw (_ : snd <$> head (filter (λ tv, tv.1 = 0xA1) tvs) = Some (tlvs_bytes metadata)) //.
  rw (_ : snd <$> head (filter (λ tv, tv.1 = 0xA2) tvs) = a2); [|by destruct a2].
  rw (_ : snd <$> head (filter (λ tv, tv.1 = 0xA3) tvs) = Some (tlvs_bytes elements)); [|by destruct a2].
  rw !objects_tlvs //. cbn [default from_option id]. rw (tlv_header_bytes 0xBF36).
  assert (∀ l, concat (map (λ tv, tlv_bytes tv.1 tv.2) l) = tlvs_bytes l) as Hmap.
  { intros l. rw /tlvs_bytes. f_equal. apply map_ext. by intros []. }
  set (h := tlv_header 0xBF36 _).
  assert (tlvs_bytes tvs = tlv_bytes 0xBF23 bf23 ++ tlv_bytes 0xA0 a0 ++ (tlv_header 0xA1 (zlen (tlvs_bytes metadata)) ++ tlvs_bytes metadata)
    ++ match a2 with Some w => tlv_bytes 0xA2 w | None => [] end
    ++ tlv_header 0xA3 (zlen (tlvs_bytes elements)) ++ tlvs_bytes elements) as ->.
  { rw -!tlv_header_bytes /tvs /tlvs_bytes. destruct a2; cbn; by rw !app_nil_r. }
  rw !concat_app. cbn [concat app]. rw !Hmap !app_nil_r -!app_assoc. do 5 f_equal. destruct a2; cbn [concat]; by rw ?app_nil_r.
Qed.

Lemma concat_prefix {A} (l1 l2 : list (list A)) : l1 `prefix_of` l2 → concat l1 `prefix_of` concat l2.
Proof. intros [k ->]. rw concat_app. by exists (concat k). Qed.


(** ** Witnesses *)

(** A package of six segments, and a card that answers the last of them with a result. *)
Definition sample_objects : list (Z * list Z) := package_objects [1] [0x87; 1; 5] [(0x88, [6])] None [(0x86, [7])].
Definition sample_package : list Z := tlv_bytes 0xBF36 (tlvs_bytes sample_objects).
Definition sample_bpp : server_data :=
  ServerData no_data no_data no_data no_data no_data no_data no_data no_data no_data (sample_part sample_package).
Definition sample_result : list Z := tlv_bytes 0xBF37 (tlv_bytes 0xBF27 (tlv_bytes 0xA2 (tlv_bytes 0xA0 [0]))).
Definition sample_card : list (list Z) := replicate 5 [0x90; 0x00] ++ [sample_result ++ [0x90; 0x00]].
Definition no_pir : PROFILE_INSTALLATION_RESULT := Pir false (AnswerPair None None).
Definition installed_sample : step := (true, (true, (Some sample_result, Some (b64_ref sample_result ++ [0]))), false).


#[local] Instance valid_tlv_dec tv : Decision (valid_tlv tv).
Proof. unfold valid_tlv, valid_tag. apply _. Defined.

