(* ===== verification/Es10c.v ===== *)
(** * Local profile management ([lpa_manager_es10c.c])

    The requests of the ES10c interface of the eUICC: the profiles and their
    number, the EID, enabling, disabling, deleting and naming a profile, the
    reset of the memory; and the repetitions that [lpa_manager.c] wraps around
    some of them. The texts formatted for the log are not modelled. *)

From stdpp Require Import gmap.
From iris.bi Require Import bi.
From iris.proofmode Require Import proofmode.
From S2P Require Import Prelude StateMonad ApiError ProfileInfo Heap Wp RawData BerTlv TlvWalk SeMedia Apdu Es10.

Definition PROFILE_ICCID_TAG : Z := 0x5A.
Definition PROFILE_NICKNAME_TAG : Z := 0x90.
Definition GET_PROFILE_INFO_DGI_TAG : Z := 0xBF2D.
Definition GET_EID_DGI_TAG : Z := 0xBF3E.
Definition MEMORY_RESET_TAG : Z := 0xBF34.
Definition ENABLE_PROFILE_DGI_TAG : Z := 0xBF31.
Definition DISABLE_PROFILE_DGI_TAG : Z := 0xBF32.
Definition DELETE_PROFILE_DGI_TAG : Z := 0xBF33.
Definition SET_NICKNAME_TAG : Z := 0xBF29.
Definition MEMORY_RESET_OPTION_SIZE : Z := 2.
Definition TEMP_BUFFER_SIZE_FOR_PROFILES_COUNT : Z := 768.
Definition LPA_GET_EID_BUFFER_SIZE : Z := 64.
Definition LPA_PROFILE_INFO_BUFFER_MAX_SIZE_FOR_PPR : Z := 30.

Definition PROFILE_INFO_LIST_ICCID_ONLY_REQUEST : list Z := [0x5C; 0x01; 0x5A].
Definition PROFILE_INFO_FOR_PPR_MGT_REQUEST : list Z := [0x5C; 0x05; 0x5A; 0x9F; 0x70; 0x95; 0x99].
Definition PROFILE_INFO_FOR_CUSTOM_REQUEST : list Z := [0x5C; 0x05; 0x5A; 0x9F; 0x70; 0x95; 0x92].
Definition EIDOptionParameter : list Z := [0x5C; 0x01; 0x5A].

Inductive PROFILE_OPERATION := enableProfile | disableProfile | deleteProfile.

Inductive LPA_MEMORY_RESET_STATUS :=
  | LPA_MEMORY_RESET_OK
  | LPA_MEMORY_RESET_NOTHING_TO_DELETE
  | LPA_MEMORY_RESET_CAT_BUSY
  | LPA_MEMORY_RESET_UNDEFINED_ERROR
  | LPA_MEMORY_RESET_UNKNOWN.

Record LPA_GET_EID := GetEid { EID_Data : list Z; EID_DataSize : Z }.

(** LPA_GET_PROFILES_INFO, with the list in the heap. *)
Record get_profiles_info := GetProfilesInfo {
  gpi_countProfileInfo : Z;
  gpi_numberProfileInfoFound : Z;
  gpi_maxNumberProfileInfo : Z;
  gpi_profileInfoList : ptr
}.

(** A structure of either type, behind the same pointer. *)
Inductive profile_struct :=
  | ForPpr (info : LPA_PROFILE_INFO_FOR_PPR)
  | Normal (info : LPA_PROFILE_INFO).

(** ** Code *)

Section code.
Context {D : Type}.
Abbreviation M := (M (sdk D)).

(** Sends a request with [_dataBuffer] for the answer. *)
Definition es10c_storeData (request : ptr) : M (bool * Z * Z) := storeData_in ES10c request None.

(** [_dataBuffer], as the argument of a function. *)
Definition es10c_data : M (option (list Z)) := data_of ES10c.

(** What the four [_extractResponseFor...] functions share: the object of tag
    [tag], its object 80, and the judgement of its value: [None] for OK, or the
    error to report. *)
Definition extract_response (tag : Z) (verdict : Z → option LPA_API_ERROR)
    (ptrData : option (list Z)) (dataSize : Z) : M bool :=
  match ptrData with
  | Some _ =>
      if dataSize >? 0 then
        let* '(operationTag, _) := berTLV_extractTagUInt16 tag ptrData dataSize in
        let* '(res, attributeValue) :=
          (if isNull operationTag then fail LPA_ERROR_LOCAL_PROFILE_INCORRECT_CARD_RESPONSE None
           else
             let* attributeValue := extractTag16_of 0x80 operationTag in
             let* b := result_byte attributeValue in
             match b with
             | None => fail LPA_ERROR_LOCAL_PROFILE_INCORRECT_CARD_RESPONSE attributeValue
             | Some b => match verdict b with
                         | None => ret (true, attributeValue)
                         | Some e => fail e attributeValue
                         end
             end) in
        ERASE_BERTLV attributeValue ;;
        ERASE_BERTLV operationTag ;;
        ret res
      else setError LPA_ERROR_INVALID_PARAMETER ;; ret false
  | None => setError LPA_ERROR_INVALID_PARAMETER ;; ret false
  end.

Definition enable_verdict (enableResult : Z) : option LPA_API_ERROR :=
  if enableResult =? 0 then None
  else if enableResult =? 1 then Some LPA_ERROR_LOCAL_PROFILE_ICCID_OR_AID_NOT_FOUND
  else if enableResult =? 2 then Some LPA_ERROR_LOCAL_PROFILE_NOT_IN_DISABLE_STATE
  else if enableResult =? 3 then Some LPA_ERROR_LOCAL_PROFILE_DISALLOWED_BY_POLICY
  else if enableResult =? 4 then Some LPA_ERROR_LOCAL_PROFILE_WRONG_PROFILE_REENABLING
  else if enableResult =? 5 then Some LPA_ERROR_LOCAL_PROFILE_CAT_BUSY
  else if enableResult =? 127 then Some LPA_ERROR_LOCAL_PROFILE_UNDEFINED_ERROR
  else Some LPA_ERROR_LOCAL_PROFILE_INCORRECT_CARD_RESPONSE.

Definition disable_verdict (disableResult : Z) : option LPA_API_ERROR :=
  if disableResult =? 0 then None
  else if disableResult =? 1 then Some LPA_ERROR_LOCAL_PROFILE_ICCID_OR_AID_NOT_FOUND
  else if disableResult =? 2 then Some LPA_ERROR_LOCAL_PROFILE_NOT_IN_ENABLE_STATE
  else if disableResult =? 3 then Some LPA_ERROR_LOCAL_PROFILE_DISALLOWED_BY_POLICY
  else if disableResult =? 5 then Some LPA_ERROR_LOCAL_PROFILE_CAT_BUSY
  else if disableResult =? 127 then Some LPA_ERROR_LOCAL_PROFILE_UNDEFINED_ERROR
  else Some LPA_ERROR_LOCAL_PROFILE_INCORRECT_CARD_RESPONSE.

Definition delete_verdict (deleteResult : Z) : option LPA_API_ERROR :=
  if deleteResult =? 0 then None
  else if deleteResult =? 1 then Some LPA_ERROR_LOCAL_PROFILE_ICCID_OR_AID_NOT_FOUND
  else if deleteResult =? 2 then Some LPA_ERROR_LOCAL_PROFILE_NOT_IN_DISABLE_STATE
  else if deleteResult =? 3 then Some LPA_ERROR_LOCAL_PROFILE_DISALLOWED_BY_POLICY
  else if deleteResult =? 127 then Some LPA_ERROR_LOCAL_PROFILE_UNDEFINED_ERROR
  else Some LPA_ERROR_LOCAL_PROFILE_INCORRECT_CARD_RESPONSE.

Definition nickname_verdict (setNicknameResult : Z) : option LPA_API_ERROR :=
  if setNicknameResult =? 0 then None
  else if setNicknameResult =? 1 then Some LPA_ERROR_LOCAL_PROFILE_ICCID_OR_AID_NOT_FOUND
  else if setNicknameResult =? 127 then Some LPA_ERROR_LOCAL_PROFILE_UNDEFINED_ERROR
  else Some LPA_ERROR_LOCAL_PROFILE_INCORRECT_CARD_RESPONSE.

Definition _extractResponseForEnableProfileOperation := extract_response ENABLE_PROFILE_DGI_TAG enable_verdict.
Definition _extractResponseForDisableProfileOperation := extract_response DISABLE_PROFILE_DGI_TAG disable_verdict.
Definition _extractResponseForDeleteProfileOperation := extract_response DELETE_PROFILE_DGI_TAG delete_verdict.
Definition _extractResponseForSetNicknameOperation := extract_response SET_NICKNAME_TAG nickname_verdict.

(** *** EID *)

Definition _doExtractEIDResponse (ptrData : option (list Z)) (dataSize : Z) (ptrGetEID : option LPA_GET_EID)
    : M (bool * option LPA_GET_EID) :=
  match ptrData, ptrGetEID with
  | Some _, Some eid =>
      if dataSize >? 0 then
        let* '(eidTag, _) := berTLV_extractTagUInt16 GET_EID_DGI_TAG ptrData dataSize in
        let* '(r, tag5A) :=
          (if isNull eidTag then
             setError LPA_ERROR_LOCAL_PROFILE_UNABLE_TO_EXTRACT_DATA ;; ret ((false, ptrGetEID), None)
           else
             let* tag5A := extractTag16_of 0x5A eidTag in
             if isNull tag5A then ret ((false, ptrGetEID), tag5A)
             else
               let* '(_, length, value) := tlv_data tag5A in
               if length <=? LPA_GET_EID_BUFFER_SIZE then
                 let* b := of_option (copy_value (EID_Data eid) value length) in
                 ret ((true, Some (GetEid b length)), tag5A)
               else setError LPA_ERROR_INSUFFICIENT_BUFFER ;; ret ((false, ptrGetEID), tag5A)) in
        ERASE_BERTLV tag5A ;;
        ERASE_BERTLV eidTag ;;
        ret r
      else fail LPA_ERROR_INVALID_PARAMETER ptrGetEID
  | _, _ => fail LPA_ERROR_INVALID_PARAMETER ptrGetEID
  end.

Definition lpaManagerES10c_GetEID (ptrGetEID : option LPA_GET_EID) : M (bool * option LPA_GET_EID) :=
  match ptrGetEID with
  | Some eid =>
      let ptrGetEID := Some (GetEid (EID_Data eid) 0) in
      let* rawDataObjectGetEID :=
        berTLV_createAndBuildRawDataObject GET_EID_DGI_TAG (zlen EIDOptionParameter) (Some EIDOptionParameter) in
      let* r :=
        (if isNull rawDataObjectGetEID then fail LPA_ERROR_INSUFFICIENT_BUFFER ptrGetEID
         else
           let* '(sent, sw, dataBufferSize) := es10c_storeData rawDataObjectGetEID in
           if sent : bool then
             let* '(res, eid) :=
               (if sw_success sw then
                  if dataBufferSize >? 0 then
                    let* data := es10c_data in _doExtractEIDResponse data dataBufferSize ptrGetEID
                  else ret (true, ptrGetEID)
                else fail LPA_ERROR_INVALID_SW ptrGetEID) in
             let* error := isError in
             ret (if error : bool then false else res, eid)
           else fail LPA_ERROR_INVALID_GET_EID_EXCHANGE ptrGetEID) in
      ERASE_RAWDATAOBJECT rawDataObjectGetEID ;;
      ret r
  | None => fail LPA_ERROR_INVALID_PARAMETER None
  end.

(** *** Memory reset *)

Definition _doExtractMemoryResetResponse (ptrData : option (list Z)) (dataSize : Z) : M LPA_MEMORY_RESET_STATUS :=
  match ptrData with
  | Some _ =>
      if dataSize >? 0 then
        let* '(memoryResetTag, _) := berTLV_extractTagUInt16 MEMORY_RESET_TAG ptrData dataSize in
        let* attributeValue := (if isNull memoryResetTag then ret None else extractTag16_of 0x80 memoryResetTag) in
        let* b := result_byte attributeValue in
        let status := match b with
                      | Some b => if b =? 0 then LPA_MEMORY_RESET_OK
                                  else if b =? 1 then LPA_MEMORY_RESET_NOTHING_TO_DELETE
                                  else if b =? 5 then LPA_MEMORY_RESET_CAT_BUSY
                                  else if b =? 127 then LPA_MEMORY_RESET_UNDEFINED_ERROR
                                  else LPA_MEMORY_RESET_UNKNOWN
                      | None => LPA_MEMORY_RESET_UNKNOWN
                      end in
        ERASE_BERTLV attributeValue ;;
        ERASE_BERTLV memoryResetTag ;;
        ret status
      else ret LPA_MEMORY_RESET_UNKNOWN
  | None => ret LPA_MEMORY_RESET_UNKNOWN
  end.

Definition reset_verdict (status : LPA_MEMORY_RESET_STATUS) : option LPA_API_ERROR :=
  match status with
  | LPA_MEMORY_RESET_OK => None
  | LPA_MEMORY_RESET_NOTHING_TO_DELETE => Some LPA_ERROR_LOCAL_PROFILE_NOTHING_TO_DELETE
  | LPA_MEMORY_RESET_CAT_BUSY => Some LPA_ERROR_LOCAL_PROFILE_CAT_BUSY
  | LPA_MEMORY_RESET_UNDEFINED_ERROR => Some LPA_ERROR_LOCAL_PROFILE_UNDEFINED_ERROR
  | LPA_MEMORY_RESET_UNKNOWN => Some LPA_ERROR_LOCAL_PROFILE_UNKNOWN_ERROR
  end.

Definition lpaManagerES10c_MemoryReset (memoryResetOptionParameter : option (list Z)) (memoryResetOptionSize : Z)
    : M bool :=
  match memoryResetOptionParameter with
  | Some _ =>
      if memoryResetOptionSize =? MEMORY_RESET_OPTION_SIZE then
        let* parameterTag := berTLV_createAndBuildRawDataObject 0x82 memoryResetOptionSize memoryResetOptionParameter in
        let* request := (if isNull parameterTag then ret None else wrap_object MEMORY_RESET_TAG parameterTag) in
        let* res :=
          (if isNull request then setError LPA_ERROR_INSUFFICIENT_BUFFER ;; ret false
           else
             let* '(sent, apduSW, dataBufferSize) := es10c_storeData request in
             if sent : bool then
               if sw_success apduSW then
                 if dataBufferSize =? 0 then ret true
                 else
                   let* data := es10c_data in
                   let* status := _doExtractMemoryResetResponse data dataBufferSize in
                   match reset_verdict status with
                   | None => ret true
                   | Some e => setError e ;; ret false
                   end
               else setError LPA_ERROR_LOCAL_PROFILE_INCORRECT_CARD_RESPONSE ;; ret false
             else setError LPA_ERROR_INVALID_MEMORY_RESET_EXCHANGE ;; ret false) in
        ERASE_RAWDATAOBJECT parameterTag ;;
        ERASE_RAWDATAOBJECT request ;;
        ret res
      else setError LPA_ERROR_INVALID_PARAMETER ;; ret false
  | None => setError LPA_ERROR_INVALID_PARAMETER ;; ret false
  end.
(** *** Operations on a profile *)

Definition is_enable_or_disable (profileOperation : PROFILE_OPERATION) : bool :=
  match profileOperation with enableProfile | disableProfile => true | deleteProfile => false end.

Definition operation_tag (profileOperation : PROFILE_OPERATION) : Z :=
  match profileOperation with
  | enableProfile => ENABLE_PROFILE_DGI_TAG
  | disableProfile => DISABLE_PROFILE_DGI_TAG
  | deleteProfile => DELETE_PROFILE_DGI_TAG
  end.

Definition operation_response (profileOperation : PROFILE_OPERATION) : option (list Z) → Z → M bool :=
  match profileOperation with
  | enableProfile => _extractResponseForEnableProfileOperation
  | disableProfile => _extractResponseForDisableProfileOperation
  | deleteProfile => _extractResponseForDeleteProfileOperation
  end.

(** [rawDataA0] and [rawDataA0WithRefresh] of an enabling or disabling. *)
Definition refresh_objects (rawDataICCID : ptr) : M (ptr * ptr) :=
  let* rawDataA0 :=
    (if isNull rawDataICCID then ret None
     else let* p := wrap_object 0xA0 rawDataICCID in deref p ;; ret p) in
  if isNull rawDataA0 then setError LPA_ERROR_INSUFFICIENT_BUFFER ;; ret (rawDataA0, None)
  else
    let* g := get_globals in
    let refreshFlagValue := if _refreshFlagActivated g then 0xFF else 0x00 in
    let* rawDataObjectRefreshFlag := berTLV_createAndBuildRawDataObject 0x81 1 (Some [refreshFlagValue]) in
    if isNull rawDataObjectRefreshFlag then ret (rawDataA0, None)
    else
      let* rawDataA0WithRefresh := rawDataObject_concat rawDataA0 rawDataObjectRefreshFlag in
      deref rawDataA0WithRefresh ;;
      ERASE_RAWDATAOBJECT rawDataObjectRefreshFlag ;;
      ret (rawDataA0, rawDataA0WithRefresh).

Definition _doProfileOperationByIccid (profileOperation : PROFILE_OPERATION) (ptrProfileId : option (list Z))
    (profileIdSize : Z) : M bool :=
  match ptrProfileId with
  | Some _ =>
      if profileIdSize >? 0 then
        let* rawDataICCID := berTLV_createAndBuildRawDataObject PROFILE_ICCID_TAG profileIdSize ptrProfileId in
        (if isNull rawDataICCID then setError LPA_ERROR_INSUFFICIENT_BUFFER else ret tt) ;;
        let* '(rawDataA0, rawDataA0WithRefresh) :=
          (if is_enable_or_disable profileOperation then refresh_objects rawDataICCID else ret (None, None)) in
        let insideDGI := if is_enable_or_disable profileOperation then rawDataA0WithRefresh else rawDataICCID in
        let* rawDataDGI :=
          (if isNull insideDGI then setError LPA_ERROR_LOCAL_PROFILE_UNDEFINED_ERROR ;; ret None
           else
             let* p := wrap_object (operation_tag profileOperation) insideDGI in
             (if isNull p then setError LPA_ERROR_INSUFFICIENT_BUFFER else ret tt) ;;
             ret p) in
        let* res :=
          (if isNull rawDataDGI then ret false
           else
             let* '(sent, apduSW, dataBufferSize) := es10c_storeData rawDataDGI in
             if sent : bool then
               if sw_success apduSW then
                 let* data := es10c_data in operation_response profileOperation data dataBufferSize
               else setError LPA_ERROR_LOCAL_PROFILE_INCORRECT_CARD_RESPONSE ;; ret false
             else setError LPA_ERROR_LOCAL_PROFILE_INVALID_DATA_EXCHANGE ;; ret false) in
        ERASE_RAWDATAOBJECT rawDataDGI ;;
        ERASE_RAWDATAOBJECT rawDataA0 ;;
        ERASE_RAWDATAOBJECT rawDataA0WithRefresh ;;
        ERASE_RAWDATAOBJECT rawDataICCID ;;
        ret res
      else setError LPA_ERROR_INVALID_PARAMETER ;; ret false
  | None => setError LPA_ERROR_INVALID_PARAMETER ;; ret false
  end.

Definition lpaManagerES10c_EnableProfileByIccid := _doProfileOperationByIccid enableProfile.
Definition lpaManagerES10c_DisableProfileByIccid := _doProfileOperationByIccid disableProfile.
Definition lpaManagerES10c_DeleteProfileByIccid := _doProfileOperationByIccid deleteProfile.

Definition lpaManagerES10c_SetRefreshFlag (refreshFlagActivated : bool) : M unit :=
  let* g := get_globals in
  set_globals (Sdk (apdu g) (es10b_dataBuffer g) (es10c_dataBuffer g) (manager_dataBuffer g) refreshFlagActivated).
Definition lpaManagerES10c_IsRefreshFlag : M bool := let* g := get_globals in ret (_refreshFlagActivated g).

Definition lpaManagerES10c_SetNickname (ptrProfileId : option (list Z)) (profileIdSize : Z)
    (ptrNickname : option (list Z)) (nickNameSize : Z) : M bool :=
  match ptrProfileId, ptrNickname with
  | Some _, Some _ =>
      if (profileIdSize >? 0) && (nickNameSize >=? 0) && (nickNameSize <=? LPA_PROFILE_NICKNAME_MAX_SIZE) then
        let* rawDataICCID := berTLV_createAndBuildRawDataObject PROFILE_ICCID_TAG profileIdSize ptrProfileId in
        (if isNull rawDataICCID then setError LPA_ERROR_INSUFFICIENT_BUFFER else ret tt) ;;
        let* rawDataNewNickname := berTLV_createAndBuildRawDataObject PROFILE_NICKNAME_TAG nickNameSize ptrNickname in
        (if isNull rawDataNewNickname then setError LPA_ERROR_INSUFFICIENT_BUFFER else ret tt) ;;
        let* '(setNicknameData, request) :=
          (if negb (isNull rawDataICCID) && negb (isNull rawDataNewNickname) then
             let* data := rawDataObject_concat rawDataICCID rawDataNewNickname in
             if isNull data then setError LPA_ERROR_INSUFFICIENT_BUFFER ;; ret (data, None)
             else
               let* request := wrap_object SET_NICKNAME_TAG data in
               (if isNull request then setError LPA_ERROR_INSUFFICIENT_BUFFER else ret tt) ;;
               ret (data, request)
           else ret (None, None)) in
        let* res :=
          (if isNull request then ret false
           else
             let* '(sent, apduSW, dataBufferSize) := es10c_storeData request in
             if sent : bool then
               if sw_success apduSW then
                 let* data := es10c_data in _extractResponseForSetNicknameOperation data dataBufferSize
               else setError LPA_ERROR_LOCAL_PROFILE_INCORRECT_CARD_RESPONSE ;; ret false
             else setError LPA_ERROR_LOCAL_PROFILE_INVALID_DATA_EXCHANGE ;; ret false) in
        ERASE_RAWDATAOBJECT rawDataICCID ;;
        ERASE_RAWDATAOBJECT rawDataNewNickname ;;
        ERASE_RAWDATAOBJECT setNicknameData ;;
        ERASE_RAWDATAOBJECT request ;;
        ret res
      else setError LPA_ERROR_INVALID_PARAMETER ;; ret false
  | _, _ => setError LPA_ERROR_INVALID_PARAMETER ;; ret false
  end.

(** *** Profiles *)

(** Stores a field in a structure when it is not empty and fits: the array and
    its size. *)
Definition copy_field (max length : Z) (value : option (list Z)) (a : sized) : option sized :=
  if (length >? 0) && bool_decide (is_Some value) && (length <=? max)
  then b ← copy_value (cells a) value length; Some (Sized b length)
  else Some a.

(** The [switch] on the tag of a field. The fields a structure does not have,
    and unknown tags, are only logged. *)
Definition store_field (tag length : Z) (value : option (list Z)) (st : profile_struct) : option profile_struct :=
  match st with
  | ForPpr (ProfileInfo i isz s ssz c csz r rsz) =>
      if tag =? 0x5A then
        a ← copy_field LPA_PROFILE_ICCID_BUFFER_MAX_SIZE length value (Sized i isz);
        Some (ForPpr (ProfileInfo (cells a) (used a) s ssz c csz r rsz))
      else if tag =? 0x9F70 then
        a ← copy_field LPA_PROFILE_STATE_MAX_SIZE length value (Sized s ssz);
        Some (ForPpr (ProfileInfo i isz (cells a) (used a) c csz r rsz))
      else if tag =? 0x95 then
        a ← copy_field LPA_PROFILE_CLASS_MAX_SIZE length value (Sized c csz);
        Some (ForPpr (ProfileInfo i isz s ssz (cells a) (used a) r rsz))
      else if tag =? 0x99 then
        a ← copy_field LPA_PROFILE_PPR_MAX_SIZE length value (Sized r rsz);
        Some (ForPpr (ProfileInfo i isz s ssz c csz (cells a) (used a)))
      else Some (ForPpr (ProfileInfo i isz s ssz c csz r rsz))
  | Normal (NormalInfo raw i s sp pn c nick icon itype) =>
      if tag =? 0x5A then
        i ← copy_field LPA_PROFILE_ICCID_BUFFER_MAX_SIZE length value i;
        Some (Normal (NormalInfo raw i s sp pn c nick icon itype))
      else if tag =? 0x9F70 then
        s ← copy_field LPA_PROFILE_STATE_MAX_SIZE length value s;
        Some (Normal (NormalInfo raw i s sp pn c nick icon itype))
      else if tag =? 0x90 then
        nick ← copy_field LPA_PROFILE_NICKNAME_MAX_SIZE length value nick;
        Some (Normal (NormalInfo raw i s sp pn c nick icon itype))
      else if tag =? 0x91 then
        sp ← copy_field LPA_PROFILE_SERVICE_PROVIDER_NAME_MAX_SIZE length value sp;
        Some (Normal (NormalInfo raw i s sp pn c nick icon itype))
      else if tag =? 0x92 then
        pn ← copy_field LPA_PROFILE_NAME_MAX_SIZE length value pn;
        Some (Normal (NormalInfo raw i s sp pn c nick icon itype))
      else if tag =? 0x93 then
        itype ← copy_field LPA_PROFILE_ICON_TYPE_MAX_SIZE length value itype;
        Some (Normal (NormalInfo raw i s sp pn c nick icon itype))
      else if tag =? 0x94 then
        icon ← copy_field LPA_PROFILE_ICON_MAX_SIZE length value icon;
        Some (Normal (NormalInfo raw i s sp pn c nick icon itype))
      else if tag =? 0x95 then
        c ← copy_field LPA_PROFILE_CLASS_MAX_SIZE length value c;
        Some (Normal (NormalInfo raw i s sp pn c nick icon itype))
      else Some st
  end.

Definition field_body (t : ptr) (s : profile_struct) : M (bool * profile_struct) :=
  let* '(tag, length, value) := tlv_data t in
  let* s := of_option (store_field tag length value s) in
  ret (true, s).

(** [memset(p, 0, sizeof *p)] *)
Definition zero_struct (requestForPPRmanagement : bool) : profile_struct :=
  if requestForPPRmanagement then ForPpr zero_profile_info_for_ppr else Normal zero_profile_info.

(** The structure that [_updateProfileInfoFromBerTLV] leaves behind its pointer,
    which it reads nothing of; neither pointer is [NULL]. *)
Definition _updateProfileInfoFromBerTLV (ptrBerTLV : ptr) (requestForPPRmanagement : bool)
    : M (bool * profile_struct) :=
  let s := zero_struct requestForPPRmanagement in
  let* '(_, length, value) := tlv_data ptrBerTLV in
  let* '(go, s) :=
    (match s with
     | ForPpr _ => ret (true, s)
     | Normal i =>
         match value with
         | Some v =>
             if length <=? LPA_PROFILE_INFO_BUFFER_MAX_SIZE then
               let* b := of_option (copy_value (cells (n_rawData i)) value length) in
               ret (true, Normal (NormalInfo (Sized b length) (n_iccid i) (n_profileState i)
                 (n_serviceProviderName i) (n_profileName i) (n_profileClass i) (n_profileNickname i)
                 (n_profileIcon i) (n_profileIconType i)))
             else ret (false, s)
         | None => ret (false, s)
         end
     end) in
  if go : bool then
    let* '(berTLVList, _) := extractList_of ptrBerTLV in
    if isNull berTLVList then ret (false, s)
    else
      let* s := walk field_body berTLVList s in
      berTLV_freeBerTLVList berTLVList ;;
      ret (true, s)
  else ret (false, s).

(** [*(p + k) = s], of an array of structures. *)
Definition store_struct (p : ptr) (k : Z) (s : profile_struct) : M unit :=
  match s with
  | ForPpr i => let* l := load_ppr_infos p in let* l := of_option l.[k := i] in store p (BPprInfos l)
  | Normal i => let* l := load_infos p in let* l := of_option l.[k := i] in store p (BInfos l)
  end.

(** The loop over the objects of the list of profiles; a pointer [NULL + 0] is
    refused by [_updateProfileInfoFromBerTLV]. *)
Definition profile_body (fillFrofileFields requestForPPRmanagement : bool) (t : ptr) (x : get_profiles_info)
    : M (bool * get_profiles_info) :=
  let '(GetProfilesInfo count found max list) := x in
  let* '(tag, _, _) := load_BeerTLV t in
  if tag =? 0xE3 then
    let* count :=
      (if fillFrofileFields then
         if count <? max then
           (if isNull list && (count =? 0) then ret tt
            else
              let* '(_, s) := _updateProfileInfoFromBerTLV t requestForPPRmanagement in
              store_struct list count s) ;;
           ret (count + 1)
         else ret count
       else ret count) in
    ret (true, GetProfilesInfo count (found + 1) max list)
  else ret (true, x).

Definition _extractDataFromGetProfileInfoRawData (info : option get_profiles_info) (rawData : option (list Z))
    (rawDataSize : Z) (fillFrofileFields requestForPPRmanagement : bool) : M (bool * option get_profiles_info) :=
  match info, rawData with
  | Some x, Some _ =>
      if rawDataSize >? 0 then
        let* '(berTLV_BF2D, _) := berTLV_extractTagUInt16 0xBF2D rawData rawDataSize in
        if isNull berTLV_BF2D then ret (false, Some x)
        else
          let* berTLV_A0 := extractTag_of 0xA0 berTLV_BF2D in
          let* r :=
            (if isNull berTLV_A0 then ret (false, Some x)
             else
               let* '(berTLVListInsideA0, countTLVFoundInsideA0) := extractList_of berTLV_A0 in
               let* x :=
                 (if isNull berTLVListInsideA0 then ret x
                  else
                    let* x := (if countTLVFoundInsideA0 >? 0
                               then walk (profile_body fillFrofileFields requestForPPRmanagement) berTLVListInsideA0 x
                               else ret x) in
                    berTLV_freeBerTLVList berTLVListInsideA0 ;;
                    ret x) in
               berTLV_freeBerTLV berTLV_A0 ;;
               ret (true, Some x)) in
          berTLV_freeBerTLV berTLV_BF2D ;;
          ret r
      else ret (false, Some x)
  | _, _ => ret (false, info)
  end.

(** [lpaManagerES10c_GetProfilesNumber] and the result in [*ptrNumberOfProfiles]. *)
Definition lpaManagerES10c_GetProfilesNumber (ptrNumberOfProfiles : option Z) : M (bool * option Z) :=
  match ptrNumberOfProfiles with
  | Some _ =>
      let* requestResponseBuffer := lpaCoreMemoryAlloc TEMP_BUFFER_SIZE_FOR_PROFILES_COUNT in
      if isNull requestResponseBuffer then fail LPA_ERROR_INSUFFICIENT_BUFFER (Some 0)
      else
        let* request := berTLV_createAndBuildRawDataObject GET_PROFILE_INFO_DGI_TAG
                          (zlen PROFILE_INFO_LIST_ICCID_ONLY_REQUEST) (Some PROFILE_INFO_LIST_ICCID_ONLY_REQUEST) in
        let* r :=
          (if isNull request then fail LPA_ERROR_INSUFFICIENT_BUFFER (Some 0)
           else
             let* '(sent, sw, dataBufferSize) :=
               storeData_to request requestResponseBuffer TEMP_BUFFER_SIZE_FOR_PROFILES_COUNT in
             if sent : bool then
               if sw_success sw then
                 if dataBufferSize >? 0 then
                   let* data := load_bytes requestResponseBuffer in
                   let* '(ok, info) := _extractDataFromGetProfileInfoRawData (Some (GetProfilesInfo 0 0 0 None))
                                         (Some data) dataBufferSize false false in
                   if ok : bool then ret (true, gpi_numberProfileInfoFound <$> info)
                   else fail LPA_ERROR_LOCAL_PROFILE_UNABLE_TO_EXTRACT_DATA (Some 0)
                 else ret (false, Some 0)
               else fail LPA_ERROR_INVALID_SW (Some 0)
             else fail LPA_ERROR_INVALID_GET_PROFILES_INFO_EXCHANGE (Some 0)) in
        ERASE_RAWDATAOBJECT request ;;
        lpaCoreMemoryFree requestResponseBuffer ;;
        ret r
  | None => fail LPA_ERROR_INVALID_PARAMETER None
  end.

(** LPA_SDK__NUMBER_OF_RETRY_FOR_CHAINED_GET_RESPONSE is 2 in the build. *)
Definition LPA_LOOP_NUMBER_FOR_CHAINED_GET_RESPONSE : nat := 3.

Definition is_chaining_error (e : LPA_API_ERROR) : bool := bool_decide (e = SE_MEDIA_E_CHAINING_GET_RESPONSE).

(** The [while] of [lpaManagerGetProfilesNumber]; [nbExecGetResp] is [n]. *)
Fixpoint profiles_number_loop (n : nat) (r : bool * option Z) : M (bool * option Z) :=
  match n with
  | O => ret r
  | S n =>
      let* r := lpaManagerES10c_GetProfilesNumber r.2 in
      let* e := getErrorNoClear in
      if is_chaining_error e then
        (if (0 <? n)%nat then resetError else ret tt) ;;
        profiles_number_loop n r
      else ret r
  end.

Definition lpaManagerGetProfilesNumber (ptrNumberOfProfiles : option Z) : M (bool * option Z) :=
  profiles_number_loop LPA_LOOP_NUMBER_FOR_CHAINED_GET_RESPONSE (true, ptrNumberOfProfiles).

(** [memset] of the first [n] elements of the list of the caller. *)
Definition reset_list (p : ptr) (n : Z) : M unit :=
  let* l := load_infos p in
  let* l := of_option (wr_range l 0 (replicate (Z.to_nat n) zero_profile_info)) in
  store p (BInfos l).

Definition reset_ppr_list (p : ptr) (n : Z) : M unit :=
  let* l := load_ppr_infos p in
  let* l := of_option (wr_range l 0 (replicate (Z.to_nat n) zero_profile_info_for_ppr)) in
  store p (BPprInfos l).

(** The list of a request for the policy check, zeroed. *)
Definition alloc_ppr_list (n : Z) : M ptr :=
  let* p := lpaCoreMemoryAlloc (n * sizeof_LPA_PROFILE_INFO_FOR_PPR) in
  (if isNull p then ret tt else store p (BPprInfos (replicate (Z.to_nat n) zero_profile_info_for_ppr))) ;;
  ret p.

(** The exchange of the request [value] for the profiles, with its response
    buffer. *)
Definition profiles_request (value : list Z) (requestForPPRmanagement : bool) (fullProfileInfoBuffer : ptr) (size : Z)
    (info : get_profiles_info) : M (bool * get_profiles_info) :=
  let* request := berTLV_createAndBuildRawDataObject GET_PROFILE_INFO_DGI_TAG (zlen value) (Some value) in
  let* r :=
    (if isNull request then fail LPA_ERROR_INSUFFICIENT_BUFFER info
     else
       let* '(sent, sw, dataBufferSize) := storeData_to request fullProfileInfoBuffer size in
       if sent : bool then
         if sw_success sw then
           if dataBufferSize >? 0 then
             let* data := load_bytes fullProfileInfoBuffer in
             let* '(ok, x) := _extractDataFromGetProfileInfoRawData (Some info) (Some data) dataBufferSize
                                true requestForPPRmanagement in
             let info := default info x in
             if ok : bool then ret (true, info)
             else fail LPA_ERROR_LOCAL_PROFILE_UNABLE_TO_EXTRACT_DATA info
           else ret (false, info)
         else fail LPA_ERROR_INVALID_SW info
       else fail LPA_ERROR_INVALID_GET_PROFILES_INFO_EXCHANGE info) in
  ERASE_RAWDATAOBJECT request ;;
  lpaCoreMemoryFree fullProfileInfoBuffer ;;
  ret r.

(** The result, the structure and [*continueRetry]; the pointers to the last
    two are not [NULL]. *)
Definition lpaManagerES10c_GetProfilesInfo (info : get_profiles_info) (continueRetry requestForPPRmanagement : bool)
    : M (bool * get_profiles_info * bool) :=
  let '(GetProfilesInfo _ _ max list) := info in
  if (negb (isNull list) && (max >? 0)) || requestForPPRmanagement then
    let info := GetProfilesInfo 0 0 max list in
    (if requestForPPRmanagement then if isNull list then ret tt else lpaCoreMemoryFree list
     else reset_list list max) ;;
    let* '(resCount, number) := lpaManagerGetProfilesNumber (Some 0) in
    let numberOfProfilesOnEUICC := default 0 number in
    let* e := getErrorNoClear in
    let continueRetry := negb (is_chaining_error e) in
    if resCount : bool then
      if numberOfProfilesOnEUICC >? 0 then
        let* info :=
          (if requestForPPRmanagement
           then let* p := alloc_ppr_list numberOfProfilesOnEUICC in
                ret (GetProfilesInfo 0 0 numberOfProfilesOnEUICC p)
           else ret info) in
        if isNull (gpi_profileInfoList info) then
          let* '(res, info) := fail LPA_ERROR_INSUFFICIENT_BUFFER info in ret (res, info, continueRetry)
        else
          let fullProfileInfoBufferSize :=
            10 + numberOfProfilesOnEUICC * (if requestForPPRmanagement then LPA_PROFILE_INFO_BUFFER_MAX_SIZE_FOR_PPR
                                            else LPA_PROFILE_INFO_BUFFER_MAX_SIZE) in
          let* fullProfileInfoBuffer := lpaCoreMemoryAlloc fullProfileInfoBufferSize in
          if isNull fullProfileInfoBuffer then
            setError LPA_ERROR_INSUFFICIENT_BUFFER ;;
            (if requestForPPRmanagement then lpaCoreMemoryFree (gpi_profileInfoList info) else ret tt) ;;
            ret (false, info, continueRetry)
          else
            let* '(res, info) :=
              profiles_request (if requestForPPRmanagement then PROFILE_INFO_FOR_PPR_MGT_REQUEST
                                else PROFILE_INFO_FOR_CUSTOM_REQUEST)
                requestForPPRmanagement fullProfileInfoBuffer fullProfileInfoBufferSize info in
            ret (res, info, continueRetry)
      else ret (true, info, continueRetry)
    else
      let* '(res, info) := fail LPA_ERROR_LOCAL_PROFILE_UNABLE_TO_EXTRACT_DATA info in
      ret (res, info, continueRetry)
  else
    let* '(res, info) := fail LPA_ERROR_INVALID_PARAMETER info in ret (res, info, continueRetry).

(** The variant that takes the number of profiles from the caller, and whose
    list is one for the policy check. *)
Definition lpaManagerES10c_GetProfilesInfo_ex (info : get_profiles_info) (continueRetry requestForPPRmanagement : bool)
    : M (bool * get_profiles_info * bool) :=
  let '(GetProfilesInfo _ _ max list) := info in
  if (negb (isNull list) && (max >? 0)) || requestForPPRmanagement then
    let info := GetProfilesInfo 0 0 max list in
    (if isNull list then ret tt else reset_ppr_list list max) ;;
    let numberOfProfilesOnEUICC := max in
    let* e := getErrorNoClear in
    let continueRetry := negb (is_chaining_error e) in
    if numberOfProfilesOnEUICC >? 0 then
      let fullProfileInfoBufferSize := 10 + numberOfProfilesOnEUICC * LPA_PROFILE_INFO_BUFFER_MAX_SIZE_FOR_PPR in
      let* fullProfileInfoBuffer := lpaCoreMemoryAlloc fullProfileInfoBufferSize in
      if isNull fullProfileInfoBuffer then
        let* '(res, info) := fail LPA_ERROR_INSUFFICIENT_BUFFER info in ret (res, info, continueRetry)
      else
        let* '(res, info) :=
          profiles_request PROFILE_INFO_FOR_PPR_MGT_REQUEST requestForPPRmanagement
            fullProfileInfoBuffer fullProfileInfoBufferSize info in
        ret (res, info, continueRetry)
    else ret (true, info, continueRetry)
  else
    let* '(res, info) := fail LPA_ERROR_INVALID_PARAMETER info in ret (res, info, continueRetry).

(** The [while] of the three functions below, around the request [get]. *)
Fixpoint profiles_info_loop (get : get_profiles_info → bool → M (bool * get_profiles_info * bool))
    (n : nat) (r : bool * get_profiles_info * bool) : M (bool * get_profiles_info * bool) :=
  match n with
  | O => ret r
  | S n =>
      let '(res, info, continueRetry) := r in
      if continueRetry : bool then
        let* '(res, info, continueRetry) := get info continueRetry in
        let* e := getErrorNoClear in
        if is_chaining_error e then
          (if (0 <? n)%nat && continueRetry then resetError else ret tt) ;;
          profiles_info_loop get n (res, info, continueRetry)
        else ret (res, info, continueRetry)
      else ret r
  end.

Definition lpaManagerGetProfilesInfo (info : get_profiles_info) : M (bool * get_profiles_info) :=
  let* '(res, info, _) :=
    profiles_info_loop (λ info c, lpaManagerES10c_GetProfilesInfo info c false)
      LPA_LOOP_NUMBER_FOR_CHAINED_GET_RESPONSE (true, info, true) in
  ret (res, info).

Definition lpaManagerGetProfilesInfo_ex (info : get_profiles_info) : M (bool * get_profiles_info) :=
  let* '(res, info, _) :=
    profiles_info_loop (λ info c, lpaManagerES10c_GetProfilesInfo_ex info c true)
      LPA_LOOP_NUMBER_FOR_CHAINED_GET_RESPONSE (true, info, true) in
  ret (res, info).

Definition _getProfilesInfoForPPR (info : get_profiles_info) : M (bool * get_profiles_info) :=
  let '(GetProfilesInfo _ _ max list) := info in
  let* '(res, info, _) :=
    profiles_info_loop (λ info c, lpaManagerES10c_GetProfilesInfo info c true)
      LPA_LOOP_NUMBER_FOR_CHAINED_GET_RESPONSE (true, GetProfilesInfo 0 0 max list, true) in
  ret (res, info).
End code.

(** ** Reference *)

(** The verdict on the data of an answer: the value of the object 80 inside of
    the object of tag [tag]. *)
Definition response_verdict (tag : Z) (verdict : Z → option LPA_API_ERROR) (data : list Z) : option LPA_API_ERROR :=
  match data with
  | [] => Some LPA_ERROR_INVALID_PARAMETER
  | _ => match (first_tag tag data).2 ≫= λ v, (first_tag 0x80 v).2 with
         | Some [b] => verdict b
         | _ => Some LPA_ERROR_LOCAL_PROFILE_INCORRECT_CARD_RESPONSE
         end
  end.

(** The content of the request of an operation on the profile [id]. *)
Definition operation_content (op : PROFILE_OPERATION) (refresh : bool) (id : list Z) : list Z :=
  if is_enable_or_disable op
  then tlv_bytes 0xA0 (tlv_bytes PROFILE_ICCID_TAG id) ++ tlv_bytes 0x81 [if refresh then 0xFF else 0x00]
  else tlv_bytes PROFILE_ICCID_TAG id.
Definition operation_request (op : PROFILE_OPERATION) (refresh : bool) (id : list Z) : list Z :=
  tlv_bytes (operation_tag op) (operation_content op refresh id).

Definition operation_judge (op : PROFILE_OPERATION) : list Z → option LPA_API_ERROR :=
  match op with
  | enableProfile => response_verdict ENABLE_PROFILE_DGI_TAG enable_verdict
  | disableProfile => response_verdict DISABLE_PROFILE_DGI_TAG disable_verdict
  | deleteProfile => response_verdict DELETE_PROFILE_DGI_TAG delete_verdict
  end.

(** The name of a profile. *)
Definition nickname_request (id name : list Z) : list Z :=
  tlv_bytes SET_NICKNAME_TAG (tlv_bytes PROFILE_ICCID_TAG id ++ tlv_bytes PROFILE_NICKNAME_TAG name).

(** The reset of the memory: no data is a success. *)
Definition reset_request (opts : list Z) : list Z := tlv_bytes MEMORY_RESET_TAG (tlv_bytes 0x82 opts).
Definition reset_status (data : list Z) : LPA_MEMORY_RESET_STATUS :=
  match (first_tag MEMORY_RESET_TAG data).2 ≫= λ v, (first_tag 0x80 v).2 with
  | Some [b] => if b =? 0 then LPA_MEMORY_RESET_OK
                else if b =? 1 then LPA_MEMORY_RESET_NOTHING_TO_DELETE
                else if b =? 5 then LPA_MEMORY_RESET_CAT_BUSY
                else if b =? 127 then LPA_MEMORY_RESET_UNDEFINED_ERROR
                else LPA_MEMORY_RESET_UNKNOWN
  | _ => LPA_MEMORY_RESET_UNKNOWN
  end.
Definition reset_judge (data : list Z) : option LPA_API_ERROR :=
  match data with [] => None | _ => reset_verdict (reset_status data) end.

(** The EID: the result, the error reported and the structure. *)
Definition eid_outcome (eid : LPA_GET_EID) (data : list Z) : bool * option LPA_API_ERROR * LPA_GET_EID :=
  match (first_tag GET_EID_DGI_TAG data).2 with
  | Some v => match (first_tag 0x5A v).2 with
              | Some w => if zlen w <=? LPA_GET_EID_BUFFER_SIZE
                          then (true, None, GetEid (put (EID_Data eid) w) (zlen w))
                          else (false, Some LPA_ERROR_INSUFFICIENT_BUFFER, eid)
              | None => (false, None, eid)
              end
  | None => (false, Some LPA_ERROR_LOCAL_PROFILE_UNABLE_TO_EXTRACT_DATA, eid)
  end.
Definition eid_exchange (eid : LPA_GET_EID) (x : bool * Z * list Z * Z) : bool * option LPA_API_ERROR * LPA_GET_EID :=
  let '(sent, sw, buf, size) := x in
  let eid := GetEid (EID_Data eid) 0 in
  if sent then
    if sw_success sw then
      if 0 <? size then eid_outcome eid (take (Z.to_nat size) buf) else (true, None, eid)
    else (false, Some LPA_ERROR_INVALID_SW, eid)
  else (false, Some LPA_ERROR_INVALID_GET_EID_EXCHANGE, eid).

(** ** Proofs *)

Section proofs.
Context {D : Type} (nf : bool).
Implicit Types (g : sdk D).

Lemma wp_extract_response tag verdict src n g Φ :
  0 <= n <= zlen src → Forall is_byte (take (Z.to_nat n) src) →
  (∀ r, ⟦nf = true → r = response_verdict tag verdict (take (Z.to_nat n) src)⟧ -∗
     Φ (bool_decide (r = None)) (reporting_opt r g)) -∗
  wp nf (extract_response tag verdict (Some src) n) g Φ.
Proof.
  iIntros (Hn Hb) "HΦ". rw /extract_response. destruct (Z.gtb_spec n 0).
  2: { wp_seq. iApply wp_setError. wp_value. iApply ("HΦ" $! (Some LPA_ERROR_INVALID_PARAMETER)).
       iPureIntro. intros _. by rw (_ : n = 0); [|lia]. }
  assert (take (Z.to_nat n) src ≠ []) as Hne.
  { intros E. apply (f_equal zlen) in E. rw zlen_take in E. change (zlen []) with 0 in E. lia. }
  set (data := take _ src) in *. wp_seq. iApply wp_extractTag16; [done..|]. iIntros (p _ r1) "%H1 Hp".
  iDestruct (maybe_null with "Hp") as "[%En Hp]". rw En. wp_seq.
  assert (response_verdict tag verdict data =
    match (first_tag tag data).2 ≫= λ v, (first_tag 0x80 v).2 with
    | Some [b] => verdict b | _ => Some LPA_ERROR_LOCAL_PROFILE_INCORRECT_CARD_RESPONSE end) as Ev.
  { rw /response_verdict. by destruct data. }
  destruct r1 as [v|]; cbn [present negb].
  2: { iApply wp_fail. wp_seq. iApply (wp_erase _ None 0 None); [done|]. wp_seq.
       iApply (wp_erase with "Hp"). wp_value. iApply ("HΦ" $! (Some _)). iPureIntro. intros Hnf.
       rw Hnf in H1. apply chosen_nf in H1. by rw Ev -H1. }
  destruct H1 as [H1|[_ H1]]; [|done]. wp_seq.
  iApply (wp_extractTag16_of with "Hp"); [by apply (first_tag_byte tag data)|].
  iIntros (q r2) "%H2 Hp Hq". wp_seq. iApply (wp_result_byte with "Hq"). iIntros "Hq".
  assert (nf = true → response_verdict tag verdict data =
    match one_byte r2 with Some b => verdict b | None => Some LPA_ERROR_LOCAL_PROFILE_INCORRECT_CARD_RESPONSE end) as Hr.
  { intros Hnf. rw Hnf in H2. apply chosen_nf in H2. rw Ev -H1. cbn [mbind option_bind]. rw -H2.
    by destruct r2 as [[|b [|c w]]|]. }
  set (r := match one_byte r2 with Some b => verdict b
                                 | None => Some LPA_ERROR_LOCAL_PROFILE_INCORRECT_CARD_RESPONSE end).
  iApply (wp_wand _ _ _ (λ x g', ⟦x = (bool_decide (r = None), q) ∧ g' = reporting_opt r g⟧)%I).
  { rw /r. destruct (one_byte r2) as [b|]; [|by iApply wp_fail].
    destruct (verdict b) as [e|]; [by iApply wp_fail|by wp_value]. }
  iIntros (x g') "%Hx". destruct Hx as [-> ->]. wp_seq. iApply (wp_erase with "Hq").
  wp_seq. iApply (wp_erase _ p tag (Some v) with "Hp"). wp_value. iApply ("HΦ" $! r). iPureIntro. intros Hnf. by rw Hr.
Qed.
End proofs.

(** ** Exchanges, when no allocation fails *)

Section exchanges.
Context {D : Type}.
Implicit Types (g : sdk D) (x : bool * Z * list Z * Z).

(** The globals after an exchange through [_dataBuffer]. *)
Definition answered x (a : globals D) g : sdk D := answered_in ES10c x a g.

(** The exchange of [request] that [g] has ahead. *)
Definition exchanges : list Z → sdk D → bool * Z * list Z * Z → globals D → Prop := exchanges_in ES10c None.

Lemma exchanges_fits request g x a : exchanges request g x a → 0 <= x.2 <= zlen x.1.2.
Proof. intros Hx. apply exchanges_in_fits in Hx; [|apply room_all]. lia. Qed.

Lemma wp_response tag verdict src n g Φ :
  0 <= n <= zlen src → Forall is_byte (take (Z.to_nat n) src) →
  Φ (bool_decide (response_verdict tag verdict (take (Z.to_nat n) src) = None))
    (reporting_opt (response_verdict tag verdict (take (Z.to_nat n) src)) g) -∗
  wp true (extract_response (D := D) tag verdict (Some src) n) g Φ.
Proof.
  iIntros (Hn Hb) "HΦ". iApply wp_extract_response; [done..|]. iIntros (r) "%Hr". by rw Hr.
Qed.
End exchanges.

Section operations.
Context {D : Type}.
Implicit Types (g : sdk D).

Lemma wp_refresh_objects p id g Φ :
  zlen id < 2 ^ 16 → raw p (tlv_bytes PROFILE_ICCID_TAG id) -∗
  (∀ a r, raw p (tlv_bytes PROFILE_ICCID_TAG id) -∗
     raw (Some a) (tlv_bytes 0xA0 (tlv_bytes PROFILE_ICCID_TAG id)) -∗
     raw (Some r) (tlv_bytes 0xA0 (tlv_bytes PROFILE_ICCID_TAG id) ++
                   tlv_bytes 0x81 [if _refreshFlagActivated g then 0xFF else 0x00]) -∗
     Φ (Some a, Some r) g) -∗
  wp true (refresh_objects p) g Φ.
Proof.
  iIntros (Hid) "Hp HΦ". set (tp := tlv_bytes PROFILE_ICCID_TAG id).
  pose proof (tlv_bytes_bound PROFILE_ICCID_TAG id). pose proof (tlv_bytes_bound 0xA0 tp). pows.
  wp_seq. destruct p as [l|]; [|by iDestruct "Hp" as (l d) "(%E & ?)"]. cbn [isNull].
  wp_seq. iApply (wp_wrap with "Hp"); [done|pows; rw -/tp in H; lia|]. iIntros (a) "Hp Ha".
  wp_seq. iApply (wp_deref with "Ha"). iIntros "Ha". wp_value. cbn [isNull].
  wp_seq. iApply wp_get_globals. wp_seq. iApply (wp_build 0x81 [_]); [done..|]. iIntros (f) "Hf". cbn [isNull].
  wp_seq. iApply (wp_concat with "Ha Hf").
  { change (2 ^ 64) with 18446744073709551616. pose proof (tlv_bytes_bound 0x81 [if _refreshFlagActivated g then 0xFF else 0x00]) as Hf.
    change (zlen [_]) with 1 in Hf. rw -/tp in H. lia. }
  iIntros (r) "Ha Hf Hr". wp_seq. iApply (wp_deref with "Hr"). iIntros "Hr".
  wp_seq. iApply (wp_erase_obj with "Hf"). wp_value. iApply ("HΦ" with "Hp Ha Hr").
Qed.

Lemma operation_response_ok op src n g Φ :
  0 <= n <= zlen src → Forall is_byte (take (Z.to_nat n) src) →
  Φ (bool_decide (operation_judge op (take (Z.to_nat n) src) = None))
    (reporting_opt (operation_judge op (take (Z.to_nat n) src)) g) -∗
  wp true (operation_response (D := D) op (Some src) n) g Φ.
Proof. destruct op; apply wp_response. Qed.

Lemma operation_content_size op refresh id : zlen id < 2 ^ 16 → zlen (operation_content op refresh id) < 2 ^ 17.
Proof.
  intros Hid. pose proof (tlv_bytes_bound PROFILE_ICCID_TAG id).
  pose proof (tlv_bytes_bound 0xA0 (tlv_bytes PROFILE_ICCID_TAG id)).
  pose proof (tlv_bytes_bound 0x81 [if refresh then 0xFF else 0]) as H81. change (zlen [_]) with 1 in H81.
  pose proof (zlen_app (tlv_bytes 0xA0 (tlv_bytes PROFILE_ICCID_TAG id)) (tlv_bytes 0x81 [if refresh then 0xFF else 0])).
  rw /operation_content. change (2 ^ 17) with 131072. pows. destruct (is_enable_or_disable op); lia.
Qed.

Lemma operation_tag_range op : 0 <= operation_tag op < 2 ^ 16.
Proof. by destruct op. Qed.

(** C23: Enabling, disabling and deleting a profile (functional): the request
    sent to the eUICC is the encoding of the operation on the identifier, with
    the refresh flag for the first two; the answer is true exactly when the
    exchange succeeds, the status word is a success and the result in the
    response is 0, and otherwise the error of the table of the operation is
    reported; nothing stays allocated. *)
Theorem profile_operation (op : PROFILE_OPERATION) (id : list Z) (g : sdk D) x (a : globals D) :
  0 < zlen id < 2 ^ 16 → exchanges (operation_request op (_refreshFlagActivated g) id) g x a →
  triple true emp%I (_doProfileOperationByIccid op (Some id) (zlen id)) g
    (λ res g', let v := exchange_verdict LPA_ERROR_LOCAL_PROFILE_INVALID_DATA_EXCHANGE
                          LPA_ERROR_LOCAL_PROFILE_INCORRECT_CARD_RESPONSE (operation_judge op) x in
       ⟦res = bool_decide (v = None) ∧ g' = reporting_opt v (answered x a g)⟧)%I.
Proof.
  intros Hid Hx. iIntros "_". rw /_doProfileOperationByIccid (_ : (zlen id >? 0) = true); [|lia].
  pose proof (operation_content_size op (_refreshFlagActivated g) id (proj2 Hid)) as Hsz.
  rw /operation_request in Hx.
  set (dgi := tlv_bytes (operation_tag op) _) in *.
  assert (zlen dgi < 2 ^ 32) as Hdgi.
  { rw /dgi. pose proof (tlv_bytes_bound (operation_tag op) (operation_content op (_refreshFlagActivated g) id)).
    change (2 ^ 17) with 131072 in Hsz. pows. lia. }
  assert (zlen (operation_content op (_refreshFlagActivated g) id) < 2 ^ 24) as Hsz24.
  { change (2 ^ 17) with 131072 in Hsz. pows. lia. }
  wp_seq. iApply wp_build; [done|pows; lia|]. iIntros (p) "Hp". cbn [isNull]. wp_seq. wp_value.
  rw /dgi /operation_content in Hx Hdgi Hsz24 *. destruct (is_enable_or_disable op) eqn:Eop.
  - wp_seq. iApply (wp_refresh_objects with "Hp"); [lia|]. iIntros (a0 r) "Hp Ha Hr". cbn [isNull].
    wp_seq. wp_seq. iApply (wp_wrap with "Hr"); [apply operation_tag_range|done|]. iIntros (q) "Hr Hq".
    cbn [isNull]. wp_seq. wp_value. wp_value. wp_seq. cbn [isNull].
    iApply (wp_judged ES10c None _ _ (operation_judge op) with "Hq"); [apply room_all|apply tlv_bytes_nonempty|done|exact Hx|apply operation_response_ok|].
    iIntros "Hq". wp_seq. iApply (wp_erase_obj with "Hq"). wp_seq. iApply (wp_erase_obj with "Ha").
    wp_seq. iApply (wp_erase_obj with "Hr"). wp_seq. iApply (wp_erase_obj with "Hp"). by wp_value.
  - wp_seq. wp_value. wp_seq. cbn [isNull]. wp_seq. iApply (wp_wrap with "Hp"); [apply operation_tag_range|done|].
    iIntros (q) "Hp Hq". cbn [isNull]. wp_seq. wp_value. wp_value. wp_seq. cbn [isNull].
    iApply (wp_judged ES10c None _ _ (operation_judge op) with "Hq"); [apply room_all|apply tlv_bytes_nonempty|done|exact Hx|apply operation_response_ok|].
    iIntros "Hq". wp_seq. iApply (wp_erase_obj with "Hq"). wp_seq. iApply wp_erase_none.
    wp_seq. iApply wp_erase_none. wp_seq. iApply (wp_erase_obj with "Hp"). by wp_value.
Qed.

(** Naming a profile (functional): an identifier and a name of at most 64
    bytes, possibly empty, are sent in one request, and the answer is the
    verdict on the response; a longer name is refused and nothing is sent. *)
Theorem set_nickname (id name : list Z) (g : sdk D) x (a : globals D) :
  0 < zlen id < 2 ^ 16 → exchanges (nickname_request id name) g x a →
  triple true emp%I (lpaManagerES10c_SetNickname (Some id) (zlen id) (Some name) (zlen name)) g
    (λ res g',
       if zlen name <=? LPA_PROFILE_NICKNAME_MAX_SIZE then
         let v := exchange_verdict LPA_ERROR_LOCAL_PROFILE_INVALID_DATA_EXCHANGE
                    LPA_ERROR_LOCAL_PROFILE_INCORRECT_CARD_RESPONSE
                    (response_verdict SET_NICKNAME_TAG nickname_verdict) x in
         ⟦res = bool_decide (v = None) ∧ g' = reporting_opt v (answered x a g)⟧
       else ⟦res = false ∧ g' = reporting LPA_ERROR_INVALID_PARAMETER g⟧)%I.
Proof.
  intros Hid Hx. iIntros "_". rw /lpaManagerES10c_SetNickname. pose proof (zlen_nonneg name).
  rw (_ : (zlen id >? 0) = true); [|lia]. rw (_ : (zlen name >=? 0) = true); [|lia]. cbn [andb].
  destruct (Z.leb_spec (zlen name) LPA_PROFILE_NICKNAME_MAX_SIZE) as [Hname|].
  2: { wp_seq. iApply wp_setError. by wp_value. }
  rw /LPA_PROFILE_NICKNAME_MAX_SIZE in Hname.
  pose proof (tlv_bytes_bound PROFILE_ICCID_TAG id). pose proof (tlv_bytes_bound PROFILE_NICKNAME_TAG name).
  rw /nickname_request in Hx. set (ti := tlv_bytes PROFILE_ICCID_TAG id) in *. set (tn := tlv_bytes PROFILE_NICKNAME_TAG name) in *.
  pose proof (zlen_app ti tn) as Hl. pose proof (tlv_bytes_bound SET_NICKNAME_TAG (ti ++ tn)). pows.
  wp_seq. iApply wp_build; [done|pows; lia|]. iIntros (p) "Hp". rw -/ti. cbn [isNull]. wp_seq. wp_value.
  wp_seq. iApply wp_build; [done|pows; lia|]. iIntros (q) "Hq". rw -/tn. cbn [isNull negb andb]. wp_seq. wp_value.
  wp_seq. wp_seq. iApply (wp_concat with "Hp Hq"); [change (2 ^ 64) with 18446744073709551616; lia|].
  iIntros (r) "Hp Hq Hr". cbn [isNull]. wp_seq. iApply (wp_wrap with "Hr"); [done|pows; lia|].
  iIntros (s) "Hr Hs". cbn [isNull]. wp_seq. wp_value. wp_value. wp_seq. cbn [isNull].
  iApply (wp_judged ES10c None _ _ (response_verdict SET_NICKNAME_TAG nickname_verdict) with "Hs");
    [apply room_all|apply tlv_bytes_nonempty|pows; lia|exact Hx|intros; by apply wp_response|].
  iIntros "Hs". wp_seq. iApply (wp_erase_obj with "Hp"). wp_seq. iApply (wp_erase_obj with "Hq").
  wp_seq. iApply (wp_erase_obj with "Hr"). wp_seq. iApply (wp_erase_obj with "Hs"). by wp_value.
Qed.

Lemma wp_reset_response src n g Φ :
  0 < n <= zlen src → Forall is_byte (take (Z.to_nat n) src) →
  Φ (reset_status (take (Z.to_nat n) src)) g -∗
  wp true (_doExtractMemoryResetResponse (D := D) (Some src) n) g Φ.
Proof.
  iIntros (Hn Hb) "HΦ". rw /_doExtractMemoryResetResponse (_ : (n >? 0) = true); [|lia].
  set (data := take _ src) in *. wp_seq. iApply wp_extractTag16; [lia|done|]. iIntros (p _ r1) "%H1 Hp".
  apply chosen_nf in H1. iDestruct (maybe_null with "Hp") as "[%En Hp]". rw En. rw /reset_status -/data -H1.
  iAssert (wp true (if negb (present r1) then ret None else extractTag16_of 0x80 p) g
    (λ q g', ⟦g' = g⟧ ∗ maybe_tlv p MEMORY_RESET_TAG r1 ∗ maybe_tlv q 0x80 (r1 ≫= λ v, (first_tag 0x80 v).2)))%I
    with "[Hp]" as "Hq".
  { destruct r1 as [v|]; cbn [present negb mbind option_bind]; [|wp_value; by iFrame].
    iApply (wp_extractTag16_of with "Hp"); [by apply (first_tag_byte MEMORY_RESET_TAG data)|].
    iIntros (q r2) "%H2 Hp Hq". apply chosen_nf in H2 as ->. by iFrame. }
  wp_seq. iApply (wp_wand with "Hq"). iIntros (q g') "(-> & Hp & Hq)".
  wp_seq. iApply (wp_result_byte with "Hq"). iIntros "Hq".
  wp_seq. iApply (wp_erase with "Hq"). wp_seq. iApply (wp_erase with "Hp"). wp_value.
  destruct (r1 ≫= _) as [[|b [|c w]]|]; done.
Qed.

(** Resetting the memory of the eUICC (functional): the option is sent, and
    the answer is true exactly when the exchange succeeds with no data or with
    the result 0; otherwise the error of the result is reported. *)
Theorem memory_reset (opts : list Z) (g : sdk D) x (a : globals D) :
  zlen opts = 2 → exchanges (reset_request opts) g x a →
  triple true emp%I (lpaManagerES10c_MemoryReset (Some opts) (zlen opts)) g
    (λ res g', let v := exchange_verdict LPA_ERROR_INVALID_MEMORY_RESET_EXCHANGE
                          LPA_ERROR_LOCAL_PROFILE_INCORRECT_CARD_RESPONSE reset_judge x in
       ⟦res = bool_decide (v = None) ∧ g' = reporting_opt v (answered x a g)⟧)%I.
Proof.
  intros Ho Hx. iIntros "_". rw /lpaManagerES10c_MemoryReset /MEMORY_RESET_OPTION_SIZE {1}Ho. cbn [Z.eqb Pos.eqb].
  pose proof (tlv_bytes_bound 0x82 opts). rw /reset_request in Hx. set (t := tlv_bytes 0x82 opts) in *.
  pose proof (tlv_bytes_bound MEMORY_RESET_TAG t).
  wp_seq. iApply wp_build; [done|pows; lia|]. iIntros (p) "Hp". rw -/t. cbn [isNull].
  wp_seq. iApply (wp_wrap with "Hp"); [done|pows; lia|]. iIntros (q) "Hp Hq". cbn [isNull].
  wp_seq. wp_seq. iApply (wp_storeData_in with "Hq"); [apply tlv_bytes_nonempty|pows; lia|exact Hx|]. iIntros "Hq".
  pose proof (exchanges_fits _ _ _ _ Hx) as Hn. destruct Hx as [_ Hb]. destruct x as [[[sent sw] buf] n].
  set (v := exchange_verdict _ _ _ _). set (g1 := answered _ a g). cbn [fst snd] in *.
  iApply (wp_wand _ _ _ (λ res g', ⟦res = bool_decide (v = None) ∧ g' = reporting_opt v g1⟧)%I).
  { rw /v /exchange_verdict. destruct sent; [destruct (sw_success sw)|].
    - destruct (Z.eqb_spec n 0) as [->|]; [by wp_value|]. wp_seq. iApply wp_data_of. wp_seq.
      rw dataBuffer_answered. cbn [fst snd]. iApply wp_reset_response; [lia|done|].
      assert (take (Z.to_nat n) buf ≠ []) as Hne.
      { intros E. apply (f_equal zlen) in E. rw zlen_take in E. change (zlen []) with 0 in E. lia. }
      rw /reset_judge. destruct (take (Z.to_nat n) buf) as [|b data] eqn:E; [done|].
      destruct (reset_verdict _); [wp_seq; iApply wp_setError; by wp_value|by wp_value].
    - wp_seq. iApply wp_setError. by wp_value.
    - wp_seq. iApply wp_setError. by wp_value. }
  iIntros (res g') "%Hr". destruct Hr as [-> ->]. wp_seq. iApply (wp_erase_obj with "Hp").
  wp_seq. iApply (wp_erase_obj with "Hq"). by wp_value.
Qed.

Lemma wp_eid_response src n eid g Φ :
  0 < n <= zlen src → Forall is_byte (take (Z.to_nat n) src) → zlen (EID_Data eid) = LPA_GET_EID_BUFFER_SIZE →
  (let '(ok, e, eid') := eid_outcome eid (take (Z.to_nat n) src) in Φ (ok, Some eid') (reporting_opt e g)) -∗
  wp true (_doExtractEIDResponse (D := D) (Some src) n (Some eid)) g Φ.
Proof.
  iIntros (Hn Hb He) "HΦ". rw /_doExtractEIDResponse (_ : (n >? 0) = true); [|lia].
  set (data := take _ src) in *. wp_seq. iApply wp_extractTag16; [lia|done|]. iIntros (p _ r1) "%H1 Hp".
  apply chosen_nf in H1. iDestruct (maybe_null with "Hp") as "[%En Hp]". rw En /eid_outcome -/data -H1. wp_seq.
  destruct r1 as [v|]; cbn [present negb].
  2: { wp_seq. iApply wp_setError. wp_value. wp_seq. iApply (wp_erase _ None 0 None); [done|].
       wp_seq. iApply (wp_erase with "Hp"). by wp_value. }
  wp_seq. iApply (wp_extractTag16_of with "Hp"); [by apply (first_tag_byte GET_EID_DGI_TAG data)|].
  iIntros (q r2) "%H2 Hp Hq". apply chosen_nf in H2. iDestruct (maybe_null with "Hq") as "[%En2 Hq]". rw En2 -H2.
  destruct r2 as [w|]; cbn [present negb maybe_tlv].
  2: { wp_value. wp_seq. iApply (wp_erase _ q 0x5A None with "Hq"). wp_seq. iApply (wp_erase _ p GET_EID_DGI_TAG (Some v) with "Hp").
       by wp_value. }
  wp_seq. iApply (wp_tlv_data with "Hq"). iIntros "Hq".
  destruct (Z.leb_spec (zlen w) LPA_GET_EID_BUFFER_SIZE).
  - wp_seq. rw copy_value_ok; [|by rw He]. iApply wp_of_option. wp_value.
    wp_seq. iApply (wp_erase _ q 0x5A (Some w) with "Hq"). wp_seq. iApply (wp_erase _ p GET_EID_DGI_TAG (Some v) with "Hp").
    by wp_value.
  - wp_seq. iApply wp_setError. wp_value. wp_seq. iApply (wp_erase _ q 0x5A (Some w) with "Hq").
    wp_seq. iApply (wp_erase _ p GET_EID_DGI_TAG (Some v) with "Hp"). by wp_value.
Qed.

(** The EID (functional): the identifier of the eUICC is the object 5A of
    the object BF3E of the answer, copied when it has at most 64 bytes; the
    function answers true only when no error has been reported, and an answer
    without data counts as a success. *)
Theorem get_eid (eid : LPA_GET_EID) (g : sdk D) x (a : globals D) :
  zlen (EID_Data eid) = LPA_GET_EID_BUFFER_SIZE →
  exchanges (tlv_bytes GET_EID_DGI_TAG EIDOptionParameter) g x a →
  triple true emp%I (lpaManagerES10c_GetEID (Some eid)) g
    (λ r g', let '(ok, e, eid') := eid_exchange eid x in
       ⟦g' = reporting_opt e (answered x a g) ∧
        r = (ok && bool_decide (errorCode g' = LPA_NO_ERROR), Some eid')⟧)%I.
Proof.
  intros He Hx. iIntros "_". wp_seq. iApply wp_build; [done|done|]. iIntros (p) "Hp". cbn [isNull].
  wp_seq. wp_seq. iApply (wp_storeData_in with "Hp"); [apply tlv_bytes_nonempty|done|exact Hx|]. iIntros "Hp".
  pose proof (exchanges_fits _ _ _ _ Hx) as Hn. destruct Hx as [_ Hb]. destruct x as [[[sent sw] buf] n].
  set (o := eid_exchange _ _). set (g1 := answered _ a g). cbn [fst snd] in *.
  iApply (wp_wand _ _ _ (λ r g', let '(ok, e, eid') := o in ⟦g' = reporting_opt e g1 ∧
    r = (ok && bool_decide (errorCode g' = LPA_NO_ERROR), Some eid')⟧)%I).
  { rw /o /eid_exchange. destruct sent; [|iApply wp_fail; by rw andb_false_l].
    wp_seq. iApply (wp_wand _ _ _ (λ r g', let '(ok, e, eid') := o in ⟦g' = reporting_opt e g1 ∧ r = (ok, Some eid')⟧)%I).
    - rw /o /eid_exchange. destruct (sw_success sw); [|by iApply wp_fail]. rw Z.gtb_ltb.
      destruct (Z.ltb_spec 0 n); [|by wp_value]. wp_seq. iApply wp_data_of. rw dataBuffer_answered. cbn [fst snd].
      iApply wp_eid_response; [lia|done|done|]. by destruct (eid_outcome _ _) as [[ok e] eid'].
    - iIntros (r g') "Hr". fold (eid_exchange eid (true, sw, buf, n)). change (eid_exchange _ _) with o.
      destruct o as [[ok e] eid']. iDestruct "Hr" as %[-> ->].
      wp_seq. iApply wp_isError. wp_value. iPureIntro. split; [done|]. f_equal.
      by destruct (bool_decide _), ok. }
  iIntros (r g') "Hr". wp_seq. iApply (wp_erase_obj with "Hp"). by wp_value.
Qed.
End operations.

(** ** Witnesses *)

Definition sample_id : list Z := [0x98; 0x10; 0x32; 0x54; 0x76; 0x98; 0x10; 0x32; 0x54; 0xF6].

(** The answer to an enabling: result 2, the profile is not disabled. *)
Definition sample_refusal : list Z := [0xBF; 0x31; 0x03; 0x80; 0x01; 0x02; 0x90; 0x00].

Lemma profile_operation_witness :
  ∃ x a, exchanges (operation_request enableProfile true sample_id) (sample_sdk [sample_refusal]) x a ∧
    exchange_verdict LPA_ERROR_LOCAL_PROFILE_INVALID_DATA_EXCHANGE LPA_ERROR_LOCAL_PROFILE_INCORRECT_CARD_RESPONSE
      (operation_judge enableProfile) x = Some LPA_ERROR_LOCAL_PROFILE_NOT_IN_DISABLE_STATE ∧
    triple true emp%I (_doProfileOperationByIccid enableProfile (Some sample_id) (zlen sample_id))
      (sample_sdk [sample_refusal])
      (λ res g', let v := exchange_verdict LPA_ERROR_LOCAL_PROFILE_INVALID_DATA_EXCHANGE
                            LPA_ERROR_LOCAL_PROFILE_INCORRECT_CARD_RESPONSE (operation_judge enableProfile) x in
         ⟦res = bool_decide (v = None) ∧ g' = reporting_opt v (answered x a (sample_sdk [sample_refusal]))⟧)%I.
Proof.
  eexists _, _. split; [split; [vm_compute; reflexivity|answer_bytes]|].
  split; [vm_compute; reflexivity|]. apply profile_operation; [done|].
  split; [vm_compute; reflexivity|answer_bytes].
Defined.

Definition sample_accepted (tag : Z) (b : Z) : list Z := tlv_bytes tag (tlv_bytes 0x80 [b]) ++ [0x90; 0x00].

Lemma set_nickname_witness :
  ∃ x a, exchanges (nickname_request sample_id [0x41]) (sample_sdk [sample_accepted SET_NICKNAME_TAG 0]) x a ∧
    triple true emp%I (lpaManagerES10c_SetNickname (Some sample_id) (zlen sample_id) (Some [0x41]) (zlen [0x41]))
      (sample_sdk [sample_accepted SET_NICKNAME_TAG 0])
      (λ res g', let v := exchange_verdict LPA_ERROR_LOCAL_PROFILE_INVALID_DATA_EXCHANGE
                            LPA_ERROR_LOCAL_PROFILE_INCORRECT_CARD_RESPONSE
                            (response_verdict SET_NICKNAME_TAG nickname_verdict) x in
         ⟦res = bool_decide (v = None) ∧
          g' = reporting_opt v (answered x a (sample_sdk [sample_accepted SET_NICKNAME_TAG 0]))⟧)%I.
Proof.
  eexists _, _. split; [split; [vm_compute; reflexivity|answer_bytes]|].
  refine (set_nickname sample_id [0x41] _ _ _ _ _); [done|].
  split; [vm_compute; reflexivity|answer_bytes].
Defined.

Lemma memory_reset_witness :
  ∃ x a, exchanges (reset_request [0x05; 0xE0]) (sample_sdk [sample_accepted MEMORY_RESET_TAG 1]) x a ∧
    triple true emp%I (lpaManagerES10c_MemoryReset (Some [0x05; 0xE0]) (zlen [0x05; 0xE0]))
      (sample_sdk [sample_accepted MEMORY_RESET_TAG 1])
      (λ res g', let v := exchange_verdict LPA_ERROR_INVALID_MEMORY_RESET_EXCHANGE
                            LPA_ERROR_LOCAL_PROFILE_INCORRECT_CARD_RESPONSE reset_judge x in
         ⟦res = bool_decide (v = None) ∧
          g' = reporting_opt v (answered x a (sample_sdk [sample_accepted MEMORY_RESET_TAG 1]))⟧)%I.
Proof.
  eexists _, _. split; [split; [vm_compute; reflexivity|answer_bytes]|].
  refine (memory_reset [0x05; 0xE0] _ _ _ _ _); [done|].
  split; [vm_compute; reflexivity|answer_bytes].
Defined.

Definition sample_eid : list Z := tlv_bytes GET_EID_DGI_TAG (tlv_bytes 0x5A [0x89; 0x04; 0x90; 0x32]) ++ [0x90; 0x00].

Lemma get_eid_witness :
  ∃ x a, exchanges (tlv_bytes GET_EID_DGI_TAG EIDOptionParameter) (sample_sdk [sample_eid]) x a ∧
    triple true emp%I (lpaManagerES10c_GetEID (Some (GetEid (fill 0 64) 0))) (sample_sdk [sample_eid])
      (λ r g', let '(ok, e, eid') := eid_exchange (GetEid (fill 0 64) 0) x in
         ⟦g' = reporting_opt e (answered x a (sample_sdk [sample_eid])) ∧
          r = (ok && bool_decide (errorCode g' = LPA_NO_ERROR), Some eid')⟧)%I.
Proof.
  assert (∃ x a, exchanges (tlv_bytes GET_EID_DGI_TAG EIDOptionParameter) (sample_sdk [sample_eid]) x a) as (x & a & Hx).
  { eexists _, _. split; [vm_compute; reflexivity|answer_bytes]. }
  exists x, a. split; [exact Hx|]. apply (get_eid (GetEid (fill 0 64) 0) _ x a); [done|exact Hx].
Defined.

(** Without memory for its first object, an enabling reads through NULL. *)
Lemma enable_null_read :
  _doProfileOperationByIccid enableProfile (Some sample_id) (zlen sample_id)
    (World ∅ (replicate 4 false ++ [true]) (sample_sdk [])) = None.
Proof. vm_compute. reflexivity. Qed.
