(* ===== verification/Profiles.v ===== *)
(** * The list of profiles of the eUICC

    The functions of [lpa_manager_es10c.c] that read the list of profiles
    (modelled in Es10c.v): what a list means, that the structures filled from
    it are well formed whatever the card answers, and that a list of installed
    profiles is read back. *)

From stdpp Require Import gmap.
From iris.bi Require Import bi.
From iris.proofmode Require Import proofmode.
From S2P Require Import Prelude StateMonad ApiError ProfileInfo Heap Wp RawData BerTlv TlvWalk SeMedia Apdu Es10 Es10c.

(** ** Reference *)

(** An array of [max] cells and the number of its used ones. *)
Definition room (max : Z) (a : sized) : Prop := zlen (cells a) = max ∧ 0 <= used a <= max.

Definition well_formed (s : profile_struct) : Prop :=
  match s with
  | ForPpr (ProfileInfo i isz st ssz c csz r rsz) =>
      room LPA_PROFILE_ICCID_BUFFER_MAX_SIZE (Sized i isz) ∧ room LPA_PROFILE_STATE_MAX_SIZE (Sized st ssz) ∧
      room LPA_PROFILE_CLASS_MAX_SIZE (Sized c csz) ∧ room LPA_PROFILE_PPR_MAX_SIZE (Sized r rsz)
  | Normal (NormalInfo raw i st sp pn c nick icon itype) =>
      room LPA_PROFILE_INFO_BUFFER_MAX_SIZE raw ∧ room LPA_PROFILE_ICCID_BUFFER_MAX_SIZE i ∧
      room LPA_PROFILE_STATE_MAX_SIZE st ∧ room LPA_PROFILE_SERVICE_PROVIDER_NAME_MAX_SIZE sp ∧
      room LPA_PROFILE_NAME_MAX_SIZE pn ∧ room LPA_PROFILE_CLASS_MAX_SIZE c ∧
      room LPA_PROFILE_NICKNAME_MAX_SIZE nick ∧ room LPA_PROFILE_ICON_MAX_SIZE icon ∧
      room LPA_PROFILE_ICON_TYPE_MAX_SIZE itype
  end.

(** Whether a structure is one for the policy check. *)
Definition is_for_ppr (s : profile_struct) : bool := match s with ForPpr _ => true | Normal _ => false end.

(** A structure after a field was read. *)
Definition with_field (s : profile_struct) (tv : Z * list Z) : profile_struct :=
  default s (store_field tv.1 (zlen tv.2) (value tv.2) s).

(** What the object E3 with the value [v] says of a profile. *)
Definition with_raw (v : list Z) (s : profile_struct) : profile_struct :=
  match s with
  | ForPpr _ => s
  | Normal i => Normal (NormalInfo (Sized (put (cells (n_rawData i)) v) (zlen v)) (n_iccid i) (n_profileState i)
                  (n_serviceProviderName i) (n_profileName i) (n_profileClass i) (n_profileNickname i)
                  (n_profileIcon i) (n_profileIconType i))
  end.
Definition raw_fits (v : list Z) (s : profile_struct) : bool :=
  match s with
  | ForPpr _ => true
  | Normal _ => match v with [] => false | _ => zlen v <=? LPA_PROFILE_INFO_BUFFER_MAX_SIZE end
  end.
Definition description (forPpr : bool) (v : list Z) : profile_struct :=
  let s := zero_struct forPpr in
  if raw_fits v s then foldl with_field (with_raw v s) (default [] (objects v)) else s.

(** The values of the objects E3. *)
Definition profile_values (tvs : list (Z * list Z)) : list (list Z) := snd <$> filter (λ tv, tv.1 = 0xE3) tvs.

(** The content of the object A0 inside of BF2D. *)
Definition list_content (data : list Z) : option (list Z) :=
  (first_tag 0xBF2D data).2 ≫= λ v, (first_tag 0xA0 v).2.

(** The profiles of an answer; an answer whose objects are a multiple of 256
    counts as empty. *)
Definition listed_profiles (data : list Z) : option (list (list Z)) :=
  w ← list_content data; tvs ← objects w; Some (if 0 <? zlen tvs mod 256 then profile_values tvs else []).

(** No value of the list is longer than the data. *)
Definition readable (fill : bool) (data : list Z) : Prop :=
  ∀ w, list_content data = Some w →
    ∃ tvs, objects w = Some tvs ∧ (fill = true → Forall (λ v, is_Some (objects v)) (profile_values tvs)).

(** ** Structures *)

Definition copied (max : Z) (v : list Z) (a : sized) : sized :=
  if bool_decide (v ≠ []) && (zlen v <=? max) then Sized (put (cells a) v) (zlen v) else a.

Lemma copied_room max v a : room max a → room max (copied max v a).
Proof.
  intros Ha. rw /copied. destruct (bool_decide _); cbn [andb]; [|done].
  destruct (Z.leb_spec (zlen v) max); [|done]. destruct Ha as [Hc _]. split; cbn [cells used].
  - rw put_zlen; [done|by rw Hc].
  - split; [apply zlen_nonneg|done].
Qed.

Lemma copy_field_ok max v a : room max a → copy_field max (zlen v) (value v) a = Some (copied max v a).
Proof.
  intros [Hc _]. rw /copy_field /copied. destruct v as [|x v]; [done|]. pose proof (zlen_nonneg v).
  rw (_ : (zlen (x :: v) >? 0) = true); [|rw zlen_cons; lia].
  rw bool_decide_true; [|by eexists]. rw bool_decide_true //. cbn [andb].
  destruct (Z.leb_spec (zlen (x :: v)) max); [|done]. rw copy_value_ok; [done|by rw Hc].
Qed.

Lemma store_field_ok s tag v : well_formed s →
  ∃ s', store_field tag (zlen v) (value v) s = Some s' ∧ well_formed s' ∧ is_for_ppr s' = is_for_ppr s.
Proof.
  intros Hs. destruct s as [[i isz st ssz c csz r rsz]|[raw i st sp pn c nick icon itype]];
    cbn [well_formed] in Hs; rw /store_field; destruct_and!;
    repeat (case_match; [rw copy_field_ok //; cbn [mbind option_bind];
      eexists; split; [done|]; cbn [well_formed is_for_ppr]; split_and!; try done;
      first [by apply copied_room | by (destruct (copied _ _ _) eqn:E; rw -E; apply copied_room)]|]);
    by eexists.
Qed.

Lemma with_field_ok s tv : well_formed s →
  store_field tv.1 (zlen tv.2) (value tv.2) s = Some (with_field s tv) ∧ well_formed (with_field s tv) ∧
  is_for_ppr (with_field s tv) = is_for_ppr s.
Proof.
  intros Hs. destruct (store_field_ok s tv.1 tv.2 Hs) as (s' & E & Hs'). by rw /with_field E.
Qed.

Lemma zero_struct_ok forPpr : well_formed (zero_struct forPpr) ∧ is_for_ppr (zero_struct forPpr) = forPpr.
Proof.
  assert (∀ n, 0 <= n → room n (zero_sized n)) as Hz.
  { intros n Hn. split; cbn [zero_sized cells used]; [by rw zlen_fill // Z.max_r|lia]. }
  destruct forPpr; (split; [|done]); cbn [zero_struct well_formed zero_profile_info_for_ppr zero_profile_info];
    split_and!; by apply Hz.
Qed.

Lemma with_raw_ok v s : well_formed s → raw_fits v s = true →
  well_formed (with_raw v s) ∧ is_for_ppr (with_raw v s) = is_for_ppr s.
Proof.
  destruct s as [[i isz st ssz c csz r rsz]|[raw i st sp pn c nick icon itype]]; [done|].
  cbn [well_formed raw_fits with_raw is_for_ppr n_rawData n_iccid n_profileState n_serviceProviderName n_profileName
    n_profileClass n_profileNickname n_profileIcon n_profileIconType].
  intros (Hr & ?) Hv. split; [|done]. split; [|done].
  destruct v as [|x v]; [done|]. zprop. destruct Hr as [Hr _]. split; cbn [cells used].
  - rw put_zlen; [done|by rw Hr].
  - split; [apply zlen_nonneg|done].
Qed.

Lemma fields_ok tvs s : well_formed s →
  well_formed (foldl with_field s tvs) ∧ is_for_ppr (foldl with_field s tvs) = is_for_ppr s.
Proof.
  revert s. induction tvs as [|tv tvs IH]; intros s Hs; cbn [foldl]; [done|].
  destruct (with_field_ok s tv Hs) as (_ & Hw & Hk). destruct (IH _ Hw) as [? ->]. done.
Qed.

Lemma description_ok forPpr v : well_formed (description forPpr v) ∧ is_for_ppr (description forPpr v) = forPpr.
Proof.
  destruct (zero_struct_ok forPpr) as [Hz Hk]. rw /description. destruct (raw_fits v _) eqn:E; [|done].
  destruct (with_raw_ok v _ Hz E) as [Hw Hk']. destruct (fields_ok (default [] (objects v)) _ Hw) as [? Hk2].
  split; [done|]. by rw Hk2 Hk' Hk.
Qed.

(** ** Reading a profile *)

Section profile.
Context {D : Type} (nf : bool).
Implicit Types (g : sdk D).

(** What the allocator leaves of a description. *)
Definition described_as (forPpr : bool) (v : list Z) (s : profile_struct) : Prop :=
  well_formed s ∧ is_for_ppr s = forPpr ∧ (nf = true → s = description forPpr v).

Lemma wp_profile_fields p tvs s g Φ :
  well_formed s → tlv_list p tvs -∗ (tlv_list p tvs -∗ Φ (foldl with_field s tvs) g) -∗
  wp nf (walk (field_body (D := D)) p s) g Φ.
Proof.
  iIntros (Hs) "Hp HΦ".
  iApply (wp_walk nf skip_null field_body tvs (λ pre s' g', ⟦s' = foldl with_field s pre ∧ g' = g⟧)%I
    (λ s' g', ⟦s' = foldl with_field s tvs ∧ g' = g⟧)%I with "Hp"); [| |done|].
  - intros pre t v post b s' g' Etvs. iIntros "[Ht %H]". destruct H as [-> ->].
    wp_seq. iApply (wp_tlv_data with "Ht"). iIntros "Ht".
    destruct (with_field_ok (foldl with_field s pre) (t, v)) as [E _]; [by apply fields_ok|].
    cbn [fst snd] in E. rw E. wp_seq. iApply wp_of_option. wp_value. iFrame "Ht". iPureIntro.
    by rw foldl_app.
  - by iIntros.
  - iIntros (s' g') "Hp %H". destruct H as [-> ->]. by iApply "HΦ".
Qed.

Lemma wp_update t tg v forPpr g Φ :
  Forall is_byte v → is_Some (objects v) →
  tlv t tg v -∗ (∀ b s, ⟦described_as forPpr v s⟧ -∗ tlv t tg v -∗ Φ (b, s) g) -∗
  wp nf (_updateProfileInfoFromBerTLV (D := D) t forPpr) g Φ.
Proof.
  iIntros (Hv [tvs Ho]) "Ht HΦ". destruct (zero_struct_ok forPpr) as [Hz Hk].
  wp_seq. iApply (wp_tlv_data with "Ht"). iIntros "Ht". set (s0 := zero_struct forPpr) in *.
  wp_seq. iApply (wp_wand _ _ _ (λ r g', ⟦g' = g ∧ r = (raw_fits v s0, if raw_fits v s0 then with_raw v s0 else s0)⟧)%I).
  { destruct s0 as [i|i] eqn:E; [by wp_value|]. destruct v as [|x v]; cbn [value raw_fits]; [by wp_value|].
    destruct (Z.leb_spec (zlen (x :: v)) LPA_PROFILE_INFO_BUFFER_MAX_SIZE); [|by wp_value].
    change (Some (x :: v)) with (value (x :: v)). wp_seq. rw copy_value_ok; [iApply wp_of_option; by wp_value|].
    destruct i as [raw i1 i2 i3 i4 i5 i6 i7 i8]. cbn [well_formed n_rawData] in Hz |- *. destruct Hz as [[Hc _] _]. by rw Hc. }
  iIntros (r g') "%Hr". destruct Hr as [-> ->]. destruct (raw_fits v s0) eqn:Ef.
  2: { wp_value. iApply ("HΦ" with "[] Ht"). iPureIntro. split_and!; [done..|]. intros _. by rw /description -/s0 Ef. }
  destruct (with_raw_ok v s0 Hz Ef) as [Hw Hk']. wp_seq.
  iApply (wp_extractList_of with "Ht"); [done..|]. iIntros (p c) "Ht [%Hn|[_ Hp]]".
  - destruct Hn as [Hnf ->]. wp_value. iApply ("HΦ" with "[] Ht"). iPureIntro. split_and!; [done|by rw Hk' Hk|].
    by rw Hnf.
  - iDestruct (tlv_list_null with "Hp") as "[%En Hp]". rw En.
    assert (description forPpr v = foldl with_field (with_raw v s0) tvs) as Ed by (by rw /description -/s0 Ef Ho).
    case_bool_decide as Et.
    + subst tvs. wp_value. cbn [tlv_list tlv_seg]. iDestruct "Hp" as "_". iApply ("HΦ" with "[] Ht"). iPureIntro.
      split_and!; [done|by rw Hk' Hk|done].
    + wp_seq. iApply (wp_profile_fields with "Hp"); [done|]. iIntros "Hp". wp_seq.
      iApply (freeList_spec with "Hp"). wp_value. iApply ("HΦ" with "[] Ht"). iPureIntro.
      destruct (fields_ok tvs _ Hw) as [? Hk2]. split_and!; [done|by rw Hk2 Hk' Hk|done].
Qed.

(** ** The list of structures *)

(** The block behind a pointer to structures, all of the same type. *)
Definition structs (p : ptr) (forPpr : bool) (ss : list profile_struct) : heapProp :=
  if forPpr then (∃ l xs, ⟦p = Some l ∧ ss = ForPpr <$> xs⟧ ∗ l ↦ BPprInfos xs)%I
  else (∃ l xs, ⟦p = Some l ∧ ss = Normal <$> xs⟧ ∗ l ↦ BInfos xs)%I.

Lemma structs_null p forPpr ss : structs p forPpr ss ⊢ ⟦isNull p = false⟧ ∗ structs p forPpr ss.
Proof.
  iIntros "H". rw /structs. destruct forPpr; iDestruct "H" as (l xs) "[%E H]"; destruct E as [-> E];
    (iSplit; [done|]); iExists l, xs; by iFrame.
Qed.

Lemma wp_store_struct p forPpr ss k s g Φ :
  0 <= k < zlen ss → is_for_ppr s = forPpr →
  structs p forPpr ss -∗ (structs p forPpr (<[Z.to_nat k := s]> ss) -∗ Φ tt g) -∗
  wp nf (store_struct (D := D) p k s) g Φ.
Proof.
  iIntros (Hk Hs) "Hp HΦ". rw /structs /store_struct.
  destruct s as [i|i]; cbn [is_for_ppr] in Hs; subst forPpr; iDestruct "Hp" as (l xs) "[%E Hp]"; destruct E as [-> ->];
    rw zlen_fmap in Hk; wp_seq.
  - iApply (wp_load_ppr_infos with "Hp"). iIntros "Hp". wp_seq. rw wr_Some; [|lia]. iApply wp_of_option.
    iApply (wp_store_block with "Hp"); [cbn [sizeof]; by rw /zlen length_insert|]. iIntros "Hp". iApply "HΦ".
    iExists l, _. iFrame "Hp". iPureIntro. split; [done|]. by rw list_fmap_insert.
  - iApply (wp_load_infos with "Hp"). iIntros "Hp". wp_seq. rw wr_Some; [|lia]. iApply wp_of_option.
    iApply (wp_store_block with "Hp"); [cbn [sizeof]; by rw /zlen length_insert|]. iIntros "Hp". iApply "HΦ".
    iExists l, _. iFrame "Hp". iPureIntro. split; [done|]. by rw list_fmap_insert.
Qed.

(** The first [max] profiles of [vs] have replaced the first elements of [ss0]. *)
Definition filled (forPpr : bool) (max : Z) (vs : list (list Z)) (ss0 ss : list profile_struct) : Prop :=
  ∃ ds, Forall2 (described_as forPpr) (take (Z.to_nat max) vs) ds ∧ ss = ds ++ drop (length ds) ss0.

Lemma filled_nil forPpr max ss0 : filled forPpr max [] ss0 ss0.
Proof. exists []. rw take_nil. done. Qed.

Lemma filled_next forPpr max vs ss0 ss v s :
  zlen vs < max <= zlen ss0 → described_as forPpr v s → filled forPpr max vs ss0 ss →
  zlen vs < zlen ss ∧ filled forPpr max (vs ++ [v]) ss0 (<[length vs := s]> ss).
Proof.
  intros Hm Hs (ds & Hds & ->). rw /zlen in Hm.
  rw (_ : take (Z.to_nat max) vs = vs) in Hds; [|apply take_ge; lia].
  pose proof (Forall2_length _ _ _ Hds) as Hl. split.
  { rw zlen_app zlen_drop. rw /zlen. lia. }
  exists (ds ++ [s]). split.
  - rw (_ : take (Z.to_nat max) (vs ++ [v]) = vs ++ [v]); [|apply take_ge; rw length_app /=; lia].
    apply Forall2_app; [done|by constructor].
  - rw Hl insert_app_r_alt // Nat.sub_diag length_app /=.
    destruct (lookup_lt_is_Some_2 ss0 (length ds)) as [x Hx]; [lia|].
    rw (drop_S _ _ _ Hx) -app_assoc /=. by rw Nat.add_1_r.
Qed.

Lemma filled_zlen forPpr max vs ss0 ss :
  0 <= max <= zlen ss0 → filled forPpr max vs ss0 ss → zlen ss = zlen ss0.
Proof.
  intros Hm (ds & Hds & ->). pose proof (Forall2_length _ _ _ Hds) as Hl. rw length_take in Hl.
  rw zlen_app zlen_drop. rw /zlen in Hm |- *. lia.
Qed.

Lemma filled_full forPpr max vs ss0 ss v :
  max <= zlen vs → filled forPpr max vs ss0 ss → filled forPpr max (vs ++ [v]) ss0 ss.
Proof.
  intros Hm (ds & Hds & ->). exists ds. split; [|done]. rw take_app_le; [done|]. rw /zlen in Hm. lia.
Qed.

Lemma profile_values_snoc pre t v :
  profile_values (pre ++ [(t, v)]) = profile_values pre ++ (if t =? 0xE3 then [v] else []).
Proof.
  rw /profile_values filter_app fmap_app filter_cons filter_nil. cbn [fst]. case_decide as Et.
  - by rw Et.
  - by rw (proj2 (Z.eqb_neq t 0xE3) Et).
Qed.

Lemma profile_values_mid pre v post :
  profile_values (pre ++ (0xE3, v) :: post) = profile_values pre ++ v :: profile_values post.
Proof. by rw /profile_values filter_app filter_cons_True // fmap_app. Qed.

(** The list after the first [max] of the profiles [vs] were stored. *)
Definition stored_info (max : Z) (list : ptr) (vs : Datatypes.list (Datatypes.list Z)) : get_profiles_info :=
  GetProfilesInfo (Z.min (zlen vs) max) (zlen vs) max list.

Lemma wp_fill_profiles p tvs forPpr max list ss0 g Φ :
  0 <= max <= zlen ss0 → Forall (λ tv, Forall is_byte tv.2) tvs →
  Forall (λ v, is_Some (objects v)) (profile_values tvs) →
  tlv_list p tvs -∗ structs list forPpr ss0 -∗
  (∀ ss, ⟦filled forPpr max (profile_values tvs) ss0 ss⟧ -∗ tlv_list p tvs -∗ structs list forPpr ss -∗
     Φ (stored_info max list (profile_values tvs)) g) -∗
  wp nf (walk (profile_body (D := D) true forPpr) p (stored_info max list [])) g Φ.
Proof.
  iIntros (Hm Hb Ho) "Hp Hl HΦ".
  iApply (wp_walk nf skip_null (profile_body true forPpr) tvs
    (λ pre x g', ⟦x = stored_info max list (profile_values pre) ∧ g' = g⟧ ∗
       ∃ ss, ⟦filled forPpr max (profile_values pre) ss0 ss⟧ ∗ structs list forPpr ss)%I
    (λ x g', ⟦x = stored_info max list (profile_values tvs) ∧ g' = g⟧ ∗
       ∃ ss, ⟦filled forPpr max (profile_values tvs) ss0 ss⟧ ∗ structs list forPpr ss)%I with "Hp [Hl]").
  - intros pre t v post b x g' Etvs. iIntros "(Ht & %H & Hl)". destruct H as [-> ->].
    iDestruct "Hl" as (ss) "[%Hss Hl]". set (vs := profile_values pre) in *.
    assert (Forall is_byte v) as Hv.
    { rw Etvs Forall_app in Hb. by destruct Hb as [_ Hb%Forall_inv]. }
    rw /stored_info /profile_body. wp_seq. iDestruct "Ht" as (l d) "(%El & Hl0 & Hd)". rw El.
    iApply (wp_load_tlv with "Hl0"). iIntros "Hl0".
    iAssert (tlv (Some l) t v) with "[Hl0 Hd]" as "Ht". { iExists l, d. by iFrame. }
    pose proof (profile_values_snoc pre t v) as Epre. rw -/vs in Epre.
    destruct (Z.eqb_spec t 0xE3) as [->|].
    2: { wp_value. iFrame "Ht". cbn [fst snd]. rw Epre app_nil_r. iSplit; [done|]. iExists ss. by iFrame. }
    assert (is_Some (objects v)) as Hov.
    { rw Etvs profile_values_mid Forall_app in Ho. by destruct Ho as [_ Ho%Forall_inv]. }
    wp_seq. rw (_ : (Z.min (zlen vs) max <? max) = (zlen vs <? max)); [|lia].
    destruct (Z.ltb_spec (zlen vs) max).
    + rw Z.min_l; [|lia]. iDestruct (structs_null with "Hl") as "[%En Hl]". rw En. cbn [andb].
      wp_seq. wp_seq. iApply (wp_update with "Ht"); [done..|]. iIntros (r s) "%Hs Ht".
      destruct (filled_next forPpr max vs ss0 ss v s) as [Hlt Hf]; [lia|done|done|].
      iApply (wp_store_struct with "Hl"); [pose proof (zlen_nonneg vs); lia|by destruct Hs as (_ & ? & _)|]. iIntros "Hl".
      wp_value. wp_value. iFrame "Ht". cbn [fst snd]. rw Epre. rw (_ : Z.to_nat (zlen vs) = length vs); [|by rw /zlen Nat2Z.id].
      iSplit; [|iExists _; by iFrame]. iPureIntro. split; [|done]. rw /stored_info zlen_app. change (zlen [v]) with 1.
      f_equal. lia.
    + wp_value. wp_value. iFrame "Ht". cbn [fst snd]. rw Epre.
      iSplit; [|iExists _; iFrame; iPureIntro; by apply filled_full]. iPureIntro. split; [|done].
      rw /stored_info zlen_app. change (zlen [v]) with 1. f_equal. lia.
  - iIntros (x g') "H". iExact "H".
  - iSplit; [done|]. iExists ss0. iFrame. iPureIntro. apply filled_nil.
  - iIntros (x g') "Hp [%H Hl]". destruct H as [-> ->]. iDestruct "Hl" as (ss) "[%Hss Hl]".
    by iApply ("HΦ" with "[//] Hp Hl").
Qed.

Lemma wp_count_profiles p tvs forPpr max list g Φ :
  tlv_list p tvs -∗
  (tlv_list p tvs -∗ Φ (GetProfilesInfo 0 (zlen (profile_values tvs)) max list) g) -∗
  wp nf (walk (profile_body (D := D) false forPpr) p (GetProfilesInfo 0 0 max list)) g Φ.
Proof.
  iIntros "Hp HΦ".
  iApply (wp_walk nf skip_null (profile_body false forPpr) tvs
    (λ pre x g', ⟦x = GetProfilesInfo 0 (zlen (profile_values pre)) max list ∧ g' = g⟧)%I
    (λ x g', ⟦x = GetProfilesInfo 0 (zlen (profile_values tvs)) max list ∧ g' = g⟧)%I with "Hp"); [| |done|].
  - intros pre t v post b x g' Etvs. iIntros "(Ht & %H)". destruct H as [-> ->].
    rw /profile_body. wp_seq. iDestruct "Ht" as (l d) "(%El & Hl0 & Hd)". rw El.
    iApply (wp_load_tlv with "Hl0"). iIntros "Hl0".
    iAssert (tlv (Some l) t v) with "[Hl0 Hd]" as "Ht". { iExists l, d. by iFrame. }
    rw profile_values_snoc zlen_app. destruct (t =? 0xE3).
    + wp_seq. wp_value. wp_value. by iFrame "Ht".
    + wp_value. iFrame "Ht". by rw Z.add_0_r.
  - iIntros (x g') "H". iExact "H".
  - iIntros (x g') "Hp %H". destruct H as [-> ->]. by iApply "HΦ".
Qed.

(** ** The answer of the card *)

(** What the extraction leaves, when the data hold the profiles [vs]: the
    result and the structure; the list [ss]. *)
Definition extraction (fill forPpr : bool) (max : Z) (list : ptr) (vs : Datatypes.list (Datatypes.list Z))
    (ss0 : Datatypes.list profile_struct) (x : get_profiles_info) (ss : Datatypes.list profile_struct) : Prop :=
  if fill then x = stored_info max list vs ∧ filled forPpr max vs ss0 ss
  else x = GetProfilesInfo 0 (zlen vs) max list ∧ ss = ss0.

(** The room the list must have. *)
Definition list_room (fill forPpr : bool) (max : Z) (list : ptr) (ss : Datatypes.list profile_struct) : heapProp :=
  if fill then (⟦0 <= max <= zlen ss⟧ ∗ structs list forPpr ss)%I else emp%I.

Lemma list_room_max fill forPpr max list ss :
  list_room fill forPpr max list ss ⊢ ⟦fill = true → 0 <= max⟧ ∗ list_room fill forPpr max list ss.
Proof.
  iIntros "H". rw /list_room. destruct fill; [|by iSplit].
  iDestruct "H" as "[%Hm H]". iSplit; [iPureIntro; lia|by iFrame].
Qed.

Lemma stored_nil max list : 0 <= max → stored_info max list [] = GetProfilesInfo 0 0 max list.
Proof. intros Hm. rw /stored_info. change (zlen []) with 0. by rw Z.min_l. Qed.

Lemma extraction_nil fill forPpr max list ss0 : (fill = true → 0 <= max) →
  extraction fill forPpr max list [] ss0 (GetProfilesInfo 0 0 max list) ss0.
Proof.
  intros Hm. destruct fill; [|done]. split; [by rw stored_nil; [|auto]|apply filled_nil].
Qed.

Lemma listed_none data : list_content data = None → listed_profiles data = None.
Proof. intros H. by rw /listed_profiles H. Qed.

Lemma wp_extract_profiles fill forPpr max list ss0 src n g Φ :
  0 < n <= zlen src → Forall is_byte (take (Z.to_nat n) src) → readable fill (take (Z.to_nat n) src) →
  list_room fill forPpr max list ss0 -∗
  (∀ ok x ss, list_room fill forPpr max list ss -∗
     ⟦match listed_profiles (take (Z.to_nat n) src) with
      | Some vs => ok = true ∧ extraction fill forPpr max list vs ss0 x ss ∨
                   nf = false ∧ x = GetProfilesInfo 0 0 max list ∧ ss = ss0
      | None => ok = false ∧ x = GetProfilesInfo 0 0 max list ∧ ss = ss0
      end⟧ -∗ Φ (ok, Some x) g) -∗
  wp nf (_extractDataFromGetProfileInfoRawData (D := D) (Some (GetProfilesInfo 0 0 max list)) (Some src) n fill forPpr) g Φ.
Proof.
  iIntros (Hn Hb Hr) "Hl HΦ". iDestruct (list_room_max with "Hl") as "[%Hmax Hl]".
  rw /_extractDataFromGetProfileInfoRawData (_ : (n >? 0) = true); [|lia].
  set (data := take _ src) in *. wp_seq. iApply wp_extractTag16; [lia|done|]. iIntros (p _ r1) "%H1 Hp".
  iDestruct (maybe_null with "Hp") as "[%En Hp]". rw En. rw -/data in H1.
  destruct r1 as [v|]; cbn [present negb].
  2: { wp_value. iDestruct "Hp" as %->. iApply ("HΦ" with "Hl"). iPureIntro.
       destruct H1 as [H1|[-> _]]; [|by destruct (listed_profiles data); [right|]].
       by rw listed_none // /list_content -H1. }
  destruct H1 as [H1|[_ H1]]; [|done]. wp_seq.
  iApply (wp_extractTag_of with "Hp"); [by apply (first_tag_byte 0xBF2D data)|done|].
  iIntros (q r2) "%H2 Hp Hq". iDestruct (maybe_null with "Hq") as "[%En2 Hq]". rw En2.
  wp_seq. destruct r2 as [w|]; cbn [present negb].
  2: { wp_value. wp_seq. iApply (tlv_free_spec with "Hp"). wp_value. iDestruct "Hq" as %->.
       iApply ("HΦ" with "Hl"). iPureIntro. destruct H2 as [H2|[-> _]]; [|by destruct (listed_profiles data); [right|]].
       by rw listed_none // /list_content -H1. }
  destruct H2 as [H2|[_ H2]]; [|done].
  assert (list_content data = Some w) as Hc by (rw /list_content -H1; by cbn [mbind option_bind]).
  destruct (Hr w Hc) as (tvs & Ho & Hov).
  assert (listed_profiles data = Some (if 0 <? zlen tvs mod 256 then profile_values tvs else [])) as ->.
  { rw /listed_profiles Hc. cbn [mbind option_bind]. by rw Ho. }
  wp_seq. iApply (wp_extractList_of with "Hq"); [by eapply first_tag_byte; [by apply (first_tag_byte 0xBF2D data)|done]|done|].
  iIntros (l c) "Hq Hlist". wp_seq.
  iApply (wp_wand _ _ _ (λ x g', ⟦g' = g⟧ ∗ ∃ ss, list_room fill forPpr max list ss ∗
    ⟦extraction fill forPpr max list (if 0 <? zlen tvs mod 256 then profile_values tvs else []) ss0 x ss ∨
     nf = false ∧ x = GetProfilesInfo 0 0 max list ∧ ss = ss0⟧)%I with "[Hl Hlist]").
  { iDestruct "Hlist" as "[%Hnf|[-> Hlist]]".
    { destruct Hnf as [Hnf ->]. wp_value. iSplit; [done|]. iExists ss0. iFrame. iPureIntro. by right. }
    iDestruct (tlv_list_null with "Hlist") as "[%En3 Hlist]". rw En3. case_bool_decide as Et.
    { subst tvs. cbn [tlv_list tlv_seg]. iDestruct "Hlist" as "_". wp_value. iSplit; [done|]. iExists ss0. iFrame.
      iPureIntro. left. by apply extraction_nil. }
    wp_seq. rw Z.gtb_ltb. destruct (0 <? zlen tvs mod 256).
    2: { wp_value. wp_seq. iApply (freeList_spec with "Hlist"). wp_value. iSplit; [done|]. iExists ss0. iFrame.
         iPureIntro. left. by apply extraction_nil. }
    destruct fill; cbn [list_room].
    - iDestruct "Hl" as "[%Hm Hl]". rw -(stored_nil max list); [|lia].
      iApply (wp_fill_profiles with "Hlist Hl"); [done|by eapply parse_list_byte; [|exact Ho]; eapply first_tag_byte; [by apply (first_tag_byte 0xBF2D data)|done]|by apply Hov|].
      iIntros (ss) "%Hf Hlist Hl". wp_seq. iApply (freeList_spec with "Hlist"). wp_value. iSplit; [done|].
      iExists ss. iFrame "Hl". pose proof (filled_zlen _ _ _ _ _ Hm Hf). iSplit; [iPureIntro; lia|by iLeft].
    - iApply (wp_count_profiles with "Hlist"). iIntros "Hlist". wp_seq. iApply (freeList_spec with "Hlist"). wp_value.
      iSplit; [done|]. iExists ss0. iFrame. iPureIntro. by left. }
  iIntros (x g') "(-> & Hss)". iDestruct "Hss" as (ss) "[Hl %Hss]". wp_seq. iApply (tlv_free_spec with "Hq"). wp_value.
  wp_seq. iApply (tlv_free_spec with "Hp"). wp_value. iApply ("HΦ" with "Hl"). iPureIntro.
  destruct Hss as [Hss|Hss]; [by left|by right].
Qed.
End profile.

(** ** The number of profiles *)

Section number.
Context {D : Type}.
Implicit Types (g : sdk D) (x : bool * Z * list Z * Z).

(** The exchange of [request] with a new block of [size] bytes for the answer. *)
Definition exchanges_into (request : list Z) (size : Z) g x (a : globals D) : Prop :=
  ask request (new_bytes size) size (apdu g) = Some (x, a) ∧ Forall is_byte (take (Z.to_nat x.2) x.1.2).

Lemma exchanges_into_fits request size g x a : 0 <= size →
  exchanges_into request size g x a → zlen x.1.2 = size ∧ 0 <= x.2 <= size.
Proof.
  intros Hs [Ha _]. destruct x as [[[sent sw] buf] n]. cbn [fst snd].
  apply ask_fits in Ha as [-> ?]; [|done]. split; [by rw zlen_fill; lia|done].
Qed.

Lemma wp_storeData_into p q request size g x a Φ :
  0 <= size → request ≠ [] → zlen request < 2 ^ 32 → exchanges_into request size g x a →
  raw p request -∗ q ↦ BBytes (new_bytes size) -∗
  (raw p request -∗ q ↦ BBytes x.1.2 -∗ Φ (x.1.1.1, x.1.1.2, x.2) (set_apdu a g)) -∗
  wp true (storeData_to p (Some q) size) g Φ.
Proof.
  iIntros (Hs Hne Hl Hx) "Hp Hq HΦ". destruct (exchanges_into_fits _ _ _ _ _ Hs Hx) as [Hz _]. destruct Hx as [Ha _].
  destruct x as [[[sent sw] buf] n]. iApply (wp_storeData_to with "Hp Hq"); [done|done|exact Ha| |done].
  cbn [fst snd] in Hz. rw Hz zlen_fill; lia.
Qed.

Definition number_request : list Z := tlv_bytes GET_PROFILE_INFO_DGI_TAG PROFILE_INFO_LIST_ICCID_ONLY_REQUEST.

(** The outcome of the request for the number: the result, the number and the
    error reported. *)
Definition number_outcome x : bool * Z * option LPA_API_ERROR :=
  let '(sent, sw, buf, size) := x in
  if sent then
    if sw_success sw then
      if 0 <? size then
        match listed_profiles (take (Z.to_nat size) buf) with
        | Some vs => (true, zlen vs, None)
        | None => (false, 0, Some LPA_ERROR_LOCAL_PROFILE_UNABLE_TO_EXTRACT_DATA)
        end
      else (false, 0, None)
    else (false, 0, Some LPA_ERROR_INVALID_SW)
  else (false, 0, Some LPA_ERROR_INVALID_GET_PROFILES_INFO_EXCHANGE).

Lemma wp_profiles_number n g x a Φ :
  exchanges_into number_request TEMP_BUFFER_SIZE_FOR_PROFILES_COUNT g x a →
  readable false (take (Z.to_nat x.2) x.1.2) →
  (let '(ok, m, e) := number_outcome x in Φ (ok, Some m) (reporting_opt e (set_apdu a g))) -∗
  wp true (lpaManagerES10c_GetProfilesNumber (D := D) (Some n)) g Φ.
Proof.
  iIntros (Hx Hr) "HΦ". wp_seq. iApply wp_malloc; [done|]. iIntros ([q|]) "Hq"; cbn [alloc_post isNull]; [|by iDestruct "Hq" as %?].
  wp_seq. iApply wp_build; [done|done|]. iIntros (p) "Hp". cbn [isNull].
  wp_seq. wp_seq. iApply (wp_storeData_into with "Hp Hq"); [done|apply tlv_bytes_nonempty|done|exact Hx|].
  iIntros "Hp Hq". assert (0 <= TEMP_BUFFER_SIZE_FOR_PROFILES_COUNT) as H768 by done.
  destruct (exchanges_into_fits _ _ _ _ _ H768 Hx) as [Hz Hn].
  destruct Hx as [_ Hb]. destruct x as [[[sent sw] buf] size]. cbn [fst snd] in *. set (g1 := set_apdu a g).
  set (o := number_outcome _).
  iApply (wp_wand _ _ _ (λ r g', ⟦r = (o.1.1, Some o.1.2) ∧ g' = reporting_opt o.2 g1⟧ ∗ q ↦ BBytes buf)%I with "[Hq]").
  { rw /o /number_outcome. destruct sent; [destruct (sw_success sw)|].
    - rw Z.gtb_ltb. destruct (Z.ltb_spec 0 size); [|wp_value; by iFrame].
      wp_seq. iApply (wp_load_bytes with "Hq"). iIntros "Hq". wp_seq.
      iApply (wp_extract_profiles _ false false 0 None []); [lia|done|done|done|].
      iIntros (ok x ss) "Hl %Hok". cbn [list_room]. iDestruct "Hl" as "_".
      destruct (listed_profiles _) as [vs|].
      + destruct Hok as [[-> [-> _]]|[? _]]; [|done]. wp_value. by iFrame.
      + destruct Hok as [-> _]. iApply wp_fail. by iFrame.
    - iApply wp_fail. by iFrame.
    - iApply wp_fail. by iFrame. }
  iIntros (r g') "[%Hres Hq]". destruct Hres as [-> ->]. wp_seq. iApply (wp_erase_obj with "Hp").
  wp_seq. iApply (wp_free_block with "Hq"). wp_value. by destruct o as [[ok m] e].
Qed.

(** The number of profiles (functional): the list of the identifiers is
    requested, the answer read in a block of 768 bytes, and the number is that of
    the objects E3 in the list; a failed exchange, a bad status word and an
    answer without list are reported, and nothing stays allocated. *)
Theorem profiles_number (n : Z) g x (a : globals D) :
  exchanges_into number_request TEMP_BUFFER_SIZE_FOR_PROFILES_COUNT g x a →
  readable false (take (Z.to_nat x.2) x.1.2) →
  triple true emp%I (lpaManagerES10c_GetProfilesNumber (Some n)) g
    (λ r g', let '(ok, m, e) := number_outcome x in ⟦r = (ok, Some m) ∧ g' = reporting_opt e (set_apdu a g)⟧)%I.
Proof.
  intros Hx Hr. iIntros "_". iApply wp_profiles_number; [done..|]. by destruct (number_outcome x) as [[ok m] e].
Qed.
End number.

(** ** The profiles for the policy check *)

Section ppr_list.
Context {D : Type}.
Implicit Types (g : sdk D) (x : bool * Z * list Z * Z).

(** No retry: the error is not the one of a broken chain of answers. *)
Definition settled g : Prop := errorCode g ≠ SE_MEDIA_E_CHAINING_GET_RESPONSE.

Lemma is_chaining_settled g : settled g → is_chaining_error (errorCode g) = false.
Proof. intros. by apply bool_decide_eq_false. Qed.

Lemma wp_get_number n g x a Φ :
  exchanges_into number_request TEMP_BUFFER_SIZE_FOR_PROFILES_COUNT g x a →
  readable false (take (Z.to_nat x.2) x.1.2) →
  settled (reporting_opt (number_outcome x).2 (set_apdu a g)) →
  Φ ((number_outcome x).1.1, Some (number_outcome x).1.2) (reporting_opt (number_outcome x).2 (set_apdu a g)) -∗
  wp true (lpaManagerGetProfilesNumber (D := D) (Some n)) g Φ.
Proof.
  iIntros (Hx Hr Hs) "HΦ". wp_seq. iApply wp_profiles_number; [done..|].
  destruct (number_outcome x) as [[ok m] e]. cbn [fst snd] in *.
  wp_seq. iApply wp_getErrorNoClear. rw is_chaining_settled //. by wp_value.
Qed.

Definition ppr_request : list Z := tlv_bytes GET_PROFILE_INFO_DGI_TAG PROFILE_INFO_FOR_PPR_MGT_REQUEST.
Definition ppr_room (n : Z) : Z := 10 + n * LPA_PROFILE_INFO_BUFFER_MAX_SIZE_FOR_PPR.

(** The list of structures after the exchange: the result, the structure, the
    list and the error reported. *)
Definition list_outcome (n : Z) (list : ptr) x
    : bool * get_profiles_info * Datatypes.list profile_struct * option LPA_API_ERROR :=
  let '(sent, sw, buf, size) := x in
  let info := GetProfilesInfo 0 0 n list in
  let empty := replicate (Z.to_nat n) (ForPpr zero_profile_info_for_ppr) in
  if sent then
    if sw_success sw then
      if 0 <? size then
        match listed_profiles (take (Z.to_nat size) buf) with
        | Some vs => (true, stored_info n list vs,
                      (description true <$> take (Z.to_nat n) vs) ++ drop (length (take (Z.to_nat n) vs)) empty, None)
        | None => (false, info, empty, Some LPA_ERROR_LOCAL_PROFILE_UNABLE_TO_EXTRACT_DATA)
        end
      else (false, info, empty, None)
    else (false, info, empty, Some LPA_ERROR_INVALID_SW)
  else (false, info, empty, Some LPA_ERROR_INVALID_GET_PROFILES_INFO_EXCHANGE).

Lemma filled_sure forPpr max vs ss0 ss : filled true forPpr max vs ss0 ss →
  ss = (description forPpr <$> take (Z.to_nat max) vs) ++ drop (length (take (Z.to_nat max) vs)) ss0.
Proof.
  intros (ds & Hds & ->). rw (Forall2_length _ _ _ Hds). f_equal. induction Hds as [|v d vs' ds' Hd _ IH]; [done|].
  cbn [fmap list_fmap]. destruct Hd as (_ & _ & ->); [|done]. by f_equal.
Qed.

Lemma wp_profiles_request n p q g x a Φ :
  0 < n → exchanges_into ppr_request (ppr_room n) g x a → readable true (take (Z.to_nat x.2) x.1.2) →
  q ↦ BBytes (new_bytes (ppr_room n)) -∗
  structs p true (replicate (Z.to_nat n) (ForPpr zero_profile_info_for_ppr)) -∗
  (let '(ok, info, ss, e) := list_outcome n p x in
   structs p true ss -∗ Φ (ok, info) (reporting_opt e (set_apdu a g))) -∗
  wp true (profiles_request (D := D) PROFILE_INFO_FOR_PPR_MGT_REQUEST true (Some q) (ppr_room n)
             (GetProfilesInfo 0 0 n p)) g Φ.
Proof.
  iIntros (Hn0 Hx Hr) "Hq Hl HΦ". assert (0 <= ppr_room n) as Hroom.
  { rw /ppr_room /LPA_PROFILE_INFO_BUFFER_MAX_SIZE_FOR_PPR. lia. }
  wp_seq. iApply wp_build; [done|done|]. iIntros (r) "Hr". cbn [isNull].
  wp_seq. wp_seq. iApply (wp_storeData_into with "Hr Hq"); [done|apply tlv_bytes_nonempty|done|exact Hx|].
  iIntros "Hr Hq". destruct (exchanges_into_fits _ _ _ _ _ Hroom Hx) as [Hz Hn].
  destruct Hx as [_ Hb]. destruct x as [[[sent sw] buf] size]. cbn [fst snd] in *. set (g1 := set_apdu a g).
  set (o := list_outcome n p _).
  iApply (wp_wand _ _ _ (λ r g', let '(ok, info, ss, e) := o in
    ⟦r = (ok, info) ∧ g' = reporting_opt e g1⟧ ∗ structs p true ss ∗ q ↦ BBytes buf)%I with "[Hq Hl]").
  { rw /o /list_outcome. destruct sent; [destruct (sw_success sw)|].
    - rw Z.gtb_ltb. destruct (Z.ltb_spec 0 size); [|wp_value; by iFrame].
      wp_seq. iApply (wp_load_bytes with "Hq"). iIntros "Hq". wp_seq.
      iApply (wp_extract_profiles _ true true n p with "[Hl]"); [lia|done|done| |].
      { cbn [list_room]. iFrame "Hl". iPureIntro. rw /zlen length_replicate. lia. }
      iIntros (ok x ss) "[_ Hl] %Hok". cbn [default from_option id].
      destruct (listed_profiles _) as [vs|].
      + destruct Hok as [[-> [-> Hf]]|[? _]]; [|done]. apply filled_sure in Hf as ->. wp_value. by iFrame.
      + destruct Hok as (-> & -> & ->). iApply wp_fail. by iFrame.
    - iApply wp_fail. by iFrame.
    - iApply wp_fail. by iFrame. }
  iIntros (res g') "H". destruct o as [[[ok info] ss] e]. iDestruct "H" as "(%Hres & Hl & Hq)". destruct Hres as [-> ->].
  wp_seq. iApply (wp_erase_obj with "Hr"). wp_seq. iApply (wp_free_block with "Hq"). wp_value. by iApply "HΦ".
Qed.

Lemma wp_alloc_list n g Φ :
  0 < n →
  (∀ l, structs (Some l) true (replicate (Z.to_nat n) (ForPpr zero_profile_info_for_ppr)) -∗ Φ (Some l) g) -∗
  wp true (alloc_ppr_list (D := D) n) g Φ.
Proof.
  iIntros (Hn) "HΦ". wp_seq. iApply wp_malloc; [rw /sizeof_LPA_PROFILE_INFO_FOR_PPR; lia|].
  iIntros ([l|]) "Hl"; cbn [alloc_post isNull]; [|by iDestruct "Hl" as %?]. wp_seq.
  iApply (wp_store_block with "Hl").
  { cbn [sizeof]. rw /new_bytes /sizeof_LPA_PROFILE_INFO_FOR_PPR zlen_fill; [|lia]. rw /zlen length_replicate. lia. }
  iIntros "Hl". wp_value. iApply "HΦ". iExists l, _. iFrame "Hl". iPureIntro. split; [done|]. by rw fmap_replicate.
Qed.

(** The profiles when neither exchange breaks its chain of answers. *)
Lemma wp_profiles_for_ppr c f m g x1 a1 x2 a2 n Φ :
  exchanges_into number_request TEMP_BUFFER_SIZE_FOR_PROFILES_COUNT g x1 a1 →
  readable false (take (Z.to_nat x1.2) x1.1.2) →
  number_outcome x1 = (true, n, None) → 0 < n → settled (set_apdu a1 g) →
  exchanges_into ppr_request (ppr_room n) (set_apdu a1 g) x2 a2 → readable true (take (Z.to_nat x2.2) x2.1.2) →
  settled (reporting_opt (list_outcome n None x2).2 (set_apdu a2 g)) →
  (∀ l, let '(ok, info, ss, e) := list_outcome n (Some l) x2 in
     structs (Some l) true ss -∗ Φ (ok, info) (reporting_opt e (set_apdu a2 g))) -∗
  wp true (_getProfilesInfoForPPR (D := D) (GetProfilesInfo c f m None)) g Φ.
Proof.
  iIntros (Hx1 Hr1 Hn Hn0 Hs1 Hx2 Hr2 Hs2) "HΦ". wp_seq. wp_seq. wp_seq. wp_value.
  wp_seq. iApply wp_get_number; [done|done|by rw Hn|]. rw Hn. cbn [fst snd reporting_opt default from_option id].
  wp_seq. iApply wp_getErrorNoClear. rw is_chaining_settled //. cbn [negb].
  rw (_ : (n >? 0) = true); [|lia]. wp_seq. wp_seq. iApply wp_alloc_list; [done|]. iIntros (l) "Hl".
  wp_value. cbn [gpi_profileInfoList isNull].
  wp_seq. iApply wp_malloc; [rw /LPA_PROFILE_INFO_BUFFER_MAX_SIZE_FOR_PPR; lia|].
  iIntros ([q|]) "Hq"; cbn [alloc_post isNull]; [|by iDestruct "Hq" as %?].
  wp_seq. iApply (wp_profiles_request with "Hq Hl"); [done..|]. iSpecialize ("HΦ" $! l).
  assert ((list_outcome n (Some l) x2).2 = (list_outcome n None x2).2) as E2.
  { destruct x2 as [[[sent sw] buf] size]. rw /list_outcome. destruct sent, (sw_success sw), (0 <? size); try done.
    by destruct (listed_profiles _). }
  rw -E2 in Hs2. destruct (list_outcome n (Some l) x2) as [[[ok info] ss] e]. cbn [fst snd] in Hs2.
  iIntros "Hl". wp_value. wp_seq. iApply wp_getErrorNoClear.
  change (set_apdu a2 (set_apdu a1 g)) with (set_apdu a2 g). rw is_chaining_settled //. wp_value. wp_value.
  by iApply "HΦ".
Qed.
End ppr_list.

(** ** Installed profiles and their encoding *)

(** A profile of the eUICC: its identifier, state, class and policy rules. *)
Record installed := Installed { in_iccid : list Z; in_state : list Z; in_class : list Z; in_rules : list Z }.

Definition valid_installed (p : installed) : Prop :=
  Forall is_byte (in_iccid p) ∧ zlen (in_iccid p) <= LPA_PROFILE_ICCID_BUFFER_MAX_SIZE ∧
  Forall is_byte (in_state p) ∧ zlen (in_state p) <= LPA_PROFILE_STATE_MAX_SIZE ∧
  Forall is_byte (in_class p) ∧ zlen (in_class p) <= LPA_PROFILE_CLASS_MAX_SIZE ∧
  Forall is_byte (in_rules p) ∧ zlen (in_rules p) <= LPA_PROFILE_PPR_MAX_SIZE.

(** Its object E3: an empty value stands for a field that is not there. *)
Definition profile_objects (p : installed) : list (Z * list Z) :=
  filter (λ tv, tv.2 ≠ []) [(0x5A, in_iccid p); (0x9F70, in_state p); (0x95, in_class p); (0x99, in_rules p)].
Definition profile_bytes (p : installed) : list Z := tlvs_bytes (profile_objects p).

(** The answer to a request for the profiles with the given objects E3. *)
Definition profile_list (objs : list (list Z)) : list Z :=
  tlv_bytes 0xBF2D (tlv_bytes 0xA0 (tlvs_bytes ((λ v, (0xE3, v)) <$> objs))).

(** The structure that describes it. *)
Definition info_of (p : installed) : LPA_PROFILE_INFO_FOR_PPR :=
  ProfileInfo (put (fill 0 LPA_PROFILE_ICCID_BUFFER_MAX_SIZE) (in_iccid p)) (zlen (in_iccid p))
    (put (fill 0 LPA_PROFILE_STATE_MAX_SIZE) (in_state p)) (zlen (in_state p))
    (put (fill 0 LPA_PROFILE_CLASS_MAX_SIZE) (in_class p)) (zlen (in_class p))
    (put (fill 0 LPA_PROFILE_PPR_MAX_SIZE) (in_rules p)) (zlen (in_rules p)).

Lemma tlvs_bytes_bound tvs b :
  Forall (λ tv, zlen tv.2 <= b) tvs → zlen (tlvs_bytes tvs) <= (b + 6) * zlen tvs.
Proof.
  induction 1 as [|[t v] tvs Hv _ IH]; [unfold zlen; cbn; lia|]. cbn [snd] in Hv.
  change (tlvs_bytes ((t, v) :: tvs)) with (tlv_bytes t v ++ tlvs_bytes tvs).
  pose proof (zlen_app (tlv_bytes t v) (tlvs_bytes tvs)). pose proof (tlv_bytes_bound t v). rw zlen_cons. lia.
Qed.

Lemma tlv_bytes_single t v : tlv_bytes t v = tlvs_bytes [(t, v)].
Proof. by rw /tlvs_bytes /= app_nil_r. Qed.

(** Reading the list back. *)
Section listed.
Context (objs : list (list Z)) (Hobjs : Forall (λ v, Forall is_byte v ∧ zlen v <= 100) objs) (Hn : zlen objs < 256).

Let tvs := (λ v, (0xE3, v)) <$> objs.

Lemma list_valid : Forall valid_tlv tvs.
Proof.
  apply Forall_fmap, (Forall_impl _ _ _ Hobjs). intros v [Hb Hv]. split; [by left|]. cbn [snd]. split; [pows; lia|done].
Qed.

Lemma list_bounded : zlen (tlvs_bytes tvs) <= 106 * 255.
Proof.
  assert (zlen tvs = zlen objs) as Hz by apply zlen_fmap.
  assert (zlen (tlvs_bytes tvs) <= (100 + 6) * zlen tvs); [|lia].
  apply tlvs_bytes_bound, Forall_fmap, (Forall_impl _ _ _ Hobjs). by intros v [_ ?].
Qed.

Lemma list_objects : Forall valid_tlv [(0xA0, tlvs_bytes tvs)] ∧ Forall valid_tlv [(0xBF2D, tlvs_bytes [(0xA0, tlvs_bytes tvs)])].
Proof.
  pose proof list_bounded as Hb. assert (Forall valid_tlv [(0xA0, tlvs_bytes tvs)]) as HA.
  { constructor; [|done]. split; [by left|]. split; [cbn [snd]; pows; lia|]. apply tlvs_bytes_byte, list_valid. }
  split; [done|]. constructor; [|done]. split; [by right|]. split; [|by apply tlvs_bytes_byte].
  cbn [snd]. rw -tlv_bytes_single. pose proof (tlv_bytes_bound 0xA0 (tlvs_bytes tvs)). pows. lia.
Qed.

Lemma list_content_ok : list_content (profile_list objs) = Some (tlvs_bytes tvs).
Proof.
  destruct list_objects as [HA HB]. rw /list_content /profile_list -/tvs !tlv_bytes_single (first_tag_tlvs _ _ HB).
  change ((first_tag 0xA0 (tlvs_bytes [(0xA0, tlvs_bytes tvs)])).2 = Some (tlvs_bytes tvs)). by rw (first_tag_tlvs _ _ HA).
Qed.

Lemma list_values : profile_values tvs = objs.
Proof.
  rw /tvs /profile_values. clear. induction objs as [|v vs IH]; [done|]. cbn [fmap list_fmap].
  rw filter_cons_True //. cbn [fmap list_fmap snd]. by rw IH.
Qed.

Lemma listed_profile_list : listed_profiles (profile_list objs) = Some objs.
Proof.
  rw /listed_profiles list_content_ok. cbn [mbind option_bind]. rw (objects_tlvs _ list_valid). cbn [mbind option_bind].
  rw list_values. assert (zlen tvs = zlen objs) as Hz by apply zlen_fmap. rw Hz. pose proof (zlen_nonneg objs).
  rw Z.mod_small; [|lia]. destruct (Z.ltb_spec 0 (zlen objs)); [done|]. f_equal. symmetry. apply length_zero_iff_nil.
  rw /zlen in H0. lia.
Qed.

Lemma readable_profile_list fill :
  (fill = true → Forall (λ v, is_Some (objects v)) objs) → readable fill (profile_list objs).
Proof.
  intros Ho w. rw list_content_ok. intros [= <-]. exists tvs. split; [apply objects_tlvs, list_valid|]. by rw list_values.
Qed.

Lemma profile_list_byte : Forall is_byte (profile_list objs).
Proof. rw /profile_list -/tvs !tlv_bytes_single. apply tlvs_bytes_byte, list_objects. Qed.
End listed.

Lemma with_field_nil s t : well_formed s → with_field s (t, []) = s.
Proof.
  assert (∀ max a, copy_field max 0 None a = Some a) as Hc by (intros max [c u]; done).
  intros _. rw /with_field. cbn [fst snd value]. change (zlen []) with 0.
  destruct s as [[i isz st ssz c csz r rsz]|[raw i st sp pn c nick icon itype]]; rw /store_field !Hc;
    cbn [mbind option_bind cells used]; by repeat case_match; simplify_eq.
Qed.

Lemma fields_filter tvs s : well_formed s →
  foldl with_field s (filter (λ tv, tv.2 ≠ []) tvs) = foldl with_field s tvs.
Proof.
  revert s. induction tvs as [|[t v] tvs IH]; intros s Hs; [done|]. rw filter_cons. cbn [snd].
  destruct (with_field_ok s (t, v) Hs) as (_ & Hw & _).
  case_decide as Hv; cbn [foldl]; [by apply IH|]. subst v.
  rw with_field_nil //. by apply IH.
Qed.

Lemma copied_zero max v : zlen v <= max → copied max v (Sized (fill 0 max) 0) = Sized (put (fill 0 max) v) (zlen v).
Proof.
  intros Hv. rw /copied. rw (proj2 (Z.leb_le _ _) Hv). destruct v as [|x v]; [done|]. by rw bool_decide_true.
Qed.

Lemma profile_objects_valid p : valid_installed p → Forall valid_tlv (profile_objects p).
Proof.
  intros (? & ? & ? & ? & ? & ? & ? & ?).
  assert (Forall valid_tlv [(0x5A, in_iccid p); (0x9F70, in_state p); (0x95, in_class p); (0x99, in_rules p)]) as Hall.
  2: { apply Forall_forall. intros tv [_ Htv]%list_elem_of_filter. by apply (proj1 (Forall_forall _ _) Hall). }
  rw /LPA_PROFILE_ICCID_BUFFER_MAX_SIZE /LPA_PROFILE_STATE_MAX_SIZE /LPA_PROFILE_CLASS_MAX_SIZE /LPA_PROFILE_PPR_MAX_SIZE in H0 H2 H4 H6.
  repeat constructor; cbn [fst snd]; first [done|by left|by right|pows; lia].
Qed.

Lemma description_installed p : valid_installed p → description true (profile_bytes p) = ForPpr (info_of p).
Proof.
  intros Hp. rw /description. cbn [raw_fits with_raw zero_struct]. rw /profile_bytes (objects_tlvs _ (profile_objects_valid p Hp)).
  cbn [default from_option id]. rw fields_filter; [|apply (zero_struct_ok true)]. destruct Hp as (_ & Hi & _ & Hs & _ & Hc & _ & Hr).
  assert (∀ n, 0 <= n → room n (Sized (fill 0 n) 0)) as Hz.
  { intros n Hn. split; cbn [cells used]; [by rw zlen_fill // Z.max_r|lia]. }
  cbn [foldl]. rw {4}/with_field. cbn [fst snd]. rw /zero_profile_info_for_ppr /store_field. cbn [Z.eqb Pos.eqb].
  rw copy_field_ok; [|by apply Hz]. rw copied_zero //. cbn [mbind option_bind default from_option id].
  rw {3}/with_field. cbn [fst snd]. rw /store_field. cbn [Z.eqb Pos.eqb].
  rw copy_field_ok; [|by apply Hz]. rw copied_zero //. cbn [mbind option_bind default from_option id].
  rw {2}/with_field. cbn [fst snd]. rw /store_field. cbn [Z.eqb Pos.eqb].
  rw copy_field_ok; [|by apply Hz]. rw copied_zero //. cbn [mbind option_bind default from_option id].
  rw /with_field. cbn [fst snd]. rw /store_field. cbn [Z.eqb Pos.eqb].
  rw copy_field_ok; [|by apply Hz]. rw copied_zero //.
Qed.

(** ** Theorems *)

Lemma installed_bytes p : valid_installed p →
  Forall is_byte (profile_bytes p) ∧ zlen (profile_bytes p) <= 100 ∧ is_Some (objects (profile_bytes p)).
Proof.
  intros Hp. pose proof (profile_objects_valid p Hp) as Hv. split; [by apply tlvs_bytes_byte|].
  split; [|by rw /profile_bytes (objects_tlvs _ Hv)]. destruct Hp as (_ & Hi & _ & Hs & _ & Hc & _ & Hr).
  rw /LPA_PROFILE_ICCID_BUFFER_MAX_SIZE /LPA_PROFILE_STATE_MAX_SIZE /LPA_PROFILE_CLASS_MAX_SIZE /LPA_PROFILE_PPR_MAX_SIZE in Hi Hs Hc Hr.
  assert (zlen (profile_objects p) <= 4) as H4.
  { rw /profile_objects /zlen. pose proof (length_filter (λ tv : Z * list Z, tv.2 ≠ [])
      [(0x5A, in_iccid p); (0x9F70, in_state p); (0x95, in_class p); (0x99, in_rules p)]). cbn [length] in H. lia. }
  assert (zlen (profile_bytes p) <= (10 + 6) * zlen (profile_objects p)); [|lia].
  apply tlvs_bytes_bound. rw /profile_objects. apply Forall_forall. intros tv [_ Htv]%list_elem_of_filter.
  revert tv Htv. apply Forall_forall. repeat constructor; cbn [snd]; lia.
Qed.

Lemma installed_objects ps : Forall valid_installed ps →
  Forall (λ v, Forall is_byte v ∧ zlen v <= 100) (profile_bytes <$> ps) ∧
  Forall (λ v, is_Some (objects v)) (profile_bytes <$> ps) ∧ zlen (profile_bytes <$> ps) = zlen ps.
Proof.
  intros Hps. split; [|split; [|by apply zlen_fmap]]; apply Forall_fmap, (Forall_impl _ _ _ Hps); intros p Hp;
    by destruct (installed_bytes p Hp) as (? & ? & ?).
Qed.

Lemma listed_size k b objs : take (Z.to_nat k) b = profile_list objs → (0 <? k) = true.
Proof.
  intros E. apply Z.ltb_lt. destruct (Z.ltb_spec 0 k); [done|]. rw (_ : Z.to_nat k = 0%nat) in E; [|lia].
  by destruct (tlv_bytes_nonempty _ _ (eq_sym E)).
Qed.

(** The list of structures of installed profiles. *)
Lemma installed_list ps x : Forall valid_installed ps →
  (description true <$> take (Z.to_nat (zlen ps)) (profile_bytes <$> ps)) ++
    drop (length (take (Z.to_nat (zlen ps)) (profile_bytes <$> ps))) (replicate (Z.to_nat (zlen ps)) x) =
  ForPpr <$> (info_of <$> ps).
Proof.
  intros Hps. assert (length (profile_bytes <$> ps) = Z.to_nat (zlen ps)) as Hln by (rw length_fmap /zlen; lia).
  rw take_ge; [|by rw Hln]. rw drop_ge; [|by rw length_replicate Hln]. rw app_nil_r.
  clear Hln. induction Hps as [|p ps Hp _ IH]; [done|]. cbn [fmap list_fmap].
  by rw description_installed // IH.
Qed.

Section theorems.
Context {D : Type}.
Implicit Types (g : sdk D) (x : bool * Z * list Z * Z).

(** C24: The structures filled from a list of profiles (type): whatever bytes the
    card answers, as long as no value is longer than the data, and whichever
    allocations fail, the structures of the caller stay well formed, each array
    with its capacity and no more than that many used cells, no more profiles
    than the room of the caller are stored, and nothing else stays allocated. *)
Theorem profiles_well_formed (nf forPpr : bool) (max : Z) (list : ptr) (ss0 : Datatypes.list profile_struct)
    (src : Datatypes.list Z) (n : Z) g :
  0 < n <= zlen src → Forall is_byte (take (Z.to_nat n) src) → readable true (take (Z.to_nat n) src) →
  0 <= max <= zlen ss0 → Forall well_formed ss0 →
  triple nf (structs list forPpr ss0)
    (_extractDataFromGetProfileInfoRawData (D := D) (Some (GetProfilesInfo 0 0 max list)) (Some src) n true forPpr) g
    (λ r g', ∃ (x : get_profiles_info) ss, ⟦r.2 = Some x ∧ g' = g ∧ zlen ss = zlen ss0 ∧ Forall well_formed ss ∧
        gpi_countProfileInfo x = Z.min (gpi_numberProfileInfoFound x) max⟧ ∗ structs list forPpr ss)%I.
Proof.
  intros Hn Hb Hr Hm Hss. iIntros "Hl". iApply (wp_extract_profiles _ true forPpr max list ss0 with "[Hl]"); [done..| |].
  { cbn [list_room]. by iFrame. }
  iIntros (ok x ss) "[_ Hl] %Hok". iExists x, ss. iFrame "Hl". iPureIntro. do 2 (split; [done|]).
  assert ((x = GetProfilesInfo 0 0 max list ∧ ss = ss0) ∨ ∃ vs, extraction nf true forPpr max list vs ss0 x ss) as Hx.
  { destruct (listed_profiles _) as [vs|]; [|by left; destruct Hok as (_ & ? & ?)].
    destruct Hok as [[_ Hx]|(_ & ? & ?)]; [by right; exists vs|by left]. }
  destruct Hx as [[-> ->]|(vs & -> & Hf)].
  { split_and!; [done..|]. cbn [gpi_countProfileInfo gpi_numberProfileInfoFound]. lia. }
  split; [by apply (filled_zlen nf forPpr max vs)|]. split; [|done]. destruct Hf as (ds & Hds & ->).
  apply Forall_app. split; [|by apply Forall_drop]. clear -Hds.
  induction Hds as [|v d vs' ds' Hd _ IH]; constructor; [by destruct Hd|done].
Qed.

(** An eUICC without profiles is not asked for them. *)
Lemma no_profiles_read c f m g x a :
  exchanges_into number_request TEMP_BUFFER_SIZE_FOR_PROFILES_COUNT g x a →
  answer_data x = Some (profile_list []) → settled (set_apdu a g) →
  triple true emp%I (_getProfilesInfoForPPR (D := D) (GetProfilesInfo c f m None)) g
    (λ r g', ⟦r = (true, GetProfilesInfo 0 0 m None) ∧ g' = set_apdu a g⟧)%I.
Proof.
  intros Hx Ha Hs. iIntros "_". destruct x as [[[sent sw] buf] n]. rw /answer_data in Ha.
  destruct sent, (sw_success sw) eqn:Esw; try done. injection Ha as Ha. pose proof (listed_size _ _ _ Ha) as Hp.
  assert (number_outcome (true, sw, buf, n) = (true, 0, None)) as Hn.
  { by rw /number_outcome Esw Hp Ha listed_profile_list. }
  wp_seq. wp_seq. wp_seq. wp_value. wp_seq. iApply wp_get_number; [done| |by rw Hn|].
  { cbn [fst snd]. rw Ha. by apply readable_profile_list. }
  rw Hn. cbn [fst snd reporting_opt default from_option id].
  wp_seq. iApply wp_getErrorNoClear. rw is_chaining_settled //. wp_value. wp_seq. iApply wp_getErrorNoClear.
  rw is_chaining_settled //. wp_value. by wp_value.
Qed.

(** The list of installed profiles, as the download uses it. *)
Lemma profiles_read (ids : list (list Z)) (ps : list installed) (c f m : Z) g x1 a1 x2 a2 :
  Forall valid_installed ps → Forall (λ v, Forall is_byte v ∧ zlen v <= 100) ids →
  zlen ids = zlen ps → 0 < zlen ps < 256 →
  exchanges_into number_request TEMP_BUFFER_SIZE_FOR_PROFILES_COUNT g x1 a1 →
  answer_data x1 = Some (profile_list ids) → settled (set_apdu a1 g) →
  exchanges_into ppr_request (ppr_room (zlen ps)) (set_apdu a1 g) x2 a2 →
  answer_data x2 = Some (profile_list (profile_bytes <$> ps)) → settled (set_apdu a2 g) →
  triple true emp%I (_getProfilesInfoForPPR (D := D) (GetProfilesInfo c f m None)) g
    (λ r g', ∃ l, ⟦r = (true, GetProfilesInfo (zlen ps) (zlen ps) (zlen ps) (Some l)) ∧ g' = set_apdu a2 g⟧ ∗
       l ↦ BPprInfos (info_of <$> ps))%I.
Proof.
  intros Hps Hids Hl Hn Hx1 Ha1 Hs1 Hx2 Ha2 Hs2. iIntros "_".
  destruct x1 as [[[sent1 sw1] buf1] n1]. destruct x2 as [[[sent2 sw2] buf2] n2]. rw /answer_data in Ha1 Ha2.
  destruct sent1, (sw_success sw1) eqn:Esw1; try done. destruct sent2, (sw_success sw2) eqn:Esw2; try done.
  injection Ha1 as Ha1. injection Ha2 as Ha2.
  pose proof (installed_objects ps Hps) as (Hobjs & Hok & Hz).
  pose proof (listed_size _ _ _ Ha1) as Hp1. pose proof (listed_size _ _ _ Ha2) as Hp2.
  assert (∀ q, list_outcome (zlen ps) q (true, sw2, buf2, n2) =
    (true, GetProfilesInfo (zlen ps) (zlen ps) (zlen ps) q, ForPpr <$> (info_of <$> ps), None)) as Eo.
  { intros q. rw /list_outcome Esw2 Hp2 Ha2 listed_profile_list //; [|rw Hz; lia]. rw installed_list //.
    by rw /stored_info Hz Z.min_id. }
  iApply (wp_profiles_for_ppr _ _ _ _ (true, sw1, buf1, n1) a1 (true, sw2, buf2, n2) a2 (zlen ps));
    [done| |rw /number_outcome Esw1 Hp1 Ha1 listed_profile_list; [by rw Hl|done|lia]
    |lia|done|done| |by rw Eo|].
  { cbn [fst snd]. rw Ha1. by apply readable_profile_list; [|rw Hl; lia|]. }
  { cbn [fst snd]. rw Ha2. apply readable_profile_list; [done|rw Hz; lia|done]. }
  iIntros (l). rw Eo.
  iIntros "Hl". iDestruct "Hl" as (l' xs) "[%E Hl]". destruct E as [[= <-] E]. iExists l.
  apply (list_fmap_eq_inj ForPpr) in E as ->; [by iFrame|]. by intros ?? [= ->].
Qed.

(** C22: The installed profiles reach the policy check (round trip): when the
    eUICC answers the request for the number with the identifiers of its
    profiles, and the request for the profiles with their encoding, the list
    that is built for the policy check describes exactly these profiles, in
    their order; the list is the only block left allocated. *)
Theorem profiles_roundtrip (ids : list (list Z)) (ps : list installed) (c f m : Z) g x1 a1 x2 a2 :
  Forall valid_installed ps → Forall (λ v, Forall is_byte v ∧ zlen v <= 100) ids →
  zlen ids = zlen ps → 0 < zlen ps < 256 →
  exchanges_into number_request TEMP_BUFFER_SIZE_FOR_PROFILES_COUNT g x1 a1 →
  answer_data x1 = Some (profile_list ids) → settled (set_apdu a1 g) →
  exchanges_into ppr_request (ppr_room (zlen ps)) (set_apdu a1 g) x2 a2 →
  answer_data x2 = Some (profile_list (profile_bytes <$> ps)) → settled (set_apdu a2 g) →
  triple true emp%I (_getProfilesInfoForPPR (D := D) (GetProfilesInfo c f m None)) g
    (λ r g', ∃ l, ⟦r = (true, GetProfilesInfo (zlen ps) (zlen ps) (zlen ps) (Some l)) ∧ g' = set_apdu a2 g⟧ ∗
       l ↦ BPprInfos (info_of <$> ps))%I.
Proof. apply profiles_read. Qed.
End theorems.

(** ** Witnesses *)

(** An enabled operational profile with PPR1, and its identifier alone. *)
Definition sample_installed : installed := Installed sample_id [0x01] [0x02] [0x06; 0x40].
Definition sample_number : list Z := profile_list [tlv_bytes 0x5A sample_id].
Definition sample_profiles : list Z := profile_list [profile_bytes sample_installed].
Definition sample_answers : list (list Z) := [sample_number ++ [0x90; 0x00]; sample_profiles ++ [0x90; 0x00]].

Lemma sample_installed_ok : Forall valid_installed [sample_installed].
Proof.
  constructor; [|done]. rw /valid_installed.
  split_and!; try (apply (bool_decide_unpack _); vm_compute; exact I); vm_compute; discriminate.
Qed.

Lemma sample_number_ok : Forall (λ v, Forall is_byte v ∧ zlen v <= 100) [tlv_bytes 0x5A sample_id].
Proof.
  constructor; [|done]. split; [apply (bool_decide_unpack _); vm_compute; exact I|vm_compute; discriminate].
Qed.

Lemma profiles_well_formed_witness :
  let src := sample_profiles in
  readable true (take (Z.to_nat (zlen src)) src) ∧
  triple false (structs (Some 1%positive) true [ForPpr zero_profile_info_for_ppr])
    (_extractDataFromGetProfileInfoRawData (D := unit) (Some (GetProfilesInfo 0 0 1 (Some 1%positive))) (Some src)
       (zlen src) true true) (Sdk (Globals (SeState None tt LPA_NO_ERROR) [] true false []) [] [] [] true)
    (λ r g', ∃ (x : get_profiles_info) ss, ⟦r.2 = Some x ∧
        g' = Sdk (Globals (SeState None tt LPA_NO_ERROR) [] true false []) [] [] [] true ∧
        zlen ss = 1 ∧ Forall well_formed ss ∧
        gpi_countProfileInfo x = Z.min (gpi_numberProfileInfoFound x) 1⟧ ∗ structs (Some 1%positive) true ss)%I.
Proof.
  cbv zeta. assert (readable true (take (Z.to_nat (zlen sample_profiles)) sample_profiles)) as Hr.
  { rw zlen_to_nat firstn_all. destruct (installed_objects _ sample_installed_ok) as (? & ? & _).
    by apply readable_profile_list. }
  split; [exact Hr|]. apply (profiles_well_formed false true 1 (Some 1%positive) [ForPpr zero_profile_info_for_ppr]).
  - vm_compute. split; [reflexivity|discriminate].
  - apply (bool_decide_unpack _). vm_compute. exact I.
  - exact Hr.
  - vm_compute. split; discriminate.
  - constructor; [apply (zero_struct_ok true)|constructor].
Defined.

Lemma profiles_number_witness :
  ∃ x a, exchanges_into number_request TEMP_BUFFER_SIZE_FOR_PROFILES_COUNT (sample_sdk sample_answers) x a ∧
    number_outcome x = (true, 1, None) ∧
    triple true emp%I (lpaManagerES10c_GetProfilesNumber (Some 0)) (sample_sdk sample_answers)
      (λ r g', let '(ok, m, e) := number_outcome x in
         ⟦r = (ok, Some m) ∧ g' = reporting_opt e (set_apdu a (sample_sdk sample_answers))⟧)%I.
Proof.
  assert (∃ x a, exchanges_into number_request TEMP_BUFFER_SIZE_FOR_PROFILES_COUNT (sample_sdk sample_answers) x a ∧
    number_outcome x = (true, 1, None) ∧ take (Z.to_nat x.2) x.1.2 = sample_number) as (x & a & Hx & Hn & E).
  { eexists _, _. split; [split; [vm_compute; reflexivity|answer_bytes]|]. by vm_compute. }
  exists x, a. split; [exact Hx|]. split; [exact Hn|]. apply (profiles_number 0 _ x a Hx).
  rw E. by apply readable_profile_list; [apply sample_number_ok| |].
Defined.

Lemma profiles_roundtrip_witness :
  ∃ x1 a1 x2 a2,
    exchanges_into number_request TEMP_BUFFER_SIZE_FOR_PROFILES_COUNT (sample_sdk sample_answers) x1 a1 ∧
    exchanges_into ppr_request (ppr_room 1) (set_apdu a1 (sample_sdk sample_answers)) x2 a2 ∧
    triple true emp%I (_getProfilesInfoForPPR (GetProfilesInfo 0 0 0 None)) (sample_sdk sample_answers)
      (λ r g', ∃ l, ⟦r = (true, GetProfilesInfo 1 1 1 (Some l)) ∧ g' = set_apdu a2 (sample_sdk sample_answers)⟧ ∗
         l ↦ BPprInfos [info_of sample_installed])%I.
Proof.
  assert (∃ x1 a1 x2 a2,
    exchanges_into number_request TEMP_BUFFER_SIZE_FOR_PROFILES_COUNT (sample_sdk sample_answers) x1 a1 ∧
    answer_data x1 = Some sample_number ∧ settled (set_apdu a1 (sample_sdk sample_answers)) ∧
    exchanges_into ppr_request (ppr_room 1) (set_apdu a1 (sample_sdk sample_answers)) x2 a2 ∧
    answer_data x2 = Some sample_profiles ∧ settled (set_apdu a2 (sample_sdk sample_answers)))
    as (x1 & a1 & x2 & a2 & Hx1 & E1 & Hs1 & Hx2 & E2 & Hs2).
  { eexists _, _, _, _. split; [split; [vm_compute; reflexivity|answer_bytes]|].
    split; [vm_compute; reflexivity|]. split; [by vm_compute|].
    split; [split; [vm_compute; reflexivity|answer_bytes]|]. split; [vm_compute; reflexivity|by vm_compute]. }
  exists x1, a1, x2, a2. split; [exact Hx1|]. split; [exact Hx2|].
  apply (profiles_roundtrip [tlv_bytes 0x5A sample_id] [sample_installed] 0 0 0 _ x1 a1 x2 a2); try done.
  - apply sample_installed_ok.
  - apply sample_number_ok.
Defined.
