(* ===== verification/Activation.v ===== *)
(** * Activation codes

    [_extractElementFromActivationCode], [_checkActivationCodeValid],
    [_decodeActivationCodeStr] and
    [_checkConfirmationCodeRequestInActivationCodeStr] of [lpa_manager.c]: the
    fields of a text [1$address$matching id$oid$confirmation code flag]. The
    decoder accepts a code exactly when its list of fields is well formed, and
    stores the fields. *)

From Stdlib Require String.
From S2P Require Import Prelude CLib Util StateMonad ApiError.
Import Stdlib.Strings.String.StringSyntax.
#[local] Delimit Scope string_scope with string.

(** ** The code *)

Definition LPA_SMDP_ADDRESS_SIZE : Z := 128.
Definition LPA_MATCHING_ID_SIZE : Z := 255.
Definition LPA_OID_SIZE : Z := 128.
Definition LPA_CC_REQUIRED_FLAG_SIZE : Z := 2.
Definition LPA_ACTIVATION_CODE_MAX_SIZE : Z :=
  2 + LPA_SMDP_ADDRESS_SIZE + 1 + LPA_MATCHING_ID_SIZE + 1 + LPA_OID_SIZE + 1 + LPA_CC_REQUIRED_FLAG_SIZE.
Definition LPA_ACTIVATION_CODE_MAX_STRING_BUFFER_SIZE : Z := LPA_ACTIVATION_CODE_MAX_SIZE + 1.

(** The dollar and the dot. *)
Definition dollar : Z := 36.
Definition dot : Z := 46.

(** The buffers of an activation code. *)
Record ACTIVATION_CODE := ActivationCode {
  smdxAddr : list Z;
  matchingId : list Z;
  oid : list Z;
  ccRequiredFlag : list Z
}.

(** The inner loop: [rest] is the code from [i + j] on; the result is [j] and
    the buffer. *)
Fixpoint copy_element (rest : list Z) (j maxElementSize : Z) (ptrElement : list Z)
  : option (Z * list Z) :=
  match rest with
  | [] => Some (j, ptrElement)
  | c :: rest' =>
      if (j <? maxElementSize) && negb (c =? dollar) then
        e ← ptrElement.[j := c]; copy_element rest' (j + 1) maxElementSize e
      else Some (j, ptrElement)
  end.

(** The outer loop, left as soon as the element is found: [rest] is the code from
    [i] on. *)
Fixpoint find_element (rest : list Z) (countDollar elementNumber maxElementSize : Z)
    (ptrElement : list Z) : option (bool * list Z) :=
  match rest with
  | [] => Some (false, ptrElement)
  | c :: rest' =>
      if countDollar <? elementNumber then
        let countDollar := if c =? dollar then countDollar + 1 else countDollar in
        if countDollar =? elementNumber then
          '(j, e) ← copy_element rest' 0 maxElementSize ptrElement;
          if j <? maxElementSize then e ← e.[j := 0]; Some (true, e)
          else e ← e.[maxElementSize - 1 := 0]; Some (false, e)
        else find_element rest' countDollar elementNumber maxElementSize ptrElement
      else Some (false, ptrElement)
  end.

(** The code is a string; result and buffer. *)
Definition _extractElementFromActivationCode (ptrActivationCodeStr : list Z) (elementNumber : Z)
    (ptrElement : list Z) (maxElementSize : Z) : option (bool * list Z) :=
  if (elementNumber >? 0) && (maxElementSize >? 1)
     && (countCharOccurencesInString (Some ptrActivationCodeStr) dollar >=? elementNumber)
  then find_element ptrActivationCodeStr 0 elementNumber maxElementSize ptrElement
  else Some (false, ptrElement).

Definition _checkActivationCodeValid (ptrActivationCodeStr : option (list Z)) : option bool :=
  match ptrActivationCodeStr with
  | Some s =>
      if (zlen s >? 4) && (zlen s <? LPA_ACTIVATION_CODE_MAX_STRING_BUFFER_SIZE) then
        let nbDollars := countCharOccurencesInString (Some s) dollar in
        if (nbDollars >? 1) && (nbDollars <? 5) then
          c0 ← s.[0]; c1 ← s.[1]; Some ((c0 =? 49) && (c1 =? dollar))
        else Some false
      else Some false
  | None => Some false
  end.

(** The loop over the characters [i] to [lastOIDcharacter - 1] of the OID. *)
Fixpoint oid_characters (n : nat) (o : list Z) (i : Z) (checkOID_OK : bool) : option bool :=
  match n with
  | O => Some checkOID_OK
  | S n => c ← o.[i]; oid_characters n o (i + 1) (checkOID_OK && (isdigit c || (c =? dot)))
  end.

(** The format of an OID that is not empty. *)
Definition check_oid (o : list Z) : option bool :=
  len ← strlen o;
  let lastOIDcharacter := len - 1 in
  c0 ← o.[0]; c1 ← o.[1]; c2 ← o.[2]; cl ← o.[lastOIDcharacter];
  oid_characters (Z.to_nat (lastOIDcharacter - 3)) o 3
    (negb (len <? 3) && negb ((c0 <? 48) || (c0 >? 50)) && (c1 =? dot)
     && negb (negb (isdigit c2) || negb (isdigit cl))).

(** The four parts of _decodeActivationCodeStr, on the buffer of their field. *)
Definition invalid {A} (a : A) : API (bool * A) :=
  lpaSetErrorCode LPA_ERROR_INVALID_ACTIVATION_CODE;; mret (false, a).

Definition decode_address (s b : list Z) : API (bool * list Z) :=
  '(res, b) ← opt (_extractElementFromActivationCode s 1 b LPA_SMDP_ADDRESS_SIZE);
  if res : bool then
    len ← opt (strlen b);
    if len =? 0 then invalid b else mret (true, b)
  else invalid b.

Definition decode_matching_id (s b : list Z) : API (bool * list Z) :=
  '(res, b) ← opt (_extractElementFromActivationCode s 2 b LPA_MATCHING_ID_SIZE);
  if res : bool then mret (true, b) else invalid b.

Definition decode_oid (s b : list Z) : API (bool * list Z) :=
  '(found, b) ← opt (_extractElementFromActivationCode s 3 b LPA_OID_SIZE);
  len ← opt (strlen b);
  if found : bool then
    if len >? 0 then
      checkOID_OK ← opt (check_oid b);
      if checkOID_OK : bool then mret (true, b) else invalid b
    else mret (true, b)
  else
    '(res, b) ← (if len >? 0 then invalid b else mret (true, b));
    b ← opt b.[0 := 0]; mret (res, b).

Definition decode_cc_flag (s b : list Z) : API (bool * list Z) :=
  '(found, b) ← opt (_extractElementFromActivationCode s 4 b LPA_CC_REQUIRED_FLAG_SIZE);
  len ← opt (strlen b);
  if found : bool then
    if len >? 0 then
      c0 ← opt b.[0];
      if negb (len =? 1) || negb (c0 =? 49) then invalid b else mret (true, b)
    else invalid b
  else
    '(res, b) ← (if len >? 0 then invalid b else mret (true, b));
    b ← opt b.[0 := 0]; mret (res, b).

Definition _decodeActivationCodeStr (ptrActivationCodeStr : option (list Z)) (a : ACTIVATION_CODE)
  : API (bool * ACTIVATION_CODE) :=
  valid ← opt (_checkActivationCodeValid ptrActivationCodeStr);
  match ptrActivationCodeStr with
  | Some s =>
      if valid : bool then
        '(res, b1) ← decode_address s (smdxAddr a);
        '(res, b2) ← (if res : bool then decode_matching_id s (matchingId a) else mret (false, matchingId a));
        '(res, b3) ← (if res : bool then decode_oid s (oid a) else mret (false, oid a));
        '(res, b4) ← (if res : bool then decode_cc_flag s (ccRequiredFlag a) else mret (false, ccRequiredFlag a));
        mret (res, ActivationCode b1 b2 b3 b4)
      else invalid a
  | None => invalid a
  end.

(** [readFlag] is a local array, whatever it holds. *)
Definition _checkConfirmationCodeRequestInActivationCodeStr (readFlag : list Z)
    (ptrActivationCodeStr : option (list Z)) : API bool :=
  valid ← opt (_checkActivationCodeValid ptrActivationCodeStr);
  match ptrActivationCodeStr with
  | Some s =>
      if valid : bool then
        '(found, b) ← opt (_extractElementFromActivationCode s 4 readFlag LPA_CC_REQUIRED_FLAG_SIZE);
        if found : bool then
          flag ← opt (c_str b);
          mret (streqb flag [49])
        else mret false
      else lpaSetErrorCode LPA_ERROR_INVALID_ACTIVATION_CODE;; mret false
  | None => lpaSetErrorCode LPA_ERROR_INVALID_ACTIVATION_CODE;; mret false
  end.

(** ** Specification: the fields of a text *)

(** The text cut at the dollars. *)
Fixpoint fields (s : list Z) : list (list Z) :=
  match s with
  | [] => [[]]
  | c :: s =>
      if c =? dollar then [] :: fields s
      else match fields s with f :: fs => (c :: f) :: fs | [] => [[c]] end
  end.

(** An OID: an arc from 0 to 2, a dot, and digits and dots that begin and end
    with a digit. *)
Definition oid_format (o : list Z) : bool :=
  match o with
  | c0 :: c1 :: c2 :: o' =>
      (48 <=? c0) && (c0 <=? 50) && (c1 =? dot) && isdigit c2
      && forallb (λ c, isdigit c || (c =? dot)) o' && isdigit (List.last (c2 :: o') 0)
  | _ => false
  end.

(** The four fields of a code, the last two optional; an OID may be empty, a
    flag may not. *)
Definition activation (s : list Z) : option (list Z * list Z * list Z * list Z) :=
  if (4 <? zlen s) && (zlen s <? LPA_ACTIVATION_CODE_MAX_STRING_BUFFER_SIZE) then
    match fields s with
    | version :: addr :: mid :: rest =>
        if streqb version [49] && (0 <? zlen addr) && (zlen addr <? 128) && (zlen mid <? 255) then
          match rest with
          | [] => Some (addr, mid, [], [])
          | o :: rest' =>
              if (zlen o <? 128) && ((zlen o =? 0) || oid_format o) then
                match rest' with
                | [] => Some (addr, mid, o, [])
                | [cc] => if streqb cc [49] then Some (addr, mid, o, [49]) else None
                | _ => None
                end
              else None
          end
        else None
    | _ => None
    end
  else None.

(** ** Extraction of an element *)

Lemma fields_nonempty s : fields s ≠ [].
Proof. destruct s as [|c s]; cbn; [done|]. destruct (c =? dollar); [done|]. by destruct (fields s). Qed.

Lemma fields_dollar s : fields (dollar :: s) = [] :: fields s.
Proof. done. Qed.

Lemma fields_char c s : c ≠ dollar → ∃ f fs, fields s = f :: fs ∧ fields (c :: s) = (c :: f) :: fs.
Proof.
  intros Hc. pose proof (fields_nonempty s) as Hn. cbn. rewrite (proj2 (Z.eqb_neq c dollar)) by done.
  destruct (fields s) as [|f fs]; [done|]. by exists f, fs.
Qed.

Lemma fields_length s : countCharOccurencesInString (Some s) dollar = zlen (fields s) - 1.
Proof.
  unfold countCharOccurencesInString.
  assert (∀ n, foldl (λ count x, if x =? dollar then count + 1 else count) n s
               = n + (zlen (fields s) - 1)) as H; [|by rewrite H].
  induction s as [|c s IH]; intros n; [change (n = n + (1 - 1)); lia|]. cbn [foldl]. rewrite IH.
  destruct (decide (c = dollar)) as [->|Hc].
  - rewrite fields_dollar, zlen_cons, Z.eqb_refl. lia.
  - rewrite (proj2 (Z.eqb_neq c dollar)) by done.
    destruct (fields_char c s Hc) as (f & fs & -> & ->). rewrite !zlen_cons. lia.
Qed.

Lemma fields_nonzero s : Forall (λ c, c ≠ 0) s → Forall (Forall (λ c, c ≠ 0)) (fields s).
Proof.
  induction 1 as [|c s Hc Hs IH]; [by repeat constructor|].
  destruct (decide (c = dollar)) as [->|Hd]; [by constructor|].
  destruct (fields_char c s Hd) as (f & fs & E & ->). rewrite E in IH.
  inversion_clear IH. by repeat constructor.
Qed.

(** The field copied, as far as there is room, from the cell [j] on. *)
Lemma copy_element_spec s : ∀ j max b f fs,
  fields s = f :: fs → 0 <= j <= max → max <= zlen b →
  let k := Z.min (zlen f) (max - j) in
  copy_element s j max b
  = Some (j + k, take (Z.to_nat j) b ++ take (Z.to_nat k) f ++ drop (Z.to_nat (j + k)) b).
Proof.
  induction s as [|c s IH]; intros j max b f fs E Hj Hb k.
  { cbn in E. injection E as <- <-. subst k. rewrite Z.min_l by (change (zlen (A := Z) []) with 0; lia).
    change (zlen (A := Z) []) with 0. by rewrite take_nil, app_nil_l, Z.add_0_r, take_drop. }
  cbn [copy_element]. destruct (decide (c = dollar)) as [->|Hd].
  { rewrite Z.eqb_refl, andb_false_r. rewrite fields_dollar in E. injection E as <- <-. subst k.
    rewrite Z.min_l by (change (zlen (A := Z) []) with 0; lia).
    change (zlen (A := Z) []) with 0. by rewrite take_nil, app_nil_l, Z.add_0_r, take_drop. }
  rewrite (proj2 (Z.eqb_neq c dollar)) by done. rewrite andb_true_r.
  destruct (fields_char c s Hd) as (f' & fs' & E' & Ec). rewrite Ec in E. injection E as <- <-.
  pose proof (zlen_nonneg f'). destruct (decide (j < max)) as [Hlt|Hge].
  - ztrue (j <? max).
    assert (b.[j := c] = Some (<[Z.to_nat j := c]> b)) as -> by (unfold wr; by rewrite (proj2 (andb_true_iff _ _)) by zlia).
    cbn [mbind option_bind].
    rewrite (IH (j + 1) max _ f' fs') by (rewrite ?zlen_insert; done || lia).
    subst k. rewrite zlen_cons. set (k' := Z.min (zlen f') (max - (j + 1))).
    replace (Z.min (1 + zlen f') (max - j)) with (1 + k') by lia.
    assert (0 <= k') by lia. replace (j + 1 + k') with (j + (1 + k')) by lia. do 2 f_equal.
    replace (Z.to_nat (j + 1)) with (S (Z.to_nat j)) by lia.
    replace (Z.to_nat (1 + k')) with (S (Z.to_nat k')) by lia. cbn [take].
    rewrite (take_S_r _ _ c) by (apply list_lookup_insert_eq; unfold zlen in Hb; lia).
    rewrite take_insert_ge by lia. rewrite <-app_assoc. cbn [app]. do 3 f_equal.
    rewrite drop_insert_lt by lia. done.
  - assert (max = j) as -> by lia. rewrite Z.ltb_irrefl. subst k. rewrite zlen_cons.
    rewrite Z.sub_diag, Z.min_r by lia. rewrite Z.add_0_r. cbn [Z.to_nat take app].
    change (Z.to_nat 0) with 0%nat. by rewrite take_0, app_nil_l, take_drop.
Qed.

Lemma wr_behind (f d : list Z) v : 0 < zlen d → (f ++ d).[zlen f := v] = Some (f ++ v :: drop 1 d).
Proof. destruct d as [|x d]; [done|]. intros _. by rewrite wr_app_next. Qed.

(** What the extraction of the field [f] leaves in a buffer. *)
Definition extracted (b f : list Z) (max : Z) : bool * list Z :=
  if zlen f <? max then (true, f ++ 0 :: drop (length f + 1) b)
  else (false, take (Z.to_nat (max - 1)) f ++ 0 :: drop (Z.to_nat max) b).

Lemma find_element_spec s : ∀ cd n max b,
  cd < n → 1 < max <= zlen b →
  find_element s cd n max b
  = Some match fields s !! Z.to_nat (n - cd) with
         | Some f => extracted b f max
         | None => (false, b)
         end.
Proof.
  induction s as [|c s IH]; intros cd n max b Hcd Hmax.
  { cbn. by replace (Z.to_nat (n - cd)) with (S (Z.to_nat (n - cd - 1))) by lia. }
  cbn [find_element]. ztrue (cd <? n). destruct (decide (c = dollar)) as [->|Hd].
  - rewrite Z.eqb_refl, fields_dollar.
    replace (Z.to_nat (n - cd)) with (S (Z.to_nat (n - (cd + 1)))) by lia. cbn [lookup list_lookup].
    destruct (decide (cd + 1 = n)) as [E|Hne].
    + rewrite E, Z.eqb_refl, Z.sub_diag. cbn [Z.to_nat].
      destruct (fields s) as [|f fs] eqn:Ef; [by destruct (fields_nonempty s)|]. cbn [lookup list_lookup].
      rewrite (copy_element_spec s 0 max b f fs) by (done || lia). pose proof (zlen_nonneg f).
      change (Z.to_nat 0) with 0%nat. cbn [mbind option_bind take app lookup list_lookup].
      rewrite Z.add_0_l, Z.sub_0_r, take_0, app_nil_l. unfold extracted.
      destruct (decide (zlen f < max)) as [Hf|Hf].
      * ztrue (zlen f <? max). rewrite Z.min_l by lia. ztrue (zlen f <? max).
        rewrite zlen_to_nat, take_ge by lia.
        rewrite (wr_behind f (drop (length f) b) 0) by (rewrite zlen_drop; unfold zlen in *; lia).
        by rewrite drop_drop.
      * zfalse (zlen f <? max). rewrite Z.min_r by lia. rewrite Z.ltb_irrefl.
        replace (Z.to_nat max) with (S (Z.to_nat (max - 1))) at 1 by lia.
        destruct (f !! Z.to_nat (max - 1)) as [x|] eqn:Ex.
        2: { apply lookup_ge_None in Ex. unfold zlen in *. lia. }
        rewrite (take_S_r _ _ _ Ex), <-app_assoc. cbn [app].
        rewrite (wr_at (take (Z.to_nat (max - 1)) f)); [by rewrite <-app_assoc|].
        rewrite zlen_take. unfold zlen in *. lia.
    + rewrite (proj2 (Z.eqb_neq _ _)) by done. apply IH; lia.
  - rewrite (proj2 (Z.eqb_neq c dollar)) by done. rewrite (proj2 (Z.eqb_neq cd n)) by lia.
    rewrite IH by lia. destruct (fields_char c s Hd) as (f & fs & -> & ->).
    by replace (Z.to_nat (n - cd)) with (S (Z.to_nat (n - cd - 1))) by lia.
Qed.

Lemma extract_field_ok s n b max :
  0 < n → 1 < max <= zlen b →
  _extractElementFromActivationCode s n b max
  = Some match fields s !! Z.to_nat n with
         | Some f => extracted b f max
         | None => (false, b)
         end.
Proof.
  intros Hn Hmax. unfold _extractElementFromActivationCode. ztrue (n >? 0). ztrue (max >? 1).
  cbn [andb]. rewrite fields_length. ztest.
  - rewrite find_element_spec by lia. by rewrite Z.sub_0_r.
  - rewrite lookup_ge_None_2; [done|]. unfold zlen in *. lia.
Qed.

(** ** The checks *)

Lemma fields_one c0 c1 s :
  (c0 =? 49) && (c1 =? dollar) = bool_decide (head (fields (c0 :: c1 :: s)) = Some [49]).
Proof.
  destruct (decide (c0 = dollar)) as [->|H0]; [done|].
  destruct (fields_char c0 (c1 :: s) H0) as (f & fs & E & ->). cbn [head].
  destruct (decide (c1 = dollar)) as [->|H1].
  - rewrite fields_dollar in E. injection E as <- <-. rewrite Z.eqb_refl, andb_true_r.
    case_bool_decide as Hc; [injection Hc as ->; done|]. apply Z.eqb_neq. congruence.
  - rewrite (proj2 (Z.eqb_neq c1 dollar)) by done. rewrite andb_false_r.
    destruct (fields_char c1 s H1) as (f' & fs' & _ & E'). rewrite E' in E. injection E as <- <-.
    symmetry. apply bool_decide_eq_false. congruence.
Qed.

Lemma checkActivationCodeValid_ok s :
  _checkActivationCodeValid (Some s)
  = Some ((4 <? zlen s) && (zlen s <? LPA_ACTIVATION_CODE_MAX_STRING_BUFFER_SIZE)
          && (3 <=? zlen (fields s)) && (zlen (fields s) <=? 5)
          && bool_decide (head (fields s) = Some [49])).
Proof.
  unfold _checkActivationCodeValid. rewrite fields_length.
  destruct (4 <? zlen s) eqn:E1; zprop; [ztrue (zlen s >? 4)|by zfalse (zlen s >? 4)].
  destruct (zlen s <? _) eqn:E2; [|done]. cbn [andb].
  destruct (3 <=? zlen (fields s)) eqn:E3; zprop;
    [ztrue (zlen (fields s) - 1 >? 1)|by zfalse (zlen (fields s) - 1 >? 1)].
  destruct (zlen (fields s) <=? 5) eqn:E4; zprop;
    [ztrue (zlen (fields s) - 1 <? 5)|by zfalse (zlen (fields s) - 1 <? 5)].
  cbn [andb]. destruct s as [|c0 [|c1 s]]; [done|done|]. rewrite <-fields_one. done.
Qed.

Lemma oid_characters_ok n o : ∀ i acc,
  0 <= i → i + Z.of_nat n <= zlen o →
  oid_characters n o i acc
  = Some (acc && forallb (λ c, isdigit c || (c =? dot)) (take n (drop (Z.to_nat i) o))).
Proof.
  induction n as [|n IH]; intros i acc Hi Hn; cbn [oid_characters].
  { by rewrite take_0, andb_true_r. }
  destruct (drop (Z.to_nat i) o) as [|c o'] eqn:E.
  { apply (f_equal zlen) in E. rewrite zlen_drop in E. change (zlen []) with 0 in E. lia. }
  assert (o.[i] = Some c) as ->.
  { unfold rd. ztrue (0 <=? i). by rewrite <-(Nat.add_0_r (Z.to_nat i)), <-lookup_drop, E. }
  cbn [mbind option_bind]. rewrite IH by lia.
  replace (Z.to_nat (i + 1)) with (Z.to_nat i + 1)%nat by lia. rewrite <-drop_drop, E.
  cbn [drop take forallb]. by rewrite andb_assoc.
Qed.

Lemma last_cons_app (c x : Z) o : List.last (c :: o ++ [x]) 0 = x.
Proof. rewrite app_comm_cons. apply last_last. Qed.

Lemma check_oid_ok o k :
  o ≠ [] → Forall (λ c, c ≠ 0) o → 2 <= zlen o + zlen k → check_oid (o ++ 0 :: k) = Some (oid_format o).
Proof.
  intros Hne Hnz Hk. unfold check_oid. rewrite strlen_app by done. cbn [mbind option_bind].
  destruct o as [|c0 [|c1 [|c2 o]]]; [done|by destruct k as [|k0 k]..|]. clear Hk.
  set (l := zlen (c0 :: c1 :: c2 :: o)).
  assert (((c0 :: c1 :: c2 :: o) ++ 0 :: k).[l - 1] = Some (List.last (c2 :: o) 0)) as El.
  { subst l. destruct o as [|x o _] using rev_ind; [done|].
    rewrite last_cons_app.
    replace ((c0 :: c1 :: c2 :: o ++ [x]) ++ 0 :: k) with ((c0 :: c1 :: c2 :: o) ++ x :: 0 :: k)
      by (cbn; by rewrite <-app_assoc).
    apply rd_at. rewrite !zlen_cons, zlen_app. change (zlen [x]) with 1. lia. }
  assert (3 <= l) as Hl by (subst l; rewrite !zlen_cons; zlen_pos; lia).
  rewrite El. cbn [mbind option_bind app]. change (rd _ 0) with (Some c0). change (rd _ 1) with (Some c1).
  change (rd _ 2) with (Some c2). cbn [mbind option_bind].
  rewrite oid_characters_ok; [|lia|subst l; rewrite !zlen_cons, zlen_app, zlen_cons in *; zlen_pos; lia].
  f_equal. zfalse (l <? 3). cbn [negb andb oid_format]. change (Z.to_nat 3) with 3%nat. cbn [drop]. rewrite drop_0.
  destruct o as [|x o _] using rev_ind.
  - subst l. cbn. rewrite !andb_true_r. destruct (isdigit c2), (c1 =? dot); lia.
  - rewrite last_cons_app, forallb_app. cbn [forallb].
    assert (take (Z.to_nat (l - 1 - 3)) ((o ++ [x]) ++ 0 :: k) = o) as ->.
    { subst l. rewrite !zlen_cons, zlen_app. change (zlen [x]) with 1.
      rewrite <-app_assoc. rewrite take_app_le by (unfold zlen; lia).
      apply take_ge. unfold zlen. lia. }
    destruct (isdigit c2), (isdigit x), (c1 =? dot), (forallb _ o); cbn; lia.
Qed.

(** ** Decoding *)

Section decoding.
Context (s : list Z) (Hs : Forall (λ c, c ≠ 0) s).
Implicit Types (e : LPA_API_ERROR) (f b : list Z).

(** A part of the decoder, on a cleared buffer: the value [r] of the field, or
    the error. *)
Definition yields (m : API (bool * list Z)) (r : option (list Z)) : Prop :=
  ∀ e, ∃ b, m e = Some ((bool_decide (is_Some r), b),
                        match r with Some _ => e | None => first_error LPA_ERROR_INVALID_ACTIVATION_CODE e end) ∧
            ∀ f, r = Some f → c_str b = Some f.

Lemma field_nonzero n f : fields s !! n = Some f → Forall (λ c, c ≠ 0) f.
Proof. intros Hf. pose proof (fields_nonzero s Hs) as H. rewrite Forall_lookup in H. by eapply H. Qed.

Lemma extracted_fits f size :
  zlen f < size → extracted (fill 0 size) f size = (true, f ++ 0 :: fill 0 (size - zlen f - 1)).
Proof.
  intros Hf. unfold extracted. ztrue (zlen f <? size). do 3 f_equal. unfold fill.
  rewrite drop_replicate. f_equal. unfold zlen in *. lia.
Qed.

Lemma extracted_overflows f size :
  0 < size <= zlen f → Forall (λ c, c ≠ 0) f →
  ∃ b, extracted (fill 0 size) f size = (false, b) ∧ strlen b = Some (size - 1) ∧ zlen b = size.
Proof.
  intros Hf Hnz. unfold extracted. zfalse (zlen f <? size). eexists. split; [done|].
  assert (zlen (take (Z.to_nat (size - 1)) f) = size - 1) as Hl by (rewrite zlen_take; lia). split.
  - rewrite strlen_app by (by apply Forall_take). by rewrite Hl.
  - rewrite zlen_app, zlen_cons, zlen_drop, zlen_fill, Hl by lia. lia.
Qed.

Lemma extract_first n size :
  0 < n → 1 < size →
  _extractElementFromActivationCode s n (fill 0 size) size
  = Some match fields s !! Z.to_nat n with
         | Some f => extracted (fill 0 size) f size
         | None => (false, fill 0 size)
         end.
Proof. intros Hn Hsize. apply extract_field_ok; [done|]. rewrite zlen_fill; lia. Qed.

Lemma cleared size : 0 < size → fill 0 size = [] ++ 0 :: fill 0 (size - 1).
Proof. intros H. unfold fill. by replace (Z.to_nat size) with (S (Z.to_nat (size - 1))) by lia. Qed.

Definition address_field : option (list Z) :=
  f ← fields s !! 1%nat; if (0 <? zlen f) && (zlen f <? 128) then Some f else None.
Definition matching_field : option (list Z) :=
  f ← fields s !! 2%nat; if zlen f <? 255 then Some f else None.
Definition oid_field : option (list Z) :=
  match fields s !! 3%nat with
  | Some o => if (zlen o <? 128) && ((zlen o =? 0) || oid_format o) then Some o else None
  | None => Some []
  end.
Definition cc_field : option (list Z) :=
  match fields s !! 4%nat with
  | Some cc => if streqb cc [49] then Some cc else None
  | None => Some []
  end.

Lemma decode_address_ok : yields (decode_address s (fill 0 LPA_SMDP_ADDRESS_SIZE)) address_field.
Proof.
  intros e. unfold decode_address, address_field. rewrite extract_first by done. st_step.
  change (Z.to_nat 1) with 1%nat. destruct (fields s !! 1%nat) as [f|] eqn:Ef; cbn [mbind option_bind].
  2: { eexists. split; [reflexivity|]. done. }
  pose proof (field_nonzero _ _ Ef) as Hnz. zlen_pos. destruct (decide (zlen f < 128)) as [Hl|Hl].
  - rewrite extracted_fits by done. erewrite ST_bind_eq; [|unfold opt; rewrite strlen_app by done; reflexivity].
    ztrue (zlen f <? 128). destruct (decide (zlen f = 0)) as [H0|H0].
    + rewrite H0. cbn. eexists. by split.
    + rewrite (proj2 (Z.eqb_neq _ _)) by done. ztrue (0 <? zlen f). cbn [andb].
      eexists. split; [reflexivity|]. intros ? [= <-]. by apply c_str_app.
  - destruct (extracted_overflows f LPA_SMDP_ADDRESS_SIZE) as (b & -> & _); [unfold LPA_SMDP_ADDRESS_SIZE; lia|done|].
    zfalse (zlen f <? 128). rewrite andb_false_r. by exists b.
Qed.

Lemma decode_matching_ok : yields (decode_matching_id s (fill 0 LPA_MATCHING_ID_SIZE)) matching_field.
Proof.
  intros e. unfold decode_matching_id, matching_field. rewrite extract_first by done. st_step.
  change (Z.to_nat 2) with 2%nat. destruct (fields s !! 2%nat) as [f|] eqn:Ef; cbn [mbind option_bind].
  2: { eexists. by split. }
  pose proof (field_nonzero _ _ Ef) as Hnz. zlen_pos. destruct (decide (zlen f < 255)) as [Hl|Hl].
  - rewrite extracted_fits by done. ztrue (zlen f <? 255). eexists. split; [reflexivity|].
    intros ? [= <-]. by apply c_str_app.
  - destruct (extracted_overflows f LPA_MATCHING_ID_SIZE) as (b & -> & _); [unfold LPA_MATCHING_ID_SIZE; lia|done|].
    zfalse (zlen f <? 255). by exists b.
Qed.

Lemma decode_oid_ok : yields (decode_oid s (fill 0 LPA_OID_SIZE)) oid_field.
Proof.
  intros e. unfold decode_oid, oid_field. rewrite extract_first by done. st_step.
  change (Z.to_nat 3) with 3%nat. destruct (fields s !! 3%nat) as [f|] eqn:Ef.
  2: { rewrite (cleared LPA_OID_SIZE) by done. st_step. eexists. split; [reflexivity|]. by intros ? [= <-]. }
  pose proof (field_nonzero _ _ Ef) as Hnz. zlen_pos. destruct (decide (zlen f < 128)) as [Hl|Hl].
  - rewrite extracted_fits by done. erewrite ST_bind_eq; [|unfold opt; rewrite strlen_app by done; reflexivity].
    ztrue (zlen f <? 128). cbn [andb]. destruct f as [|c f].
    + eexists. split; [reflexivity|]. by intros ? [= <-].
    + rewrite zlen_cons in *. zlen_pos. ztrue (1 + zlen f >? 0). zfalse (1 + zlen f =? 0). cbn [orb].
      erewrite ST_bind_eq.
      2: { unfold opt. rewrite check_oid_ok; [reflexivity|done|done|].
           rewrite zlen_cons. unfold LPA_OID_SIZE. rewrite zlen_fill by lia. lia. }
      destruct (oid_format (c :: f)); eexists; (split; [reflexivity|]); [|done].
      intros ? [= <-]. by apply c_str_app.
  - destruct (extracted_overflows f LPA_OID_SIZE) as (b & -> & Hb & Hbl); [unfold LPA_OID_SIZE; lia|done|].
    zfalse (zlen f <? 128). cbn [andb]. erewrite ST_bind_eq; [|unfold opt; rewrite Hb; reflexivity].
    destruct b as [|x b]; [done|]. by exists (0 :: b).
Qed.

Lemma decode_cc_ok : yields (decode_cc_flag s (fill 0 LPA_CC_REQUIRED_FLAG_SIZE)) cc_field.
Proof.
  intros e. unfold decode_cc_flag, cc_field. rewrite extract_first by done. st_step.
  change (Z.to_nat 4) with 4%nat. destruct (fields s !! 4%nat) as [f|] eqn:Ef.
  2: { rewrite (cleared LPA_CC_REQUIRED_FLAG_SIZE) by done. st_step. eexists. split; [reflexivity|]. by intros ? [= <-]. }
  pose proof (field_nonzero _ _ Ef) as Hnz. zlen_pos. destruct (decide (zlen f < 2)) as [Hl|Hl].
  - rewrite extracted_fits by done. erewrite ST_bind_eq; [|unfold opt; rewrite strlen_app by done; reflexivity].
    destruct f as [|c [|c' f]]; [eexists; by split| |rewrite !zlen_cons in Hl; zlen_pos; lia].
    change (zlen [c]) with 1. change (1 >? 0) with true. cbn iota. st_step. change (1 =? 1) with true. cbn [negb orb].
    destruct (decide (c = 49)) as [->|Hc].
    + eexists. split; [reflexivity|]. intros ? [= <-]. by apply c_str_app.
    + rewrite (proj2 (Z.eqb_neq c 49)) by done.
      assert (streqb [c] [49] = false) as -> by (apply bool_decide_eq_false; congruence).
      eexists. by split.
  - destruct (extracted_overflows f LPA_CC_REQUIRED_FLAG_SIZE) as (b & -> & Hb & Hbl); [unfold LPA_CC_REQUIRED_FLAG_SIZE; lia|done|].
    assert (streqb f [49] = false) as ->.
    { unfold streqb. apply bool_decide_eq_false. intros ->. by apply Hl. }
    erewrite ST_bind_eq; [|unfold opt; rewrite Hb; reflexivity].
    destruct b as [|x b]; [done|]. by exists (0 :: b).
Qed.

Lemma activation_fields :
  activation s =
  if (4 <? zlen s) && (zlen s <? LPA_ACTIVATION_CODE_MAX_STRING_BUFFER_SIZE)
     && (3 <=? zlen (fields s)) && (zlen (fields s) <=? 5) && bool_decide (head (fields s) = Some [49])
  then a ← address_field; m ← matching_field; o ← oid_field; c ← cc_field; Some (a, m, o, c)
  else None.
Proof.
  unfold activation, address_field, matching_field, oid_field, cc_field.
  destruct (_ && (zlen s <? _)); [|done]. cbn [andb].
  destruct (fields s) as [|f0 [|f1 [|f2 fs]]]; [done..|].
  rewrite !zlen_cons. zlen_pos. ztrue (3 <=? 1 + (1 + (1 + zlen fs))). cbn [andb head].
  assert (bool_decide (Some f0 = Some [49]) = streqb f0 [49]) as ->.
  { unfold streqb. apply bool_decide_ext. split; [by intros [= ->]|by intros ->]. }
  destruct (streqb f0 [49]); [|by rewrite andb_false_r]. rewrite andb_true_r.
  cbn [lookup list_lookup mbind option_bind andb].
  destruct (_ && (zlen f1 <? 128)); [|by destruct (_ <=? _)].
  destruct (zlen f2 <? 255) eqn:E2; cbn [mbind option_bind andb]; [|by destruct (_ <=? _)].
  destruct fs as [|f3 [|f4 [|f5 fs]]]; cbn [lookup list_lookup mbind option_bind].
  - done.
  - change (1 + (1 + (1 + zlen [f3])) <=? 5) with true. by destruct (_ && (_ || _)).
  - change (1 + (1 + (1 + zlen [f3; f4])) <=? 5) with true.
    destruct (_ && (_ || _)); [|done]. cbn [mbind option_bind].
    destruct (streqb f4 [49]) eqn:E; [|done]. by apply bool_decide_eq_true in E as ->.
  - rewrite !zlen_cons. zlen_pos. zfalse (1 + (1 + (1 + (1 + (1 + (1 + zlen fs))))) <=? 5).
    by destruct (_ && (_ || _)).
Qed.
End decoding.

(** ** The results *)

(** A cleared activation code. *)
Definition no_code : ACTIVATION_CODE :=
  ActivationCode (fill 0 LPA_SMDP_ADDRESS_SIZE) (fill 0 LPA_MATCHING_ID_SIZE) (fill 0 LPA_OID_SIZE)
    (fill 0 LPA_CC_REQUIRED_FLAG_SIZE).

(** C32: The activation code decoder (equivalence): on a cleared structure the
    decoder accepts exactly the texts of five characters or more, fewer than
    LPA_ACTIVATION_CODE_MAX_STRING_BUFFER_SIZE, whose fields between dollars
    are a version 1, an address of 1 to 127 characters, a matching id of at
    most 254, and optionally an OID of at most 127 that is empty or an arc from
    0 to 2, a dot, and digits and dots that begin and end with a digit, and
    then the flag 1; the buffers then hold the fields, and no cell outside
    of them is touched. Otherwise, as for the four characters 1$a$, the error
    LPA_ERROR_INVALID_ACTIVATION_CODE is reported. *)
Theorem decode_correct s e :
  Forall (λ c, c ≠ 0) s →
  ∃ a, _decodeActivationCodeStr (Some s) no_code e
       = Some ((bool_decide (is_Some (activation s)), a),
               match activation s with
               | Some _ => e
               | None => first_error LPA_ERROR_INVALID_ACTIVATION_CODE e
               end) ∧
    ∀ addr mid o cc, activation s = Some (addr, mid, o, cc) →
      c_str (smdxAddr a) = Some addr ∧ c_str (matchingId a) = Some mid ∧
      c_str (oid a) = Some o ∧ c_str (ccRequiredFlag a) = Some cc.
Proof.
  intros Hs. unfold _decodeActivationCodeStr.
  erewrite ST_bind_eq; [|unfold opt; rewrite checkActivationCodeValid_ok; reflexivity].
  rewrite (activation_fields s). destruct (_ && bool_decide _); [|eexists; by split].
  destruct (decode_address_ok s Hs e) as (b1 & E1 & H1). rewrite (ST_bind_eq _ _ _ _ _ E1).
  destruct (address_field s) as [f1|]; [|eexists; by split]. cbn beta iota. cbn [bool_decide decide_rel].
  destruct (decode_matching_ok s Hs e) as (b2 & E2 & H2). cbn. rewrite (ST_bind_eq _ _ _ _ _ E2).
  destruct (matching_field s) as [f2|]; [|eexists; by split]. cbn.
  destruct (decode_oid_ok s Hs e) as (b3 & E3 & H3). rewrite (ST_bind_eq _ _ _ _ _ E3).
  destruct (oid_field s) as [f3|]; [|eexists; by split]. cbn.
  destruct (decode_cc_ok s Hs e) as (b4 & E4 & H4). rewrite (ST_bind_eq _ _ _ _ _ E4).
  destruct (cc_field s) as [f4|]; [|eexists; by split]. cbn.
  eexists. split; [reflexivity|]. intros ???? [= <- <- <- <-]. cbn. auto.
Qed.

Definition sample_code : list Z :=
  chars "1$smdp.example.com$04386-AGYFT$1.3.6.1.4.1.31746$1"%string.

Lemma decode_correct_witness :
  ∃ a, _decodeActivationCodeStr (Some sample_code) no_code LPA_NO_ERROR = Some ((true, a), LPA_NO_ERROR) ∧
    ∀ addr mid o cc,
      Some (chars "smdp.example.com"%string, chars "04386-AGYFT"%string,
            chars "1.3.6.1.4.1.31746"%string, [49]) = Some (addr, mid, o, cc) →
      c_str (smdxAddr a) = Some addr ∧ c_str (matchingId a) = Some mid ∧
      c_str (oid a) = Some o ∧ c_str (ccRequiredFlag a) = Some cc.
Proof. apply (decode_correct sample_code LPA_NO_ERROR). by repeat constructor. Defined.

(** The test for a confirmation code (functional): it never reads outside of
    the text and its local array, whatever the array held; on a text that the
    decoder accepts it answers whether the flag is present, and it asks for a
    confirmation code on no text whose flag is not 1. *)
Theorem confirmation_request s readFlag e :
  Forall (λ c, c ≠ 0) s → zlen readFlag = LPA_CC_REQUIRED_FLAG_SIZE →
  ∃ r e', _checkConfirmationCodeRequestInActivationCodeStr readFlag (Some s) e = Some (r, e') ∧
    (r = true → fields s !! 4%nat = Some [49]) ∧
    ∀ addr mid o cc, activation s = Some (addr, mid, o, cc) → e' = e ∧ r = streqb cc [49].
Proof.
  intros Hs Hf. unfold _checkConfirmationCodeRequestInActivationCodeStr.
  erewrite ST_bind_eq; [|unfold opt; rewrite checkActivationCodeValid_ok; reflexivity].
  rewrite (activation_fields s). destruct (_ && bool_decide _).
  2: { eexists _, _. split; [reflexivity|]. done. }
  rewrite extract_field_ok by (done || rewrite Hf; done). st_step. change (Z.to_nat 4) with 4%nat.
  assert (∀ addr mid o cc, (a ← address_field s; m ← matching_field s; oo ← oid_field s; c ← cc_field s;
            Some (a, m, oo, c)) = Some (addr, mid, o, cc) → cc_field s = Some cc) as Hcc.
  { intros ????. destruct (address_field s), (matching_field s), (oid_field s), (cc_field s); cbn; congruence. }
  unfold cc_field in Hcc at 2. destruct (fields s !! 4%nat) as [f|] eqn:Ef.
  2: { eexists _, _. split; [reflexivity|]. split; [done|]. intros ???? Ha. apply Hcc in Ha.
       by injection Ha as <-. }
  pose proof (field_nonzero s Hs _ _ Ef) as Hnz. unfold extracted.
  destruct (decide (zlen f < LPA_CC_REQUIRED_FLAG_SIZE)) as [Hl|Hl].
  - ztrue (zlen f <? LPA_CC_REQUIRED_FLAG_SIZE).
    erewrite ST_bind_eq; [|unfold opt; rewrite c_str_app by done; reflexivity].
    eexists _, _. split; [reflexivity|]. split; [intros ->%streqb_spec; done|].
    intros ???? Ha. apply Hcc in Ha. split; [done|]. destruct (streqb f [49]) eqn:E; [|done].
    injection Ha as <-. done.
  - zfalse (zlen f <? LPA_CC_REQUIRED_FLAG_SIZE). eexists _, _. split; [reflexivity|]. split; [done|].
    intros ???? Ha. apply Hcc in Ha. split; [done|]. destruct (streqb f [49]) eqn:E; [|done].
    apply streqb_spec in E as ->. exfalso. by apply Hl.
Qed.

Lemma confirmation_request_witness :
  ∃ r e', _checkConfirmationCodeRequestInActivationCodeStr [1; 2] (Some sample_code) LPA_NO_ERROR = Some (r, e') ∧
    (r = true → Some [49] = Some [49]) ∧
    ∀ addr mid o cc,
      Some (chars "smdp.example.com"%string, chars "04386-AGYFT"%string,
            chars "1.3.6.1.4.1.31746"%string, [49]) = Some (addr, mid, o, cc) →
      e' = LPA_NO_ERROR ∧ r = streqb cc [49].
Proof. apply (confirmation_request sample_code [1; 2] LPA_NO_ERROR); [by repeat constructor|done]. Defined.
