(* ===== verification/Notification.v ===== *)
(** * The order of pending notifications

    [_sortNotificationList] and [_copyNotificationListElement] of
    [lpa_manager.c]: the notifications of the card are sent in the order of
    their sequence numbers. The sort is a bubble sort with an early exit, by
    copies through a local element; it is a stable sort. *)

From Stdlib Require Import Sorting.Sorted.
From stdpp Require Import sorting sets.
From S2P Require Import Prelude.

(** ** The code *)

Definition LPA_MAX_PROFILE_NOTIFICATION_LIST_METADATA_ELEMENT : Z := 16.
Definition LPA_MAX_NOTIFICATION_ADDRESS_RAW_DATA_SIZE : Z := 128.

Record LPA_PROFILE_NOTIFICATION_METADATA := Metadata {
  seqNumber : Z;
  profileManagementOperation : Z;
  notificationAddressRawData : list Z;
  notificationAddressRawDataSize : Z
}.
Abbreviation metadata := LPA_PROFILE_NOTIFICATION_METADATA.

Record LPA_PROFILE_NOTIFICATION_LIST := NotificationList {
  countNotification : Z;
  notificationMetadataList : list metadata
}.

(** The destination after the copy; both pointers are valid. *)
Definition _copyNotificationListElement (ptrSource ptrDestination : metadata) : option metadata :=
  bytes ← rd_range (notificationAddressRawData ptrSource) 0 LPA_MAX_NOTIFICATION_ADDRESS_RAW_DATA_SIZE;
  data ← wr_range (notificationAddressRawData ptrDestination) 0 bytes;
  Some (Metadata (seqNumber ptrSource) (profileManagementOperation ptrSource) data
          (notificationAddressRawDataSize ptrSource)).

(** The copies of a swap, through the local [listElementSwap]: the list and the
    local element after them. *)
Definition swap_elements (l : list metadata) (j : Z) (listElementSwap : metadata)
  : option (list metadata * metadata) :=
  next ← l.[j + 1];
  swap ← _copyNotificationListElement next listElementSwap;
  current ← l.[j];
  next' ← _copyNotificationListElement current next;
  l ← l.[j + 1 := next'];
  current' ← _copyNotificationListElement swap current;
  l ← l.[j := current'];
  Some (l, swap).

(** The inner loop, with [n] rounds to go: the list, the local element and
    [swapPerformed]. *)
Fixpoint sort_inner (n : nat) (j : Z) (l : list metadata) (listElementSwap : metadata)
    (swapPerformed : bool) : option (list metadata * metadata * bool) :=
  match n with
  | O => Some (l, listElementSwap, swapPerformed)
  | S n =>
      current ← l.[j];
      next ← l.[j + 1];
      if seqNumber current >? seqNumber next then
        '(l, swap) ← swap_elements l j listElementSwap;
        sort_inner n (j + 1) l swap true
      else sort_inner n (j + 1) l listElementSwap swapPerformed
  end.

(** The outer loop, of at most [n] rounds of [maxIterations] comparisons. *)
Fixpoint sort_outer (n maxIterations : nat) (l : list metadata) (listElementSwap : metadata)
  : option (list metadata) :=
  match n with
  | O => Some l
  | S n =>
      '(l, swap, swapPerformed) ← sort_inner maxIterations 0 l listElementSwap false;
      if swapPerformed : bool then sort_outer n maxIterations l swap else Some l
  end.

(** [listElementSwap] holds anything at first. The result is [true] on every
    list. *)
Definition _sortNotificationList (listElementSwap : metadata) (ptrNotificationList : LPA_PROFILE_NOTIFICATION_LIST)
  : option (bool * LPA_PROFILE_NOTIFICATION_LIST) :=
  if countNotification ptrNotificationList >? 1 then
    let maxIterations := Z.to_nat (countNotification ptrNotificationList - 1) in
    l ← sort_outer maxIterations maxIterations (notificationMetadataList ptrNotificationList) listElementSwap;
    Some (true, NotificationList (countNotification ptrNotificationList) l)
  else Some (true, ptrNotificationList).

(** ** Passes of a bubble sort *)

(** An element as the arrays of the code hold it. *)
Definition valid_metadata (x : metadata) : Prop :=
  zlen (notificationAddressRawData x) = LPA_MAX_NOTIFICATION_ADDRESS_RAW_DATA_SIZE.

Lemma copy_element_ok x y :
  valid_metadata x → valid_metadata y → _copyNotificationListElement x y = Some x.
Proof.
  unfold valid_metadata, _copyNotificationListElement. intros Hx Hy.
  assert (rd_range (notificationAddressRawData x) 0 LPA_MAX_NOTIFICATION_ADDRESS_RAW_DATA_SIZE
          = Some (notificationAddressRawData x)) as ->.
  { unfold rd_range. rewrite Hx. cbn. rewrite drop_0, take_ge; [done|].
    unfold zlen, LPA_MAX_NOTIFICATION_ADDRESS_RAW_DATA_SIZE in *. lia. }
  cbn [mbind option_bind]. rewrite wr_range_Some by lia. cbn.
  rewrite take_0, drop_ge by (unfold zlen in *; lia). cbn. rewrite app_nil_r. by destruct x.
Qed.

Definition le_seq (x y : metadata) : Prop := seqNumber x <= seqNumber y.

(** A pass, on the elements of a list. *)
Fixpoint bubble (x : metadata) (l : list metadata) : list metadata :=
  match l with
  | [] => [x]
  | y :: l => if seqNumber x >? seqNumber y then y :: bubble x l else x :: bubble y l
  end.

Lemma rd_app_next (l : list metadata) x k : (l ++ x :: k).[zlen l] = Some x.
Proof. by apply rd_at. Qed.

(** Whether a pass swaps anything. *)
Fixpoint swaps (x : metadata) (l : list metadata) : bool :=
  match l with
  | [] => false
  | y :: l => if seqNumber x >? seqNumber y then true else swaps y l
  end.

Lemma swap_elements_ok pre x y k tmp :
  valid_metadata x → valid_metadata y → valid_metadata tmp →
  swap_elements (pre ++ x :: y :: k) (zlen pre) tmp = Some (pre ++ y :: x :: k, y).
Proof.
  intros Hx Hy Ht. unfold swap_elements.
  assert (∀ a b : metadata, pre ++ a :: b :: k = (pre ++ [a]) ++ b :: k) as Ea by (intros; by rewrite <-app_assoc).
  assert (zlen pre + 1 = zlen (pre ++ [x])) as El by (rewrite zlen_app; done).
  rewrite (Ea x), El, rd_app_next. cbn [mbind option_bind]. rewrite copy_element_ok by done. cbn [mbind option_bind].
  rewrite <-(Ea x), rd_app_next. cbn [mbind option_bind]. rewrite !copy_element_ok by done. cbn [mbind option_bind].
  rewrite (Ea x), wr_app_next. cbn [mbind option_bind].
  rewrite <-(Ea x), wr_app_next. done.
Qed.

Lemma sort_inner_ok ys : ∀ pre x rest tmp sw,
  valid_metadata x → Forall valid_metadata ys → valid_metadata tmp →
  ∃ tmp', valid_metadata tmp' ∧
    sort_inner (length ys) (zlen pre) (pre ++ x :: ys ++ rest) tmp sw
    = Some (pre ++ bubble x ys ++ rest, tmp', sw || swaps x ys).
Proof.
  induction ys as [|y ys IH]; intros pre x rest tmp sw Hx Hys Ht.
  { exists tmp. split; [done|]. cbn. by rewrite orb_false_r. }
  inversion_clear Hys as [|?? Hy Hys'].
  assert (∀ a b : metadata, pre ++ a :: b :: ys ++ rest = (pre ++ [a]) ++ b :: ys ++ rest) as Ea
    by (intros; by rewrite <-app_assoc).
  assert (∀ a, zlen pre + 1 = zlen (pre ++ [a])) as El by (intros; by rewrite zlen_app).
  cbn [sort_inner length app bubble swaps]. rewrite rd_app_next. cbn [mbind option_bind].
  rewrite (Ea x y), (El x), rd_app_next. cbn [mbind option_bind].
  destruct (seqNumber x >? seqNumber y).
  - rewrite <-(Ea x y), swap_elements_ok by done. cbn [mbind option_bind]. rewrite (Ea y x), <-(El x), (El y).
    destruct (IH (pre ++ [y]) x rest y true) as (tmp' & Ht' & ->); [done..|].
    exists tmp'. split; [done|]. rewrite <-app_assoc. cbn. by rewrite orb_true_r.
  - destruct (IH (pre ++ [x]) y rest tmp sw) as (tmp' & Ht' & ->); [done..|].
    exists tmp'. split; [done|]. by rewrite <-app_assoc.
Qed.

Lemma bubble_perm x l : bubble x l ≡ₚ x :: l.
Proof.
  revert x. induction l as [|y l IH]; intros x; [done|]. cbn.
  destruct (_ >? _); [rewrite IH; apply Permutation_swap|by rewrite IH].
Qed.

Lemma bubble_stable x l n :
  filter (λ a, seqNumber a = n) (bubble x l) = filter (λ a, seqNumber a = n) (x :: l).
Proof.
  revert x. induction l as [|y l IH]; intros x; [done|]. cbn [bubble].
  destruct (seqNumber x >? seqNumber y) eqn:E; zprop.
  - rewrite filter_cons, IH, !filter_cons. repeat case_decide; (done || lia).
  - rewrite filter_cons, IH, (filter_cons _ x). done.
Qed.

Lemma bubble_sorted m x :
  StronglySorted le_seq m → Forall (le_seq x) m → bubble x m = x :: m ∧ swaps x m = false.
Proof.
  revert x. induction m as [|y m IH]; intros x Hm Hx; [done|].
  inversion_clear Hm as [|?? Hm' Hy]. inversion_clear Hx as [|?? Hxy Hx'].
  unfold le_seq in Hxy. cbn. zfalse (seqNumber x >? seqNumber y).
  destruct (IH y Hm' Hy) as [-> ->]. done.
Qed.

Lemma bubble_app m l x :
  StronglySorted le_seq m → (∀ a b, a ∈ x :: l → b ∈ m → le_seq a b) →
  bubble x (l ++ m) = bubble x l ++ m.
Proof.
  intros Hm. revert x. induction l as [|y l IH]; intros x Hle.
  - cbn [app bubble]. apply bubble_sorted; [done|]. apply Forall_forall. intros b Hb. by apply Hle; [left|].
  - cbn. destruct (_ >? _); cbn; f_equal; apply IH; intros a b Ha Hb; (apply Hle; [|done]); revert Ha; rewrite !elem_of_cons; tauto.
Qed.

Lemma bubble_last x l :
  ∃ l' z, bubble x l = l' ++ [z] ∧ length l' = length l ∧ ∀ a, a ∈ l' → le_seq a z.
Proof.
  revert x. induction l as [|y l IH]; intros x; [exists [], x; split_and!; [done..|set_solver]|].
  cbn [bubble]. destruct (seqNumber x >? seqNumber y) eqn:E; zprop.
  - destruct (IH x) as (l' & z & E' & Hl & Hle). exists (y :: l'), z. rewrite E'. split_and!; [done|cbn; lia|].
    intros a [->|Ha]%elem_of_cons; [|auto].
    assert (x ∈ l' ++ [z]) as [Hx|Hx]%elem_of_app by (rewrite <-E', bubble_perm; left).
    + specialize (Hle _ Hx). unfold le_seq in *. lia.
    + apply list_elem_of_singleton in Hx as ->. unfold le_seq. lia.
  - destruct (IH y) as (l' & z & E' & Hl & Hle). exists (x :: l'), z. rewrite E'. split_and!; [done|cbn; lia|].
    intros a [->|Ha]%elem_of_cons; [|auto].
    assert (y ∈ l' ++ [z]) as [Hy|Hy]%elem_of_app by (rewrite <-E', bubble_perm; left).
    + specialize (Hle _ Hy). unfold le_seq in *. lia.
    + apply list_elem_of_singleton in Hy as ->. unfold le_seq. lia.
Qed.

Lemma no_swaps x l : swaps x l = false → bubble x l = x :: l ∧ StronglySorted le_seq (x :: l).
Proof.
  revert x. induction l as [|y l IH]; intros x; [by repeat constructor|]. cbn.
  destruct (seqNumber x >? seqNumber y) eqn:E; [done|]. zprop. intros Hs.
  destruct (IH y Hs) as [-> Hy]. split; [done|]. constructor; [done|].
  inversion_clear Hy as [|?? _ Hf]. constructor; [unfold le_seq; lia|].
  eapply Forall_impl; [exact Hf|]. unfold le_seq. lia.
Qed.

Lemma sorted_app a m :
  (length a <= 1)%nat → StronglySorted le_seq m → (∀ x y, x ∈ a → y ∈ m → le_seq x y) →
  StronglySorted le_seq (a ++ m).
Proof.
  intros Ha Hm Hle. destruct a as [|x [|]]; [done| |cbn in Ha; lia]. constructor; [done|].
  apply Forall_forall. intros y Hy. apply Hle; [by left|done].
Qed.

(** The rounds of the outer loop, on a list whose last elements [m] are in their
    place already. *)
Lemma sort_outer_ok n : ∀ a m rest tmp k,
  (length a <= S n)%nat → length (a ++ m) = S k → StronglySorted le_seq m →
  (∀ x y, x ∈ a → y ∈ m → le_seq x y) →
  Forall valid_metadata (a ++ m) → valid_metadata tmp →
  ∃ r, sort_outer n k ((a ++ m) ++ rest) tmp = Some (r ++ rest) ∧ r ≡ₚ a ++ m ∧
    StronglySorted le_seq r ∧
    ∀ i, filter (λ x, seqNumber x = i) r = filter (λ x, seqNumber x = i) (a ++ m).
Proof.
  induction n as [|n IH]; intros a m rest tmp k Hn Hk Hm Hle Hv Ht.
  { exists (a ++ m). cbn. split_and!; [done..|by apply sorted_app|done]. }
  cbn [sort_outer]. destruct (a ++ m) as [|x l] eqn:E; [done|]. inversion_clear Hv as [|?? Hx Hl].
  injection Hk as <-. destruct (sort_inner_ok l [] x rest tmp false) as (tmp' & Ht' & E1); [done..|].
  change (zlen []) with 0 in E1. cbn [app] in E1 |- *. rewrite E1. cbn [mbind option_bind].
  destruct (swaps x l) eqn:Es; cbn [orb].
  2: { destruct (no_swaps x l Es) as [-> Hs]. exists (x :: l). by split_and!. }
  assert (Forall valid_metadata (bubble x l)) as Hb by (rewrite bubble_perm; by constructor).
  assert (∃ a' m', bubble x l = a' ++ m' ∧ (length a' <= S n)%nat ∧ StronglySorted le_seq m' ∧
            ∀ x y, x ∈ a' → y ∈ m' → le_seq x y) as (a' & m' & E' & Ha' & Hm' & Hle').
  { destruct a as [|x' a]; cbn in E.
    - subst m. exists [], (bubble x l). inversion_clear Hm as [|?? Hl' Hx'].
      destruct (bubble_sorted l x Hl' Hx') as [_ ?]. congruence.
    - injection E as -> <-. rewrite bubble_app by done.
      destruct (bubble_last x a) as (l' & z & Eb & Hlen & Hz). rewrite Eb.
      exists l', (z :: m). rewrite <-app_assoc. split; [done|]. split; [cbn in Hn; lia|].
      assert (∀ c, c ∈ l' ++ [z] → c ∈ x :: a) as Hin by (intros c; by rewrite <-Eb, bubble_perm).
      split.
      + constructor; [done|]. apply Forall_forall. intros y Hy. apply Hle; [|done]. apply Hin. set_solver.
      + intros c d Hc [->|Hd]%elem_of_cons; [by apply Hz|]. apply Hle; [|done]. apply Hin. set_solver. }
  rewrite E' in *. destruct (IH a' m' rest tmp' (length l)) as (r & Er & Hr & Hs & Hst); [done| |done..|].
  { rewrite <-E'. by rewrite (Permutation_length (bubble_perm x l)). }
  exists r. split_and!; [done|by rewrite Hr, <-E', bubble_perm|done|].
  intros i. by rewrite Hst, <-E', bubble_stable.
Qed.

(** The sort, on the elements of the list. *)
Lemma sort_ok (l rest : list metadata) tmp :
  Forall valid_metadata l → valid_metadata tmp →
  ∃ r, _sortNotificationList tmp (NotificationList (zlen l) (l ++ rest))
       = Some (true, NotificationList (zlen l) (r ++ rest)) ∧
    r ≡ₚ l ∧ StronglySorted le_seq r ∧
    ∀ n, filter (λ x, seqNumber x = n) r = filter (λ x, seqNumber x = n) l.
Proof.
  intros Hl Ht. unfold _sortNotificationList. cbn [countNotification notificationMetadataList].
  destruct l as [|x [|y l]].
  - exists []. split_and!; [done..|constructor|done].
  - exists [x]. split_and!; [done..|by repeat constructor|done].
  - rewrite !zlen_cons. zlen_pos. ztrue (1 + (1 + zlen l) >? 1).
    replace (Z.to_nat (1 + (1 + zlen l) - 1)) with (S (length l)) by (unfold zlen; lia).
    destruct (sort_outer_ok (S (length l)) (x :: y :: l) [] rest tmp (S (length l)))
      as (r & E & Hr); rewrite ?app_nil_r in *; [done|done|constructor|set_solver|done|done|].
    exists r. rewrite E. by split.
Qed.

(** C38: The sort of the pending notifications (functional): on a list of any
    number of notifications the sort returns true and leaves a stable sort of
    them: the same notifications, in ascending order of their sequence numbers,
    those of equal number in the order they had; the rest of the array and the
    number of elements are untouched. The N-1 rounds of N-1 comparisons are
    enough. *)
Theorem sort_correct (l rest : list metadata) tmp :
  Forall valid_metadata l → valid_metadata tmp →
  ∃ r, _sortNotificationList tmp (NotificationList (zlen l) (l ++ rest))
       = Some (true, NotificationList (zlen l) (r ++ rest)) ∧
    r ≡ₚ l ∧ StronglySorted le_seq r ∧
    ∀ n, filter (λ x, seqNumber x = n) r = filter (λ x, seqNumber x = n) l.
Proof. apply sort_ok. Qed.

Definition sample_metadata (n op : Z) : metadata := Metadata n op (fill 0 128) 0.

Lemma sort_correct_witness :
  ∃ r, _sortNotificationList (sample_metadata 0 0)
         (NotificationList 3 ([sample_metadata 7 1; sample_metadata 5 2; sample_metadata 5 3]
                              ++ [sample_metadata 1 1]))
       = Some (true, NotificationList 3 (r ++ [sample_metadata 1 1])) ∧
    r ≡ₚ [sample_metadata 7 1; sample_metadata 5 2; sample_metadata 5 3] ∧ StronglySorted le_seq r ∧
    ∀ n, filter (λ x, seqNumber x = n) r
         = filter (λ x, seqNumber x = n) [sample_metadata 7 1; sample_metadata 5 2; sample_metadata 5 3].
Proof.
  apply (sort_correct [sample_metadata 7 1; sample_metadata 5 2; sample_metadata 5 3]
    [sample_metadata 1 1] (sample_metadata 0 0)); [by repeat constructor|done].
Defined.
