(* ===== verification/Ppr.v ===== *)
(** * Profile policy rules: data, installed profiles, operators

    The parts of the profile policy check of [lpa_manager.c] that do not parse
    objects: the flags of a policy, the check of an incoming profile against
    the installed ones, and the comparison of the operator of a rule with the
    operator of the profile. *)

From stdpp Require Import sets.
From S2P Require Import Prelude StateMonad ApiError ProfileInfo.

(** ** Data *)

Definition LPA_PPRDEF_PPR2 : Z := 0x0520.
Definition LPA_PPRDEF_PPR1_PPR2 : Z := 0x0560.
Definition LPA_PPRDEF_PPRUC_PPR2 : Z := 0x05A0.
Definition LPA_PPRDEF_PPRUC_PPR1_PPR2 : Z := 0x05E0.
Definition LPA_PPRDEF_PPR1 : Z := 0x0640.
Definition LPA_PPRDEF_PPRUC_PPR1 : Z := 0x06C0.

Definition LPA_USR_CONSENT_DISABLED : Z := 0x00.
Definition LPA_USR_CONSENT_PPR1 : Z := 0x01.
Definition LPA_USR_CONSENT_PPR2 : Z := 0x02.
Definition LPA_USR_CONSENT_PROFILE_WITH_PPR1_ENABLED_PRESENT : Z := 0x04.
Definition LPA_CANCEL_SESSION_PPR_NOT_ALLOWED : Z := 3.
Definition LPA_GID_MAX_SIZE : Z := 10.

(** What the policy check knows of the profile that is downloaded, and what it
    decides. *)
Record LPA_DOWNLOADED_PROFILE_DATA_FOR_PPR := ProfileData {
  profilePPR : Z;
  hasPPR1 : bool;
  hasPPR2 : bool;
  mccMnc : list Z;
  gid1 : list Z;
  gid1Size : Z;
  gid1Defined : bool;
  gid2 : list Z;
  gid2Size : Z;
  gid2Defined : bool;
  profileName : list Z;
  userCallBackType : Z;
  performCancelSession : bool;
  cancelSessionReason : Z
}.
Abbreviation profile_data := LPA_DOWNLOADED_PROFILE_DATA_FOR_PPR.

(** The decisions of the check: the consent to ask for, whether to cancel, and
    why. *)
Definition decide_profile (d : profile_data) (consent : Z) (cancel : bool) (reason : Z) : profile_data :=
  ProfileData (profilePPR d) (hasPPR1 d) (hasPPR2 d) (mccMnc d) (gid1 d) (gid1Size d) (gid1Defined d)
    (gid2 d) (gid2Size d) (gid2Defined d) (profileName d) consent cancel reason.
Definition set_userCallBackType (d : profile_data) (u : Z) : profile_data :=
  decide_profile d u (performCancelSession d) (cancelSessionReason d).
Definition set_performCancelSession (d : profile_data) (b : bool) : profile_data :=
  decide_profile d (userCallBackType d) b (cancelSessionReason d).
Definition set_cancelSessionReason (d : profile_data) (r : Z) : profile_data :=
  decide_profile d (userCallBackType d) (performCancelSession d) r.

(** [profileInfoList] is the array the byte buffer of the code is used as. *)
Record LPA_GET_PROFILES_INFO := ProfilesInfo {
  countProfileInfo : Z;
  numberProfileInfoFound : Z;
  maxNumberProfileInfo : Z;
  profileInfoList : list LPA_PROFILE_INFO_FOR_PPR
}.

(** ** Code *)

Definition _isPPR1definedInPPRflag (pprFlag : Z) : bool :=
  (pprFlag =? LPA_PPRDEF_PPR1_PPR2) || (pprFlag =? LPA_PPRDEF_PPRUC_PPR1_PPR2)
  || (pprFlag =? LPA_PPRDEF_PPR1) || (pprFlag =? LPA_PPRDEF_PPRUC_PPR1).

Definition _isPPR2definedInPPRflag (pprFlag : Z) : bool :=
  (pprFlag =? LPA_PPRDEF_PPR2) || (pprFlag =? LPA_PPRDEF_PPR1_PPR2)
  || (pprFlag =? LPA_PPRDEF_PPRUC_PPR2) || (pprFlag =? LPA_PPRDEF_PPRUC_PPR1_PPR2).

(** [(b[0] << 8) + b[1]] *)
Definition flag16 (b : list Z) : option Z := b0 ← b.[0]; b1 ← b.[1]; Some (Z.shiftl b0 8 + b1).

(** Case 1 of the loop over the installed profiles. *)
Definition is_operational (info : LPA_PROFILE_INFO_FOR_PPR) : option bool :=
  if profileClassSize info >? 0 then c ← (profileClass info).[0]; Some (c =? 0x02) else Some false.

(** Case 2: the profile has PPR1 and is enabled. *)
Definition is_enabled_PPR1 (info : LPA_PROFILE_INFO_FOR_PPR) : option bool :=
  if profilePolicyRulesSize info >? 0 then
    flag ← flag16 (profilePolicyRules info);
    if _isPPR1definedInPPRflag flag then
      if profileStateSize info >? 0 then s ← (profileState info).[0]; Some (s =? 0x01)
      else Some false
    else Some false
  else Some false.

(** The loop, with [n] profiles to go. *)
Fixpoint installed_loop (n : nat) (indexProfile : Z) (l : list LPA_PROFILE_INFO_FOR_PPR)
    (checkForEnabledPPR1 : bool) (d : profile_data) : option profile_data :=
  match n with
  | O => Some d
  | S n =>
      info ← l.[indexProfile];
      operational ← (if hasPPR1 d then is_operational info else Some false);
      if operational : bool then
        Some (decide_profile d LPA_USR_CONSENT_DISABLED true LPA_CANCEL_SESSION_PPR_NOT_ALLOWED)
      else
        enabled ← (if checkForEnabledPPR1 then is_enabled_PPR1 info else Some false);
        if enabled : bool then
          installed_loop n (indexProfile + 1) l false
            (set_userCallBackType d LPA_USR_CONSENT_PROFILE_WITH_PPR1_ENABLED_PRESENT)
        else installed_loop n (indexProfile + 1) l checkForEnabledPPR1 d
  end.

Definition _checkIncomingProfilePPRconditionVersusInstalledProfiles
    (ptrIncomingProfileData : option profile_data)
    (ptrCurrentlyInstalledProfiles : option LPA_GET_PROFILES_INFO)
    : API (bool * option profile_data) :=
  match ptrIncomingProfileData, ptrCurrentlyInstalledProfiles with
  | Some d, Some installed =>
      let d := set_performCancelSession (set_userCallBackType d LPA_USR_CONSENT_DISABLED) false in
      if countProfileInfo installed >? 0 then
        d ← opt (installed_loop (Z.to_nat (countProfileInfo installed)) 0 (profileInfoList installed) true d);
        mret (true, Some d)
      else mret (true, Some d)
  | _, _ => lpaSetErrorCode LPA_ERROR_INVALID_PARAMETER;; mret (false, ptrIncomingProfileData)
  end.

(** The loop over the digits of the operators, the last digit first:
    [res], [*ptrMatchingFlag] and [*ptrMatchinglevel]. *)
Fixpoint mcc_mnc_loop (n : nat) (allowedOperatorMCCMNC32 profileMCCMNC32 : Z) (level : Z)
  : bool * (bool * Z) :=
  match n with
  | O => (true, (true, level))
  | S n =>
      let checkDigitAllOp := Z.land allowedOperatorMCCMNC32 0x0000000F in
      let checkDigitProf := Z.land profileMCCMNC32 0x0000000F in
      if negb ((checkDigitAllOp <=? 0x09) || (checkDigitAllOp =? 0x0E) || (checkDigitAllOp =? 0x0F))
         || negb ((checkDigitProf <=? 0x09) || (checkDigitProf =? 0x0F))
      then (false, (true, level))
      else if checkDigitAllOp =? 0x0E then
        mcc_mnc_loop n (Z.shiftr allowedOperatorMCCMNC32 4) (Z.shiftr profileMCCMNC32 4) (level - 1)
      else if negb (checkDigitAllOp =? checkDigitProf) then (true, (false, level))
      else mcc_mnc_loop n (Z.shiftr allowedOperatorMCCMNC32 4) (Z.shiftr profileMCCMNC32 4) level
  end.

(** [(b[0] << 16) + (b[1] << 8) + b[2]] *)
Definition mcc_mnc_32 (b : list Z) : option Z :=
  b0 ← b.[0]; b1 ← b.[1]; b2 ← b.[2]; Some (Z.shiftl b0 16 + Z.shiftl b1 8 + b2).

(** The result, and what the flag and the level pointed to hold afterwards. *)
Definition _comparePPARallowedOperator_MCC_MNC (ptrAllowOpMCCMNC ptrIncomingProfileMCCMNC : option (list Z))
    (out : bool * Z) : API (bool * (bool * Z)) :=
  match ptrAllowOpMCCMNC, ptrIncomingProfileMCCMNC with
  | Some op, Some prof =>
      allowedOperatorMCCMNC32 ← opt (mcc_mnc_32 op);
      profileMCCMNC32 ← opt (mcc_mnc_32 prof);
      mret (mcc_mnc_loop 6 allowedOperatorMCCMNC32 profileMCCMNC32 6)
  | _, _ => lpaSetErrorCode LPA_ERROR_INVALID_PARAMETER;; mret (false, out)
  end.

(** ** Installed profiles *)

(** The arrays of an installed profile as the structure declares them. *)
Definition valid_info (i : LPA_PROFILE_INFO_FOR_PPR) : Prop :=
  1 <= zlen (profileClass i) ∧ 1 <= zlen (profileState i) ∧
  zlen (profilePolicyRules i) = 2 ∧ Forall is_byte (profilePolicyRules i).

(** The policies of SGP.22 that contain PPR1 and PPR2: bit strings whose second
    and third bit stand for them, whatever the first bit. *)
Definition ppr_values : list (list Z) :=
  [[6; 0x40]; [6; 0xC0]; [5; 0x20]; [5; 0xA0]; [5; 0x60]; [5; 0xE0]].
Definition ppr_bit (k : Z) (rules : list Z) : bool :=
  bool_decide (rules ∈ ppr_values) && Z.testbit (List.nth 1 rules 0) k.
Definition has_ppr1 : list Z → bool := ppr_bit 6.
Definition has_ppr2 : list Z → bool := ppr_bit 5.

Definition operational (i : LPA_PROFILE_INFO_FOR_PPR) : bool :=
  (0 <? profileClassSize i) && bool_decide (head (profileClass i) = Some 2).

(** An enabled profile whose policy rules contain PPR1. *)
Definition enabled_PPR1 (i : LPA_PROFILE_INFO_FOR_PPR) : bool :=
  (0 <? profilePolicyRulesSize i) && has_ppr1 (profilePolicyRules i)
  && (0 <? profileStateSize i) && bool_decide (head (profileState i) = Some 1).

Lemma is_operational_ok i : valid_info i → is_operational i = Some (operational i).
Proof.
  intros (Hc & _). unfold is_operational, operational. rewrite Z.gtb_ltb.
  destruct (0 <? profileClassSize i); [|done].
  destruct (profileClass i) as [|c cs]; [done|]. rewrite rd_cons_0. cbn. f_equal.
  case_bool_decide as E; [by injection E as ->|]. apply Z.eqb_neq. congruence.
Qed.

Lemma flag16_bytes b0 b1 : is_byte b0 → is_byte b1 → flag16 [b0; b1] = Some (b0 * 256 + b1).
Proof. intros. unfold flag16. rewrite rd_cons_0, rd_cell1. cbn [mbind option_bind]. f_equal.
  rewrite Z.shiftl_mul_pow2; lia. Qed.

(** The values of a flag of two bytes. *)
Lemma flag_pair b0 b1 c0 c1 : is_byte b0 → is_byte b1 → is_byte c0 → is_byte c1 →
  (b0 * 256 + b1 =? c0 * 256 + c1) = bool_decide ([b0; b1] = [c0; c1]).
Proof.
  unfold is_byte. intros. case_bool_decide as E; [injection E as -> ->; apply Z.eqb_refl|].
  apply Z.eqb_neq. intros E'. apply E. f_equal; [lia|f_equal; lia].
Qed.

Lemma isPPR_bytes b0 b1 : is_byte b0 → is_byte b1 →
  _isPPR1definedInPPRflag (b0 * 256 + b1) = has_ppr1 [b0; b1] ∧
  _isPPR2definedInPPRflag (b0 * 256 + b1) = has_ppr2 [b0; b1].
Proof.
  intros H0 H1. unfold _isPPR1definedInPPRflag, _isPPR2definedInPPRflag, has_ppr1, has_ppr2, ppr_bit.
  change LPA_PPRDEF_PPR1_PPR2 with (5 * 256 + 0x60). change LPA_PPRDEF_PPR1 with (6 * 256 + 0x40).
  change LPA_PPRDEF_PPRUC_PPR1_PPR2 with (5 * 256 + 0xE0).
  change LPA_PPRDEF_PPRUC_PPR1 with (6 * 256 + 0xC0). change LPA_PPRDEF_PPR2 with (5 * 256 + 0x20).
  change LPA_PPRDEF_PPRUC_PPR2 with (5 * 256 + 0xA0).
  rewrite !flag_pair by (unfold is_byte in *; lia). cbn [List.nth].
  destruct (decide ([b0; b1] ∈ ppr_values)) as [E|E].
  - unfold ppr_values in E. rewrite !elem_of_cons in E. destruct E as [E|[E|[E|[E|[E|[E|E%elem_of_nil]]]]]]; [..|done];
      injection E as -> ->; by split; vm_compute.
  - unfold ppr_values in *. rewrite !bool_decide_false; [done|set_solver..].
Qed.

Lemma is_enabled_ok i : valid_info i → is_enabled_PPR1 i = Some (enabled_PPR1 i).
Proof.
  intros (_ & Hs & Hr & Hb). unfold is_enabled_PPR1, enabled_PPR1. rewrite !Z.gtb_ltb.
  destruct (0 <? profilePolicyRulesSize i); [|done].
  destruct (profilePolicyRules i) as [|b0 [|b1 [|]]]; try done; [|rewrite !zlen_cons in Hr; zlen_pos; lia].
  inversion_clear Hb as [|?? H0 Hb']. inversion_clear Hb' as [|?? H1 _].
  rewrite flag16_bytes by done. cbn [mbind option_bind]. rewrite (proj1 (isPPR_bytes b0 b1 H0 H1)).
  destruct (has_ppr1 _); [|done]. destruct (0 <? profileStateSize i); [|done].
  destruct (profileState i) as [|c cs]; [done|]. rewrite rd_cons_0. cbn. f_equal.
  case_bool_decide as E; [by injection E as ->|]. apply Z.eqb_neq. congruence.
Qed.

(** The decisions after the loop over the profiles [infos]. *)
Definition installed_verdict (chk : bool) (infos : list LPA_PROFILE_INFO_FOR_PPR) (d : profile_data)
  : profile_data :=
  if hasPPR1 d && existsb operational infos
  then decide_profile d LPA_USR_CONSENT_DISABLED true LPA_CANCEL_SESSION_PPR_NOT_ALLOWED
  else if chk && existsb enabled_PPR1 infos
  then set_userCallBackType d LPA_USR_CONSENT_PROFILE_WITH_PPR1_ENABLED_PRESENT
  else d.

Lemma installed_loop_ok infos : ∀ pre rest chk d,
  Forall valid_info infos →
  installed_loop (length infos) (zlen pre) (pre ++ infos ++ rest) chk d =
    Some (installed_verdict chk infos d).
Proof.
  induction infos as [|i infos IH]; intros pre rest chk d Hv.
  { unfold installed_verdict. cbn. by rewrite !andb_false_r. }
  inversion_clear Hv as [|?? Hi Hv']. cbn [length installed_loop].
  rewrite rd_app_r, Z.sub_diag by lia. cbn [app]. rewrite rd_cons_0. cbn [mbind option_bind].
  assert (∀ d' c, installed_loop (length infos) (zlen pre + 1) (pre ++ i :: infos ++ rest) c d' =
    Some (installed_verdict c infos d')) as IH'.
  { intros d' c. specialize (IH (pre ++ [i]) rest c d' Hv').
    by rewrite zlen_app, <- app_assoc in IH. }
  unfold installed_verdict in *. cbn [existsb].
  replace (if hasPPR1 d then is_operational i else Some false) with (Some (hasPPR1 d && operational i))
    by (rewrite is_operational_ok by done; by destruct (hasPPR1 d)).
  replace (if chk then is_enabled_PPR1 i else Some false) with (Some (chk && enabled_PPR1 i))
    by (rewrite is_enabled_ok by done; by destruct chk).
  cbn [mbind option_bind]. destruct (hasPPR1 d) eqn:Ed, (operational i); cbn [andb orb];
    [done| | |]; destruct chk; cbn [andb orb]; try destruct (enabled_PPR1 i); cbn [orb];
    rewrite IH'; cbn [hasPPR1 set_userCallBackType decide_profile andb]; rewrite ?Ed; cbn [andb];
    try done; by destruct (existsb operational infos).
Qed.

(** The decision of the check, as the download uses it. *)
Lemma installed_decides d found max infos rest e :
  Forall valid_info infos →
  _checkIncomingProfilePPRconditionVersusInstalledProfiles (Some d)
    (Some (ProfilesInfo (zlen infos) found max (infos ++ rest))) e =
  Some ((true, Some
    (if hasPPR1 d && existsb operational infos
     then decide_profile d LPA_USR_CONSENT_DISABLED true LPA_CANCEL_SESSION_PPR_NOT_ALLOWED
     else decide_profile d
            (if existsb enabled_PPR1 infos then LPA_USR_CONSENT_PROFILE_WITH_PPR1_ENABLED_PRESENT
             else LPA_USR_CONSENT_DISABLED)
            false (cancelSessionReason d))), e).
Proof.
  intros Hv. unfold _checkIncomingProfilePPRconditionVersusInstalledProfiles.
  cbn [countProfileInfo profileInfoList]. destruct (zlen infos >? 0) eqn:En.
  - rewrite zlen_to_nat. pose proof (installed_loop_ok infos [] rest true
      (set_performCancelSession (set_userCallBackType d LPA_USR_CONSENT_DISABLED) false) Hv) as E.
    cbn [app] in E. change (zlen []) with 0 in E.
    erewrite ST_bind_eq; [|unfold opt; rewrite E; reflexivity].
    unfold installed_verdict. cbn [hasPPR1 set_userCallBackType set_performCancelSession decide_profile andb].
    destruct (hasPPR1 d && _); [done|]. by destruct (existsb enabled_PPR1 infos).
  - destruct infos; [|rewrite zlen_cons in En; zlen_pos; lia]. cbn. by rewrite andb_false_r.
Qed.

(** C30: The check against the installed profiles (functional): the session is
    cancelled, for the reason that the policy does not allow it and with no
    consent asked, exactly when the incoming profile has PPR1 and one of the
    installed profiles is operational; otherwise the consent asked for is that
    of an enabled profile with PPR1 when there is one, and none when there is
    not. The check succeeds and reports no error. *)
Theorem installed_profiles_checked d found max infos rest e :
  Forall valid_info infos →
  _checkIncomingProfilePPRconditionVersusInstalledProfiles (Some d)
    (Some (ProfilesInfo (zlen infos) found max (infos ++ rest))) e =
  Some ((true, Some
    (if hasPPR1 d && existsb operational infos
     then decide_profile d LPA_USR_CONSENT_DISABLED true LPA_CANCEL_SESSION_PPR_NOT_ALLOWED
     else decide_profile d
            (if existsb enabled_PPR1 infos then LPA_USR_CONSENT_PROFILE_WITH_PPR1_ENABLED_PRESENT
             else LPA_USR_CONSENT_DISABLED)
            false (cancelSessionReason d))), e).
Proof. apply installed_decides. Qed.

Definition sample_info (state class : Z) (rules : list Z) : LPA_PROFILE_INFO_FOR_PPR :=
  ProfileInfo [] 0 [state] 1 [class] 1 rules 2.
Definition sample_profile (p1 p2 : bool) (mcc g1 : list Z) : profile_data :=
  ProfileData 0 p1 p2 mcc (g1 ++ fill 0 (10 - zlen g1)) (zlen g1) (bool_decide (g1 ≠ []))
    (fill 0 10) 0 false [] 7 true 0.

Lemma installed_profiles_checked_witness :
  Forall valid_info [sample_info 0 0 [0; 0]; sample_info 1 2 [5; 0xE0]] ∧
  ∃ d, _checkIncomingProfilePPRconditionVersusInstalledProfiles
    (Some (sample_profile false true [0; 0; 0] []))
    (Some (ProfilesInfo 2 2 2 ([sample_info 0 0 [0; 0]; sample_info 1 2 [5; 0xE0]] ++ []))) LPA_NO_ERROR =
    Some ((true, Some d), LPA_NO_ERROR) ∧
  userCallBackType d = LPA_USR_CONSENT_PROFILE_WITH_PPR1_ENABLED_PRESENT.
Proof.
  assert (Forall valid_info [sample_info 0 0 [0; 0]; sample_info 1 2 [5; 0xE0]]) as H.
  { repeat constructor; cbn; try (unfold is_byte; lia); done. }
  split; [exact H|]. eexists. split.
  - exact (installed_profiles_checked (sample_profile false true [0; 0; 0] []) 2 2 _ [] LPA_NO_ERROR H).
  - reflexivity.
Defined.

(** ** Operators *)

(** The six digits of a country and network code, the last one first. *)
Definition digits (b : list Z) : list Z := flat_map (λ x, [x mod 16; x / 16]) (rev b).

Definition wildcard : Z := 0xE.
Definition operator_digit (a : Z) : bool := (a <=? 9) || (a =? 0xE) || (a =? 0xF).
Definition profile_digit (p : Z) : bool := (p <=? 9) || (p =? 0xF).

(** The comparison of digits: an invalid digit, a difference before any invalid
    digit, or the number of digits that are not wildcards. *)
Fixpoint compare_digits (op prof : list Z) : option (option Z) :=
  match op, prof with
  | a :: op, p :: prof =>
      if operator_digit a && profile_digit p then
        if a =? wildcard then compare_digits op prof
        else if a =? p then fmap (M := option) (Z.add 1) <$> compare_digits op prof
        else Some None
      else None
  | _, _ => Some (Some 0)
  end.
Definition operator_match (op prof : list Z) : option (option Z) := compare_digits (digits op) (digits prof).

Definition digits_value (ds : list Z) : Z := foldr (λ d v, d + 16 * v) 0 ds.

Lemma digits_value_cons d ds : 0 <= d < 16 → 0 <= digits_value ds →
  Z.land (digits_value (d :: ds)) 15 = d ∧ Z.shiftr (digits_value (d :: ds)) 4 = digits_value ds.
Proof.
  intros Hd Hv. change (digits_value (d :: ds)) with (d + 16 * digits_value ds).
  change 15 with (Z.ones 4). rewrite Z.land_ones, Z.shiftr_div_pow2 by lia.
  change (2 ^ 4) with 16. split; dlia.
Qed.

Lemma digits_value_nonneg ds : Forall (λ d, 0 <= d < 16) ds → 0 <= digits_value ds.
Proof.
  unfold digits_value. induction 1 as [|d ds Hd _ IH]; cbn [foldr]; [done|lia].
Qed.

(** What the loop answers for a comparison. *)
Definition compared (r : bool * (bool * Z)) (level : Z) (c : option (option Z)) : Prop :=
  match c with
  | None => r.1 = false
  | Some None => r.1 = true ∧ r.2.1 = false
  | Some (Some m) => r = (true, (true, level + m))
  end.

Lemma mcc_mnc_loop_ok op : ∀ prof level,
  Forall (λ d, 0 <= d < 16) op → Forall (λ d, 0 <= d < 16) prof → length op = length prof →
  compared (mcc_mnc_loop (length op) (digits_value op) (digits_value prof) level)
    (level - zlen op) (compare_digits op prof).
Proof.
  induction op as [|a op IH]; intros [|p prof] level Ho Hp Hl; try done.
  { change (zlen []) with 0. cbn. do 3 f_equal. lia. }
  inversion_clear Ho as [|?? Ha Ho']. inversion_clear Hp as [|?? Hpd Hp'].
  pose proof (digits_value_nonneg _ Ho'). pose proof (digits_value_nonneg _ Hp').
  destruct (digits_value_cons a op) as [E1 E2]; [done..|].
  destruct (digits_value_cons p prof) as [E3 E4]; [done..|].
  cbn [length mcc_mnc_loop]. rewrite E1, E2, E3, E4. cbn [compare_digits].
  rewrite <- negb_andb. unfold operator_digit, profile_digit, wildcard.
  destruct (_ && _); cbn [negb]; [|done]. rewrite zlen_cons.
  assert (∀ l, compared (mcc_mnc_loop (length op) (digits_value op) (digits_value prof) l)
    (l - zlen op) (compare_digits op prof)) as IH' by (intros; apply IH; [done..|by injection Hl]).
  destruct (a =? 14).
  - specialize (IH' (level - 1)). by replace (level - 1 - zlen op) with (level - (1 + zlen op)) in IH' by lia.
  - destruct (a =? p); [|done]. specialize (IH' level).
    destruct (compare_digits op prof) as [[m|]|]; cbn in *; try done. rewrite IH'. do 2 f_equal. lia.
Qed.

Lemma mcc_mnc_32_digits b : Forall is_byte b → zlen b = 3 →
  mcc_mnc_32 b = Some (digits_value (digits b)) ∧ Forall (λ d, 0 <= d < 16) (digits b) ∧
  length (digits b) = 6%nat.
Proof.
  intros Hb Hl. destruct b as [|b0 [|b1 [|b2 [|]]]]; try done; [|rewrite !zlen_cons in Hl; zlen_pos; lia].
  inversion_clear Hb as [|?? H0 Hb']. inversion_clear Hb' as [|?? H1 Hb]. inversion_clear Hb as [|?? H2 _].
  unfold is_byte in *. unfold mcc_mnc_32. rewrite rd_cons_0, rd_cell1, rd_cell2. cbn [mbind option_bind].
  split; [|split; [|done]].
  - f_equal. rewrite !Z.shiftl_mul_pow2 by lia. cbn. dlia.
  - cbn. repeat constructor; dlia.
Qed.

Lemma compare_MCC_MNC_ok op prof out e :
  Forall is_byte op → Forall is_byte prof → zlen op = 3 → zlen prof = 3 →
  ∃ r, _comparePPARallowedOperator_MCC_MNC (Some op) (Some prof) out e = Some (r, e) ∧
    compared r 0 (operator_match op prof).
Proof.
  intros Ho Hp Hlo Hlp. destruct (mcc_mnc_32_digits op) as (Eo & Ho' & Ho6); [done..|].
  destruct (mcc_mnc_32_digits prof) as (Ep & Hp' & Hp6); [done..|].
  pose proof (mcc_mnc_loop_ok (digits op) (digits prof) 6 Ho' Hp') as H. rewrite Ho6, Hp6 in H.
  unfold zlen in H. rewrite Ho6 in H.
  eexists. split; [|apply H; done]. unfold _comparePPARallowedOperator_MCC_MNC.
  erewrite ST_bind_eq; [|unfold opt; rewrite Eo; reflexivity].
  erewrite ST_bind_eq; [|unfold opt; rewrite Ep; reflexivity]. done.
Qed.

(** Digits that agree: equal, or a wildcard in the rule. *)
Definition digit_agrees (a p : Z) : Prop :=
  operator_digit a = true ∧ profile_digit p = true ∧ (a = wildcard ∨ a = p).

Lemma compare_digits_match op : ∀ prof m, length op = length prof →
  compare_digits op prof = Some (Some m) ↔
  Forall2 digit_agrees op prof ∧ m = zlen (filter (λ a, a ≠ wildcard) op).
Proof.
  induction op as [|a op IH]; intros [|p prof] m Hl; try done.
  { split; [by intros [= <-]|by intros [_ ->]]. }
  cbn [compare_digits]. injection Hl as Hl. rewrite filter_cons, Forall2_cons. unfold digit_agrees at 1.
  destruct (operator_digit a); cbn [andb]; [|by split; [|intros [[[? _] _] _]]].
  destruct (profile_digit p); [|by split; [|intros [[(_ & ? & _) _] _]]].
  destruct (Z.eqb_spec a wildcard) as [->|Ha].
  - rewrite (decide_False (P := wildcard ≠ wildcard)) by (intros H; by apply H).
    rewrite (IH prof m Hl). tauto.
  - rewrite decide_True by done. destruct (Z.eqb_spec a p) as [->|Hap].
    + rewrite zlen_cons. split.
      * destruct (compare_digits op prof) as [[k|]|] eqn:E; try done. intros [= <-].
        apply IH in E as [E ->]; [|done]. tauto.
      * intros [[_ E] ->]. by rewrite (proj2 (IH prof _ Hl) (conj E eq_refl)).
    + split; [done|]. intros [[(_ & _ & [?|?]) _] _]; done.
Qed.

(** C31: The comparison of operators (functional): on codes of three bytes it
    answers a match with a level exactly when every digit of the rule is valid
    and is a wildcard or equal to the valid digit of the profile at its place,
    the level being the number of digits that are not wildcards; it reports no
    error. *)
Theorem operator_compared op prof out e m :
  Forall is_byte op → Forall is_byte prof → zlen op = 3 → zlen prof = 3 →
  _comparePPARallowedOperator_MCC_MNC (Some op) (Some prof) out e = Some ((true, (true, m)), e) ↔
  Forall2 digit_agrees (digits op) (digits prof) ∧ m = zlen (filter (λ a, a ≠ wildcard) (digits op)).
Proof.
  intros Ho Hp Hlo Hlp. destruct (compare_MCC_MNC_ok op prof out e Ho Hp Hlo Hlp) as (r & E & H).
  destruct (mcc_mnc_32_digits op Ho Hlo) as (_ & _ & L1).
  destruct (mcc_mnc_32_digits prof Hp Hlp) as (_ & _ & L2).
  rewrite <- compare_digits_match by congruence. rewrite E. unfold operator_match, compared in H.
  destruct (compare_digits (digits op) (digits prof)) as [[k|]|].
  - rewrite H. split; [by intros [= <-]|by intros [= <-]].
  - split; [|done]. intros [= ->]. by destruct H.
  - split; [|done]. intros [= ->]. done.
Qed.

Lemma operator_compared_witness :
  Forall is_byte [0x02; 0xFE; 0x80] ∧ Forall is_byte [0x02; 0xF8; 0x80] ∧
  _comparePPARallowedOperator_MCC_MNC (Some [0x02; 0xFE; 0x80]) (Some [0x02; 0xF8; 0x80]) (false, 0) LPA_NO_ERROR
  = Some ((true, (true, 5)), LPA_NO_ERROR).
Proof.
  assert (Forall is_byte [0x02; 0xFE; 0x80] ∧ Forall is_byte [0x02; 0xF8; 0x80]) as [H1 H2].
  { split; repeat constructor; unfold is_byte; lia. }
  split; [exact H1|split; [exact H2|]].
  apply (operator_compared _ _ (false, 0) LPA_NO_ERROR 5 H1 H2 eq_refl eq_refl).
  apply (compare_digits_match (digits [0x02; 0xFE; 0x80]) (digits [0x02; 0xF8; 0x80]) 5 eq_refl). reflexivity.
Defined.
