(* ===== verification/Rat.v ===== *)
(** * The rules access table of the eUICC

    The check of an incoming profile against the rules access table in
    [lpa_manager.c]: [_checkIncomingProfilePPRattributesVersusRAT],
    [_analysePPARversusProfileAttribute] and
    [_analysePPARallowedOperatorVersusProfile]. The table is a list of rules;
    a rule names policies, a list of operators, and whether the user has to
    consent. The profile may be downloaded when each of its policies is allowed
    to its operator by some rule. *)

From stdpp Require Import gmap.
From iris.bi Require Import bi.
From iris.proofmode Require Import proofmode.
From S2P Require Import Prelude CLib StateMonad ApiError ProfileInfo Heap Wp RawData BerTlv TlvWalk Ppr.

Definition EUICC_RAT_TAG : Z := 0xBF43.

(** ** Code *)

(** The best rule found for a policy. *)
Record LPA_PPR_RAT_ANALYSIS_FLAGS := Flags {
  pprValidated : bool;
  matchLevelMCC_MNC : Z;
  matchedGID1 : bool;
  matchedGID2 : bool;
  matchLevelGID : Z;
  userConsentRequired : bool
}.
Abbreviation flags := LPA_PPR_RAT_ANALYSIS_FLAGS.

Abbreviation M := (M LPA_API_ERROR).

Definition report (e : LPA_API_ERROR) : M unit := lift (lpaSetErrorCode e).

(** A group identifier of a rule compared with that of the profile:
    [definedGIDinPPAR] and [compareGIDmatch]. *)
Definition compare_gid (berTLVgid : ptr) (gid : list Z) (gidSize : Z) : M (bool * bool) :=
  if isNull berTLVgid then ret (false, false) else
  let* '(_, length, value) := tlv_data berTLVgid in
  if length >? 0 then
    if length =? gidSize then
      let* v := of_option value in
      let* a := of_option (rd_range v 0 length) in
      let* b := of_option (rd_range gid 0 length) in
      ret (true, bool_decide (a = b))
    else ret (true, false)
  else ret (true, false).

(** The part of a group identifier in the final comparison: [profileMatchRule],
    [compareGIDmatch] and [ruleGIDlevel]. *)
Definition gid_level (berTLVgid : ptr) (definedGIDinPPAR compareGIDmatch gidDefined : bool)
    (ruleGIDlevel : Z) : M (bool * bool * Z) :=
  if definedGIDinPPAR then
    let* '(_, length, _) := load_BeerTLV berTLVgid in
    if length >? 0 then
      if compareGIDmatch then ret (true, compareGIDmatch, ruleGIDlevel + 1)
      else ret (false, compareGIDmatch, ruleGIDlevel)
    else ret (true, compareGIDmatch, ruleGIDlevel)
  else if gidDefined then ret (false, compareGIDmatch, ruleGIDlevel)
  else ret (true, true, ruleGIDlevel + 1).

(** The variables of the loop over the operators of a rule. *)
Record operator_vars := OperatorVars {
  berTLVmccMnc : ptr;
  berTLVgid1 : ptr;
  berTLVgid2 : ptr;
  ptrCheckPPR : flags;
  operator_res : bool
}.

(** An operator whose country and network code matches, with a level. *)
Definition match_gids (d : LPA_DOWNLOADED_PROFILE_DATA_FOR_PPR) (consentRequiredFlag : bool)
    (current : ptr) (compareMCCMNClevel : Z) (x : operator_vars) : M operator_vars :=
  let* gid1TLV := extractTag_of 0x81 current in
  let* '(definedGID1inPPAR, compareGID1match) := compare_gid gid1TLV (gid1 d) (gid1Size d) in
  let* gid2TLV := extractTag_of 0x82 current in
  let* '(definedGID2inPPAR, compareGID2match) := compare_gid gid2TLV (gid2 d) (gid2Size d) in
  let* '(profileMatchRule, compareGID1match, compareGID2match, ruleGIDlevel) :=
    (if matchLevelMCC_MNC (ptrCheckPPR x) <=? compareMCCMNClevel then
       let* '(profileMatchRule, compareGID1match, ruleGIDlevel) :=
         gid_level gid1TLV definedGID1inPPAR compareGID1match (gid1Defined d) 0 in
       if profileMatchRule : bool then
         let* '(profileMatchRule, compareGID2match, ruleGIDlevel) :=
           gid_level gid2TLV definedGID2inPPAR compareGID2match (gid2Defined d) ruleGIDlevel in
         ret (profileMatchRule, compareGID1match, compareGID2match, ruleGIDlevel)
       else ret (false, compareGID1match, compareGID2match, ruleGIDlevel)
     else ret (false, compareGID1match, compareGID2match, 0)) in
  ret (OperatorVars (berTLVmccMnc x) gid1TLV gid2TLV
    (if profileMatchRule && (ruleGIDlevel >=? matchLevelGID (ptrCheckPPR x))
     then Flags true compareMCCMNClevel compareGID1match compareGID2match ruleGIDlevel consentRequiredFlag
     else ptrCheckPPR x) (operator_res x)).

Definition invalid_operator (x : operator_vars) : M (bool * operator_vars) :=
  report LPA_ERROR_INVALID_GET_RAT ;;
  ret (false, OperatorVars (berTLVmccMnc x) (berTLVgid1 x) (berTLVgid2 x) (ptrCheckPPR x) false).

(** The body of the loop, on an element of the list. *)
Definition operator_body (d : LPA_DOWNLOADED_PROFILE_DATA_FOR_PPR) (consentRequiredFlag : bool)
    (current : ptr) (x : operator_vars) : M (bool * operator_vars) :=
  let* '(tag, _, _) := load_BeerTLV current in
  if tag =? 0x30 then
    let* mccMncTLV := extractTag_of 0x80 current in
    let x := OperatorVars mccMncTLV (berTLVgid1 x) (berTLVgid2 x) (ptrCheckPPR x) (operator_res x) in
    let* isThree := (if isNull mccMncTLV then ret false
                     else let* '(_, length, _) := load_BeerTLV mccMncTLV in ret (length =? 3)) in
    if isThree : bool then
      let* '(_, _, value) := tlv_data mccMncTLV in
      let* '(res, (compareMCCMNCmatch, compareMCCMNClevel)) :=
        lift (_comparePPARallowedOperator_MCC_MNC value (Some (mccMnc d)) (false, 0)) in
      if res : bool then
        if compareMCCMNCmatch : bool then
          let* x := match_gids d consentRequiredFlag current compareMCCMNClevel x in ret (true, x)
        else ret (true, x)
      else invalid_operator x
    else invalid_operator x
  else invalid_operator x.

(** The result and the flags pointed to; the pointers are valid. *)
Definition _analysePPARallowedOperatorVersusProfile (d : LPA_DOWNLOADED_PROFILE_DATA_FOR_PPR)
    (checkPPR : flags) (berAllowedOperators : ptr) (consentRequiredFlag : bool) : M (bool * flags) :=
  let* '(berTLVlistOperatorsBase, tlvListOperatorsCount) := extractList_of berAllowedOperators in
  let* r :=
    (if negb (isNull berTLVlistOperatorsBase) && (tlvListOperatorsCount >? 0) then
       let* x := walk (operator_body d consentRequiredFlag) berTLVlistOperatorsBase
                   (OperatorVars None None None checkPPR true) in
       ERASE_BERTLV (berTLVmccMnc x) ;;
       ERASE_BERTLV (berTLVgid1 x) ;;
       ERASE_BERTLV (berTLVgid2 x) ;;
       ret (operator_res x, ptrCheckPPR x)
     else report LPA_ERROR_INVALID_GET_RAT ;; ret (false, checkPPR)) in
  ERASE_BERTLV_LIST berTLVlistOperatorsBase ;;
  ret r.

(** The consent flag of a rule: [None] when it is badly encoded. *)
Definition consent_flag (length : Z) (value : option (list Z)) : option (option bool) :=
  v ← value;
  if length =? 0x02 then flag ← flag16 v; Some (if flag =? 0x0780 then Some true else None)
  else b ← v.[0]; Some (if b =? 0 then Some false else None).

(** A rule whose three objects are present and of their lengths. *)
Definition analyse_rule (d : LPA_DOWNLOADED_PROFILE_DATA_FOR_PPR) (checkPPR1 checkPPR2 : flags)
    (berPprIds berAllowedOperators berConsentRequired : ptr) : M (bool * flags * flags) :=
  let* '(_, _, ids) := tlv_data berPprIds in
  let* pprIds := of_option (ids ≫= flag16) in
  let* '(_, length, value) := tlv_data berConsentRequired in
  let* consent := of_option (consent_flag length value) in
  match consent with
  | Some consentRequiredFlag =>
      let* '(res, checkPPR1) :=
        (if _isPPR1definedInPPRflag pprIds && hasPPR1 d then
           _analysePPARallowedOperatorVersusProfile d checkPPR1 berAllowedOperators consentRequiredFlag
         else ret (true, checkPPR1)) in
      let* '(res, checkPPR2) :=
        (if res && _isPPR2definedInPPRflag pprIds && hasPPR2 d then
           _analysePPARallowedOperatorVersusProfile d checkPPR2 berAllowedOperators consentRequiredFlag
         else ret (res, checkPPR2)) in
      ret (res, checkPPR1, checkPPR2)
  | None => report LPA_ERROR_INVALID_GET_RAT ;; ret (false, checkPPR1, checkPPR2)
  end.

Definition _analysePPARversusProfileAttribute (ptrPPARrule : ptr)
    (d : LPA_DOWNLOADED_PROFILE_DATA_FOR_PPR) (checkPPR1 checkPPR2 : flags) : M (bool * flags * flags) :=
  let* berPprIds := extractTag_of 0x80 ptrPPARrule in
  let* berAllowedOperators := extractTag_of 0xA1 ptrPPARrule in
  let* berConsentRequired := extractTag_of 0x82 ptrPPARrule in
  let* r :=
    (if negb (isNull berPprIds) && negb (isNull berAllowedOperators) && negb (isNull berConsentRequired) then
       let* '(_, idsLength, _) := load_BeerTLV berPprIds in
       let* '(_, operatorsLength, _) := load_BeerTLV berAllowedOperators in
       let* '(_, consentLength, _) := load_BeerTLV berConsentRequired in
       if (idsLength =? 2) && (operatorsLength >=? 7) && ((consentLength =? 0x02) || (consentLength =? 0x01)) then
         analyse_rule d checkPPR1 checkPPR2 berPprIds berAllowedOperators berConsentRequired
       else report LPA_ERROR_INVALID_GET_RAT ;; ret (false, checkPPR1, checkPPR2)
     else report LPA_ERROR_INVALID_GET_RAT ;; ret (false, checkPPR1, checkPPR2)) in
  ERASE_BERTLV berPprIds ;;
  ERASE_BERTLV berAllowedOperators ;;
  ERASE_BERTLV berConsentRequired ;;
  ret r.

(** The variables of the loop over the rules. *)
Record rule_vars := RuleVars {
  incoming : LPA_DOWNLOADED_PROFILE_DATA_FOR_PPR;
  checkPPR1 : flags;
  checkPPR2 : flags;
  rule_res : bool
}.

Definition rule_body (current : ptr) (x : rule_vars) : M (bool * rule_vars) :=
  let* '(tag, _, _) := load_BeerTLV current in
  if tag =? 0x30 then
    let* '(res, c1, c2) :=
      _analysePPARversusProfileAttribute current (incoming x) (checkPPR1 x) (checkPPR2 x) in
    ret (res, RuleVars (incoming x) c1 c2 res)
  else
    report LPA_ERROR_INVALID_GET_RAT ;;
    ret (false, RuleVars (set_performCancelSession (incoming x) true) (checkPPR1 x) (checkPPR2 x) (rule_res x)).

(** The final validation of one policy. *)
Definition final_validation (has : bool) (check : flags) (consentBit : Z)
    (d : LPA_DOWNLOADED_PROFILE_DATA_FOR_PPR) : LPA_DOWNLOADED_PROFILE_DATA_FOR_PPR :=
  if has then
    if pprValidated check then
      if userConsentRequired check
      then set_userCallBackType d (Z.lor (userCallBackType d) consentBit) else d
    else set_performCancelSession d true
  else d.

Definition no_flags : flags := Flags false 0 false false 0 false.

(** The rules of the table, in the object of tag A0. *)
Definition check_rules (d : LPA_DOWNLOADED_PROFILE_DATA_FOR_PPR) (berRATmainSequenceA0 : ptr)
    : M (bool * LPA_DOWNLOADED_PROFILE_DATA_FOR_PPR) :=
  let* '(_, length, _) := load_BeerTLV berRATmainSequenceA0 in
  if length >? 0 then
    let* '(berTLVlistA0base, tlvListA0BaseCount) := extractList_of berRATmainSequenceA0 in
    let* r :=
      (if negb (isNull berTLVlistA0base) && (tlvListA0BaseCount >? 0) then
         let* x := walk rule_body berTLVlistA0base (RuleVars d no_flags no_flags true) in
         ret (rule_res x,
           final_validation (hasPPR2 d) (checkPPR2 x) LPA_USR_CONSENT_PPR2
             (final_validation (hasPPR1 d) (checkPPR1 x) LPA_USR_CONSENT_PPR1 (incoming x)))
       else report LPA_ERROR_INVALID_GET_RAT ;; ret (false, d)) in
    ERASE_BERTLV_LIST berTLVlistA0base ;;
    ret r
  else ret (true, set_performCancelSession d true).

Definition _checkIncomingProfilePPRattributesVersusRAT (d : LPA_DOWNLOADED_PROFILE_DATA_FOR_PPR)
    (ptrRATrules : ptr) : M (bool * LPA_DOWNLOADED_PROFILE_DATA_FOR_PPR) :=
  let* size := (if isNull ptrRATrules then ret 0
                else let* '(_, n) := load_RawDataObject ptrRATrules in ret n) in
  let* '(res, d) :=
    (if size >? 4 then
       if hasPPR1 d || hasPPR2 d then
         let* '(rawData, rawDataSize) := load_RawDataObject ptrRATrules in
         let* src := (if isNull rawData then ret None else let* bs := load_bytes rawData in ret (Some bs)) in
         let* '(berEUICC_RAT, _) := berTLV_extractTagUInt16 EUICC_RAT_TAG src rawDataSize in
         if isNull berEUICC_RAT then report LPA_ERROR_INVALID_GET_RAT ;; ret (false, d)
         else
           let* berRATmainSequenceA0 := extractTag_of 0xA0 berEUICC_RAT in
           let* r :=
             (if isNull berRATmainSequenceA0 then report LPA_ERROR_INVALID_GET_RAT ;; ret (false, d)
              else
                let* r := check_rules d berRATmainSequenceA0 in
                ERASE_BERTLV berRATmainSequenceA0 ;;
                ret r) in
           ERASE_BERTLV berEUICC_RAT ;;
           ret r
       else ret (true, d)
     else report LPA_ERROR_INVALID_PARAMETER ;; ret (false, d)) in
  let d := if res : bool then d else set_performCancelSession d true in
  ret (res,
    if performCancelSession d
    then decide_profile d LPA_USR_CONSENT_DISABLED true LPA_CANCEL_SESSION_PPR_NOT_ALLOWED else d).

(** ** Reference decision, on the bytes of the table *)

Abbreviation profile_data := LPA_DOWNLOADED_PROFILE_DATA_FOR_PPR.

(** The profile as the extraction of its metadata leaves it. *)
Definition valid_profile (d : profile_data) : Prop :=
  Forall is_byte (mccMnc d) ∧ zlen (mccMnc d) = 3 ∧
  0 <= gid1Size d <= zlen (gid1 d) ∧ 0 <= gid2Size d <= zlen (gid2 d).

(** The value of a group identifier of a rule [r] against that of the profile:
    absent from both or equal, an exact match that counts one; empty in the
    rule, a wildcard; otherwise the rule does not apply. *)
Definition gid_verdict (r : option (list Z)) (defined : bool) (gid : list Z) : option (bool * Z) :=
  match r with
  | None => if defined then None else Some (true, 1)
  | Some [] => Some (false, 0)
  | Some v => if decide (v = gid) then Some (true, 1) else None
  end.
Definition gid1_verdict (d : profile_data) r :=
  gid_verdict r (gid1Defined d) (take (Z.to_nat (gid1Size d)) (gid1 d)).
Definition gid2_verdict (d : profile_data) r :=
  gid_verdict r (gid2Defined d) (take (Z.to_nat (gid2Size d)) (gid2 d)).

(** An operator that matches on [level] digits replaces the best one when none
    of its levels is lower. *)
Definition better (d : profile_data) (consent : bool) (level : Z) (r1 r2 : option (list Z)) (fl : flags) : flags :=
  match gid1_verdict d r1, gid2_verdict d r2 with
  | Some (m1, p1), Some (m2, p2) =>
      if (matchLevelMCC_MNC fl <=? level) && (matchLevelGID fl <=? p1 + p2)
      then Flags true level m1 m2 (p1 + p2) consent else fl
  | _, _ => fl
  end.

(** The loop over the operators: the objects its variables hold, the flags, the
    result, and the objects whose last pointer was overwritten. *)
Record walked := Walked {
  w_mcc : option (list Z);
  w_gid1 : option (list Z);
  w_gid2 : option (list Z);
  w_flags : flags;
  w_res : bool;
  w_lost : list (Z * list Z)
}.

Definition overwritten (tag : Z) (r : option (list Z)) : list (Z * list Z) :=
  match r with Some v => [(tag, v)] | None => [] end.

Definition operator_step (d : profile_data) (consent : bool) (tag : Z) (rm r1 r2 : option (list Z))
    (s : walked) : walked :=
  if tag =? 0x30 then
    let lost := w_lost s ++ overwritten 0x80 (w_mcc s) in
    let invalid := Walked rm (w_gid1 s) (w_gid2 s) (w_flags s) false lost in
    match rm with
    | Some mcc =>
        if zlen mcc =? 3 then
          match operator_match mcc (mccMnc d) with
          | Some (Some level) =>
              Walked rm r1 r2 (better d consent level r1 r2 (w_flags s)) (w_res s)
                (lost ++ overwritten 0x81 (w_gid1 s) ++ overwritten 0x82 (w_gid2 s))
          | Some None => Walked rm (w_gid1 s) (w_gid2 s) (w_flags s) (w_res s) lost
          | None => invalid
          end
        else invalid
    | None => invalid
    end
  else Walked (w_mcc s) (w_gid1 s) (w_gid2 s) (w_flags s) false (w_lost s).

Fixpoint operators_walk (d : profile_data) (consent : bool) (l : list (Z * list Z)) (s : walked) : walked :=
  match l with
  | [] => s
  | (t, v) :: l =>
      let s := operator_step d consent t (first_tag 0x80 v).2 (first_tag 0x81 v).2 (first_tag 0x82 v).2 s in
      if w_res s then operators_walk d consent l s else s
  end.

(** The analysis of the operators [v] of a rule: the result, the flags, and
    the objects that stay allocated. *)
Definition operators_result (d : profile_data) (consent : bool) (v : list Z) (fl : flags)
  : bool * flags * list (Z * list Z) :=
  let l := default [] (objects v) in
  if 0 <? zlen l mod 256 then
    let s := operators_walk d consent l (Walked None None None fl true []) in
    (w_res s, w_flags s, w_lost s)
  else (false, fl, []).

(** A rule on the policies of the profile that it names. *)
Definition rule_decision (d : profile_data) (ids ops : list Z) (consent : bool) (c1 c2 : flags)
  : bool * flags * flags * list (Z * list Z) :=
  let '(res, c1, k1) :=
    if has_ppr1 ids && hasPPR1 d then operators_result d consent ops c1 else (true, c1, []) in
  let '(res, c2, k2) :=
    if res && has_ppr2 ids && hasPPR2 d then operators_result d consent ops c2 else (res, c2, []) in
  (res, c1, c2, k1 ++ k2).

Definition consent_of (consent : list Z) : option bool :=
  if decide (consent = [0x07; 0x80]) then Some true
  else if decide (consent = [0]) then Some false
  else None.

(** The objects of a rule: policies, operators and the consent flag. *)
Definition rule_objects (v : list Z) : option (list Z * list Z * bool) :=
  ids ← (first_tag 0x80 v).2;
  ops ← (first_tag 0xA1 v).2;
  consent ← (first_tag 0x82 v).2;
  if (zlen ids =? 2) && (7 <=? zlen ops) then c ← consent_of consent; Some (ids, ops, c) else None.

Definition rule_result (d : profile_data) (v : list Z) (c1 c2 : flags)
  : bool * flags * flags * list (Z * list Z) :=
  match rule_objects v with
  | Some (ids, ops, consent) => rule_decision d ids ops consent c1 c2
  | None => (false, c1, c2, [])
  end.

(** The loop over the rules: the flags, the objects that stay allocated, and
    why it ended. *)
Inductive rules_end := RulesDone | InvalidRule | InvalidTag.
#[export] Instance rules_end_eq_dec : EqDecision rules_end.
Proof. solve_decision. Defined.

Fixpoint rules_walk (d : profile_data) (l : list (Z * list Z)) (c1 c2 : flags) (lost : list (Z * list Z))
  : rules_end * flags * flags * list (Z * list Z) :=
  match l with
  | [] => (RulesDone, c1, c2, lost)
  | (t, v) :: l =>
      if t =? 0x30 then
        let '(res, c1, c2, k) := rule_result d v c1 c2 in
        if res then rules_walk d l c1 c2 (lost ++ k) else (InvalidRule, c1, c2, lost ++ k)
      else (InvalidTag, c1, c2, lost)
  end.

(** The decision on one policy. *)
Definition policy_refused (has : bool) (c : flags) : bool := has && negb (pprValidated c).
Definition policy_consent (has : bool) (c : flags) : bool := has && pprValidated c && userConsentRequired c.

Definition cancelled (d : profile_data) : profile_data :=
  decide_profile d LPA_USR_CONSENT_DISABLED true LPA_CANCEL_SESSION_PPR_NOT_ALLOWED.

(** The result, the decisions, whether an error is reported, and the objects
    that stay allocated. *)
Definition rules_result (d : profile_data) (v : list Z) : bool * profile_data * bool * list (Z * list Z) :=
  let l := default [] (objects v) in
  if decide (v = []) then (true, cancelled d, false, [])
  else if 0 <? zlen l mod 256 then
    let '(e, c1, c2, lost) := rules_walk d l no_flags no_flags [] in
    (bool_decide (e ≠ InvalidRule),
     if bool_decide (e ≠ RulesDone) || performCancelSession d
        || policy_refused (hasPPR1 d) c1 || policy_refused (hasPPR2 d) c2
     then cancelled d
     else set_userCallBackType d
            (Z.lor (Z.lor (userCallBackType d) (if policy_consent (hasPPR1 d) c1 then LPA_USR_CONSENT_PPR1 else 0))
                   (if policy_consent (hasPPR2 d) c2 then LPA_USR_CONSENT_PPR2 else 0)),
     bool_decide (e ≠ RulesDone), lost)
  else (false, cancelled d, true, []).

Definition rat_result (d : profile_data) (rat : list Z) : bool * profile_data * bool * list (Z * list Z) :=
  match (first_tag EUICC_RAT_TAG rat).2 ≫= λ v, (first_tag 0xA0 v).2 with
  | Some v => rules_result d v
  | None => (false, cancelled d, true, [])
  end.

(** The lists of the table end with their last element. *)
Definition delimited (rat : list Z) : Prop :=
  ∀ v, (first_tag EUICC_RAT_TAG rat).2 ≫= (λ v, (first_tag 0xA0 v).2) = Some v →
  ∃ l, objects v = Some l ∧
    ∀ w ops, (0x30, w) ∈ l → (first_tag 0xA1 w).2 = Some ops → is_Some (objects ops).

(** ** Proofs: operators *)

(** Objects that nothing points to any more. *)
Definition lost (l : list (Z * list Z)) : heapProp := ([∗ list] tv ∈ l, ∃ p, tlv p tv.1 tv.2)%I.

Lemma lost_app l k : lost (l ++ k) ⊣⊢ lost l ∗ lost k.
Proof. apply big_sepL_app. Qed.

Lemma overwrite p tag r : maybe_tlv p tag r ⊢ lost (overwritten tag r).
Proof.
  rw /lost. destruct r as [v|]; cbn [maybe_tlv overwritten].
  - iIntros "H". rw big_sepL_singleton. by iExists p.
  - by iIntros "_".
Qed.

Section operators.
Context (nf : bool) (d : profile_data) (Hd : valid_profile d).
Implicit Types (e : LPA_API_ERROR).

Definition gid_equal (r : option (list Z)) (gid : list Z) : bool :=
  match r with
  | Some (_ :: _) => bool_decide (r = Some gid)
  | _ => false
  end.

Lemma wp_compare_gid p tag r gid n e Φ :
  0 <= n <= zlen gid →
  maybe_tlv p tag r -∗
  (maybe_tlv p tag r -∗ Φ (present r, gid_equal r (take (Z.to_nat n) gid)) e) -∗
  wp nf (compare_gid p gid n) e Φ.
Proof.
  iIntros (Hn) "Hp HΦ". rw /compare_gid. iDestruct (maybe_null with "Hp") as "[%En Hp]". rw En.
  destruct r as [v|]; cbn [maybe_tlv present negb]; [|by wp_value; iApply "HΦ"].
  wp_seq. iApply (wp_tlv_data with "Hp"). iIntros "Hp". destruct v as [|x v]; cbn [value].
  { wp_value. by iApply "HΦ". }
  assert ((zlen (x :: v) >? 0) = true) as -> by (rw zlen_cons; zlen_pos; lia).
  assert (zlen (take (Z.to_nat n) gid) = n) as Hz by (rw zlen_take; lia).
  rw (_ : gid_equal _ _ = bool_decide (x :: v = take (Z.to_nat n) gid)); last first.
  { cbn [gid_equal]. apply bool_decide_ext. split; [by intros [= ->]|by intros ->]. }
  destruct (Z.eqb_spec (zlen (x :: v)) n) as [E|E].
  - wp_seq. iApply wp_of_option. wp_seq. rw rd_range_all //. iApply wp_of_option. wp_seq.
    rw E (rd_range_Some gid 0 n); [|lia..]. rw drop_0. iApply wp_of_option. wp_value. by iApply "HΦ".
  - wp_value. rw bool_decide_false; [by iApply "HΦ"|]. intros Eq. rw Eq in E. by rw Hz in E.
Qed.

Lemma wp_gid_level p tag r gid defined lvl e Φ :
  maybe_tlv p tag r -∗
  (maybe_tlv p tag r -∗
   Φ (match gid_verdict r defined gid with
      | Some (m, k) => (true, m, lvl + k)
      | None => (false, gid_equal r gid, lvl)
      end) e) -∗
  wp nf (gid_level p (present r) (gid_equal r gid) defined lvl) e Φ.
Proof.
  iIntros "Hp HΦ". rw /gid_level. destruct r as [v|]; cbn [present maybe_tlv].
  - wp_seq. iApply (wp_load_tlv_length with "Hp"). iIntros (q) "Hp".
    destruct v as [|x v]; cbn [gid_verdict gid_equal].
    + wp_value. rw Z.add_0_r. by iApply "HΦ".
    + assert ((zlen (x :: v) >? 0) = true) as -> by (rw zlen_cons; zlen_pos; lia).
      case_bool_decide as E; case_decide as E'; try congruence; wp_value; by iApply "HΦ".
  - cbn [gid_verdict gid_equal]. destruct defined; wp_value; by iApply "HΦ".
Qed.

(** What the variables of the loop own. *)
Definition vars_ok (x : operator_vars) (s : walked) : heapProp :=
  (⟦ptrCheckPPR x = w_flags s ∧ operator_res x = w_res s⟧ ∗
   maybe_tlv (berTLVmccMnc x) 0x80 (w_mcc s) ∗ maybe_tlv (berTLVgid1 x) 0x81 (w_gid1 s) ∗
   maybe_tlv (berTLVgid2 x) 0x82 (w_gid2 s) ∗ lost (w_lost s))%I.

Lemma wp_match_gids consent b t v level x s e Φ :
  Forall is_byte v →
  tlv b t v -∗ vars_ok x s -∗
  (∀ x' r1 r2, ⟦chosen nf r1 (first_tag 0x81 v).2 ∧ chosen nf r2 (first_tag 0x82 v).2⟧ -∗
    tlv b t v -∗
    vars_ok x' (Walked (w_mcc s) r1 r2 (better d consent level r1 r2 (w_flags s)) (w_res s)
      (w_lost s ++ overwritten 0x81 (w_gid1 s) ++ overwritten 0x82 (w_gid2 s))) -∗ Φ x' e) -∗
  wp nf (match_gids d consent b level x) e Φ.
Proof.
  iIntros (Hv) "Ht (%Hx & Hm & H1 & H2 & Hl) HΦ". destruct Hd as (_ & _ & Hg1 & Hg2).
  destruct Hx as [Hfl Hres].
  wp_seq. iApply (wp_extractTag_of with "Ht"); [done..|]. iIntros (p1 r1) "%Hr1 Ht Hp1".
  wp_seq. iApply (wp_compare_gid with "Hp1"); [done|]. iIntros "Hp1".
  wp_seq. iApply (wp_extractTag_of with "Ht"); [done..|]. iIntros (p2 r2) "%Hr2 Ht Hp2".
  wp_seq. iApply (wp_compare_gid with "Hp2"); [done|]. iIntros "Hp2".
  iAssert (lost (w_lost s ++ overwritten 0x81 (w_gid1 s) ++ overwritten 0x82 (w_gid2 s)))
    with "[Hl H1 H2]" as "Hl".
  { rw !lost_app. iFrame. iSplitL "H1"; by iApply overwrite. }
  iAssert (∀ x', ⟦berTLVmccMnc x' = berTLVmccMnc x ∧ berTLVgid1 x' = p1 ∧ berTLVgid2 x' = p2 ∧
      ptrCheckPPR x' = better d consent level r1 r2 (w_flags s) ∧ operator_res x' = w_res s⟧ -∗
      maybe_tlv p1 0x81 r1 -∗ maybe_tlv p2 0x82 r2 -∗ Φ x' e)%I with "[Ht Hm Hl HΦ]" as "HΦ".
  { iIntros (x') "%E H1 H2". destruct E as (E1 & E2 & E3 & E4 & E5).
    iApply ("HΦ" $! x' r1 r2 with "[//] Ht"). rw /vars_ok E1 E2 E3 E4 E5. by iFrame. }
  rw /better Hfl. fold (gid1_verdict d r1). wp_seq.
  destruct (matchLevelMCC_MNC (w_flags s) <=? level) eqn:El.
  - wp_seq. iApply (wp_gid_level with "Hp1"). iIntros "Hp1".
    change (gid_verdict r1 _ _) with (gid1_verdict d r1).
    destruct (gid1_verdict d r1) as [[m1 k1]|].
    + wp_seq. iApply (wp_gid_level with "Hp2"). iIntros "Hp2".
      change (gid_verdict r2 _ _) with (gid2_verdict d r2).
      destruct (gid2_verdict d r2) as [[m2 k2]|]; wp_value; wp_value; cbn [andb];
        (iApply ("HΦ" with "[] Hp1 Hp2")); iPureIntro; [|done].
      rw (_ : (k1 + k2 >=? _) = (matchLevelGID (w_flags s) <=? k1 + k2)); [|by rw Z.geb_leb].
      by destruct (_ <=? k1 + k2).
    + wp_value. wp_value. iApply ("HΦ" with "[] Hp1 Hp2"). done.
  - wp_value. wp_value. iApply ("HΦ" with "[] Hp1 Hp2"). iPureIntro. cbn.
    by destruct (gid1_verdict d r1) as [[? ?]|], (gid2_verdict d r2) as [[? ?]|].
Qed.

(** The step on the objects found in an operator. *)
Definition operator_found (consent : bool) (t : Z) (v : list Z) (s : walked) : walked :=
  operator_step d consent t (first_tag 0x80 v).2 (first_tag 0x81 v).2 (first_tag 0x82 v).2 s.

Definition body_post (consent : bool) (t : Z) (v : list Z) (s : walked) e (r : bool * operator_vars) e' : heapProp :=
  (∃ s', vars_ok r.2 s' ∗
     ⟦r.1 = w_res s' ∧ e' = (if w_res s' then e else first_error LPA_ERROR_INVALID_GET_RAT e) ∧
      (nf = true → s' = operator_found consent t v s)⟧)%I.

Lemma wp_report (c : LPA_API_ERROR) e (Φ : unit → LPA_API_ERROR → heapProp) :
  Φ tt (first_error c e) -∗ wp nf (report c) e Φ.
Proof. iIntros "HΦ". by iApply wp_lift. Qed.

Lemma wp_invalid_operator consent b t v s e x s' :
  ptrCheckPPR x = w_flags s' →
  (nf = true → Walked (w_mcc s') (w_gid1 s') (w_gid2 s') (w_flags s') false (w_lost s') =
     operator_found consent t v s) →
  tlv b t v -∗
  maybe_tlv (berTLVmccMnc x) 0x80 (w_mcc s') -∗ maybe_tlv (berTLVgid1 x) 0x81 (w_gid1 s') -∗
  maybe_tlv (berTLVgid2 x) 0x82 (w_gid2 s') -∗ lost (w_lost s') -∗
  wp nf (invalid_operator x) e (λ r e', tlv b t v ∗ body_post consent t v s e r e').
Proof.
  iIntros (Hfl Hs) "Ht Hm H1 H2 Hl". wp_seq. iApply wp_report. wp_value. iFrame "Ht".
  iExists (Walked (w_mcc s') (w_gid1 s') (w_gid2 s') (w_flags s') false (w_lost s')).
  rw /vars_ok /=. by iFrame.
Qed.

Lemma operator_body_ok consent b t v x s e :
  Forall is_byte v → w_res s = true →
  tlv (Some b) t v ∗ vars_ok x s ⊢
  wp nf (operator_body d consent (Some b) x) e
    (λ r e', tlv (Some b) t v ∗ body_post consent t v s e r e').
Proof.
  iIntros (Hv Hres) "(Ht & %Hx & Hm & H1 & H2 & Hl)". destruct Hx as [Hfl Hr].
  destruct Hd as (Hmb & Hml & _).
  wp_seq. iApply (wp_load_tlv_length with "Ht"). iIntros (q) "Ht".
  destruct (t =? 0x30) eqn:Et.
  2: { iApply (wp_invalid_operator consent _ t v s e x s with "Ht Hm H1 H2 Hl"); [done|].
       intros _. by rw /operator_found /operator_step Et. }
  wp_seq. iApply (wp_extractTag_of with "Ht"); [done..|]. iIntros (pm rm) "%Hrm Ht Hpm".
  iAssert (lost (w_lost s ++ overwritten 0x80 (w_mcc s))) with "[Hl Hm]" as "Hl".
  { rw lost_app. iFrame. by iApply overwrite. }
  set (sm := Walked rm (w_gid1 s) (w_gid2 s) (w_flags s) true (w_lost s ++ overwritten 0x80 (w_mcc s))).
  set (xm := OperatorVars pm _ _ _ _). cbv zeta.
  assert (nf = true → rm = (first_tag 0x80 v).2) as Hrm' by (intros ->; by apply chosen_nf).
  assert (∀ mcc, rm = Some mcc → Forall is_byte mcc) as Hmcc.
  { intros mcc ->. destruct Hrm as [E|[_ E]]; [|done]. by apply (first_tag_byte 0x80 v). }
  wp_seq. iDestruct (maybe_null with "Hpm") as "[%En Hpm]". rw En.
  destruct rm as [mcc|]; cbn [present negb maybe_tlv].
  2: { wp_value. iApply (wp_invalid_operator consent _ t v s e xm sm with "Ht Hpm H1 H2 Hl"); [done|].
       intros Hnf. by rw /operator_found /operator_step Et -Hrm' //. }
  wp_seq. iApply (wp_load_tlv_length with "Hpm"). iIntros (q') "Hpm". wp_value.
  destruct (zlen mcc =? 3) eqn:E3.
  2: { iApply (wp_invalid_operator consent _ t v s e xm sm with "Ht Hpm H1 H2 Hl"); [done|].
       intros Hnf. by rw /operator_found /operator_step Et -Hrm' // E3. }
  wp_seq. iApply (wp_tlv_data with "Hpm"). iIntros "Hpm".
  assert (value mcc = Some mcc) as -> by (by destruct mcc).
  destruct (compare_MCC_MNC_ok mcc (mccMnc d) (false, 0) e) as ([res [m lvl]] & Ec & Hc);
    [by apply Hmcc|done|lia|done|].
  wp_seq. iApply wp_lift; [done|]. rw /compared in Hc.
  destruct (operator_match mcc (mccMnc d)) as [[level|]|] eqn:Em.
  - injection Hc as -> -> ->. wp_seq. change (0 + level) with level.
    iApply (wp_match_gids consent _ t v level xm sm with "Ht [Hpm H1 H2 Hl]"); [done| |].
    { rw /vars_ok /=. iFrame. by rw Hr Hres. }
    iIntros (x' r1 r2) "%Hr12 Ht Hx". destruct Hr12 as [Hr1 Hr2]. wp_value. iFrame "Ht". iExists _. iFrame "Hx".
    iPureIntro. cbn. split; [done|split; [done|]]. intros ->.
    rw /operator_found /operator_step Et -Hrm' // E3 Em -(chosen_nf _ _ Hr1) -(chosen_nf _ _ Hr2) Hres.
    by rw -app_assoc.
  - destruct Hc as [Hc1 Hc2]. cbn in Hc1, Hc2. subst res m. wp_value. iFrame "Ht". iExists sm.
    iSplit; [|iPureIntro].
    { rw /vars_ok /=. iFrame. by rw Hr Hres. }
    cbn. split; [done|split; [done|]]. intros Hnf.
    by rw /operator_found /operator_step Et -Hrm' // E3 Em Hres.
  - cbn in Hc. subst res. iApply (wp_invalid_operator consent _ t v s e xm sm with "Ht Hpm H1 H2 Hl"); [done|].
    intros Hnf. by rw /operator_found /operator_step Et -Hrm' // E3 Em.
Qed.

(** The loop over the operators. *)
Lemma wp_operators consent tvs p fl e Φ :
  Forall (λ tv, Forall is_byte tv.2) tvs →
  tlv_list p tvs -∗
  (∀ x s, ⟦nf = true → s = operators_walk d consent tvs (Walked None None None fl true [])⟧ -∗
    tlv_list p tvs -∗ vars_ok x s -∗
    Φ x (if w_res s then e else first_error LPA_ERROR_INVALID_GET_RAT e)) -∗
  wp nf (walk (operator_body d consent) p (OperatorVars None None None fl true)) e Φ.
Proof.
  iIntros (Hb) "Hp HΦ". set (s0 := Walked None None None fl true []).
  iApply (wp_walk nf skip_null (operator_body d consent) tvs
    (λ pre x e', ∃ s, vars_ok x s ∗ ⟦w_res s = true ∧ e' = e ∧
       (nf = true → ∀ post, operators_walk d consent (pre ++ post) s0 = operators_walk d consent post s)⟧)%I
    (λ x e', ∃ s, vars_ok x s ∗ ⟦e' = (if w_res s then e else first_error LPA_ERROR_INVALID_GET_RAT e) ∧
       (nf = true → s = operators_walk d consent tvs s0)⟧)%I with "Hp").
  - intros pre t v post b x e' ->. iIntros "[Ht (%s & Hx & %Hs)]". destruct Hs as (Hr & -> & Hs).
    apply Forall_app in Hb as [_ Hb]. apply Forall_cons in Hb as [Hv _].
    iApply (wp_wand with "[Ht Hx]"); [iApply operator_body_ok; [exact Hv|exact Hr|iFrame]|].
    iIntros ([go x'] e') "[$ (%s' & Hx & %H)]". cbn [fst snd] in *. destruct H as (-> & -> & Hs').
    destruct (w_res s') eqn:Er; iExists s'; iFrame "Hx"; iPureIntro; rw Er.
    + split; [done|split; [done|]]. intros Hnf post'.
      rw -app_assoc Hs //=. fold (operator_found consent t v s). by rw -Hs' // Er.
    + split; [done|]. intros Hnf. rw Hs //=. fold (operator_found consent t v s). by rw -Hs' // Er.
  - intros x e'. iIntros "(%s & Hx & %Hs)". destruct Hs as (Hr & -> & Hs). iExists s. iFrame "Hx".
    iPureIntro. rw Hr. split; [done|]. intros Hnf. by rw -(app_nil_r tvs) Hs.
  - iExists s0. iSplit; [|by iPureIntro]. rw /vars_ok /lost /=. repeat iSplit; done.
  - iIntros (x e') "Hp (%s & Hx & %Hs)". destruct Hs as [-> Hs]. by iApply ("HΦ" with "[//] Hp Hx").
Qed.

(** _analysePPARallowedOperatorVersusProfile *)
Lemma wp_analyse_operators consent a t v l fl e Φ :
  Forall is_byte v → objects v = Some l →
  tlv a t v -∗
  (∀ r k, ⟦nf = true → (r, k) = operators_result d consent v fl⟧ -∗ tlv a t v -∗ lost k -∗
    Φ r (if r.1 then e else first_error LPA_ERROR_INVALID_GET_RAT e)) -∗
  wp nf (_analysePPARallowedOperatorVersusProfile d fl a consent) e Φ.
Proof.
  iIntros (Hv Ho) "Ha HΦ". wp_seq. iApply (wp_extractList_of with "Ha"); [done..|].
  iIntros (p c) "Ha Hp". rw /operators_result Ho /=. iDestruct "Hp" as "[%H|[%Hc Hp]]".
  { destruct H as [Hnf ->]. cbn [isNull negb andb]. wp_seq. wp_seq. iApply wp_report. wp_value.
    wp_seq. wp_value. wp_value. iApply ("HΦ" $! (false, fl) [] with "[] Ha []"); [|by rw /lost].
    iPureIntro. congruence. }
  subst c. iDestruct (tlv_list_null with "Hp") as "[%En Hp]". rw En Z.gtb_ltb.
  pose proof (parse_list_byte _ _ _ Hv Ho) as Hb. destruct (0 <? zlen l mod 256) eqn:Ec.
  - rw bool_decide_false; [|by intros ->]. cbn [negb andb]. wp_seq. wp_seq.
    iApply (wp_operators with "Hp"); [done|]. iIntros (x s) "%Hs Hp (%Hx & Hm & H1 & H2 & Hl)".
    destruct Hx as [Hfl Hr]. wp_seq. iApply (wp_erase with "Hm"). wp_seq. iApply (wp_erase with "H1").
    wp_seq. iApply (wp_erase with "H2"). wp_value. wp_seq. iApply (wp_erase_list with "Hp"). wp_value.
    rw Hr Hfl. iApply ("HΦ" $! (w_res s, w_flags s) (w_lost s) with "[] Ha Hl"). iPureIntro.
    intros Hnf. by rw -Hs.
  - rw andb_false_r. wp_seq. wp_seq. iApply wp_report. wp_value. wp_seq.
    iApply (wp_erase_list with "Hp"). wp_value. by iApply ("HΦ" $! (false, fl) [] with "[] Ha []"); rw /lost.
Qed.

(** ** Proofs: rules *)

(** The analysis of the operators for one policy, where it is made. *)
Lemma wp_policy (cond r0 consent : bool) a t v l fl e Φ :
  Forall is_byte v → objects v = Some l →
  tlv a t v -∗
  (∀ r k, ⟦nf = true → (r, k) = if cond then operators_result d consent v fl else (r0, fl, [])⟧ -∗
    ⟦cond = false → r.1 = r0⟧ -∗ tlv a t v -∗ lost k -∗
    Φ r (if cond && negb r.1 then first_error LPA_ERROR_INVALID_GET_RAT e else e)) -∗
  wp nf (if cond then _analysePPARallowedOperatorVersusProfile d fl a consent else ret (r0, fl)) e Φ.
Proof.
  iIntros (Hv Ho) "Ha HΦ". destruct cond.
  - iApply (wp_analyse_operators with "Ha"); [done..|]. iIntros (r k) "Hr Ha Hk". cbn [andb].
    replace (if r.1 then e else first_error _ e) with (if negb r.1 then first_error LPA_ERROR_INVALID_GET_RAT e else e)
      by (by destruct r.1).
    iApply ("HΦ" with "Hr [] Ha Hk"). done.
  - wp_value. iApply ("HΦ" $! (r0, fl) [] with "[//] [//] Ha"). by rw /lost.
Qed.

Lemma consent_flag_ok consent :
  Forall is_byte consent → zlen consent = 2 ∨ zlen consent = 1 →
  consent_flag (zlen consent) (value consent) = Some (consent_of consent).
Proof.
  intros Hb Hl. destruct consent as [|b0 [|b1 [|]]]; [by destruct Hl| | |].
  - rw /consent_flag /= /consent_of.
    destruct (Z.eqb_spec b0 0); repeat case_decide; congruence.
  - inversion_clear Hb as [|?? H0 Hb']. inversion_clear Hb' as [|?? H1 _].
    change (consent_flag _ _) with (flag ← flag16 [b0; b1]; Some (if flag =? 0x0780 then Some true else None)).
    rw (flag16_bytes b0 b1 H0 H1). cbn [mbind option_bind]. rw /consent_of.
    change 0x0780 with (7 * 256 + 0x80). rw flag_pair; [|done|done|rw /is_byte; lia..].
    case_bool_decide; repeat case_decide; congruence.
  - exfalso. rw !zlen_cons in Hl. zlen_pos. lia.
Qed.

Lemma wp_analyse_rule pi po pc ids ops consent l c1 c2 e Φ :
  Forall is_byte ids → Forall is_byte ops → Forall is_byte consent →
  zlen ids = 2 → zlen consent = 2 ∨ zlen consent = 1 → objects ops = Some l →
  tlv pi 0x80 ids -∗ tlv po 0xA1 ops -∗ tlv pc 0x82 consent -∗
  (∀ res c1' c2' k,
    ⟦nf = true → (res, c1', c2', k) =
       match consent_of consent with
       | Some c => rule_decision d ids ops c c1 c2
       | None => (false, c1, c2, [])
       end⟧ -∗
    tlv pi 0x80 ids -∗ tlv po 0xA1 ops -∗ tlv pc 0x82 consent -∗ lost k -∗
    Φ (res, c1', c2') (if res then e else first_error LPA_ERROR_INVALID_GET_RAT e)) -∗
  wp nf (analyse_rule d c1 c2 pi po pc) e Φ.
Proof.
  iIntros (Hi Ho Hc Hil Hcl Hl) "Hi Ho Hc HΦ".
  wp_seq. iApply (wp_tlv_data with "Hi"). iIntros "Hi". wp_seq.
  destruct ids as [|b0 [|b1 [|]]]; try done; [|exfalso; rw !zlen_cons in Hil; zlen_pos; lia].
  inversion_clear Hi as [|?? H0 Hi']. inversion_clear Hi' as [|?? H1 _].
  rw {1}/value. cbn [mbind option_bind]. rw (flag16_bytes b0 b1 H0 H1). iApply wp_of_option.
  destruct (isPPR_bytes b0 b1 H0 H1) as [-> ->].
  wp_seq. iApply (wp_tlv_data with "Hc"). iIntros "Hc". wp_seq. rw consent_flag_ok //. iApply wp_of_option.
  destruct (consent_of consent) as [c|].
  2: { wp_seq. iApply wp_report. wp_value. iApply ("HΦ" $! false c1 c2 [] with "[//] Hi Ho Hc").
       by rw /lost. }
  wp_seq. iApply (wp_policy with "Ho"); [done..|]. iIntros ([res1 c1'] k1) "%Hr1 %Hs1 Ho Hk1".
  wp_seq. iApply (wp_policy with "Ho"); [done..|]. iIntros ([res2 c2'] k2) "%Hr2 %Hs2 Ho Hk2".
  wp_value. cbn [fst snd] in *.
  replace (if (res1 && has_ppr2 [b0; b1] && hasPPR2 d) && negb res2 then _ else _)
    with (if res2 then e else first_error LPA_ERROR_INVALID_GET_RAT e).
  { iApply ("HΦ" $! res2 c1' c2' (k1 ++ k2) with "[] Hi Ho Hc"); [|by rw lost_app; iFrame].
    iPureIntro. intros Hnf. rw /rule_decision -(Hr1 Hnf) -(Hr2 Hnf). done. }
  destruct res1; cbn [andb negb] in *.
  - rw andb_false_r. destruct res2; cbn [negb]; [by rw andb_false_r|]. rw andb_true_r.
    destruct (has_ppr2 _ && _); [done|]. by specialize (Hs2 eq_refl).
  - rw (Hs2 eq_refl) andb_true_r. destruct (has_ppr1 _ && _); [done|]. by specialize (Hs1 eq_refl).
Qed.

Lemma wp_release {A} (r : A) pi po pc ri ro rc e Φ :
  maybe_tlv pi 0x80 ri -∗ maybe_tlv po 0xA1 ro -∗ maybe_tlv pc 0x82 rc -∗ Φ r e -∗
  wp nf (ERASE_BERTLV pi ;; ERASE_BERTLV po ;; ERASE_BERTLV pc ;; ret r) e Φ.
Proof.
  iIntros "Hi Ho Hc HΦ". wp_seq. iApply (wp_erase with "Hi"). wp_seq. iApply (wp_erase with "Ho").
  wp_seq. iApply (wp_erase with "Hc"). by wp_value.
Qed.

Lemma consent_of_length consent c : consent_of consent = Some c → zlen consent = 2 ∨ zlen consent = 1.
Proof. rw /consent_of. repeat case_decide; subst; [by left|by right|done]. Qed.

(** The operators of a rule are delimited. *)
Definition delimited_rule (v : list Z) : Prop :=
  ∀ ops, (first_tag 0xA1 v).2 = Some ops → is_Some (objects ops).

Lemma wp_analyse_PPAR p t v c1 c2 e Φ :
  Forall is_byte v → delimited_rule v →
  tlv p t v -∗
  (∀ res c1' c2' k, ⟦nf = true → (res, c1', c2', k) = rule_result d v c1 c2⟧ -∗ tlv p t v -∗ lost k -∗
    Φ (res, c1', c2') (if res then e else first_error LPA_ERROR_INVALID_GET_RAT e)) -∗
  wp nf (_analysePPARversusProfileAttribute p d c1 c2) e Φ.
Proof.
  iIntros (Hv Hdel) "Hp HΦ".
  wp_seq. iApply (wp_extractTag_of with "Hp"); [done..|]. iIntros (pi ri) "%Hri Hp Hi".
  wp_seq. iApply (wp_extractTag_of with "Hp"); [done..|]. iIntros (po ro) "%Hro Hp Ho".
  wp_seq. iApply (wp_extractTag_of with "Hp"); [done..|]. iIntros (pc rc) "%Hrc Hp Hc".
  assert (nf = true → ri = (first_tag 0x80 v).2 ∧ ro = (first_tag 0xA1 v).2 ∧ rc = (first_tag 0x82 v).2) as Hr.
  { intros ->. by rw (chosen_nf _ _ Hri) (chosen_nf _ _ Hro) (chosen_nf _ _ Hrc). }
  assert (∀ tag r w, chosen nf r (first_tag tag v).2 → r = Some w →
    (first_tag tag v).2 = Some w ∧ Forall is_byte w) as Hw.
  { intros tag r w [Hch|[_ ->]] E; [|done]. rw -Hch. split; [done|]. apply (first_tag_byte tag v); congruence. }
  assert (∀ r, r = (false, c1, c2) → (nf = true → rule_objects v = None) →
    (tlv p t v -∗ (∀ res c1' c2' k, ⟦nf = true → (res, c1', c2', k) = rule_result d v c1 c2⟧ -∗ tlv p t v -∗
       lost k -∗ Φ (res, c1', c2') (if res then e else first_error LPA_ERROR_INVALID_GET_RAT e)) -∗
     Φ r (first_error LPA_ERROR_INVALID_GET_RAT e))) as Hbad.
  { iIntros (r -> Hn) "Hp HΦ". iApply ("HΦ" $! false c1 c2 [] with "[] Hp"); [|by rw /lost].
    iPureIntro. intros Hnf. by rw /rule_result Hn. }
  wp_seq. iDestruct (maybe_null with "Hi") as "[%Ei Hi]". iDestruct (maybe_null with "Ho") as "[%Eo Ho]".
  iDestruct (maybe_null with "Hc") as "[%Ec Hc]". rw Ei Eo Ec !negb_involutive.
  destruct (present ri && present ro && present rc) eqn:Ep.
  2: { wp_seq. iApply wp_report. wp_value. iApply (wp_release with "Hi Ho Hc").
       iApply (Hbad with "Hp HΦ"); [done|]. intros Hnf. destruct (Hr Hnf) as (Er1 & Er2 & Er3).
       rw /rule_objects -Er1 -Er2 -Er3. by destruct ri, ro, rc. }
  destruct ri as [ids|], ro as [ops|], rc as [consent|]; try done. clear Ep Ei Eo Ec.
  destruct (Hw _ _ _ Hri eq_refl) as [Fi Bi]. destruct (Hw _ _ _ Hro eq_refl) as [Fo Bo].
  destruct (Hw _ _ _ Hrc eq_refl) as [Fc Bc]. cbn [maybe_tlv].
  wp_seq. iApply (wp_load_tlv_length with "Hi"). iIntros (q1) "Hi".
  wp_seq. iApply (wp_load_tlv_length with "Ho"). iIntros (q2) "Ho".
  wp_seq. iApply (wp_load_tlv_length with "Hc"). iIntros (q3) "Hc". rw Z.geb_leb.
  destruct ((zlen ids =? 2) && (7 <=? zlen ops) && _) eqn:El.
  - destruct (Hdel ops Fo) as [l Hl].
    iApply (wp_analyse_rule with "Hi Ho Hc"); [done..|lia|lia|exact Hl|].
    iIntros (res c1' c2' k) "%Hres Hi Ho Hc Hk". iApply (wp_release _ _ _ _ (Some ids) (Some ops) (Some consent) with "[Hi] [Ho] [Hc]"); [done..|].
    iApply ("HΦ" with "[] Hp Hk"). iPureIntro. intros Hnf. rw (Hres Hnf) /rule_result /rule_objects Fi Fo Fc /=.
    rw (_ : (zlen ids =? 2) && (7 <=? zlen ops) = true); [|lia]. by destruct (consent_of consent).
  - wp_seq. iApply wp_report. wp_value. iApply (wp_release _ _ _ _ (Some ids) (Some ops) (Some consent) with "[Hi] [Ho] [Hc]"); [done..|].
    iApply (Hbad with "Hp HΦ"); [done|]. intros Hnf. rw /rule_objects Fi Fo Fc /=.
    destruct ((zlen ids =? 2) && _) eqn:E2; [|done].
    destruct (consent_of consent) eqn:E3; [|done]. apply consent_of_length in E3. lia.
Qed.

(** The loop over the rules. *)
Definition rule_vars_at (en : rules_end) (c1 c2 : flags) : rule_vars :=
  RuleVars (if decide (en = InvalidTag) then set_performCancelSession d true else d) c1 c2
    (bool_decide (en ≠ InvalidRule)).

Definition error_at (en : rules_end) e : LPA_API_ERROR :=
  if decide (en = RulesDone) then e else first_error LPA_ERROR_INVALID_GET_RAT e.

Lemma wp_rules tvs p e Φ :
  Forall (λ tv, Forall is_byte tv.2) tvs → (∀ v, (0x30, v) ∈ tvs → delimited_rule v) →
  tlv_list p tvs -∗
  (∀ en c1 c2 k, ⟦nf = true → rules_walk d tvs no_flags no_flags [] = (en, c1, c2, k)⟧ -∗
    tlv_list p tvs -∗ lost k -∗ Φ (rule_vars_at en c1 c2) (error_at en e)) -∗
  wp nf (walk rule_body p (RuleVars d no_flags no_flags true)) e Φ.
Proof.
  iIntros (Hb Hdel) "Hp HΦ".
  iApply (wp_walk nf skip_null rule_body tvs
    (λ pre x e', ∃ c1 c2 k, lost k ∗ ⟦x = rule_vars_at RulesDone c1 c2 ∧ e' = e ∧
       (nf = true → ∀ post, rules_walk d (pre ++ post) no_flags no_flags [] = rules_walk d post c1 c2 k)⟧)%I
    (λ x e', ∃ en c1 c2 k, lost k ∗ ⟦x = rule_vars_at en c1 c2 ∧ e' = error_at en e ∧
       (nf = true → rules_walk d tvs no_flags no_flags [] = (en, c1, c2, k))⟧)%I with "Hp").
  - intros pre t v post b x e' ->. iIntros "[Ht (%c1 & %c2 & %k & Hk & %H)]". destruct H as (-> & -> & Hw).
    apply Forall_app in Hb as [_ Hb]. apply Forall_cons in Hb as [Hv _].
    wp_seq. iApply (wp_load_tlv_length with "Ht"). iIntros (q) "Ht".
    destruct (Z.eqb_spec t 0x30) as [->|Ht].
    + wp_seq. iApply (wp_analyse_PPAR with "Ht"); [done| |].
      { apply Hdel. apply elem_of_app. right. by left. }
      iIntros (res c1' c2' k') "%Hres Ht Hk'". wp_value. iFrame "Ht". cbn [fst snd].
      iAssert (lost (k ++ k')) with "[Hk Hk']" as "Hk"; [by rw lost_app; iFrame|].
      destruct res.
      * iExists c1', c2', (k ++ k'). iFrame "Hk". iPureIntro. split; [done|split; [done|]].
        intros Hnf post'. rw -app_assoc Hw //=. by rw -(Hres Hnf).
      * iExists InvalidRule, c1', c2', (k ++ k'). iFrame "Hk". iPureIntro. split; [done|split; [done|]].
        intros Hnf. rw Hw //=. by rw -(Hres Hnf).
    + wp_seq. iApply wp_report. wp_value. iFrame "Ht". cbn [fst snd].
      iExists InvalidTag, c1, c2, k. iFrame "Hk". iPureIntro. split; [done|split; [done|]].
      intros Hnf. rw Hw //=. by apply Z.eqb_neq in Ht as ->.
  - intros x e'. iIntros "(%c1 & %c2 & %k & Hk & %H)". destruct H as (-> & -> & Hw).
    iExists RulesDone, c1, c2, k. iFrame "Hk". iPureIntro. split; [done|split; [done|]].
    intros Hnf. by rw -(app_nil_r tvs) Hw.
  - iExists no_flags, no_flags, []. rw /lost /=. iSplit; [done|]. by iPureIntro.
  - iIntros (x e') "Hp (%en & %c1 & %c2 & %k & Hk & %H)". destruct H as (-> & -> & Hw).
    by iApply ("HΦ" with "[//] Hp Hk").
Qed.

(** The end of the check. *)
Definition conclude (r : bool * profile_data) : profile_data :=
  let d := if r.1 then r.2 else set_performCancelSession r.2 true in
  if performCancelSession d then cancelled d else d.

Definition validated_vars (x : rule_vars) : profile_data :=
  final_validation (hasPPR2 d) (checkPPR2 x) LPA_USR_CONSENT_PPR2
    (final_validation (hasPPR1 d) (checkPPR1 x) LPA_USR_CONSENT_PPR1 (incoming x)).

Lemma decide_profile_id : decide_profile d (userCallBackType d) (performCancelSession d) (cancelSessionReason d) = d.
Proof. by destruct d. Qed.

Lemma conclude_validated en c1 c2 :
  conclude (rule_res (rule_vars_at en c1 c2), validated_vars (rule_vars_at en c1 c2)) =
  if bool_decide (en ≠ RulesDone) || performCancelSession d
     || policy_refused (hasPPR1 d) c1 || policy_refused (hasPPR2 d) c2
  then cancelled d
  else set_userCallBackType d
         (Z.lor (Z.lor (userCallBackType d) (if policy_consent (hasPPR1 d) c1 then LPA_USR_CONSENT_PPR1 else 0))
                (if policy_consent (hasPPR2 d) c2 then LPA_USR_CONSENT_PPR2 else 0)).
Proof.
  rw /conclude /validated_vars /rule_vars_at /policy_refused /policy_consent /final_validation /=.
  destruct en; cbn;
    destruct (hasPPR1 d), (pprValidated c1), (userConsentRequired c1),
      (hasPPR2 d), (pprValidated c2), (userConsentRequired c2); cbn; try done;
    rw ?orb_true_r ?orb_false_r; destruct (performCancelSession d) eqn:Ec; cbn; rw ?Ec ?Z.lor_0_r //;
    rw /set_userCallBackType ?decide_profile_id //.
Qed.

Definition error_if (err : bool) e : LPA_API_ERROR :=
  if err then first_error LPA_ERROR_INVALID_GET_RAT e else e.

Lemma wp_check_rules a t v l e Φ :
  Forall is_byte v → objects v = Some l → (∀ w, (0x30, w) ∈ l → delimited_rule w) →
  tlv a t v -∗
  (∀ r err k, ⟦nf = true → (r.1, conclude r, err, k) = rules_result d v⟧ -∗ tlv a t v -∗ lost k -∗
    Φ r (error_if err e)) -∗
  wp nf (check_rules d a) e Φ.
Proof.
  iIntros (Hv Ho Hdel) "Ha HΦ". rw /rules_result Ho. cbn [default from_option id].
  wp_seq. iApply (wp_load_tlv_length with "Ha"). iIntros (q) "Ha". rw Z.gtb_ltb.
  destruct (decide (v = [])) as [->|Hne].
  { wp_value. iApply ("HΦ" $! (true, set_performCancelSession d true) false [] with "[//] Ha"). by rw /lost. }
  rw (_ : (0 <? zlen v) = true); [|destruct v; [done|rw zlen_cons; zlen_pos; lia]].
  wp_seq. iApply (wp_extractList_of with "Ha"); [done..|]. iIntros (p c) "Ha Hp".
  iDestruct "Hp" as "[%H|[%Hc Hp]]".
  { destruct H as [Hnf ->]. cbn [isNull negb andb]. wp_seq. wp_seq. iApply wp_report. wp_value.
    wp_seq. wp_value. wp_value. iApply ("HΦ" $! (false, d) true [] with "[] Ha []"); [|by rw /lost].
    iPureIntro. congruence. }
  subst c. iDestruct (tlv_list_null with "Hp") as "[%En Hp]". rw En Z.gtb_ltb.
  pose proof (parse_list_byte _ _ _ Hv Ho) as Hb. destruct (0 <? zlen l mod 256) eqn:Ec.
  - rw bool_decide_false; [|by intros ->]. cbn [negb andb]. wp_seq. wp_seq.
    iApply (wp_rules with "Hp"); [done..|]. iIntros (en c1 c2 k) "%Hw Hp Hk". wp_value.
    wp_seq. iApply (wp_erase_list with "Hp"). wp_value.
    replace (error_at en e) with (error_if (bool_decide (en ≠ RulesDone)) e) by (by destruct en).
    iApply ("HΦ" $! (_, _) (bool_decide (en ≠ RulesDone)) k with "[] Ha Hk"). iPureIntro.
    intros Hnf. rw (Hw Hnf) -conclude_validated. reflexivity.
  - rw andb_false_r. wp_seq. wp_seq. iApply wp_report. wp_value. wp_seq.
    iApply (wp_erase_list with "Hp"). wp_value.
    iApply ("HΦ" $! (false, d) true [] with "[//] Ha"). by rw /lost.
Qed.
End operators.

Lemma rat_check_ok (nf : bool) (d : profile_data) (r : ptr) (rat : list Z) (e : LPA_API_ERROR) :
  valid_profile d → Forall is_byte rat → delimited rat → 4 < zlen rat → hasPPR1 d || hasPPR2 d = true →
  triple nf (raw r rat) (_checkIncomingProfilePPRattributesVersusRAT d r) e
    (λ a e', raw r rat ∗ ∃ k, lost k ∗
       ⟦(a.1 = false → performCancelSession a.2 = true) ∧
        (nf = true → ∃ err, (a.1, a.2, err, k) = rat_result d rat ∧ e' = error_if err e)⟧)%I.
Proof.
  intros Hd Hb Hdel Hlen Hppr. iIntros "Hr". iDestruct "Hr" as (lr q) "(-> & Hl & Hq)".
  wp_seq. cbn [isNull]. wp_seq. iApply (wp_load_raw with "Hl"). iIntros "Hl". wp_value. wp_seq.
  iApply (wp_wand _ _ _ (λ x e', raw (Some lr) rat ∗ ∃ k, lost k ∗
    ⟦nf = true → ∃ err, (x.1, conclude x, err, k) = rat_result d rat ∧ e' = error_if err e⟧)%I with "[Hl Hq]").
  2: { iIntros ([res d'] e') "[Hr (%k & Hk & %Hx)]". wp_value. cbn [fst snd]. iFrame "Hr". iExists k. iFrame "Hk".
       iPureIntro. split; [intros ->; done|]. intros Hnf. destruct (Hx Hnf) as (err & E & ->).
       exists err. by rw -E /conclude. }
  rw Hppr (_ : (zlen rat >? 4) = true); [|lia].
  wp_seq. iApply (wp_load_raw with "Hl"). iIntros "Hl".
  destruct q as [q|]; cbn [buf isNull]; [|by iDestruct "Hq" as %->].
  iDestruct "Hq" as "[%Hne Hq]". wp_seq. wp_seq. iApply (wp_load_bytes with "Hq"). iIntros "Hq". wp_value.
  iAssert (raw (Some lr) rat) with "[Hl Hq]" as "Hr"; [iExists lr, (Some q); by iFrame|].
  wp_seq. iApply extractTag16_spec; [done|]. iIntros (p) "Hp".
  iDestruct (find_post_maybe with "Hp") as (r1) "[%H1 Hp]".
  iDestruct (maybe_null with "Hp") as "[%En Hp]". rw En.
  assert (nf = true → r1 = (first_tag EUICC_RAT_TAG rat).2) as Hr1 by (intros ->; by apply chosen_nf).
  destruct r1 as [v1|]; cbn [present negb maybe_tlv].
  2: { iDestruct "Hp" as "_". wp_seq. iApply wp_report. wp_value. iFrame "Hr". iExists [].
       iSplitR; [by rw /lost|].
       iPureIntro. intros Hnf. exists true. by rw /rat_result -Hr1. }
  destruct H1 as [E1|[_ E1]]; [|done].
  assert (Forall is_byte v1) as Hv1 by by apply (first_tag_byte EUICC_RAT_TAG rat).
  wp_seq. iApply (wp_extractTag_of with "Hp"); [done..|]. iIntros (p2 r2) "%H2 Hp Hp2".
  iDestruct (maybe_null with "Hp2") as "[%En2 Hp2]". rw En2. clear En En2.
  assert (nf = true → r2 = (first_tag 0xA0 v1).2) as Hr2 by (intros ->; by apply chosen_nf).
  destruct r2 as [v2|]; cbn [present negb maybe_tlv].
  2: { iDestruct "Hp2" as "_". wp_seq. wp_seq. iApply wp_report. wp_value. wp_seq. iApply (wp_erase _ _ _ (Some v1) with "[Hp]"); [done|].
       wp_value. iFrame "Hr". iExists []. iSplitR; [by rw /lost|].
       iPureIntro. intros Hnf. exists true. by rw /rat_result -Hr1 //= -Hr2. }
  destruct H2 as [E2|[_ E2]]; [|done].
  assert (Forall is_byte v2) as Hv2 by by apply (first_tag_byte 0xA0 v1).
  assert (rat_result d rat = rules_result d v2) as Erat by (by rw /rat_result -E1 /= -E2).
  destruct (Hdel v2) as (l & Hl & Hrules); [by rw -E1 /= -E2|].
  wp_seq. wp_seq. iApply (wp_check_rules with "Hp2"); [done|done|exact Hl| |].
  { intros w Hw ops. by apply Hrules. }
  iIntros (x err k) "%Hx Hp2 Hk". wp_seq. iApply (wp_erase _ _ _ (Some v2) with "[Hp2]"); [done|]. wp_value.
  wp_seq. iApply (wp_erase _ _ _ (Some v1) with "[Hp]"); [done|]. wp_value. iFrame "Hr". iExists k. iFrame "Hk".
  iPureIntro. intros Hnf. exists err. by rw Erat Hx.
Qed.

(** ** Properties *)

(** C25: The check against the rules access table (functional, refinement of the
    reference decision on the bytes of the table): for every table whose lists
    end with their last element, valid or not, and whatever allocations fail,
    the check reads only inside of its objects, terminates, and cancels the
    session when it fails; when no allocation fails its result, its decisions
    and the error it reports are those of the reference, and what stays
    allocated are exactly the objects of operators that were overwritten by
    those of the next operator, which the reference lists. *)
Theorem rat_checked (nf : bool) (d : profile_data) (r : ptr) (rat : list Z) (e : LPA_API_ERROR) :
  valid_profile d → Forall is_byte rat → delimited rat → 4 < zlen rat → hasPPR1 d || hasPPR2 d = true →
  triple nf (raw r rat) (_checkIncomingProfilePPRattributesVersusRAT d r) e
    (λ a e', raw r rat ∗ ∃ k, lost k ∗
       ⟦(a.1 = false → performCancelSession a.2 = true) ∧
        (nf = true → ∃ err, (a.1, a.2, err, k) = rat_result d rat ∧ e' = error_if err e)⟧)%I.
Proof. apply rat_check_ok. Qed.

(** Two rules: one of the operator 001-01 for PPR1 with consent, one of every
    operator for both policies. *)
Definition sample_rat : list Z :=
  [0xBF; 0x43; 0x2C; 0xA0; 0x2A;
   0x30; 0x13; 0x80; 2; 0x06; 0x40; 0xA1; 9; 0x30; 7; 0x80; 3; 0x00; 0xF1; 0x10; 0x81; 0; 0x82; 2; 0x07; 0x80;
   0x30; 0x13; 0x80; 2; 0x05; 0x60; 0xA1; 10; 0x30; 8; 0x80; 3; 0xEE; 0xEE; 0xEE; 0x81; 1; 7; 0x82; 1; 0].

Definition sample_incoming : profile_data :=
  decide_profile (sample_profile true false [0x00; 0xF1; 0x10] []) 0 false 0.

Lemma rat_checked_witness :
  4 < zlen sample_rat ∧ hasPPR1 sample_incoming || hasPPR2 sample_incoming = true ∧
  triple true (raw (Some 1%positive) sample_rat)
    (_checkIncomingProfilePPRattributesVersusRAT sample_incoming (Some 1%positive)) LPA_NO_ERROR
    (λ a e', raw (Some 1%positive) sample_rat ∗ ∃ k, lost k ∗
       ⟦(a.1 = false → performCancelSession a.2 = true) ∧
        (true = true → ∃ err, (a.1, a.2, err, k) = rat_result sample_incoming sample_rat ∧
           e' = error_if err LPA_NO_ERROR)⟧)%I.
Proof.
  split; [done|split; [done|]]. apply rat_checked; [| | |done|done].
  - rw /valid_profile. split_and!; [|done..]. repeat constructor; rw /is_byte; lia.
  - repeat constructor; rw /is_byte; lia.
  - intros v Hv. vm_compute in Hv. injection Hv as <-. eexists. split; [vm_compute; reflexivity|].
    intros w ops Hin. rw !elem_of_cons in Hin.
    destruct Hin as [[= ->]|[[= ->]|Hin%elem_of_nil]]; [..|done];
      intros Hops; vm_compute in Hops; injection Hops as <-; by eexists.
Defined.
