(* ===== verification/Policy.v ===== *)
(** * The policy a rules access table expresses

    A table as the operator that provisions the eUICC means it, its encoding,
    and the decision it implies for a profile. The check of Rat.v, run on the
    encoding, takes that decision. *)

From iris.bi Require Import bi.
From iris.proofmode Require Import proofmode.
From S2P Require Import Prelude Util ApiError ProfileInfo Heap Wp RawData BerTlv TlvWalk Ppr Rat.

(** ** Tables *)

Record operator := Operator {
  op_mcc_mnc : list Z;             (** three bytes, with wildcards *)
  op_gid1 : option (list Z);
  op_gid2 : option (list Z)
}.

Record rule := Rule {
  rule_policies : list Z;          (** the bit string of the policies *)
  rule_operators : list operator;
  rule_consent : bool              (** the user has to consent *)
}.

(** ** Encoding *)

Definition opt_tlv (tag : Z) (v : option (list Z)) : list (Z * list Z) :=
  match v with Some v => [(tag, v)] | None => [] end.

Definition operator_objects (o : operator) : list (Z * list Z) :=
  (0x80, op_mcc_mnc o) :: opt_tlv 0x81 (op_gid1 o) ++ opt_tlv 0x82 (op_gid2 o).
Definition operator_tlv (o : operator) : Z * list Z := (0x30, tlvs_bytes (operator_objects o)).

Definition rule_fields (r : rule) : list (Z * list Z) :=
  [(0x80, rule_policies r); (0xA1, tlvs_bytes (map operator_tlv (rule_operators r)));
   (0x82, if rule_consent r then [0x07; 0x80] else [0])].
Definition rule_tlv (r : rule) : Z * list Z := (0x30, tlvs_bytes (rule_fields r)).

Definition table_objects (rules : list rule) : list (Z * list Z) :=
  [(0xA0, tlvs_bytes (map rule_tlv rules))].
Definition rat_bytes (rules : list rule) : list Z :=
  tlvs_bytes [(EUICC_RAT_TAG, tlvs_bytes (table_objects rules))].

(** The size of the buffer a table is read into. *)

Definition valid_operator (o : operator) : Prop :=
  Forall is_byte (op_mcc_mnc o) ∧ zlen (op_mcc_mnc o) = 3 ∧
  Forall (λ a, operator_digit a = true) (digits (op_mcc_mnc o)) ∧
  (∀ v, op_gid1 o = Some v → Forall is_byte v) ∧ (∀ v, op_gid2 o = Some v → Forall is_byte v).

Definition valid_rule (r : rule) : Prop :=
  Forall is_byte (rule_policies r) ∧ zlen (rule_policies r) = 2 ∧
  rule_operators r ≠ [] ∧ Forall valid_operator (rule_operators r).

Definition valid_table (rules : list rule) : Prop :=
  Forall valid_rule rules ∧ zlen (rat_bytes rules) <= LPA_RAT_MAXIMUM_SIZE.

(** ** Decision *)

(** An operator that covers the profile: how many digits of the code it fixes,
    how many group identifiers it matches exactly, and whether its rule asks for
    consent. *)
Definition covers (d : profile_data) (consent : bool) (o : operator) : option (Z * Z * bool) :=
  match operator_match (op_mcc_mnc o) (mccMnc d), gid1_verdict d (op_gid1 o), gid2_verdict d (op_gid2 o) with
  | Some (Some level), Some (_, p1), Some (_, p2) => Some (level, p1 + p2, consent)
  | _, _, _ => None
  end.

(** The operators of the rules on a policy that cover the profile, in order. *)
Definition covering (d : profile_data) (policy : list Z → bool) (rules : list rule) : list (Z * Z * bool) :=
  concat (map (λ r, if policy (rule_policies r)
                    then omap (covers d (rule_consent r)) (rule_operators r) else []) rules).

(** The one that decides: each replaces the one before unless one of its levels
    is lower. *)
Definition pick (best : option (Z * Z * bool)) (x : Z * Z * bool) : option (Z * Z * bool) :=
  match best with
  | Some (l, g, _) => if (l <=? x.1.1) && (g <=? x.1.2) then Some x else best
  | None => Some x
  end.
Definition deciding (l : list (Z * Z * bool)) : option (Z * Z * bool) := foldl pick None l.

Definition asks_consent (b : option (Z * Z * bool)) : bool :=
  match b with Some (_, _, c) => c | None => false end.

(** The session is cancelled when a policy of the profile is covered by no
    operator; otherwise the user is asked to consent to the policies whose
    deciding rule wants it. *)
Definition policy_decision (d : profile_data) (rules : list rule) : profile_data :=
  let c1 := if hasPPR1 d then covering d has_ppr1 rules else [] in
  let c2 := if hasPPR2 d then covering d has_ppr2 rules else [] in
  if performCancelSession d || (hasPPR1 d && bool_decide (c1 = [])) || (hasPPR2 d && bool_decide (c2 = []))
  then cancelled d
  else set_userCallBackType d
         (Z.lor (Z.lor (userCallBackType d) (if asks_consent (deciding c1) then LPA_USR_CONSENT_PPR1 else 0))
                (if asks_consent (deciding c2) then LPA_USR_CONSENT_PPR2 else 0)).

(** How many country and network codes a rule loses: all but the last, for every
    policy it is analysed for. *)
Definition codes_lost (d : profile_data) (r : rule) : nat :=
  ((if has_ppr1 (rule_policies r) && hasPPR1 d then length (rule_operators r) - 1 else 0) +
   (if has_ppr2 (rule_policies r) && hasPPR2 d then length (rule_operators r) - 1 else 0))%nat.

Definition codes (l : list (Z * list Z)) : nat := length (filter (λ tv, tv.1 = 0x80) l).

(** ** Sizes *)

Lemma tlv_bytes_zlen t v :
  zlen (tlv_bytes t v) = (if negb (Z.land t 0xFF00 =? 0) then 2 else 1) + zlen (ber_length (zlen v)) + zlen v.
Proof. rw /tlv_bytes !zlen_app tag_bytes_zlen. lia. Qed.

Lemma tlv_bytes_size t v : zlen v + 2 <= zlen (tlv_bytes t v).
Proof. rw tlv_bytes_zlen. pose proof (ber_length_bounds (zlen v)). destruct (negb _); lia. Qed.

Lemma tlvs_bytes_zlen t v tvs : zlen (tlvs_bytes ((t, v) :: tvs)) = zlen (tlv_bytes t v) + zlen (tlvs_bytes tvs).
Proof. by rw /tlvs_bytes /= zlen_app. Qed.

Lemma value_size t v tvs : (t, v) ∈ tvs → zlen v + 2 <= zlen (tlvs_bytes tvs).
Proof.
  induction tvs as [|[t' v'] tvs IH]; [by intros H%elem_of_nil|].
  rw tlvs_bytes_zlen elem_of_cons. pose proof (tlv_bytes_size t' v'). intros [[= -> ->]|H'].
  - zlen_pos. lia.
  - specialize (IH H'). zlen_pos. lia.
Qed.

(** Objects of at least [k] bytes are few. *)
Lemma objects_count k tvs : Forall (λ tv, k <= zlen tv.2) tvs → zlen tvs * (k + 2) <= zlen (tlvs_bytes tvs).
Proof.
  induction 1 as [|[t v] tvs Hk _ IH]; [done|]. cbn [snd] in Hk.
  rw tlvs_bytes_zlen zlen_cons. pose proof (tlv_bytes_size t v). lia.
Qed.

Abbreviation max_size := 1024 (only parsing).

Definition sane (tv : Z * list Z) : Prop := valid_tag tv.1 ∧ Forall is_byte tv.2.

Lemma valid_objects tvs : Forall sane tvs → zlen (tlvs_bytes tvs) <= max_size → Forall valid_tlv tvs.
Proof.
  intros H Hs. apply Forall_forall. intros [t v] Hin. rw Forall_forall in H. destruct (H _ Hin) as [Ht Hb].
  split; [done|split; [|done]]. pose proof (value_size _ _ _ Hin). cbn [snd]. pows. lia.
Qed.

Lemma tag_simple t : 0 <= t < 256 → is_two_bytes_tag t = false → valid_tag t.
Proof. intros. by left. Qed.
#[local] Hint Resolve tag_simple : core.

Lemma opt_tlv_sane t v : valid_tag t → (∀ w, v = Some w → Forall is_byte w) → Forall sane (opt_tlv t v).
Proof. intros Ht Hv. destruct v as [w|]; [|done]. apply Forall_singleton. split; [done|by apply Hv]. Qed.

(** ** Parsing the encodings *)

Lemma operator_parsed o : valid_operator o → zlen (operator_tlv o).2 <= max_size →
  Forall valid_tlv (operator_objects o) ∧
  (first_tag 0x80 (operator_tlv o).2).2 = Some (op_mcc_mnc o) ∧
  (first_tag 0x81 (operator_tlv o).2).2 = op_gid1 o ∧
  (first_tag 0x82 (operator_tlv o).2).2 = op_gid2 o.
Proof.
  intros (Hm & Hml & _ & H1 & H2) Hs. cbn [operator_tlv snd] in *.
  assert (Forall valid_tlv (operator_objects o)) as Hv.
  { apply valid_objects; [|done]. constructor; [by split; [apply tag_simple|]|].
    apply Forall_app. split; apply opt_tlv_sane; auto; by apply tag_simple. }
  split; [done|]. rw !first_tag_tlvs // /operator_objects. destruct (op_gid1 o), (op_gid2 o); split_and!; reflexivity.
Qed.

Lemma operators_parsed ops : Forall valid_operator ops → zlen (tlvs_bytes (map operator_tlv ops)) <= max_size →
  Forall valid_tlv (map operator_tlv ops) ∧ Forall (λ o, zlen (operator_tlv o).2 <= max_size) ops ∧
  0 <= zlen ops < 256.
Proof.
  intros Hv Hs.
  assert (Forall (λ o, zlen (operator_tlv o).2 <= max_size) ops) as Hz.
  { apply Forall_forall. intros o Ho.
    pose proof (value_size 0x30 _ _ (list_elem_of_fmap_2 operator_tlv _ _ Ho)) as H.
    change (operator_tlv <$> ops) with (map operator_tlv ops) in H. cbn [operator_tlv snd] in *. lia. }
  split; [|split; [done|]].
  - apply valid_objects; [|done]. apply Forall_map, Forall_forall. intros o Ho.
    destruct (operator_parsed o) as [H _]; [by apply (proj1 (Forall_forall _ _) Hv)|by apply (proj1 (Forall_forall _ _) Hz)|].
    split; [by apply tag_simple|by apply tlvs_bytes_byte].
  - assert (Forall (λ tv, 5 <= zlen tv.2) (map operator_tlv ops)) as H5.
    { apply Forall_map. eapply Forall_impl; [exact Hv|]. intros o (_ & Hml & _). cbn [operator_tlv snd].
      assert ((0x80, op_mcc_mnc o) ∈ operator_objects o) as H by by left.
      apply value_size in H. lia. }
    apply objects_count in H5. rw (zlen_fmap operator_tlv) in H5. zlen_pos. lia.
Qed.

Lemma rule_parsed r : valid_rule r → zlen (rule_tlv r).2 <= max_size →
  Forall valid_tlv (rule_fields r) ∧
  rule_objects (rule_tlv r).2 =
    Some (rule_policies r, tlvs_bytes (map operator_tlv (rule_operators r)), rule_consent r) ∧
  (first_tag 0xA1 (rule_tlv r).2).2 = Some (tlvs_bytes (map operator_tlv (rule_operators r))) ∧
  zlen (tlvs_bytes (map operator_tlv (rule_operators r))) <= max_size.
Proof.
  intros (Hp & Hpl & Hne & Ho) Hs. cbn [rule_tlv snd] in *. set (ops := tlvs_bytes (map operator_tlv _)).
  assert ((0xA1, ops) ∈ rule_fields r) as Hin by (right; by left).
  apply value_size in Hin. assert (zlen ops <= max_size) as Hos by lia.
  destruct (operators_parsed _ Ho Hos) as (Hv & _ & Hn).
  assert (Forall valid_tlv (rule_fields r)) as Hf.
  { apply valid_objects; [|done]. repeat (apply Forall_cons; split); [..|by apply Forall_nil];
      (split; [by apply tag_simple|cbn [snd]]); [done|by apply tlvs_bytes_byte|].
    destruct (rule_consent r); repeat constructor; rw /is_byte; lia. }
  split; [done|]. rw /rule_objects !first_tag_tlvs // /rule_fields.
  split; [|split; [reflexivity|done]].
  change (_ ≫= _) with
    (if (zlen (rule_policies r) =? 2) && (7 <=? zlen ops)
     then c ← consent_of (if rule_consent r then [0x07; 0x80] else [0]); Some (rule_policies r, ops, c) else None).
  assert (7 <= zlen ops) as H7.
  { rw /ops. destruct (rule_operators r) as [|o l]; [done|]. cbn [List.map]. rw /operator_tlv tlvs_bytes_zlen.
    pose proof (tlv_bytes_size 0x30 (tlvs_bytes (operator_objects o))).
    assert ((0x80, op_mcc_mnc o) ∈ operator_objects o) as H0 by by left. apply value_size in H0.
    apply Forall_cons in Ho as [(_ & Hml & _) _]. zlen_pos. lia. }
  rw (_ : _ && _ = true); [|lia]. by destruct (rule_consent r).
Qed.

(** ** The operators of a rule *)

Section decisions.
Context (d : profile_data) (Hdig : Forall (λ p, profile_digit p = true) (digits (mccMnc d))).

Definition keep (consent : bool) (fl : flags) (o : operator) : flags :=
  match operator_match (op_mcc_mnc o) (mccMnc d) with
  | Some (Some level) => better d consent level (op_gid1 o) (op_gid2 o) fl
  | _ => fl
  end.

Lemma compare_valid op prof :
  Forall (λ a, operator_digit a = true) op → Forall (λ p, profile_digit p = true) prof →
  ∃ c, compare_digits op prof = Some c ∧ ∀ level, c = Some level → 0 <= level.
Proof.
  intros Ho. revert prof. induction Ho as [|a op Ha Ho IH]; intros prof Hp; cbn [compare_digits].
  { eexists. split; [done|]. by intros level [= <-]. }
  destruct Hp as [|p prof Hp Hps]; [eexists; split; [done|]; by intros level [= <-]|].
  rw Ha Hp. cbn [andb]. destruct (IH prof Hps) as (c & -> & Hc).
  destruct (a =? wildcard); [by exists c|]. destruct (a =? p); [|by exists None].
  eexists. split; [done|]. destruct c as [m|]; [|done]. intros level [= <-]. specialize (Hc m eq_refl). lia.
Qed.

Lemma codes_app l k : codes (l ++ k) = (codes l + codes k)%nat.
Proof. by rw /codes filter_app length_app. Qed.

Lemma codes_overwritten t r : codes (overwritten t r) = if t =? 0x80 then if present r then 1%nat else 0%nat else 0%nat.
Proof.
  destruct r as [v|]; cbn [overwritten present]; [|by destruct (t =? 0x80)].
  rw /codes filter_cons. cbn [fst]. by destruct (Z.eqb_spec t 0x80); case_decide.
Qed.

Lemma operators_walk_ok consent ops : ∀ s,
  Forall valid_operator ops → Forall (λ o, zlen (operator_tlv o).2 <= max_size) ops → w_res s = true →
  let s' := operators_walk d consent (map operator_tlv ops) s in
  w_res s' = true ∧ w_flags s' = foldl (keep consent) (w_flags s) ops ∧
  codes (w_lost s') = (codes (w_lost s) + (if present (w_mcc s) then length ops else length ops - 1))%nat.
Proof.
  induction ops as [|o ops IH]; intros s Hv Hz Hr; cbn zeta.
  { cbn. rw Hr. split_and!; [done..|]. destruct (present _); lia. }
  apply Forall_cons in Hv as [Ho Hv]. apply Forall_cons in Hz as [Hoz Hz].
  destruct (operator_parsed o Ho Hoz) as (_ & E1 & E2 & E3). destruct Ho as (_ & Hml & Hdo & _).
  cbn [List.map operators_walk foldl operator_tlv snd] in *. rw E1 E2 E3.
  rw /operator_step Hml !Z.eqb_refl.
  rw /keep /operator_match.
  destruct (compare_valid _ _ Hdo Hdig) as ([level|] & -> & _); cbn [w_res]; rw Hr;
    match goal with |- context [operators_walk _ _ (List.map _ _) ?s1] => set (s' := s1) end;
    destruct (IH s' Hv Hz eq_refl) as (I1 & I2 & I3).
  all: split; [exact I1|split; [exact I2|]]; rw I3; cbn [length w_mcc w_lost present s'];
    rw !codes_app !codes_overwritten; cbn [Z.eqb Pos.eqb]; destruct (present (w_mcc s)); lia.
Qed.

Lemma operators_result_ok consent ops fl :
  ops ≠ [] → Forall valid_operator ops → zlen (tlvs_bytes (map operator_tlv ops)) <= max_size →
  ∃ k, operators_result d consent (tlvs_bytes (map operator_tlv ops)) fl =
    (true, foldl (keep consent) fl ops, k) ∧ codes k = (length ops - 1)%nat.
Proof.
  intros Hne Hv Hs. destruct (operators_parsed ops Hv Hs) as (Ht & Hz & Hn).
  rw /operators_result objects_tlvs //. cbn [default from_option id]. rw (zlen_fmap operator_tlv).
  rw Z.mod_small //. rw (_ : (0 <? zlen ops) = true); [|destruct ops; [done|rw zlen_cons; zlen_pos; lia]].
  destruct (operators_walk_ok consent ops (Walked None None None fl true []) Hv Hz eq_refl) as (-> & -> & H).
  eexists. by split.
Qed.

(** ** The deciding operator *)

(** The flags record the deciding operator. *)
Definition represents (fl : flags) (b : option (Z * Z * bool)) : Prop :=
  match b with
  | None => pprValidated fl = false ∧ matchLevelMCC_MNC fl = 0 ∧ matchLevelGID fl = 0
  | Some (l, g, c) =>
      pprValidated fl = true ∧ matchLevelMCC_MNC fl = l ∧ matchLevelGID fl = g ∧ userConsentRequired fl = c
  end.

Lemma gid_verdict_nonneg r def gid m p : gid_verdict r def gid = Some (m, p) → 0 <= p.
Proof.
  rw /gid_verdict. destruct r as [[|x v]|]; [by intros [= <- <-]| |].
  - case_decide; [|done]. by intros [= <- <-].
  - destruct def; [done|]. by intros [= <- <-].
Qed.

Lemma keep_ok consent fl b o : valid_operator o → represents fl b →
  represents (keep consent fl o) (foldl pick b (omap (covers d consent) [o])).
Proof.
  intros (_ & _ & Ho & _) Hb. rw /keep /covers /=. rw /operator_match.
  destruct (compare_valid _ _ Ho Hdig) as ([level|] & E & Hl); rw /operator_match E; [|done].
  specialize (Hl level eq_refl). rw /better.
  destruct (gid1_verdict d (op_gid1 o)) as [[m1 p1]|] eqn:E1; [|done].
  destruct (gid2_verdict d (op_gid2 o)) as [[m2 p2]|] eqn:E2; [|done].
  apply gid_verdict_nonneg in E1, E2. destruct b as [[[l g] c]|]; cbn [represents foldl pick fst snd] in *.
  - destruct Hb as (H1 & H2 & H3 & H4). rw H2 H3. by destruct (_ && _).
  - destruct Hb as (H1 & H2 & H3). rw H2 H3. rw (_ : _ && _ = true); [done|lia].
Qed.

Lemma keeps_ok consent ops : ∀ fl b, Forall valid_operator ops → represents fl b →
  represents (foldl (keep consent) fl ops) (foldl pick b (omap (covers d consent) ops)).
Proof.
  induction ops as [|o ops IH]; intros fl b Hv Hb; [done|]. apply Forall_cons in Hv as [Ho Hv].
  change (omap (covers d consent) (o :: ops)) with
    (match covers d consent o with Some x => x :: omap (covers d consent) ops | None => omap (covers d consent) ops end).
  pose proof (keep_ok consent fl b o Ho Hb) as H. cbn [foldl] in *. cbn in H.
  destruct (covers d consent o) as [x|]; cbn [foldl] in *; by apply IH.
Qed.

Lemma foldl_pick_some l : ∀ x, ∃ y, foldl pick (Some x) l = Some y.
Proof.
  induction l as [|x l IH]; intros [[a b] c]; [by eexists|]. cbn [foldl pick].
  destruct (_ && _); apply IH.
Qed.

Lemma deciding_none l : deciding l = None ↔ l = [].
Proof.
  split; [|by intros ->]. destruct l as [|x l]; [done|]. rw /deciding. cbn [foldl pick].
  by destruct (foldl_pick_some l x) as [y ->].
Qed.

(** ** The rules *)

Lemma rule_decision_ok r c1 c2 : valid_rule r → zlen (rule_tlv r).2 <= max_size →
  let ops := rule_operators r in
  ∃ k, rule_result d (rule_tlv r).2 c1 c2 =
    (true, if has_ppr1 (rule_policies r) && hasPPR1 d then foldl (keep (rule_consent r)) c1 ops else c1,
           if has_ppr2 (rule_policies r) && hasPPR2 d then foldl (keep (rule_consent r)) c2 ops else c2, k) ∧
    codes k = codes_lost d r.
Proof.
  intros Hr Hs. cbn zeta. destruct (rule_parsed r Hr Hs) as (_ & E & _ & Hos). destruct Hr as (_ & _ & Hne & Hv).
  rw /rule_result E /rule_decision /codes_lost.
  destruct (operators_result_ok (rule_consent r) (rule_operators r) c1) as (k1 & -> & Hk1); [done..|].
  destruct (operators_result_ok (rule_consent r) (rule_operators r) c2) as (k2 & -> & Hk2); [done..|].
  destruct (has_ppr1 _ && _); cbn [andb]; destruct (has_ppr2 _ && _); (eexists; split; [reflexivity|]);
    rw codes_app ?Hk1 ?Hk2; cbn; lia.
Qed.

(** What the rules from [b] on decide for a policy of the profile. *)
Definition decided (has : bool) (policy : list Z → bool) (rules : list rule) (b : option (Z * Z * bool)) :=
  if has then foldl pick b (covering d policy rules) else b.

Lemma decided_cons has policy r rules b :
  decided has policy (r :: rules) b =
  decided has policy rules
    (if policy (rule_policies r) && has then foldl pick b (omap (covers d (rule_consent r)) (rule_operators r)) else b).
Proof.
  rw /decided. destruct has; [|by rw andb_false_r]. rw andb_true_r.
  rw {1}/covering. cbn [List.map concat]. rw foldl_app. by destruct (policy _).
Qed.

Lemma rules_walk_ok rules : ∀ c1 c2 k0 b1 b2,
  Forall valid_rule rules → Forall (λ r, zlen (rule_tlv r).2 <= max_size) rules →
  represents c1 b1 → represents c2 b2 →
  ∃ c1' c2' k, rules_walk d (map rule_tlv rules) c1 c2 k0 = (RulesDone, c1', c2', k) ∧
    represents c1' (decided (hasPPR1 d) has_ppr1 rules b1) ∧
    represents c2' (decided (hasPPR2 d) has_ppr2 rules b2) ∧
    codes k = (codes k0 + sum_list (map (codes_lost d) rules))%nat.
Proof.
  induction rules as [|r rules IH]; intros c1 c2 k0 b1 b2 Hv Hs H1 H2.
  { exists c1, c2, k0. rw /decided. split_and!; [done| | |cbn; lia]; by destruct (hasPPR1 d), (hasPPR2 d). }
  apply Forall_cons in Hv as [Hr Hv]. apply Forall_cons in Hs as [Hrs Hs].
  destruct (rule_decision_ok r c1 c2 Hr Hrs) as (k & E & Hk). destruct Hr as (_ & _ & _ & Ho).
  cbn [List.map rules_walk rule_tlv snd] in *. rw Z.eqb_refl E !decided_cons.
  assert (represents (if has_ppr1 (rule_policies r) && hasPPR1 d then foldl (keep (rule_consent r)) c1 (rule_operators r) else c1)
    (if has_ppr1 (rule_policies r) && hasPPR1 d then foldl pick b1 (omap (covers d (rule_consent r)) (rule_operators r)) else b1))
    as R1 by (destruct (has_ppr1 _ && _); [by apply keeps_ok|done]).
  assert (represents (if has_ppr2 (rule_policies r) && hasPPR2 d then foldl (keep (rule_consent r)) c2 (rule_operators r) else c2)
    (if has_ppr2 (rule_policies r) && hasPPR2 d then foldl pick b2 (omap (covers d (rule_consent r)) (rule_operators r)) else b2))
    as R2 by (destruct (has_ppr2 _ && _); [by apply keeps_ok|done]).
  destruct (IH _ _ (k0 ++ k) _ _ Hv Hs R1 R2) as (c1' & c2' & k' & E' & H1' & H2' & Hk').
  exists c1', c2', k'. split_and!; [exact E'|exact H1'|exact H2'|]. rw Hk' codes_app Hk. simpl. lia.
Qed.
End decisions.

(** ** The table *)

Lemma table_parsed rules : valid_table rules →
  Forall is_byte (rat_bytes rules) ∧
  (first_tag EUICC_RAT_TAG (rat_bytes rules)).2 = Some (tlvs_bytes (table_objects rules)) ∧
  (first_tag 0xA0 (tlvs_bytes (table_objects rules))).2 = Some (tlvs_bytes (map rule_tlv rules)) ∧
  Forall valid_tlv (map rule_tlv rules) ∧ Forall (λ r, zlen (rule_tlv r).2 <= max_size) rules ∧
  zlen rules < 256.
Proof.
  intros [Hv Hs]. rw /LPA_RAT_MAXIMUM_SIZE in Hs.
  assert (zlen (tlvs_bytes (table_objects rules)) + 2 <= zlen (rat_bytes rules)) as H1.
  { by apply (value_size EUICC_RAT_TAG); left. }
  assert (zlen (tlvs_bytes (map rule_tlv rules)) + 2 <= zlen (tlvs_bytes (table_objects rules))) as H2.
  { by apply (value_size 0xA0); left. }
  assert (Forall (λ r, zlen (rule_tlv r).2 <= max_size) rules) as Hz.
  { apply Forall_forall. intros r Hr. pose proof (value_size 0x30 _ _ (list_elem_of_fmap_2 rule_tlv _ _ Hr)) as H.
    change (rule_tlv <$> rules) with (map rule_tlv rules) in H. cbn [rule_tlv snd] in *. lia. }
  assert (Forall valid_tlv (map rule_tlv rules)) as Ht.
  { apply valid_objects; [|lia]. apply Forall_map, Forall_forall. intros r Hr.
    destruct (rule_parsed r) as [H _];
      [by apply (proj1 (Forall_forall _ _) Hv)|by apply (proj1 (Forall_forall _ _) Hz)|].
    split; [by apply tag_simple|by apply tlvs_bytes_byte]. }
  assert (Forall valid_tlv (table_objects rules)) as Ho.
  { apply valid_objects; [|lia]. apply Forall_singleton. split; [by apply tag_simple|by apply tlvs_bytes_byte]. }
  assert (Forall valid_tlv [(EUICC_RAT_TAG, tlvs_bytes (table_objects rules))]) as Hm.
  { apply valid_objects; [|done]. apply Forall_singleton. split; [by right|by apply tlvs_bytes_byte]. }
  rw !first_tag_tlvs //. split_and!; [by apply tlvs_bytes_byte|reflexivity|reflexivity|done..|].
  assert (Forall (λ tv, 4 <= zlen tv.2) (map rule_tlv rules)) as H4.
  { apply Forall_map. eapply Forall_impl; [exact Hv|]. intros r (_ & Hpl & _). cbn [rule_tlv snd].
    assert ((0x80, rule_policies r) ∈ rule_fields r) as H by by left. apply value_size in H. lia. }
  apply objects_count in H4. rw (zlen_fmap rule_tlv) in H4. zlen_pos. lia.
Qed.

Lemma decided_flags d has policy rules c :
  represents c (decided d has policy rules None) →
  let l := if has then covering d policy rules else [] in
  policy_refused has c = has && bool_decide (l = []) ∧ policy_consent has c = asks_consent (deciding l).
Proof.
  rw /decided /policy_refused /policy_consent. destruct has; cbn zeta; [|by cbn].
  fold (deciding (covering d policy rules)). pose proof (deciding_none (covering d policy rules)) as Hn.
  destruct (deciding _) as [[[l g] c']|]; cbn [represents asks_consent].
  - intros (-> & _ & _ & ->). rw bool_decide_false; [done|]. intros E. by apply Hn in E.
  - intros (-> & _). rw bool_decide_true; [done|by apply Hn].
Qed.

Lemma rules_result_ok d rules : valid_table rules → Forall (λ p, profile_digit p = true) (digits (mccMnc d)) →
  hasPPR1 d || hasPPR2 d = true →
  ∃ k, rat_result d (rat_bytes rules) = (true, policy_decision d rules, false, k) ∧
    codes k = sum_list (map (codes_lost d) rules).
Proof.
  intros Hv Hdig Hppr. destruct (table_parsed rules Hv) as (_ & E1 & E2 & Ht & Hz & Hn). destruct Hv as [Hv _].
  rw /rat_result E1 /= E2 /rules_result objects_tlvs //. cbn [default from_option id].
  rw (zlen_fmap rule_tlv). rw Z.mod_small; [|split; [apply zlen_nonneg|done]].
  destruct rules as [|r rules].
  { exists []. split; [|done]. case_decide; [|done]. rw /policy_decision /covering /=.
    destruct (hasPPR1 d), (hasPPR2 d); rw ?orb_true_r //. }
  assert (tlvs_bytes (map rule_tlv (r :: rules)) ≠ []) as Hne.
  { intros E. apply (f_equal zlen) in E. cbn [List.map] in E. rw /rule_tlv tlvs_bytes_zlen in E.
    pose proof (tlv_bytes_size 0x30 (tlvs_bytes (rule_fields r))). change (zlen []) with 0 in E. zlen_pos. lia. }
  case_decide; [done|]. rw (_ : (0 <? zlen (r :: rules)) = true); [|rw zlen_cons; zlen_pos; lia].
  destruct (rules_walk_ok d Hdig (r :: rules) no_flags no_flags [] None None Hv Hz) as (c1 & c2 & k & -> & H1 & H2 & Hk);
    [done..|].
  destruct (decided_flags _ _ _ _ _ H1) as [-> ->]. destruct (decided_flags _ _ _ _ _ H2) as [-> ->].
  exists k. by split.
Qed.

Lemma rat_bytes_delimited rules : valid_table rules → delimited (rat_bytes rules) ∧ 4 < zlen (rat_bytes rules).
Proof.
  intros H. destruct (table_parsed rules H) as (_ & E1 & E2 & Ht & Hz & _). destruct H as [Hv _]. split.
  - intros v Hf. rw E1 /= E2 in Hf. injection Hf as <-. exists (map rule_tlv rules).
    split; [by apply objects_tlvs|]. intros w ops Hin Hops.
    apply (list_elem_of_fmap_1 rule_tlv) in Hin as (r & Er & Hr).
    rw Forall_forall in Hv. pose proof (Hv r Hr) as Hvr. destruct (rule_parsed r) as (_ & _ & E & Hs); [done| |].
    { by apply (proj1 (Forall_forall _ _) Hz). }
    rw -Er /= in E. rw E in Hops. injection Hops as <-.
    destruct Hvr as (_ & _ & _ & Ho). destruct (operators_parsed _ Ho Hs) as (Hto & _).
    by rw objects_tlvs.
  - rw /rat_bytes tlvs_bytes_zlen tlv_bytes_zlen.
    pose proof (ber_length_bounds (zlen (tlvs_bytes (table_objects rules)))).
    assert (zlen (tlvs_bytes (map rule_tlv rules)) + 2 <= zlen (tlvs_bytes (table_objects rules))) as H2.
    { by apply (value_size 0xA0); left. }
    change (negb (Z.land EUICC_RAT_TAG 0xFF00 =? 0)) with true. cbn iota. zlen_pos. lia.
Qed.

(** ** Properties *)

(** The decision of the check on an encoded table, as the download uses it. *)
Lemma rat_decides (d : profile_data) (r : ptr) (rules : list rule) (e : LPA_API_ERROR) :
  valid_profile d → Forall (λ p, profile_digit p = true) (digits (mccMnc d)) →
  hasPPR1 d || hasPPR2 d = true → valid_table rules →
  triple true (raw r (rat_bytes rules)) (_checkIncomingProfilePPRattributesVersusRAT d r) e
    (λ a e', raw r (rat_bytes rules) ∗ ∃ k, lost k ∗
       ⟦a = (true, policy_decision d rules) ∧ e' = e ∧ codes k = sum_list (map (codes_lost d) rules)⟧)%I.
Proof.
  intros Hd Hdig Hppr Hv. destruct (rat_bytes_delimited rules Hv) as [Hdel Hlen].
  destruct (table_parsed rules Hv) as (Hb & _).
  destruct (rules_result_ok d rules Hv Hdig Hppr) as (k0 & E & Hk).
  iIntros "H". iPoseProof (rat_check_ok true d r (rat_bytes rules) e with "H") as "H"; [done..|].
  iApply (wp_wand with "H"). iIntros (a e') "[$ (%k & Hk & %H)]". destruct H as [_ H].
  destruct (H eq_refl) as (err & Ha & ->). rw E in Ha. injection Ha as Ha1 Ha2 -> ->.
  iExists k0. iFrame "Hk". iPureIntro. destruct a as [res d']. cbn in *. by subst.
Qed.

(** C19: The policy of a rules access table (refinement of the abstract policy):
    for every table of valid rules, encoded in at most the 1024 bytes the eUICC
    may answer, and every profile with a policy, the check takes the decision of
    the table: the session is cancelled exactly when a policy of the profile is
    named by no rule with an operator that covers the profile, and otherwise
    consent is asked for the policies whose deciding rule wants it; no error is
    reported. Of the country and network codes it extracts, all but the last of
    every analysis of a rule stay allocated. *)
Theorem rat_policy (d : profile_data) (r : ptr) (rules : list rule) (e : LPA_API_ERROR) :
  valid_profile d → Forall (λ p, profile_digit p = true) (digits (mccMnc d)) →
  hasPPR1 d || hasPPR2 d = true → valid_table rules →
  triple true (raw r (rat_bytes rules)) (_checkIncomingProfilePPRattributesVersusRAT d r) e
    (λ a e', raw r (rat_bytes rules) ∗ ∃ k, lost k ∗
       ⟦a = (true, policy_decision d rules) ∧ e' = e ∧ codes k = sum_list (map (codes_lost d) rules)⟧)%I.
Proof. apply rat_decides. Qed.

(** A rule for PPR1 on one operator, and a profile of that operator. *)
Definition sample_operator : operator := Operator [0x00; 0xF1; 0x10] (Some []) None.
Definition sample_rule (consent : bool) : rule := Rule [0x06; 0x40] [sample_operator] consent.

Lemma sample_table consent : valid_table [sample_rule consent].
Proof.
  split; [|destruct consent; vm_compute; discriminate]. apply Forall_singleton. rw /valid_rule /=.
  split_and!; [repeat constructor; rw /is_byte; lia|done|done|]. apply Forall_singleton.
  rw /valid_operator /=. split_and!; [repeat constructor; rw /is_byte; lia|done|repeat constructor| |done].
  by intros v [= <-].
Qed.

Lemma rat_policy_witness :
  (hasPPR1 sample_incoming || hasPPR2 sample_incoming = true ∧
   userCallBackType (policy_decision sample_incoming [sample_rule true]) = LPA_USR_CONSENT_PPR1 ∧
   performCancelSession (policy_decision sample_incoming [sample_rule true]) = false) ∧
  triple true (raw (Some 1%positive) (rat_bytes [sample_rule true]))
    (_checkIncomingProfilePPRattributesVersusRAT sample_incoming (Some 1%positive)) LPA_NO_ERROR
    (λ a e', raw (Some 1%positive) (rat_bytes [sample_rule true]) ∗ ∃ k, lost k ∗
       ⟦a = (true, policy_decision sample_incoming [sample_rule true]) ∧ e' = LPA_NO_ERROR ∧
        codes k = sum_list (map (codes_lost sample_incoming) [sample_rule true])⟧)%I.
Proof.
  split; [vm_compute; split_and!; reflexivity|]. apply rat_policy; [| |reflexivity|].
  - rw /valid_profile. split_and!; [|done..]. repeat constructor; rw /is_byte; lia.
  - repeat constructor.
  - apply sample_table.
Defined.

(** Of two rules of the same accuracy the later one decides, although the rule
    that wants consent is meant to have priority. *)
Lemma consent_overridden :
  userCallBackType (policy_decision sample_incoming [sample_rule true; sample_rule false]) = LPA_USR_CONSENT_DISABLED ∧
  userCallBackType (policy_decision sample_incoming [sample_rule false; sample_rule true]) = LPA_USR_CONSENT_PPR1.
Proof. by vm_compute. Qed.

(** An operator that fixes every digit is passed over when an earlier one, of
    wildcards only, matched a group identifier it leaves open. *)
Lemma accurate_code_ignored :
  userCallBackType (policy_decision sample_incoming
    [Rule [0x06; 0x40] [Operator [0xEE; 0xEE; 0xEE] None None] false; sample_rule true]) = LPA_USR_CONSENT_DISABLED.
Proof. by vm_compute. Qed.
