(* ===== verification/Metadata.v ===== *)
(** * The metadata of an incoming profile

    [_extractFieldsFromProfileMetadata] of [lpa_manager.c]: the fields of the
    profile that the policy checks of Ppr.v and Rat.v use, from the metadata
    the server sends. *)

From stdpp Require Import gmap.
From iris.bi Require Import bi.
From iris.proofmode Require Import proofmode.
From S2P Require Import Prelude CLib StateMonad ApiError ProfileInfo Heap Wp RawData BerTlv TlvWalk Ppr Rat.

Definition PROFILE_METADATA_TAG : Z := 0xBF25.

(** ** Code *)

Definition set_ppr (d : profile_data) (flag : Z) : profile_data :=
  ProfileData flag (_isPPR1definedInPPRflag flag) (_isPPR2definedInPPRflag flag) (mccMnc d) (gid1 d)
    (gid1Size d) (gid1Defined d) (gid2 d) (gid2Size d) (gid2Defined d) (profileName d)
    (userCallBackType d) (performCancelSession d) (cancelSessionReason d).
Definition set_mccMnc (d : profile_data) (b : list Z) : profile_data :=
  ProfileData (profilePPR d) (hasPPR1 d) (hasPPR2 d) b (gid1 d) (gid1Size d) (gid1Defined d)
    (gid2 d) (gid2Size d) (gid2Defined d) (profileName d)
    (userCallBackType d) (performCancelSession d) (cancelSessionReason d).
Definition set_gid1 (d : profile_data) (b : list Z) (n : Z) (defined : bool) : profile_data :=
  ProfileData (profilePPR d) (hasPPR1 d) (hasPPR2 d) (mccMnc d) b n defined
    (gid2 d) (gid2Size d) (gid2Defined d) (profileName d)
    (userCallBackType d) (performCancelSession d) (cancelSessionReason d).
Definition set_gid2 (d : profile_data) (b : list Z) (n : Z) (defined : bool) : profile_data :=
  ProfileData (profilePPR d) (hasPPR1 d) (hasPPR2 d) (mccMnc d) (gid1 d) (gid1Size d) (gid1Defined d)
    b n defined (profileName d)
    (userCallBackType d) (performCancelSession d) (cancelSessionReason d).
Definition set_profileName (d : profile_data) (b : list Z) : profile_data :=
  ProfileData (profilePPR d) (hasPPR1 d) (hasPPR2 d) (mccMnc d) (gid1 d) (gid1Size d) (gid1Defined d)
    (gid2 d) (gid2Size d) (gid2Defined d) b
    (userCallBackType d) (performCancelSession d) (cancelSessionReason d).

Definition reject {A} (e : LPA_API_ERROR) (a : A) : M (bool * A) := report e ;; ret (false, a).

(** The objects of the owner: the body of the inner loop, which goes on while
    [res] holds. *)
Definition owner_body (current : ptr) (d : profile_data) : M (bool * profile_data) :=
  let* '(tag, length, value) := tlv_data current in
  if tag =? 0x80 then
    if length =? 3 then
      let* b := of_option (copy_value (mccMnc d) value 3) in ret (true, set_mccMnc d b)
    else reject LPA_ERROR_INVALID_PROFILE_METADATA d
  else if tag =? 0x81 then
    let d := set_gid1 d (gid1 d) (gid1Size d) true in
    if length <=? LPA_GID_MAX_SIZE then
      let* b := of_option (copy_value (gid1 d) value length) in ret (true, set_gid1 d b length true)
    else reject LPA_ERROR_INSUFFICIENT_BUFFER d
  else if tag =? 0x82 then
    let d := set_gid2 d (gid2 d) (gid2Size d) true in
    if length <=? LPA_GID_MAX_SIZE then
      let* b := of_option (copy_value (gid2 d) value length) in ret (true, set_gid2 d b length true)
    else reject LPA_ERROR_INSUFFICIENT_BUFFER d
  else reject LPA_ERROR_INVALID_PROFILE_METADATA d.

(** The walk with its result: false when the loop was left by an error. *)
Definition owner_walk_body (current : ptr) (x : bool * profile_data) : M (bool * (bool * profile_data)) :=
  let* '(res, d) := owner_body current x.2 in ret (res, (res, d)).

(** An element without an object is an error. *)
Definition owner_null (x : bool * profile_data) : M (bool * (bool * profile_data)) :=
  report LPA_ERROR_INVALID_PROFILE_METADATA ;; ret (false, (false, x.2)).

(** The field of tag B7; [res] is the result so far. *)
Definition profile_owner (current : ptr) (res : bool) (d : profile_data) : M (bool * profile_data) :=
  let* '(berProfileOwnerList, profileOwnerListCount) := extractList_of current in
  let* r :=
    (if negb (isNull berProfileOwnerList) && (profileOwnerListCount >? 0) then
       let* '(res, d) := (if res then walk_with owner_null owner_walk_body berProfileOwnerList (true, d) else ret (res, d)) in
       let* m0 := of_option (mccMnc d).[0] in
       let* m1 := of_option (mccMnc d).[1] in
       let* m2 := of_option (mccMnc d).[2] in
       if (m0 =? 0) && (m1 =? 0) && (m2 =? 0)
       then reject LPA_ERROR_INVALID_PROFILE_METADATA d
       else ret (res, d)
     else reject LPA_ERROR_INVALID_PROFILE_METADATA d) in
  berTLV_freeBerTLVList berProfileOwnerList ;;
  ret r.

(** The variables of the loop over the fields. *)
Record metadata_vars := MetadataVars {
  extracted_fields : profile_data;
  metadata_res : bool;
  iccidTagDetectedValidated : bool;
  serviceProviderNameTagDetected : bool;
  profileNameTagDetected : bool
}.

Definition metadata_field_body (current : ptr) (x : metadata_vars) : M (bool * metadata_vars) :=
  let '(MetadataVars d res iccid spn pname) := x in
  let* '(tag, length, value) := tlv_data current in
  if tag =? 0x99 then
    let* v := of_option value in
    let* flag := of_option (flag16 v) in
    ret (true, MetadataVars (set_ppr d flag) res iccid spn pname)
  else if tag =? 0xB7 then
    let* '(res, d) := profile_owner current res d in
    ret (true, MetadataVars d res iccid spn pname)
  else if tag =? 0x92 then
    if length <=? LPA_PROFILE_NAME_MAX_SIZE then
      let* b := of_option (copy_value (profileName d) value length) in
      let* b := of_option b.[length := 0] in
      ret (true, MetadataVars (set_profileName d b) res iccid spn true)
    else
      report LPA_ERROR_INVALID_PROFILE_METADATA ;;
      ret (true, MetadataVars d false iccid spn true)
  else if tag =? 0x91 then ret (true, MetadataVars d res iccid true pname)
  else if tag =? 0x5A then
    ret (true, MetadataVars d res (if length =? 0x0A then true else iccid) spn pname)
  else ret (true, x).

Definition all_fields (berProfileMetadata : ptr) (d : profile_data) : M (bool * profile_data) :=
  let* '(berProfileFieldList, profileFieldListCount) := extractList_of berProfileMetadata in
  let* r :=
    (if negb (isNull berProfileFieldList) && (profileFieldListCount >? 2) then
       let d := set_gid2 (set_gid1 d (gid1 d) (gid1Size d) false) (gid2 d) (gid2Size d) false in
       let* x := walk metadata_field_body berProfileFieldList (MetadataVars d true false false false) in
       if negb (profileNameTagDetected x) || negb (serviceProviderNameTagDetected x)
          || negb (iccidTagDetectedValidated x)
       then reject LPA_ERROR_INVALID_PROFILE_METADATA (extracted_fields x)
       else ret (metadata_res x, extracted_fields x)
     else reject LPA_ERROR_INVALID_PROFILE_METADATA d) in
  berTLV_freeBerTLVList berProfileFieldList ;;
  ret r.

(** The data may be [NULL]; the structure is not. *)
Definition _extractFieldsFromProfileMetadata (ptrProfileMetadata : option (list Z)) (profileMetadataSize : Z)
    (d : profile_data) : M (bool * profile_data) :=
  match ptrProfileMetadata with
  | Some _ =>
      if profileMetadataSize >? 2 then
        let* '(berProfileMetadata, _) :=
          berTLV_extractTagUInt16 PROFILE_METADATA_TAG ptrProfileMetadata profileMetadataSize in
        let* '(res, d) :=
          (if isNull berProfileMetadata then reject LPA_ERROR_INVALID_PROFILE_METADATA d
           else
             let* '(_, length, _) := load_BeerTLV berProfileMetadata in
             let* r := (if length >? 1 then all_fields berProfileMetadata d
                        else reject LPA_ERROR_INVALID_PROFILE_METADATA d) in
             berTLV_freeBerTLV berProfileMetadata ;;
             ret r) in
        ret (res, decide_profile d LPA_USR_CONSENT_DISABLED false (cancelSessionReason d))
      else reject LPA_ERROR_INVALID_PARAMETER d
  | None => reject LPA_ERROR_INVALID_PARAMETER d
  end.

(** ** Reference extraction, on the objects *)

(** An object of the owner: the error it is rejected with, and the profile. *)
Definition owner_field (d : profile_data) (tv : Z * list Z) : option LPA_API_ERROR * profile_data :=
  let '(t, v) := tv in
  if t =? 0x80 then
    if zlen v =? 3 then (None, set_mccMnc d v) else (Some LPA_ERROR_INVALID_PROFILE_METADATA, d)
  else if t =? 0x81 then
    if zlen v <=? LPA_GID_MAX_SIZE then (None, set_gid1 d (put (gid1 d) v) (zlen v) true)
    else (Some LPA_ERROR_INSUFFICIENT_BUFFER, set_gid1 d (gid1 d) (gid1Size d) true)
  else if t =? 0x82 then
    if zlen v <=? LPA_GID_MAX_SIZE then (None, set_gid2 d (put (gid2 d) v) (zlen v) true)
    else (Some LPA_ERROR_INSUFFICIENT_BUFFER, set_gid2 d (gid2 d) (gid2Size d) true)
  else (Some LPA_ERROR_INVALID_PROFILE_METADATA, d).

Fixpoint owner_fields (d : profile_data) (l : list (Z * list Z)) : option LPA_API_ERROR * profile_data :=
  match l with
  | [] => (None, d)
  | tv :: l =>
      let '(e, d) := owner_field d tv in
      match e with Some _ => (e, d) | None => owner_fields d l end
  end.

(** The owner: the result, the profile, and the errors in their order. *)
Definition owner_result (res : bool) (d : profile_data) (v : list Z) : bool * profile_data * list LPA_API_ERROR :=
  let l := default [] (objects v) in
  if 0 <? zlen l mod 256 then
    let '(e, d) := if res then owner_fields d l else (None, d) in
    let errs := option_list e in
    if decide (mccMnc d = [0; 0; 0]) then (false, d, errs ++ [LPA_ERROR_INVALID_PROFILE_METADATA])
    else (res && bool_decide (e = None), d, errs)
  else (false, d, [LPA_ERROR_INVALID_PROFILE_METADATA]).

(** A field of the metadata. *)
Definition metadata_field (x : metadata_vars) (tv : Z * list Z) : metadata_vars * list LPA_API_ERROR :=
  let '(MetadataVars d res iccid spn pname) := x in
  let '(t, v) := tv in
  if t =? 0x99 then (MetadataVars (set_ppr d (default 0 (flag16 v))) res iccid spn pname, [])
  else if t =? 0xB7 then
    let '(res, d, errs) := owner_result res d v in (MetadataVars d res iccid spn pname, errs)
  else if t =? 0x92 then
    if zlen v <=? LPA_PROFILE_NAME_MAX_SIZE
    then (MetadataVars (set_profileName d (put (profileName d) (v ++ [0]))) res iccid spn true, [])
    else (MetadataVars d false iccid spn true, [LPA_ERROR_INVALID_PROFILE_METADATA])
  else if t =? 0x91 then (MetadataVars d res iccid true pname, [])
  else if t =? 0x5A then (MetadataVars d res (bool_decide (zlen v = 10) || iccid) spn pname, [])
  else (x, []).

Fixpoint metadata_fields (x : metadata_vars) (l : list (Z * list Z)) (errs : list LPA_API_ERROR)
  : metadata_vars * list LPA_API_ERROR :=
  match l with
  | [] => (x, errs)
  | tv :: l => let '(x, e) := metadata_field x tv in metadata_fields x l (errs ++ e)
  end.

(** Group identifiers are absent unless a field defines them. *)
Definition no_gids (d : profile_data) : profile_data :=
  set_gid2 (set_gid1 d (gid1 d) (gid1Size d) false) (gid2 d) (gid2Size d) false.

(** The fields of the container: the result, the profile and the errors. *)
Definition fields_result (d : profile_data) (v : list Z) : bool * profile_data * list LPA_API_ERROR :=
  let l := default [] (objects v) in
  if 2 <? zlen l mod 256 then
    let '(x, errs) := metadata_fields (MetadataVars (no_gids d) true false false false) l [] in
    if profileNameTagDetected x && serviceProviderNameTagDetected x && iccidTagDetectedValidated x
    then (metadata_res x, extracted_fields x, errs)
    else (false, extracted_fields x, errs ++ [LPA_ERROR_INVALID_PROFILE_METADATA])
  else (false, d, [LPA_ERROR_INVALID_PROFILE_METADATA]).

Definition undecided (d : profile_data) : profile_data :=
  decide_profile d LPA_USR_CONSENT_DISABLED false (cancelSessionReason d).

Definition metadata_result (d : profile_data) (src : list Z) : bool * profile_data * list LPA_API_ERROR :=
  match (first_tag PROFILE_METADATA_TAG src).2 with
  | Some v =>
      let '(res, d, errs) := fields_result d v in (res, undecided d, errs)
  | None => (false, undecided d, [LPA_ERROR_INVALID_PROFILE_METADATA])
  end.

(** The error code after the reports of a list of errors. *)
Definition reported (errs : list LPA_API_ERROR) (e : LPA_API_ERROR) : LPA_API_ERROR :=
  foldl (λ c x, first_error x c) e errs.

(** The arrays of the structure. *)
Definition valid_fields (d : profile_data) : Prop :=
  Forall is_byte (mccMnc d) ∧ zlen (mccMnc d) = 3 ∧
  zlen (gid1 d) = LPA_GID_MAX_SIZE ∧ 0 <= gid1Size d <= LPA_GID_MAX_SIZE ∧
  zlen (gid2 d) = LPA_GID_MAX_SIZE ∧ 0 <= gid2Size d <= LPA_GID_MAX_SIZE ∧
  zlen (profileName d) = LPA_PROFILE_NAME_MAX_SIZE + 2.

(** The lists of the metadata end with their last element, and the policies are
    of two bytes at least. *)
Definition delimited_metadata (src : list Z) : Prop :=
  ∀ v, (first_tag PROFILE_METADATA_TAG src).2 = Some v →
  ∃ l, objects v = Some l ∧
    (∀ w, (0xB7, w) ∈ l → is_Some (objects w)) ∧ (∀ w, (0x99, w) ∈ l → 2 <= zlen w).

(** ** Proofs *)

Lemma reported_app errs errs' e : reported (errs ++ errs') e = reported errs' (reported errs e).
Proof. apply foldl_app. Qed.

(** An error was reported. *)
Definition failing (errs : list LPA_API_ERROR) : Prop := Forall (λ c, c ≠ LPA_NO_ERROR) errs.

Lemma reported_kept errs e : failing errs → e ≠ LPA_NO_ERROR → reported errs e ≠ LPA_NO_ERROR.
Proof.
  intros H. revert e. induction H as [|c errs Hc _ IH]; intros e He; [done|].
  cbn [reported foldl]. apply IH. by apply first_error_error.
Qed.

Lemma reported_error errs e : failing errs → errs ≠ [] → reported errs e ≠ LPA_NO_ERROR.
Proof.
  intros H Hne. destruct H as [|c errs Hc H]; [done|]. apply (reported_kept errs (first_error c e)); [done|].
  by apply first_error_error.
Qed.

Lemma valid_no_gids d : valid_fields d → valid_fields (no_gids d).
Proof. done. Qed.

Lemma owner_field_valid d tv : Forall is_byte tv.2 → valid_fields d → valid_fields (owner_field d tv).2.
Proof.
  destruct tv as [t v]. cbn [snd]. intros Hv (Hm & Hml & Hg1 & Hs1 & Hg2 & Hs2 & Hn).
  rw /owner_field. rw /LPA_GID_MAX_SIZE in Hg1 Hs1 Hg2 Hs2 |- *. pose proof (zlen_nonneg v).
  rw /LPA_PROFILE_NAME_MAX_SIZE in Hn. destruct (t =? 0x80); [|destruct (t =? 0x81); [|destruct (t =? 0x82)]];
    repeat ztest; cbn [snd]; rw /valid_fields /LPA_GID_MAX_SIZE /LPA_PROFILE_NAME_MAX_SIZE /=;
    split_and!; rw ?put_zlen; try done; lia.
Qed.

Section proofs.
Context (nf : bool).
Implicit Types (e : LPA_API_ERROR) (d : profile_data).

Lemma wp_reject {A} c (a : A) e Φ : Φ (false, a) (first_error c e) -∗ wp nf (reject c a) e Φ.
Proof. iIntros "HΦ". wp_seq. iApply wp_report. by wp_value. Qed.

Lemma wp_owner_body b t v d e Φ :
  valid_fields d →
  tlv b t v -∗
  (tlv b t v -∗ Φ (bool_decide ((owner_field d (t, v)).1 = None), (owner_field d (t, v)).2)
     (reported (option_list (owner_field d (t, v)).1) e)) -∗
  wp nf (owner_body b d) e Φ.
Proof.
  iIntros (Hd) "Ht HΦ". destruct Hd as (Hm & Hml & Hg1 & Hs1 & Hg2 & Hs2 & Hn).
  wp_seq. iApply (wp_tlv_data with "Ht"). iIntros "Ht". iSpecialize ("HΦ" with "Ht").
  rw /owner_field. destruct (t =? 0x80).
  { destruct (Z.eqb_spec (zlen v) 3) as [E|]; [|by iApply wp_reject].
    wp_seq. rw -{1}E copy_value_ok; [|lia]. iApply wp_of_option. wp_value.
    rw put_all; [done|]. rw /zlen in E Hml. lia. }
  destruct (t =? 0x81).
  { destruct (Z.leb_spec (zlen v) LPA_GID_MAX_SIZE); [|by iApply wp_reject].
    wp_seq. rw copy_value_ok; [|cbn; lia]. iApply wp_of_option. by wp_value. }
  destruct (t =? 0x82); [|by iApply wp_reject].
  destruct (Z.leb_spec (zlen v) LPA_GID_MAX_SIZE); [|by iApply wp_reject].
  wp_seq. rw copy_value_ok; [|cbn; lia]. iApply wp_of_option. by wp_value.
Qed.

Lemma owner_fields_valid l : ∀ d, Forall (λ tv, Forall is_byte tv.2) l → valid_fields d →
  valid_fields (owner_fields d l).2.
Proof.
  induction l as [|tv l IH]; intros d Hb Hd; [done|]. apply Forall_cons in Hb as [Hv Hb].
  pose proof (owner_field_valid d tv Hv Hd) as H. cbn [owner_fields].
  destruct (owner_field d tv) as [[c|] d']; [done|]. by apply IH.
Qed.

(** The inner loop. *)
Lemma wp_owner_walk tvs p d e Φ :
  Forall (λ tv, Forall is_byte tv.2) tvs → valid_fields d →
  tlv_list p tvs -∗
  (tlv_list p tvs -∗ Φ (bool_decide ((owner_fields d tvs).1 = None), (owner_fields d tvs).2)
     (reported (option_list (owner_fields d tvs).1) e)) -∗
  wp nf (walk_with owner_null owner_walk_body p (true, d)) e Φ.
Proof.
  iIntros (Hb Hd) "Hp HΦ".
  iApply (wp_walk nf owner_null owner_walk_body tvs
    (λ pre x e', ⟦x.1 = true ∧ e' = e ∧ valid_fields x.2 ∧
       ∀ post, owner_fields d (pre ++ post) = owner_fields x.2 post⟧)%I
    (λ x e', ⟦x = (bool_decide ((owner_fields d tvs).1 = None), (owner_fields d tvs).2) ∧
       e' = reported (option_list (owner_fields d tvs).1) e⟧)%I with "Hp").
  - intros pre t v post b [res d1] e' ->. iIntros "[Ht %H]". destruct H as (Hr & -> & Hd1 & Hw). cbn [fst snd] in *.
    apply Forall_app in Hb as [_ Hb]. apply Forall_cons in Hb as [Hv _].
    pose proof (owner_field_valid d1 (t, v) Hv Hd1) as Hd2.
    wp_seq. iApply (wp_owner_body with "Ht"); [done|]. iIntros "Ht". wp_value. iFrame "Ht". cbn [fst snd].
    pose proof (Hw ((t, v) :: post)) as Hw1. cbn [owner_fields] in Hw1.
    destruct (owner_field d1 (t, v)) as [[c|] d2] eqn:Ef; cbn [fst snd option_list] in *; iPureIntro; cbn.
    + by rw Hw1.
    + split_and!; [done..|]. intros post'. rw -app_assoc Hw. cbn [app owner_fields].
      by rw Ef.
  - intros [res d1] e'. iIntros "%H". destruct H as (Hr & -> & _ & Hw). iPureIntro.
    specialize (Hw []). rw app_nil_r in Hw. cbn in *. by rw Hw Hr.
  - done.
  - iIntros (x e') "Hp %H". destruct H as [-> ->]. by iApply "HΦ".
Qed.

Lemma wp_free_list p tvs e (Φ : bool → LPA_API_ERROR → heapProp) :
  tlv_list p tvs -∗ Φ true e -∗ wp nf (berTLV_freeBerTLVList p) e Φ.
Proof. apply freeList_spec. Qed.

(** The inner loop, entered while the result still holds. *)
Lemma wp_owner_loop (res : bool) tvs p d e Φ :
  Forall (λ tv, Forall is_byte tv.2) tvs → valid_fields d →
  let x := if res then owner_fields d tvs else (None, d) in
  tlv_list p tvs -∗
  (⟦valid_fields x.2⟧ -∗ tlv_list p tvs -∗
    Φ (res && bool_decide (x.1 = None), x.2) (reported (option_list x.1) e)) -∗
  wp nf (if res then walk_with owner_null owner_walk_body p (true, d) else ret (res, d)) e Φ.
Proof.
  iIntros (Hb Hd x) "Hp HΦ". destruct res; cbn zeta in *.
  - iApply (wp_owner_walk with "Hp"); [done..|]. iIntros "Hp". iApply ("HΦ" with "[] Hp").
    iPureIntro. by apply owner_fields_valid.
  - wp_value. by iApply ("HΦ" with "[//] Hp").
Qed.

Lemma owner_field_failing d tv : failing (option_list (owner_field d tv).1).
Proof.
  destruct tv as [t v]. rw /owner_field. repeat ztest; by repeat constructor.
Qed.

Lemma owner_fields_failing l : ∀ d, failing (option_list (owner_fields d l).1).
Proof.
  induction l as [|tv l IH]; intros d; [by constructor|]. cbn [owner_fields].
  pose proof (owner_field_failing d tv) as H. by destruct (owner_field d tv) as [[c|] d'].
Qed.

Lemma mccMnc_zero (m : list Z) : zlen m = 3 →
  ∃ m0 m1 m2, m.[0] = Some m0 ∧ m.[1] = Some m1 ∧ m.[2] = Some m2 ∧
    ((m0 =? 0) && (m1 =? 0) && (m2 =? 0)) = bool_decide (m = [0; 0; 0]).
Proof.
  intros Hm. destruct m as [|m0 [|m1 [|m2 [|]]]]; try done; [|rw !zlen_cons in Hm; zlen_pos; lia].
  exists m0, m1, m2. rw rd_cons_0 rd_cell1 rd_cell2. split_and!; [done..|].
  case_bool_decide as E; [by injection E as -> -> ->|].
  destruct (Z.eqb_spec m0 0), (Z.eqb_spec m1 0), (Z.eqb_spec m2 0); cbn; try done. by subst.
Qed.

(** The owner. *)
Lemma wp_profile_owner b t v l res d e Φ :
  Forall is_byte v → objects v = Some l → valid_fields d →
  tlv b t v -∗
  (∀ r errs, ⟦(nf = true → (r, errs) = owner_result res d v) ∧ valid_fields r.2 ∧ failing errs ∧
      (r.1 = false → res = false ∨ errs ≠ [])⟧ -∗
    tlv b t v -∗ Φ r (reported errs e)) -∗
  wp nf (profile_owner b res d) e Φ.
Proof.
  iIntros (Hv Ho Hd) "Ht HΦ". wp_seq. iApply (wp_extractList_of with "Ht"); [done..|].
  iIntros (p c) "Ht Hp". rw /owner_result Ho. cbn [default from_option id].
  iDestruct "Hp" as "[%H|[%Hc Hp]]".
  { destruct H as [Hnf ->]. cbn [isNull negb andb]. wp_seq. iApply wp_reject. wp_seq.
    iApply (wp_free_list None []); [done|]. wp_value.
    iApply ("HΦ" $! (false, d) [LPA_ERROR_INVALID_PROFILE_METADATA] with "[] Ht"). iPureIntro.
    split_and!; [by rw Hnf|done|by repeat constructor|by right]. }
  subst c. iDestruct (tlv_list_null with "Hp") as "[%En Hp]". rw En Z.gtb_ltb.
  pose proof (parse_list_byte _ _ _ Hv Ho) as Hb. destruct (0 <? zlen l mod 256) eqn:Ec.
  2: { rw andb_false_r. wp_seq. iApply wp_reject. wp_seq. iApply (wp_free_list with "Hp"). wp_value.
       iApply ("HΦ" $! (false, d) [LPA_ERROR_INVALID_PROFILE_METADATA] with "[] Ht"). iPureIntro.
       split_and!; [done|done|by repeat constructor|by right]. }
  rw bool_decide_false; [|by intros ->]. cbn [negb andb].
  wp_seq. wp_seq. iApply (wp_owner_loop res with "Hp"); [done..|]. iIntros "%Hx Hp".
  set (x := if res then owner_fields d l else (None, d)) in *.
  assert (failing (option_list x.1)) as Hf.
  { rw /x. destruct res; [apply owner_fields_failing|by constructor]. }
  destruct x as [er d1] eqn:Ex. cbn [fst snd] in *.
  destruct (mccMnc_zero (mccMnc d1)) as (m0 & m1 & m2 & E0 & E1 & E2 & Ez); [by apply Hx|].
  wp_seq. rw E0. iApply wp_of_option. wp_seq. rw E1. iApply wp_of_option. wp_seq. rw E2. iApply wp_of_option.
  rw Ez. case_bool_decide as Em.
  - iApply wp_reject. wp_seq. iApply (wp_free_list with "Hp"). wp_value.
    change (first_error ?c ?e0) with (reported [c] e0). rw -reported_app.
    iApply ("HΦ" with "[] Ht"). iPureIntro. rw decide_True //. split_and!; [done|done| |right].
    + apply Forall_app. split; [done|by repeat constructor].
    + intros Eq. by apply app_nil in Eq as [_ ?].
  - wp_value. wp_seq. iApply (wp_free_list with "Hp"). wp_value.
    iApply ("HΦ" $! (_, d1) (option_list er) with "[] Ht"). iPureIntro. rw decide_False //.
    split_and!; [done|done|done|]. cbn [fst]. destruct er as [c|]; [by right|]. destruct res; [done|by left].
Qed.

(** The invariant of the loop over the fields. *)
Definition metadata_ok (x : metadata_vars) (errs : list LPA_API_ERROR) : Prop :=
  valid_fields (extracted_fields x) ∧ failing errs ∧ (metadata_res x = false → errs ≠ []).

Lemma put_write (dst v : list Z) : zlen v < zlen dst → (put dst v).[zlen v := 0] = Some (put dst (v ++ [0])).
Proof.
  intros Hv. rw /put length_app -drop_drop. destruct (drop (length v) dst) as [|x k] eqn:Ek.
  { apply (f_equal zlen) in Ek. rw zlen_drop in Ek. rw /zlen in Hv Ek. change (length []) with 0%nat in Ek. lia. }
  by rw wr_at.
Qed.

Lemma put_name_zlen (dst v : list Z) : zlen v < zlen dst → zlen (put dst (v ++ [0])) = zlen dst.
Proof. intros H. apply put_zlen. rw zlen_app. change (zlen [0]) with 1. lia. Qed.

Lemma wp_field_body b t v x errs e Φ :
  Forall is_byte v → (t = 0xB7 → is_Some (objects v)) → (t = 0x99 → 2 <= zlen v) → metadata_ok x errs →
  tlv b t v -∗
  (∀ x' errs', ⟦(nf = true → (x', errs') = metadata_field x (t, v)) ∧ metadata_ok x' (errs ++ errs')⟧ -∗
    tlv b t v -∗ Φ (true, x') (reported errs' e)) -∗
  wp nf (metadata_field_body b x) e Φ.
Proof.
  iIntros (Hv Hobj Hppr Hx) "Ht HΦ". destruct x as [d res iccid spn pname].
  destruct Hx as (Hd & Hf & Hr). cbn [extracted_fields metadata_res] in *.
  assert (∀ d' res' i s p, valid_fields d' → (res' = false → res = false) →
    metadata_ok (MetadataVars d' res' i s p) (errs ++ [])) as Hok.
  { intros d' res' i s p Hd' Hr'. rw app_nil_r. split_and!; [done|done|]. cbn. auto. }
  rw /metadata_field_body /metadata_field. wp_seq.
  destruct (Z.eqb_spec t 0xB7) as [->|Hb7].
  - iApply (wp_tlv_data with "Ht"). iIntros "Ht". cbn [Z.eqb Pos.eqb].
    destruct (Hobj eq_refl) as [l Hl]. wp_seq. iApply (wp_profile_owner with "Ht"); [done..|].
    iIntros ([res' d'] errs') "%H Ht". destruct H as (H1 & H2 & H3 & H4). wp_value. cbn [fst snd] in *.
    iApply ("HΦ" with "[] Ht"). iPureIntro. split; [intros Hnf; by rw -H1|].
    split_and!; [done|by apply Forall_app|]. cbn [metadata_res]. intros E.
    destruct (H4 E) as [->|Hne]; [|by intros [_ ?]%app_nil]. intros [E1 _]%app_nil. by apply Hr.
  - iApply (wp_tlv_data with "Ht"). iIntros "Ht". destruct (Z.eqb_spec t 0x99) as [->|_].
    { specialize (Hppr eq_refl). destruct v as [|b0 [|b1 v]];
        [change (zlen []) with 0 in Hppr; lia|change (zlen [b0]) with 1 in Hppr; lia|]. cbn [value].
      wp_seq. iApply wp_of_option. wp_seq. rw (_ : flag16 (b0 :: b1 :: v) = Some (Z.shiftl b0 8 + b1)); [|done].
      iApply wp_of_option. wp_value. iApply ("HΦ" $! _ [] with "[] Ht"). iPureIntro. by split; [|apply Hok]. }
    rw (proj2 (Z.eqb_neq t 0xB7) Hb7). destruct (t =? 0x92).
    { destruct (Z.leb_spec (zlen v) LPA_PROFILE_NAME_MAX_SIZE) as [Hl|Hl].
      - pose proof Hd as (_ & _ & _ & _ & _ & _ & Hn). rw /LPA_PROFILE_NAME_MAX_SIZE in Hn Hl.
        wp_seq. rw copy_value_ok; [|lia]. iApply wp_of_option. wp_seq. rw put_write; [|lia].
        iApply wp_of_option. wp_value. iApply ("HΦ" $! _ [] with "[] Ht"). iPureIntro. split; [done|].
        apply Hok; [|done]. rw /valid_fields /= put_name_zlen; [exact Hd|lia].
      - wp_seq. iApply wp_report. wp_value.
        iApply ("HΦ" $! _ [LPA_ERROR_INVALID_PROFILE_METADATA] with "[] Ht"). iPureIntro. split; [done|].
        split_and!; [done|apply Forall_app; split; [done|by repeat constructor]|]. intros _ [_ ?]%app_nil. done. }
    destruct (t =? 0x91); [|destruct (t =? 0x5A)]; wp_value;
      (iApply ("HΦ" $! _ [] with "[] Ht"); iPureIntro; split; [intros _|by apply Hok]); [done| |done].
    do 2 f_equal. destruct (Z.eqb_spec (zlen v) 10); [by rw bool_decide_true|by rw bool_decide_false].
Qed.

(** The loop over the fields. *)
Lemma wp_fields tvs p d e Φ :
  Forall (λ tv, Forall is_byte tv.2) tvs →
  (∀ w, (0xB7, w) ∈ tvs → is_Some (objects w)) → (∀ w, (0x99, w) ∈ tvs → 2 <= zlen w) → valid_fields d →
  tlv_list p tvs -∗
  (∀ x errs, ⟦(nf = true → (x, errs) = metadata_fields (MetadataVars d true false false false) tvs []) ∧
      metadata_ok x errs⟧ -∗ tlv_list p tvs -∗ Φ x (reported errs e)) -∗
  wp nf (walk metadata_field_body p (MetadataVars d true false false false)) e Φ.
Proof.
  iIntros (Hb Hobj Hppr Hd) "Hp HΦ". set (x0 := MetadataVars d true false false false).
  iApply (wp_walk nf skip_null metadata_field_body tvs
    (λ pre x e', ∃ errs, ⟦e' = reported errs e ∧ metadata_ok x errs ∧
       (nf = true → ∀ post, metadata_fields x0 (pre ++ post) [] = metadata_fields x post errs)⟧)%I
    (λ x e', ∃ errs, ⟦e' = reported errs e ∧ metadata_ok x errs ∧
       (nf = true → (x, errs) = metadata_fields x0 tvs [])⟧)%I with "Hp").
  - intros pre t v post b x e' ->. iIntros "[Ht (%errs & %H)]". destruct H as (-> & Hx & Hw).
    apply Forall_app in Hb as [_ Hb]. apply Forall_cons in Hb as [Hv _].
    assert ((t, v) ∈ pre ++ (t, v) :: post) as Hin by (apply elem_of_app; right; by left).
    iApply (wp_field_body with "Ht"); [done|by intros ->; apply Hobj|by intros ->; apply Hppr|exact Hx|].
    iIntros (x' errs') "%H Ht". destruct H as [H1 H2]. iFrame "Ht". cbn [fst snd].
    iExists (errs ++ errs'). iPureIntro. rw reported_app. split_and!; [done|exact H2|].
    intros Hnf post'. rw -app_assoc Hw //. cbn [app metadata_fields]. by rw -H1.
  - intros x e'. iIntros "(%errs & %H)". destruct H as (-> & Hx & Hw). iExists errs. iPureIntro.
    split_and!; [done|exact Hx|]. intros Hnf. by rw -(app_nil_r tvs) Hw.
  - iExists []. iPureIntro. split_and!; [done|by split_and!; [|constructor|]|done].
  - iIntros (x e') "Hp (%errs & %H)". destruct H as (-> & Hx & Hw). by iApply ("HΦ" with "[] Hp").
Qed.

(** The list of the fields. *)
Lemma wp_all_fields b t v l d e Φ :
  Forall is_byte v → objects v = Some l →
  (∀ w, (0xB7, w) ∈ l → is_Some (objects w)) → (∀ w, (0x99, w) ∈ l → 2 <= zlen w) → valid_fields d →
  tlv b t v -∗
  (∀ r errs, ⟦(nf = true → (r, errs) = fields_result d v) ∧ valid_fields r.2 ∧ failing errs ∧
      (r.1 = false → errs ≠ [])⟧ -∗ tlv b t v -∗ Φ r (reported errs e)) -∗
  wp nf (all_fields b d) e Φ.
Proof.
  iIntros (Hv Ho Hobj Hppr Hd) "Ht HΦ". wp_seq. iApply (wp_extractList_of with "Ht"); [done..|].
  iIntros (p c) "Ht Hp". rw /fields_result Ho. cbn [default from_option id].
  iDestruct "Hp" as "[%H|[%Hc Hp]]".
  { destruct H as [Hnf ->]. cbn [isNull negb andb]. wp_seq. iApply wp_reject. wp_seq.
    iApply (wp_free_list None []); [done|]. wp_value.
    iApply ("HΦ" $! (false, d) [LPA_ERROR_INVALID_PROFILE_METADATA] with "[] Ht"). iPureIntro.
    split_and!; [by rw Hnf|exact Hd|by repeat constructor|done]. }
  subst c. iDestruct (tlv_list_null with "Hp") as "[%En Hp]". rw En Z.gtb_ltb.
  pose proof (parse_list_byte _ _ _ Hv Ho) as Hb. destruct (2 <? zlen l mod 256) eqn:Ec.
  2: { rw andb_false_r. wp_seq. iApply wp_reject. wp_seq. iApply (wp_free_list with "Hp"). wp_value.
       iApply ("HΦ" $! (false, d) [LPA_ERROR_INVALID_PROFILE_METADATA] with "[] Ht"). iPureIntro.
       split_and!; [done|exact Hd|by repeat constructor|done]. }
  rw bool_decide_false; [|by intros ->]. cbn [negb andb]. wp_seq. wp_seq.
  iApply (wp_fields with "Hp"); [done..|by apply valid_no_gids|]. iIntros (x errs) "%H Hp".
  destruct H as [Hx (Hvf & Hf & Hr)]. rw -!negb_andb -andb_assoc.
  destruct (profileNameTagDetected x && (serviceProviderNameTagDetected x && iccidTagDetectedValidated x)) eqn:Ea; cbn [negb].
  - wp_value. wp_seq. iApply (wp_free_list with "Hp"). wp_value.
    iApply ("HΦ" $! (_, _) errs with "[] Ht"). iPureIntro. split_and!; [|exact Hvf|done|done].
    intros Hnf. by rw -(Hx Hnf) -andb_assoc Ea.
  - iApply wp_reject. wp_seq. iApply (wp_free_list with "Hp"). wp_value.
    change (first_error ?c ?e0) with (reported [c] e0). rw -reported_app.
    iApply ("HΦ" $! (_, _) with "[] Ht"). iPureIntro.
    split_and!; [|exact Hvf|apply Forall_app; split; [done|by repeat constructor]|by intros _ [_ ?]%app_nil].
    intros Hnf. by rw -(Hx Hnf) -andb_assoc Ea.
Qed.
End proofs.

Lemma metadata_ok_run (nf : bool) (d : profile_data) (src : list Z) (e : LPA_API_ERROR) Φ :
  Forall is_byte src → delimited_metadata src → valid_fields d → 2 < zlen src →
  (∀ r errs, ⟦(nf = true → (r, errs) = metadata_result d src) ∧ valid_fields r.2 ∧ failing errs ∧
     (r.1 = false → errs ≠ [])⟧ -∗ Φ r (reported errs e)) -∗
  wp nf (_extractFieldsFromProfileMetadata (Some src) (zlen src) d) e Φ.
Proof.
  iIntros (Hs Hdel Hd Hlen) "HΦ". rw /_extractFieldsFromProfileMetadata (_ : (zlen src >? 2) = true); [|lia].
  wp_seq. iApply extractTag16_spec; [done|]. iIntros (p) "Hp".
  iDestruct (find_post_maybe with "Hp") as (r1) "[%H1 Hp]".
  iDestruct (maybe_null with "Hp") as "[%En Hp]". rw En. clear En.
  assert (nf = true → r1 = (first_tag PROFILE_METADATA_TAG src).2) as Hr1 by (intros ->; by apply chosen_nf).
  destruct r1 as [v|]; cbn [present negb maybe_tlv].
  2: { iDestruct "Hp" as "_". wp_seq. iApply wp_reject. wp_value.
       iApply ("HΦ" $! (false, _) [LPA_ERROR_INVALID_PROFILE_METADATA]). iPureIntro.
       split_and!; [|exact Hd|by repeat constructor|done]. intros Hnf. by rw /metadata_result -Hr1. }
  destruct H1 as [E1|[_ E1]]; [|done]. symmetry in E1.
  assert (Forall is_byte v) as Hv by by apply (first_tag_byte PROFILE_METADATA_TAG src).
  destruct (Hdel v E1) as (l & Hl & Hobj & Hppr).
  wp_seq. wp_seq. iApply (wp_load_tlv_length with "Hp"). iIntros (q) "Hp". wp_seq.
  rw /metadata_result E1. destruct (Z.gtb_spec (zlen v) 1) as [Hv1|Hv1].
  - iApply (wp_all_fields with "Hp"); [done|exact Hl|done..|]. iIntros ([res d'] errs) "%H Hp".
    destruct H as (H1 & H2 & H3 & H4). wp_seq. iApply (tlv_free_spec with "Hp"). wp_value. wp_value.
    iApply ("HΦ" $! (res, _) errs). iPureIntro. cbn [fst snd] in *.
    split_and!; [|exact H2|done|done]. intros Hnf. by rw -(H1 Hnf).
  - iApply wp_reject. wp_seq. iApply (tlv_free_spec with "Hp"). wp_value. wp_value.
    iApply ("HΦ" $! (false, _) [LPA_ERROR_INVALID_PROFILE_METADATA]). iPureIntro.
    split_and!; [|exact Hd|by repeat constructor|done]. intros _. rw /fields_result Hl /=.
    assert (l = []) as ->; [|done]. rw /objects in Hl. pose proof (zlen_nonneg v).
    destruct v as [|x [|y v]]; [by injection Hl as <-| |rw !zlen_cons in Hv1; zlen_pos; lia].
    cbn [length parse_list] in Hl. destruct (parse_header [x]) as [[[t n] r]|] eqn:E; [|by injection Hl as <-].
    destruct (parse_header_suffix _ _ _ _ E) as (h & Eh & Hh). exfalso.
    apply (f_equal length) in Eh. rw length_app in Eh. cbn in Eh. lia.
Qed.

(** ** Properties *)

(** C20: The extraction of the metadata (safety and functional): for every
    metadata whose lists end with their last element and whose policies are of
    two bytes, valid or not, and whatever allocations fail, the extraction
    accesses only its objects and arrays, releases everything it allocates, and
    leaves a structure whose sizes fit its arrays; it reports an error when it
    fails. When no allocation fails the result, the structure and the reports
    are those of the reference extraction. *)
Theorem metadata_extracted (nf : bool) (d : profile_data) (src : list Z) (e : LPA_API_ERROR) :
  Forall is_byte src → delimited_metadata src → valid_fields d → 2 < zlen src →
  triple nf emp%I (_extractFieldsFromProfileMetadata (Some src) (zlen src) d) e
    (λ r e', ⟦valid_fields r.2 ∧ (r.1 = false → e' ≠ LPA_NO_ERROR) ∧
       (nf = true → ∃ errs, (r, errs) = metadata_result d src ∧ e' = reported errs e)⟧)%I.
Proof.
  intros Hs Hdel Hd Hlen. iIntros "_". iApply metadata_ok_run; [done..|]. iIntros (r errs) "%H".
  destruct H as (H1 & H2 & H3 & H4). iPureIntro. split_and!; [done| |].
  - intros Hr. by apply reported_error; [|apply H4].
  - intros Hnf. exists errs. split; [by apply H1|done].
Qed.

(** A profile named ABC, with PPR1, of the operator 001-01 and group identifier
    A5. *)
Definition sample_metadata_bytes : list Z :=
  tlvs_bytes [(PROFILE_METADATA_TAG, tlvs_bytes
    [(0x5A, [0x98; 0x10; 0x32; 0x54; 0x76; 0x98; 0x10; 0x32; 0x54; 0xF6]); (0x91, [0x4F; 0x70]);
     (0x92, [0x41; 0x42; 0x43]); (0xB7, tlvs_bytes [(0x80, [0x00; 0xF1; 0x10]); (0x81, [0xA5])]);
     (0x99, [0x06; 0x40])])].

Definition empty_profile : profile_data :=
  ProfileData 0 false false [0; 0; 0] (fill 0 10) 0 false (fill 0 10) 0 false (fill 0 66) 0 false 0.

Lemma metadata_extracted_witness :
  2 < zlen sample_metadata_bytes ∧
  triple true emp%I (_extractFieldsFromProfileMetadata (Some sample_metadata_bytes) (zlen sample_metadata_bytes) empty_profile)
    LPA_NO_ERROR
    (λ r e', ⟦valid_fields r.2 ∧ (r.1 = false → e' ≠ LPA_NO_ERROR) ∧
       (true = true → ∃ errs, (r, errs) = metadata_result empty_profile sample_metadata_bytes ∧
          e' = reported errs LPA_NO_ERROR)⟧)%I.
Proof.
  split; [done|]. apply metadata_extracted; [| | |done].
  - vm_compute. repeat constructor; discriminate.
  - intros v Hv. vm_compute in Hv. injection Hv as <-. eexists. split; [vm_compute; reflexivity|].
    split; intros w Hin; rw !elem_of_cons in Hin; destruct Hin as [E|[E|[E|[E|[E|E]]]]];
      try (by apply elem_of_nil in E); try discriminate E; injection E as ->; first [done | vm_compute; by eexists].
  - rw /valid_fields. split_and!; try done. repeat constructor; rw /is_byte; lia.
Defined.

(** A policies field of one byte is read past its end. *)
Definition short_policies : list Z :=
  tlvs_bytes [(PROFILE_METADATA_TAG, tlvs_bytes [(0x99, [0x06]); (0x5A, []); (0x92, [])])].

Lemma policies_overread :
  _extractFieldsFromProfileMetadata (Some short_policies) (zlen short_policies) empty_profile
    (World ∅ [] LPA_NO_ERROR) = None.
Proof. by vm_compute. Qed.
