(* ===== verification/Incoming.v ===== *)
(** * The metadata of a profile, as its operator means it

    A description of a profile, its encoding as the metadata of [BF25], and
    what the policy checks have to know of it. The extraction of Metadata.v,
    run on the encoding, finds it. *)

From iris.bi Require Import bi.
From iris.proofmode Require Import proofmode.
From S2P Require Import Prelude ApiError ProfileInfo Heap Wp RawData BerTlv TlvWalk Ppr Rat Policy Metadata.

(** ** Descriptions and their encoding *)

Record description := Description {
  ds_iccid : list Z;
  ds_provider : list Z;
  ds_name : list Z;
  ds_others : list (Z * list Z);       (** icon, class, notifications, ... *)
  ds_owner : option operator;
  ds_policies : option (list Z)
}.

Definition owner_value (o : operator) : list Z := tlvs_bytes (operator_objects o).

Definition description_objects (m : description) : list (Z * list Z) :=
  [(0x5A, ds_iccid m); (0x91, ds_provider m); (0x92, ds_name m)] ++ ds_others m ++
  opt_tlv 0xB7 (owner_value <$> ds_owner m) ++ opt_tlv 0x99 (ds_policies m).

Definition metadata_bytes (m : description) : list Z :=
  tlvs_bytes [(PROFILE_METADATA_TAG, tlvs_bytes (description_objects m))].

(** The tags of the fields that the extraction reads. *)
Definition field_tags : list Z := [0x99; 0xB7; 0x92; 0x91; 0x5A].

(** A group identifier fits the array of the structure. *)
Definition valid_gid (g : option (list Z)) : Prop :=
  ∀ v, g = Some v → Forall is_byte v ∧ zlen v <= LPA_GID_MAX_SIZE.

Definition valid_owner (o : operator) : Prop :=
  Forall is_byte (op_mcc_mnc o) ∧ zlen (op_mcc_mnc o) = 3 ∧ op_mcc_mnc o ≠ [0; 0; 0] ∧
  valid_gid (op_gid1 o) ∧ valid_gid (op_gid2 o).

Definition valid_description (m : description) : Prop :=
  Forall is_byte (ds_iccid m) ∧ zlen (ds_iccid m) = 10 ∧
  Forall is_byte (ds_provider m) ∧
  Forall is_byte (ds_name m) ∧ zlen (ds_name m) <= LPA_PROFILE_NAME_MAX_SIZE ∧
  Forall (λ tv, valid_tag tv.1 ∧ Forall is_byte tv.2 ∧ tv.1 ∉ field_tags) (ds_others m) ∧
  zlen (ds_others m) < 250 ∧
  (∀ o, ds_owner m = Some o → valid_owner o) ∧
  (∀ v, ds_policies m = Some v → Forall is_byte v ∧ zlen v = 2) ∧
  zlen (tlvs_bytes (description_objects m)) < 2 ^ 24.

(** ** What the policy checks know *)

(** The structure before the extraction. *)
Definition fresh_profile : profile_data :=
  ProfileData 0 false false [0; 0; 0] (fill 0 10) 0 false (fill 0 10) 0 false (fill 0 66)
    LPA_USR_CONSENT_DISABLED false 0.

(** The policies are the first 16 bits of a bit string with the number of its
    unused bits in front. *)
Definition policies_flag (v : option (list Z)) : Z := default 0 (v ≫= flag16).

Definition gid_array (g : option (list Z)) : list Z := put (fill 0 10) (default [] g).
Definition gid_size (g : option (list Z)) : Z := zlen (default [] g).

Definition described (m : description) : profile_data :=
  let gid f := ds_owner m ≫= f in
  let flag := policies_flag (ds_policies m) in
  ProfileData flag (_isPPR1definedInPPRflag flag) (_isPPR2definedInPPRflag flag)
    (default [0; 0; 0] (op_mcc_mnc <$> ds_owner m))
    (gid_array (gid op_gid1)) (gid_size (gid op_gid1)) (bool_decide (is_Some (gid op_gid1)))
    (gid_array (gid op_gid2)) (gid_size (gid op_gid2)) (bool_decide (is_Some (gid op_gid2)))
    (put (fill 0 66) (ds_name m ++ [0]))
    LPA_USR_CONSENT_DISABLED false 0.

(** ** Proofs *)

Lemma big_objects tvs : Forall sane tvs → zlen (tlvs_bytes tvs) < 2 ^ 24 → Forall valid_tlv tvs.
Proof.
  intros H Hs. apply Forall_forall. intros [t v] Hin. rw Forall_forall in H. destruct (H _ Hin) as [Ht Hb].
  split; [done|split; [|done]]. pose proof (value_size _ _ _ Hin). cbn [snd]. lia.
Qed.

Lemma opt_tlv_in t v w : v = Some w → (t, w) ∈ opt_tlv t v.
Proof. intros ->. by left. Qed.

Lemma owner_objects_valid o : valid_owner o → zlen (owner_value o) < 2 ^ 24 → Forall valid_tlv (operator_objects o).
Proof.
  intros (Hm & _ & _ & H1 & H2) Hs. apply big_objects; [|done].
  constructor; [by split; [apply tag_simple|]|]. apply Forall_app.
  split; apply opt_tlv_sane; try (by apply tag_simple); intros w E; [by apply H1|by apply H2].
Qed.

Lemma owner_valid m o : valid_description m → ds_owner m = Some o → Forall valid_tlv (operator_objects o).
Proof.
  intros H E. apply owner_objects_valid; [by apply H|].
  assert ((0xB7, owner_value o) ∈ description_objects m) as Hin.
  { rw /description_objects E /= !elem_of_cons elem_of_app elem_of_cons. tauto. }
  apply value_size in Hin. destruct H as (_ & _ & _ & _ & _ & _ & _ & _ & _ & Hs). lia.
Qed.

Lemma description_valid m : valid_description m → Forall valid_tlv (description_objects m).
Proof.
  intros H. pose proof H as (Hi & _ & Hp & Hn & _ & Ho & _ & How & Hpol & Hs). apply big_objects; [|done].
  apply Forall_app. split; [repeat (constructor; [by split; [apply tag_simple|]|]); done|].
  apply Forall_app. split; [|apply Forall_app; split].
  - eapply Forall_impl; [exact Ho|]. by intros tv (? & ? & _).
  - apply opt_tlv_sane; [by apply tag_simple|]. intros w E.
    destruct (ds_owner m) as [o|] eqn:Eo; [|done]. injection E as <-. apply tlvs_bytes_byte.
    by apply (owner_valid m).
  - apply opt_tlv_sane; [by apply tag_simple|]. intros w E. by apply Hpol.
Qed.

Lemma metadata_fields_app l k : ∀ x errs,
  metadata_fields x (l ++ k) errs = let '(x, errs) := metadata_fields x l errs in metadata_fields x k errs.
Proof.
  induction l as [|tv l IH]; intros x errs; [done|]. cbn [app metadata_fields].
  destruct (metadata_field x tv) as [x' e']. by rw IH.
Qed.

(** Fields of other tags are passed over. *)
Lemma metadata_fields_others l x errs :
  Forall (λ tv, tv.1 ∉ field_tags) l → metadata_fields x l errs = (x, errs).
Proof.
  intros H. revert errs. induction H as [|[t v] l Ht _ IH]; intros errs; [done|].
  cbn [metadata_fields fst] in *. rw /metadata_field. destruct x as [d res i s p].
  rw /field_tags !not_elem_of_cons in Ht. destruct Ht as (H1 & H2 & H3 & H4 & H5 & _).
  repeat (ztest; [done|]). cbn iota. rw app_nil_r. apply IH.
Qed.

(** The owner in the structure. *)
Definition owned (d : profile_data) (o : operator) : profile_data :=
  let d := set_mccMnc d (op_mcc_mnc o) in
  let d := match op_gid1 o with Some v => set_gid1 d (put (gid1 d) v) (zlen v) true | None => d end in
  match op_gid2 o with Some v => set_gid2 d (put (gid2 d) v) (zlen v) true | None => d end.

Lemma owner_ok o d : valid_owner o → Forall valid_tlv (operator_objects o) →
  owner_result true d (owner_value o) = (true, owned d o, []).
Proof.
  intros (_ & Hl & Hz & H1 & H2) Ho. rw /owner_result /owner_value objects_tlvs //. cbn [default from_option id].
  assert (zlen (operator_objects o) mod 256 = zlen (operator_objects o) ∧ 0 < zlen (operator_objects o)) as [-> Hn].
  { by destruct (op_gid1 o) eqn:E1, (op_gid2 o) eqn:E2; rw /operator_objects E1 E2. }
  rw (_ : (0 <? _) = true); [|lia].
  assert (owner_fields d (operator_objects o) = (None, owned d o)) as ->.
  { rw /operator_objects /owned. cbn [owner_fields owner_field]. rw Hl. cbn [Z.eqb Pos.eqb].
    destruct (op_gid1 o) as [g1|], (op_gid2 o) as [g2|]; cbn [opt_tlv app owner_fields owner_field Z.eqb Pos.eqb];
      try (destruct (H1 _ eq_refl) as [_ G1]; rw (proj2 (Z.leb_le _ _) G1); cbn [owner_fields owner_field Z.eqb Pos.eqb]);
      try (destruct (H2 _ eq_refl) as [_ G2]; rw (proj2 (Z.leb_le _ _) G2)); done. }
  assert (mccMnc (owned d o) = op_mcc_mnc o) as -> by by (rw /owned; destruct (op_gid1 o), (op_gid2 o)).
  by rw decide_False.
Qed.

Lemma description_fields m : valid_description m →
  fields_result fresh_profile (tlvs_bytes (description_objects m)) =
    (true, described m, []).
Proof.
  intros H. pose proof (description_valid m H) as Hv. pose proof (owner_valid m) as Hov.
  specialize (λ o, Hov o H).
  destruct H as (_ & Hil & _ & _ & Hnl & Ho & Hc & How & Hpol & _).
  rw /fields_result objects_tlvs //. cbn [default from_option id].
  assert (2 < zlen (description_objects m) < 256) as Hn.
  { rw /description_objects !zlen_app. destruct (ds_owner m), (ds_policies m); cbn [opt_tlv fmap option_fmap option_map];
      rw ?zlen_cons; change (zlen []) with 0; zlen_pos; lia. }
  rw Z.mod_small; [|lia]. rw (_ : (2 <? _) = true); [|lia].
  rw /description_objects. cbn [app metadata_fields metadata_field Z.eqb Pos.eqb].
  rw Hil (proj2 (Z.leb_le _ _)) //. cbn [app metadata_fields Z.eqb Pos.eqb].
  rw metadata_fields_app metadata_fields_others; [|eapply Forall_impl; [exact Ho|]; by intros tv (_ & _ & ?)].
  rw metadata_fields_app bool_decide_true //. rw /described.
  destruct (ds_owner m) as [o|] eqn:Eo;
    cbn [mbind option_bind fmap option_fmap option_map opt_tlv metadata_fields metadata_field Z.eqb Pos.eqb].
  - rw owner_ok; [|by apply How|by apply Hov]. cbn [app]. rw /owned.
    destruct (ds_policies m), (op_gid1 o), (op_gid2 o); done.
  - by destruct (ds_policies m).
Qed.

Lemma metadata_found m : valid_description m →
  Forall is_byte (metadata_bytes m) ∧ 2 < zlen (metadata_bytes m) ∧
  (first_tag PROFILE_METADATA_TAG (metadata_bytes m)).2 = Some (tlvs_bytes (description_objects m)).
Proof.
  intros H. pose proof (description_valid m H) as Hv.
  assert (Forall valid_tlv [(PROFILE_METADATA_TAG, tlvs_bytes (description_objects m))]) as Hm.
  { apply Forall_singleton. split; [by right|split; [apply H|by apply tlvs_bytes_byte]]. }
  split; [by apply tlvs_bytes_byte|split; [|by rw /metadata_bytes first_tag_tlvs]].
  rw /metadata_bytes tlvs_bytes_zlen tlv_bytes_zlen.
  pose proof (ber_length_bounds (zlen (tlvs_bytes (description_objects m)))).
  change (negb (Z.land PROFILE_METADATA_TAG 0xFF00 =? 0)) with true. cbn iota.
  assert ((0x5A, ds_iccid m) ∈ description_objects m) as Hin by by left. apply value_size in Hin. zlen_pos. lia.
Qed.

Lemma description_delimited m : valid_description m → delimited_metadata (metadata_bytes m).
Proof.
  intros H v Hf. destruct (metadata_found m H) as (_ & _ & E). rw E in Hf. injection Hf as <-.
  exists (description_objects m). split; [by apply objects_tlvs, description_valid|].
  pose proof (owner_valid m) as Hov. specialize (λ o, Hov o H).
  destruct H as (_ & _ & _ & _ & _ & Ho & _ & _ & Hpol & _).
  assert (∀ t w, t ∈ field_tags → (t, w) ∉ ds_others m) as Hothers.
  { intros t w Ht Hin. apply (proj1 (Forall_forall _ _) Ho) in Hin as (_ & _ & Hn). by apply Hn. }
  split; intros w Hin; rw /description_objects /= !elem_of_cons !elem_of_app in Hin;
    destruct Hin as [[=]|[[=]|[[=]|[Hin|[Hin|Hin]]]]].
  - by apply Hothers in Hin; [|by (right; left)].
  - destruct (ds_owner m) as [o|]; [|by apply elem_of_nil in Hin]. apply list_elem_of_singleton in Hin as [= ->].
    rw /owner_value objects_tlvs; [by eexists|by apply Hov].
  - destruct (ds_policies m) as [p|]; [by apply list_elem_of_singleton in Hin|by apply elem_of_nil in Hin].
  - by apply Hothers in Hin; [|by left].
  - destruct (ds_owner m) as [o|]; [by apply list_elem_of_singleton in Hin|by apply elem_of_nil in Hin].
  - destruct (ds_policies m) as [p|]; [|by apply elem_of_nil in Hin]. apply list_elem_of_singleton in Hin as [= ->].
    destruct (Hpol p eq_refl) as [_ Hl]. lia.
Qed.

Lemma description_extracted m : valid_description m →
  metadata_result fresh_profile (metadata_bytes m) = (true, described m, []).
Proof.
  intros H. destruct (metadata_found m H) as (_ & _ & E). by rw /metadata_result E description_fields.
Qed.

Lemma fresh_valid : valid_fields fresh_profile.
Proof. rw /valid_fields. split_and!; try done. repeat constructor; rw /is_byte; lia. Qed.

(** ** Properties *)

(** The extraction on an encoded description, as the download uses it. *)
Lemma metadata_read (m : description) (e : LPA_API_ERROR) :
  valid_description m →
  triple true emp%I
    (_extractFieldsFromProfileMetadata (Some (metadata_bytes m)) (zlen (metadata_bytes m)) fresh_profile) e
    (λ r e', ⟦r = (true, described m) ∧ e' = e⟧)%I.
Proof.
  intros H. destruct (metadata_found m H) as (Hb & Hl & _). iIntros "_".
  iApply metadata_ok_run; [done|by apply description_delimited|apply fresh_valid|done|].
  iIntros (r errs) "%Hr". destruct Hr as [Hr _]. specialize (Hr eq_refl).
  rw description_extracted // in Hr. by injection Hr as -> ->.
Qed.

(** C21: Round trip of the metadata: from the encoding of a description of a
    profile, whatever other fields it has, the extraction finds exactly what the
    policy checks have to know of the profile; it reports no error and leaves
    nothing allocated. *)
Theorem metadata_roundtrip (m : description) (e : LPA_API_ERROR) :
  valid_description m →
  triple true emp%I
    (_extractFieldsFromProfileMetadata (Some (metadata_bytes m)) (zlen (metadata_bytes m)) fresh_profile) e
    (λ r e', ⟦r = (true, described m) ∧ e' = e⟧)%I.
Proof. apply metadata_read. Qed.

(** A profile with PPR1, of the operator 001-01 and group identifier A5. *)
Definition sample_description : description :=
  Description [0x98; 0x10; 0x32; 0x54; 0x76; 0x98; 0x10; 0x32; 0x54; 0xF6] [0x4F; 0x70] [0x41; 0x42; 0x43]
    [(0x95, [0x02])] (Some (Operator [0x00; 0xF1; 0x10] (Some [0xA5]) None)) (Some [0x06; 0x40]).

Lemma sample_description_valid : valid_description sample_description.
Proof.
  rw /valid_description /=. split_and!; try (by repeat constructor; rw /is_byte; lia); try done.
  - apply Forall_singleton. split_and!; [by apply tag_simple|by repeat constructor; rw /is_byte; lia|].
    rw /field_tags !not_elem_of_cons. cbn [fst]. split_and!; try lia. apply not_elem_of_nil.
  - intros o [= <-]. rw /valid_owner /=. split_and!; [by repeat constructor; rw /is_byte; lia|done..| |done].
    intros v [= <-]. split; [|done]. by repeat constructor; rw /is_byte; lia.
  - intros v [= <-]. split; [|done]. by repeat constructor; rw /is_byte; lia.
Qed.

Lemma metadata_roundtrip_witness :
  valid_description sample_description ∧ hasPPR1 (described sample_description) = true ∧
  triple true emp%I
    (_extractFieldsFromProfileMetadata (Some (metadata_bytes sample_description))
       (zlen (metadata_bytes sample_description)) fresh_profile) LPA_NO_ERROR
    (λ r e', ⟦r = (true, described sample_description) ∧ e' = LPA_NO_ERROR⟧)%I.
Proof.
  split; [exact sample_description_valid|split; [reflexivity|]].
  apply metadata_roundtrip. exact sample_description_valid.
Defined.
