(* ===== verification/Download.v ===== *)
(** * The policy checks of a download

    Steps 11 to 16 of [_manageDownloadProfile] of [lpa_manager.c]: between the
    authentication of the client and the preparation of the download, the
    metadata of the incoming profile is checked against the rules access table
    and the profiles of the eUICC, and the user is asked for consent. The events
    sent to the application about the progress are not modelled. *)

From stdpp Require Import gmap.
From iris.bi Require Import bi.
From iris.proofmode Require Import proofmode.
From S2P Require Import Prelude CLib StateMonad ApiError ProfileInfo Heap Wp RawData BerTlv TlvWalk SeMedia Apdu Es10 Es10b.
From S2P Require Import Es10c Profiles Ppr Rat Policy Metadata Incoming.

Definition LPA_CANCEL_SESSION_POSTPONED : Z := 1.
Definition LPA_CANCEL_SESSION_UNDEFINED_REASON : Z := 127.

(** The request of the callback, and what the application answers in it. *)
Record LPA_REQUEST_USER_CONSENT_FOR_LOADING_PROFILE := UserConsent {
  uc_userCallBackType : Z;
  uc_profileName : list Z;
  uc_downloadAllowed : bool;
  uc_cancelSessionReason : Z
}.
Abbreviation user_consent := LPA_REQUEST_USER_CONSENT_FOR_LOADING_PROFILE.

(** [incomingProfileData.performCancelSession = true;
    incomingProfileData.cancelSessionReason = reason;] *)
Definition cancel_download (reason : Z) (d : profile_data) : profile_data :=
  set_cancelSessionReason (set_performCancelSession d true) reason.

(** ** Code *)

Section code.
Context {D : Type}.
Abbreviation M := (Heap.M (sdk D)).

Definition _lpaManagerGetRAT : option ptr → M (bool * ptr) := lpaManagerES10b_GetRAT.

(** Step 11: the fields of the metadata, in a structure of zeros. *)
Definition extract_metadata (_profileMetadata : data_s) (lpaApiError : LPA_API_ERROR) (d : profile_data)
    : M (LPA_API_ERROR * profile_data) :=
  if no_error lpaApiError then
    let d := ProfileData 0 false false (mccMnc d) (gid1 d) (gid1Size d) false (gid2 d) (gid2Size d) false
               (profileName d) LPA_USR_CONSENT_DISABLED false (cancelSessionReason d) in
    if len _profileMetadata >? 0 then
      let* '(ok, d) :=
        with_error (_extractFieldsFromProfileMetadata (val _profileMetadata) (len _profileMetadata) d) in
      ret (if ok : bool then (lpaApiError, d)
           else (LPA_ERROR_LOCAL_PROFILE_UNABLE_TO_EXTRACT_DATA, cancel_download LPA_CANCEL_SESSION_UNDEFINED_REASON d))
    else ret (lpaApiError, d)
  else ret (lpaApiError, d).

(** Step 12: the rules access table, when a policy is defined. *)
Definition retrieve_rules (lpaApiError : LPA_API_ERROR) (d : profile_data) (eUICC_RATrules : ptr)
    : M (LPA_API_ERROR * profile_data * ptr) :=
  if no_error lpaApiError && (hasPPR1 d || hasPPR2 d) then
    let* '(ok, eUICC_RATrules) := _lpaManagerGetRAT (Some eUICC_RATrules) in
    ret (if ok : bool then (lpaApiError, d, eUICC_RATrules)
         else (LPA_ERROR_INVALID_GET_RAT, cancel_download LPA_CANCEL_SESSION_PPR_NOT_ALLOWED d, eUICC_RATrules))
  else ret (lpaApiError, d, eUICC_RATrules).

(** Step 13: the installed profiles. *)
Definition retrieve_profiles (lpaApiError : LPA_API_ERROR) (d : profile_data) (info : get_profiles_info)
    : M (LPA_API_ERROR * profile_data * get_profiles_info) :=
  if no_error lpaApiError then
    let* '(ok, info) := _getProfilesInfoForPPR info in
    ret (if ok : bool then (lpaApiError, d, info)
         else (LPA_ERROR_INVALID_GET_PROFILES_INFO_EXCHANGE, cancel_download LPA_CANCEL_SESSION_UNDEFINED_REASON d, info))
  else ret (lpaApiError, d, info).

(** The structure of the installed profiles with its list, as the check reads
    it. *)
Definition profiles_of (info : get_profiles_info) : M LPA_GET_PROFILES_INFO :=
  let '(GetProfilesInfo count found max list) := info in
  let* infos := (if isNull list then ret [] else load_ppr_infos list) in ret (ProfilesInfo count found max infos).

(** Step 14: the check against the installed profiles. *)
Definition check_profiles (lpaApiError : LPA_API_ERROR) (d : profile_data) (info : get_profiles_info)
    : M (LPA_API_ERROR * profile_data) :=
  if no_error lpaApiError then
    let* installed := profiles_of info in
    let* '(ok, d') :=
      with_error (lift (_checkIncomingProfilePPRconditionVersusInstalledProfiles (Some d) (Some installed))) in
    let d := default d d' in
    ret (if ok : bool then (if performCancelSession d then (LPA_ERROR_PPR_NOT_ALLOWED, d) else (lpaApiError, d))
         else (LPA_ERROR_INVALID_GET_PROFILES_INFO_EXCHANGE, cancel_download LPA_CANCEL_SESSION_UNDEFINED_REASON d))
  else ret (lpaApiError, d).

(** Step 15: the check against the rules. *)
Definition check_policies (lpaApiError : LPA_API_ERROR) (d : profile_data) (eUICC_RATrules : ptr)
    : M (LPA_API_ERROR * profile_data) :=
  if no_error lpaApiError && (hasPPR1 d || hasPPR2 d) then
    let* '(ok, d) := with_error (_checkIncomingProfilePPRattributesVersusRAT d eUICC_RATrules) in
    let d := if ok : bool then d else cancel_download LPA_CANCEL_SESSION_PPR_NOT_ALLOWED d in
    ret (if performCancelSession d then LPA_ERROR_PPR_NOT_ALLOWED else lpaApiError, d)
  else ret (lpaApiError, d).

(** Step 16: the consent of the user, when there is a callback to ask for it. *)
Definition ask_consent (query : option (user_consent → bool * user_consent)) (lpaApiError : LPA_API_ERROR)
    (d : profile_data) : option (LPA_API_ERROR * profile_data) :=
  if no_error lpaApiError && negb (userCallBackType d =? LPA_USR_CONSENT_DISABLED) then
    d ← match query with
        | Some query =>
            name ← c_str (profileName d);
            profileName ← strncpy (fill 0 (LPA_PROFILE_NAME_MAX_SIZE + 2)) name (LPA_PROFILE_NAME_MAX_SIZE + 1);
            let '(ok, answer) :=
              query (UserConsent (userCallBackType d) profileName false LPA_CANCEL_SESSION_UNDEFINED_REASON) in
            Some (if ok : bool
                  then set_cancelSessionReason (set_performCancelSession d (negb (uc_downloadAllowed answer)))
                         (uc_cancelSessionReason answer)
                  else cancel_download LPA_CANCEL_SESSION_POSTPONED d)
        | None => Some d
        end;
    Some (if performCancelSession d then LPA_ERROR_DOWNLOAD_SESSION_CANCELED_BY_USER else lpaApiError, d)
  else Some (lpaApiError, d).

(** Steps 11 to 16, with the release of what they allocate: the error that ends
    the download, if any, and the decisions. *)
Definition check_download (_profileMetadata : data_s) (query : option (user_consent → bool * user_consent))
    (lpaApiError : LPA_API_ERROR) (d : profile_data) : M (LPA_API_ERROR * profile_data) :=
  let* '(e, d) := extract_metadata _profileMetadata lpaApiError d in
  let* '(e, d, eUICC_RATrules) := retrieve_rules e d None in
  let* '(e, d, info) := retrieve_profiles e d (GetProfilesInfo 0 0 0 None) in
  let* '(e, d) := check_profiles e d info in
  let* '(e, d) := check_policies e d eUICC_RATrules in
  (if isNull (gpi_profileInfoList info) then ret tt else lpaCoreMemoryFree (gpi_profileInfoList info)) ;;
  ERASE_RAWDATAOBJECT eUICC_RATrules ;;
  of_option (ask_consent query e d).
End code.

(** ** Reference

    The decision on a download: of the profile, the rules of the eUICC, its
    profiles and what the user answers. *)

(** What the user is asked. *)
Definition asked (d : profile_data) : user_consent :=
  UserConsent (userCallBackType d) (put (fill 0 (LPA_PROFILE_NAME_MAX_SIZE + 2)) (default [] (c_str (profileName d))))
    false LPA_CANCEL_SESSION_UNDEFINED_REASON.
Definition user_decision (query : option (user_consent → bool * user_consent)) (d : profile_data) : profile_data :=
  match query with
  | Some query =>
      let '(ok, answer) := query (asked d) in
      if ok : bool then decide_profile d (userCallBackType d) (negb (uc_downloadAllowed answer)) (uc_cancelSessionReason answer)
      else decide_profile d (userCallBackType d) true LPA_CANCEL_SESSION_POSTPONED
  | None => d
  end.

Definition installed_verdict_on (d : profile_data) (infos : list LPA_PROFILE_INFO_FOR_PPR) : profile_data :=
  if hasPPR1 d && existsb operational infos
  then decide_profile d LPA_USR_CONSENT_DISABLED true LPA_CANCEL_SESSION_PPR_NOT_ALLOWED
  else decide_profile d
         (if existsb enabled_PPR1 infos then LPA_USR_CONSENT_PROFILE_WITH_PPR1_ENABLED_PRESENT else LPA_USR_CONSENT_DISABLED)
         false (cancelSessionReason d).

Definition download_decision (query : option (user_consent → bool * user_consent)) (d : profile_data)
    (rules : list rule) (infos : list LPA_PROFILE_INFO_FOR_PPR) : LPA_API_ERROR * profile_data :=
  let d1 := installed_verdict_on d infos in
  if performCancelSession d1 then (LPA_ERROR_PPR_NOT_ALLOWED, d1)
  else
    let d2 := if hasPPR1 d || hasPPR2 d then policy_decision d1 rules else d1 in
    if performCancelSession d2 then (LPA_ERROR_PPR_NOT_ALLOWED, d2)
    else if userCallBackType d2 =? LPA_USR_CONSENT_DISABLED then (LPA_NO_ERROR, d2)
    else
      let d3 := user_decision query d2 in
      (if performCancelSession d3 then LPA_ERROR_DOWNLOAD_SESSION_CANCELED_BY_USER else LPA_NO_ERROR, d3).

(** The metadata of the server, which are optional, and the profile they
    describe. *)
Definition sent_metadata (m : option description) : data_s :=
  match m with Some m => DataS (Some (metadata_bytes m)) (zlen (metadata_bytes m)) | None => DataS None 0 end.
Definition described_profile (m : option description) : profile_data :=
  match m with Some m => described m | None => fresh_profile end.

(** The digits of its country and network code are decimal, or F. *)
Definition valid_incoming (m : description) : Prop :=
  valid_description m ∧
  ∀ o, ds_owner m = Some o → Forall (λ p, profile_digit p = true) (digits (op_mcc_mnc o)).

Section reference.
Context {D : Type}.
Implicit Types (g : sdk D).

(** The eUICC answers the rules, when it is asked for them. *)
Definition rules_answered (d : profile_data) (rules : list rule) g g1 : Prop :=
  if hasPPR1 d || hasPPR2 d then
    ∃ x a, exchanges_in ES10b None rat_request g x a ∧ rat_outcome x = (None, Some (rat_bytes rules)) ∧
           g1 = answered_in ES10b x a g
  else g1 = g.

(** It answers its profiles: their identifiers, and then, when there are any,
    what the check needs of them. *)
Definition profiles_answered (ps : list installed) g g2 : Prop :=
  ∃ ids x1 a1, Forall (λ v, Forall is_byte v ∧ zlen v <= 100) ids ∧ zlen ids = zlen ps ∧
    exchanges_into number_request TEMP_BUFFER_SIZE_FOR_PROFILES_COUNT g x1 a1 ∧
    answer_data x1 = Some (profile_list ids) ∧ settled (set_apdu a1 g) ∧
    match ps with
    | [] => g2 = set_apdu a1 g
    | _ => ∃ x2 a2, exchanges_into ppr_request (ppr_room (zlen ps)) (set_apdu a1 g) x2 a2 ∧
             answer_data x2 = Some (profile_list (profile_bytes <$> ps)) ∧ settled (set_apdu a2 g) ∧ g2 = set_apdu a2 g
    end.
End reference.

(** ** Proofs *)

(** *** The end of a download and the cancellation of its session *)

Section cancellation.
Context {D : Type}.
Implicit Types (w : world (sdk D)).

Lemma bnd_Some {A B} (m : Heap.M (sdk D) A) (f : A → Heap.M (sdk D) B) w b w' :
  bnd m f w = Some (b, w') → ∃ a w1, m w = Some (a, w1) ∧ f a w1 = Some (b, w').
Proof. rw /bnd. destruct (m w) as [[a w1]|]; [eauto|done]. Qed.

Lemma value_Some {A} (a : A) w b w' : ret a w = Some (b, w') → b = a ∧ w' = w.
Proof. by intros [= -> ->]. Qed.

(** An error before the check of the profiles is one that cancels. *)
Definition explained (e : LPA_API_ERROR) (d : profile_data) : Prop := e ≠ LPA_NO_ERROR → performCancelSession d = true.
Definition agreed (e : LPA_API_ERROR) (d : profile_data) : Prop := e ≠ LPA_NO_ERROR ↔ performCancelSession d = true.

Lemma extract_explained md d w e' d' w' :
  extract_metadata md LPA_NO_ERROR d w = Some ((e', d'), w') → explained e' d'.
Proof.
  rw /extract_metadata /explained. cbn [no_error bool_decide]. destruct (_ >? 0).
  - intros ([ok d1] & w1 & _ & [E ->]%value_Some)%bnd_Some. destruct ok; injection E as -> ->; done.
  - intros [[= -> ->] ->]%value_Some. done.
Qed.

Lemma rules_explained e d p w e' d' q w' :
  explained e d → retrieve_rules e d p w = Some ((e', d', q), w') → explained e' d'.
Proof.
  intros H. rw /retrieve_rules. destruct (_ && _); [|by intros [[= -> -> ->] ->]%value_Some].
  intros ([ok q1] & w1 & _ & [E ->]%value_Some)%bnd_Some. destruct ok; injection E as -> -> ->; done.
Qed.

Lemma profiles_explained e d i w e' d' i' w' :
  explained e d → retrieve_profiles e d i w = Some ((e', d', i'), w') → explained e' d'.
Proof.
  intros H. rw /retrieve_profiles. destruct (no_error e); [|by intros [[= -> -> ->] ->]%value_Some].
  intros ([ok i1] & w1 & _ & [E ->]%value_Some)%bnd_Some. destruct ok; injection E as -> -> ->; done.
Qed.

Lemma check_profiles_agreed e d i w e' d' w' :
  explained e d → check_profiles e d i w = Some ((e', d'), w') → agreed e' d'.
Proof.
  intros H. rw /check_profiles. destruct (no_error e) eqn:En.
  - apply no_error_true in En as ->. intros (x & w1 & _ & ([ok d1] & w2 & _ & [E ->]%value_Some)%bnd_Some)%bnd_Some.
    destruct ok; [|by injection E as -> ->]. destruct (performCancelSession _) eqn:Ec; injection E as -> ->; by rw /agreed Ec.
  - intros [[= -> ->] ->]%value_Some. apply no_error_false in En. split; [done|by intros].
Qed.

Lemma check_policies_agreed e d p w e' d' w' :
  agreed e d → check_policies e d p w = Some ((e', d'), w') → agreed e' d'.
Proof.
  intros H. rw /check_policies. destruct (_ && _) eqn:En; [|by intros [[= -> ->] ->]%value_Some].
  apply andb_prop in En as [->%no_error_true _]. intros ([ok d1] & w2 & _ & [[= -> ->] ->]%value_Some)%bnd_Some.
  rw /agreed. by destruct (performCancelSession _).
Qed.

Lemma consent_agreed query e d e' d' : agreed e d → ask_consent query e d = Some (e', d') → agreed e' d'.
Proof.
  intros H. rw /ask_consent. destruct (_ && _) eqn:En; [|by intros [= <- <-]].
  apply andb_prop in En as [->%no_error_true _]. intros (d1 & _ & [= <- <-])%bind_Some.
  rw /agreed. by destruct (performCancelSession d1).
Qed.

(** C9: A download ends with an error in the steps from the metadata to the consent of the user exactly when the session is to
    be cancelled there, on every run: whatever the server, the eUICC and the application answer, and whichever allocations
    fail. *)
Theorem download_cancelled (md : data_s) (query : option (user_consent → bool * user_consent)) w e d w' :
  check_download md query LPA_NO_ERROR fresh_profile w = Some ((e, d), w') →
  e ≠ LPA_NO_ERROR ↔ performCancelSession d = true.
Proof.
  intros ([e1 d1] & w1 & H1%extract_explained & H)%bnd_Some.
  apply bnd_Some in H as ([[e2 d2] p] & w2 & H2%rules_explained & H); [|done].
  apply bnd_Some in H as ([[e3 d3] info] & w3 & H3%profiles_explained & H); [|done].
  apply bnd_Some in H as ([e4 d4] & w4 & H4%check_profiles_agreed & H); [|done].
  apply bnd_Some in H as ([e5 d5] & w5 & H5%check_policies_agreed & H); [|done].
  apply bnd_Some in H as (u & w6 & _ & H). apply bnd_Some in H as (u' & w7 & _ & H).
  destruct (ask_consent query e5 d5) as [[e6 d6]|] eqn:H6; [|done]. injection H as <- <- _. by apply consent_agreed in H6.
Qed.
End cancellation.

(** *** The decision *)

Section decision.
Context {D : Type}.
Implicit Types (g : sdk D).

Lemma wp_with_error {A} nf (m : Heap.M LPA_API_ERROR A) g (a : A) (P : A → heapProp) Φ :
  wp nf m (errorCode g) (λ x e, ⟦e = errorCode g⟧ ∗ P x) -∗ (∀ x, P x -∗ Φ x g) -∗ wp nf (with_error (D := D) m) g Φ.
Proof.
  iIntros "Hm HΦ". iApply wp_zoom. iApply (wp_wand with "Hm"). iIntros (x e) "[-> Hx]".
  rw set_errorCode_same. by iApply "HΦ".
Qed.

Lemma wp_extract_step m g Φ :
  (∀ m0, m = Some m0 → valid_description m0) →
  Φ (LPA_NO_ERROR, described_profile m) g -∗
  wp true (extract_metadata (D := D) (sent_metadata m) LPA_NO_ERROR fresh_profile) g Φ.
Proof.
  iIntros (Hm) "HΦ". rw /extract_metadata. cbn [no_error bool_decide]. destruct m as [m|]; cbn [sent_metadata len val].
  2: { change (0 >? 0) with false. wp_value. iApply "HΦ". }
  specialize (Hm m eq_refl). destruct (metadata_found m Hm) as (_ & Hl & _). rw (_ : (_ >? 0) = true); [|lia].
  change (ProfileData 0 false false _ _ _ false _ _ false _ _ false _) with fresh_profile.
  wp_seq. iApply (wp_with_error _ _ _ (true, described m) (λ x, ⟦x = (true, described m)⟧)%I with "[] [HΦ]").
  - iApply (wp_wand _ _ _ (λ r e', ⟦r = (true, described m) ∧ e' = errorCode g⟧)%I).
    + iPoseProof (metadata_read m (errorCode g) Hm) as "H". by iApply "H".
    + iIntros (r e') "%H". destruct H as [-> ->]. by iSplit.
  - iIntros (x) "->". wp_value. iApply "HΦ".
Qed.

Definition rules_arg (d : profile_data) (rules : list rule) : option (list Z) :=
  if hasPPR1 d || hasPPR2 d then Some (rat_bytes rules) else None.

Lemma wp_rules_step d rules g g1 Φ :
  rules_answered d rules g g1 →
  (∀ p, raw_arg p (rules_arg d rules) -∗ Φ (LPA_NO_ERROR, d, p) g1) -∗
  wp true (retrieve_rules LPA_NO_ERROR d None) g Φ.
Proof.
  iIntros (Hr) "HΦ". rw /retrieve_rules /rules_answered /rules_arg in Hr |- *. cbn [no_error bool_decide andb].
  destruct (_ || _); [|subst; wp_value; by iApply "HΦ"].
  destruct Hr as (x & a & Hx & Ho & ->). wp_seq.
  iPoseProof (rat_read None None g x a Hx) as "H". iSpecialize ("H" with "[]"); [done|].
  iApply (wp_wand with "H"). iIntros ([ok p] g') "Hr". rw Ho. iDestruct "Hr" as "[%H Hp]". cbn [fst snd] in *. destruct H as [-> ->].
  cbn. wp_value. by iApply "HΦ".
Qed.

(** The structure of the installed profiles and its list. *)
Definition installed_list (info : get_profiles_info) (infos : list LPA_PROFILE_INFO_FOR_PPR) : heapProp :=
  match infos with
  | [] => ⟦info = GetProfilesInfo 0 0 0 None⟧%I
  | _ => (∃ l, ⟦info = GetProfilesInfo (zlen infos) (zlen infos) (zlen infos) (Some l)⟧ ∗ l ↦ BPprInfos infos)%I
  end.

Lemma wp_profiles_step d ps g g2 Φ :
  Forall valid_installed ps → zlen ps < 256 → profiles_answered ps g g2 →
  (∀ info, installed_list info (info_of <$> ps) -∗ Φ (LPA_NO_ERROR, d, info) g2) -∗
  wp true (retrieve_profiles LPA_NO_ERROR d (GetProfilesInfo 0 0 0 None)) g Φ.
Proof.
  iIntros (Hv Hl (ids & x1 & a1 & Hids & Hz & Hx1 & Ha1 & Hs1 & H)) "HΦ".
  rw /retrieve_profiles. cbn [no_error bool_decide]. wp_seq. destruct ps as [|p ps].
  - subst g2. assert (ids = []) as -> by (destruct ids; [done|]; rw zlen_cons in Hz; change (zlen []) with 0 in Hz; zlen_pos; lia).
    iPoseProof (no_profiles_read 0 0 0 g x1 a1 Hx1 Ha1 Hs1) as "H". iSpecialize ("H" with "[]"); [done|].
    iApply (wp_wand with "H"). iIntros ([ok info] g') "%H". destruct H as [[= -> ->] ->]. wp_value. by iApply "HΦ".
  - destruct H as (x2 & a2 & Hx2 & Ha2 & Hs2 & ->). assert (0 < zlen (p :: ps) < 256) by (rw zlen_cons; rw zlen_cons in Hl; zlen_pos; lia).
    iPoseProof (profiles_read ids (p :: ps) 0 0 0 g x1 a1 x2 a2) as "H"; [done..|]. iSpecialize ("H" with "[]"); [done|].
    iApply (wp_wand with "H"). iIntros ([ok info] g') "(%l & %E & Hl)". destruct E as [[= -> ->] ->]. wp_value.
    iApply "HΦ". iExists l. iFrame "Hl". iPureIntro. by rw zlen_fmap.
Qed.

Lemma info_of_valid p : valid_installed p → valid_info (info_of p).
Proof.
  intros (_ & _ & _ & Hs & _ & Hc & Hb & Hr). rw /valid_info /info_of. cbn [profileClass profileState profilePolicyRules].
  rw !put_zlen; [|done..]. split_and!; [done..|]. rw /put. apply Forall_app. split; [done|]. apply Forall_drop.
  by apply (bool_decide_unpack _).
Qed.

Lemma wp_check_profiles d info infos g Φ :
  Forall valid_info infos →
  installed_list info infos -∗
  (let d1 := installed_verdict_on d infos in
   installed_list info infos -∗ Φ (if performCancelSession d1 then LPA_ERROR_PPR_NOT_ALLOWED else LPA_NO_ERROR, d1) g) -∗
  wp true (check_profiles LPA_NO_ERROR d info) g Φ.
Proof.
  iIntros (Hv) "Hl HΦ". rw /check_profiles. cbn [no_error bool_decide]. wp_seq.
  iApply (wp_wand _ _ _ (λ r g', ⟦g' = g ∧ ∃ max, r = ProfilesInfo (zlen infos) (zlen infos) max infos⟧ ∗ installed_list info infos)%I with "[Hl]").
  { destruct infos as [|i infos].
    - iDestruct "Hl" as "->". wp_seq. wp_value. wp_value. iPureIntro. split; [|done]. split; [done|]. by exists 0.
    - iDestruct "Hl" as (l) "[-> Hl]". wp_seq. cbn [isNull]. iApply (wp_load_ppr_infos with "Hl"). iIntros "Hl". wp_value.
      iSplit; [iPureIntro; split; [done|by eexists]|]. iExists l. by iFrame. }
  iIntros (r g') "[%H Hl]". destruct H as (-> & max & ->). wp_seq. iApply wp_zoom.
  pose proof (installed_decides d (zlen infos) max infos [] (errorCode g) Hv) as E. rw app_nil_r in E.
  iApply wp_lift; [exact E|]. rw set_errorCode_same. fold (installed_verdict_on d infos). cbn [default from_option id].
  wp_value. iSpecialize ("HΦ" with "Hl"). by destruct (performCancelSession _).
Qed.

Lemma wp_check_policies d rules p g Φ :
  valid_profile d → Forall (λ x, profile_digit x = true) (digits (mccMnc d)) → valid_table rules →
  performCancelSession d = false →
  raw_arg p (rules_arg d rules) -∗
  (∀ k, lost k -∗ ⟦codes k = if hasPPR1 d || hasPPR2 d then sum_list (map (codes_lost d) rules) else 0%nat⟧ -∗
     raw_arg p (rules_arg d rules) -∗
     let d2 := if hasPPR1 d || hasPPR2 d then policy_decision d rules else d in
     Φ (if performCancelSession d2 then LPA_ERROR_PPR_NOT_ALLOWED else LPA_NO_ERROR, d2) g) -∗
  wp true (check_policies (D := D) LPA_NO_ERROR d p) g Φ.
Proof.
  iIntros (Hd Hdig Ht Hc) "Hp HΦ". rw /check_policies /rules_arg. cbn [no_error bool_decide andb].
  destruct (_ || _) eqn:Hppr.
  2: { wp_value. iSpecialize ("HΦ" $! [] with "[] [] Hp"); [by rw /lost|by iPureIntro|]. by rw Hc. }
  cbn [raw_arg]. wp_seq.
  iApply (wp_with_error _ _ _ (true, d) (λ a, raw p (rat_bytes rules) ∗ ∃ k, lost k ∗
    ⟦a = (true, policy_decision d rules) ∧ codes k = sum_list (map (codes_lost d) rules)⟧)%I with "[Hp]").
  - iPoseProof (rat_decides d p rules (errorCode g) Hd Hdig Hppr Ht with "Hp") as "Hp".
    iApply (wp_wand with "Hp"). iIntros (a e') "($ & %k & Hk & %E)". destruct E as (-> & -> & Hk). iSplit; [done|].
    iExists k. by iFrame.
  - iIntros (a) "(Hp & %k & Hk & %E)". destruct E as (-> & Hk). wp_value. by iApply ("HΦ" with "Hk [] Hp").
Qed.

Lemma policy_decision_name d rules : profileName (policy_decision d rules) = profileName d.
Proof. rw /policy_decision. by destruct (_ || _). Qed.

Lemma strncpy_fill s n : zlen s <= n → strncpy (fill 0 (n + 1)) s n = Some (put (fill 0 (n + 1)) s).
Proof.
  intros Hs. pose proof (zlen_nonneg s). rw /strncpy wr_range_put.
  2: { rw zlen_take zlen_fill; lia. }
  f_equal. rw /put /fill take_app_ge; [|rw /zlen in Hs; lia]. rw length_app length_take length_replicate.
  rw /zlen in Hs. rw take_replicate !drop_replicate -app_assoc -replicate_add. do 2 f_equal. lia.
Qed.

Definition named (d : profile_data) : Prop := ∃ s, c_str (profileName d) = Some s ∧ zlen s <= LPA_PROFILE_NAME_MAX_SIZE + 1.

Lemma consent_decides query d :
  named d → performCancelSession d = false →
  ask_consent query LPA_NO_ERROR d =
  Some (if userCallBackType d =? LPA_USR_CONSENT_DISABLED then (LPA_NO_ERROR, d)
        else let d3 := user_decision query d in
             (if performCancelSession d3 then LPA_ERROR_DOWNLOAD_SESSION_CANCELED_BY_USER else LPA_NO_ERROR, d3)).
Proof.
  intros (s & Hs & Hl) Hc. rw /ask_consent. cbn [no_error bool_decide andb].
  destruct (userCallBackType d =? _); cbn [negb]; [done|]. rw /user_decision /asked.
  destruct query as [query|]; [|done]. rw Hs. cbn [mbind option_bind default from_option id].
  change (LPA_PROFILE_NAME_MAX_SIZE + 2) with (LPA_PROFILE_NAME_MAX_SIZE + 1 + 1). rw strncpy_fill //.
  cbn [mbind option_bind]. by destruct (query _) as [[] answer].
Qed.

(** What is known of the profile. *)
Lemma gid_fits gid : valid_gid gid → 0 <= gid_size gid <= zlen (gid_array gid).
Proof.
  intros Hg. rw /gid_size /gid_array put_zlen; destruct gid as [v|]; cbn; try done.
  - rw zlen_fill; [|done]. split; [apply zlen_nonneg|by apply Hg].
  - rw zlen_fill; [|done]. by apply Hg.
Qed.

Lemma c_str_prefix (b : list Z) n : b.[n] = Some 0 → ∃ s, c_str b = Some s ∧ zlen s <= n.
Proof.
  revert n. induction b as [|c b IH]; intros n Hi; pose proof (rd_Some_range _ _ _ Hi) as Hr.
  { change (zlen []) with 0 in Hr. lia. }
  cbn [c_str]. destruct (Z.eqb_spec c 0) as [->|Hc]; [exists []; split; [done|]; change (zlen []) with 0; lia|].
  destruct (Z.eq_dec n 0) as [->|Hn]; [by injection Hi as ->|].
  rw rd_cons_pos in Hi; [|lia]. apply IH in Hi as (s & -> & Hs). exists (c :: s). split; [done|]. rw zlen_cons. lia.
Qed.

Lemma described_facts m :
  (∀ m0, m = Some m0 → valid_incoming m0) →
  valid_profile (described_profile m) ∧ Forall (λ x, profile_digit x = true) (digits (mccMnc (described_profile m))) ∧
  named (described_profile m).
Proof.
  intros Hm. destruct m as [m|]; cbn [described_profile].
  2: { split_and!; [|repeat constructor|by exists []]. rw /valid_profile.
       split_and!; [repeat constructor; rw /is_byte; lia|done..]. }
  destruct (Hm m eq_refl) as [Hv Hd]. pose proof Hv as (_ & _ & _ & Hnb & Hn & _ & _ & Ho & _ & _).
  split; [|split].
  - rw /valid_profile /described. cbn [mccMnc gid1Size gid1 gid2Size gid2].
    destruct (ds_owner m) as [o|] eqn:Eo; cbn [mbind option_bind fmap option_fmap option_map default from_option id].
    + destruct (Ho o eq_refl) as (Hb & Hz & _ & H1 & H2). split_and!; [done..| | | |]; by apply gid_fits.
    + split_and!; try (by apply gid_fits); [|done]. repeat constructor; rw /is_byte; lia.
  - rw /described. cbn [mccMnc]. destruct (ds_owner m) as [o|] eqn:Eo; cbn; [by apply Hd|repeat constructor].
  - rw /named /described. cbn [profileName]. destruct (c_str_prefix (put (fill 0 66) (ds_name m ++ [0])) (zlen (ds_name m))) as (s & -> & Hs).
    { rw /put -app_assoc. by apply rd_at. }
    exists s. split; [done|]. lia.
Qed.

(** The lists of operators that the check of the rules leaves allocated. *)
Definition codes_left (d : profile_data) (rules : list rule) (infos : list LPA_PROFILE_INFO_FOR_PPR) : nat :=
  let d1 := installed_verdict_on d infos in
  if negb (performCancelSession d1) && (hasPPR1 d || hasPPR2 d) then sum_list (map (codes_lost d1) rules) else 0%nat.

Lemma wp_release_lists {A} info infos p o (k : Heap.M (sdk D) A) g Φ :
  installed_list info infos -∗ raw_arg p o -∗ wp true k g Φ -∗
  wp true ((if isNull (gpi_profileInfoList info) then ret tt else lpaCoreMemoryFree (gpi_profileInfoList info)) ;;
           ERASE_RAWDATAOBJECT p ;; k) g Φ.
Proof.
  iIntros "Hl Hp HΦ". wp_seq. destruct infos as [|i infos].
  - iDestruct "Hl" as "->". wp_value. wp_seq. by iApply (wp_erase_raw with "Hp").
  - iDestruct "Hl" as (l) "[-> Hl]". cbn [gpi_profileInfoList isNull]. iApply (wp_free_block with "Hl").
    wp_seq. by iApply (wp_erase_raw with "Hp").
Qed.

Lemma verdict_facts d infos :
  let d1 := installed_verdict_on d infos in
  hasPPR1 d1 = hasPPR1 d ∧ hasPPR2 d1 = hasPPR2 d ∧ mccMnc d1 = mccMnc d ∧ profileName d1 = profileName d ∧
  (valid_profile d → valid_profile d1).
Proof. rw /installed_verdict_on. by destruct (_ && _). Qed.

(** C8: Whether a download goes on (composition of the checks), when no allocation fails: for every incoming profile that well-formed
    metadata describe, or none, every table of valid rules that fits in the answer of the eUICC, and every list of fewer than
    256 profiles, with fields that fit the structure of a profile, that it answers, the steps from the metadata to the consent of the user end with the decision of the policy:
    refused beside an operational profile when it has PPR1; refused when one of its policies is covered by no operator of a
    rule; otherwise left to the user exactly when the deciding rule of one of its policies wants consent or an enabled profile
    has PPR1, and granted without a question otherwise, or when there is no callback to ask. Of the rules that cover a policy
    one decides: each replaces the one before unless it is less accurate, so that a rule that wants consent may be overridden
    by a later one that does not (Policy.consent_overridden). All that is read from the card is released, but the codes that
    the check of the rules loses. *)
Theorem download_decided (m : option description) (rules : list rule) (ps : list installed)
    (query : option (user_consent → bool * user_consent)) g g1 g2 :
  (∀ m0, m = Some m0 → valid_incoming m0) → valid_table rules →
  Forall valid_installed ps → zlen ps < 256 →
  rules_answered (described_profile m) rules g g1 → profiles_answered ps g1 g2 →
  triple true emp%I (check_download (sent_metadata m) query LPA_NO_ERROR fresh_profile) g
    (λ r g', ⟦r = download_decision query (described_profile m) rules (info_of <$> ps) ∧ g' = g2⟧ ∗
       ∃ k, lost k ∗ ⟦codes k = codes_left (described_profile m) rules (info_of <$> ps)⟧)%I.
Proof.
  intros Hm Ht Hps Hz Hr Hp. destruct (described_facts m Hm) as (Hd & Hdig & Hname). iIntros "_".
  set (d := described_profile m) in *. set (infos := info_of <$> ps).
  assert (Forall valid_info infos) as Hi by (apply Forall_fmap; eapply Forall_impl; [exact Hps|]; intros; by apply info_of_valid).
  wp_seq. iApply wp_extract_step; [by intros m0 [? _]%Hm|]. fold d.
  wp_seq. iApply (wp_rules_step with "[-]"); [exact Hr|]. iIntros (p) "Hp".
  wp_seq. iApply (wp_profiles_step with "[-]"); [done..|]. iIntros (info) "Hl". fold infos.
  wp_seq. iApply (wp_check_profiles with "Hl"); [done|]. cbv zeta. iIntros "Hl".
  destruct (verdict_facts d infos) as (E1 & E2 & E3 & E4 & Hd1).
  set (d1 := installed_verdict_on d infos) in *. rw /download_decision /codes_left. fold d1.
  destruct (performCancelSession d1) eqn:Hc; cbn [negb andb].
  - wp_seq. wp_value. iApply (wp_release_lists with "Hl Hp"). iApply wp_of_option. iSplit; [done|]. iExists []. iSplitL ""; [by rw /lost|by iPureIntro].
  - rw /rules_arg -E1 -E2. wp_seq. iApply (wp_check_policies with "Hp"); [by apply Hd1|by rw E3|done..|]. iIntros (k) "Hk %Hk Hp".
    cbv zeta. set (d2 := if hasPPR1 d1 || hasPPR2 d1 then policy_decision d1 rules else d1).
    iApply (wp_release_lists with "Hl Hp"). destruct (performCancelSession d2) eqn:Hc2.
    + iApply wp_of_option. iSplit; [done|]. iExists k. iFrame "Hk". by iPureIntro.
    + rw consent_decides //.
      2: { destruct Hname as (s & Hs & Hl). exists s. split; [|done]. rw /d2. destruct (_ || _); by rw ?policy_decision_name E4. }
      iApply wp_of_option. iSplit; [by destruct (userCallBackType d2 =? _)|]. iExists k. iFrame "Hk". by iPureIntro.
Qed.
End decision.

(** ** Witnesses *)

(** An eUICC with a provisioning profile and a rule that wants consent, and a user who gives it. *)
Definition sample_provisioning : installed := Installed sample_id [0x01] [0x01] [].
Definition sample_download_answers : list (list Z) :=
  (λ a, a ++ [0x90; 0x00]) <$> [rat_bytes [sample_rule true]; sample_number; profile_list [profile_bytes sample_provisioning]].
Definition agreeing_user (asked : user_consent) : bool * user_consent :=
  (true, UserConsent (uc_userCallBackType asked) (uc_profileName asked) true 0).
Definition sample_decision : LPA_API_ERROR * profile_data :=
  download_decision (Some agreeing_user) (described sample_description) [sample_rule true] [info_of sample_provisioning].

Lemma sample_incoming_valid : valid_incoming sample_description.
Proof. split; [apply sample_description_valid|]. intros o [= <-]. repeat constructor. Qed.

Lemma sample_provisioning_ok : Forall valid_installed [sample_provisioning].
Proof.
  constructor; [|done]. rw /valid_installed.
  split_and!; try (apply (bool_decide_unpack _); vm_compute; exact I); vm_compute; discriminate.
Qed.

Lemma download_decided_witness :
  let g := sample_sdk sample_download_answers in
  sample_decision.1 = LPA_NO_ERROR ∧ userCallBackType sample_decision.2 = LPA_USR_CONSENT_PPR1 ∧
  ∃ g1 g2, rules_answered (described sample_description) [sample_rule true] g g1 ∧ profiles_answered [sample_provisioning] g1 g2 ∧
    triple true emp%I (check_download (sent_metadata (Some sample_description)) (Some agreeing_user) LPA_NO_ERROR fresh_profile) g
      (λ r g', ⟦r = sample_decision ∧ g' = g2⟧ ∗
         ∃ k, lost k ∗ ⟦codes k = codes_left (described sample_description) [sample_rule true] [info_of sample_provisioning]⟧)%I.
Proof.
  intros g. split; [by vm_compute|]. split; [by vm_compute|].
  assert (∃ g1 g2, rules_answered (described sample_description) [sample_rule true] g g1 ∧ profiles_answered [sample_provisioning] g1 g2)
    as (g1 & g2 & H1 & H2).
  { eexists _, _. split.
    - rw /rules_answered (_ : hasPPR1 _ || hasPPR2 _ = true); [|by vm_compute].
      eexists _, _. split; [split; [vm_compute; reflexivity|answer_bytes]|]. split; [vm_compute; reflexivity|reflexivity].
    - exists [tlv_bytes 0x5A sample_id]. eexists _, _. split; [apply sample_number_ok|]. split; [done|].
      split; [split; [vm_compute; reflexivity|answer_bytes]|]. split; [vm_compute; reflexivity|]. split; [by vm_compute|].
      eexists _, _. split; [split; [vm_compute; reflexivity|answer_bytes]|]. split; [vm_compute; reflexivity|].
      split; [by vm_compute|reflexivity]. }
  exists g1, g2. split; [exact H1|]. split; [exact H2|].
  apply (download_decided (Some sample_description) [sample_rule true] [sample_provisioning] (Some agreeing_user) g g1 g2);
    [|apply sample_table|apply sample_provisioning_ok|done|exact H1|exact H2].
  intros m0 [= <-]. apply sample_incoming_valid.
Defined.

(** The same download beside an operational profile. *)
Lemma download_cancelled_witness :
  ∃ d w', check_download (sent_metadata (Some sample_description)) (Some agreeing_user) LPA_NO_ERROR fresh_profile
            (World ∅ [] (sample_sdk ([rat_bytes [sample_rule true] ++ [0x90; 0x00]] ++ sample_answers))) =
          Some ((LPA_ERROR_PPR_NOT_ALLOWED, d), w') ∧
          (LPA_ERROR_PPR_NOT_ALLOWED ≠ LPA_NO_ERROR ↔ performCancelSession d = true).
Proof.
  assert (∃ d w', check_download (sent_metadata (Some sample_description)) (Some agreeing_user) LPA_NO_ERROR fresh_profile
            (World ∅ [] (sample_sdk ([rat_bytes [sample_rule true] ++ [0x90; 0x00]] ++ sample_answers))) =
          Some ((LPA_ERROR_PPR_NOT_ALLOWED, d), w')) as (d & w' & H) by (eexists _, _; vm_compute; reflexivity).
  exists d, w'. split; [exact H|]. exact (download_cancelled _ _ _ _ _ _ H).
Defined.
