(* ===== verification/Modem.v ===== *)
(** * The generic modem driver ([driver/semedia_genericmodem.c])

    The driver of the card reader the product is built with: it opens a
    logical channel of the eUICC behind a cellular modem, wraps APDUs in the AT
    commands of the modem, collects the modem's answers and extracts the APDU
    responses from them. It fills the interface of SeMedia.v.

    The port to the modem is the interface [Port]: the four functions of
    platform_lpa_adaptor.h, which Adaptor.v implements. The build modelled is
    the product's: Linux ([LPA_SDK__PLATFORM_RASPBIAN]), with
    [_FFW_PCIOT_LPA_MODIFY_] and without [GM_CHECK_CARD_STATUS_ENABLED]. The
    waits of 50 ms between two reads are not modelled. *)

From Stdlib Require String.
From S2P Require Import Prelude CLib Util SeMedia.
Import Stdlib.Strings.String.StringSyntax.
#[local] Delimit Scope string_scope with string.

(** ** The port *)

(** The functions of platform_lpa_adaptor.h. A buffer argument is the list of
    the cells from the pointer to the end of the object; the read returns the
    cells it leaves. *)
Class Port (P : Type) := {
  pciot_lpa_open : list Z → ST P Z;
  pciot_lpa_close : Z → ST P Z;
  pciot_lpa_read : Z → list Z → Z → ST P (Z * list Z);
  pciot_lpa_write : Z → list Z → Z → ST P Z
}.

(** ** Constants *)

Definition GENERIC_MODEM_RESPONSE_BUFFER_SIZE : Z := 16 * 1024 + 1.
Definition GM_AT_COMMAND_BUFFER_SIZE : Z := 600.
Definition GM_RETRIEVE_RESPONSE_TIMEOUT : nat := 200.
Definition GM_SERIAL_PORT_NAME : list Z := chars "/dev/ttyCMIPC11"%string.
Definition LPA_CFG_READER_NAME_MAX_SIZE : Z := 64.
Definition GM_AT_COMMAND_PREFIX : list Z := chars "AT+CSIM="%string.
Definition GM_AT_COMMAND_RESPONSE_PREFIX : list Z := chars "+CSIM:"%string.
Definition GM_AT_COMMAND_RESPONSE_OK : list Z := chars "OK"%string.
Definition GM_AT_COMMAND_RESPONSE_ERROR : list Z := chars "ERROR"%string.
Definition GM_AT_COMMAND_RESET_CARD : list Z := chars "AT+CFUN=1,1"%string ++ [13].
Definition GM_AT_MODEM_START_EVENT : list Z := chars "^SYSSTART"%string.
Definition GM_APDU_OPEN_SIM_CHANNEL : list Z := chars "0070000001"%string.
Definition GM_APDU_CLOSE_SIM_CHANNEL_PREFIX : list Z := chars "007080"%string.
Definition GM_APDU_OK : Z := 0x9000.
Definition GM_APDU_STK_OK : Z := 0x9100.
Definition GM_APDU_CHAIN_OK : Z := 0x6100.
Definition GM_APDU_UPPER_SW_MASK : Z := 0xFF00.
Definition GM_APDU_OK_LEN : Z := 4.
Definition SE_MEDIA_STATUS_SCARD_PRESENT : Z := 0x0004.
Definition sizeof_TSEMediaGenericModem : Z := 24.
Definition sizeof_TSEMedia : Z := 104.

(** The double quote, the comma, the blank. *)
Definition quote : Z := 34.
Definition comma : Z := 44.
Definition blank : Z := 32.

(** ** AT commands and responses *)

(** Result and command buffer; the command is a non-null string. *)
Definition _seMediaGenericModemApduToAtCommand (ptrAPDU_cmd : list Z)
    (ptrBuild_ATcommand : option (list Z)) (pMaxSize : Z) : option (bool * option (list Z)) :=
  match ptrBuild_ATcommand with
  | None => Some (false, None)
  | Some b =>
      if pMaxSize <? zlen GM_AT_COMMAND_PREFIX + 13 then Some (false, Some b)
      else if zlen GM_AT_COMMAND_PREFIX + zlen ptrAPDU_cmd + 9 >? pMaxSize then Some (false, Some b)
      else
        let apdu_length := snprintf 4 (fmt_d (s32 (zlen ptrAPDU_cmd))) in
        b0 ← wr_range b 0 (fill 0 pMaxSize);
        if zlen GM_AT_COMMAND_PREFIX + zlen apdu_length + 2 + zlen ptrAPDU_cmd + 2 <? pMaxSize then
          b1 ← strncat b0 GM_AT_COMMAND_PREFIX (pMaxSize - 1);
          l1 ← strlen b1;
          b2 ← strncat b1 apdu_length (pMaxSize - l1 - 1);
          l2 ← strlen b2;
          b3 ← strncat b2 [comma; quote] (pMaxSize - l2 - 1);
          l3 ← strlen b3;
          b4 ← strncat b3 ptrAPDU_cmd (pMaxSize - l3 - 1);
          l4 ← strlen b4;
          b5 ← strncat b4 [quote; 13] (pMaxSize - l4 - 1);
          Some (true, Some b5)
        else Some (false, Some b0)
  end.

(** [while ( *p == ' ') p++;] *)
Fixpoint skip_blanks (s : list Z) : list Z :=
  match s with c :: s' => if c =? blank then skip_blanks s' else s | [] => [] end.

(** The response is the array [ptrAt_command_response]; [memcpy] copies from
    it, not from its string. Result and APDU buffer. *)
Definition _seMediaGenericModemNoQuoteAtCommandResponseToApdu
    (ptrAt_command_response ptrAPDU_response : list Z) (pMaxSize : Z) : option (bool * list Z) :=
  s ← c_str ptrAt_command_response;
  match strstr s GM_AT_COMMAND_RESPONSE_PREFIX with
  | None => Some (false, ptrAPDU_response)
  | Some response_part =>
      let part := skip_blanks (drop (length GM_AT_COMMAND_RESPONSE_PREFIX) response_part) in
      let trimmed_response_length := u64 (atoi part) in
      if trimmed_response_length >? u64 (pMaxSize - 1) then Some (false, ptrAPDU_response)
      else
        match strstr part [comma] with
        | None => Some (false, ptrAPDU_response)
        | Some first_data =>
            let data := skip_blanks (drop 1 first_data) in
            src ← rd_range ptrAt_command_response (zlen s - zlen data) trimmed_response_length;
            b ← wr_range ptrAPDU_response 0 src;
            b' ← b.[trimmed_response_length := 0];
            Some (true, b')
        end
  end.

Definition _seMediaGenericModemAtCommandResponseToApdu
    (ptrAt_command_response ptrAPDU_response : option (list Z)) (pMaxSize : Z)
    : option (bool * option (list Z)) :=
  match ptrAt_command_response, ptrAPDU_response with
  | Some r, Some apdu =>
      if pMaxSize <? 2 then Some (false, Some apdu)
      else
        s ← c_str r;
        match strstr s GM_AT_COMMAND_RESPONSE_PREFIX with
        | None => Some (false, Some apdu)
        | Some response_part =>
            match strstr response_part [quote] with
            | None =>
                '(res, b) ← _seMediaGenericModemNoQuoteAtCommandResponseToApdu r apdu pMaxSize;
                Some (res, Some b)
            | Some first =>
                let first_quote := drop 1 first in
                match strstr first_quote [quote] with
                | None => Some (false, Some apdu)
                | Some second_quote =>
                    let trimmed_response_length := zlen first_quote - zlen second_quote in
                    if trimmed_response_length >? u64 (pMaxSize - 1) then Some (false, Some apdu)
                    else
                      src ← rd_range first_quote 0 trimmed_response_length;
                      b ← wr_range apdu 0 src;
                      b' ← b.[trimmed_response_length := 0];
                      Some (true, Some b')
                end
            end
        end
  | _, _ => Some (false, ptrAPDU_response)
  end.

(** The argument is the string. *)
Definition _seMediaGenericModemCheckAPDU_OkResponse (ptrAPDU_response : option (list Z)) : bool :=
  match ptrAPDU_response with
  | None => false
  | Some s =>
      if zlen s <? GM_APDU_OK_LEN then false
      else
        let responseSWbyte := strtol16 (drop (length s - 4) s) in
        (0 <=? responseSWbyte) && (responseSWbyte <? 65536) &&
        ((responseSWbyte =? GM_APDU_OK)
         || (Z.land responseSWbyte GM_APDU_UPPER_SW_MASK =? GM_APDU_STK_OK)
         || (Z.land responseSWbyte GM_APDU_UPPER_SW_MASK =? GM_APDU_CHAIN_OK))
  end.

(** The [int] in the low half of a [size_t], and a store to it through an
    [int] pointer. *)
Definition int_of_size (z : Z) : Z := s32 (z mod 2^32).
Definition store_int (z v : Z) : Z := z / 2^32 * 2^32 + v mod 2^32.

(** ** The driver *)

Section driver.
Context {P : Type} `{Port P}.

(** The fields of [TSEMediaGenericModem], the static variables of the file,
    the blocks the driver has on the heap, and the port. [oracle] decides
    which allocations fail; [events] are the error codes the application's
    callback has received. *)
Record gm_state := Gm {
  _contextEstablished : bool;
  _modemFD : Z;
  _apduChannel : Z;
  _apduChannelString : list Z;
  responseBuffer : list Z;
  _lpaEventExecutionErrorCallback : bool;
  events : list Z;
  oracle : list bool;
  live : Z;
  port : P
}.

Definition set_context (b : bool) (s : gm_state) : gm_state :=
  Gm b (_modemFD s) (_apduChannel s) (_apduChannelString s) (responseBuffer s)
     (_lpaEventExecutionErrorCallback s) (events s) (oracle s) (live s) (port s).
Definition set_modemFD (fd : Z) (s : gm_state) : gm_state :=
  Gm (_contextEstablished s) fd (_apduChannel s) (_apduChannelString s) (responseBuffer s)
     (_lpaEventExecutionErrorCallback s) (events s) (oracle s) (live s) (port s).
Definition set_channel (n : Z) (str : list Z) (s : gm_state) : gm_state :=
  Gm (_contextEstablished s) (_modemFD s) n str (responseBuffer s)
     (_lpaEventExecutionErrorCallback s) (events s) (oracle s) (live s) (port s).
Definition set_responseBuffer (b : list Z) (s : gm_state) : gm_state :=
  Gm (_contextEstablished s) (_modemFD s) (_apduChannel s) (_apduChannelString s) b
     (_lpaEventExecutionErrorCallback s) (events s) (oracle s) (live s) (port s).
Definition set_callback (b : bool) (s : gm_state) : gm_state :=
  Gm (_contextEstablished s) (_modemFD s) (_apduChannel s) (_apduChannelString s) (responseBuffer s)
     b (events s) (oracle s) (live s) (port s).
Definition set_events (l : list Z) (s : gm_state) : gm_state :=
  Gm (_contextEstablished s) (_modemFD s) (_apduChannel s) (_apduChannelString s) (responseBuffer s)
     (_lpaEventExecutionErrorCallback s) l (oracle s) (live s) (port s).
Definition set_heap (o : list bool) (n : Z) (s : gm_state) : gm_state :=
  Gm (_contextEstablished s) (_modemFD s) (_apduChannel s) (_apduChannelString s) (responseBuffer s)
     (_lpaEventExecutionErrorCallback s) (events s) o n (port s).
Definition set_port (p : P) (s : gm_state) : gm_state :=
  Gm (_contextEstablished s) (_modemFD s) (_apduChannel s) (_apduChannelString s) (responseBuffer s)
     (_lpaEventExecutionErrorCallback s) (events s) (oracle s) (live s) p.

Abbreviation GM := (ST gm_state).

(** [lpaCoreMemoryAlloc] and [lpaCoreMemoryFree] of a block that does not
    outlive the function. *)
Definition lpaCoreMemoryAlloc (n : Z) : GM (option (list Z)) := λ s,
  if n >? 0 then
    let fail := match oracle s with true :: _ => true | _ => false end in
    if fail then Some (None, set_heap (tail (oracle s)) (live s) s)
    else Some (Some (fill 0xBD n), set_heap (tail (oracle s)) (live s + 1) s)
  else Some (None, s).
Definition lpaCoreMemoryFree : GM unit := modifies (λ s, set_heap (oracle s) (live s - 1) s).

(** Calls a function of the port. *)
Definition on_port {A} (f : ST P A) : GM A := λ s,
  match f (port s) with Some (a, p) => Some (a, set_port p s) | None => None end.

Definition _seMediaGenericModemSendLpaEventExecutionError (scErrorCode : Z) : GM unit :=
  modifies (λ s, if _lpaEventExecutionErrorCallback s
                 then set_events (events s ++ [scErrorCode]) s else s).

Definition _seMediaGenericModemSetCallbackEventExecutionError (callback : bool) : GM bool :=
  if callback then modifies (set_callback true);; mret true
  else
    registered ← gets _lpaEventExecutionErrorCallback;
    if registered : bool then modifies (set_callback false);; mret true else mret false.

(** ** Context *)

Definition _seMediaGenericModemEstablishContext : GM bool :=
  established ← gets _contextEstablished;
  if negb established then modifies (set_context true);; mret true else mret false.

Definition _seMediaGenericModemIsValidContext : GM bool :=
  fd ← gets _modemFD; mret (fd >? 0).

Definition _seMediaGenericModemIsContextEstablished : GM bool := gets _contextEstablished.

(** The name is stored in the first cell of the array, whatever its size. *)
Definition _seMediaGenericModemListReader (readerNameInfoMax : Z) : GM (bool * list (list Z)) :=
  mret (true, [take (Z.to_nat (LPA_CFG_READER_NAME_MAX_SIZE - 1)) GM_SERIAL_PORT_NAME]).

Definition _seMediaGenericModemIsConnected : GM bool :=
  fd ← gets _modemFD; ch ← gets _apduChannel; mret ((fd >? 0) && (ch >? 0)).

(** ** Exchanges with the modem *)

(** [strstr(responseBuffer, t) != NULL] *)
Definition response_contains (t : list Z) : GM bool :=
  b ← gets responseBuffer; s ← opt (c_str b); mret (contains s t).

(** The [while (1)] loop, left by a [break] at the latest when [timeout]
    reaches its bound: [n] is what is left to it. *)
Fixpoint get_response_data_loop (n : nat) (nbReceivedChars : Z) : GM bool :=
  match n with
  | O => mret false
  | S n =>
      fd ← gets _modemFD;
      b ← gets responseBuffer;
      dst ← opt (cells_from b nbReceivedChars);
      '(count, dst') ←
        on_port (pciot_lpa_read fd dst (u64 (GENERIC_MODEM_RESPONSE_BUFFER_SIZE - nbReceivedChars)));
      let b1 := take (Z.to_nat nbReceivedChars) b ++ dst' in
      modifies (set_responseBuffer b1);;
      let readResult := int_of_size count in
      if readResult >? 0 then
        let nbReceivedChars := nbReceivedChars + readResult in
        b2 ← opt b1.[(if nbReceivedChars <? GENERIC_MODEM_RESPONSE_BUFFER_SIZE then nbReceivedChars
                      else GENERIC_MODEM_RESPONSE_BUFFER_SIZE - 1) := 0];
        modifies (set_responseBuffer b2);;
        ok ← response_contains GM_AT_COMMAND_RESPONSE_OK;
        if ok : bool then mret true
        else
          error ← response_contains GM_AT_COMMAND_RESPONSE_ERROR;
          if error : bool then mret false
          else
            start ← response_contains GM_AT_MODEM_START_EVENT;
            if start : bool then mret false else get_response_data_loop n nbReceivedChars
      else get_response_data_loop n nbReceivedChars
  end.

Definition _seMediaGenericModemGetATcommandResponseData : GM bool :=
  b ← gets responseBuffer;
  b' ← opt b.[0 := 0];
  modifies (set_responseBuffer b');;
  get_response_data_loop GM_RETRIEVE_RESPONSE_TIMEOUT 0.

Definition _seMediaGenericModemCheckATcommandResponseOK : GM bool :=
  b ← gets responseBuffer;
  s ← opt (c_str b);
  mret ((zlen s >? 1) && contains s GM_AT_COMMAND_RESPONSE_OK).

(** [strlen(responseBuffer)] *)
Definition response_length : GM Z := b ← gets responseBuffer; opt (strlen b).

(** Allocates a block, runs [k] on it when it is there, and frees it. *)
Definition with_block (n : Z) (k : list Z → GM bool) : GM bool :=
  block ← lpaCoreMemoryAlloc n;
  match block with
  | Some b => res ← k b; lpaCoreMemoryFree;; mret res
  | None => mret false
  end.

(** The local array [ATcommand] is cleared before it is read. *)
Definition _seMediaGenericModemSendAPDUtoModemAndCheckOK (ptrAPDU : option (list Z))
    (checkStatusWord : bool) : GM bool :=
  match ptrAPDU with
  | None => mret false
  | Some apdu =>
      '(built, command) ← opt (_seMediaGenericModemApduToAtCommand apdu
                                 (Some (fill 0 GM_AT_COMMAND_BUFFER_SIZE)) GM_AT_COMMAND_BUFFER_SIZE);
      if built : bool then
        ATcommand ← opt command;
        len ← opt (strlen ATcommand);
        fd ← gets _modemFD;
        written ← on_port (pciot_lpa_write fd ATcommand len);
        if negb (written =? len) then mret false
        else
          received ← _seMediaGenericModemGetATcommandResponseData;
          if received : bool then
            ok ← _seMediaGenericModemCheckATcommandResponseOK;
            if ok : bool then
              n ← response_length;
              with_block n (λ extracted,
                b ← gets responseBuffer;
                '(res, extracted) ←
                  opt (_seMediaGenericModemAtCommandResponseToApdu (Some b) (Some extracted) n);
                if res : bool then
                  if checkStatusWord then
                    bytes ← opt extracted; str ← opt (c_str bytes);
                    mret (_seMediaGenericModemCheckAPDU_OkResponse (Some str))
                  else mret true
                else mret false)
            else mret false
          else mret false
      else mret false
  end.

(** ** The logical channel *)

Definition _seMediaGenericModemOpenUICCChannel : GM bool :=
  sent ← _seMediaGenericModemSendAPDUtoModemAndCheckOK (Some GM_APDU_OPEN_SIM_CHANNEL) true;
  if sent : bool then
    n ← response_length;
    with_block n (λ extracted,
      b ← gets responseBuffer;
      '(res, extracted) ←
        opt (_seMediaGenericModemAtCommandResponseToApdu (Some b) (Some extracted) n);
      if res : bool then
        bytes ← opt extracted;
        c0 ← opt bytes.[0];
        c1 ← opt bytes.[1];
        str ← opt (c_str [c0; c1; 0]);
        let channel := u8 (atoi str) in
        if (channel >? 0) && (channel <? 20) then
          modifies (set_channel channel [c0; c1; 0]);; mret true
        else modifies (set_channel 0 [0; c1; 0]);; mret false
      else mret false)
  else mret false.

Definition _seMediaGenericModemCloseUICCChannel : GM bool :=
  ch ← gets _apduChannel;
  if negb (ch =? 0) then
    b1 ← opt (strncat (fill 0 20) GM_APDU_CLOSE_SIM_CHANNEL_PREFIX
                (zlen GM_APDU_CLOSE_SIM_CHANNEL_PREFIX + 1));
    cells ← gets _apduChannelString;
    str ← opt (c_str cells);
    b2 ← opt (strncat b1 str 3);
    b3 ← opt (strncat b2 (chars "00"%string) 3);
    apduCommand ← opt (c_str b3);
    sent ← _seMediaGenericModemSendAPDUtoModemAndCheckOK (Some apduCommand) true;
    if sent : bool then
      rest ← opt cells.[0 := 0]; modifies (set_channel 0 rest);; mret true
    else
      prefix ← response_contains GM_AT_COMMAND_RESPONSE_PREFIX;
      error ← response_contains GM_AT_COMMAND_RESPONSE_ERROR;
      if negb prefix && error then
        rest ← opt cells.[0 := 0]; modifies (set_channel 0 rest);; mret true
      else mret false
  else mret false.

(** ** Connection *)

Definition _seMediaGenericModemConnect (ptrReaderName : list Z) : GM bool :=
  modifies (λ s, set_modemFD 0 (set_channel 0 (_apduChannelString s) s));;
  fd ← on_port (pciot_lpa_open (if zlen ptrReaderName >? 0 then ptrReaderName
                                else GM_SERIAL_PORT_NAME));
  modifies (set_modemFD fd);;
  if fd <? 0 then _seMediaGenericModemSendLpaEventExecutionError 1;; mret false
  else
    connected ← _seMediaGenericModemOpenUICCChannel;
    if connected : bool then mret true
    else
      fd ← gets _modemFD;
      on_port (pciot_lpa_close fd);; modifies (set_modemFD 0);; mret false.

Definition _seMediaGenericModemCloseDescriptorOrHandle : GM bool :=
  fd ← gets _modemFD;
  r ← on_port (pciot_lpa_close fd);
  if r =? 0 then modifies (set_modemFD 0);; mret true else mret false.

Definition _seMediaGenericModemDisconnect : GM bool :=
  connected ← _seMediaGenericModemIsConnected;
  if connected : bool then
    closed ← _seMediaGenericModemCloseUICCChannel;
    if closed : bool then _seMediaGenericModemCloseDescriptorOrHandle else mret false
  else mret false.

Definition _seMediaGenericModemDisconnectWithReset : GM bool :=
  connected ← _seMediaGenericModemIsConnected;
  if connected : bool then
    fd ← gets _modemFD;
    written ← on_port (pciot_lpa_write fd (GM_AT_COMMAND_RESET_CARD ++ [0])
                         (zlen GM_AT_COMMAND_RESET_CARD));
    disconnected ←
      (if negb (written =? zlen GM_AT_COMMAND_RESET_CARD) then mret false
       else
         received ← _seMediaGenericModemGetATcommandResponseData;
         if received : bool then _seMediaGenericModemCheckATcommandResponseOK else mret false);
    (if disconnected : bool then
       cells ← gets _apduChannelString;
       rest ← opt cells.[0 := 0]; modifies (set_channel 0 rest)
     else _seMediaGenericModemCloseUICCChannel;; mret tt);;
    _seMediaGenericModemCloseDescriptorOrHandle;;
    mret disconnected
  else mret false.

Definition _seMediaGenericModemReleaseContext : GM bool :=
  connected ← _seMediaGenericModemIsConnected;
  (if connected : bool then _seMediaGenericModemDisconnect;; mret tt else mret tt);;
  established ← gets _contextEstablished;
  if established : bool then modifies (set_context false);; mret true else mret false.

(** The check of the card is compiled out. *)
Definition _seMediaGenericModemGetStatus : GM (bool * Z) :=
  connected ← _seMediaGenericModemIsConnected;
  mret (if connected : bool then (true, SE_MEDIA_STATUS_SCARD_PRESENT) else (false, 0)).

(** ** Transmission *)

(** The response buffer from the caller's pointer on, and [*pAPDU_response_size];
    result, cells and size. *)
Definition _seMediaGenericModemProcessAPDUresponse (ptrAPDU_response : list Z)
    (pMaxSize pAPDU_response_size : Z) : GM (bool * list Z * Z) :=
  ok ← _seMediaGenericModemCheckATcommandResponseOK;
  if ok : bool then
    n ← response_length;
    block ← lpaCoreMemoryAlloc n;
    match block with
    | None => mret (false, ptrAPDU_response, pAPDU_response_size)
    | Some extracted =>
        b ← gets responseBuffer;
        '(res, extracted) ←
          opt (_seMediaGenericModemAtCommandResponseToApdu (Some b) (Some extracted) n);
        r ←
          (if res : bool then
             bytes ← opt extracted;
             len ← opt (strlen bytes);
             '(res, out, size) ← opt (hexStr2ByteArray (Some bytes) (s32 len) (Some ptrAPDU_response)
                                        (Some (int_of_size pMaxSize)));
             out ← opt out; size ← opt size;
             mret (res, out, store_int pMaxSize size)
           else mret (false, ptrAPDU_response, pAPDU_response_size));
        lpaCoreMemoryFree;; mret r
    end
  else mret (false, ptrAPDU_response, pAPDU_response_size).

(** The class byte of a command on a channel. *)
Definition channel_bits (ch : Z) : Z := if ch <? 4 then ch else u8 (ch - 4 + 0x40).

Definition _seMediaGenericModemTransmitApdu (ptrApduCommandBytes ptrApduResponseBytes : list Z)
    (ptrApduResponseMaxSize : Z) : GM (bool * list Z * Z) :=
  let apduCommandSize := zlen ptrApduCommandBytes in
  let failure := (false, ptrApduResponseBytes, ptrApduResponseMaxSize) in
  if (apduCommandSize >=? 4) && (apduCommandSize <? 262) && (ptrApduResponseMaxSize >=? 2) then
    let apduCommandStringSize := apduCommandSize * 2 + 2 in
    block ← lpaCoreMemoryAlloc apduCommandStringSize;
    match block with
    | None => mret failure
    | Some str =>
        '(n, str) ← opt (formatBytesToHexaString (Some ptrApduCommandBytes) apduCommandSize (Some str)
                           apduCommandStringSize);
        r ←
          (if n >? 0 then
             cells ← opt str;
             h ← opt cells.[0];
             l ← opt cells.[1];
             ch ← gets _apduChannel;
             let apduClass := u8 (Z.shiftl (oneHexCharToHex h) 4 + oneHexCharToHex l) in
             cells ← opt (wr_range cells 0 (fmt_02X (Z.lor apduClass (channel_bits ch))));
             apduCommandString ← opt (c_str cells);
             sent ← _seMediaGenericModemSendAPDUtoModemAndCheckOK (Some apduCommandString) false;
             if sent : bool then
               _seMediaGenericModemProcessAPDUresponse ptrApduResponseBytes ptrApduResponseMaxSize
                 ptrApduResponseMaxSize
             else _seMediaGenericModemSendLpaEventExecutionError 2;; mret failure
           else mret failure);
        lpaCoreMemoryFree;; mret r
    end
  else mret failure.

(** ** The driver as a secure element media *)

Definition generic_modem : TSEMedia gm_state := {|
  seMediaSetCallbackEventExecutionError := Some _seMediaGenericModemSetCallbackEventExecutionError;
  seMediaEstablishContext := Some _seMediaGenericModemEstablishContext;
  seMediaReleaseContext := Some _seMediaGenericModemReleaseContext;
  seMediaIsValidContext := Some _seMediaGenericModemIsValidContext;
  seMediaIsContextEstablished := Some _seMediaGenericModemIsContextEstablished;
  seMediaListReader := Some _seMediaGenericModemListReader;
  seMediaConnect := Some _seMediaGenericModemConnect;
  seMediaIsConnected := Some _seMediaGenericModemIsConnected;
  seMediaTransmitApdu := Some _seMediaGenericModemTransmitApdu;
  seMediaDisconnect := Some _seMediaGenericModemDisconnect;
  seMediaDisconnectWithReset := Some _seMediaGenericModemDisconnectWithReset;
  seMediaGetStatus := Some _seMediaGenericModemGetStatus
|}.

(** The second allocation, [New_SEMediaBase()], is used without a test. *)
Definition New_SEMediaGenericModem : GM (option (TSEMedia gm_state)) :=
  block ← lpaCoreMemoryAlloc sizeof_TSEMediaGenericModem;
  ptrTSEMedia ←
    match block with
    | Some _ =>
        base ← lpaCoreMemoryAlloc sizeof_TSEMedia;
        opt base;;
        modifies (λ s, set_context false (set_modemFD 0 (set_channel 0 [0; 0xBD; 0xBD] s)));;
        mret (Some generic_modem)
    | None => mret None
    end;
  modifies (set_responseBuffer (fill 0 GENERIC_MODEM_RESPONSE_BUFFER_SIZE));;
  mret ptrTSEMedia.

(** Frees both blocks of the driver it is given. *)
Definition Delete_SEMediaGenericModem : GM unit := lpaCoreMemoryFree;; lpaCoreMemoryFree.
End driver.
Arguments gm_state : clear implicits.

(** ** AT commands: correctness *)

Lemma fmt_llu_short n : 0 <= n < 1000 → zlen (fmt_llu n) <= 3.
Proof.
  intros Hn. apply Z.leb_le.
  apply (check_range (λ n, zlen (fmt_llu n) <=? 3) 1000 n); [by vm_compute|done].
Qed.

(** The command that carries an APDU, given as hexadecimal text. *)
Definition at_command (apdu : list Z) : list Z :=
  GM_AT_COMMAND_PREFIX ++ fmt_d (zlen apdu) ++ [comma; quote] ++ apdu ++ [quote; 13].

(** Appends [t] to the string [s] of an array, with a bound computed from the
    length of the array as the driver does. *)
Lemma strncat_step s t k max :
  Forall (λ c, c ≠ 0) s → Forall (λ c, c ≠ 0) t → zlen s + 1 + zlen k >= max →
  zlen s + zlen t + 1 <= max →
  ∃ k', strncat (s ++ 0 :: k) t (max - zlen s - 1) = Some ((s ++ t) ++ 0 :: k') ∧
        zlen k' = zlen k - zlen t ∧ Forall (λ c, c ≠ 0) (s ++ t).
Proof.
  intros Hs Ht Hk Hmax. pose proof (zlen_nonneg t).
  exists (drop (length t) k). split; [|split; [|by apply Forall_app]].
  - destruct (decide (zlen t < zlen k)).
    + rewrite strncat_app by (done || lia). by rewrite <-app_assoc.
    + (* the array is exactly filled *)
      unfold strncat. rewrite strlen_app by done. cbn [mbind option_bind].
      rewrite (take_ge t) by (unfold zlen in *; lia).
      rewrite wr_range_Some by (rewrite ?zlen_app, ?zlen_cons; unfold zlen in *; cbn [length]; lia).
      rewrite zlen_to_nat, take_app_length. f_equal. rewrite <-!app_assoc. cbn [app]. do 2 f_equal.
      f_equal. rewrite length_app, drop_app_ge by lia. cbn [length].
      replace (length s + (length t + 1) - length s)%nat with (S (length t)) by lia. done.
  - rewrite zlen_drop. unfold zlen in *. lia.
Qed.

(** The same, with the computation of the length. *)
Lemma append_step {B} s t k max (K : list Z → option B) :
  Forall (λ c, c ≠ 0) s ∧ max <= zlen s + 1 + zlen k → Forall (λ c, c ≠ 0) t →
  zlen s + zlen t + 1 <= max →
  ∃ k', (l ← strlen (s ++ 0 :: k); b ← strncat (s ++ 0 :: k) t (max - l - 1); K b)
        = K ((s ++ t) ++ 0 :: k') ∧
        zlen (s ++ t) + 1 + zlen k' = zlen s + 1 + zlen k ∧
        Forall (λ c, c ≠ 0) (s ++ t) ∧ max <= zlen (s ++ t) + 1 + zlen k'.
Proof.
  intros [Hs Hk] Ht Hmax. rewrite strlen_app by done. cbn [mbind option_bind].
  destruct (strncat_step s t k max) as (k' & E & Hk' & H'); [done|done|lia|lia|].
  exists k'. rewrite E, !zlen_app. split_and!; [done|lia|done|lia].
Qed.

Lemma at_command_nonzero apdu :
  Forall (λ c, c ≠ 0) apdu → Forall (λ c, c ≠ 0) (at_command apdu).
Proof.
  intros H. unfold at_command. repeat (apply Forall_app; split); try done.
  - by repeat constructor.
  - unfold fmt_d. pose proof (zlen_nonneg apdu). zfalse (zlen apdu <? 0).
    apply isdigit_nonzero, fmt_llu_spec. lia.
  - by repeat constructor.
  - by repeat constructor.
Qed.

Ltac append_next Hs :=
  match goal with
  | |- context [strlen (?s ++ 0 :: ?k) ≫= λ l, strncat _ ?t (?max - l - 1) ≫= ?K] =>
      let E := fresh "E" in let Hs' := fresh "Hs" in
      destruct (append_step s t k max K) as (? & E & ? & Hs');
      [ first [exact Hs | split; [done|rewrite !zlen_app; lia]]
      | first [assumption | repeat constructor; done]
      | rewrite !zlen_app; lia
      | rewrite E; clear E Hs; rename Hs' into Hs ]
  end.

Lemma apduToAtCommand_ok apdu b max :
  Forall (λ c, c ≠ 0) apdu → zlen apdu < 1000 → zlen apdu + 17 <= max → 21 <= max → max <= zlen b →
  ∃ k, _seMediaGenericModemApduToAtCommand apdu (Some b) max
       = Some (true, Some (at_command apdu ++ 0 :: k)) ∧
       zlen k = zlen b - zlen (at_command apdu) - 1.
Proof.
  intros Ha Hlen Hfit H21 Hb. unfold _seMediaGenericModemApduToAtCommand. zlen_pos.
  change (zlen GM_AT_COMMAND_PREFIX) with 8.
  zfalse (max <? 8 + 13). zfalse (8 + zlen apdu + 9 >? max).
  rewrite s32_id by lia. remember (fmt_d (zlen apdu)) as d eqn:Ed.
  assert (zlen d <= 3 ∧ Forall (λ c, c ≠ 0) d) as [Hd1 Hd2].
  { rewrite Ed. unfold fmt_d. zfalse (zlen apdu <? 0). split; [apply fmt_llu_short; lia|].
    apply isdigit_nonzero, fmt_llu_spec. lia. }
  assert (snprintf 4 d = d) as -> by (apply snprintf_all; lia).
  assert (∃ k, wr_range b 0 (fill 0 max) = Some ([] ++ 0 :: k) ∧ zlen k = zlen b - 1) as (k0 & -> & Hk0).
  { rewrite wr_range_Some by (unfold fill; rewrite ?zlen_replicate; lia). cbn [Z.to_nat take app].
    unfold fill. destruct (Z.to_nat max) eqn:E; [lia|]. cbn [replicate app]. eexists. split; [done|].
    rewrite zlen_app, zlen_replicate, zlen_drop. cbn [length]. rewrite length_replicate.
    unfold zlen in *. lia. }
  cbn [mbind option_bind]. pose proof (zlen_nonneg d).
  ztrue (8 + zlen d + 2 + zlen apdu + 2 <? max).
  assert (zlen [comma; quote] = 2 ∧ zlen [quote; 13] = 2 ∧ zlen GM_AT_COMMAND_PREFIX = 8 ∧
          zlen (A := Z) [] = 0) as (L1 & L2 & L3 & L4) by done.
  destruct (strncat_step [] GM_AT_COMMAND_PREFIX k0 max) as (k1 & E1 & Hk1 & Hs1);
    [by constructor|by repeat constructor|lia|lia|].
  rewrite L4, Z.sub_0_r in E1. rewrite E1. cbn [mbind option_bind].
  do 4 append_next Hs1.
  match goal with |- context [0 :: ?k] => exists k end. unfold at_command. rewrite <-Ed. split.
  - cbn [app]. rewrite <-!app_assoc. cbn [app]. rewrite <-!app_assoc. reflexivity.
  - rewrite !zlen_app in *. lia.
Qed.

(** ** Responses: correctness *)

(** The text of a response holds [t] between the first two quotes behind its
    first prefix. *)
Definition quoted (text t : list Z) : Prop :=
  ∃ mid post, strstr text GM_AT_COMMAND_RESPONSE_PREFIX =
      Some (GM_AT_COMMAND_RESPONSE_PREFIX ++ mid ++ [quote] ++ t ++ [quote] ++ post) ∧
    (quote ∉ mid) ∧ (quote ∉ t).

Lemma quoted_length text t : quoted text t → zlen t + 8 <= zlen text.
Proof.
  intros (mid & post & E & _). apply strstr_Some in E as (p & _ & -> & _).
  rewrite !zlen_app. zlen_pos. change (zlen GM_AT_COMMAND_RESPONSE_PREFIX) with 6.
  change (zlen [quote]) with 1. lia.
Qed.

Lemma atCommandResponseToApdu_ok text t k apdu max :
  quoted text t → Forall (λ c, c ≠ 0) text → zlen t < max → 2 <= max < 2^64 → max <= zlen apdu →
  _seMediaGenericModemAtCommandResponseToApdu (Some (text ++ 0 :: k)) (Some apdu) max
  = Some (true, Some (t ++ 0 :: drop (length t + 1) apdu)).
Proof.
  intros (mid & post & E & Hmid & Ht) Htext Hlen Hmax Hapdu. zlen_pos.
  unfold _seMediaGenericModemAtCommandResponseToApdu. zfalse (max <? 2).
  rewrite c_str_app by done. cbn [mbind option_bind]. rewrite E.
  rewrite (app_assoc GM_AT_COMMAND_RESPONSE_PREFIX). unfold quote in *.
  rewrite (strstr_first 34 [] (GM_AT_COMMAND_RESPONSE_PREFIX ++ mid)).
  2: { rewrite not_elem_of_app. split; [|done]. by apply (bool_decide_unpack (34 ∉ GM_AT_COMMAND_RESPONSE_PREFIX)). }
  change (drop 1 ([34] ++ t ++ [34] ++ post)) with (t ++ [34] ++ post).
  rewrite (strstr_first 34 [] t) by done. change ([34] ++ post) with (34 :: post).
  replace (zlen (t ++ 34 :: post) - zlen (34 :: post)) with (zlen t) by (rewrite zlen_app; lia).
  unfold u64. rewrite Z.mod_small by lia. zfalse (zlen t >? max - 1).
  assert (rd_range (t ++ 34 :: post) 0 (zlen t) = Some t) as ->.
  { unfold rd_range. rewrite zlen_app, (proj2 (andb_true_iff _ _)) by zlia.
    cbn [Z.to_nat]. rewrite drop_0. by rewrite zlen_to_nat, take_app_length. }
  cbn [mbind option_bind]. rewrite wr_range_Some by lia.
  cbn [mbind option_bind]. rewrite take_0. cbn [app]. change (Z.to_nat 0 + length t)%nat with (length t).
  destruct (drop (length t) apdu) as [|c k'] eqn:Ed.
  { apply (f_equal zlen) in Ed. rewrite zlen_drop in Ed. change (zlen []) with 0 in Ed.
    unfold zlen in *. lia. }
  rewrite wr_app_next. cbn [mbind option_bind]. by rewrite <-drop_drop, Ed.
Qed.

(** ** The collection of a response *)

Section collection.
Context {P : Type} `{Port P}.
Implicit Types (s : gm_state P) (p : P).

(** A read in [room] cells yields [bs]. *)
Definition reads (fd room : Z) (bs : list Z) p p' : Prop :=
  ∀ dst, zlen dst = room → ∃ k,
    pciot_lpa_read fd dst room p = Some ((zlen bs, bs ++ k), p') ∧ zlen (bs ++ k) = room.

Definition final_text (t : list Z) : bool :=
  contains t GM_AT_COMMAND_RESPONSE_OK || contains t GM_AT_COMMAND_RESPONSE_ERROR
  || contains t GM_AT_MODEM_START_EVENT.

(** With [acc] received already, at most [n] reads complete the text [text],
    which is successful as soon as it is final. *)
Inductive polls (fd : Z) : nat → list Z → P → list Z → P → Prop :=
  | polls_done n acc bs p p' :
      reads fd (GENERIC_MODEM_RESPONSE_BUFFER_SIZE - zlen acc) bs p p' → bs ≠ [] →
      Forall (λ c, c ≠ 0) bs → zlen (acc ++ bs) < GENERIC_MODEM_RESPONSE_BUFFER_SIZE →
      contains (acc ++ bs) GM_AT_COMMAND_RESPONSE_OK = true →
      polls fd (S n) acc p (acc ++ bs) p'
  | polls_more n acc bs p p' text p'' :
      reads fd (GENERIC_MODEM_RESPONSE_BUFFER_SIZE - zlen acc) bs p p' → bs ≠ [] →
      Forall (λ c, c ≠ 0) bs → zlen (acc ++ bs) < GENERIC_MODEM_RESPONSE_BUFFER_SIZE →
      final_text (acc ++ bs) = false →
      polls fd n (acc ++ bs) p' text p'' →
      polls fd (S n) acc p text p''
  | polls_nothing n acc p p' text p'' :
      reads fd (GENERIC_MODEM_RESPONSE_BUFFER_SIZE - zlen acc) [] p p' →
      polls fd n acc p' text p'' →
      polls fd (S n) acc p text p''.

Lemma polls_text fd n acc p text p' :
  polls fd n acc p text p' → Forall (λ c, c ≠ 0) acc →
  Forall (λ c, c ≠ 0) text ∧ zlen text < GENERIC_MODEM_RESPONSE_BUFFER_SIZE ∧
  contains text GM_AT_COMMAND_RESPONSE_OK = true.
Proof.
  induction 1; intros Ha; [split_and!; [by apply Forall_app|done|done]| |by auto].
  apply IHpolls. by apply Forall_app.
Qed.

(** The buffer after a text of the modem. *)
Definition received (text b : list Z) : Prop :=
  ∃ k, b = text ++ 0 :: k ∧ zlen b = GENERIC_MODEM_RESPONSE_BUFFER_SIZE.

Lemma response_contains_ok s text t k :
  responseBuffer s = text ++ 0 :: k → Forall (λ c, c ≠ 0) text →
  response_contains t s = Some (contains text t, s).
Proof.
  intros E Ht. unfold response_contains, gets, opt, mbind, ST_bind, mret, ST_ret.
  by rewrite E, c_str_app.
Qed.

(** One read of the loop: the cells it leaves behind [acc]. *)
Lemma loop_read s fd acc bs b p p' :
  responseBuffer s = acc ++ b → zlen (acc ++ b) = GENERIC_MODEM_RESPONSE_BUFFER_SIZE →
  _modemFD s = fd → port s = p →
  reads fd (GENERIC_MODEM_RESPONSE_BUFFER_SIZE - zlen acc) bs p p' →
  zlen (acc ++ bs) < GENERIC_MODEM_RESPONSE_BUFFER_SIZE →
  ∃ k, zlen (acc ++ bs ++ k) = GENERIC_MODEM_RESPONSE_BUFFER_SIZE ∧ ∀ n,
  get_response_data_loop (S n) (zlen acc) s =
  (if zlen bs >? 0 then
     b2 ← opt ((acc ++ bs) ++ k).[zlen (acc ++ bs) := 0];
     modifies (set_responseBuffer b2);;
     ok ← response_contains GM_AT_COMMAND_RESPONSE_OK;
     if ok : bool then mret true
     else
       error ← response_contains GM_AT_COMMAND_RESPONSE_ERROR;
       if error : bool then mret false
       else
         start ← response_contains GM_AT_MODEM_START_EVENT;
         if start : bool then mret false else get_response_data_loop n (zlen (acc ++ bs))
   else get_response_data_loop n (zlen acc))
  (set_responseBuffer (acc ++ bs ++ k) (set_port p' s)).
Proof.
  intros Eb Hl <- <- Hr Hroom. change GENERIC_MODEM_RESPONSE_BUFFER_SIZE with 16385 in *.
  destruct (Hr b) as (k & Er & Hk); [rewrite zlen_app in Hl; lia|].
  exists k. split; [rewrite zlen_app; lia|]. intros n. cbn [get_response_data_loop].
  change GENERIC_MODEM_RESPONSE_BUFFER_SIZE with 16385 in *.
  assert (cells_from (acc ++ b) (zlen acc) = Some b) as Ec.
  { unfold cells_from. rewrite zlen_app, (proj2 (andb_true_iff _ _)) by zlia.
    by rewrite zlen_to_nat, drop_app_length. }
  assert (u64 (16385 - zlen acc) = 16385 - zlen acc) as ->.
  { unfold u64. rewrite zlen_app in *. zlen_pos. apply Z.mod_small. lia. }
  do 2 st_step. rewrite Eb. erewrite ST_bind_eq; [|unfold opt; rewrite Ec; reflexivity].
  erewrite ST_bind_eq; [|unfold on_port; rewrite Er; reflexivity]. cbn beta iota. st_step.
  rewrite zlen_to_nat, take_app_length.
  assert (int_of_size (zlen bs) = zlen bs) as ->.
  { unfold int_of_size. rewrite zlen_app in *. zlen_pos. rewrite Z.mod_small, s32_id by lia. done. }
  rewrite zlen_app in Hroom. rewrite zlen_app. ztest; [|done]. 
  ztrue (zlen acc + zlen bs <? 16385). by rewrite app_assoc.
Qed.
(** Storing the NUL behind the text received so far. *)
Lemma nul_behind (t k : list Z) (size : Z) :
  zlen (t ++ k) = size → zlen t < size →
  ∃ k', (t ++ k).[zlen t := 0] = Some (t ++ 0 :: k') ∧ zlen (t ++ 0 :: k') = size.
Proof.
  intros Hl Ht. destruct k as [|c k]; [rewrite app_nil_r in Hl; lia|].
  exists k. rewrite wr_app_next. split; [done|].
  rewrite zlen_app, zlen_cons in *. lia.
Qed.

Lemma not_final t :
  final_text t = false →
  contains t GM_AT_COMMAND_RESPONSE_OK = false ∧ contains t GM_AT_COMMAND_RESPONSE_ERROR = false ∧
  contains t GM_AT_MODEM_START_EVENT = false.
Proof. unfold final_text. by intros [[? ?]%orb_false_iff ?]%orb_false_iff. Qed.

Lemma zlen_pos_nonempty (l : list Z) : l ≠ [] → (zlen l >? 0) = true.
Proof. destruct l; [done|]. intros _. rewrite zlen_cons. zlen_pos. lia. Qed.

Lemma get_response_data_loop_ok fd n acc p text p' :
  polls fd n acc p text p' → Forall (λ c, c ≠ 0) acc → ∀ s b,
  responseBuffer s = acc ++ b → zlen (acc ++ b) = GENERIC_MODEM_RESPONSE_BUFFER_SIZE →
  _modemFD s = fd → port s = p →
  ∃ k, zlen (text ++ 0 :: k) = GENERIC_MODEM_RESPONSE_BUFFER_SIZE ∧
    get_response_data_loop n (zlen acc) s
    = Some (true, set_responseBuffer (text ++ 0 :: k) (set_port p' s)).
Proof.
  induction 1 as [n acc bs p p' Hr Hbs Hnz Hroom Hok
                 |n acc bs p p' text p'' Hr Hbs Hnz Hroom Hfin Hp IH
                 |n acc p p' text p'' Hr Hp IH]; intros Ha s b Eb Hl Hfd Hport.
  - destruct (loop_read s fd acc bs b p p' Eb Hl Hfd Hport Hr Hroom) as (k & Hk & ->).
    rewrite zlen_pos_nonempty by done. rewrite app_assoc in Hk.
    destruct (nul_behind (acc ++ bs) k _ Hk Hroom) as (k' & Ew & Hk').
    exists k'. split; [done|]. erewrite ST_bind_eq; [|unfold opt; rewrite Ew; reflexivity]. st_step.
    erewrite ST_bind_eq; [|apply (response_contains_ok _ (acc ++ bs) _ k'); [done|by apply Forall_app]].
    rewrite Hok. reflexivity.
  - destruct (loop_read s fd acc bs b p p' Eb Hl Hfd Hport Hr Hroom) as (k & Hk & ->).
    rewrite zlen_pos_nonempty by done. rewrite app_assoc in Hk.
    destruct (nul_behind (acc ++ bs) k _ Hk Hroom) as (k' & Ew & Hk').
    destruct (not_final _ Hfin) as (F1 & F2 & F3).
    assert (Forall (λ c, c ≠ 0) (acc ++ bs)) as Hab by (by apply Forall_app).
    destruct (IH Hab (set_responseBuffer ((acc ++ bs) ++ 0 :: k') (set_port p' s)) (0 :: k'))
      as (k2 & Hk2 & E2); [done|done|done|done|].
    exists k2. split; [done|]. erewrite ST_bind_eq; [|unfold opt; rewrite Ew; reflexivity]. st_step.
    do 3 (erewrite ST_bind_eq; [|apply (response_contains_ok _ (acc ++ bs) _ k'); done];
          rewrite ?F1, ?F2, ?F3).
    rewrite <-app_assoc in E2. rewrite <-app_assoc. exact E2.
  - destruct (loop_read s fd acc [] b p p' Eb Hl Hfd Hport Hr) as (k & Hk & ->).
    { destruct (polls_text _ _ _ _ _ _ Hp Ha) as (_ & Ht & _). 
      enough (zlen acc <= zlen text) by (rewrite app_nil_r; lia).
      clear -Hp. induction Hp; rewrite ?zlen_app in *; zlen_pos; lia. }
    change (zlen [] >? 0) with false. cbn iota. cbn [app] in *.
    destruct (IH Ha (set_responseBuffer (acc ++ k) (set_port p' s)) k) as (k2 & Hk2 & E2);
      [done|done|done|done|].
    exists k2. split; [done|]. exact E2.
Qed.

Lemma get_response_data_ok fd p text p' s :
  polls fd GM_RETRIEVE_RESPONSE_TIMEOUT [] p text p' →
  zlen (responseBuffer s) = GENERIC_MODEM_RESPONSE_BUFFER_SIZE → _modemFD s = fd → port s = p →
  ∃ k, zlen (text ++ 0 :: k) = GENERIC_MODEM_RESPONSE_BUFFER_SIZE ∧
    _seMediaGenericModemGetATcommandResponseData s
    = Some (true, set_responseBuffer (text ++ 0 :: k) (set_port p' s)).
Proof.
  intros Hp Hl Hfd Hport. unfold _seMediaGenericModemGetATcommandResponseData. st_step.
  destruct (responseBuffer s) as [|c b] eqn:Eb; [done|].
  erewrite ST_bind_eq; [|unfold opt; rewrite wr_cell0; reflexivity]. st_step.
  destruct (get_response_data_loop_ok fd _ [] p text p' Hp ltac:(constructor)
              (set_responseBuffer (0 :: b) s) (0 :: b)) as (k & Hk & E); try done.
  exists k. split; [done|]. exact E.
Qed.

(** Successive reads deliver the pieces [bss] behind the text [acc]. *)
Fixpoint delivers (fd : Z) (acc : list Z) (bss : list (list Z)) p p' : Prop :=
  match bss with
  | [] => p = p'
  | bs :: bss => ∃ p1, reads fd (GENERIC_MODEM_RESPONSE_BUFFER_SIZE - zlen acc) bs p p1 ∧
                       delivers fd (acc ++ bs) bss p1 p'
  end.

Lemma delivers_polls fd bss last : ∀ acc p p' n,
  delivers fd acc (bss ++ [last]) p p' → (length bss < n)%nat →
  Forall (Forall (λ c, c ≠ 0)) (bss ++ [last]) → last ≠ [] →
  zlen (acc ++ concat bss ++ last) < GENERIC_MODEM_RESPONSE_BUFFER_SIZE →
  (∀ k, final_text (acc ++ concat (take k bss)) = false) →
  contains (acc ++ concat bss ++ last) GM_AT_COMMAND_RESPONSE_OK = true →
  polls fd n acc p (acc ++ concat bss ++ last) p'.
Proof.
  induction bss as [|bs bss IH]; intros acc p p' [|n] Hd Hn Hnz Hne Hl Hfin Hok; [lia| |lia|].
  { destruct Hd as (p1 & Hr & <-). cbn [concat app] in *. inversion_clear Hnz. by apply polls_done. }
  destruct Hd as (p1 & Hr & Hd). cbn [app] in Hnz. inversion_clear Hnz as [|?? Hbs Hnz'].
  cbn [concat length] in *. rewrite <-(app_assoc bs) in *. rewrite (app_assoc acc) in *.
  assert (∀ k, final_text ((acc ++ bs) ++ concat (take k bss)) = false) as Hfin'.
  { intros k. rewrite <-app_assoc. exact (Hfin (S k)). }
  destruct bs as [|c bs].
  - apply polls_nothing with p1; [done|]. rewrite app_nil_r in *. apply IH; (done || lia).
  - apply polls_more with (c :: bs) p1; [done|done|done| | |apply IH; (done || lia)].
    + rewrite (zlen_app (acc ++ _)), (zlen_app (concat bss)) in Hl. zlen_pos. lia.
    + specialize (Hfin' 0%nat). cbn in Hfin'. by rewrite app_nil_r in Hfin'.
Qed.

(** Nothing is there to be read. *)
Definition silent (fd : Z) p : Prop := reads fd GENERIC_MODEM_RESPONSE_BUFFER_SIZE [] p p.

Lemma silent_loop fd p n : silent fd p → ∀ s,
  zlen (responseBuffer s) = GENERIC_MODEM_RESPONSE_BUFFER_SIZE → _modemFD s = fd → port s = p →
  ∃ b, zlen b = GENERIC_MODEM_RESPONSE_BUFFER_SIZE ∧
    get_response_data_loop n 0 s = Some (false, set_responseBuffer b s).
Proof.
  intros Hr. induction n as [|n IH]; intros s Hl Hfd Hport.
  { exists (responseBuffer s). split; [done|]. by destruct s. }
  destruct (loop_read s fd [] [] (responseBuffer s) p p) as (k & Hk & E); [done..|].
  change (zlen []) with 0 in E. cbn [app] in *. rewrite E. change (0 >? 0) with false. cbn iota.
  destruct (IH (set_responseBuffer k (set_port p s))) as (b & Hb & E2); [done..|].
  exists b. split; [done|]. rewrite E2. subst p. by destruct s.
Qed.

(** C33: Collecting the answer of a modem (liveness): an answer that arrives in
    pieces, with silent reads in between, is collected as soon as it holds OK,
    whatever the pieces are, when it takes at most the 200 reads of the driver;
    and when the modem stays silent the driver gives up after 200 reads. *)
Theorem answer_collected s bss last p' :
  zlen (responseBuffer s) = GENERIC_MODEM_RESPONSE_BUFFER_SIZE →
  (delivers (_modemFD s) [] (bss ++ [last]) (port s) p' → (length bss < 200)%nat →
   Forall (Forall (λ c, c ≠ 0)) (bss ++ [last]) → last ≠ [] →
   zlen (concat bss ++ last) < GENERIC_MODEM_RESPONSE_BUFFER_SIZE →
   (∀ k, final_text (concat (take k bss)) = false) →
   contains (concat bss ++ last) GM_AT_COMMAND_RESPONSE_OK = true →
   ∃ b, c_str b = Some (concat bss ++ last) ∧
     _seMediaGenericModemGetATcommandResponseData s
     = Some (true, set_responseBuffer b (set_port p' s))) ∧
  (silent (_modemFD s) (port s) →
   ∃ b, _seMediaGenericModemGetATcommandResponseData s = Some (false, set_responseBuffer b s)).
Proof.
  intros Hl. split.
  - intros Hd Hn Hnz Hne Htl Hfin Hok.
    pose proof (delivers_polls _ _ _ [] _ _ _ Hd Hn Hnz Hne Htl Hfin Hok) as Hp.
    destruct (polls_text _ _ _ _ _ _ Hp ltac:(constructor)) as (Ht & _).
    destruct (get_response_data_ok _ _ _ _ s Hp Hl eq_refl eq_refl) as (k & _ & E).
    eexists. split; [|exact E]. by apply c_str_app.
  - intros Hr. unfold _seMediaGenericModemGetATcommandResponseData. st_step.
    destruct (responseBuffer s) as [|c b] eqn:Eb; [done|].
    erewrite ST_bind_eq; [|unfold opt; rewrite wr_cell0; reflexivity]. st_step.
    destruct (silent_loop _ _ GM_RETRIEVE_RESPONSE_TIMEOUT Hr (set_responseBuffer (0 :: b) s))
      as (b' & _ & E); [exact Hl|done|done|].
    exists b'. exact E.
Qed.
End collection.

(** ** Exchanges: correctness *)

Section exchanges.
Context {P : Type} `{Port P}.
Implicit Types (s : gm_state P) (p : P).

(** The modem takes the command [cmd] and answers [text]. *)
Definition exchange (fd : Z) (cmd : list Z) p (text : list Z) p' : Prop :=
  ∃ p1, (∀ k, pciot_lpa_write fd (cmd ++ 0 :: k) (zlen cmd) p = Some (zlen cmd, p1)) ∧
        polls fd GM_RETRIEVE_RESPONSE_TIMEOUT [] p1 text p'.

(** The next [n] allocations succeed. *)
Definition allocations (n : nat) s : Prop := Forall (λ b, b = false) (take n (oracle s)).

Lemma alloc_succeeds n s :
  allocations 1 s → 0 < n →
  lpaCoreMemoryAlloc n s = Some (Some (fill 0xBD n), set_heap (tail (oracle s)) (live s + 1) s).
Proof.
  intros Ha Hn. unfold lpaCoreMemoryAlloc, allocations in *. ztrue (n >? 0).
  destruct (oracle s) as [|b o]; [done|]. cbn in Ha. inversion_clear Ha as [|?? -> _]. done.
Qed.

Lemma allocations_S n s : allocations (S n) s → allocations 1 s.
Proof.
  unfold allocations. destruct (oracle s) as [|b o]; [done|]. cbn. rewrite take_0.
  inversion_clear 1. by repeat constructor.
Qed.

(** The state after an exchange that used [n] allocations. *)
Definition exchanged (n : nat) (b : list Z) p' s : gm_state P :=
  set_responseBuffer b (set_port p' (set_heap (drop n (oracle s)) (live s) s)).

Lemma received_strlen text k : Forall (λ c, c ≠ 0) text → strlen (text ++ 0 :: k) = Some (zlen text).
Proof. apply strlen_app. Qed.

Lemma checkATcommandResponseOK_ok s text k :
  responseBuffer s = text ++ 0 :: k → Forall (λ c, c ≠ 0) text →
  contains text GM_AT_COMMAND_RESPONSE_OK = true →
  _seMediaGenericModemCheckATcommandResponseOK s = Some (true, s).
Proof.
  intros E Ht Hok. unfold _seMediaGenericModemCheckATcommandResponseOK. st_step.
  erewrite ST_bind_eq; [|unfold opt; rewrite E, c_str_app by done; reflexivity].
  apply contains_length in Hok as Hl. change (zlen GM_AT_COMMAND_RESPONSE_OK) with 2 in Hl.
  rewrite Hok. by ztrue (zlen text >? 1).
Qed.

Lemma response_length_ok s text k :
  responseBuffer s = text ++ 0 :: k → Forall (λ c, c ≠ 0) text →
  response_length s = Some (zlen text, s).
Proof.
  intros E Ht. unfold response_length. st_step. unfold opt. by rewrite E, received_strlen.
Qed.

(** The extraction in a block of the size of the text. *)
Lemma extract_ok text t k :
  quoted text t → Forall (λ c, c ≠ 0) text → zlen text < GENERIC_MODEM_RESPONSE_BUFFER_SIZE →
  _seMediaGenericModemAtCommandResponseToApdu (Some (text ++ 0 :: k)) (Some (fill 0xBD (zlen text)))
    (zlen text)
  = Some (true, Some (t ++ 0 :: drop (length t + 1) (fill 0xBD (zlen text)))).
Proof.
  intros Hq Hnz Hl. pose proof (quoted_length _ _ Hq). pose proof (zlen_nonneg t).
  change GENERIC_MODEM_RESPONSE_BUFFER_SIZE with 16385 in Hl.
  apply atCommandResponseToApdu_ok; [done|done|lia|lia|].
  unfold fill. rewrite zlen_replicate. lia.
Qed.

(** What the check of the status word demands of the text of a response. *)
Definition checked (check : bool) (t : list Z) : bool :=
  if check then _seMediaGenericModemCheckAPDU_OkResponse (Some t) else true.

Lemma quoted_nonzero text t : quoted text t → Forall (λ c, c ≠ 0) text → Forall (λ c, c ≠ 0) t.
Proof.
  intros (mid & post & E & _) Ht. apply strstr_Some in E as (p & _ & -> & _).
  by repeat (apply Forall_app in Ht as [? Ht]).
Qed.

Lemma sendAPDU_ok s apdu check text t p' :
  Forall (λ c, c ≠ 0) apdu → zlen apdu <= 583 →
  zlen (responseBuffer s) = GENERIC_MODEM_RESPONSE_BUFFER_SIZE →
  exchange (_modemFD s) (at_command apdu) (port s) text p' → quoted text t → allocations 1 s →
  ∃ k, zlen (text ++ 0 :: k) = GENERIC_MODEM_RESPONSE_BUFFER_SIZE ∧
    _seMediaGenericModemSendAPDUtoModemAndCheckOK (Some apdu) check s
    = Some (checked check t, exchanged 1 (text ++ 0 :: k) p' s).
Proof.
  intros Ha Hlen Hb (p1 & Hw & Hp) Hq Hal.
  destruct (polls_text _ _ _ _ _ _ Hp ltac:(constructor)) as (Hnz & Htl & Hok).
  unfold _seMediaGenericModemSendAPDUtoModemAndCheckOK.
  destruct (apduToAtCommand_ok apdu (fill 0 GM_AT_COMMAND_BUFFER_SIZE) GM_AT_COMMAND_BUFFER_SIZE)
    as (k0 & E0 & _); [done|lia|change GM_AT_COMMAND_BUFFER_SIZE with 600; lia|done|done|].
  erewrite ST_bind_eq; [|unfold opt; rewrite E0; reflexivity]. cbn beta iota. st_step.
  erewrite ST_bind_eq; [|unfold opt; rewrite strlen_app by (by apply at_command_nonzero); reflexivity].
  st_step. erewrite ST_bind_eq; [|unfold on_port; rewrite Hw; reflexivity].
  rewrite Z.eqb_refl. cbn [negb].
  destruct (get_response_data_ok (_modemFD s) p1 text p' (set_port p1 s)) as (k & Hk & E);
    [done|done|done|done|].
  exists k. split; [done|]. rewrite (ST_bind_eq _ _ _ _ _ E). set (s1 := set_responseBuffer _ _).
  rewrite (ST_bind_eq _ _ _ _ _ (checkATcommandResponseOK_ok s1 text k eq_refl Hnz Hok)).
  rewrite (ST_bind_eq _ _ _ _ _ (response_length_ok s1 text k eq_refl Hnz)).
  unfold with_block. pose proof (quoted_length _ _ Hq). pose proof (zlen_nonneg t).
  rewrite (ST_bind_eq _ _ _ _ _ (alloc_succeeds (zlen text) s1 Hal ltac:(lia))).
  unfold mbind at 1, ST_bind at 1. st_step. 
  erewrite ST_bind_eq; [|unfold opt; cbn [responseBuffer set_heap set_responseBuffer s1];
    rewrite (extract_ok text t k Hq Hnz Htl); reflexivity].
  cbn beta iota. assert (drop 1 (oracle s) = tail (oracle s)) as Ho by (by destruct (oracle s)).
  unfold exchanged. rewrite Ho. destruct check; cbn [checked].
  - st_step. erewrite ST_bind_eq; [|unfold opt; rewrite c_str_app by (by eapply quoted_nonzero); reflexivity].
    unfold mbind, ST_bind, mret, ST_ret, lpaCoreMemoryFree, modifies.
    cbn [live set_heap oracle s1 set_responseBuffer set_port]. rewrite Z.add_simpl_r. done.
  - unfold mbind, ST_bind, mret, ST_ret, lpaCoreMemoryFree, modifies.
    cbn [live set_heap oracle s1 set_responseBuffer set_port]. rewrite Z.add_simpl_r. done.
Qed.
(** A command on channel [ch]: ISO 7816-4 codes the channels 0 to 3 in the two
    low bits of the class byte, and the channels 4 to 19 in its four low bits
    next to bit 7. *)
Definition iso_channel (ch : Z) : Z := if ch <? 4 then ch else 64 + (ch - 4).

Definition on_channel (ch : Z) (cmd : list Z) : list Z :=
  match cmd with c :: k => Z.lor c (iso_channel ch) :: k | [] => [] end.

Lemma channel_bits_iso ch : 0 <= ch < 20 → channel_bits ch = iso_channel ch.
Proof.
  intros Hc. unfold channel_bits, iso_channel. ztest; [done|].
  unfold u8. rewrite Z.mod_small by lia. lia.
Qed.

Lemma lor_byte a b : is_byte a → is_byte b → is_byte (Z.lor a b).
Proof.
  intros Ha Hb. unfold is_byte in *.
  pose proof (check_range (λ a, forallb (λ b, Z.lor a b <? 256) (seqZ 0 256)) 256 a) as H1.
  specialize (H1 ltac:(vm_compute; reflexivity) Ha).
  pose proof (check_range _ 256 b H1 Hb) as H2. zprop.
  pose proof (proj2 (Z.lor_nonneg a b)). lia.
Qed.

Lemma iso_channel_byte ch : 0 <= ch < 20 → is_byte (iso_channel ch).
Proof. intros Hc. unfold iso_channel, is_byte. ztest; lia. Qed.

Lemma hex_of_nonzero d : Forall is_byte d → Forall (λ c, c ≠ 0) (hex_of d).
Proof.
  induction 1 as [|v d Hv Hd IH]; [constructor|]. rewrite hex_of_cons. apply Forall_app.
  split; [by apply fmt_02X_nonzero|done].
Qed.

(** The class byte read back from its two digits. *)
Lemma class_digits c : is_byte c →
  u8 (Z.shiftl (oneHexCharToHex (hex_upper (c / 16))) 4 + oneHexCharToHex (hex_upper (c mod 16))) = c.
Proof.
  intros Hc. unfold is_byte in Hc.
  destruct (hex_digit_roundtrip (c / 16)) as [_ ->]; [dlia|].
  destruct (hex_digit_roundtrip (c mod 16)) as [_ ->]; [dlia|].
  rewrite Z.shiftl_mul_pow2 by lia. unfold u8. change (2^4) with 16. change (2^8) with 256. dlia.
Qed.

Lemma int_of_size_id z : 0 <= z < 2^31 → int_of_size z = z.
Proof. intros Hz. unfold int_of_size. rewrite Z.mod_small by lia. apply s32_id. lia. Qed.

Lemma store_int_id z v : 0 <= z < 2^31 → 0 <= v < 2^31 → store_int z v = v.
Proof.
  intros Hz Hv. unfold store_int. rewrite Z.div_small, Z.mod_small by lia. lia.
Qed.

(** The class byte replaced in the text of a command. *)
Lemma wr_class x y (k : list Z) v : wr_range (x :: y :: k) 0 (fmt_02X v) = Some (fmt_02X v ++ k).
Proof. apply (wr_range_mid [] [x; y]). done. Qed.

(** The bytes of a response in the caller's buffer. *)
Lemma processAPDUresponse_ok s text resp k dst room :
  responseBuffer s = text ++ 0 :: k → zlen (responseBuffer s) = GENERIC_MODEM_RESPONSE_BUFFER_SIZE →
  Forall (λ c, c ≠ 0) text → contains text GM_AT_COMMAND_RESPONSE_OK = true →
  quoted text (hex_of resp) → Forall is_byte resp → 0 < zlen resp <= room →
  room <= zlen dst → room < 2^31 → allocations 1 s →
  _seMediaGenericModemProcessAPDUresponse dst room room s
  = Some ((true, resp ++ drop (length resp) dst, zlen resp),
          set_heap (tail (oracle s)) (live s) s).
Proof.
  intros Eb Hl Hnz Hok Hq Hr Hlen Hdst Hroom Hal. unfold _seMediaGenericModemProcessAPDUresponse.
  rewrite (ST_bind_eq _ _ _ _ _ (checkATcommandResponseOK_ok s text k Eb Hnz Hok)).
  rewrite (ST_bind_eq _ _ _ _ _ (response_length_ok s text k Eb Hnz)).
  pose proof (quoted_length _ _ Hq) as Hql. rewrite zlen_hex_of in Hql.
  assert (zlen text < GENERIC_MODEM_RESPONSE_BUFFER_SIZE) as Htl.
  { rewrite Eb, zlen_app, zlen_cons in Hl. zlen_pos. lia. }
  rewrite (ST_bind_eq _ _ _ _ _ (alloc_succeeds (zlen text) s Hal ltac:(lia))). st_step.
  erewrite ST_bind_eq; [|unfold opt; cbn [responseBuffer set_heap];
    rewrite Eb, (extract_ok text _ k Hq Hnz Htl); reflexivity]. cbn beta iota.
  unfold mbind at 1, ST_bind at 1. st_step.
  erewrite ST_bind_eq; [|unfold opt; rewrite strlen_app by (by apply hex_of_nonzero); reflexivity].
  change GENERIC_MODEM_RESPONSE_BUFFER_SIZE with 16385 in *. rewrite zlen_hex_of, s32_id by lia.
  erewrite ST_bind_eq; [|unfold opt; rewrite int_of_size_id, hexStr2ByteArray_text;
    [reflexivity|done|lia|lia|unfold int_max; lia|lia]].
  unfold mbind, ST_bind, mret, ST_ret, lpaCoreMemoryFree, modifies, opt.
  rewrite store_int_id by lia. cbn. by rewrite Z.add_simpl_r.
Qed.

Lemma transmit_ok s cmd resp text room p' :
  Forall is_byte cmd → 4 <= zlen cmd < 262 → 2 <= room < 2^31 →
  Forall is_byte resp → 0 < zlen resp <= room → 0 <= _apduChannel s < 20 →
  zlen (responseBuffer s) = GENERIC_MODEM_RESPONSE_BUFFER_SIZE →
  exchange (_modemFD s) (at_command (hex_of (on_channel (_apduChannel s) cmd))) (port s) text p' →
  quoted text (hex_of resp) → allocations 3 s →
  ∃ k, zlen (text ++ 0 :: k) = GENERIC_MODEM_RESPONSE_BUFFER_SIZE ∧ ∀ dst, room <= zlen dst →
    _seMediaGenericModemTransmitApdu cmd dst room s
    = Some ((true, resp ++ drop (length resp) dst, zlen resp), exchanged 3 (text ++ 0 :: k) p' s).
Proof.
  intros Hc Hcl Hroom Hr Hrl Hch Hb Hx Hq Hal. pose proof Hx as (p1 & _ & Hp).
  destruct (polls_text _ _ _ _ _ _ Hp ltac:(constructor)) as (Hnz & Htl & Hok).
  destruct cmd as [|c tl]; [change (zlen []) with 0 in *; lia|].
  set (n := zlen (c :: tl)) in *. set (s0 := set_heap (tail (oracle s)) (live s + 1) s).
  inversion_clear Hc as [|?? Hc0 Htl0].
  set (cmd' := on_channel (_apduChannel s) (c :: tl)) in *.
  assert (Forall is_byte cmd') as Hc'.
  { subst cmd'. constructor; [|done]. apply lor_byte; [done|]. by apply iso_channel_byte. }
  assert (zlen cmd' = n) as Hn' by (subst cmd' n; cbn [on_channel]; by rewrite !zlen_cons).
  assert (∀ m, allocations (S m) s → allocations m (set_heap (tail (oracle s)) (live s + 1) s)) as Htail.
  { intros m. unfold allocations. cbn. destruct (oracle s); [by destruct m|].
    cbn. by intros [_ ?]%Forall_cons. }
  destruct (sendAPDU_ok s0 (hex_of cmd') false text (hex_of resp) p' (hex_of_nonzero _ Hc')) as (k & Hk & E);
    [rewrite zlen_hex_of; lia|done|exact Hx|exact Hq|by apply (allocations_S 1), Htail|].
  exists k. split; [done|]. intros dst Hdst. unfold _seMediaGenericModemTransmitApdu. fold n.
  ztrue (n >=? 4). ztrue (n <? 262). ztrue (room >=? 2). cbn [andb].
  rewrite (ST_bind_eq _ _ _ _ _ (alloc_succeeds (n * 2 + 2) s (allocations_S 2 s Hal) ltac:(lia))).
  pose proof (formatBytes_ok (c :: tl) (fill 0xBD (n * 2 + 2)) (n * 2 + 2)) as Ef.
  unfold size_t_max in Ef. fold n in Ef.
  specialize (Ef ltac:(unfold fill; rewrite zlen_replicate; lia) ltac:(lia) ltac:(lia)).
  fold s0. erewrite ST_bind_eq.
  2: { unfold opt. rewrite Ef. ztrue (2 * n + 1 <? n * 2 + 2). reflexivity. }
  cbn beta iota. ztrue (2 * n >? 0). cbn [hex_buffer]. unfold mbind at 1, ST_bind at 1. st_step.
  rewrite hex_of_cons. change (fmt_02X c) with [hex_upper (c / 16); hex_upper (c mod 16)].
  rewrite <-!app_assoc. cbn [app].
  st_step. st_step. st_step. rewrite class_digits, channel_bits_iso by done.
  erewrite ST_bind_eq; [|unfold opt; rewrite wr_class; reflexivity].
  assert (∀ k, fmt_02X (Z.lor c (iso_channel (_apduChannel s0))) ++ hex_of tl ++ k = hex_of cmd' ++ k) as Ec.
  { intros k'. subst cmd'. cbn [on_channel]. by rewrite hex_of_cons, <-app_assoc. }
  rewrite Ec. erewrite ST_bind_eq; [|unfold opt; rewrite c_str_app by (by apply hex_of_nonzero); reflexivity].
  rewrite (ST_bind_eq _ _ _ _ _ E). cbn [checked].
  rewrite (processAPDUresponse_ok _ text resp k dst room); [|done..| |lia|lia|].
  - unfold mbind, ST_bind, mret, ST_ret, lpaCoreMemoryFree, modifies, exchanged.
    cbn [set_heap live oracle set_responseBuffer set_port s0]. rewrite Z.add_simpl_r.
    by destruct (oracle s) as [|? [|? [|? ?]]].
  - done.
  - revert Hal. unfold allocations. cbn. destruct (oracle s) as [|b1 [|b2 [|b3 o]]]; try done.
    cbn. rewrite take_0. rewrite !Forall_cons. tauto.
Qed.
End exchanges.

(** ** The invariant of the driver *)

(** What the port promises, in the states [port_ok] that its functions keep: a
    read fits the room it is given, and when it does not fill it the last cell
    stays, or becomes, a NUL. *)
Class SoundPort (P : Type) `{Port P} := {
  port_ok : P → Prop;
  open_sound name : keeps port_ok (pciot_lpa_open name);
  close_sound fd : keeps port_ok (pciot_lpa_close fd);
  write_sound fd b n : keeps port_ok (pciot_lpa_write fd b n);
  read_sound fd dst p count dst' p' :
    port_ok p → pciot_lpa_read fd dst (zlen dst) p = Some ((count, dst'), p') →
    port_ok p' ∧ zlen dst' = zlen dst ∧ 0 <= count <= zlen dst ∧
    (count < zlen dst → dst.[zlen dst - 1] = Some 0 → dst'.[zlen dst - 1] = Some 0)
}.

Section invariant.
Context {P : Type} `{SoundPort P}.
Implicit Types (s : gm_state P) (p : P).

(** The response buffer has its size and ends with a NUL, so that every string
    function on it is defined; a channel is open only in the range of logical
    channels, under the number its text denotes. *)
Record gm_wf s : Prop := {
  wf_buffer : zlen (responseBuffer s) = GENERIC_MODEM_RESPONSE_BUFFER_SIZE;
  wf_nul : (responseBuffer s).[GENERIC_MODEM_RESPONSE_BUFFER_SIZE - 1] = Some 0;
  wf_string : zlen (_apduChannelString s) = 3;
  wf_channel : 0 <= _apduChannel s < 20;
  wf_number : _apduChannel s ≠ 0 →
    ∃ str, c_str (_apduChannelString s) = Some str ∧ u8 (atoi str) = _apduChannel s;
  wf_port : port_ok (port s)
}.

(** Well-formed, with [n] blocks on the heap. *)
Definition gm_inv (n : Z) s : Prop := gm_wf s ∧ live s = n.

Lemma inv_context n b s : gm_inv n s → gm_inv n (set_context b s).
Proof. intros [[] ?]. by split; [split|]. Qed.
Lemma inv_modemFD n fd s : gm_inv n s → gm_inv n (set_modemFD fd s).
Proof. intros [[] ?]. by split; [split|]. Qed.
Lemma inv_callback n b s : gm_inv n s → gm_inv n (set_callback b s).
Proof. intros [[] ?]. by split; [split|]. Qed.
Lemma inv_events n l s : gm_inv n s → gm_inv n (set_events l s).
Proof. intros [[] ?]. by split; [split|]. Qed.
Lemma inv_port n p s : gm_inv n s → port_ok p → gm_inv n (set_port p s).
Proof. intros [[] ?] ?. by split; [split|]. Qed.
Lemma inv_heap n o m s : gm_inv n s → gm_inv m (set_heap o m s).
Proof. intros [[] ?]. by split; [split|]. Qed.

Lemma inv_no_channel n str s :
  gm_inv n s → zlen str = 3 → gm_inv n (set_channel 0 str s).
Proof. intros [[] ?] ?. by split; [split|]. Qed.

Lemma keeps_port {A} n (f : ST P A) : keeps port_ok f → keeps (gm_inv n) (on_port f).
Proof.
  intros Hf s a s' Hs. unfold on_port. destruct (f (port s)) as [[a' p]|] eqn:E; [|done].
  intros [= <- <-]. apply inv_port; [done|]. eapply Hf; [apply Hs|exact E].
Qed.

Lemma keeps_context n b : keeps (gm_inv n) (modifies (set_context (P := P) b)).
Proof. apply keeps_modifies, inv_context. Qed.
Lemma keeps_modemFD n fd : keeps (gm_inv n) (modifies (set_modemFD (P := P) fd)).
Proof. apply keeps_modifies, inv_modemFD. Qed.
Lemma keeps_callback n b : keeps (gm_inv n) (modifies (set_callback (P := P) b)).
Proof. apply keeps_modifies, inv_callback. Qed.

Lemma keeps_event n e :
  keeps (gm_inv n) (_seMediaGenericModemSendLpaEventExecutionError (P := P) e).
Proof.
  apply keeps_modifies. intros s Hs. destruct (_lpaEventExecutionErrorCallback s); [|done].
  by apply inv_events.
Qed.
#[local] Hint Resolve open_sound close_sound write_sound : keeps.
#[local] Hint Resolve keeps_port keeps_context keeps_modemFD keeps_callback keeps_event : keeps.

Lemma keeps_contains n t : keeps (gm_inv n) (response_contains (P := P) t).
Proof. unfold response_contains. repeat keeps_step. Qed.
Lemma keeps_checkOK n : keeps (gm_inv n) (_seMediaGenericModemCheckATcommandResponseOK (P := P)).
Proof. unfold _seMediaGenericModemCheckATcommandResponseOK. repeat keeps_step. Qed.
Lemma keeps_length n : keeps (gm_inv n) (response_length (P := P)).
Proof. unfold response_length. repeat keeps_step. Qed.
#[local] Hint Resolve keeps_contains keeps_checkOK keeps_length : keeps.

Lemma hoare_alloc n k :
  hoare (gm_inv n) (lpaCoreMemoryAlloc (P := P) k)
    (λ o s, gm_inv (match o with Some _ => n + 1 | None => n end) s).
Proof.
  intros s o s' Hs. unfold lpaCoreMemoryAlloc. destruct (k >? 0); [|by intros [= <- <-]].
  pose proof Hs as [_ Hn]. destruct (match oracle s with true :: _ => true | _ => false end);
    intros [= <- <-]; rewrite Hn; by eapply inv_heap.
Qed.

Lemma hoare_free n :
  hoare (gm_inv (n + 1)) (lpaCoreMemoryFree (P := P)) (λ _, gm_inv n).
Proof.
  apply hoare_modifies. intros s Hs. pose proof Hs as [_ ->]. rewrite Z.add_simpl_r.
  by eapply inv_heap.
Qed.

(** A block allocated around a computation is freed. *)
Lemma keeps_block {A} n k (f : list Z → ST (gm_state P) A) (none : ST (gm_state P) A) :
  (∀ b, keeps (gm_inv (n + 1)) (f b)) → keeps (gm_inv n) none →
  keeps (gm_inv n) (block ← lpaCoreMemoryAlloc k;
                    match block with
                    | Some b => r ← f b; lpaCoreMemoryFree;; mret r
                    | None => none
                    end).
Proof.
  intros Hf Hnone. eapply hoare_bind; [apply hoare_alloc|]. intros [b|]; [|done].
  eapply hoare_bind; [apply Hf|]. intros r. eapply hoare_bind; [apply hoare_free|].
  intros []. by apply hoare_ret.
Qed.

(** The buffer after a write of a NUL. *)
Lemma inv_buffer_nul n s b i b' :
  gm_inv n s → zlen b = GENERIC_MODEM_RESPONSE_BUFFER_SIZE → b.[i := 0] = Some b' →
  (b.[GENERIC_MODEM_RESPONSE_BUFFER_SIZE - 1] = Some 0 ∨ i = GENERIC_MODEM_RESPONSE_BUFFER_SIZE - 1) →
  gm_inv n (set_responseBuffer b' s).
Proof.
  intros [[] ?] Hb Hw Hi. change GENERIC_MODEM_RESPONSE_BUFFER_SIZE with 16385 in *.
  unfold wr in Hw. destruct (_ && _) eqn:E; [|done]. injection Hw as <-. zprop.
  split; [split|]; cbn; try done.
  - by rewrite zlen_insert.
  - change GENERIC_MODEM_RESPONSE_BUFFER_SIZE with 16385. unfold rd in *. cbn [Z.leb Z.compare Z.sub] in *.
    destruct (decide (i = 16384)) as [->|].
    + rewrite list_lookup_insert_eq; [done|]. unfold zlen in Hb. lia.
    + rewrite list_lookup_insert_ne by lia. destruct Hi as [Hi|Hi]; [exact Hi|lia].
Qed.
(** The buffer after a read, in the cells from [nb] on. *)
Lemma read_buffer (b dst dst' : list Z) nb :
  zlen b = GENERIC_MODEM_RESPONSE_BUFFER_SIZE → cells_from b nb = Some dst → zlen dst' = zlen dst →
  let b1 := take (Z.to_nat nb) b ++ dst' in
  zlen b1 = GENERIC_MODEM_RESPONSE_BUFFER_SIZE ∧
  zlen dst = GENERIC_MODEM_RESPONSE_BUFFER_SIZE - nb ∧
  0 <= nb <= GENERIC_MODEM_RESPONSE_BUFFER_SIZE ∧
  (nb < GENERIC_MODEM_RESPONSE_BUFFER_SIZE →
     b.[GENERIC_MODEM_RESPONSE_BUFFER_SIZE - 1] = dst.[zlen dst - 1] ∧
     b1.[GENERIC_MODEM_RESPONSE_BUFFER_SIZE - 1] = dst'.[zlen dst - 1]) ∧
  (nb = GENERIC_MODEM_RESPONSE_BUFFER_SIZE → b1 = b).
Proof.
  intros Hb Hc Hl b1. unfold cells_from in Hc. destruct (_ && _) eqn:E; [|done]. zprop.
  injection Hc as <-. change GENERIC_MODEM_RESPONSE_BUFFER_SIZE with 16385 in *.
  assert (zlen (drop (Z.to_nat nb) b) = 16385 - nb) as Hd by (rewrite zlen_drop; lia).
  assert (zlen (take (Z.to_nat nb) b) = nb) as Ht by (rewrite zlen_take; lia).
  subst b1. split_and!; [rewrite zlen_app; lia|done|lia|lia| |].
  - intros Hlt. rewrite Hd. split.
    + rewrite <-(take_drop (Z.to_nat nb) b) at 1. rewrite rd_app_r by lia. f_equal. lia.
    + rewrite rd_app_r by lia. f_equal. lia.
  - intros ->. destruct dst'; [|rewrite zlen_cons in Hl; zlen_pos; lia].
    rewrite app_nil_r. apply take_ge. unfold zlen in Hb. lia.
Qed.

Lemma keeps_loop n m nb : keeps (gm_inv n) (get_response_data_loop (P := P) m nb).
Proof.
  revert nb. induction m as [|m IH]; intros nb; [apply keeps_ret|]. cbn [get_response_data_loop].
  apply hoare_gets_bind. intros fd. apply hoare_gets_bind. intros b. apply hoare_opt_bind. intros dst Hd.
  set (room := u64 _).
  eapply hoare_bind with (R := λ r s, gm_inv n s ∧ zlen b = GENERIC_MODEM_RESPONSE_BUFFER_SIZE ∧
    b.[GENERIC_MODEM_RESPONSE_BUFFER_SIZE - 1] = Some 0 ∧ zlen r.2 = zlen dst ∧ 0 <= r.1 <= zlen dst ∧
    (r.1 < zlen dst → dst.[zlen dst - 1] = Some 0 → r.2.[zlen dst - 1] = Some 0)).
  { intros s r s' [[Hs _] Eb]. unfold on_port. pose proof Hs as [[] Hn]. rewrite Eb in *.
    destruct (read_buffer b dst dst nb wf_buffer0 Hd eq_refl) as (_ & Hroom & Hnb & _).
    assert (room = zlen dst) as ->.
    { subst room. change GENERIC_MODEM_RESPONSE_BUFFER_SIZE with 16385 in *. unfold u64.
      rewrite Z.mod_small by lia. lia. }
    destruct (pciot_lpa_read _ _ _ _) as [[[count dst'] p]|] eqn:E; [|done]. intros [= <- <-].
    apply read_sound in E as [Hp E]; [|done]. split; [by apply inv_port|]. tauto. }
  intros [count dst']. cbn beta iota. cbn [fst snd]. set (b1 := take _ _ ++ dst').
  eapply hoare_bind with (R := λ _ s, ∃ s0, s = set_responseBuffer b1 s0 ∧ gm_inv n s0 ∧
    zlen b1 = GENERIC_MODEM_RESPONSE_BUFFER_SIZE ∧ 0 <= nb <= GENERIC_MODEM_RESPONSE_BUFFER_SIZE ∧
    0 <= count <= GENERIC_MODEM_RESPONSE_BUFFER_SIZE - nb ∧
    (count < GENERIC_MODEM_RESPONSE_BUFFER_SIZE - nb ∨ count = 0 →
       b1.[GENERIC_MODEM_RESPONSE_BUFFER_SIZE - 1] = Some 0)).
  { apply hoare_modifies. intros s (Hs & Hb & Hb0 & Hl & Hc & Hlast). exists s. split; [done|].
    split; [done|]. destruct (read_buffer b dst dst' nb Hb Hd Hl) as (H1 & H2 & H3 & H4 & H5).
    rewrite H2 in *. split; [done|]. split; [done|]. split; [lia|]. intros Hcount.
    destruct (decide (nb = GENERIC_MODEM_RESPONSE_BUFFER_SIZE)) as [Enb|].
    - subst b1. by rewrite (H5 Enb).
    - destruct H4 as [H4 H6]; [lia|]. unfold b1. rewrite H6. apply Hlast; [lia|]. by rewrite <-H4. }
  intros []. cbn zeta. destruct (decide (0 <= count <= 16385)) as [Hc|].
  2: { intros s a s' (s0 & _ & _ & _ & Hnb & Hc & _).
       change GENERIC_MODEM_RESPONSE_BUFFER_SIZE with 16385 in *. lia. }
  rewrite int_of_size_id by lia. destruct (count >? 0) eqn:Epos.
  - apply hoare_opt_bind. intros b2 Hb2.
    eapply hoare_bind with (R := λ _, gm_inv n).
    { apply hoare_modifies. intros s (s0 & -> & Hs & Hb1 & Hnb & Hcount & Hlast).
      change (gm_inv n (set_responseBuffer b2 s0)). eapply inv_buffer_nul; [done|exact Hb1|exact Hb2|].
      change GENERIC_MODEM_RESPONSE_BUFFER_SIZE with 16385 in *. ztest; [left; apply Hlast; lia|by right]. }
    intros []. repeat keeps_step.
  - eapply hoare_weaken; [apply IH| |done].
    intros s (s0 & -> & Hs & Hb1 & Hnb & Hcount & Hlast). zprop.
    destruct Hs as [[] ?]. split; [split|]; cbn; try done. apply Hlast. lia.
Qed.

Lemma keeps_GetATcommandResponseData n :
  keeps (gm_inv n) (_seMediaGenericModemGetATcommandResponseData (P := P)).
Proof.
  unfold _seMediaGenericModemGetATcommandResponseData. apply hoare_gets_bind. intros b.
  apply hoare_opt_bind. intros b' Hb'. eapply (hoare_bind _ _ (λ _, gm_inv n)); [|intros []; apply keeps_loop].
  apply hoare_modifies. intros s [Hs <-]. pose proof Hs as [[] _].
  eapply inv_buffer_nul; [done|exact wf_buffer0|exact Hb'|by left].
Qed.
#[local] Hint Resolve keeps_GetATcommandResponseData : keeps.

Lemma keeps_with_block n k f :
  (∀ b, keeps (gm_inv (n + 1)) (f b)) → keeps (gm_inv n) (with_block (P := P) k f).
Proof. intros Hf. apply keeps_block; [exact Hf|apply keeps_ret]. Qed.

Ltac gm_step := first [apply keeps_with_block; intros ? | keeps_step].

Lemma keeps_SendAPDU n apdu check :
  keeps (gm_inv n) (_seMediaGenericModemSendAPDUtoModemAndCheckOK (P := P) apdu check).
Proof.
  unfold _seMediaGenericModemSendAPDUtoModemAndCheckOK.
  destruct apdu; [|apply keeps_ret]. repeat gm_step.
Qed.
#[local] Hint Resolve keeps_SendAPDU : keeps.

Lemma keeps_OpenUICCChannel n :
  keeps (gm_inv n) (_seMediaGenericModemOpenUICCChannel (P := P)).
Proof.
  unfold _seMediaGenericModemOpenUICCChannel.
  apply keeps_bind; [auto with keeps|]. intros sent. apply keeps_if; [|apply keeps_ret].
  apply keeps_bind; [auto with keeps|]. intros k. apply keeps_with_block. intros extracted.
  apply keeps_bind; [auto with keeps|]. intros b.
  apply keeps_bind; [auto with keeps|]. intros [res bytes]. apply keeps_if; [|apply keeps_ret].
  do 3 (apply keeps_bind; [auto with keeps|]; intros ?).
  apply hoare_opt_bind. intros str Hstr. cbn zeta.
  set (channel := u8 (atoi str)).
  destruct ((channel >? 0) && (channel <? 20)) eqn:Erange;
    (apply keeps_bind; [|intros; apply keeps_ret]); apply keeps_modifies; intros s Hs.
  - destruct Hs as [[] ?]. zprop. split; [split|]; cbn; try done; [lia|]. intros _. by exists str.
  - by apply inv_no_channel.
Qed.

(** Forgetting the channel. *)
Lemma keeps_forget {A} n (k : list Z → ST (gm_state P) A) :
  (∀ cells, zlen cells = 3 → keeps (gm_inv n) (k cells)) →
  keeps (gm_inv n) (cells ← gets _apduChannelString; k cells).
Proof. apply keeps_gets_bind. by intros s [[] _]. Qed.

Lemma keeps_no_channel n cells :
  zlen cells = 3 →
  keeps (gm_inv n) (rest ← opt cells.[0 := 0]; modifies (set_channel (P := P) 0 rest)).
Proof.
  intros Hc. apply keeps_opt_bind. intros rest Hr. apply keeps_modifies. intros s Hs.
  apply inv_no_channel; [done|]. unfold wr in Hr. destruct (_ && _); [|done]. injection Hr as <-.
  by rewrite zlen_insert.
Qed.

Lemma keeps_no_channel_ret {A} n cells (a : A) :
  zlen cells = 3 →
  keeps (gm_inv n) (rest ← opt cells.[0 := 0]; modifies (set_channel (P := P) 0 rest);; mret a).
Proof.
  intros Hc s a' s' Hs E. unfold mbind, ST_bind, opt in E. destruct cells.[0 := 0] as [rest|] eqn:Er; [|done].
  injection E as <- <-. eapply (keeps_no_channel n cells Hc s tt); [exact Hs|].
  unfold mbind, ST_bind, opt. by rewrite Er.
Qed.
#[local] Hint Resolve keeps_no_channel keeps_no_channel_ret : keeps.

Lemma keeps_CloseUICCChannel n :
  keeps (gm_inv n) (_seMediaGenericModemCloseUICCChannel (P := P)).
Proof.
  unfold _seMediaGenericModemCloseUICCChannel.
  apply keeps_bind; [auto with keeps|]. intros ch. apply keeps_if; [|apply keeps_ret].
  apply keeps_bind; [auto with keeps|]. intros b1. apply keeps_forget. intros cells Hc.
  repeat keeps_step.
Qed.
#[local] Hint Resolve keeps_OpenUICCChannel keeps_CloseUICCChannel : keeps.

Lemma keeps_IsConnected n : keeps (gm_inv n) (_seMediaGenericModemIsConnected (P := P)).
Proof. unfold _seMediaGenericModemIsConnected. repeat keeps_step. Qed.
Lemma keeps_Close n : keeps (gm_inv n) (_seMediaGenericModemCloseDescriptorOrHandle (P := P)).
Proof. unfold _seMediaGenericModemCloseDescriptorOrHandle. repeat keeps_step. Qed.
#[local] Hint Resolve keeps_IsConnected keeps_Close : keeps.

Lemma keeps_Disconnect n : keeps (gm_inv n) (_seMediaGenericModemDisconnect (P := P)).
Proof. unfold _seMediaGenericModemDisconnect. repeat keeps_step. Qed.
#[local] Hint Resolve keeps_Disconnect : keeps.

Lemma keeps_DisconnectWithReset n :
  keeps (gm_inv n) (_seMediaGenericModemDisconnectWithReset (P := P)).
Proof.
  unfold _seMediaGenericModemDisconnectWithReset. do 3 keeps_step.
  { keeps_step. }
  repeat first [apply keeps_forget; intros ? ? | keeps_step].
Qed.

Lemma keeps_Connect n name : keeps (gm_inv n) (_seMediaGenericModemConnect (P := P) name).
Proof.
  unfold _seMediaGenericModemConnect. apply keeps_bind; [|intros; repeat keeps_step].
  apply keeps_modifies. intros s Hs. apply inv_modemFD, inv_no_channel; [done|by destruct Hs as [[] _]].
Qed.

Lemma keeps_ReleaseContext n : keeps (gm_inv n) (_seMediaGenericModemReleaseContext (P := P)).
Proof. unfold _seMediaGenericModemReleaseContext. repeat keeps_step. Qed.

Lemma keeps_ProcessAPDUresponse n dst max size :
  keeps (gm_inv n) (_seMediaGenericModemProcessAPDUresponse (P := P) dst max size).
Proof.
  unfold _seMediaGenericModemProcessAPDUresponse. 
  apply keeps_bind; [auto with keeps|]. intros ok. apply keeps_if; [|apply keeps_ret].
  apply keeps_bind; [auto with keeps|]. intros k.
  eapply hoare_bind; [apply hoare_alloc|]. intros [b|]; [|apply keeps_ret].
  eapply (hoare_bind _ _ (λ _, gm_inv (n + 1))); [apply keeps_gets|]. intros rb.
  eapply (hoare_bind _ _ (λ _, gm_inv (n + 1))); [apply keeps_opt|]. intros [res extracted].
  eapply (hoare_bind _ _ (λ _, gm_inv (n + 1))); [repeat keeps_step|]. intros r.
  eapply hoare_bind; [apply hoare_free|]. intros []. apply keeps_ret.
Qed.

Lemma keeps_TransmitApdu n cmd dst max :
  keeps (gm_inv n) (_seMediaGenericModemTransmitApdu (P := P) cmd dst max).
Proof.
  unfold _seMediaGenericModemTransmitApdu. cbn zeta. apply keeps_if; [|apply keeps_ret].
  eapply hoare_bind; [apply hoare_alloc|]. intros [b|]; [|apply keeps_ret].
  eapply (hoare_bind _ _ (λ _, gm_inv (n + 1))); [apply keeps_opt|]. intros [k str].
  eapply (hoare_bind _ _ (λ _, gm_inv (n + 1))).
  { pose proof (keeps_ProcessAPDUresponse (n + 1) dst max max). repeat keeps_step. }
  intros r. eapply hoare_bind; [apply hoare_free|]. intros []. apply keeps_ret.
Qed.
End invariant.

(** ** Histories of the driver *)

(** The calls of the driver, with the operations of its interface. *)
Inductive gm_call :=
  | EstablishContext | ReleaseContext | IsValidContext | IsContextEstablished
  | SetCallback (callback : bool) | ListReader (max : Z) | Connect (name : list Z) | IsConnected
  | TransmitApdu (cmd dst : list Z) (max : Z) | Disconnect | DisconnectWithReset | GetStatus.

Section histories.
Context {P : Type} `{Port P}.

(** The effect of a call on the state. *)
Definition effect {A} (m : ST (gm_state P) A) : ST (gm_state P) unit := m;; mret tt.

Definition perform (c : gm_call) : ST (gm_state P) unit :=
  match c with
  | EstablishContext => effect _seMediaGenericModemEstablishContext
  | ReleaseContext => effect _seMediaGenericModemReleaseContext
  | IsValidContext => effect _seMediaGenericModemIsValidContext
  | IsContextEstablished => effect _seMediaGenericModemIsContextEstablished
  | SetCallback b => effect (_seMediaGenericModemSetCallbackEventExecutionError b)
  | ListReader max => effect (_seMediaGenericModemListReader max)
  | Connect name => effect (_seMediaGenericModemConnect name)
  | IsConnected => effect _seMediaGenericModemIsConnected
  | TransmitApdu cmd dst max => effect (_seMediaGenericModemTransmitApdu cmd dst max)
  | Disconnect => effect _seMediaGenericModemDisconnect
  | DisconnectWithReset => effect _seMediaGenericModemDisconnectWithReset
  | GetStatus => effect _seMediaGenericModemGetStatus
  end.

(** The states a driver can reach from its construction. *)
Inductive reachable (s0 : gm_state P) : gm_state P → Prop :=
  | reach_new t s : New_SEMediaGenericModem s0 = Some (Some t, s) → reachable s0 s
  | reach_call c s s' : reachable s0 s → perform c s = Some (tt, s') → reachable s0 s'.
(** The calls of a history, after the construction. *)
Definition run (cs : list gm_call) (s0 : gm_state P) : option (gm_state P) :=
  match New_SEMediaGenericModem s0 with
  | Some (Some _, s) => foldl (λ o c, s ← o; snd <$> perform c s) (Some s) cs
  | _ => None
  end.

Lemma run_reachable cs s0 s : run cs s0 = Some s → reachable s0 s.
Proof.
  unfold run. destruct (New_SEMediaGenericModem s0) as [[[t|] s1]|] eqn:E; [|done|done].
  assert (reachable s0 s1) as Hr by by eapply reach_new. clear E. revert s1 Hr.
  assert (∀ cs, foldl (λ (o : option (gm_state P)) c, s ← o; snd <$> perform c s) None cs = None) as Hnone.
  { intros cs'. by induction cs'. }
  induction cs as [|c cs IH]; intros s1 Hr; cbn; [by intros [= <-]|].
  destruct (perform c s1) as [[[] s2]|] eqn:E; cbn; [|by rewrite Hnone].
  apply IH. by eapply reach_call.
Qed.

Context `{!SoundPort P}.

Lemma keeps_effect {A} I (m : ST (gm_state P) A) : keeps I m → keeps I (effect m).
Proof. intros Hm. apply keeps_bind; [exact Hm|intros; apply keeps_ret]. Qed.

Lemma keeps_perform n c : keeps (gm_inv n) (perform c).
Proof.
  destruct c; apply keeps_effect.
  - repeat keeps_step. apply keeps_context.
  - apply keeps_ReleaseContext.
  - unfold _seMediaGenericModemIsValidContext. repeat keeps_step.
  - apply keeps_gets.
  - unfold _seMediaGenericModemSetCallbackEventExecutionError.
    repeat first [apply keeps_callback | keeps_step].
  - apply keeps_ret.
  - apply keeps_Connect.
  - apply keeps_IsConnected.
  - apply keeps_TransmitApdu.
  - apply keeps_Disconnect.
  - apply keeps_DisconnectWithReset.
  - unfold _seMediaGenericModemGetStatus. repeat first [apply keeps_IsConnected | keeps_step].
Qed.

Lemma fresh_buffer :
  zlen (fill 0 GENERIC_MODEM_RESPONSE_BUFFER_SIZE) = GENERIC_MODEM_RESPONSE_BUFFER_SIZE ∧
  (fill 0 GENERIC_MODEM_RESPONSE_BUFFER_SIZE).[GENERIC_MODEM_RESPONSE_BUFFER_SIZE - 1] = Some 0.
Proof. split; vm_compute; reflexivity. Qed.

Lemma new_invariant s0 t s :
  port_ok (port s0) → New_SEMediaGenericModem s0 = Some (Some t, s) → gm_inv (live s0 + 2) s.
Proof.
  intros Hp.
  unfold New_SEMediaGenericModem, lpaCoreMemoryAlloc, mbind, ST_bind, mret, ST_ret, opt, modifies.
  change (sizeof_TSEMediaGenericModem >? 0) with true. change (sizeof_TSEMedia >? 0) with true.
  destruct (match oracle s0 with true :: _ => true | _ => false end); [by intros [= <-]|].
  cbn [oracle set_heap live]. generalize (tail (oracle s0)). intros o.
  destruct (match o with true :: _ => true | _ => false end); [done|]. intros [= <- <-].
  split; [split|]; cbn [responseBuffer set_responseBuffer _apduChannelString _apduChannel live
    set_context set_modemFD set_channel set_heap];
    [apply fresh_buffer|apply fresh_buffer|done|lia|done|done|lia].
Qed.

(** C29: Invariant of the modem driver (invariant): whatever the modem answers,
    whichever allocations fail and in whatever order the functions of the
    driver are called, the response buffer keeps its size and its final NUL,
    the logical channel stays in 0..19 and is the number its text denotes, a
    connected driver has a channel in 1..19, and the heap holds the two blocks
    of the driver and nothing else of it. *)
Theorem driver_invariant s0 s :
  port_ok (port s0) → reachable s0 s →
  gm_wf s ∧ live s = live s0 + 2 ∧
  (∀ s', _seMediaGenericModemIsConnected s = Some (true, s') → 1 <= _apduChannel s < 20).
Proof.
  intros Hp Hr. assert (gm_inv (live s0 + 2) s) as [Hwf Hl].
  { induction Hr as [t s Hnew|c s s' Hr IH Hc]; [by eapply new_invariant|].
    by eapply (keeps_perform _ c). }
  split; [done|]. split; [done|]. intros s' E. destruct Hwf as [_ _ _ Hch _ _].
  unfold _seMediaGenericModemIsConnected, mbind, ST_bind, gets, mret, ST_ret in E.
  injection E as E _. zprop. lia.
Qed.
End histories.

(** ** Transmission: the driver implements the interface of the media manager *)

(** C26: The modem driver transmits (refinement): a command APDU goes to the
    modem as the text of an AT+CSIM command, with the number of the logical
    channel in its class byte; when the modem answers with the bytes of a
    response in quotes behind +CSIM:, in any pieces, the driver answers the
    media manager with these bytes and their number, its heap is as before,
    and nothing else of its state changes but the buffer and the port. *)
Theorem transmit_refines {P} `{Port P} (s : gm_state P) cmd resp text room p' :
  Forall is_byte cmd → 4 <= zlen cmd < 262 → 2 <= room < 2^31 →
  Forall is_byte resp → 0 < zlen resp <= room → 0 <= _apduChannel s < 20 →
  zlen (responseBuffer s) = GENERIC_MODEM_RESPONSE_BUFFER_SIZE →
  exchange (_modemFD s) (at_command (hex_of (on_channel (_apduChannel s) cmd))) (port s) text p' →
  quoted text (hex_of resp) → allocations 3 s →
  ∃ b, c_str b = Some text ∧
    answers _seMediaGenericModemTransmitApdu s cmd room resp
      (set_responseBuffer b (set_port p' (set_heap (drop 3 (oracle s)) (live s) s))).
Proof.
  intros Hc Hcl Hroom Hr Hrl Hch Hb Hx Hq Hal. pose proof Hx as (p1 & _ & Hp).
  destruct (polls_text _ _ _ _ _ _ Hp ltac:(constructor)) as (Hnz & _ & _).
  destruct (transmit_ok s cmd resp text room p') as (k & _ & E); [done..|].
  eexists. split; [by apply c_str_app|]. exact E.
Qed.

(** What the driver reads as the number of the channel [n], whose two digits are
    hexadecimal. *)
Definition channel_read (n : Z) : Z := if n <? 10 then n else if n <? 16 then 0 else n - 6.

Lemma channel_digits n :
  1 <= n < 20 →
  c_str [hex_upper (n / 16); hex_upper (n mod 16); 0] = Some (fmt_02X n) ∧
  u8 (atoi (fmt_02X n)) = channel_read n.
Proof.
  intros Hn.
  assert (Forall (λ n, c_str [hex_upper (n / 16); hex_upper (n mod 16); 0] = Some (fmt_02X n) ∧
            u8 (atoi (fmt_02X n)) = channel_read n) (seqZ 1 19)) as H by (by repeat constructor).
  rewrite Forall_forall in H. apply H, elem_of_seqZ. lia.
Qed.

(** The opening of a logical channel (functional): when the card opens
    channel [n] of 1..19, the driver reads the two hexadecimal digits of its
    number in base ten: it records channels 1 to 9, refuses the channels 10 to
    15 that the card has opened, and takes 16 to 19 for 10 to 13. *)
Theorem open_channel {P} `{Port P} (s : gm_state P) n text p' :
  1 <= n < 20 → zlen (responseBuffer s) = GENERIC_MODEM_RESPONSE_BUFFER_SIZE →
  exchange (_modemFD s) (at_command GM_APDU_OPEN_SIM_CHANNEL) (port s) text p' →
  quoted text (hex_of [n; 0x90; 0]) → allocations 2 s →
  ∃ s', _seMediaGenericModemOpenUICCChannel s = Some (bool_decide (n < 10 ∨ 16 <= n), s') ∧
    _apduChannel s' = channel_read n ∧ port s' = p' ∧ live s' = live s.
Proof.
  intros Hn Hb Hx Hq Hal. pose proof Hx as (p1 & _ & Hp).
  destruct (polls_text _ _ _ _ _ _ Hp ltac:(constructor)) as (Hnz & Htl & Hok).
  destruct (channel_digits n Hn) as [Hd Ha].
  destruct (sendAPDU_ok s GM_APDU_OPEN_SIM_CHANNEL true text (hex_of [n; 0x90; 0]) p') as (k & Hk & E);
    [by repeat constructor|done|done|exact Hx|exact Hq|by apply (allocations_S 1)|].
  assert (checked true (hex_of [n; 0x90; 0]) = true) as Hchk.
  { assert (Forall (λ n, checked true (hex_of [n; 0x90; 0]) = true) (seqZ 1 19)) as H1 by (by repeat constructor).
    rewrite Forall_forall in H1. apply H1, elem_of_seqZ. lia. }
  rewrite Hchk in E. unfold _seMediaGenericModemOpenUICCChannel.
  rewrite (ST_bind_eq _ _ _ _ _ E). set (s1 := exchanged _ _ _ _).
  rewrite (ST_bind_eq _ _ _ _ _ (response_length_ok s1 text k eq_refl Hnz)).
  pose proof (quoted_length _ _ Hq) as Hql. pose proof (zlen_nonneg (hex_of [n; 0x90; 0])).
  assert (allocations 1 s1) as Hal1.
  { revert Hal. unfold allocations. cbn. destruct (oracle s) as [|b o]; [done|]. cbn. rewrite drop_0.
    by intros [_ ?]%Forall_cons. }
  unfold with_block. rewrite (ST_bind_eq _ _ _ _ _ (alloc_succeeds (zlen text) s1 Hal1 ltac:(lia))).
  unfold mbind at 1, ST_bind at 1. st_step.
  erewrite ST_bind_eq; [|unfold opt; cbn [responseBuffer set_heap set_responseBuffer s1 exchanged];
    rewrite (extract_ok text _ k Hq Hnz Htl); reflexivity].
  cbn beta iota. st_step. rewrite hex_of_cons. cbn [app fmt_02X]. st_step. st_step.
  erewrite ST_bind_eq; [|unfold opt; rewrite Hd; reflexivity]. rewrite Ha.
  assert ((channel_read n >? 0) && (channel_read n <? 20) = bool_decide (n < 10 ∨ 16 <= n) ∧
          (bool_decide (n < 10 ∨ 16 <= n) = false → channel_read n = 0)) as [-> Hz].
  { unfold channel_read. clear -Hn. destruct (n <? 10) eqn:E1; [|destruct (n <? 16) eqn:E2]; zprop.
    - rewrite bool_decide_true by lia. split; [lia|done].
    - rewrite bool_decide_false by lia. by split.
    - rewrite bool_decide_true by lia. split; [lia|done]. }
  destruct (bool_decide _) eqn:Eb; eexists; (split; [reflexivity|]); cbn.
  - split_and!; [done|done|lia].
  - split_and!; [by rewrite Hz|done|lia].
Qed.


(** ** A scripted modem, for examples

    It takes every command, and each read yields the next of its texts when
    there is room for it. *)
Section script.
Definition script := list (list Z).

Definition script_read (fd : Z) (dst : list Z) (n : Z) : ST script (Z * list Z) := λ s,
  match s with
  | t :: s' => Some (if zlen t <? zlen dst then (zlen t, t ++ drop (length t) dst) else (0, dst), s')
  | [] => Some ((0, dst), [])
  end.

#[local] Instance script_port : Port script := {
  pciot_lpa_open := λ _, mret 1;
  pciot_lpa_close := λ _, mret 0;
  pciot_lpa_read := script_read;
  pciot_lpa_write := λ _ _ n, mret n
}.

#[local] Instance script_sound : SoundPort script.
Proof.
  refine {| port_ok := λ _, True |}; try by intros; apply keeps_ret.
  intros fd dst p count dst' p' _. cbn. unfold script_read.
  pose proof (zlen_nonneg dst). destruct p as [|t p]; [intros [= <- <- <-]; split_and!; (done || lia)|].
  intros [= E <-]. destruct (zlen t <? zlen dst) eqn:Hl; injection E as <- <-; zprop;
    [|split_and!; (done || lia)].
  zlen_pos. split; [done|]. split; [rewrite zlen_app, zlen_drop; unfold zlen in *; lia|].
  split; [lia|]. intros _ Hlast. rewrite rd_app_r by lia. rewrite <-Hlast.
  rewrite <-(take_drop (length t) dst) at 3. rewrite rd_app_r.
  - f_equal. rewrite zlen_take. unfold zlen in *. lia.
  - rewrite zlen_take. unfold zlen in *. lia.
Defined.

Lemma script_reads fd room t (p : script) : zlen t < room → reads fd room t (t :: p) p.
Proof.
  intros Hl dst <-. exists (drop (length t) dst). cbn. unfold script_read.
  ztrue (zlen t <? zlen dst). split; [done|].
  rewrite zlen_app, zlen_drop. unfold zlen in *. lia.
Qed.

(** A driver before its construction, connected to the modem [p]. *)
Definition off (p : script) : gm_state script :=
  Gm false 0 0 [0; 0; 0] (fill 0 GENERIC_MODEM_RESPONSE_BUFFER_SIZE) false [] (replicate 20 false) 0 p.

(** [+CSIM: n,"t"] and OK. *)
Definition csim_line (t : list Z) : list Z :=
  GM_AT_COMMAND_RESPONSE_PREFIX ++ [blank; 52; comma; quote] ++ t ++ [quote; 13; 10]
  ++ GM_AT_COMMAND_RESPONSE_OK.

Definition connected (p : script) : gm_state script := set_channel 1 [48; 49; 0] (set_modemFD 1 (off p)).

(** The answers to the opening of channel 1, to a command in two pieces, and to
    the closing. *)
Definition session : script :=
  [csim_line (chars "019000"%string);
   chars "+CSIM: 8,"%string ++ [quote] ++ chars "0102"%string; [];
   chars "9000"%string ++ [quote; 13; 10] ++ chars "OK"%string;
   csim_line (chars "9000"%string)].

Definition select : list Z := [0; 0xA4; 4; 0; 2; 0xA0; 0].

Lemma driver_invariant_witness :
  match run [EstablishContext; Connect []; TransmitApdu select (fill 0 300) 300; Disconnect;
             TransmitApdu select (fill 0 300) 300; ReleaseContext] (off session) with
  | Some s => gm_wf s ∧ live s = 2 ∧
      (∀ s', _seMediaGenericModemIsConnected s = Some (true, s') → 1 <= _apduChannel s < 20)
  | None => False
  end.
Proof.
  destruct (run _ _) as [s|] eqn:E.
  - apply (driver_invariant (off session) s); [done|exact (run_reachable _ _ _ E)].
  - revert E. vm_compute. discriminate.
Defined.

Lemma answer_collected_witness :
  ∃ b, c_str b = Some (chars "+CSIM: OK"%string) ∧
    _seMediaGenericModemGetATcommandResponseData (connected [chars "+CS"%string; []; chars "IM: OK"%string])
    = Some (true, set_responseBuffer b (connected [])).
Proof.
  apply (proj1 (answer_collected (connected [chars "+CS"%string; []; chars "IM: OK"%string])
    [chars "+CS"%string; []] (chars "IM: OK"%string) [] (proj1 fresh_buffer))).
  - do 2 (eexists; split; [by apply script_reads|]). eexists; split; [by apply script_reads|done].
  - cbn. lia.
  - by repeat constructor.
  - done.
  - done.
  - by intros [|[|[|k]]].
  - done.
Defined.

(** The opening of channel 16 is taken for the opening of channel 10. *)
Lemma open_channel_witness :
  let text := GM_AT_COMMAND_RESPONSE_PREFIX ++ [blank; 54; comma; quote] ++ chars "109000"%string
              ++ [quote; 13; 10] ++ GM_AT_COMMAND_RESPONSE_OK in
  ∃ s', _seMediaGenericModemOpenUICCChannel (connected [text]) = Some (true, s') ∧
    _apduChannel s' = 10 ∧ port s' = [] ∧ live s' = 0.
Proof.
  intros text. apply (open_channel (connected [text]) 16 text []).
  - done.
  - apply (proj1 fresh_buffer).
  - exists [text]. split; [done|].
    apply (polls_done 1 199 [] text _ []); [|done|by repeat constructor|done|done].
    by apply script_reads.
  - exists [blank; 54; comma], [13; 10; 79; 75]. split; [by vm_compute|].
    by split; apply (bool_decide_unpack _).
  - by repeat constructor.
Defined.

Lemma transmit_refines_witness :
  ∃ b, c_str b = Some (csim_line (chars "01029000"%string)) ∧
    answers _seMediaGenericModemTransmitApdu (connected [csim_line (chars "01029000"%string)]) select 256
      [1; 2; 0x90; 0]
      (set_responseBuffer b (set_heap (replicate 17 false) 0 (connected []))).
Proof.
  apply (transmit_refines (connected [csim_line (chars "01029000"%string)]) select [1; 2; 0x90; 0]
    (csim_line (chars "01029000"%string)) 256 []).
  - by repeat constructor.
  - done.
  - done.
  - by repeat constructor.
  - done.
  - done.
  - apply (proj1 fresh_buffer).
  - exists [csim_line (chars "01029000"%string)]. split; [done|].
    apply (polls_done 1 199 [] (csim_line (chars "01029000"%string)) _ []); [|done|by repeat constructor|done|done].
    by apply script_reads.
  - exists [blank; 52; comma], [13; 10; 79; 75]. split; [by vm_compute|].
    by split; apply (bool_decide_unpack _).
  - by repeat constructor.
Defined.
End script.
