(* ===== verification/Adaptor.v ===== *)
(** * The platform adaptor of the modem driver

    [platform_adaptor/plat_lpa_adaptor_fm350.cpp] and
    [platform_adaptor/plat_lpa_adaptor_qc151.cpp]: the port of Modem.v over the
    AT-over-MBIM service of the modem. On the MTK and QC platforms the adaptor
    emulates the opening and closing of the logical channel and translates
    AT+CSIM commands into AT+CGLA commands and their answers back.

    The MBIM device itself is a parameter ([AfalMbimAtOverMbimSetSync]).
    Strings of the standard library of C++ are strings of C here; the exception
    thrown for a substring of negative length is, like undefined behaviour, the
    outcome [None]. *)

From Stdlib Require String Ascii.
From S2P Require Import Prelude CLib Util SeMedia Modem.
Import Stdlib.Strings.String.StringSyntax.
#[local] Delimit Scope string_scope with string.

Definition BUFSIZE_MAX : Z := 16 * 1024.
Definition AT_EXT_LENGTH : Z := 10.
Definition PLAT_TYPE_MTK : Z := 0.
Definition PLAT_TYPE_QC_151 : Z := 1.
Definition PLAT_TYPE_QC_135R : Z := 2.

(** String literals of the sources, where a single quote stands for the double
    quote. *)
Definition lit (s : String.string) : list Z := map (λ c, if c =? 39 then 34 else c) (chars s).

Definition AT_CSIM_OPEN1 : list Z := lit "AT+CSIM=10,'0070000001'"%string ++ [13].
Definition AT_CSIM_OPEN1_RETUEN : list Z := lit "+CSIM: 6,'019000'"%string ++ [13] ++ lit "OK"%string.
Definition AT_CSIM_OPEN2 : list Z :=
  lit "AT+CSIM=44,'01A4040010A0000005591010FFFFFFFF890000010000'"%string ++ [13].
Definition AT_CSIM_OPEN2_RETUEN : list Z :=
  lit "+CSIM: 240,'6F748410A0000005591010FFFFFFFF8900000100A559734A06072A864886FC6B01600B06092A864886FC6B020202630906072A864886FC6B03650D060B2A864886FC6B05040200006618060A2B060104012A026E0103060A535433334A324D3002009F6E060077112701269F6501FFE00582030202029000'"%string
  ++ [13] ++ lit "OK"%string.
Definition AT_CSIM_OPEN2_ERROR_RETUEN : list Z := [13; 10] ++ lit "ERROR"%string ++ [13; 10; 13; 10].
Definition AT_CSIM_CLOSE : list Z := lit "AT+CSIM=10,'0070800100'"%string ++ [13].
Definition AT_CSIM_CLOSE_RETUEN : list Z := lit "+CSIM: 4,'9000'"%string ++ [13] ++ lit "OK"%string.
Definition AT_CSIM_HEAD : list Z := lit "AT+CSIM="%string.
Definition AT_CSIM_RETUEN_HEAD : list Z := lit "+CSIM:"%string.
Definition AT_CHHO : list Z := lit "AT+CCHO='A0000005591010FFFFFFFF8900000100'"%string ++ [13].
Definition AT_CCHO_RETUEN_HEAD : list Z := lit "+CCHO:"%string.
Definition AT_CCHC : list Z := lit "AT+CCHC="%string.
Definition AT_CGLA_HEAD : list Z := lit "AT+CGLA="%string.
Definition AT_CGLA_RETUEN_HEAD : list Z := lit "+CGLA:"%string.

Inductive LPA_CMD_STATUS_enum := LPA_CMD_NORMAL | LPA_CMD_OPEN | LPA_CMD_CLOSE.

Section adaptor.
Context {M : Type}.

(** The AT-over-MBIM service: its status, 0 for a success, and its answer. *)
Context (AfalMbimAtOverMbimSetSync : list Z → M → (Z * list Z) * M).

(** The static variables of both files, the answers of [malloc] to come
    ([true]: it fails), and the modem. *)
Record adaptor := Adaptor {
  LpaGetChipPlatType : Z;
  read_mipc_buf : list Z;
  lpa_mipc_fd : Z;
  lpa_cgla_port : Z;
  lpa_cmd_status : LPA_CMD_STATUS_enum;
  qc151_lpa_cgla_port : Z;
  qc151_lpa_cmd_status : LPA_CMD_STATUS_enum;
  mallocs : list bool;
  modem : M
}.

Definition set_read_mipc_buf (b : list Z) (s : adaptor) : adaptor :=
  Adaptor (LpaGetChipPlatType s) b (lpa_mipc_fd s) (lpa_cgla_port s) (lpa_cmd_status s)
    (qc151_lpa_cgla_port s) (qc151_lpa_cmd_status s) (mallocs s) (modem s).
Definition set_mipc_fd (fd : Z) (s : adaptor) : adaptor :=
  Adaptor (LpaGetChipPlatType s) (read_mipc_buf s) fd (lpa_cgla_port s) (lpa_cmd_status s)
    (qc151_lpa_cgla_port s) (qc151_lpa_cmd_status s) (mallocs s) (modem s).
Definition set_cgla_port (n : Z) (s : adaptor) : adaptor :=
  Adaptor (LpaGetChipPlatType s) (read_mipc_buf s) (lpa_mipc_fd s) n (lpa_cmd_status s)
    (qc151_lpa_cgla_port s) (qc151_lpa_cmd_status s) (mallocs s) (modem s).
Definition set_cmd_status (st : LPA_CMD_STATUS_enum) (s : adaptor) : adaptor :=
  Adaptor (LpaGetChipPlatType s) (read_mipc_buf s) (lpa_mipc_fd s) (lpa_cgla_port s) st
    (qc151_lpa_cgla_port s) (qc151_lpa_cmd_status s) (mallocs s) (modem s).
Definition set_qc151_port (n : Z) (s : adaptor) : adaptor :=
  Adaptor (LpaGetChipPlatType s) (read_mipc_buf s) (lpa_mipc_fd s) (lpa_cgla_port s)
    (lpa_cmd_status s) n (qc151_lpa_cmd_status s) (mallocs s) (modem s).
Definition set_qc151_status (st : LPA_CMD_STATUS_enum) (s : adaptor) : adaptor :=
  Adaptor (LpaGetChipPlatType s) (read_mipc_buf s) (lpa_mipc_fd s) (lpa_cgla_port s)
    (lpa_cmd_status s) (qc151_lpa_cgla_port s) st (mallocs s) (modem s).
Definition set_mallocs (l : list bool) (s : adaptor) : adaptor :=
  Adaptor (LpaGetChipPlatType s) (read_mipc_buf s) (lpa_mipc_fd s) (lpa_cgla_port s)
    (lpa_cmd_status s) (qc151_lpa_cgla_port s) (qc151_lpa_cmd_status s) l (modem s).
Definition set_modem (m : M) (s : adaptor) : adaptor :=
  Adaptor (LpaGetChipPlatType s) (read_mipc_buf s) (lpa_mipc_fd s) (lpa_cgla_port s)
    (lpa_cmd_status s) (qc151_lpa_cgla_port s) (qc151_lpa_cmd_status s) (mallocs s) m.

Abbreviation A := (ST adaptor).

(** [malloc(n)] followed by [memset(p, 0, n)]; the blocks are freed on every
    path. *)
Definition malloc_cleared (n : Z) : A (option (list Z)) := λ s,
  let fail := match mallocs s with true :: _ => true | _ => false end in
  Some (if fail then None else Some (fill 0 n), set_mallocs (tail (mallocs s)) s).

(** ** lpa.cpp: one exchange *)

(** Result and output buffer, of [OutputStrSize] cells; the arguments are not
    [NULL]. *)
Definition SendAtOverMbimMessage (inputStr OutputStr : list Z) (OutputStrSize : Z)
  : A (Z * list Z) :=
  if (zlen inputStr <? 1) || (OutputStrSize <? 1) then mret (-1, OutputStr)
  else
    b0 ← opt (wr_range OutputStr 0 (fill 0 OutputStrSize));
    b1 ← opt (wr_range b0 0 (snprintf (OutputStrSize - 1) (lit "'6F00'"%string) ++ [0]));
    s ← gets modem;
    let '((status, OutputData), m) := AfalMbimAtOverMbimSetSync inputStr s in
    modifies (set_modem m);;
    if negb (status =? 0) then mret (-1, b1)
    else
      b2 ← opt (wr_range b1 0 (fill 0 OutputStrSize));
      b3 ← opt (wr_range b2 0 (snprintf (OutputStrSize - 1) OutputData ++ [0]));
      mret (0, b3).

(** ** The port *)

Definition open_ (pathname : list Z) : A Z :=
  fd ← gets lpa_mipc_fd;
  if fd >? 0 then mret (-1) else modifies (set_mipc_fd 1);; mret 1.

Definition close_ (fd : Z) : A Z := modifies (set_mipc_fd 0);; mret 0.

(** The copy has the size of the source buffer, whatever [count]. *)
Definition read_ (fd : Z) (buf : list Z) (count : Z) : A (Z * list Z) :=
  b ← gets read_mipc_buf;
  s ← opt (c_str b);
  buf' ← opt (strncpy buf s BUFSIZE_MAX);
  modifies (set_read_mipc_buf (fill 0 (BUFSIZE_MAX + 1)));;
  mret (zlen s, buf').

(** [buf] is the string of the command. *)
Definition pciot_lpa_write_default (fd : Z) (buf : list Z) (count : Z) : A Z :=
  b ← gets read_mipc_buf;
  '(ret, b') ← SendAtOverMbimMessage buf b (zlen b);
  modifies (set_read_mipc_buf b');;
  mret (if ret <? 0 then 0 else count).

(** A [char]: the low byte. *)
Definition char (z : Z) : Z := u8 z.

Definition pciot_lpa_csimtocgla (cgla_cmd csim_cmd : list Z) : A (list Z) :=
  if streqb csim_cmd AT_CSIM_OPEN2 then
    b ← opt (strncpy cgla_cmd AT_CHHO (zlen AT_CHHO));
    modifies (set_cmd_status LPA_CMD_OPEN);; mret b
  else if streqb csim_cmd AT_CSIM_CLOSE then
    port ← gets lpa_cgla_port;
    b ← opt (strncpy cgla_cmd AT_CCHC (zlen AT_CCHC));
    loc ← opt (strlen b);
    b1 ← opt b.[loc := char port];
    b2 ← opt b1.[loc + 1 := 13];
    modifies (set_cmd_status LPA_CMD_CLOSE);; mret b2
  else
    port ← gets lpa_cgla_port;
    b ← opt (strncat cgla_cmd AT_CGLA_HEAD (zlen AT_CGLA_HEAD));
    rest ← opt (rd_range csim_cmd (zlen AT_CSIM_HEAD) (zlen csim_cmd - zlen AT_CSIM_HEAD));
    loc ← opt (strlen b);
    b1 ← opt b.[loc := char port];
    b2 ← opt b1.[loc + 1 := comma];
    b3 ← opt (strncat b2 rest (zlen csim_cmd - zlen AT_CSIM_HEAD));
    modifies (set_cmd_status LPA_CMD_NORMAL);; mret b3.

(** [while ( *tmp > '9' || *tmp < '0') tmp++;], in a string. *)
Fixpoint skip_nondigits (s : list Z) : list Z :=
  match s with c :: s' => if isdigit c then s else skip_nondigits s' | [] => [] end.

(** The characters before the first carriage return: [None] without one. *)
Definition up_to_cr (s : list Z) : option (list Z) :=
  match strstr s [13] with
  | Some r => Some (take (length s - length r) s)
  | None => None
  end.

(** What follows the last occurrence of [head], when there is one. *)
Fixpoint after_last (fuel : nat) (head s : list Z) : option (list Z) :=
  match strstr s head with
  | None => None
  | Some r =>
      let k := drop (length head) r in
      match fuel with
      | O => Some k
      | S fuel => match after_last fuel head k with Some k' => Some k' | None => Some k end
      end
  end.

(** [strcat(csim_cmd, "+CSIM:")] and the end of the answer. *)
Definition csim_answer (csim_cmd cgla_cmd : list Z) : option (list Z) :=
  b ← strncat csim_cmd AT_CSIM_RETUEN_HEAD (zlen AT_CSIM_RETUEN_HEAD);
  match after_last (length cgla_cmd) AT_CGLA_RETUEN_HEAD cgla_cmd with
  | Some rest => strncat b rest (zlen rest)
  | None => Some b
  end.

(** [csim_cmd] is a buffer, [cgla_cmd] the string of the answer. *)
Definition pciot_lpa_cglatocsim (csim_cmd cgla_cmd : list Z) : A (list Z) :=
  st ← gets lpa_cmd_status;
  match st with
  | LPA_CMD_OPEN =>
      if negb (contains cgla_cmd (lit "OK"%string)) then
        b ← opt (strncpy csim_cmd AT_CSIM_OPEN2_ERROR_RETUEN (zlen AT_CSIM_OPEN2_ERROR_RETUEN));
        modifies (set_cmd_status LPA_CMD_NORMAL);; mret b
      else
        portStr ←
          opt (match strstr cgla_cmd AT_CHHO with
               | Some tmp =>
                   match skip_nondigits (drop (length AT_CHHO) tmp) with
                   | [] => None
                   | tmp' => up_to_cr tmp'
                   end
               | None => up_to_cr cgla_cmd
               end);
        modifies (set_cgla_port (atoi portStr + 48));;
        b ← opt (strncpy csim_cmd AT_CSIM_OPEN2_RETUEN (zlen AT_CSIM_OPEN2_RETUEN));
        modifies (set_cmd_status LPA_CMD_NORMAL);; mret b
  | LPA_CMD_CLOSE =>
      b ← opt (strncpy csim_cmd AT_CSIM_CLOSE_RETUEN (zlen AT_CSIM_CLOSE_RETUEN));
      modifies (set_cmd_status LPA_CMD_NORMAL);; modifies (set_cgla_port 0);; mret b
  | LPA_CMD_NORMAL => opt (csim_answer csim_cmd cgla_cmd)
  end.

(** ** The QC platforms *)

(** The bits of the logical channel are cleared in a class byte "0x". *)
Definition strip_channel (b : list Z) : option (list Z) :=
  s ← c_str b;
  match strstr s [quote] with
  | None => Some b
  | Some r =>
      let apdu_ptr := zlen s - zlen r in
      c1 ← b.[apdu_ptr + 1];
      if c1 =? 0 then Some b
      else
        c2 ← b.[apdu_ptr + 2];
        if (c2 =? 0) || negb (c1 =? 48) then Some b
        else
          let lo_val := if isdigit c2 then c2 - 48
                        else if (65 <=? c2) && (c2 <=? 70) then c2 - 65 + 10
                        else if (97 <=? c2) && (c2 <=? 102) then c2 - 97 + 10 else -1 in
          if lo_val >=? 0 then
            let lo_val := Z.land lo_val 0x0C in
            b1 ← b.[apdu_ptr + 1 := 48];
            b1.[apdu_ptr + 2 := if lo_val <? 10 then 48 + lo_val else 65 + lo_val - 10]
          else Some b
  end.

Definition qc151_csimtocgla (cgla_cmd csim_cmd : list Z) : A (list Z) :=
  if streqb csim_cmd AT_CSIM_OPEN2 then
    b ← opt (strncpy cgla_cmd AT_CHHO (zlen AT_CHHO));
    modifies (set_qc151_status LPA_CMD_OPEN);; mret b
  else if streqb csim_cmd AT_CSIM_CLOSE then
    port ← gets qc151_lpa_cgla_port;
    b ← opt (strncpy cgla_cmd AT_CCHC (zlen AT_CCHC));
    loc ← opt (strlen b);
    b1 ← opt (wr_range b loc (fmt_d port ++ [0]));
    b2 ← opt b1.[loc + zlen (fmt_d port) := 13];
    modifies (set_qc151_status LPA_CMD_CLOSE);; mret b2
  else
    port ← gets qc151_lpa_cgla_port;
    b ← opt (strncat cgla_cmd AT_CGLA_HEAD (zlen AT_CGLA_HEAD));
    rest ← opt (rd_range csim_cmd (zlen AT_CSIM_HEAD) (zlen csim_cmd - zlen AT_CSIM_HEAD));
    loc ← opt (strlen b);
    b1 ← opt (wr_range b loc (fmt_d port ++ [comma; 0]));
    b2 ← opt (strncat b1 rest (zlen csim_cmd - zlen AT_CSIM_HEAD));
    modifies (set_qc151_status LPA_CMD_NORMAL);;
    opt (strip_channel b2).

(** The number of the channel in the answer to AT+CCHO, or -1. *)
Definition parsed_port (cgla_cmd : list Z) : Z :=
  let p := match strstr cgla_cmd AT_CCHO_RETUEN_HEAD with
           | Some r => Some (drop (length AT_CCHO_RETUEN_HEAD) r)
           | None => drop (length AT_CHHO) <$> strstr cgla_cmd AT_CHHO
           end in
  match p with
  | Some p => match skip_nondigits p with [] => -1 | q => atoi q end
  | None => -1
  end.

Definition qc151_cglatocsim (csim_cmd cgla_cmd : list Z) : A (list Z) :=
  st ← gets qc151_lpa_cmd_status;
  match st with
  | LPA_CMD_OPEN =>
      if negb (contains cgla_cmd (lit "OK"%string)) || (parsed_port cgla_cmd <? 0) then
        b ← opt (strncpy csim_cmd AT_CSIM_OPEN2_ERROR_RETUEN (zlen AT_CSIM_OPEN2_ERROR_RETUEN));
        modifies (set_qc151_status LPA_CMD_NORMAL);; mret b
      else
        modifies (set_qc151_port (parsed_port cgla_cmd));;
        b ← opt (strncpy csim_cmd AT_CSIM_OPEN2_RETUEN (zlen AT_CSIM_OPEN2_RETUEN));
        modifies (set_qc151_status LPA_CMD_NORMAL);; mret b
  | LPA_CMD_CLOSE =>
      b ← opt (strncpy csim_cmd AT_CSIM_CLOSE_RETUEN (zlen AT_CSIM_CLOSE_RETUEN));
      modifies (set_qc151_status LPA_CMD_NORMAL);; modifies (set_qc151_port 0);; mret b
  | LPA_CMD_NORMAL => opt (csim_answer csim_cmd cgla_cmd)
  end.

(** The body that the writes of both files share, from the translation of the
    command on. *)
Definition write_cgla (csimtocgla cglatocsim : list Z → list Z → A (list Z))
    (buf : list Z) (count : Z) : A Z :=
  cmd ← malloc_cleared (count + AT_EXT_LENGTH);
  match cmd with
  | None => mret 0
  | Some t_cgla_cmd =>
      rsp ← malloc_cleared (BUFSIZE_MAX + 1);
      match rsp with
      | None => mret 0
      | Some t_cgla_rsp =>
          cmd ← csimtocgla t_cgla_cmd buf;
          cmd ← opt (c_str cmd);
          '(ret, rsp) ← SendAtOverMbimMessage cmd t_cgla_rsp (BUFSIZE_MAX + 1);
          if ret <? 0 then mret 0
          else
            csim ← malloc_cleared (BUFSIZE_MAX + 1);
            match csim with
            | None => mret 0
            | Some t_csim_rsp =>
                rsp ← opt (c_str rsp);
                csim ← cglatocsim t_csim_rsp rsp;
                csim ← opt (c_str csim);
                b ← gets read_mipc_buf;
                b1 ← opt (strncpy (fill 0 (zlen b)) csim (zlen csim));
                modifies (set_read_mipc_buf b1);;
                mret count
            end
      end
  end.

(** The first command is answered without the modem; the copy of the answer
    has no NUL. *)
Definition write_emulated (csimtocgla cglatocsim : list Z → list Z → A (list Z))
    (buf : list Z) (count : Z) : A Z :=
  if streqb buf AT_CSIM_OPEN1 then
    b ← gets read_mipc_buf;
    b1 ← opt (strncpy b AT_CSIM_OPEN1_RETUEN (zlen AT_CSIM_OPEN1_RETUEN));
    modifies (set_read_mipc_buf b1);; mret count
  else write_cgla csimtocgla cglatocsim buf count.

Definition pciot_lpa_write_mtk (fd : Z) (buf : list Z) (count : Z) : A Z :=
  write_emulated pciot_lpa_csimtocgla pciot_lpa_cglatocsim buf count.

Definition pciot_lpa_write_qc151 (fd : Z) (buf : list Z) (count : Z) : A Z :=
  write_emulated qc151_csimtocgla qc151_cglatocsim buf count.

Definition write_ (fd : Z) (buf : list Z) (count : Z) : A Z :=
  s ← opt (c_str buf);
  platType ← gets LpaGetChipPlatType;
  if platType =? PLAT_TYPE_MTK then pciot_lpa_write_mtk fd s count
  else if platType =? PLAT_TYPE_QC_151 then pciot_lpa_write_qc151 fd s count
  else if platType =? PLAT_TYPE_QC_135R then pciot_lpa_write_qc151 fd s count
  else pciot_lpa_write_default fd s count.

#[export] Instance adaptor_port : Port adaptor := {
  pciot_lpa_open := open_;
  pciot_lpa_close := close_;
  pciot_lpa_read := read_;
  pciot_lpa_write := write_
}.
End adaptor.
Arguments adaptor : clear implicits.

(** ** The adaptor is a sound port *)

Section sound.
Context {M : Type} (mbim : list Z → M → (Z * list Z) * M).
Implicit Types (s p : adaptor M).

(** The buffer of the last answer has its size. *)
Definition adaptor_ok s : Prop := zlen (read_mipc_buf s) = BUFSIZE_MAX + 1.

Lemma keeps_field (f : adaptor M → adaptor M) :
  (∀ s, read_mipc_buf (f s) = read_mipc_buf s) → keeps adaptor_ok (modifies f).
Proof. intros Hf. apply keeps_modifies. intros s. unfold adaptor_ok. by rewrite Hf. Qed.

Lemma keeps_malloc n : keeps adaptor_ok (malloc_cleared (M := M) n).
Proof. by intros s o s' Hs [= <- <-]. Qed.

(** An exchange keeps the size of the buffer it fills. *)
Lemma hoare_Send input out size :
  hoare adaptor_ok (SendAtOverMbimMessage mbim input out size)
    (λ r s, adaptor_ok s ∧ zlen r.2 = zlen out).
Proof.
  unfold SendAtOverMbimMessage. apply hoare_if; [by apply hoare_ret|].
  apply hoare_opt_bind. intros b0 E0. apply hoare_opt_bind. intros b1 E1.
  apply wr_range_zlen in E0, E1.
  apply hoare_gets_bind. intros m. destruct (mbim input m) as [[status data] m'].
  eapply (hoare_bind _ _ (λ _, adaptor_ok)); [apply hoare_modifies; by intros s [Hs _]|]. intros [].
  apply hoare_if; [apply hoare_ret; intros s Hs; split; [done|cbn; congruence]|].
  apply hoare_opt_bind. intros b2 E2. apply hoare_opt_bind. intros b3 E3.
  apply wr_range_zlen in E2, E3. apply hoare_ret. intros s Hs. split; [done|cbn; congruence].
Qed.

#[local] Hint Resolve keeps_malloc : keeps.

Ltac keeps_fields := repeat first [apply keeps_field; intros [];  reflexivity | keeps_step].

Lemma keeps_csimtocgla b c : keeps adaptor_ok (pciot_lpa_csimtocgla (M := M) b c).
Proof. unfold pciot_lpa_csimtocgla. keeps_fields. Qed.
Lemma keeps_qc151_csimtocgla b c : keeps adaptor_ok (qc151_csimtocgla (M := M) b c).
Proof. unfold qc151_csimtocgla. keeps_fields. Qed.
Lemma keeps_cglatocsim b c : keeps adaptor_ok (pciot_lpa_cglatocsim (M := M) b c).
Proof.
  unfold pciot_lpa_cglatocsim. apply keeps_bind; [apply keeps_gets|]. intros []; keeps_fields.
Qed.
Lemma keeps_qc151_cglatocsim b c : keeps adaptor_ok (qc151_cglatocsim (M := M) b c).
Proof.
  unfold qc151_cglatocsim. apply keeps_bind; [apply keeps_gets|]. intros []; keeps_fields.
Qed.

Lemma keeps_Send input out size :
  keeps adaptor_ok (SendAtOverMbimMessage mbim input out size).
Proof. eapply hoare_weaken; [apply hoare_Send|done|by intros r s [Hs _]]. Qed.
#[local] Hint Resolve keeps_Send : keeps.

Lemma keeps_read_buf (b : list Z) :
  zlen b = BUFSIZE_MAX + 1 → keeps adaptor_ok (modifies (set_read_mipc_buf (M := M) b)).
Proof. intros Hb. by apply keeps_modifies. Qed.

Lemma keeps_buffer {A} (k : list Z → ST (adaptor M) A) :
  (∀ b, zlen b = BUFSIZE_MAX + 1 → keeps adaptor_ok (k b)) →
  keeps adaptor_ok (b ← gets read_mipc_buf; k b).
Proof. by apply keeps_gets_bind. Qed.

Lemma keeps_write_emulated f g buf count :
  (∀ b c, keeps adaptor_ok (f b c)) → (∀ b c, keeps adaptor_ok (g b c)) →
  keeps adaptor_ok (write_emulated (M := M) mbim f g buf count).
Proof.
  intros Hf Hg. unfold write_emulated, write_cgla. apply keeps_if.
  - apply keeps_buffer. intros b Hb.
    apply keeps_opt_bind. intros b1 E. apply strncpy_zlen in E.
    apply keeps_bind; [apply keeps_read_buf; congruence|intros; apply keeps_ret].
  - repeat lazymatch goal with
           | |- keeps _ (gets read_mipc_buf ≫= _) => fail
           | |- _ => keeps_step
           end.
    apply keeps_buffer. intros b Hb.
    apply keeps_opt_bind. intros b1 E. apply strncpy_zlen in E.
    apply keeps_bind; [apply keeps_read_buf|intros; apply keeps_ret].
    rewrite E, Hb. unfold fill. rewrite zlen_replicate. unfold BUFSIZE_MAX. lia.
Qed.

Lemma keeps_write fd b n : keeps adaptor_ok (write_ (M := M) mbim fd b n).
Proof.
  unfold write_. do 2 (apply keeps_bind; [auto with keeps|]; intros ?).
  apply keeps_if; [|apply keeps_if; [|apply keeps_if]].
  - apply keeps_write_emulated; [apply keeps_csimtocgla|apply keeps_cglatocsim].
  - apply keeps_write_emulated; [apply keeps_qc151_csimtocgla|apply keeps_qc151_cglatocsim].
  - apply keeps_write_emulated; [apply keeps_qc151_csimtocgla|apply keeps_qc151_cglatocsim].
  - unfold pciot_lpa_write_default.
    apply keeps_gets_bind with (φ := λ b, zlen b = BUFSIZE_MAX + 1); [done|]. intros b' Hb.
    eapply hoare_bind; [apply hoare_Send|]. intros [ret out].
    eapply (hoare_bind _ _ (λ _, adaptor_ok)); [|intros []; apply keeps_ret].
    apply hoare_modifies. intros s [Hs Ho]. unfold adaptor_ok. cbn in *. congruence.
Qed.

#[export] Instance adaptor_sound : @SoundPort (adaptor M) (adaptor_port mbim).
Proof.
  refine (@Build_SoundPort _ (adaptor_port mbim) adaptor_ok _ _ _ _).
  - intros name. cbn. unfold open_. keeps_fields.
  - intros fd. cbn. unfold close_. keeps_fields.
  - intros fd b n. apply keeps_write.
  - intros fd dst p count dst' p' Hp. cbn. unfold read_, mbind, ST_bind, gets, opt, modifies, mret, ST_ret.
    destruct (c_str (read_mipc_buf p)) as [t|] eqn:Et; [|done].
    destruct (strncpy dst t BUFSIZE_MAX) as [b'|] eqn:Eb; [|done]. intros [= <- <- <-].
    apply c_str_length in Et. unfold adaptor_ok in *.
    destruct (strncpy_last dst t BUFSIZE_MAX b' ltac:(done) ltac:(lia) Eb) as (Hl & Hroom & Hlast).
    zlen_pos. split; [|split; [done|split; [lia|done]]]. cbn [read_mipc_buf set_read_mipc_buf].
    unfold fill. rewrite zlen_replicate. unfold BUFSIZE_MAX. lia.
Defined.
End sound.

(** ** Exchanges through the adaptor *)

Section exchanges.
Context {M : Type} (mbim : list Z → M → (Z * list Z) * M).
Implicit Types (s p : adaptor M).
#[local] Existing Instance adaptor_port.

Abbreviation exchange := (@exchange (adaptor M) (adaptor_port mbim)).
Abbreviation reads := (@reads (adaptor M) (adaptor_port mbim)).

(** An answer of the modem is at hand. *)
Definition answered text s : Prop :=
  ∃ k, read_mipc_buf s = text ++ 0 :: k ∧ adaptor_ok s.

Definition emptied s : adaptor M := set_read_mipc_buf (fill 0 (BUFSIZE_MAX + 1)) s.

(** The first read after an answer yields it, and empties the buffer. *)
Lemma read_once s fd text k :
  read_mipc_buf s = text ++ 0 :: k → adaptor_ok s → Forall (λ c, c ≠ 0) text →
  zlen text <= BUFSIZE_MAX → reads fd (BUFSIZE_MAX + 1) text s (emptied s).
Proof.
  intros Eb _ Hnz Hl dst Hd.
  exists (replicate (Z.to_nat (BUFSIZE_MAX - zlen text)) 0 ++ drop (Z.to_nat BUFSIZE_MAX) dst).
  cbn [pciot_lpa_read adaptor_port]. unfold read_, mbind, ST_bind, gets, opt, modifies, mret, ST_ret.
  rewrite Eb, c_str_app, strncpy_fits by (done || lia). split; [done|].
  rewrite !zlen_app, zlen_replicate, zlen_drop. zlen_pos. lia.
Qed.

Lemma answered_polls fd text s :
  answered text s → Forall (λ c, c ≠ 0) text → contains text GM_AT_COMMAND_RESPONSE_OK = true →
  @polls (adaptor M) (adaptor_port mbim) fd GM_RETRIEVE_RESPONSE_TIMEOUT [] s text (emptied s).
Proof.
  intros (k & Eb & Hs) Hnz Hok.
  assert (zlen text <= BUFSIZE_MAX) as Hl.
  { unfold adaptor_ok in Hs. rewrite Eb, zlen_app, zlen_cons in Hs. zlen_pos. lia. }
  apply contains_length in Hok as H2. change (zlen GM_AT_COMMAND_RESPONSE_OK) with 2 in H2.
  apply (polls_done fd 199 [] text s (emptied s)); [by eapply read_once| |done| |done].
  - intros ->. change (zlen []) with 0 in H2. lia.
  - change (zlen text < BUFSIZE_MAX + 1). lia.
Qed.

(** A read in fewer cells than the adaptor copies is undefined. *)
Lemma second_read n nb s b :
  zlen b = BUFSIZE_MAX + 1 → 2 <= nb <= BUFSIZE_MAX → ∀ gs : gm_state (adaptor M),
  responseBuffer gs = b → port gs = emptied s →
  @get_response_data_loop (adaptor M) (adaptor_port mbim) (S n) nb gs = None.
Proof.
  intros Hb Hnb gs Eb Ep. cbn [get_response_data_loop]. do 2 st_step.
  unfold mbind at 1, ST_bind at 1. unfold opt at 1. rewrite Eb. unfold cells_from.
  rewrite (proj2 (andb_true_iff _ _)) by zlia. unfold mbind at 1, ST_bind at 1, on_port at 1.
  rewrite Ep. cbn [pciot_lpa_read adaptor_port]. unfold read_ at 1, mbind at 1, ST_bind at 1, gets at 1.
  assert (c_str (read_mipc_buf (emptied s)) = Some []) as Ec.
  { cbn [read_mipc_buf emptied set_read_mipc_buf]. unfold fill.
    by replace (Z.to_nat (BUFSIZE_MAX + 1)) with (S (Z.to_nat BUFSIZE_MAX)). }
  unfold mbind at 1, ST_bind at 1, opt at 1. rewrite Ec. 
  unfold mbind at 1, ST_bind at 1, opt at 1.
  assert (strncpy (drop (Z.to_nat nb) b) [] BUFSIZE_MAX = None) as ->; [|done].
  unfold strncpy, wr_range. rewrite (proj2 (andb_false_iff _ _)); [done|]. right.
  rewrite zlen_take, app_nil_l, zlen_replicate, zlen_drop. lia.
Qed.

(** [memset] of a whole buffer, and a string in front of it. *)
Lemma wr_fill (b : list Z) n : zlen b = n → wr_range b 0 (fill 0 n) = Some (fill 0 n).
Proof.
  intros <-. zlen_pos. rewrite wr_range_Some by (unfold fill; rewrite ?zlen_replicate; lia).
  rewrite take_0. cbn [app]. rewrite drop_ge; [by rewrite app_nil_r|].
  unfold fill, zlen. rewrite length_replicate. lia.
Qed.

Lemma wr_string (t b : list Z) :
  zlen t < zlen b →
  wr_range b 0 (t ++ [0]) = Some (t ++ 0 :: drop (length t + 1) b) ∧ zlen (t ++ 0 :: drop (length t + 1) b) = zlen b.
Proof.
  intros Ht. split.
  - rewrite wr_range_Some by (rewrite ?zlen_app; change (zlen [0]) with 1; lia).
    rewrite take_0. cbn [app]. rewrite <-app_assoc, length_app. done.
  - rewrite zlen_app, zlen_cons, zlen_drop. unfold zlen in *. lia.
Qed.

(** One exchange with the modem, in a buffer of the common size. *)
Lemma Send_result size input out s :
  0 < size → 0 < zlen input → zlen out = size + 1 →
  ∃ b1, zlen b1 = size + 1 ∧
    SendAtOverMbimMessage mbim input out (size + 1) s
    = let '((status, data), m') := mbim input (modem s) in
      let text := snprintf size data in
      Some (if negb (status =? 0) then (-1, b1) else (0, text ++ 0 :: drop (length text + 1) (fill 0 (size + 1))),
            set_modem m' s).
Proof.
  intros HB Hi Ho. unfold SendAtOverMbimMessage. rewrite Z.add_simpl_r.
  zfalse (zlen input <? 1). zfalse (size + 1 <? 1). cbn [orb].
  assert (∀ t, zlen (snprintf size t) < size + 1) as Hsn by (intros t; unfold snprintf; rewrite zlen_take; lia).
  assert (zlen (fill 0 (size + 1)) = size + 1) as Hz by (unfold fill; rewrite zlen_replicate; lia).
  destruct (wr_string (snprintf size (lit "'6F00'"%string)) (fill 0 (size + 1))) as [E1 H1]; [by rewrite Hz|].
  exists (snprintf size (lit "'6F00'"%string) ++ 0 :: drop (length (snprintf size (lit "'6F00'"%string)) + 1) (fill 0 (size + 1))).
  split; [by rewrite H1|].
  erewrite ST_bind_eq; [|unfold opt; rewrite wr_fill by done; reflexivity].
  erewrite ST_bind_eq; [|unfold opt; rewrite E1; reflexivity]. st_step.
  destruct (mbim input (modem s)) as [[status data] m']. st_step. destruct (status =? 0); cbn [negb]; [|done].
  erewrite ST_bind_eq; [|unfold opt; rewrite wr_fill by (by rewrite H1); reflexivity].
  destruct (wr_string (snprintf size data) (fill 0 (size + 1))) as [E2 H2]; [by rewrite Hz|].
  erewrite ST_bind_eq; [|unfold opt; rewrite E2; reflexivity]. done.
Qed.

Lemma Send_ok size input out s data m' :
  0 < size → 0 < zlen input → zlen out = size + 1 → mbim input (modem s) = ((0, data), m') →
  zlen data < size →
  ∃ k, zlen (data ++ 0 :: k) = size + 1 ∧
    SendAtOverMbimMessage mbim input out (size + 1) s
    = Some ((0, data ++ 0 :: k), set_modem m' s).
Proof.
  intros HB Hi Ho Hm Hd. destruct (Send_result size input out s) as (b1 & _ & ->); [done..|]. rewrite Hm. cbn [Z.eqb negb].
  assert (zlen (fill 0 (size + 1)) = size + 1) as Hz by (unfold fill; rewrite zlen_replicate; lia).
  rewrite (snprintf_all size data) by lia. destruct (wr_string data (fill 0 (size + 1))) as [_ H2]; [lia|].
  rewrite Hz in H2. by eexists.
Qed.
(** A command on the direct path. *)
Lemma write_default_ok s cmd text m' fd :
  adaptor_ok s → LpaGetChipPlatType s ∉ [PLAT_TYPE_MTK; PLAT_TYPE_QC_151; PLAT_TYPE_QC_135R] →
  Forall (λ c, c ≠ 0) cmd → 0 < zlen cmd → zlen text < BUFSIZE_MAX →
  mbim cmd (modem s) = ((0, text), m') →
  ∃ b, zlen (text ++ 0 :: b) = BUFSIZE_MAX + 1 ∧ ∀ k,
    write_ mbim fd (cmd ++ 0 :: k) (zlen cmd) s
    = Some (zlen cmd, set_read_mipc_buf (text ++ 0 :: b) (set_modem m' s)).
Proof.
  intros Hs Hplat Hc Hcl Htl Hm. rewrite !not_elem_of_cons in Hplat. destruct Hplat as (P1 & P2 & P3 & _).
  destruct (Send_ok BUFSIZE_MAX cmd (read_mipc_buf s) s text m') as (b & Hb & E); [done..|].
  exists b. split; [done|]. intros k. unfold write_.
  erewrite ST_bind_eq; [|unfold opt; rewrite c_str_app by done; reflexivity]. st_step.
  zfalse (LpaGetChipPlatType s =? PLAT_TYPE_MTK). zfalse (LpaGetChipPlatType s =? PLAT_TYPE_QC_151).
  zfalse (LpaGetChipPlatType s =? PLAT_TYPE_QC_135R). unfold pciot_lpa_write_default. st_step.
  unfold adaptor_ok in Hs. rewrite Hs. by rewrite (ST_bind_eq _ _ _ _ _ E).
Qed.

(** What AT+CSIM= is followed by in a command that carries an APDU. *)
Definition at_rest (apdu : list Z) : list Z :=
  fmt_d (zlen apdu) ++ [comma; quote] ++ apdu ++ [quote; 13].

(** The AT+CGLA command with the same rest, and the one for the same APDU. *)
Definition cgla_line (port rest : list Z) : list Z := AT_CGLA_HEAD ++ port ++ [comma] ++ rest.
Definition cgla_command (port apdu : list Z) : list Z := cgla_line port (at_rest apdu).

(** The eight characters in front are replaced, whatever they are. The session
    is a character; after a close it is a NUL, and the comma is lost. *)
Definition cgla_text (port : Z) (rest : list Z) : list Z :=
  if char port =? 0 then AT_CGLA_HEAD ++ rest else cgla_line [char port] rest.

Lemma csimtocgla_normal s h rest :
  zlen h = 8 → h ++ rest ≠ AT_CSIM_OPEN2 → h ++ rest ≠ AT_CSIM_CLOSE →
  ∃ k, pciot_lpa_csimtocgla (fill 0 (zlen (h ++ rest) + AT_EXT_LENGTH)) (h ++ rest) s
  = Some (cgla_text (lpa_cgla_port s) rest ++ 0 :: k, set_cmd_status LPA_CMD_NORMAL s).
Proof.
  intros Hh H2 H3. unfold pciot_lpa_csimtocgla.
  assert (streqb (h ++ rest) AT_CSIM_OPEN2 = false) as -> by (by apply bool_decide_eq_false).
  assert (streqb (h ++ rest) AT_CSIM_CLOSE = false) as -> by (by apply bool_decide_eq_false).
  st_step. set (n := zlen (h ++ rest)).
  assert (n = 8 + zlen rest) as Hn by (subst n; rewrite zlen_app; lia).
  pose proof (zlen_nonneg rest).
  set (z := λ m, replicate (Z.to_nat m) 0).
  assert (∀ m, 0 < m → z m = 0 :: z (m - 1)) as Hz.
  { intros m Hm. subst z. cbn. replace (Z.to_nat m) with (S (Z.to_nat (m - 1))) by lia. done. }
  assert (∀ m, 0 <= m → zlen (z m) = m) as Hzl.
  { intros m Hm. subst z. unfold zlen. rewrite length_replicate. lia. }
  assert (fill 0 (n + AT_EXT_LENGTH) = [] ++ 0 :: z (n + 9)) as ->.
  { change (z (n + AT_EXT_LENGTH) = 0 :: z (n + 9)). unfold AT_EXT_LENGTH. rewrite Hz by lia.
    by replace (n + 10 - 1) with (n + 9) by lia. }
  erewrite ST_bind_eq.
  2: { unfold opt. rewrite (strncat_app [] AT_CGLA_HEAD); [|constructor|done|].
       - subst z. cbn [app]. rewrite drop_replicate. reflexivity.
       - rewrite Hzl by lia. change (zlen AT_CGLA_HEAD) with 8. lia. }
  erewrite ST_bind_eq.
  2: { unfold opt, rd_range. rewrite zlen_app, Hh. change (zlen AT_CSIM_HEAD) with 8.
       rewrite (proj2 (andb_true_iff _ _)) by lia.
       replace (8 + zlen rest - 8) with (zlen rest) by lia.
       replace (Z.to_nat 8) with (length h) by (unfold zlen in *; lia).
       rewrite drop_app_length, take_ge by (unfold zlen in *; lia). reflexivity. }
  erewrite ST_bind_eq.
  2: { unfold opt. rewrite (strlen_app AT_CGLA_HEAD) by (by repeat constructor).
       change (zlen AT_CGLA_HEAD) with 8. reflexivity. }
  unfold cgla_text. set (port := char (lpa_cgla_port s)) in *.
  replace (replicate (Z.to_nat (n + 9) - length AT_CGLA_HEAD) 0) with (0 :: 0 :: z (n - 1)).
  2: { change (length AT_CGLA_HEAD) with 8%nat. 
       replace (Z.to_nat (n + 9) - 8)%nat with (S (S (Z.to_nat (n - 1)))) by lia. done. }
  assert ((AT_CGLA_HEAD ++ 0 :: 0 :: 0 :: z (n - 1)).[8 := port]
          = Some ((AT_CGLA_HEAD ++ [port]) ++ 0 :: 0 :: z (n - 1))) as E2.
  { change 8 with (zlen AT_CGLA_HEAD). rewrite wr_app_next. by rewrite <-app_assoc. }
  erewrite ST_bind_eq; [|unfold opt; rewrite E2; reflexivity].
  assert (((AT_CGLA_HEAD ++ [port]) ++ 0 :: 0 :: z (n - 1)).[8 + 1 := comma]
          = Some ((AT_CGLA_HEAD ++ [port; comma]) ++ 0 :: z (n - 1))) as E3.
  { change (8 + 1) with (zlen (AT_CGLA_HEAD ++ [port])). rewrite wr_app_next. by rewrite <-!app_assoc. }
  erewrite ST_bind_eq; [|unfold opt; rewrite E3; reflexivity].
  assert (∃ k, strncat ((AT_CGLA_HEAD ++ [port; comma]) ++ 0 :: z (n - 1)) rest (n - zlen AT_CSIM_HEAD)
    = Some ((if port =? 0 then AT_CGLA_HEAD ++ rest else cgla_line [port] rest) ++ 0 :: k)) as (k & E4).
  { change (zlen AT_CSIM_HEAD) with 8. destruct (Z.eqb_spec port 0) as [->|Hp].
    - change ((AT_CGLA_HEAD ++ [0; comma]) ++ 0 :: z (n - 1)) with (AT_CGLA_HEAD ++ 0 :: (comma :: 0 :: z (n - 1))).
      rewrite (strncat_app AT_CGLA_HEAD rest); [eexists; by rewrite app_assoc|by repeat constructor|lia|].
      rewrite !zlen_cons, Hzl by lia. lia.
    - rewrite (strncat_app (AT_CGLA_HEAD ++ [port; comma]) rest); [|apply Forall_app; by repeat constructor|lia|rewrite Hzl; lia].
      eexists. unfold cgla_line. by rewrite <-!app_assoc. }
  erewrite ST_bind_eq; [|unfold opt; rewrite E4; reflexivity]. by exists k.
Qed.

Lemma csimtocgla_ok s h rest :
  zlen h = 8 → 0 < lpa_cgla_port s < 128 →
  h ++ rest ≠ AT_CSIM_OPEN2 → h ++ rest ≠ AT_CSIM_CLOSE →
  ∃ k, pciot_lpa_csimtocgla (fill 0 (zlen (h ++ rest) + AT_EXT_LENGTH)) (h ++ rest) s
  = Some (cgla_line [lpa_cgla_port s] rest ++ 0 :: k, set_cmd_status LPA_CMD_NORMAL s).
Proof.
  intros Hh Hport H2 H3. destruct (csimtocgla_normal s h rest) as (k & E); [done..|]. exists k. rewrite E. unfold cgla_text.
  assert (char (lpa_cgla_port s) = lpa_cgla_port s) as -> by (unfold char, u8; apply Z.mod_small; lia).
  by zfalse (lpa_cgla_port s =? 0).
Qed.

Lemma after_last_length fuel head text rest :
  after_last fuel head text = Some rest → zlen rest + zlen head <= zlen text.
Proof.
  revert text rest. induction fuel as [|fuel IH]; intros text rest; cbn;
    (destruct (strstr text head) as [r|] eqn:E; [|done]);
    apply strstr_Some in E as (p & k & -> & ->); rewrite drop_app_length.
  - intros [= <-]. rewrite !zlen_app. zlen_pos. lia.
  - destruct (after_last fuel head k) as [k'|] eqn:E; intros [= <-];
      rewrite !zlen_app; zlen_pos; [apply IH in E|]; zlen_pos; lia.
Qed.

Lemma after_last_suffix fuel head text rest :
  after_last fuel head text = Some rest → ∃ pre : list Z, text = pre ++ rest.
Proof.
  revert text rest. induction fuel as [|fuel IH]; intros text rest; cbn;
    (destruct (strstr text head) as [r|] eqn:E; [|done]);
    apply strstr_Some in E as (p & k & -> & ->); rewrite drop_app_length.
  - intros [= <-]. exists (p ++ head). by rewrite app_assoc.
  - destruct (after_last fuel head k) as [k'|] eqn:E; intros [= <-].
    + apply IH in E as [q ->]. exists (p ++ head ++ q). by rewrite <-!app_assoc.
    + exists (p ++ head). by rewrite app_assoc.
Qed.

(** The answer that the driver is given: what follows the last +CGLA:, behind
    +CSIM:. *)
Definition csim_of (text : list Z) : list Z :=
  AT_CSIM_RETUEN_HEAD ++ default [] (after_last (length text) AT_CGLA_RETUEN_HEAD text).

Lemma csim_of_facts text size :
  zlen text < size → 6 < size → Forall (λ c, c ≠ 0) text →
  Forall (λ c, c ≠ 0) (csim_of text) ∧ zlen (csim_of text) < size.
Proof.
  intros Hl Hsize Ht. unfold csim_of. rewrite zlen_app. change (zlen AT_CSIM_RETUEN_HEAD) with 6.
  destruct (after_last _ _ _) as [rest|] eqn:E; cbn [default from_option id].
  - apply after_last_suffix in E as Es. destruct Es as [pre Hpre]. apply after_last_length in E.
    change (zlen AT_CGLA_RETUEN_HEAD) with 6 in E. pose proof (zlen_nonneg rest). split; [|lia].
    apply Forall_app. split; [by repeat constructor|]. rewrite Hpre in Ht. by apply Forall_app in Ht as [_ ?].
  - by split; [repeat constructor|].
Qed.

(** In a buffer of cleared cells. *)
Lemma csim_answer_ok size text :
  6 < size → Forall (λ c, c ≠ 0) text → zlen text < size →
  ∃ k, csim_answer (fill 0 (size + 1)) text = Some (csim_of text ++ 0 :: k).
Proof.
  intros Hsize Hnz Ht. destruct (csim_of_facts text size) as [_ Hl]; [done..|].
  revert Hl. unfold csim_answer, csim_of, fill. rewrite zlen_app. change (zlen AT_CSIM_RETUEN_HEAD) with 6.
  replace (Z.to_nat (size + 1)) with (S (Z.to_nat size)) by lia. cbn [replicate]. intros Hl.
  change (0 :: replicate (Z.to_nat size) 0) with ([] ++ 0 :: replicate (Z.to_nat size) 0).
  rewrite (strncat_app [] AT_CSIM_RETUEN_HEAD); [|constructor|done|].
  2: { rewrite zlen_replicate. change (zlen AT_CSIM_RETUEN_HEAD) with 6. lia. }
  cbn [mbind option_bind app]. destruct (after_last _ _ _) as [rest|]; cbn [default from_option id] in *.
  - pose proof (zlen_nonneg rest). rewrite strncat_app; [|by repeat constructor|lia|].
    + eexists. rewrite <-app_assoc. reflexivity.
    + rewrite drop_replicate, zlen_replicate. change (length AT_CSIM_RETUEN_HEAD) with 6%nat. lia.
  - eexists. by rewrite app_nil_r.
Qed.

(** The next [n] calls of [malloc] succeed. *)
Definition mallocs_succeed (n : nat) s : Prop := Forall (λ b, b = false) (take n (mallocs s)).

Lemma malloc_ok n s : mallocs_succeed 1 s →
  malloc_cleared n s = Some (Some (fill 0 n), set_mallocs (tail (mallocs s)) s).
Proof.
  unfold mallocs_succeed, malloc_cleared. destruct (mallocs s) as [|b o]; [done|].
  cbn. by intros [-> _]%Forall_cons.
Qed.

Lemma mallocs_tail n s : mallocs_succeed (S n) s → mallocs_succeed n (set_mallocs (tail (mallocs s)) s).
Proof.
  unfold mallocs_succeed. cbn. destruct (mallocs s); [by destruct n|]. by intros [_ ?]%Forall_cons.
Qed.

Lemma mallocs_1 n s : mallocs_succeed (S n) s → mallocs_succeed 1 s.
Proof.
  unfold mallocs_succeed. destruct (mallocs s); [done|]. cbn. rewrite take_0.
  intros [-> _]%Forall_cons. by repeat constructor.
Qed.

Lemma cgla_line_nonzero port rest :
  port ≠ 0 → Forall (λ c, c ≠ 0) rest → Forall (λ c, c ≠ 0) (cgla_line [port] rest).
Proof.
  intros Hp Ha. apply Forall_app; split; [by repeat constructor|].
  constructor; [done|]. by constructor.
Qed.

(** [strncpy(b, t, strlen(t))] in a cleared buffer. *)
Lemma mtk_copy (t : list Z) size :
  zlen t < size →
  ∃ k, zlen (t ++ 0 :: k) = size + 1 ∧ strncpy (fill 0 (size + 1)) t (zlen t) = Some (t ++ 0 :: k).
Proof.
  intros Hl. zlen_pos. rewrite strncpy_fits by (unfold fill; rewrite ?zlen_replicate; lia).
  rewrite Z.sub_diag. cbn [Z.to_nat replicate app].
  exists (replicate (Z.to_nat (size - zlen t)) 0). split.
  - rewrite zlen_app, zlen_cons, zlen_replicate. lia.
  - do 2 f_equal. unfold fill. rewrite drop_replicate.
    replace (Z.to_nat (size + 1) - Z.to_nat (zlen t))%nat with (S (Z.to_nat (size - zlen t))) by (unfold zlen in *; lia).
    done.
Qed.

(** The state behind an exchange of an MTK modem. *)
Definition mtk_written (b : list Z) (m' : M) s : adaptor M :=
  set_read_mipc_buf b (set_cmd_status LPA_CMD_NORMAL (set_modem m' (set_mallocs (drop 3 (mallocs s)) s))).

Lemma write_mtk_ok s h rest text m' fd :
  adaptor_ok s → LpaGetChipPlatType s = PLAT_TYPE_MTK → mallocs_succeed 3 s →
  zlen h = 8 → Forall (λ c, c ≠ 0) (h ++ rest) → 0 < lpa_cgla_port s < 128 →
  h ++ rest ∉ [AT_CSIM_OPEN1; AT_CSIM_OPEN2; AT_CSIM_CLOSE] →
  mbim (cgla_line [lpa_cgla_port s] rest) (modem s) = ((0, text), m') →
  Forall (λ c, c ≠ 0) text → zlen text < BUFSIZE_MAX →
  ∃ b, zlen (csim_of text ++ 0 :: b) = BUFSIZE_MAX + 1 ∧ ∀ k,
    write_ mbim fd ((h ++ rest) ++ 0 :: k) (zlen (h ++ rest)) s
    = Some (zlen (h ++ rest), mtk_written (csim_of text ++ 0 :: b) m' s).
Proof.
  intros Hs Hplat Hal Hh Hc Hport Hne Hm Ht Htl.
  rewrite !not_elem_of_cons in Hne. destruct Hne as (N1 & N2 & N3 & _).
  apply Forall_app in Hc as Hrest. destruct Hrest as [_ Hrest].
  assert (∀ k, write_ mbim fd ((h ++ rest) ++ 0 :: k) (zlen (h ++ rest)) s
    = pciot_lpa_write_mtk mbim fd (h ++ rest) (zlen (h ++ rest)) s) as Hw.
  { intros k. unfold write_. erewrite ST_bind_eq; [|unfold opt; rewrite c_str_app by done; reflexivity].
    st_step. by rewrite Hplat. }
  setoid_rewrite Hw. unfold pciot_lpa_write_mtk, write_emulated.
  assert (streqb (h ++ rest) AT_CSIM_OPEN1 = false) as -> by (by apply bool_decide_eq_false).
  unfold write_cgla.
  rewrite (ST_bind_eq _ _ _ _ _ (malloc_ok _ _ (mallocs_1 2 s Hal))).
  set (s1 := set_mallocs _ s). assert (mallocs_succeed 2 s1) as Hal1 by (by apply mallocs_tail).
  rewrite (ST_bind_eq _ _ _ _ _ (malloc_ok _ _ (mallocs_1 1 s1 Hal1))).
  set (s2 := set_mallocs _ s1). assert (mallocs_succeed 1 s2) as Hal2 by (by apply mallocs_tail).
  destruct (csimtocgla_ok s2 h rest) as (k1 & E1); [done..|].
  rewrite (ST_bind_eq _ _ _ _ _ E1). set (s3 := set_cmd_status LPA_CMD_NORMAL s2).
  change (lpa_cgla_port s2) with (lpa_cgla_port s).
  erewrite ST_bind_eq.
  2: { unfold opt. rewrite c_str_app by (apply cgla_line_nonzero; [lia|done]). reflexivity. }
  destruct (Send_ok BUFSIZE_MAX (cgla_line [lpa_cgla_port s] rest) (fill 0 (BUFSIZE_MAX + 1)) s3 text m')
    as (k2 & Hk2 & E2); [done| |by apply zlen_fill|done|done|].
  { unfold cgla_line. rewrite zlen_app. zlen_pos. change (zlen AT_CGLA_HEAD) with 8. lia. }
  rewrite (ST_bind_eq _ _ _ _ _ E2). set (s4 := set_modem m' s3).
  cbn beta iota. change (0 <? 0) with false. cbn iota.
  rewrite (ST_bind_eq _ _ _ _ _ (malloc_ok (BUFSIZE_MAX + 1) s4 Hal2)). set (s5 := set_mallocs _ s4).
  erewrite ST_bind_eq; [|unfold opt; rewrite c_str_app by done; reflexivity].
  destruct (csim_answer_ok BUFSIZE_MAX text) as (k3 & E3); [done..|].
  assert (pciot_lpa_cglatocsim (fill 0 (BUFSIZE_MAX + 1)) text s5 = Some (csim_of text ++ 0 :: k3, s5)) as E4.
  { unfold pciot_lpa_cglatocsim. st_step. unfold opt. by rewrite E3. }
  rewrite (ST_bind_eq _ _ _ _ _ E4).
  destruct (csim_of_facts text BUFSIZE_MAX) as [Hcs Hcl]; [done..|].
  erewrite ST_bind_eq; [|unfold opt; rewrite c_str_app by done; reflexivity]. st_step.
  zlen_pos. destruct (mtk_copy (csim_of text) BUFSIZE_MAX) as (b & Hb & Eb); [done|].
  exists b. split; [done|]. intros _.
  change (zlen (read_mipc_buf s5)) with (zlen (read_mipc_buf s)). rewrite Hs.
  erewrite ST_bind_eq; [|unfold opt; rewrite Eb; reflexivity]. 
  unfold modifies, mbind, ST_bind, mret, ST_ret.
  apply (inj Some). f_equal. unfold mtk_written, s5, s4, s3, s2, s1. 
  unfold set_read_mipc_buf, set_mallocs, set_modem, set_cmd_status. cbn [mallocs LpaGetChipPlatType
    lpa_mipc_fd lpa_cgla_port qc151_lpa_cgla_port qc151_lpa_cmd_status modem lpa_cmd_status].
  f_equal. by destruct (mallocs s) as [|? [|? [|? ?]]].
Qed.

(** The state behind an exchange, its answer read. *)
Definition mtk_exchanged (m' : M) s : adaptor M := mtk_written (fill 0 (BUFSIZE_MAX + 1)) m' s.
Definition default_exchanged (m' : M) s : adaptor M := emptied (set_modem m' s).

Lemma mtk_exchange s fd apdu text m' :
  adaptor_ok s → LpaGetChipPlatType s = PLAT_TYPE_MTK → mallocs_succeed 3 s →
  Forall (λ c, c ≠ 0) apdu → 0 < lpa_cgla_port s < 128 →
  at_command apdu ∉ [AT_CSIM_OPEN1; AT_CSIM_OPEN2; AT_CSIM_CLOSE] →
  mbim (cgla_command [lpa_cgla_port s] apdu) (modem s) = ((0, text), m') →
  Forall (λ c, c ≠ 0) text → zlen text < BUFSIZE_MAX →
  contains (csim_of text) GM_AT_COMMAND_RESPONSE_OK = true →
  exchange fd (at_command apdu) s (csim_of text) (mtk_exchanged m' s).
Proof.
  intros Hs Hplat Hal Ha Hport Hne Hm Ht Htl Hok. pose proof (at_command_nonzero apdu Ha) as Hc.
  destruct (write_mtk_ok s GM_AT_COMMAND_PREFIX (at_rest apdu) text m' fd) as (b & Hb & Hw); [done..|].
  eexists. split; [exact Hw|].
  apply (answered_polls fd (csim_of text)); [|by eapply (csim_of_facts text BUFSIZE_MAX)|done].
  exists b. by split.
Qed.

Lemma default_exchange s fd cmd text m' :
  adaptor_ok s → LpaGetChipPlatType s ∉ [PLAT_TYPE_MTK; PLAT_TYPE_QC_151; PLAT_TYPE_QC_135R] →
  Forall (λ c, c ≠ 0) cmd → 0 < zlen cmd → zlen text < BUFSIZE_MAX →
  mbim cmd (modem s) = ((0, text), m') → Forall (λ c, c ≠ 0) text →
  contains text GM_AT_COMMAND_RESPONSE_OK = true →
  exchange fd cmd s text (default_exchanged m' s).
Proof.
  intros Hs Hplat Hc Hcl Htl Hm Ht Hok.
  destruct (write_default_ok s cmd text m' fd) as (b & Hb & Hw); [done..|].
  eexists. split; [exact Hw|].
  apply (answered_polls fd text); [|done|done]. by exists b.
Qed.
End exchanges.

(** ** The driver over the adaptor *)

Section stack.
Context {M : Type} (mbim : list Z → M → (Z * list Z) * M).
Implicit Types (s : gm_state (adaptor M)) (a : adaptor M).

Abbreviation TransmitApdu := (@_seMediaGenericModemTransmitApdu (adaptor M) (adaptor_port mbim)).
Abbreviation GetResponse :=
  (@_seMediaGenericModemGetATcommandResponseData (adaptor M) (adaptor_port mbim)).

(** The driver is between two commands, its next allocations succeed, and it
    can take responses in [room] cells. *)
Record ready (room : Z) s : Prop := {
  ready_room : 2 <= room < 2^31;
  ready_channel : 0 <= _apduChannel s < 20;
  ready_buffer : zlen (responseBuffer s) = GENERIC_MODEM_RESPONSE_BUFFER_SIZE;
  ready_memory : allocations 3 s;
  ready_adaptor : adaptor_ok (port s)
}.

(** The text of the APDU for the modem. *)
Definition apdu_text s (cmd : list Z) : list Z := hex_of (on_channel (_apduChannel s) cmd).

Lemma apdu_text_nonzero s cmd :
  Forall is_byte cmd → 0 <= _apduChannel s < 20 → Forall (λ c, c ≠ 0) (apdu_text s cmd).
Proof.
  intros Hc Hch. apply hex_of_nonzero. destruct Hc as [|c cmd Hc0 Hc]; [constructor|].
  constructor; [|done]. apply lor_byte; [done|by apply iso_channel_byte].
Qed.

(** C28: A command through the whole stack on an MTK modem (functional): the
    modem is sent exactly one command, AT+CGLA with the session of the adaptor
    and the hexadecimal text of the APDU whose class byte carries the driver's
    channel; when what its answer has behind the last +CGLA: quotes the bytes
    of a response and holds OK, the media manager is answered these bytes, and
    the adaptor is ready for the next command with the same session. *)
Theorem mtk_transmit s cmd resp text room m' :
  ready room s → LpaGetChipPlatType (port s) = PLAT_TYPE_MTK →
  mallocs_succeed 3 (port s) → 0 < lpa_cgla_port (port s) < 128 →
  Forall is_byte cmd → 4 <= zlen cmd < 262 → Forall is_byte resp → 0 < zlen resp <= room →
  at_command (apdu_text s cmd) ∉ [AT_CSIM_OPEN1; AT_CSIM_OPEN2; AT_CSIM_CLOSE] →
  mbim (cgla_command [lpa_cgla_port (port s)] (apdu_text s cmd)) (modem (port s)) = ((0, text), m') →
  Forall (λ c, c ≠ 0) text → zlen text < BUFSIZE_MAX →
  quoted (csim_of text) (hex_of resp) → contains (csim_of text) GM_AT_COMMAND_RESPONSE_OK = true →
  ∃ s', answers TransmitApdu s cmd room resp s' ∧ modem (port s') = m' ∧ adaptor_ok (port s') ∧
    lpa_cgla_port (port s') = lpa_cgla_port (port s) ∧ live s' = live s.
Proof.
  intros [Hroom Hch Hb Hal Ha] Hplat Hm Hport Hc Hcl Hr Hrl Hne Hmbim Ht Htl Hq Hok.
  pose proof (apdu_text_nonzero s cmd Hc Hch) as Hnz.
  pose proof (mtk_exchange mbim (port s) (_modemFD s) _ text m' Ha Hplat Hm Hnz Hport Hne Hmbim Ht Htl Hok) as Hx.
  destruct (@transmit_ok _ (adaptor_port mbim) s cmd resp (csim_of text) room (mtk_exchanged m' (port s))) as (k & _ & E); [done..|].
  eexists. split; [exact E|]. split; [done|]. split; [|done].
  unfold adaptor_ok. by apply zlen_fill.
Qed.

(** The same on a modem that takes AT+CSIM itself (functional): the modem is
    sent the command of the driver as it is, and its own text is what the
    driver reads. *)
Theorem direct_transmit s cmd resp text room m' :
  ready room s →
  LpaGetChipPlatType (port s) ∉ [PLAT_TYPE_MTK; PLAT_TYPE_QC_151; PLAT_TYPE_QC_135R] →
  Forall is_byte cmd → 4 <= zlen cmd < 262 → Forall is_byte resp → 0 < zlen resp <= room →
  mbim (at_command (apdu_text s cmd)) (modem (port s)) = ((0, text), m') →
  Forall (λ c, c ≠ 0) text → zlen text < BUFSIZE_MAX →
  quoted text (hex_of resp) → contains text GM_AT_COMMAND_RESPONSE_OK = true →
  ∃ s', answers TransmitApdu s cmd room resp s' ∧ modem (port s') = m' ∧ adaptor_ok (port s') ∧
    c_str (responseBuffer s') = Some text ∧ live s' = live s.
Proof.
  intros [Hroom Hch Hb Hal Ha] Hplat Hc Hcl Hr Hrl Hmbim Ht Htl Hq Hok.
  pose proof (at_command_nonzero _ (apdu_text_nonzero s cmd Hc Hch)) as Hnz.
  assert (0 < zlen (at_command (apdu_text s cmd))) as Hpos.
  { unfold at_command. rewrite zlen_app. zlen_pos. change (zlen GM_AT_COMMAND_PREFIX) with 8. lia. }
  pose proof (default_exchange mbim (port s) (_modemFD s) _ text m' Ha Hplat Hnz Hpos Htl Hmbim Ht Hok) as Hx.
  destruct (@transmit_ok _ (adaptor_port mbim) s cmd resp text room (default_exchanged m' (port s))) as (k & _ & E); [done..|].
  eexists. split; [exact E|]. split; [done|]. split; [|split; [by apply c_str_app|done]].
  unfold adaptor_ok. by apply zlen_fill.
Qed.

(** The adaptor ignores the room the driver offers (error): after an answer
    of two characters or more that holds neither OK nor ERROR nor the restart
    event, the driver reads again, and the 16384 bytes that the adaptor copies
    run past the end of the response buffer. *)
Theorem unfinished_answer_overflows s text k :
  read_mipc_buf (port s) = text ++ 0 :: k → adaptor_ok (port s) →
  zlen (responseBuffer s) = GENERIC_MODEM_RESPONSE_BUFFER_SIZE →
  Forall (λ c, c ≠ 0) text → 2 <= zlen text → final_text text = false →
  GetResponse s = None.
Proof.
  intros Eb Hok Hl Hnz H2 Hfin. unfold adaptor_ok in Hok.
  assert (zlen text <= BUFSIZE_MAX) as Htl.
  { rewrite Eb, zlen_app, zlen_cons in Hok. zlen_pos. lia. }
  unfold _seMediaGenericModemGetATcommandResponseData. st_step.
  destruct (responseBuffer s) as [|c b] eqn:Er; [done|].
  erewrite ST_bind_eq; [|unfold opt; rewrite wr_cell0; reflexivity]. st_step.
  set (s0 := set_responseBuffer (0 :: b) s).
  pose proof (read_once mbim (port s) (_modemFD s) text k Eb Hok Hnz Htl) as Hr.
  change GM_RETRIEVE_RESPONSE_TIMEOUT with (S (S 198)).
  destruct (@loop_read _ (adaptor_port mbim) s0 (_modemFD s) [] text (0 :: b) (port s) (emptied (port s)))
    as (k' & Hk' & E); [done|exact Hl|done|done|exact Hr| |].
  { cbn [app]. change (zlen text < BUFSIZE_MAX + 1). lia. }
  change (zlen []) with 0 in E. rewrite E. cbn [app] in *. ztrue (zlen text >? 0).
  destruct (nul_behind text k' _ Hk') as (k2 & Ew & Hk2).
  { change (zlen text < BUFSIZE_MAX + 1). lia. }
  erewrite ST_bind_eq; [|unfold opt; rewrite Ew; reflexivity]. st_step.
  destruct (not_final _ Hfin) as (F1 & F2 & F3).
  do 3 (erewrite ST_bind_eq; [|apply (response_contains_ok _ text _ k2); done];
        rewrite ?F1, ?F2, ?F3).
  apply (second_read mbim _ _ (port s) (text ++ 0 :: k2)); [exact Hk2|lia|done|done].
Qed.

(** C37: The reset command on an MTK modem (error): the AT+CFUN=1,1 that
    DisconnectWithReset writes is translated like an AT+CSIM command; the modem
    is sent AT+CGLA with the session and the arguments 1,1 instead, and the
    write reports success. *)
Theorem reset_command_lost a fd text m' k :
  adaptor_ok a → LpaGetChipPlatType a = PLAT_TYPE_MTK → mallocs_succeed 3 a →
  0 < lpa_cgla_port a < 128 →
  mbim (cgla_line [lpa_cgla_port a] (chars "1,1"%string ++ [13])) (modem a) = ((0, text), m') →
  Forall (λ c, c ≠ 0) text → zlen text < BUFSIZE_MAX →
  ∃ a', write_ mbim fd (GM_AT_COMMAND_RESET_CARD ++ 0 :: k) 12 a = Some (12, a') ∧ modem a' = m'.
Proof.
  intros Ha Hplat Hm Hport Hmbim Ht Htl.
  destruct (write_mtk_ok mbim a (chars "AT+CFUN="%string) (chars "1,1"%string ++ [13]) text m' fd)
    as (b & _ & E); [done..| |done| |done|done|done|].
  - by repeat constructor.
  - by apply (bool_decide_unpack _).
  - eexists. split; [exact (E k)|done].
Qed.
End stack.

(** ** Examples *)

Section examples.

(** A modem that expects the given commands and gives their answers. *)
Definition dialogue (cmd : list Z) (m : list (list Z * list Z)) : (Z * list Z) * list (list Z * list Z) :=
  match m with
  | (c, t) :: m' => if streqb cmd c then ((0, t), m') else ((1, []), m)
  | [] => ((1, []), m)
  end.

Definition device (plat : Z) (text : list Z) (m : list (list Z * list Z)) : adaptor (list (list Z * list Z)) :=
  Adaptor plat (text ++ 0 :: fill 0 (BUFSIZE_MAX - zlen text)) 1 49 LPA_CMD_NORMAL 0 LPA_CMD_NORMAL
    (replicate 20 false) m.

Definition online (a : adaptor (list (list Z * list Z))) : gm_state (adaptor (list (list Z * list Z))) :=
  Gm true 1 1 [48; 49; 0] (fill 0 GENERIC_MODEM_RESPONSE_BUFFER_SIZE) false [] (replicate 20 false) 2 a.

Lemma device_ok plat m : adaptor_ok (device plat [] m).
Proof.
  unfold adaptor_ok, device. cbn [read_mipc_buf app]. rewrite zlen_cons, zlen_fill; [|done].
  change (zlen (A := Z) []) with 0. lia.
Qed.

Lemma online_ready plat m : ready 256 (online (device plat [] m)).
Proof. split; [done|done|by apply zlen_fill|by repeat constructor|apply device_ok]. Qed.

(** The answer to a command. *)
Definition line (head t : String.string) : list Z :=
  lit head ++ [quote] ++ chars t ++ [quote; 13; 10; 13; 10] ++ lit "OK"%string ++ [13; 10].

Definition select_line : list Z := lit "14,'01A4040002A000'"%string ++ [13].

Lemma mtk_transmit_witness :
  let m := [(lit "AT+CGLA=1,"%string ++ select_line, line "+CGLA: 4,"%string "9000"%string)] in
  ∃ s', answers (@_seMediaGenericModemTransmitApdu _ (adaptor_port dialogue))
          (online (device PLAT_TYPE_MTK [] m)) select 256 [0x90; 0] s' ∧
        modem (port s') = [] ∧ adaptor_ok (port s') ∧ lpa_cgla_port (port s') = 49 ∧ live s' = 2.
Proof.
  intros m. apply (mtk_transmit dialogue (online (device PLAT_TYPE_MTK [] m)) select [0x90; 0]
    (line "+CGLA: 4,"%string "9000"%string) 256 []).
  - apply online_ready.
  - done.
  - by repeat constructor.
  - done.
  - by repeat constructor.
  - done.
  - by repeat constructor.
  - done.
  - by apply (bool_decide_unpack _).
  - by vm_compute.
  - by repeat constructor.
  - done.
  - exists (lit " 4,"%string), ([13; 10; 13; 10] ++ lit "OK"%string ++ [13; 10]).
    by split; [vm_compute|split; apply (bool_decide_unpack _)].
  - by vm_compute.
Defined.

Lemma direct_transmit_witness :
  let m := [(lit "AT+CSIM="%string ++ select_line, line "+CSIM: 4,"%string "9000"%string)] in
  ∃ s', answers (@_seMediaGenericModemTransmitApdu _ (adaptor_port dialogue))
          (online (device 7 [] m)) select 256 [0x90; 0] s' ∧
        modem (port s') = [] ∧ adaptor_ok (port s') ∧
        c_str (responseBuffer s') = Some (line "+CSIM: 4,"%string "9000"%string) ∧ live s' = 2.
Proof.
  intros m. apply (direct_transmit dialogue (online (device 7 [] m)) select [0x90; 0]
    (line "+CSIM: 4,"%string "9000"%string) 256 []).
  - apply online_ready.
  - by apply (bool_decide_unpack _).
  - by repeat constructor.
  - done.
  - by repeat constructor.
  - done.
  - by vm_compute.
  - by repeat constructor.
  - done.
  - exists (lit " 4,"%string), ([13; 10; 13; 10] ++ lit "OK"%string ++ [13; 10]).
    by split; [vm_compute|split; apply (bool_decide_unpack _)].
  - by vm_compute.
Defined.

Lemma unfinished_answer_overflows_witness :
  @_seMediaGenericModemGetATcommandResponseData _ (adaptor_port dialogue)
    (online (device PLAT_TYPE_MTK (lit "+CSIM: 4,"%string) [])) = None.
Proof.
  apply (unfinished_answer_overflows dialogue (online (device PLAT_TYPE_MTK (lit "+CSIM: 4,"%string) []))
    (lit "+CSIM: 4,"%string) (fill 0 (BUFSIZE_MAX - zlen (lit "+CSIM: 4,"%string)))).
  - done.
  - by vm_compute.
  - by apply zlen_fill.
  - by repeat constructor.
  - done.
  - done.
Defined.

Lemma reset_command_lost_witness :
  let m := [(lit "AT+CGLA=1,1,1"%string ++ [13], lit "ERROR"%string)] in
  ∃ a', write_ dialogue 1 (GM_AT_COMMAND_RESET_CARD ++ [0]) 12 (device PLAT_TYPE_MTK [] m)
        = Some (12, a') ∧ modem a' = [].
Proof.
  intros m. apply (reset_command_lost dialogue (device PLAT_TYPE_MTK [] m) 1 (lit "ERROR"%string) [] []).
  - apply device_ok.
  - done.
  - by repeat constructor.
  - done.
  - by vm_compute.
  - by repeat constructor.
  - done.
Defined.
End examples.
