(* ===== verification/Certificate.v ===== *)
(** * The object identifier of a server certificate

    [extractOIDfromCertificate] of [core/util.c], which looks for the registered
    identifier among the names of the subject of an X.509 certificate, and step 8
    of [_manageDownloadProfile] of [lpa_manager.c], which compares it with the
    identifier of the activation code. *)

From stdpp Require Import gmap.
From iris.bi Require Import bi.
From iris.proofmode Require Import proofmode.
From S2P Require Import Prelude CLib StateMonad ApiError Heap Wp RawData BerTlv TlvWalk Oid.
From S2P Require Import SeMedia Apdu Es10 Es10b Activation.
From S2P Require Import Profiles Rat Policy Metadata Incoming Download.

(** The coding of 2.5.29.17, the identifier of subjectAltName. *)
Definition subjectAltNameID : list Z := [0x55; 0x1D; 0x11].

(** ** Code *)

Section code.
Context {G : Type}.
Abbreviation M := (Heap.M G).

(** The result of the functions, the array [ptrOID] and [*ptrOIDsize]. *)
Abbreviation found_oid := (bool * list Z * Z)%type.

(** The objects that the loop over the extensions may leave behind. *)
Record extension_vars := ExtensionVars {
  v_found : found_oid;
  v_extensionId : ptr;
  v_subjectAltNameMain : ptr;
  v_subjectAltNameSeq30 : ptr;
  v_subjectAltNameRegID : ptr
}.

(** The names of the subject, in the extension [current]. *)
Definition subject_names (oidSizeMax : Z) (current extensionId : ptr) (found : found_oid) : M extension_vars :=
  let '(_, oid, _) := found in
  let* main := extractTag_of 0x04 current in
  let* ok := longer_than 3 main in
  if ok : bool then
    let* seq := extractTag_of 0x30 main in
    let* ok := longer_than 1 seq in
    if ok : bool then
      let* regID := extractTag_of 0x88 seq in
      let* ok := longer_than 0 regID in
      if ok : bool then
        let* '(_, length, value) := tlv_data regID in
        if length <=? oidSizeMax then
          let* oid := of_option (copy_value oid value length) in
          ret (ExtensionVars (true, oid, length) extensionId main seq regID)
        else ret (ExtensionVars found extensionId main seq regID)
      else ret (ExtensionVars found extensionId main seq regID)
    else ret (ExtensionVars found extensionId main seq None)
  else ret (ExtensionVars found extensionId main None None).

(** The body of the loop over the extensions; the objects of the names are
    [NULL] until the last round. *)
Definition extension_body (oidSizeMax : Z) (current : ptr) (s : extension_vars) : M (bool * extension_vars) :=
  let next (extensionId : ptr) : M (bool * extension_vars) :=
    ERASE_BERTLV extensionId ;;
    ret (true, ExtensionVars (v_found s) None (v_subjectAltNameMain s) (v_subjectAltNameSeq30 s)
                 (v_subjectAltNameRegID s)) in
  let* '(tag, _, _) := load_BeerTLV current in
  if tag =? 0x30 then
    let* extensionId := extractTag_of 0x06 current in
    let* id := (if isNull extensionId then ret (0, None)
                else let* '(_, length, value) := tlv_data extensionId in ret (length, value)) in
    let '(length, value) := id in
    if length =? 3 then
      let* v := of_option (v ← value; rd_range v 0 3) in
      if bool_decide (v = subjectAltNameID) then
        let* s := subject_names oidSizeMax current extensionId (v_found s) in ret (false, s)
      else next extensionId
    else
      ret (false, ExtensionVars (v_found s) extensionId (v_subjectAltNameMain s) (v_subjectAltNameSeq30 s)
                    (v_subjectAltNameRegID s))
  else next (v_extensionId s).

Definition _extractOIDfromCertificateExtensionList (ptrExtensionListData : option (list Z)) (ExtensionListDataSize : Z)
    (ptrOID : option (list Z)) (ptrOIDsize : option Z) (oidSizeMax : Z) : M (bool * option (list Z) * option Z) :=
  match ptrExtensionListData, ptrOID, ptrOIDsize with
  | Some _, Some oid, Some _ =>
      if (ExtensionListDataSize >? 0) && (oidSizeMax >? 0) then
        let* '(base, count) := berTLV_extractList ptrExtensionListData ExtensionListDataSize in
        let* found :=
          (if negb (isNull base) && (count >? 0) then
             let* s := walk_with (λ _, ub) (extension_body oidSizeMax) base
                         (ExtensionVars (false, oid, 0) None None None None) in
             ERASE_BERTLV (v_extensionId s) ;;
             ERASE_BERTLV (v_subjectAltNameMain s) ;;
             ERASE_BERTLV (v_subjectAltNameSeq30 s) ;;
             ERASE_BERTLV (v_subjectAltNameRegID s) ;;
             ret (v_found s)
           else ret (false, oid, 0)) in
        ERASE_BERTLV_LIST base ;;
        let '(res, oid, size) := found in
        ret (res, Some oid, Some size)
      else ret (false, ptrOID, ptrOIDsize)
  | _, _, _ => ret (false, ptrOID, ptrOIDsize)
  end.

(** The body of the loop over the main objects of the certificate. *)
Definition tbsCert_body (oidSizeMax : Z) (current : ptr) (found : found_oid) : M (bool * found_oid) :=
  let* '(tag, _, _) := load_BeerTLV current in
  if tag =? 0xA3 then
    let* seq := extractTag_of 0x30 current in
    let* ok := longer_than 1 seq in
    let* found :=
      (if ok : bool then
         let* '(_, length, value) := tlv_data seq in
         let '(_, oid, size) := found in
         let* '(res, oid', size') :=
           _extractOIDfromCertificateExtensionList value length (Some oid) (Some size) oidSizeMax in
         ret (res, default oid oid', default size size')
       else ret found) in
    ERASE_BERTLV seq ;;
    ret (false, found)
  else ret (true, found).

Definition extractOIDfromCertificate (ptrCertificate : option (list Z)) (certificateLength : Z)
    (ptrOID : option (list Z)) (ptrOIDsize : option Z) (oidSizeMax : Z) : M (bool * option (list Z) * option Z) :=
  match ptrCertificate, ptrOID, ptrOIDsize with
  | Some _, Some oid, Some _ =>
      if (certificateLength >? 15) && (oidSizeMax >? 0) then
        let* '(main, _) := berTLV_extractTagUInt8 0x30 ptrCertificate certificateLength in
        let* ok := longer_than 12 main in
        let* found :=
          (if ok : bool then
             let* tbs := extractTag_of 0x30 main in
             let* ok := longer_than 10 tbs in
             let* found :=
               (if ok : bool then
                  let* '(base, count) := extractList_of tbs in
                  let* found :=
                    (if negb (isNull base) && (count >? 5)
                     then walk_with (λ _, ub) (tbsCert_body oidSizeMax) base (false, oid, 0)
                     else ret (false, oid, 0)) in
                  ERASE_BERTLV_LIST base ;;
                  ret found
                else ret (false, oid, 0)) in
             ERASE_BERTLV tbs ;;
             ret found
           else ret (false, oid, 0)) in
        ERASE_BERTLV main ;;
        let '(res, oid, size) := found in
        ret (res, Some oid, Some size)
      else ret (false, ptrOID, ptrOIDsize)
  | _, _, _ => ret (false, ptrOID, ptrOIDsize)
  end.

(** Step 8 of a download: the identifier of the activation code against that of
    the certificate; [currentNode] is an uninitialised array of the conversion. *)
Definition check_certificate_oid (currentNode activationOid : list Z) (serverCertificate : data_s)
    (lpaApiError : LPA_API_ERROR) : M LPA_API_ERROR :=
  if no_error lpaApiError then
    let* n := of_option (strlen activationOid) in
    if n >? 0 then
      let* '(ok, raw, size) :=
        extractOIDfromCertificate (val serverCertificate) (len serverCertificate)
          (Some (fill 0 LPA_OID_SIZE)) (Some 0) LPA_OID_SIZE in
      if ok : bool then
        let* '(_, text) :=
          of_option (convertASN1_OIDtoText currentNode raw (default 0 size) (Some (fill 0 LPA_OID_SIZE)) LPA_OID_SIZE) in
        let* expected := of_option (c_str activationOid) in
        let* found := of_option (text ≫= c_str) in
        ret (if streqb expected found then lpaApiError else LPA_ERROR_OID_MISMATCH)
      else ret LPA_ERROR_INVALID_SERVERCERTIFICATE
    else ret lpaApiError
  else ret lpaApiError.
End code.

(** ** Reference *)

(** The registered identifier among the names of an extension of that kind. *)
Definition registered_name (oidSizeMax : Z) (names : list Z) : option (list Z) :=
  if zlen names >? 1 then
    id ← (first_tag 0x88 names).2;
    if (zlen id >? 0) && (zlen id <=? oidSizeMax) then Some id else None
  else None.
Definition registered_id (oidSizeMax : Z) (extension : list Z) : option (list Z) :=
  main ← (first_tag 0x04 extension).2;
  if zlen main >? 3 then names ← (first_tag 0x30 main).2; registered_name oidSizeMax names else None.

(** The first extension with the names of the subject; an extension whose
    identifier has not three bytes ends the search. *)
Fixpoint subject_id (oidSizeMax : Z) (extensions : list (Z * list Z)) : option (list Z) :=
  match extensions with
  | [] => None
  | (tag, v) :: rest =>
      if tag =? 0x30 then
        match (first_tag 0x06 v).2 with
        | Some id =>
            if zlen id =? 3 then
              if bool_decide (id = subjectAltNameID) then registered_id oidSizeMax v else subject_id oidSizeMax rest
            else None
        | None => None
        end
      else subject_id oidSizeMax rest
  end.

(** The objects of the extension container. *)
Definition extensions_of (container : list Z) : option (list (Z * list Z)) :=
  match (first_tag 0x30 container).2 with
  | Some seq => if zlen seq >? 1 then objects seq else Some []
  | None => Some []
  end.
Definition some_objects (n : Z) (tvs : list (Z * list Z)) : list (Z * list Z) := if zlen tvs mod 256 >? n then tvs else [].

Fixpoint tbs_id (oidSizeMax : Z) (main : list (Z * list Z)) : option (list Z) :=
  match main with
  | [] => None
  | (tag, v) :: rest =>
      if tag =? 0xA3 then
        extensions ← extensions_of v; subject_id oidSizeMax (some_objects 0 extensions)
      else tbs_id oidSizeMax rest
  end.

(** The main objects of a certificate. *)
Definition tbs_objects (certificate : list Z) : option (list (Z * list Z)) :=
  match (first_tag 0x30 certificate).2 with
  | Some main =>
      if zlen main >? 12 then
        match (first_tag 0x30 main).2 with
        | Some tbs => if zlen tbs >? 10 then objects tbs else Some []
        | None => Some []
        end
      else Some []
  | None => Some []
  end.

Definition certificate_id (oidSizeMax : Z) (certificate : list Z) : option (list Z) :=
  if zlen certificate >? 15 then
    main ← tbs_objects certificate; tbs_id oidSizeMax (some_objects 5 main)
  else None.

(** No object of the lists on the way is longer than the data. *)
Definition readable (tv : Z * list Z) : Prop := tv.1 = 0xA3 → is_Some (extensions_of tv.2).
Definition complete (certificate : list Z) : Prop :=
  ∃ main, tbs_objects certificate = Some main ∧
    Forall readable main.

(** *** Certificates

    An extension is a sequence of its identifier, perhaps a boolean, and its
    data; the data of subjectAltName are a sequence of names. *)
Inductive extension :=
  | SubjectAltName (critical : option (list Z)) (names : list (Z * list Z))
  | Extension (id : list Z) (critical : option (list Z)) (data : list Z).

Definition extension_objects (e : extension) : list (Z * list Z) :=
  let '(id, critical, data) :=
    match e with
    | SubjectAltName critical names => (subjectAltNameID, critical, tlv_bytes 0x30 (tlvs_bytes names))
    | Extension id critical data => (id, critical, data)
    end in
  (0x06, id) :: opt_tlv 0x01 critical ++ [(0x04, data)].
Definition extension_object (e : extension) : Z * list Z := (0x30, tlvs_bytes (extension_objects e)).

(** The objects in front of the extensions, the extensions, and what follows
    the signed part. *)
Record certificate := Certificate {
  c_fields : list (Z * list Z);
  c_extensions : list extension;
  c_signature : list (Z * list Z)
}.
Definition extension_sequence (c : certificate) : list Z := tlvs_bytes (extension_object <$> c_extensions c).
Definition tbs_fields (c : certificate) : list (Z * list Z) :=
  c_fields c ++ [(0xA3, tlv_bytes 0x30 (extension_sequence c))].
Definition certificate_objects (c : certificate) : list (Z * list Z) :=
  (0x30, tlvs_bytes (tbs_fields c)) :: c_signature c.
Definition certificate_bytes (c : certificate) : list Z := tlv_bytes 0x30 (tlvs_bytes (certificate_objects c)).

(** The first registered identifier of the first extension with names; an
    extension in front of it whose identifier has not three bytes hides it. *)
Fixpoint named_id (es : list extension) : option (list Z) :=
  match es with
  | [] => None
  | SubjectAltName _ names :: _ => snd <$> head (filter (λ tv, tv.1 = 0x88) names)
  | Extension id _ _ :: es => if zlen id =? 3 then named_id es else None
  end.

(** The identifiers of the other extensions are not that of subjectAltName. *)
Definition valid_extension (e : extension) : Prop :=
  match e with
  | SubjectAltName critical names => names ≠ [] ∧ Forall sane names ∧ from_option (Forall is_byte) True critical
  | Extension id critical data =>
      id ≠ subjectAltNameID ∧ Forall is_byte id ∧ from_option (Forall is_byte) True critical ∧
      Forall is_byte data
  end.
Definition valid_certificate (c : certificate) : Prop :=
  Forall sane (c_fields c) ∧ Forall (λ tv, tv.1 ≠ 0xA3) (c_fields c) ∧ 5 <= zlen (c_fields c) < 255 ∧
  Forall valid_extension (c_extensions c) ∧ 1 <= zlen (c_extensions c) < 256 ∧
  Forall sane (c_signature c) ∧ zlen (certificate_bytes c) < 2 ^ 24.

(** ** Proofs *)

Section proofs.
Context {G : Type} (nf : bool).
Implicit Types (g : G).

(** What the functions leave of the identifier they found. *)
Definition outcome (oid : list Z) (id : option (list Z)) : bool * list Z * Z :=
  match id with Some v => (true, put oid v, zlen v) | None => (false, oid, 0) end.

(** The variables of the loop over the extensions, and the identifier they
    hold. *)
Definition vars (oid : list Z) (s : extension_vars) (id : option (list Z)) : heapProp :=
  (∃ re rm rs ri, ⟦v_found s = outcome oid id⟧ ∗
     maybe_tlv (v_extensionId s) 0x06 re ∗ maybe_tlv (v_subjectAltNameMain s) 0x04 rm ∗
     maybe_tlv (v_subjectAltNameSeq30 s) 0x30 rs ∗ maybe_tlv (v_subjectAltNameRegID s) 0x88 ri)%I.

Lemma chosen_byte tag v r w : Forall is_byte v → chosen nf r (first_tag tag v).2 → r = Some w → Forall is_byte w.
Proof. intros Hv [E|[_ E]] ->; [|done]. by eapply first_tag_byte. Qed.

(** A step of a search that some allocation may end. *)
Lemma chosen_bind (r found k : option (list Z)) (f : list Z → option (list Z)) :
  chosen nf r found → (∀ m, r = Some m → chosen nf k (f m)) → (r = None → k = None) → chosen nf k (found ≫= f).
Proof.
  intros [->|[Hnf ->]] H1 H2; [|right; split; [done|by apply H2]].
  destruct found as [m|]; [by apply H1|]. left. by apply H2.
Qed.

Lemma wp_subject_names max oid b t v e re g Φ :
  Forall is_byte v → max <= zlen oid →
  tlv (Some b) t v -∗ maybe_tlv e 0x06 re -∗
  (∀ s r, ⟦chosen nf r (registered_id max v)⟧ -∗ tlv (Some b) t v -∗ vars oid s r -∗ Φ s g) -∗
  wp nf (subject_names max (Some b) e (false, oid, 0)) g Φ.
Proof.
  iIntros (Hv Hmax) "Ht He HΦ". rw /subject_names.
  wp_seq. iApply (wp_extractTag_of with "Ht"); [done..|]. iIntros (pm rm) "%Hm Ht Hm".
  wp_seq. iApply (wp_longer_than with "Hm"). iIntros "Hm".
  assert (∀ r, (∀ m, rm = Some m → chosen nf r (if zlen m >? 3 then names ← (first_tag 0x30 m).2; registered_name max names else None)) →
    (rm = None → r = None) → chosen nf r (registered_id max v)) as Hend1 by (intros; by eapply chosen_bind).
  destruct rm as [m|].
  2: { wp_value. iApply ("HΦ" $! _ None with "[%] Ht"); [by apply Hend1|iExists re, None, None, None; by iFrame]. }
  destruct (zlen m >? 3) eqn:E1.
  2: { wp_value. iApply ("HΦ" $! _ None with "[%] Ht"); [|iExists re, (Some m), None, None; by iFrame].
       apply Hend1; [|done]. intros ? [= <-]. rw E1. by left. }
  pose proof (chosen_byte _ _ _ _ Hv Hm eq_refl) as Hmb. cbn [maybe_tlv].
  wp_seq. iApply (wp_extractTag_of with "Hm"); [done..|]. iIntros (ps rs) "%Hs Hm Hs".
  wp_seq. iApply (wp_longer_than with "Hs"). iIntros "Hs".
  assert (∀ r, (∀ names, rs = Some names → chosen nf r (registered_name max names)) →
    (rs = None → r = None) → chosen nf r (registered_id max v)) as Hend2.
  { intros r H1 H2. apply Hend1; [|done]. intros ? [= <-]. rw E1. by eapply chosen_bind. }
  destruct rs as [names|].
  2: { wp_value. iApply ("HΦ" $! _ None with "[%] Ht"); [by apply Hend2|iExists re, (Some m), None, None; by iFrame]. }
  destruct (zlen names >? 1) eqn:E2.
  2: { wp_value. iApply ("HΦ" $! _ None with "[%] Ht"); [|iExists re, (Some m), (Some names), None; by iFrame].
       apply Hend2; [|done]. intros ? [= <-]. rw /registered_name E2. by left. }
  pose proof (chosen_byte _ _ _ _ Hmb Hs eq_refl) as Hnb. cbn [maybe_tlv].
  wp_seq. iApply (wp_extractTag_of with "Hs"); [done..|]. iIntros (pi ri) "%Hi Hs Hi".
  wp_seq. iApply (wp_longer_than with "Hi"). iIntros "Hi".
  assert (∀ r, (∀ id, ri = Some id → chosen nf r (if (zlen id >? 0) && (zlen id <=? max) then Some id else None)) →
    (ri = None → r = None) → chosen nf r (registered_id max v)) as Hend3.
  { intros r H1 H2. apply Hend2; [|done]. intros ? [= <-]. rw /registered_name E2. by eapply chosen_bind. }
  destruct ri as [id|].
  2: { wp_value. iApply ("HΦ" $! _ None with "[%] Ht"); [by apply Hend3|iExists re, (Some m), (Some names), None; by iFrame]. }
  destruct (zlen id >? 0) eqn:E3.
  2: { wp_value. iApply ("HΦ" $! _ None with "[%] Ht"); [|iExists re, (Some m), (Some names), (Some id); by iFrame].
       apply Hend3; [|done]. intros ? [= <-]. rw E3. by left. }
  cbn [maybe_tlv]. wp_seq. iApply (wp_tlv_data with "Hi"). iIntros "Hi".
  destruct (Z.leb_spec (zlen id) max) as [Hid|Hid].
  - rw copy_value_ok; [|lia]. wp_seq. iApply wp_of_option. wp_value.
    iApply ("HΦ" $! _ (Some id) with "[%] Ht"); [|iExists re, (Some m), (Some names), (Some id); by iFrame].
    apply Hend3; [|done]. intros ? [= <-]. rw E3 (proj2 (Z.leb_le _ _) Hid). by left.
  - wp_value. iApply ("HΦ" $! _ None with "[%] Ht"); [|iExists re, (Some m), (Some names), (Some id); by iFrame].
    apply Hend3; [|done]. intros ? [= <-]. rw E3 (proj2 (Z.leb_gt _ _) Hid). by left.
Qed.

Section walks.
Context (oidSizeMax : Z) (oid : list Z) (Hmax : oidSizeMax <= zlen oid).

(** Before a round over the extensions, when [rest] is left. *)
Definition searching (tvs rest : list (Z * list Z)) : Prop := subject_id oidSizeMax tvs = subject_id oidSizeMax rest.
Definition no_vars : extension_vars := ExtensionVars (false, oid, 0) None None None None.

Lemma no_vars_left r : r = None → ⊢ vars oid no_vars r.
Proof. intros ->. iExists None, None, None, None. by repeat iSplit. Qed.

Lemma wp_next_extension p r b t v tvs post g :
  searching tvs ((t, v) :: post) → searching ((t, v) :: post) post →
  tlv (Some b) t v ∗ maybe_tlv p 0x06 r ⊢
  wp nf (ERASE_BERTLV p ;; ret (true, no_vars)) g (λ r g', tlv (Some b) t v ∗
    if r.1 then ⟦searching tvs post ∧ r.2 = no_vars ∧ g' = g⟧
    else ∃ id, ⟦chosen nf id (subject_id oidSizeMax tvs) ∧ g' = g⟧ ∗ vars oid r.2 id).
Proof.
  iIntros (H1 H2) "[Ht Hp]". wp_seq. iApply (wp_erase with "Hp"). wp_value. iFrame "Ht". cbn [fst snd].
  iPureIntro. split_and!; [by rw /searching H1|done..].
Qed.

Lemma extension_body_ok tvs b t v post g :
  Forall is_byte v → searching tvs ((t, v) :: post) →
  tlv (Some b) t v ⊢
  wp nf (extension_body oidSizeMax (Some b) no_vars) g (λ r g', tlv (Some b) t v ∗
    if r.1 then ⟦searching tvs post ∧ r.2 = no_vars ∧ g' = g⟧
    else ∃ id, ⟦chosen nf id (subject_id oidSizeMax tvs) ∧ g' = g⟧ ∗ vars oid r.2 id).
Proof.
  iIntros (Hv Hs) "Ht". wp_seq. iApply (wp_load_tlv_length with "Ht"). iIntros (q) "Ht".
  destruct (t =? 0x30) eqn:Et.
  2: { iApply (wp_next_extension _ None); [done|by rw /searching /= Et|by iFrame]. }
  wp_seq. iApply (wp_extractTag_of with "Ht"); [done..|]. iIntros (pe re) "%He Ht He".
  assert (∀ k, (re = None → k = None) →
    (∀ id, re = Some id → chosen nf k (if zlen id =? 3 then if bool_decide (id = subjectAltNameID)
       then registered_id oidSizeMax v else subject_id oidSizeMax post else None)) →
    chosen nf k (subject_id oidSizeMax tvs)) as Hend.
  { intros k H1 H2. rw Hs /= Et. destruct He as [Ee|[Hnf Ee]].
    - rw -Ee. destruct re as [id|]; [by apply H2|]. left. by apply H1.
    - right. split; [done|by apply H1]. }
  wp_seq. iDestruct (maybe_null with "He") as "[%En He]". rw En. destruct re as [id|]; cbn [present negb maybe_tlv].
  2: { wp_value. wp_value. iFrame "Ht". cbn [fst snd]. iExists None. iSplit; [iPureIntro; split; [by apply Hend|done]|].
       iExists None, None, None, None. by iFrame. }
  wp_seq. iApply (wp_tlv_data with "He"). iIntros "He". wp_value. destruct (zlen id =? 3) eqn:E3.
  2: { wp_value. iFrame "Ht". cbn [fst snd]. iExists None.
       iSplit; [iPureIntro; split; [apply Hend; [done|]; intros ? [= <-]; rw E3; by left|done]|].
       iExists (Some id), None, None, None. by iFrame. }
  zprop. assert (value id = Some id) as -> by (by destruct id). cbn [mbind option_bind].
  wp_seq. rw rd_range_all; [|done]. iApply wp_of_option. destruct (bool_decide (id = subjectAltNameID)) eqn:Eid.
  - wp_seq. iApply (wp_subject_names _ _ _ _ _ _ (Some id) with "Ht He"); [done..|]. iIntros (s r) "%Hr Ht Hs".
    wp_value. iFrame "Ht". cbn [fst snd]. iExists r. iFrame "Hs". iPureIntro. split; [|done].
    apply Hend; [done|]. intros ? [= <-]. by rw E3 Eid.
  - destruct He as [Ee|[_ Ee]]; [|done]. iApply (wp_next_extension _ (Some id)); [done| |by iFrame].
    by rw /searching /= Et -Ee E3 /= Eid.
Qed.
End walks.

Lemma wp_erase_vars oid s id g Φ :
  vars oid s id -∗ Φ (outcome oid id) g -∗
  wp nf (ERASE_BERTLV (v_extensionId s) ;; ERASE_BERTLV (v_subjectAltNameMain s) ;;
         ERASE_BERTLV (v_subjectAltNameSeq30 s) ;; ERASE_BERTLV (v_subjectAltNameRegID s) ;; ret (v_found s)) g Φ.
Proof.
  iIntros "(%re & %rm & %rs & %ri & %E & He & Hm & Hs & Hi) HΦ". rw E.
  wp_seq. iApply (wp_erase with "He"). wp_seq. iApply (wp_erase with "Hm"). wp_seq. iApply (wp_erase with "Hs").
  wp_seq. iApply (wp_erase with "Hi"). by wp_value.
Qed.

Lemma wp_extension_walk oidSizeMax oid p tvs g Φ :
  oidSizeMax <= zlen oid → Forall (λ tv, Forall is_byte tv.2) tvs →
  tlv_list p tvs -∗
  (∀ s id, ⟦chosen nf id (subject_id oidSizeMax tvs)⟧ -∗ tlv_list p tvs -∗ vars oid s id -∗ Φ s g) -∗
  wp nf (walk_with (λ _, ub) (extension_body oidSizeMax) p (no_vars oid)) g Φ.
Proof.
  iIntros (Hmax Hb) "Hp HΦ".
  iApply (wp_walk _ _ _ tvs
    (λ pre s g', ⟦(∀ post, tvs = pre ++ post → searching oidSizeMax tvs post) ∧ s = no_vars oid ∧ g' = g⟧)%I
    (λ s g', ∃ id, ⟦chosen nf id (subject_id oidSizeMax tvs) ∧ g' = g⟧ ∗ vars oid s id)%I with "Hp [] [HΦ]").
  - intros pre t v post b s g0 E. iIntros "[Ht %H]". destruct H as (Hs & -> & ->).
    assert (Forall is_byte v) as Hv.
    { rw E in Hb. apply Forall_app in Hb as [_ Hb]. by inversion_clear Hb. }
    iApply (wp_wand with "[Ht]").
    { iApply (extension_body_ok _ _ Hmax tvs with "Ht"); [done|by apply Hs]. }
    iIntros ([go s'] g') "[$ H]". cbn [fst snd]. destruct go; [|done]. iDestruct "H" as %(H & -> & ->). iPureIntro.
    split; [|done]. intros post' E'. rw E -app_assoc in E'. by apply app_inv_head in E' as [= <-].
  - intros s g0. iIntros "%H". destruct H as (Hs & -> & ->). iExists None. iSplit; [|by iApply no_vars_left].
    iPureIntro. split; [|done]. left. specialize (Hs []). rw app_nil_r in Hs. by rw Hs.
  - iPureIntro. split; [|done]. intros post E. by rw E.
  - iIntros (s g') "Hp (%id & %H & Hs)". destruct H as [Hid ->]. iApply ("HΦ" with "[//] Hp Hs").
Qed.

Lemma wp_extension_list oidSizeMax oid size v tvs g Φ :
  0 < oidSizeMax <= zlen oid → Forall is_byte v → v ≠ [] → objects v = Some tvs →
  (∀ id, ⟦chosen nf id (subject_id oidSizeMax (some_objects 0 tvs))⟧ -∗
     Φ (let '(res, oid, size) := outcome oid id in (res, Some oid, Some size)) g) -∗
  wp nf (_extractOIDfromCertificateExtensionList (value v) (zlen v) (Some oid) (Some size) oidSizeMax) g Φ.
Proof.
  iIntros (Hmax Hv Hne Ho) "HΦ". assert (value v = Some v) as -> by (by destruct v).
  assert ((zlen v >? 0) && (oidSizeMax >? 0) = true) as Hpos.
  { destruct v; [done|]. rw zlen_cons. zlen_pos. lia. }
  rw /_extractOIDfromCertificateExtensionList Hpos. wp_seq.
  iApply extractList_spec; [done..|]. iIntros (p c) "[%Hn|[-> Hp]]".
  - destruct Hn as [-> ->]. wp_seq. cbn [isNull negb andb]. wp_value. wp_seq. wp_value. wp_value.
    iApply ("HΦ" $! None). iPureIntro. by right.
  - iDestruct (tlv_list_null with "Hp") as "[%En Hp]". rw En. wp_seq.
    destruct (negb (bool_decide (tvs = [])) && (zlen tvs mod 256 >? 0)) eqn:E.
    + apply andb_prop in E as [_ E]. rw /some_objects E. wp_seq.
      iApply (wp_extension_walk with "Hp"); [lia|by eapply parse_list_byte|].
      iIntros (s id) "%Hid Hp Hs". iApply (wp_erase_vars with "Hs"). wp_seq.
      iApply (wp_erase_list with "Hp"). destruct id; wp_value; by iApply ("HΦ" with "[//]").
    + wp_value. wp_seq. iApply (wp_erase_list with "Hp"). wp_value. iApply ("HΦ" $! None). iPureIntro. left.
      rw /some_objects. destruct (zlen tvs mod 256 >? 0); [|done]. case_bool_decide; [by subst|done].
Qed.

Lemma tbsCert_body_ok oidSizeMax oid b t v post g :
  0 < oidSizeMax <= zlen oid → Forall is_byte v → readable (t, v) →
  tlv (Some b) t v ⊢
  wp nf (tbsCert_body oidSizeMax (Some b) (false, oid, 0)) g (λ r g', tlv (Some b) t v ∗
    if r.1 then ⟦tbs_id oidSizeMax ((t, v) :: post) = tbs_id oidSizeMax post ∧ r.2 = (false, oid, 0) ∧ g' = g⟧
    else ∃ id, ⟦chosen nf id (tbs_id oidSizeMax ((t, v) :: post)) ∧ r.2 = outcome oid id ∧ g' = g⟧).
Proof.
  iIntros (Hmax Hv Hr) "Ht". cbn [tbs_id]. wp_seq. iApply (wp_load_tlv_length with "Ht"). iIntros (q) "Ht".
  destruct (t =? 0xA3) eqn:Et; [|by wp_value; iFrame "Ht"].
  zprop. destruct (Hr Et) as [tvs Htvs]. cbn [fst snd] in Htvs. rw Htvs. cbn [mbind option_bind].
  wp_seq. iApply (wp_extractTag_of with "Ht"); [done..|]. iIntros (ps rs) "%Hs Ht Hs".
  wp_seq. iApply (wp_longer_than with "Hs"). iIntros "Hs".
  destruct rs as [seq|].
  2: { wp_seq. wp_value. wp_seq. iApply (wp_erase with "Hs"). wp_value. iFrame "Ht". cbn [fst snd]. iExists None. iPureIntro.
       split; [|done]. destruct Hs as [Es|[-> _]]; [left|by right]. rw /extensions_of -Es in Htvs. by injection Htvs as <-. }
  pose proof (chosen_byte _ _ _ _ Hv Hs eq_refl) as Hsb. destruct Hs as [Es|[_ Es]]; [|done].
  rw /extensions_of -Es in Htvs. destruct (zlen seq >? 1) eqn:E1.
  - wp_seq. cbn [maybe_tlv]. wp_seq. iApply (wp_tlv_data with "Hs"). iIntros "Hs". wp_seq.
    iApply wp_extension_list; [done|done|by intros ->|exact Htvs|]. iIntros (id) "%Hid".
    iAssert (maybe_tlv ps 0x30 (Some seq)) with "Hs" as "Hs".
    destruct id as [id|]; wp_value; wp_seq; iApply (wp_erase with "Hs"); wp_value; iFrame "Ht"; cbn [fst snd];
      [iExists (Some id)|iExists None]; iPureIntro; by split_and!.
  - injection Htvs as <-. wp_seq. wp_value. wp_seq. iApply (wp_erase with "Hs"). wp_value. iFrame "Ht". cbn [fst snd].
    iExists None. iPureIntro. by split; [left|].
Qed.

Lemma wp_tbs_walk oidSizeMax oid p tvs g Φ :
  0 < oidSizeMax <= zlen oid → Forall (λ tv, Forall is_byte tv.2) tvs → Forall readable tvs →
  tlv_list p tvs -∗
  (∀ id, ⟦chosen nf id (tbs_id oidSizeMax tvs)⟧ -∗ tlv_list p tvs -∗ Φ (outcome oid id) g) -∗
  wp nf (walk_with (λ _, ub) (tbsCert_body oidSizeMax) p (false, oid, 0)) g Φ.
Proof.
  iIntros (Hmax Hb Hr) "Hp HΦ".
  iApply (wp_walk _ _ _ tvs
    (λ pre s g', ⟦(∀ post, tvs = pre ++ post → tbs_id oidSizeMax tvs = tbs_id oidSizeMax post) ∧ s = (false, oid, 0) ∧ g' = g⟧)%I
    (λ s g', ∃ id, ⟦chosen nf id (tbs_id oidSizeMax tvs) ∧ s = outcome oid id ∧ g' = g⟧)%I with "Hp [] [HΦ]").
  - intros pre t v post b s g0 E. iIntros "[Ht %H]". destruct H as (Hs & -> & ->).
    assert (Forall is_byte v ∧ readable (t, v)) as [Hv Hrv].
    { rw E in Hb. rw E in Hr. apply Forall_app in Hb as [_ Hb]. apply Forall_app in Hr as [_ Hr].
      by inversion_clear Hb; inversion_clear Hr. }
    iApply (wp_wand with "[Ht]"); [by iApply (tbsCert_body_ok _ _ _ _ _ post with "Ht")|].
    rw (Hs _ E). iIntros ([go s'] g') "[$ H]". cbn [fst snd]. destruct go; [|done].
    iDestruct "H" as %(H & -> & ->). iPureIntro. split; [|done]. intros post' E'. rw E -app_assoc in E'.
    apply app_inv_head in E' as [= <-]. done.
  - intros s g0. iIntros "%H". destruct H as (Hs & -> & ->). iExists None. iPureIntro. split; [|done]. left.
    specialize (Hs []). rw app_nil_r in Hs. by rw Hs.
  - iPureIntro. split; [|done]. intros post E. by rw E.
  - iIntros (s g') "Hp (%id & %H)". destruct H as (Hid & -> & ->). iApply ("HΦ" with "[//] Hp").
Qed.

(** The lists of the main objects and what follows. *)
Lemma wp_tbs_objects oidSizeMax oid t v tvs g Φ :
  0 < oidSizeMax <= zlen oid → Forall is_byte v → objects v = Some tvs → Forall readable tvs →
  tlv t 0x30 v -∗
  (∀ id, ⟦chosen nf id (tbs_id oidSizeMax (some_objects 5 tvs))⟧ -∗ tlv t 0x30 v -∗ Φ (outcome oid id) g) -∗
  wp nf (let* '(base, count) := extractList_of t in
         let* found := (if negb (isNull base) && (count >? 5)
                        then walk_with (λ _, ub) (tbsCert_body oidSizeMax) base (false, oid, 0)
                        else ret (false, oid, 0)) in
         ERASE_BERTLV_LIST base ;; ret found) g Φ.
Proof.
  iIntros (Hmax Hv Ho Hr) "Ht HΦ". wp_seq. iApply (wp_extractList_of with "Ht"); [done..|]. iIntros (p c) "Ht [%Hn|[-> Hp]]".
  { destruct Hn as [-> ->]. cbn [isNull negb andb]. wp_seq. wp_value. wp_seq. wp_value. wp_value.
    iApply ("HΦ" $! None with "[] Ht"). iPureIntro. by right. }
  iDestruct (tlv_list_null with "Hp") as "[%En Hp]". rw En /some_objects. wp_seq. destruct (zlen tvs mod 256 >? 5) eqn:E5.
  - destruct (bool_decide (tvs = [])) eqn:Ee; [apply bool_decide_eq_true in Ee; by subst|]. cbn [negb andb].
    iApply (wp_tbs_walk with "Hp"); [done|by eapply parse_list_byte|done|]. iIntros (id) "%Hid Hp".
    wp_seq. iApply (wp_erase_list with "Hp"). wp_value. by iApply ("HΦ" with "[//] Ht").
  - rw andb_comm. cbn [andb]. wp_value. wp_seq. iApply (wp_erase_list with "Hp"). wp_value.
    iApply ("HΦ" $! None with "[] Ht"). iPureIntro. by left.
Qed.

(** The result and the parameters afterwards. *)
Definition extraction (oid : list Z) (id : option (list Z)) : bool * option (list Z) * option Z :=
  let '(res, oid, size) := outcome oid id in (res, Some oid, Some size).

Lemma oid_extracted oidSizeMax oid cert g Φ :
  0 < oidSizeMax <= zlen oid → Forall is_byte cert → complete cert →
  (∀ id, ⟦chosen nf id (certificate_id oidSizeMax cert)⟧ -∗ Φ (extraction oid id) g) -∗
  wp nf (extractOIDfromCertificate (Some cert) (zlen cert) (Some oid) (Some 0) oidSizeMax) g Φ.
Proof.
  iIntros (Hmax Hb (main & Hmain & Hr)) "HΦ". rw /extractOIDfromCertificate /certificate_id.
  destruct (zlen cert >? 15) eqn:E15; cbn [andb]; [|wp_value; iApply ("HΦ" $! None); by iLeft].
  assert ((oidSizeMax >? 0) = true) as -> by lia. rw Hmain. cbn [mbind option_bind].
  iAssert (∀ id, ⟦chosen nf id (tbs_id oidSizeMax (some_objects 5 main))⟧ -∗ Φ (extraction oid id) g)%I with "HΦ" as "HΦ".
  assert (chosen nf None (tbs_id oidSizeMax (some_objects 5 []))) as Hnone by by left.
  wp_seq. iApply extractTag8_spec; [done..|]. iIntros (pm b) "Hm".
  iDestruct (find_post_maybe with "Hm") as (rm) "[%Hm Hm]". rw /tbs_objects in Hmain.
  wp_seq. iApply (wp_longer_than with "Hm"). iIntros "Hm". wp_seq.
  destruct rm as [m|].
  2: { wp_value. wp_seq. iApply (wp_erase _ _ _ None with "Hm"). wp_value. iApply ("HΦ" $! None). iPureIntro.
       destruct Hm as [Em|[-> _]]; [|by right]. rw -Em in Hmain. by injection Hmain as <-. }
  pose proof (chosen_byte _ _ _ _ Hb Hm eq_refl) as Hmb. destruct Hm as [Em|[_ Em]]; [|done]. rw -Em in Hmain.
  destruct (zlen m >? 12); [|injection Hmain as <-; wp_value; wp_seq; iApply (wp_erase _ _ _ (Some m) with "Hm"); wp_value; by iApply ("HΦ" $! None)].
  cbn [maybe_tlv]. wp_seq. iApply (wp_extractTag_of with "Hm"); [done..|]. iIntros (pt rt) "%Ht Hm Ht".
  iAssert (maybe_tlv pm 0x30 (Some m)) with "Hm" as "Hm".
  wp_seq. iApply (wp_longer_than with "Ht"). iIntros "Ht". wp_seq.
  destruct rt as [tbs|].
  2: { wp_value. wp_seq. iApply (wp_erase with "Ht"). wp_value. wp_seq. iApply (wp_erase _ _ _ (Some m) with "Hm"). wp_value.
       iApply ("HΦ" $! None). iPureIntro. destruct Ht as [Et|[-> _]]; [|by right]. rw -Et in Hmain. by injection Hmain as <-. }
  pose proof (chosen_byte _ _ _ _ Hmb Ht eq_refl) as Htb. destruct Ht as [Et|[_ Et]]; [|done]. rw -Et in Hmain.
  destruct (zlen tbs >? 10).
  - cbn [maybe_tlv]. iApply (wp_tbs_objects with "Ht"); [done..|]. iIntros (id) "%Hid Ht". wp_seq.
    iApply (wp_erase _ _ _ (Some tbs) with "Ht"). wp_value. wp_seq. iApply (wp_erase _ _ _ (Some m) with "Hm").
    destruct id; wp_value; by iApply ("HΦ" with "[//]").
  - injection Hmain as <-. wp_value. wp_seq. iApply (wp_erase with "Ht"). wp_value. wp_seq. iApply (wp_erase _ _ _ (Some m) with "Hm").
    wp_value. by iApply ("HΦ" $! None).
Qed.
End proofs.

(** *** Parsing a certificate *)

Definition usable (oidSizeMax : Z) (id : list Z) : option (list Z) :=
  if (zlen id >? 0) && (zlen id <=? oidSizeMax) then Some id else None.

Lemma tlvs_size tvs : 2 * zlen tvs <= zlen (tlvs_bytes tvs).
Proof.
  induction tvs as [|[t v] tvs IH]; [done|]. rw tlvs_bytes_zlen zlen_cons. pose proof (tlv_bytes_size t v). zlen_pos. lia.
Qed.

Lemma named_bytes tvs : Forall sane tvs → zlen (tlvs_bytes tvs) < 2 ^ 24 → Forall valid_tlv tvs ∧ Forall is_byte (tlvs_bytes tvs).
Proof. intros H Hs. pose proof (big_objects _ H Hs). split; [done|]. by apply tlvs_bytes_byte. Qed.

Lemma sane_extension id critical data :
  Forall is_byte id → from_option (Forall is_byte) True critical → Forall is_byte data →
  Forall sane ((0x06, id) :: opt_tlv 0x01 critical ++ [(0x04, data)]).
Proof.
  intros Hi Hc Hd. constructor; [by split; [apply tag_simple|]|]. apply Forall_app. split.
  - apply opt_tlv_sane; [by apply tag_simple|]. by intros w ->.
  - apply Forall_singleton. by split; [apply tag_simple|].
Qed.

(** The objects of an extension. *)
Lemma extension_parsed e :
  valid_extension e → zlen (tlvs_bytes (extension_objects e)) < 2 ^ 24 →
  Forall valid_tlv (extension_objects e) ∧ Forall is_byte (tlvs_bytes (extension_objects e)).
Proof.
  intros He Hs. apply named_bytes; [|done]. destruct e as [critical names|id critical data].
  - destruct He as (_ & Hn & Hc). apply sane_extension; [repeat constructor; rw /is_byte; lia|done|].
    assert (zlen (tlv_bytes 0x30 (tlvs_bytes names)) < 2 ^ 24) as Hd.
    { eapply (Z.le_lt_trans _ (zlen (tlvs_bytes (extension_objects (SubjectAltName critical names))))); [|done].
      etrans; [|apply (value_size 0x04)]; [|cbn; rw !elem_of_cons elem_of_app elem_of_cons; tauto]. lia. }
    pose proof (tlv_bytes_size 0x30 (tlvs_bytes names)). assert (zlen (tlvs_bytes names) < 2 ^ 24) as Hns by lia.
    apply tlv_bytes_byte; [by apply tag_simple| |done]. by apply named_bytes.
  - destruct He as (_ & Hi & Hc & Hd). by apply sane_extension.
Qed.

Lemma extension_first t e : Forall valid_tlv (extension_objects e) →
  (first_tag t (tlvs_bytes (extension_objects e))).2 = snd <$> head (filter (λ tv, tv.1 = t) (extension_objects e)).
Proof. apply first_tag_tlvs. Qed.

Lemma filter_extension id critical data :
  filter (λ tv : Z * list Z, tv.1 = 0x06) ((0x06, id) :: opt_tlv 0x01 critical ++ [(0x04, data)]) = [(0x06, id)] ∧
  filter (λ tv : Z * list Z, tv.1 = 0x04) ((0x06, id) :: opt_tlv 0x01 critical ++ [(0x04, data)]) = [(0x04, data)].
Proof. by destruct critical. Qed.

Lemma names_size critical names : names ≠ [] →
  zlen (tlvs_bytes names) + 2 <= zlen (tlvs_bytes (extension_objects (SubjectAltName critical names))) ∧
  2 <= zlen (tlvs_bytes names) ∧ zlen (tlvs_bytes names) + 2 <= zlen (tlv_bytes 0x30 (tlvs_bytes names)).
Proof.
  intros Hn. pose proof (tlv_bytes_size 0x30 (tlvs_bytes names)) as H1. pose proof (tlvs_size names) as H2.
  assert (1 <= zlen names) by (destruct names; [done|]; rw zlen_cons; zlen_pos; lia).
  assert (zlen (tlv_bytes 0x30 (tlvs_bytes names)) + 2 <= zlen (tlvs_bytes (extension_objects (SubjectAltName critical names)))).
  { apply (value_size 0x04). cbn. rw !elem_of_cons elem_of_app elem_of_cons. tauto. }
  lia.
Qed.

Lemma registered_names max critical names :
  valid_extension (SubjectAltName critical names) →
  zlen (tlvs_bytes (extension_objects (SubjectAltName critical names))) < 2 ^ 24 →
  registered_id max (tlvs_bytes (extension_objects (SubjectAltName critical names))) =
    (snd <$> head (filter (λ tv, tv.1 = 0x88) names)) ≫= usable max.
Proof.
  intros He Hs. destruct (extension_parsed _ He Hs) as [Hv _]. destruct He as (Hne & Hn & _).
  destruct (names_size critical names Hne) as (Hs1 & Hs2 & Hs3).
  assert (zlen (tlvs_bytes names) < 2 ^ 24) as Hns by lia. destruct (named_bytes _ Hn Hns) as [Hnv Hnb].
  rw /registered_id extension_first //. cbn [extension_objects]. rw (proj2 (filter_extension _ _ _)). cbn [head fmap option_fmap option_map snd mbind option_bind].
  rw (_ : (zlen (tlv_bytes 0x30 (tlvs_bytes names)) >? 3) = true); [|lia].
  rw first_only; [|by apply tag_simple|done|done]. cbn [mbind option_bind]. rw /registered_name (_ : (zlen (tlvs_bytes names) >? 1) = true); [|lia].
  by rw first_tag_tlvs.
Qed.

Lemma subject_id_named max es :
  Forall valid_extension es → Forall (λ e, zlen (tlvs_bytes (extension_objects e)) < 2 ^ 24) es →
  subject_id max (extension_object <$> es) = named_id es ≫= usable max.
Proof.
  induction 1 as [|e es He _ IH]; [done|]. intros Hs. inversion_clear Hs as [|?? Hse Hs'].
  rw fmap_cons. cbn [subject_id extension_object]. rw (_ : (0x30 =? 0x30) = true) //.
  destruct (extension_parsed e He Hse) as [Hv _]. rw extension_first //.
  destruct e as [critical names|id critical data].
  - cbn [extension_objects]. rw (proj1 (filter_extension _ _ _)). cbn [head fmap option_fmap option_map snd named_id].
    by apply (registered_names max critical names).
  - destruct He as (Hid & _). cbn [extension_objects]. rw (proj1 (filter_extension _ _ _)).
    cbn [head fmap option_fmap option_map snd named_id]. destruct (zlen id =? 3); [|done]. rw bool_decide_eq_false_2 //. by apply IH.
Qed.

(** The sizes inside of a certificate. *)
Lemma certificate_sizes c : valid_certificate c →
  zlen (tlvs_bytes (certificate_objects c)) + 2 <= zlen (certificate_bytes c) ∧
  zlen (tlvs_bytes (tbs_fields c)) + 2 <= zlen (tlvs_bytes (certificate_objects c)) ∧
  zlen (tlv_bytes 0x30 (extension_sequence c)) + 2 <= zlen (tlvs_bytes (tbs_fields c)) ∧
  zlen (extension_sequence c) + 2 <= zlen (tlv_bytes 0x30 (extension_sequence c)) ∧
  12 <= zlen (tlvs_bytes (tbs_fields c)) ∧ 2 <= zlen (extension_sequence c) ∧
  Forall (λ e, zlen (tlvs_bytes (extension_objects e)) + 2 <= zlen (extension_sequence c)) (c_extensions c).
Proof.
  intros (_ & _ & Hf & _ & He & _). split_and!.
  - apply tlv_bytes_size.
  - apply (value_size 0x30). by left.
  - apply (value_size 0xA3). rw /tbs_fields elem_of_app elem_of_cons. by right; left.
  - apply tlv_bytes_size.
  - etrans; [|apply tlvs_size]. rw /tbs_fields zlen_app zlen_cons. change (zlen []) with 0. lia.
  - etrans; [|apply tlvs_size]. rw zlen_fmap. lia.
  - apply Forall_forall. intros e Hin. apply (value_size 0x30). by apply list_elem_of_fmap_2 with (f := extension_object) in Hin.
Qed.

Lemma sequence_parsed c : valid_certificate c →
  Forall valid_tlv (extension_object <$> c_extensions c) ∧ Forall is_byte (extension_sequence c) ∧
  Forall valid_tlv (tbs_fields c) ∧ Forall is_byte (tlvs_bytes (tbs_fields c)) ∧
  Forall valid_tlv (certificate_objects c) ∧ Forall is_byte (tlvs_bytes (certificate_objects c)).
Proof.
  intros Hc. destruct (certificate_sizes c Hc) as (S1 & S2 & S3 & S4 & S5 & S6 & S7).
  destruct Hc as (Hf & _ & _ & He & _ & Hsig & Hs). pose proof (zlen_nonneg (extension_sequence c)).
  assert (Forall valid_tlv (extension_object <$> c_extensions c) ∧ Forall is_byte (extension_sequence c)) as [Hev Heb].
  { apply named_bytes; [|rw /extension_sequence in S1 S2 S3 S4 |- *; lia]. apply Forall_fmap, Forall_forall. intros e Hin.
    rw Forall_forall in He. rw Forall_forall in S7. split; [by apply tag_simple|]. apply extension_parsed; [by apply He|].
    specialize (S7 e Hin). lia. }
  assert (Forall valid_tlv (tbs_fields c) ∧ Forall is_byte (tlvs_bytes (tbs_fields c))) as [Htv Htb].
  { apply named_bytes; [|lia]. apply Forall_app. split; [done|]. apply Forall_singleton.
    split; [by apply tag_simple|]. apply tlv_bytes_byte; [by apply tag_simple|done|lia]. }
  destruct (named_bytes (certificate_objects c)) as [Hov Hob]; [|lia|by split_and!].
  constructor; [by split; [apply tag_simple|]|done].
Qed.

Lemma extensions_read c : valid_certificate c →
  extensions_of (tlv_bytes 0x30 (extension_sequence c)) = Some (extension_object <$> c_extensions c).
Proof.
  intros Hc. destruct (certificate_sizes c Hc) as (S1 & S2 & S3 & S4 & S5 & S6 & _).
  destruct (sequence_parsed c Hc) as (Hev & Heb & _). destruct Hc as (_ & _ & _ & _ & _ & _ & Hs).
  rw /extensions_of first_only; [|by apply tag_simple|done|lia]. rw (_ : (zlen (extension_sequence c) >? 1) = true); [|lia].
  by apply objects_tlvs.
Qed.

Lemma tbs_id_fields max fields v es :
  Forall (λ tv, tv.1 ≠ 0xA3) fields → extensions_of v = Some es →
  tbs_id max (fields ++ [(0xA3, v)]) = subject_id max (some_objects 0 es).
Proof.
  intros Hf Ev. induction Hf as [|[t w] fields Ht _ IH]; cbn [app tbs_id].
  - rw (_ : (0xA3 =? 0xA3) = true) // Ev //.
  - cbn [fst] in Ht. by rw (proj2 (Z.eqb_neq _ _) Ht).
Qed.

Lemma certificate_read c max : valid_certificate c →
  Forall is_byte (certificate_bytes c) ∧ complete (certificate_bytes c) ∧
  certificate_id max (certificate_bytes c) = named_id (c_extensions c) ≫= usable max.
Proof.
  intros Hc. destruct (certificate_sizes c Hc) as (S1 & S2 & S3 & S4 & S5 & S6 & S7).
  destruct (sequence_parsed c Hc) as (Hev & Heb & Htv & Htb & Hov & Hob). pose proof (extensions_read c Hc) as He.
  destruct Hc as (Hf & Ha3 & Hn & Hex & Hn' & Hsig & Hs).
  assert (Forall is_byte (certificate_bytes c)) as Hb by (apply tlv_bytes_byte; [by apply tag_simple|done|lia]).
  assert (tbs_objects (certificate_bytes c) = Some (tbs_fields c)) as Ht.
  { rw /tbs_objects first_only; [|by apply tag_simple|done|lia]. rw (_ : (zlen (tlvs_bytes (certificate_objects c)) >? 12) = true); [|lia].
    rw first_tag_tlvs // /certificate_objects filter_cons_True //. cbn [head fmap option_fmap option_map snd].
    rw (_ : (zlen (tlvs_bytes (tbs_fields c)) >? 10) = true); [|lia]. by apply objects_tlvs. }
  split; [done|split].
  - exists (tbs_fields c). split; [done|]. apply Forall_app. split.
    + eapply Forall_impl; [exact Ha3|]. intros tv Hne E. done.
    + apply Forall_singleton. intros _. cbn [snd]. by rw He.
  - rw /certificate_id Ht (_ : (zlen (certificate_bytes c) >? 15) = true); [|lia]. cbn [mbind option_bind].
    assert (zlen (tbs_fields c) = zlen (c_fields c) + 1) as Hl by (rw /tbs_fields zlen_app zlen_cons; by change (zlen []) with 0).
    rw /some_objects Hl Z.mod_small; [|lia]. rw (_ : (zlen (c_fields c) + 1 >? 5) = true); [|lia].
    rw (tbs_id_fields max _ _ _ Ha3 He) /some_objects zlen_fmap Z.mod_small; [|lia].
    rw (_ : (zlen (c_extensions c) >? 0) = true); [|lia]. apply subject_id_named; [done|].
    eapply Forall_impl; [exact S7|]. cbn. intros e Hle. lia.
Qed.

(** ** The identifier of a certificate *)

(** C11: Extraction of the registered identifier (round trip): for every certificate of less than 2^24 bytes, described by 5 to
    254 fields in front of its extensions, 1 to 255 extensions with identifiers of any length, each subjectAltName with at
    least one name, and what follows the signed part, the tags being well formed, and for every pattern of allocation failures,
    the function walks the encoded certificate without a read or write out of bounds, releases every object it made, and
    answers the first registered identifier of the first extension with names of the subject, when every extension in front of
    that one has an identifier of three bytes and the registered identifier is not empty and fits the array of the caller;
    otherwise, and when an allocation failed, it answers false and leaves the array alone. An extension with a longer
    identifier, like authorityInfoAccess, in front of the names so makes the certificate one without an identifier. *)
Theorem certificate_roundtrip {G} (nf : bool) (c : certificate) (oidSizeMax : Z) (oid : list Z) (g : G) :
  valid_certificate c → 0 < oidSizeMax <= zlen oid →
  triple nf emp%I
    (extractOIDfromCertificate (Some (certificate_bytes c)) (zlen (certificate_bytes c)) (Some oid) (Some 0) oidSizeMax) g
    (λ r g', ⟦g' = g ∧ ∃ id, chosen nf id (named_id (c_extensions c) ≫= usable oidSizeMax) ∧ r = extraction oid id⟧)%I.
Proof.
  intros Hc Hmax. destruct (certificate_read c oidSizeMax Hc) as (Hb & Hcomp & Hid). iIntros "_".
  iApply oid_extracted; [done..|]. iIntros (id) "%H". rw Hid in H. iPureIntro. by eauto.
Qed.

(** An extension whose identifier has not three bytes, like authorityInfoAccess
    (1.3.6.1.5.5.7.1.1), hides the names behind it, whatever the names are. *)
Lemma long_extension_refused oidSizeMax v id rest :
  (first_tag 0x06 v).2 = Some id → zlen id ≠ 3 → subject_id oidSizeMax ((0x30, v) :: rest) = None.
Proof. intros Hf Hl. cbn [subject_id]. rw Hf (proj2 (Z.eqb_neq _ _) Hl). by case_match. Qed.

(** The verdict on the identifier of an activation code, which is empty or
    equal to the text of the identifier of the certificate. *)
Definition oid_verdict (expected : list Z) (id : option (list (list Z))) : LPA_API_ERROR :=
  match expected with
  | [] => LPA_NO_ERROR
  | _ => match id with
         | None => LPA_ERROR_INVALID_SERVERCERTIFICATE
         | Some nodes => if streqb expected (oid_text (vlq_value <$> nodes)) then LPA_NO_ERROR else LPA_ERROR_OID_MISMATCH
         end
  end.

Lemma converted_text nodes cur v :
  Forall is_node nodes → nodes ≠ [] → zlen cur = 20 → zlen (concat nodes) <= LPA_OID_SIZE → v = concat nodes →
  ∃ ok text s, convertASN1_OIDtoText cur (Some (put (fill 0 LPA_OID_SIZE) v)) (zlen v) (Some (fill 0 LPA_OID_SIZE)) LPA_OID_SIZE =
      Some (ok, Some text) ∧ c_str text = Some s ∧
    ∀ expected, expected ≠ [] → zlen expected < LPA_OID_SIZE → streqb expected s = streqb expected (oid_text (vlq_value <$> nodes)).
Proof.
  intros Hn Hne Hcur Hl ->.
  destruct (oid_converted nodes (drop (length (concat nodes)) (fill 0 LPA_OID_SIZE)) cur (fill 0 LPA_OID_SIZE)) as (ok & text & E & Hz & Hnz & H);
    [done..|]. change (zlen (fill 0 LPA_OID_SIZE)) with LPA_OID_SIZE in *.
  set (t := oid_text (vlq_value <$> nodes)) in *. rw /put E. destruct (Z.ltb_spec (zlen t) LPA_OID_SIZE) as [Ht|Ht].
  - destruct H as [-> ->]. eexists _, _, t. split; [done|]. split; [|done]. rw /text_buffer /fill.
    destruct (Z.to_nat (LPA_OID_SIZE - zlen t)) as [|k] eqn:Ek; [lia|]. by apply c_str_app.
  - destruct H as [-> H]. rw strlen_c_str in H. destruct (c_str text) as [s|] eqn:Es; [|done]. injection H as H.
    assert (s = []) as -> by (destruct s; [done|]; rw zlen_cons in H; zlen_pos; lia).
    eexists _, _, []. split; [done|]. split; [done|]. intros expected Hex Hlen. rw /streqb !bool_decide_eq_false_2 //.
    intros ->. lia.
Qed.

(** C10: The identifier check of a download (composition of the extraction, the conversion to text and the comparison), when no
    allocation fails: for every certificate described as in certificate_roundtrip, with extensions of any identifiers, and every
    identifier of an activation code, the download goes on exactly when the activation code has no identifier or one equal to
    the dotted text of the certificate's, and ends otherwise with a mismatch, or with an invalid certificate when it has none;
    nothing stays allocated. The certificate's identifier is the registered one that the extraction finds, at most
    LPA_OID_SIZE bytes, and a sequence of base-128 values of at most nine bytes each; a certificate with an extension whose
    identifier has not three bytes in front of subjectAltName has none. *)
Theorem certificate_checked {G} (c : certificate) (id : option (list (list Z))) (cur activationOid expected : list Z) (g : G) :
  valid_certificate c → named_id (c_extensions c) ≫= usable LPA_OID_SIZE = @concat Z <$> id →
  (∀ nodes, id = Some nodes → Forall is_node nodes ∧ nodes ≠ []) →
  zlen cur = 20 → zlen activationOid = LPA_OID_SIZE → c_str activationOid = Some expected →
  triple true emp%I
    (check_certificate_oid cur activationOid (DataS (Some (certificate_bytes c)) (zlen (certificate_bytes c))) LPA_NO_ERROR) g
    (λ e g', ⟦e = oid_verdict expected id ∧ g' = g⟧)%I.
Proof.
  intros Hc Hid Hnodes Hcur Hl He. pose proof (c_str_length _ _ He) as Hel. rw Hl in Hel. iIntros "_".
  rw /check_certificate_oid. cbn [no_error bool_decide]. wp_seq. rw strlen_c_str He. iApply (wp_of_option _ (zlen expected)).
  destruct expected as [|x expected]; [wp_value; by iPureIntro|].
  rw (_ : (zlen (x :: expected) >? 0) = true); [|rw zlen_cons; zlen_pos; lia]. wp_seq. cbn [val len].
  destruct (certificate_read c LPA_OID_SIZE Hc) as (Hb & Hcomp & Hread).
  iApply oid_extracted; [by split|done|done|]. iIntros (r) "%Hr". apply chosen_nf in Hr. rw Hread Hid in Hr. subst r.
  destruct id as [nodes|]; cbn [fmap option_fmap option_map extraction outcome]; [|by wp_value; iPureIntro].
  destruct (Hnodes nodes eq_refl) as [Hn Hne].
  assert (zlen (concat nodes) <= LPA_OID_SIZE) as Hcl.
  { destruct (named_id _) as [w|]; [|done]. cbn in Hid. rw /usable in Hid. destruct (_ && _) eqn:E; [|done].
    injection Hid as ->. zprop. lia. }
  destruct (converted_text nodes cur (concat nodes)) as (ok & text & s & E & Es & Hs); [done..|].
  cbn [default from_option Datatypes.id]. rw E. wp_seq. iApply wp_of_option. wp_seq. iApply wp_of_option. wp_seq.
  cbn [mbind option_bind]. rw Es. iApply wp_of_option. wp_value. by rw Hs.
Qed.

(** ** Witnesses *)

(** A certificate with a constraint, a name and the identifier 1.3.6.200. *)
Definition sample_nodes : list (list Z) := [[0x2B]; [0x06]; [0x81; 0x48]].
Definition sample_certificate : certificate :=
  Certificate [(0xA0, [2; 1; 2]); (0x02, [7]); (0x30, []); (0x30, [5; 0]); (0x30, [])]
    [Extension [0x55; 0x1D; 0x13] (Some [0xFF]) [0x30; 0]; SubjectAltName None [(0x82, [0x61]); (0x88, concat sample_nodes)]]
    [(0x30, []); (0x03, [0; 1; 2])].

Lemma sample_certificate_ok : valid_certificate sample_certificate.
Proof.
  assert (∀ tv, (0 <= tv.1 < 256 ∧ is_two_bytes_tag tv.1 = false) ∧ Forall is_byte tv.2 → sane tv) as H.
  { intros tv [[H1 H2] H3]. split; [by apply tag_simple|done]. }
  rw /valid_certificate. split_and!; try (vm_compute; done); repeat constructor; try apply H; try done;
    repeat split; try done; repeat constructor; try done; try apply H; repeat split; try done; repeat constructor; done.
Qed.

(** The same with an authorityInfoAccess in front of the names. *)
Definition access_certificate : certificate :=
  Certificate (c_fields sample_certificate)
    (Extension [0x2B; 6; 1; 5; 5; 7; 1; 1] None [0x30; 0] :: c_extensions sample_certificate) (c_signature sample_certificate).

Lemma access_certificate_ok : valid_certificate access_certificate.
Proof.
  destruct sample_certificate_ok as (H1 & H2 & H3 & H4 & H5 & H6 & H7).
  rw /valid_certificate. cbn [access_certificate c_fields c_extensions c_signature].
  split_and!; [exact H1|exact H2|by vm_compute|by vm_compute| |by vm_compute|by vm_compute|exact H6|by vm_compute].
  constructor; [|exact H4]. split; [done|]. repeat split; repeat constructor; done.
Qed.

Lemma sample_nodes_ok : Forall is_node sample_nodes ∧ sample_nodes ≠ [].
Proof.
  split; [|done]. constructor; [|constructor; [|constructor; [|constructor]]].
  - exists [], 0x2B. repeat split; try constructor; vm_compute; congruence.
  - exists [], 0x06. repeat split; try constructor; vm_compute; congruence.
  - exists [0x81], 0x48. repeat split; repeat constructor; vm_compute; congruence.
Qed.

Lemma certificate_roundtrip_witness :
  named_id (c_extensions sample_certificate) ≫= usable 16 = Some [0x2B; 0x06; 0x81; 0x48] ∧
  triple false emp%I
    (extractOIDfromCertificate (Some (certificate_bytes sample_certificate)) (zlen (certificate_bytes sample_certificate))
       (Some (fill 0 16)) (Some 0) 16) tt
    (λ r g', ⟦g' = tt ∧ ∃ id, chosen false id (named_id (c_extensions sample_certificate) ≫= usable 16) ∧
                r = extraction (fill 0 16) id⟧)%I.
Proof.
  split; [reflexivity|]. apply (certificate_roundtrip false sample_certificate 16 (fill 0 16) tt); [apply sample_certificate_ok|].
  vm_compute. split; congruence.
Defined.

(** The activation code of the certificate, and another one. *)
Definition oid_buffer (s : String.string) : list Z := put (fill 0 LPA_OID_SIZE) (chars s).

Lemma certificate_checked_witness :
  oid_verdict (chars "1.3.6.200"%string) (Some sample_nodes) = LPA_NO_ERROR ∧
  oid_verdict (chars "1.3.6.20"%string) (Some sample_nodes) = LPA_ERROR_OID_MISMATCH ∧
  triple true emp%I
    (check_certificate_oid (fill 7 20) (oid_buffer "1.3.6.200") (DataS (Some (certificate_bytes access_certificate))
       (zlen (certificate_bytes access_certificate))) LPA_NO_ERROR) tt
    (λ e g', ⟦e = LPA_ERROR_INVALID_SERVERCERTIFICATE ∧ g' = tt⟧)%I ∧
  triple true emp%I
    (check_certificate_oid (fill 7 20) (oid_buffer "1.3.6.20") (DataS (Some (certificate_bytes sample_certificate))
       (zlen (certificate_bytes sample_certificate))) LPA_NO_ERROR) tt
    (λ e g', ⟦e = oid_verdict (chars "1.3.6.20"%string) (Some sample_nodes) ∧ g' = tt⟧)%I.
Proof.
  split; [reflexivity|]. split; [reflexivity|]. split.
  { apply (certificate_checked access_certificate None (fill 7 20) (oid_buffer "1.3.6.200") (chars "1.3.6.200"%string) tt);
      [apply access_certificate_ok|reflexivity|done|reflexivity|reflexivity|reflexivity]. }
  apply (certificate_checked sample_certificate (Some sample_nodes) (fill 7 20) (oid_buffer "1.3.6.20") (chars "1.3.6.20"%string) tt);
    [apply sample_certificate_ok|reflexivity| |reflexivity|reflexivity|reflexivity].
  intros nodes [= <-]. apply sample_nodes_ok.
Defined.
