(* ===== verification/Pending.v ===== *)
(** * Pending notifications

    The notifications that the eUICC keeps for the servers, in [lpa_manager.c]:
    their list, the data of one, its removal, the sequence number of a profile
    installation result, and [lpaManagerSendPendingNotification], which sends
    all of them in order. The delivery to a server ([_handleNotification], over
    HTTP) is an operation of the class [Server] below; the texts sent to the
    application and to the log are not modelled. *)

From Stdlib Require Import Sorting.Sorted.
From stdpp Require Import gmap.
From iris.bi Require Import bi.
From iris.proofmode Require Import proofmode.
From S2P Require Import Prelude CLib StateMonad ApiError Heap Wp Util Base64 RawData BerTlv TlvWalk.
From S2P Require Import SeMedia Apdu Es10 Es10b Bpp Es10c Profiles Rat Policy Metadata Incoming Notification.

Definition DER_ATTRIBUTE_TAG : Z := 0x80.
Definition SEQUENCE_TAG : Z := 0xA0.
Definition NOTIFICATION_METADATA_TAG : Z := 0xBF2F.
Definition ASN1_PRIMITIVE_ATTRIBUTE_TAG : Z := 0x80.
Definition ASN1_CONSTRUCTED_ATTRIBUTE_TAG : Z := 0xA0.
Definition LIST_NOTIFICATION_TAG : Z := 0xBF28.
Definition REMOVE_NOTIFICATION_FROM_LIST_TAG : Z := 0xBF30.
Definition RETRIEVE_NOTIFICATIONS_LIST_TAG : Z := 0xBF2B.

Definition LPA_NOTIFICATION_INSTALL : Z := 0.
Definition LPA_NOTIFICATION_ENABLE : Z := 1.
Definition LPA_NOTIFICATION_DISABLE : Z := 2.
Definition LPA_NOTIFICATION_DELETE : Z := 3.
Definition LPA_NOTIFICATION_UNKNOWN : Z := 0xFF.

Inductive LPA_DELETE_NOTIFICATION_STATUS :=
  | LPA_DELETE_NOTIFICATION_OK
  | LPA_DELETE_NOTIFICATION_NOTHING_TO_DELETE
  | LPA_DELETE_NOTIFICATION_UNDEFINED_ERROR
  | LPA_DELETE_NOTIFICATION_UNKNOWN.

(** The server that notifications are delivered to: [_handleNotification] with
    the address and the text of a notification. *)
Class Server (D : Type) := {
  _handleNotification : list Z → list Z → Heap.M (sdk D) bool
}.

Section code.
Context {D : Type}.
Abbreviation M := (Heap.M (sdk D)).

(** ** Code *)

(** *** The list of notifications *)

Definition _doExtractNotificationEventValue (ptrDataValue : option (list Z)) (dataLength : Z) : option Z :=
  match ptrDataValue with
  | Some v =>
      if dataLength =? 2 then
        b0 ← v.[0]; b1 ← v.[1];
        let value := u16 (Z.lor (Z.shiftl b0 8) b1) in
        Some (if value =? 0x0780 then LPA_NOTIFICATION_INSTALL
              else if value =? 0x0640 then LPA_NOTIFICATION_ENABLE
              else if value =? 0x0520 then LPA_NOTIFICATION_DISABLE
              else if value =? 0x0410 then LPA_NOTIFICATION_DELETE
              else LPA_NOTIFICATION_UNKNOWN)
      else Some LPA_NOTIFICATION_UNKNOWN
  | None => Some LPA_NOTIFICATION_UNKNOWN
  end.

(** The element of the list at [countNotification], from the objects of a
    notification; [true] for [isSequenceError]. *)
Definition store_notification (ptrNotificationTag80 ptrNotificationTag81 ptrNotificationTag0C : ptr)
    (l : LPA_PROFILE_NOTIFICATION_LIST) : M (bool * LPA_PROFILE_NOTIFICATION_LIST) :=
  let '(NotificationList count elements) := l in
  let* '(_, length80, value80) := tlv_data ptrNotificationTag80 in
  let* '(ok, seqNumber) := of_option (extractIntegerFromByteArray value80 length80 (Some 0)) in
  if ok : bool then
    let* old := of_option elements.[count] in
    let* '(_, length81, value81) := tlv_data ptrNotificationTag81 in
    let* notificationEvent := of_option (_doExtractNotificationEventValue value81 length81) in
    let* '(_, length0C, value0C) := tlv_data ptrNotificationTag0C in
    if length0C <=? LPA_MAX_NOTIFICATION_ADDRESS_RAW_DATA_SIZE then
      let* address := of_option (copy_value (notificationAddressRawData old) value0C length0C) in
      let* elements :=
        of_option elements.[count := Metadata (default 0 seqNumber) notificationEvent address length0C] in
      ret (false, NotificationList count elements)
    else
      let* elements :=
        of_option elements.[count := Metadata (default 0 seqNumber) notificationEvent
                                       (notificationAddressRawData old) 0] in
      setError LPA_ERROR_INSUFFICIENT_BUFFER ;;
      ret (true, NotificationList count elements)
  else setError LPA_ERROR_NOTIFICATION_INVALID_CARD_DATA ;; ret (true, l).

(** The body of the loop over the objects of the sequence. *)
Definition metadata_body (current : ptr) (l : LPA_PROFILE_NOTIFICATION_LIST)
    : M (bool * LPA_PROFILE_NOTIFICATION_LIST) :=
  let* '(tag, _, _) := load_BeerTLV current in
  if tag =? NOTIFICATION_METADATA_TAG then
    let* tag80 := extractTag_of 0x80 current in
    let* tag81 := extractTag_of 0x81 current in
    let* tag0C := extractTag_of 0x0C current in
    let* '(isSequenceError, l) :=
      (if negb (isNull tag80) && negb (isNull tag81) && negb (isNull tag0C)
       then store_notification tag80 tag81 tag0C l
       else setError LPA_ERROR_NOTIFICATION_INVALID_CARD_DATA ;; ret (true, l)) in
    let l := if isSequenceError : bool then l
             else NotificationList (countNotification l + 1) (notificationMetadataList l) in
    ERASE_BERTLV tag80 ;;
    ERASE_BERTLV tag81 ;;
    ERASE_BERTLV tag0C ;;
    ret (true, l)
  else ret (true, l).

Definition _doExtractMetadataForGetProfileNotificationList (l : option LPA_PROFILE_NOTIFICATION_LIST)
    (ptrData : option (list Z)) (dataSize : Z) : M (bool * option LPA_PROFILE_NOTIFICATION_LIST) :=
  match l, ptrData with
  | Some list, Some _ =>
      if dataSize >? 0 then
        let list := NotificationList 0 (notificationMetadataList list) in
        let* '(listTag, _) := berTLV_extractTagUInt16 LIST_NOTIFICATION_TAG ptrData dataSize in
        let* sequenceTag := (if isNull listTag then ret None else extractTag_of SEQUENCE_TAG listTag) in
        let* '(res, list, tlvList) :=
          (if isNull sequenceTag then ret (false, list, None)
           else
             let* filled := longer_than 0 sequenceTag in
             if filled : bool then
               let* '(tlvList, countTLVFound) := extractList_of sequenceTag in
               if (countTLVFound >? 0) && negb (isNull tlvList) then
                 let* list := walk metadata_body tlvList list in
                 ret (countTLVFound =? countNotification list, list, tlvList)
               else ret ((countTLVFound =? 0) && isNull tlvList, list, tlvList)
             else ret (true, list, None)) in
        ERASE_BERTLV listTag ;;
        ERASE_BERTLV sequenceTag ;;
        ERASE_BERTLV_LIST tlvList ;;
        ret (res, Some list)
      else ret (false, l)
  | _, _ => ret (false, l)
  end.

(** What is done with an answer to the request for the list. *)
Definition list_answer (sw dataBufferSize : Z) (list : LPA_PROFILE_NOTIFICATION_LIST)
    : M (bool * LPA_PROFILE_NOTIFICATION_LIST) :=
  if sw_success sw then
    if dataBufferSize =? 0 then ret (true, list)
    else
      let* data := data_of Manager in
      let* '(ok, list') := _doExtractMetadataForGetProfileNotificationList (Some list) data dataBufferSize in
      let list := default list list' in
      if ok : bool then ret (true, list) else fail LPA_ERROR_LOCAL_PROFILE_UNABLE_TO_EXTRACT_DATA list
  else fail LPA_ERROR_INVALID_SW list.

(** The repetition: an exchange that failed for another reason than chaining
    is repeated too, after its report. *)
Fixpoint list_loop (n : nat) (request : ptr) (list : LPA_PROFILE_NOTIFICATION_LIST)
    : M (bool * LPA_PROFILE_NOTIFICATION_LIST) :=
  match n with
  | O => ret (false, list)
  | S n =>
      let* '(sent, sw, dataBufferSize) := storeData_in Manager request None in
      if sent : bool then list_answer sw dataBufferSize list
      else
        let* e := getErrorNoClear in
        (if is_chaining_error e then (if (0 <? n)%nat then resetError else ret tt)
         else setError LPA_ERROR_NOTIFICATION_INCORRECT_CARD_RESPONSE) ;;
        list_loop n request list
  end.

Definition lpaManagerGetProfileNotificationList (l : option LPA_PROFILE_NOTIFICATION_LIST)
    : M (bool * option LPA_PROFILE_NOTIFICATION_LIST) :=
  match l with
  | Some list =>
      let list := NotificationList 0 (notificationMetadataList list) in
      let* request := berTLV_createAndBuildRawDataObject LIST_NOTIFICATION_TAG 0 None in
      if isNull request then ret (false, Some list)
      else
        let* '(res, list) := list_loop LPA_LOOP_NUMBER_FOR_CHAINED_GET_RESPONSE request list in
        ERASE_RAWDATAOBJECT request ;;
        ret (res, Some list)
  | None => ret (false, None)
  end.

(** *** The data of a notification *)

Definition _extractNotificationData (ptrDataBuffer : option (list Z)) (dataBufferSize : Z) (ptrRawDataNotification : ptr)
    : M bool :=
  if negb (isNull ptrRawDataNotification) && (dataBufferSize >? 0) then
    match ptrDataBuffer with
    | Some _ =>
        let* '(listTag, _) := berTLV_extractTagUInt16 RETRIEVE_NOTIFICATIONS_LIST_TAG ptrDataBuffer dataBufferSize in
        let* attribute :=
          (if isNull listTag then ret None else extractTag_of ASN1_CONSTRUCTED_ATTRIBUTE_TAG listTag) in
        let* res :=
          (if isNull attribute then ret false
           else
             let* '(_, length, value) := tlv_data attribute in
             rawDataObject_update ptrRawDataNotification value length ;;
             ret true) in
        ERASE_BERTLV listTag ;;
        ERASE_BERTLV attribute ;;
        ret res
    | None => ret false
    end
  else ret false.

(** The sequence number as an object of tag 80; the array that it is written to
    is only read where it was written. *)
Definition sequence_object (sequenceNumber : Z) : M (bool * ptr) :=
  let* '(ok, byteArraySequenceNumber, byteArraySequenceNumberSize) :=
    of_option (writeIntegerValueToByteArray sequenceNumber (Some (fill 0 16)) 16 (Some 0)) in
  if ok : bool then
    let* p := berTLV_createAndBuildRawDataObject DER_ATTRIBUTE_TAG (default 0 byteArraySequenceNumberSize)
                byteArraySequenceNumber in
    ret (true, p)
  else ret (false, None).

Definition wrap_some (tag : Z) (p : ptr) : M ptr := if isNull p then ret None else wrap_object tag p.

Definition _retrieveNotificationData (sequenceNumber : Z) (ptrRawDataNotification : ptr) : M bool :=
  if isNull ptrRawDataNotification then ret false
  else
    let* '(ok, sequence) := sequence_object sequenceNumber in
    if ok : bool then
      let* attribute := wrap_some ASN1_CONSTRUCTED_ATTRIBUTE_TAG sequence in
      let* request := wrap_some RETRIEVE_NOTIFICATIONS_LIST_TAG attribute in
      let* res :=
        (if isNull request then ret false
         else
           let* '(sent, sw, dataBufferSize) := storeData_in Manager request None in
           if sent : bool then
             if sw_success sw then
               let* data := data_of Manager in _extractNotificationData data dataBufferSize ptrRawDataNotification
             else setError LPA_ERROR_INVALID_SW ;; ret false
           else ret false) in
      ERASE_RAWDATAOBJECT sequence ;;
      ERASE_RAWDATAOBJECT attribute ;;
      ERASE_RAWDATAOBJECT request ;;
      ret res
    else ret false.

(** *** The removal of a notification *)

Definition _doExtractClearProfileNotificationResponse (ptrData : option (list Z)) (dataSize : Z)
    : M LPA_DELETE_NOTIFICATION_STATUS :=
  match ptrData with
  | Some _ =>
      if dataSize >? 0 then
        let* '(removeTag, _) := berTLV_extractTagUInt16 REMOVE_NOTIFICATION_FROM_LIST_TAG ptrData dataSize in
        let* attribute := (if isNull removeTag then ret None else extractTag16_of DER_ATTRIBUTE_TAG removeTag) in
        let* b := result_byte attribute in
        let status := match b with
                      | Some b => if b =? 0 then LPA_DELETE_NOTIFICATION_OK
                                  else if b =? 1 then LPA_DELETE_NOTIFICATION_NOTHING_TO_DELETE
                                  else if b =? 127 then LPA_DELETE_NOTIFICATION_UNDEFINED_ERROR
                                  else LPA_DELETE_NOTIFICATION_UNKNOWN
                      | None => LPA_DELETE_NOTIFICATION_UNKNOWN
                      end in
        ERASE_BERTLV removeTag ;;
        ERASE_BERTLV attribute ;;
        ret status
      else ret LPA_DELETE_NOTIFICATION_UNKNOWN
  | None => ret LPA_DELETE_NOTIFICATION_UNKNOWN
  end.

(** The error of a status; none for [OK]. *)
Definition delete_error (status : LPA_DELETE_NOTIFICATION_STATUS) : option LPA_API_ERROR :=
  match status with
  | LPA_DELETE_NOTIFICATION_OK => None
  | LPA_DELETE_NOTIFICATION_NOTHING_TO_DELETE => Some LPA_ERROR_NOTIFICATION_NOTHING_TO_DELETE
  | LPA_DELETE_NOTIFICATION_UNDEFINED_ERROR => Some LPA_ERROR_NOTIFICATION_UNDEFINED_ERROR
  | LPA_DELETE_NOTIFICATION_UNKNOWN => Some LPA_ERROR_NOTIFICATION_UNKNOWN_ERROR
  end.

Definition lpaManagerClearProfileNotification (sequenceNumber : Z) : M bool :=
  let* '(ok, sequence) := sequence_object sequenceNumber in
  if ok : bool then
    let* request := wrap_some REMOVE_NOTIFICATION_FROM_LIST_TAG sequence in
    let* res :=
      (if isNull request then ret false
       else
         let* '(sent, sw, dataBufferSize) := storeData_in Manager request None in
         let* res :=
           (if sent : bool then
              if sw_success sw then
                let* data := data_of Manager in
                let* status := _doExtractClearProfileNotificationResponse data dataBufferSize in
                match delete_error status with
                | None => ret true
                | Some e => setError e ;; ret false
                end
              else setError LPA_ERROR_INVALID_SW ;; ret false
            else ret false) in
         ERASE_RAWDATAOBJECT request ;;
         ret res) in
    ERASE_RAWDATAOBJECT sequence ;;
    ret res
  else ret false.

(** *** Sending the notifications *)

Section sending.
Context `{Server D}.

Definition _sendNotificationToServer (ptrProfileNotificationMetadata : metadata) (ptrRawDataNotification : ptr) : M bool :=
  let* '(data, n) := raw_bytes ptrRawDataNotification in
  let convBuffSize := n + n / 2 in
  let* tmpInfo := lpaCoreMemoryAlloc convBuffSize in
  if isNull tmpInfo then ret false
  else
    store tmpInfo (BBytes (fill 0 convBuffSize)) ;;
    let* out := load_bytes tmpInfo in
    let* '(encoded, out, _) := of_option (ffw_base64_encode data n (Some out) (Some 0) convBuffSize) in
    let out := default [] out in
    store tmpInfo (BBytes out) ;;
    let* res :=
      (if encoded : bool then
         let* text := of_option (c_str out) in
         let* address := of_option (rd_range (notificationAddressRawData ptrProfileNotificationMetadata) 0
                                      (notificationAddressRawDataSize ptrProfileNotificationMetadata)) in
         _handleNotification address text
       else ret false) in
    lpaCoreMemoryFree tmpInfo ;;
    ret res.

(** The attempts to retrieve a notification, with [n] to go, and its sending. *)
Fixpoint deliver_loop (n : nat) (m : metadata) (ptrRawDataNotification : ptr) : M bool :=
  match n with
  | O => ret false
  | S n =>
      let* ok := _retrieveNotificationData (seqNumber m) ptrRawDataNotification in
      if ok : bool then _sendNotificationToServer m ptrRawDataNotification
      else
        let* e := getErrorNoClear in
        (if is_chaining_error e && (0 <? n)%nat then resetError ;; rawDataObject_clear ptrRawDataNotification
         else ret tt) ;;
        deliver_loop n m ptrRawDataNotification
  end.

(** The loop over the notifications, with [n] to go from [notificationManaged]
    on: [countNotificationSend] and [firstEncounteredErrorCode]. *)
Fixpoint pending_loop (n : nat) (notificationManaged : Z) (elements : list metadata) (ptrRawDataNotification : ptr)
    (countNotificationSend : Z) (firstEncounteredErrorCode : LPA_API_ERROR) : M (Z * LPA_API_ERROR) :=
  match n with
  | O => ret (countNotificationSend, firstEncounteredErrorCode)
  | S n =>
      let* m := of_option elements.[notificationManaged] in
      rawDataObject_clear ptrRawDataNotification ;;
      let* sendItSuccessfully := deliver_loop LPA_LOOP_NUMBER_FOR_CHAINED_GET_RESPONSE m ptrRawDataNotification in
      let* countNotificationSend :=
        (if sendItSuccessfully : bool
         then lpaManagerClearProfileNotification (seqNumber m) ;; ret (countNotificationSend + 1)
         else ret countNotificationSend) in
      let* e := getErrorNoClear in
      resetError ;;
      pending_loop n (notificationManaged + 1) elements ptrRawDataNotification countNotificationSend
        (if negb (no_error e) && no_error firstEncounteredErrorCode then e else firstEncounteredErrorCode)
  end.

(** The result structure holds [countNotificationDetected] and
    [countNotificationSend]; [profileNotificationList] and [listElementSwap]
    are local variables, uninitialised. *)
Definition lpaManagerSendPendingNotification (profileNotificationList : LPA_PROFILE_NOTIFICATION_LIST)
    (listElementSwap : metadata) (ptrSendingNotificationResult : option (Z * Z)) : M (bool * option (Z * Z)) :=
  match ptrSendingNotificationResult with
  | None => fail LPA_ERROR_INVALID_PARAMETER None
  | Some _ =>
      let* '(res, list) := lpaManagerGetProfileNotificationList (Some profileNotificationList) in
      let list := default profileNotificationList list in
      let detected := countNotification list in
      if res && (detected >? 0) then
        let* '(sorted, list) := of_option (_sortNotificationList listElementSwap list) in
        if sorted : bool then
          let* p := rawDataObject_allocate in
          if isNull p then fail LPA_ERROR_INSUFFICIENT_BUFFER (Some (detected, 0))
          else
            let* '(sent, firstEncounteredErrorCode) :=
              pending_loop (Z.to_nat detected) 0 (notificationMetadataList list) p 0 LPA_NO_ERROR in
            rawDataObject_free p ;;
            (if no_error firstEncounteredErrorCode then ret tt
             else resetError ;; setError firstEncounteredErrorCode) ;;
            ret (true, Some (detected, sent))
        else fail LPA_ERROR_PROCESSING_ERROR (Some (detected, 0))
      else ret (res, Some (0, 0))
  end.
End sending.

(** *** The sequence number of an installation *)

Definition extractSeqNumbFromPIR (ptrPir : option PROFILE_INSTALLATION_RESULT) (ptrSeqNumb : option Z)
    : M (bool * option Z) :=
  match ptrPir, ptrSeqNumb with
  | Some pir, Some _ =>
      let result := ap_hex (profileInstallationResultTlv pir) in
      let* filled := (if hasResult pir then has_data result else ret false) in
      if filled : bool then
        let* '(data, n) := raw_bytes result in
        let* '(tagBF37, _) := berTLV_extractTagUInt16 0xBF37 data n in
        let* ok := longer_than 0 tagBF37 in
        let* tagBF27 := (if ok : bool then extractTag16_of 0xBF27 tagBF37 else ret None) in
        let* ok := longer_than 0 tagBF27 in
        let* tagBF2F := (if ok : bool then extractTag16_of 0xBF2F tagBF27 else ret None) in
        let* ok := longer_than 0 tagBF2F in
        let* tag80 := (if ok : bool then extractTag_of 0x80 tagBF2F else ret None) in
        let* ok := longer_than 0 tag80 in
        let* r :=
          (if ok : bool then
             let* '(_, length, value) := tlv_data tag80 in of_option (extractIntegerFromByteArray value length ptrSeqNumb)
           else ret (false, ptrSeqNumb)) in
        ERASE_BERTLV tag80 ;;
        ERASE_BERTLV tagBF2F ;;
        ERASE_BERTLV tagBF27 ;;
        ERASE_BERTLV tagBF37 ;;
        ret r
      else ret (false, ptrSeqNumb)
  | _, _ => ret (false, ptrSeqNumb)
  end.
End code.

(** ** Reference *)

(** The bytes of a sequence number. *)
Definition sequence_bytes (s : Z) : list Z := if s <=? 0xFF then [s] else [s / 256; s mod 256].
Definition retrieve_request (s : Z) : list Z :=
  tlv_bytes RETRIEVE_NOTIFICATIONS_LIST_TAG
    (tlv_bytes ASN1_CONSTRUCTED_ATTRIBUTE_TAG (tlv_bytes ASN1_PRIMITIVE_ATTRIBUTE_TAG (sequence_bytes s))).
Definition remove_request (s : Z) : list Z :=
  tlv_bytes REMOVE_NOTIFICATION_FROM_LIST_TAG (tlv_bytes DER_ATTRIBUTE_TAG (sequence_bytes s)).

(** The notification in an answer. *)
Definition notification_data (data : list Z) : option (list Z) :=
  (first_tag RETRIEVE_NOTIFICATIONS_LIST_TAG data).2 ≫= λ v, (first_tag ASN1_CONSTRUCTED_ATTRIBUTE_TAG v).2.

Definition remove_status (data : list Z) : LPA_DELETE_NOTIFICATION_STATUS :=
  match one_byte ((first_tag REMOVE_NOTIFICATION_FROM_LIST_TAG data).2 ≫= λ v, (first_tag DER_ATTRIBUTE_TAG v).2) with
  | Some b => if b =? 0 then LPA_DELETE_NOTIFICATION_OK
              else if b =? 1 then LPA_DELETE_NOTIFICATION_NOTHING_TO_DELETE
              else if b =? 127 then LPA_DELETE_NOTIFICATION_UNDEFINED_ERROR
              else LPA_DELETE_NOTIFICATION_UNKNOWN
  | None => LPA_DELETE_NOTIFICATION_UNKNOWN
  end.

(** What an exchange yields: the notification, if any, or the verdict on a
    removal, and the error that is reported. *)
Definition answered := (bool * Z * list Z * Z)%type.
Definition retrieved (x : answered) : option (list Z) := answer_data x ≫= notification_data.
Definition retrieve_error (x : answered) : option LPA_API_ERROR :=
  let '(sent, sw, _, _) := x in if sent && negb (sw_success sw) then Some LPA_ERROR_INVALID_SW else None.
Definition remove_error (x : answered) : option LPA_API_ERROR :=
  let '(sent, sw, buf, n) := x in
  if sent then
    if sw_success sw then delete_error (remove_status (take (Z.to_nat n) buf)) else Some LPA_ERROR_INVALID_SW
  else None.
Definition removed (x : answered) : bool := x.1.1.1 && bool_decide (remove_error x = None).

(** *** The list

    A notification of the eUICC: its number in one to four bytes, the operation,
    the address of its server and other objects. *)
Record notification := Notification {
  nt_number : list Z;
  nt_operation : list Z;
  nt_address : list Z;
  nt_more : list (Z * list Z)
}.
Definition notification_objects (n : notification) : list (Z * list Z) :=
  (0x80, nt_number n) :: (0x81, nt_operation n) :: (0x0C, nt_address n) :: nt_more n.
Definition notification_tlv (n : notification) : Z * list Z :=
  (NOTIFICATION_METADATA_TAG, tlvs_bytes (notification_objects n)).
Definition notifications_value (ns : list notification) : list Z := tlvs_bytes (notification_tlv <$> ns).
Definition list_bytes (ns : list notification) : list Z :=
  tlv_bytes LIST_NOTIFICATION_TAG (tlv_bytes SEQUENCE_TAG (notifications_value ns)).
Definition list_request : list Z := tlv_bytes LIST_NOTIFICATION_TAG [].

Definition valid_notification (n : notification) : Prop :=
  1 <= zlen (nt_number n) <= 4 ∧ Forall is_byte (nt_number n) ∧ Forall is_byte (nt_operation n) ∧
  zlen (nt_address n) <= LPA_MAX_NOTIFICATION_ADDRESS_RAW_DATA_SIZE ∧ Forall is_byte (nt_address n) ∧ Forall sane (nt_more n).
Definition valid_notifications (ns : list notification) : Prop :=
  Forall valid_notification ns ∧ zlen ns <= LPA_MAX_PROFILE_NOTIFICATION_LIST_METADATA_ELEMENT ∧
  zlen (list_bytes ns) < 2 ^ 24.

(** The operation: the first byte is the number of unused bits. *)
Definition operation_of (v : list Z) : Z :=
  if bool_decide (v = [7; 0x80]) then LPA_NOTIFICATION_INSTALL
  else if bool_decide (v = [6; 0x40]) then LPA_NOTIFICATION_ENABLE
  else if bool_decide (v = [5; 0x20]) then LPA_NOTIFICATION_DISABLE
  else if bool_decide (v = [4; 0x10]) then LPA_NOTIFICATION_DELETE
  else LPA_NOTIFICATION_UNKNOWN.

(** The element of the list, over what its array held. *)
Definition entry (n : notification) (old : metadata) : metadata :=
  Metadata (be_value (nt_number n) mod 2 ^ 16) (operation_of (nt_operation n))
    (put (notificationAddressRawData old) (nt_address n)) (zlen (nt_address n)).
Definition entries (ns : list notification) (elements : list metadata) : list metadata :=
  zip_with entry ns elements ++ drop (length ns) elements.

(** *** The number in an installation result: the object 80 of the notification
    in BF27 in BF37, if none of them is empty and the number has at most four
    bytes. *)
Definition inside (tag : Z) (o : option (list Z)) : option (list Z) :=
  match o with Some (b :: v) => (first_tag tag (b :: v)).2 | _ => None end.
Definition installation_number (data : list Z) : option Z :=
  match inside 0x80 (inside 0xBF2F (inside 0xBF27 (inside 0xBF37 (Some data)))) with
  | Some n => if (1 <=? zlen n) && (zlen n <=? 4) then Some (be_value n mod 2 ^ 16) else None
  | None => None
  end.

(** The result of an installation: its notification, other objects and a
    signature. *)
Definition installation_objects (before : list (Z * list Z)) (n : notification) (after : list (Z * list Z)) :=
  before ++ notification_tlv n :: after.
Definition installation_bytes before n after (signature : list Z) : list Z :=
  tlv_bytes 0xBF37 (tlvs_bytes [(0xBF27, tlvs_bytes (installation_objects before n after)); (0x5F37, signature)]).

(** The delivery, when no allocation fails: it leaves the heap alone. *)
Class Delivery (D : Type) `{Server D} := {
  deliver : list Z → list Z → sdk D → bool * sdk D;
  deliver_ok address text g Φ :
    Φ (deliver address text g).1 (deliver address text g).2 ⊢ wp true (_handleNotification address text) g Φ
}.

Section sending_reference.
Context `{Delivery D}.
Implicit Types (g : sdk D).

(** The sending of the data [v]: none when the text of [v] fills the buffer, so
    that its NUL is written behind it. *)
Definition send (m : metadata) (v : list Z) g : option (bool * sdk D) :=
  let room := zlen v + zlen v / 2 in
  if zlen v =? 0 then Some (false, g)
  else if text_size (zlen v) <? room then
    address ← rd_range (notificationAddressRawData m) 0 (notificationAddressRawDataSize m);
    Some (deliver address (b64_ref v) g)
  else if room <? text_size (zlen v) then Some (false, g)
  else None.

(** These are the sizes for which it is not defined. *)
Lemma send_undefined m v g :
  0 <= notificationAddressRawDataSize m <= zlen (notificationAddressRawData m) →
  send m v g = None ↔ zlen v ∈ [3; 8; 11; 16; 19].
Proof.
  intros Hm. rw /send /text_size !elem_of_cons elem_of_nil. zlen_pos. destruct (Z.eqb_spec (zlen v) 0) as [->|Hv]; [split; [done|lia]|].
  destruct (Z.ltb_spec (4 * ((zlen v + 2) / 3)) (zlen v + zlen v / 2)) as [Ht|Ht].
  { rw rd_range_Some; [|lia..]. split; [done|]. intros Hc. exfalso. dlia. }
  destruct (Z.ltb_spec (zlen v + zlen v / 2) (4 * ((zlen v + 2) / 3))) as [Ht'|Ht']; split; [done| |intros _; dlia|done].
  intros Hc. exfalso. dlia.
Qed.

(** A chaining error is cleared before another attempt. *)
Definition before_retry (n : nat) g : sdk D :=
  if is_chaining_error (errorCode g) && (0 <? n)%nat then set_errorCode LPA_NO_ERROR g else g.

(** The attempts to deliver a notification, with [n] to go. *)
Inductive attempts (m : metadata) : nat → sdk D → bool → sdk D → Prop :=
  | attempts_over g : attempts m O g false g
  | attempts_retrieved n g x a v r :
      exchanges_in Manager None (retrieve_request (seqNumber m)) g x a → retrieved x = Some v →
      send m v (answered_in Manager x a g) = Some r → attempts m (S n) g r.1 r.2
  | attempts_failed n g x a ok g' :
      exchanges_in Manager None (retrieve_request (seqNumber m)) g x a → retrieved x = None →
      attempts m n (before_retry n (reporting_opt (retrieve_error x) (answered_in Manager x a g))) ok g' →
      attempts m (S n) g ok g'.

(** The error to report at the end, and the globals before the next
    notification. *)
Definition note_error (first : LPA_API_ERROR) g : LPA_API_ERROR := if no_error first then errorCode g else first.
Definition cleared g : sdk D := set_errorCode LPA_NO_ERROR g.

(** All notifications, in order: those that a server accepted are removed; the
    number of them and the first error. *)
Inductive deliveries : list metadata → LPA_API_ERROR → sdk D → Z → LPA_API_ERROR → sdk D → Prop :=
  | deliveries_over first g : deliveries [] first g 0 first g
  | deliveries_sent m ms first g g1 x a g2 k first' g' :
      attempts m LPA_LOOP_NUMBER_FOR_CHAINED_GET_RESPONSE g true g1 →
      exchanges_in Manager None (remove_request (seqNumber m)) g1 x a →
      g2 = reporting_opt (remove_error x) (answered_in Manager x a g1) →
      deliveries ms (note_error first g2) (cleared g2) k first' g' →
      deliveries (m :: ms) first g (1 + k) first' g'
  | deliveries_unsent m ms first g g1 k first' g' :
      attempts m LPA_LOOP_NUMBER_FOR_CHAINED_GET_RESPONSE g false g1 →
      deliveries ms (note_error first g1) (cleared g1) k first' g' →
      deliveries (m :: ms) first g k first' g'.
End sending_reference.

(** ** Proofs *)

Section requests.
Context {D : Type}.
Implicit Types (g : sdk D).

Lemma sequence_bytes_facts s : 0 <= s < 2 ^ 16 →
  Forall is_byte (sequence_bytes s) ∧ 1 <= zlen (sequence_bytes s) <= 2 ∧
  writeIntegerValueToByteArray s (Some (fill 0 16)) 16 (Some 0) =
    Some (true, Some (sequence_bytes s ++ fill 0 (16 - zlen (sequence_bytes s))), Some (zlen (sequence_bytes s))).
Proof.
  intros Hs. change (2 ^ 16) with 65536 in Hs. rw /sequence_bytes /writeIntegerValueToByteArray.
  cbn [Z.gtb Z.compare]. destruct (Z.leb_spec s 0xFF) as [H|H].
  - split_and!; [repeat constructor; rw /is_byte; lia|done|done|]. cbn. rw /u8 Z.mod_small //. lia.
  - rw (proj2 (Z.leb_le s 0xFFFF)); [|lia]. split_and!; [repeat constructor; rw /is_byte; dlia|done|done|].
    cbn. rw /u8. pose proof (land_mask_shiftr s 8) as E. change (Z.shiftl 0xFF 8) with 0xFF00 in E.
    rw E; [|lia]. change 255 with (Z.ones 8). rw Z.land_ones //. change (2 ^ 8) with 256.
    rw (Z.mod_small (s / 256)); [|dlia]. rw (Z.mod_small (s / 256)); [|dlia]. rw (Z.mod_small (s mod 256)); [done|dlia].
Qed.

Lemma wp_sequence_object s g Φ :
  0 <= s < 2 ^ 16 →
  (∀ l, raw (Some l) (tlv_bytes DER_ATTRIBUTE_TAG (sequence_bytes s)) -∗ Φ (true, Some l) g) -∗
  wp true (sequence_object (D := D) s) g Φ.
Proof.
  iIntros (Hs) "HΦ". destruct (sequence_bytes_facts s Hs) as (Hb & Hl & E). rw /sequence_object E.
  wp_seq. iApply wp_of_option. wp_seq. cbn [default from_option id].
  iApply (createAndBuild_spec _ _ _ _ (sequence_bytes s)); [done|pows; lia|by apply rd_range_prefix_all|].
  iIntros ([l|]) "Hq"; cbn [raw_result]; [wp_value; by iApply "HΦ"|by iDestruct "Hq" as %?].
Qed.

Lemma wp_wrap_some tag l bs g Φ :
  0 <= tag < 2 ^ 16 → zlen bs < 2 ^ 24 →
  raw (Some l) bs -∗ (∀ q, raw (Some l) bs -∗ raw (Some q) (tlv_bytes tag bs) -∗ Φ (Some q) g) -∗
  wp true (wrap_some (D := D) tag (Some l)) g Φ.
Proof. iIntros (Ht Hl) "Hp HΦ". rw /wrap_some. cbn [isNull]. by iApply (wp_wrap with "Hp"). Qed.

Lemma request_sizes s : 0 <= s < 2 ^ 16 →
  zlen (tlv_bytes DER_ATTRIBUTE_TAG (sequence_bytes s)) <= 8 ∧
  zlen (tlv_bytes ASN1_CONSTRUCTED_ATTRIBUTE_TAG (tlv_bytes DER_ATTRIBUTE_TAG (sequence_bytes s))) <= 14 ∧
  zlen (retrieve_request s) <= 20 ∧ zlen (remove_request s) <= 14.
Proof.
  intros Hs. destruct (sequence_bytes_facts s Hs) as (_ & Hl & _).
  pose proof (tlv_bytes_bound DER_ATTRIBUTE_TAG (sequence_bytes s)) as H1.
  pose proof (tlv_bytes_bound ASN1_CONSTRUCTED_ATTRIBUTE_TAG (tlv_bytes DER_ATTRIBUTE_TAG (sequence_bytes s))) as H2.
  pose proof (tlv_bytes_bound RETRIEVE_NOTIFICATIONS_LIST_TAG
    (tlv_bytes ASN1_CONSTRUCTED_ATTRIBUTE_TAG (tlv_bytes DER_ATTRIBUTE_TAG (sequence_bytes s)))) as H3.
  pose proof (tlv_bytes_bound REMOVE_NOTIFICATION_FROM_LIST_TAG (tlv_bytes DER_ATTRIBUTE_TAG (sequence_bytes s))) as H4.
  rw /retrieve_request /remove_request. change ASN1_PRIMITIVE_ATTRIBUTE_TAG with DER_ATTRIBUTE_TAG. lia.
Qed.

(** An update of an empty object. *)
Lemma wp_update_empty p v g Φ :
  raw p [] -∗ (∀ b, raw p v -∗ Φ b g) -∗ wp true (rawDataObject_update (G := sdk D) p (value v) (zlen v)) g Φ.
Proof.
  iIntros "Hp HΦ". destruct v as [|x v]; cbn [value].
  - iDestruct "Hp" as (l d) "(-> & Hl & Hd)". rw /rawDataObject_update. cbn [isNull]. wp_seq.
    iApply (wp_load_raw with "Hl"). iIntros "Hl". wp_value. iApply "HΦ". iExists l, d. by iFrame.
  - iApply (update_spec with "Hp"); [by apply rd_range_all|rw zlen_cons; zlen_pos; lia|].
    iIntros (b) "Hp". destruct b; [by iApply ("HΦ" $! true)|by iDestruct "Hp" as "[%H Hp]"].
Qed.

Lemma wp_extract_notification src n p g Φ :
  0 <= n <= zlen src → Forall is_byte (take (Z.to_nat n) src) →
  let r := notification_data (take (Z.to_nat n) src) in
  raw p [] -∗ (raw p (default [] r) -∗ Φ (present r) g) -∗
  wp true (_extractNotificationData (D := D) (Some src) n p) g Φ.
Proof.
  iIntros (Hn Hb r) "Hp HΦ". rw /_extractNotificationData.
  iAssert (⟦isNull p = false⟧ ∗ raw p [])%I with "[Hp]" as "[%Hnull Hp]".
  { iDestruct "Hp" as (l d) "[-> H]". iSplit; [done|]. iExists l, d. by iFrame. }
  rw Hnull. cbn [negb andb]. destruct (Z.gtb_spec n 0) as [Hn0|Hn0].
  2: { wp_value. rw /r (_ : n = 0); [|lia]. by iApply "HΦ". }
  wp_seq. iApply wp_extractTag16; [done..|]. iIntros (pl b rl) "%Hl Hl". apply chosen_nf in Hl.
  iDestruct (maybe_null with "Hl") as "[%En Hl]". rw En. wp_seq.
  destruct rl as [v|]; cbn [present negb].
  2: { wp_value. wp_seq. cbn [isNull]. wp_value. wp_seq. iApply (wp_erase with "Hl"). wp_seq.
       iApply (wp_erase _ None 0 None); [done|]. wp_value. rw /r /notification_data -Hl. by iApply "HΦ". }
  assert (Forall is_byte v) as Hv by by eapply first_tag_byte.
  iApply (wp_extractTag_of with "Hl"); [done..|]. iIntros (pa ra) "%Ha Hl Ha". apply chosen_nf in Ha.
  assert (r = ra) as -> by (rw /r /notification_data -Hl; cbn [mbind option_bind]; by rw Ha).
  iDestruct (maybe_null with "Ha") as "[%Ea Ha]". rw Ea. wp_seq.
  destruct ra as [w|]; cbn [present negb default from_option id maybe_tlv].
  2: { wp_value. wp_seq. iApply (wp_erase _ _ _ (Some v) with "Hl"). wp_seq. iApply (wp_erase _ _ 0 None with "Ha"). wp_value. by iApply "HΦ". }
  wp_seq. iApply (wp_tlv_data with "Ha"). iIntros "Ha". wp_seq.
  iApply (wp_update_empty with "Hp"). iIntros (ok) "Hp". wp_value.
  wp_seq. iApply (wp_erase _ _ _ (Some v) with "Hl"). wp_seq. iApply (wp_erase _ _ _ (Some w) with "Ha"). wp_value. by iApply "HΦ".
Qed.

Lemma wp_remove_response src n g Φ :
  0 <= n <= zlen src → Forall is_byte (take (Z.to_nat n) src) →
  Φ (remove_status (take (Z.to_nat n) src)) g -∗
  wp true (_doExtractClearProfileNotificationResponse (D := D) (Some src) n) g Φ.
Proof.
  iIntros (Hn Hb) "HΦ". rw /_doExtractClearProfileNotificationResponse. destruct (Z.gtb_spec n 0) as [Hn0|Hn0].
  2: { wp_value. by rw (_ : n = 0); [|lia]. }
  wp_seq. iApply wp_extractTag16; [done..|]. iIntros (pr b rr) "%Hr Hr". apply chosen_nf in Hr.
  iDestruct (maybe_null with "Hr") as "[%En Hr]". rw En. wp_seq. rw /remove_status -Hr.
  destruct rr as [v|]; cbn [present negb mbind option_bind].
  2: { wp_value. wp_seq. iApply (wp_result_byte _ None 0 None); [done|]. iIntros "_". wp_seq. iApply (wp_erase with "Hr").
       wp_seq. iApply (wp_erase _ None 0 None); [done|]. by wp_value. }
  iApply (wp_extractTag16_of with "Hr"); [by eapply first_tag_byte|]. iIntros (pa ra) "%Ha Hr Ha". apply chosen_nf in Ha.
  rw -Ha. wp_seq. iApply (wp_result_byte with "Ha"). iIntros "Ha". wp_seq.
  iApply (wp_erase _ _ _ (Some v) with "Hr"). wp_seq. iApply (wp_erase with "Ha"). by wp_value.
Qed.

Lemma wp_retrieve s p g x a Φ :
  0 <= s < 2 ^ 16 → exchanges_in Manager None (retrieve_request s) g x a →
  raw p [] -∗
  (raw p (default [] (retrieved x)) -∗ Φ (present (retrieved x)) (reporting_opt (retrieve_error x) (answered_in Manager x a g))) -∗
  wp true (_retrieveNotificationData s p) g Φ.
Proof.
  iIntros (Hs Hx) "Hp HΦ". rw /_retrieveNotificationData. destruct (request_sizes s Hs) as (S1 & S2 & S3 & _).
  iAssert (⟦isNull p = false⟧ ∗ raw p [])%I with "[Hp]" as "[%Hnull Hp]".
  { iDestruct "Hp" as (l d) "[-> H]". iSplit; [done|]. iExists l, d. by iFrame. }
  rw Hnull. wp_seq. iApply wp_sequence_object; [done|]. iIntros (l1) "H1".
  wp_seq. iApply (wp_wrap_some with "H1"); [done|pows; lia|]. iIntros (l2) "H1 H2".
  wp_seq. iApply (wp_wrap_some with "H2"); [done|pows; lia|]. iIntros (l3) "H2 H3". cbn [isNull]. wp_seq. wp_seq.
  change (tlv_bytes RETRIEVE_NOTIFICATIONS_LIST_TAG _) with (retrieve_request s).
  iApply (wp_storeData_in with "H3"); [apply tlv_bytes_nonempty|lia|exact Hx|]. iIntros "H3".
  pose proof (exchanges_in_fits _ _ _ _ _ _ (room_all Manager g) Hx) as [Hn Hz]. destruct Hx as [_ Hb].
  destruct x as [[[sent sw] buf] n]. cbn [fst snd retrieved retrieve_error answer_data] in *.
  iAssert (∀ ok g', (raw p (default [] (retrieved (sent, sw, buf, n))) -∗ Φ ok g') -∗
    raw p (default [] (retrieved (sent, sw, buf, n))) -∗ raw (Some l1) (tlv_bytes DER_ATTRIBUTE_TAG (sequence_bytes s)) -∗
    raw (Some l2) (tlv_bytes ASN1_CONSTRUCTED_ATTRIBUTE_TAG (tlv_bytes DER_ATTRIBUTE_TAG (sequence_bytes s))) -∗
    raw (Some l3) (retrieve_request s) -∗
    wp true (ERASE_RAWDATAOBJECT (Some l1) ;; ERASE_RAWDATAOBJECT (Some l2) ;; ERASE_RAWDATAOBJECT (Some l3) ;; ret ok) g' Φ)%I
    as "Hend".
  { iIntros (ok g') "HΦ Hp H1 H2 H3". wp_seq. iApply (wp_erase_obj with "H1"). wp_seq. iApply (wp_erase_obj with "H2").
    wp_seq. iApply (wp_erase_obj with "H3"). wp_value. by iApply "HΦ". }
  rw /retrieved /answer_data. destruct sent; cbn [andb].
  2: { wp_value. iApply ("Hend" with "HΦ Hp H1 H2 H3"). }
  destruct (sw_success sw); cbn [andb negb].
  - wp_seq. iApply wp_data_of. rw dataBuffer_answered. cbn [fst snd].
    iApply (wp_extract_notification with "Hp"); [lia|done|]. iIntros "Hp". iApply ("Hend" with "HΦ Hp H1 H2 H3").
  - wp_seq. iApply wp_setError. wp_value. iApply ("Hend" with "HΦ Hp H1 H2 H3").
Qed.

Lemma wp_clear s g x a Φ :
  0 <= s < 2 ^ 16 → exchanges_in Manager None (remove_request s) g x a →
  Φ (removed x) (reporting_opt (remove_error x) (answered_in Manager x a g)) -∗
  wp true (lpaManagerClearProfileNotification s) g Φ.
Proof.
  iIntros (Hs Hx) "HΦ". rw /lpaManagerClearProfileNotification. destruct (request_sizes s Hs) as (S1 & _ & _ & S4).
  wp_seq. iApply wp_sequence_object; [done|]. iIntros (l1) "H1".
  wp_seq. iApply (wp_wrap_some with "H1"); [done|pows; lia|]. iIntros (l2) "H1 H2". cbn [isNull]. wp_seq. wp_seq.
  change (tlv_bytes REMOVE_NOTIFICATION_FROM_LIST_TAG _) with (remove_request s).
  iApply (wp_storeData_in with "H2"); [apply tlv_bytes_nonempty|lia|exact Hx|]. iIntros "H2".
  pose proof (exchanges_in_fits _ _ _ _ _ _ (room_all Manager g) Hx) as [Hn Hz]. destruct Hx as [_ Hb].
  destruct x as [[[sent sw] buf] n]. rw /removed. cbn [fst snd remove_error] in *. wp_seq.
  iAssert (∀ ok g', Φ ok g' -∗ raw (Some l1) (tlv_bytes DER_ATTRIBUTE_TAG (sequence_bytes s)) -∗ raw (Some l2) (remove_request s) -∗
    wp true (ERASE_RAWDATAOBJECT (Some l2) ;; ret ok) g' (λ ok g', wp true (ERASE_RAWDATAOBJECT (Some l1) ;; ret ok) g' Φ))%I as "Hend".
  { iIntros (ok g') "HΦ H1 H2". wp_seq. iApply (wp_erase_obj with "H2"). wp_value. wp_seq. iApply (wp_erase_obj with "H1"). by wp_value. }
  destruct sent; cbn [andb]; [|wp_value; iApply ("Hend" with "HΦ H1 H2")].
  destruct (sw_success sw).
  - wp_seq. iApply wp_data_of. rw dataBuffer_answered. cbn [fst snd]. wp_seq. iApply wp_remove_response; [lia|done|].
    destruct (delete_error _) as [e|].
    + wp_seq. iApply wp_setError. wp_value. iApply ("Hend" with "HΦ H1 H2").
    + wp_value. iApply ("Hend" with "HΦ H1 H2").
  - wp_seq. iApply wp_setError. wp_value. iApply ("Hend" with "HΦ H1 H2").
Qed.
End requests.

(** *** Sending *)

Section sending.
Context `{Delivery D}.
Implicit Types (g : sdk D).

Lemma wp_send m v p g r Φ :
  Forall is_byte v → zlen v < 2 ^ 24 → send m v g = Some r →
  raw p v -∗ (raw p v -∗ Φ r.1 r.2) -∗ wp true (_sendNotificationToServer m p) g Φ.
Proof.
  iIntros (Hb Hl Hs) "Hp HΦ". rw /send in Hs. rw /_sendNotificationToServer.
  wp_seq. iApply (wp_raw_bytes with "Hp"). iIntros "Hp". wp_seq. set (room := zlen v + zlen v / 2) in *.
  destruct (Z.eqb_spec (zlen v) 0) as [Hv0|Hv0].
  { injection Hs as <-. iApply wp_alloc_zero; [rw /room Hv0; done|]. cbn [isNull]. wp_value. by iApply "HΦ". }
  pose proof (zlen_nonneg v). assert (1 <= room) as Hroom by (rw /room; dlia). pows.
  iApply wp_malloc; [lia|]. iIntros ([tmp|]) "Ht"; [|by iDestruct "Ht" as %?]. cbn [isNull alloc_post].
  wp_seq. iApply (wp_store_block with "Ht").
  { cbn [sizeof]. rw zlen_new_bytes; [|lia]. by rw zlen_fill; [|lia]. }
  iIntros "Ht". wp_seq. iApply (wp_load_bytes with "Ht"). iIntros "Ht".
  assert (zlen (fill 0 room) = room) as Hfill by (rw zlen_fill; lia). rw (value_some v); [|lia].
  pose proof (zlen_b64_ref v) as Hr.
  destruct (Z.ltb_spec (text_size (zlen v)) room) as [Hsz|Hsz].
  - assert (ffw_base64_encode (Some v) (zlen v) (Some (fill 0 room)) (Some 0) room =
      Some (true, Some (b64_ref v ++ 0 :: drop (S (length (b64_ref v))) (fill 0 room)), Some (zlen (b64_ref v)))) as E.
    { rw -{2}Hfill. apply ffw_encode_ok; [done|change (2 ^ 30) with 1073741824; lia|]. rw Hfill. apply Hsz. }
    rw E. wp_seq. iApply wp_of_option. cbn [default from_option id].
    wp_seq. iApply (wp_store_block with "Ht").
    { cbn [sizeof]. rw zlen_app zlen_cons zlen_drop Hfill. rw /text_size -Hr in Hsz. rw /zlen in Hsz |- *. lia. }
    iIntros "Ht". wp_seq. wp_seq. rw c_str_app; [|by apply b64_ref_nonzero]. iApply wp_of_option. wp_seq.
    destruct (rd_range _ _ _) as [address|]; [|done]. injection Hs as <-. iApply wp_of_option.
    iApply deliver_ok. wp_seq. iApply (wp_free_block with "Ht"). wp_value. by iApply "HΦ".
  - destruct (Z.ltb_spec room (text_size (zlen v))) as [Hsz'|]; [|done]. injection Hs as <-.
    assert (ffw_base64_encode (Some v) (zlen v) (Some (fill 0 room)) (Some 0) room = Some (false, Some (fill 0 room), Some 0)) as E.
    { rw -{2}Hfill. apply ffw_encode_small; [change (2 ^ 30) with 1073741824; lia|]. rw Hfill. apply Hsz'. }
    rw E. wp_seq. iApply wp_of_option. cbn [default from_option id].
    wp_seq. iApply (wp_store_block with "Ht"); [by cbn [sizeof]; rw Hfill|]. iIntros "Ht".
    wp_seq. wp_value. wp_seq. iApply (wp_free_block with "Ht"). wp_value. by iApply "HΦ".
Qed.

Lemma retrieved_facts x v : Forall is_byte (take (Z.to_nat x.2) x.1.2) → retrieved x = Some v → Forall is_byte v ∧ zlen v < 2 ^ 24.
Proof.
  destruct x as [[[sent sw] buf] n]. cbn [fst snd]. intros Hb. rw /retrieved /answer_data. destruct (_ && _); [|done].
  cbn [mbind option_bind]. rw /notification_data. destruct (first_tag RETRIEVE_NOTIFICATIONS_LIST_TAG _).2 as [w|] eqn:E; [|done].
  apply first_tag_byte in E; [|done]. cbn [mbind option_bind]. intros Hv.
  split; [by apply first_tag_byte in Hv|by apply first_tag_bound in Hv].
Qed.

Lemma wp_attempts m n p g ok g' Φ :
  0 <= seqNumber m < 2 ^ 16 → attempts m n g ok g' →
  raw p [] -∗ (∀ bs, raw p bs -∗ Φ ok g') -∗ wp true (deliver_loop n m p) g Φ.
Proof.
  intros Hs Ha. revert Φ. induction Ha as [g|n g x a v r Hx Hr Hsend|n g x a ok g' Hx Hr _ IH]; iIntros (Φ) "Hp HΦ"; cbn [deliver_loop].
  - wp_value. by iApply "HΦ".
  - wp_seq. iApply (wp_retrieve with "Hp"); [done|exact Hx|]. rw Hr. cbn [present default from_option]. iIntros "Hp".
    assert (retrieve_error x = None) as ->.
    { destruct x as [[[sent sw] buf] k]. rw /retrieved /answer_data in Hr. rw /retrieve_error. by destruct sent, (sw_success sw). }
    destruct (retrieved_facts x v) as [Hb Hl]; [apply Hx|done|]. iApply (wp_send with "Hp"); [done..|].
    iIntros "Hp". by iApply "HΦ".
  - wp_seq. iApply (wp_retrieve with "Hp"); [done|exact Hx|]. rw Hr. cbn [present default from_option]. iIntros "Hp".
    wp_seq. iApply wp_getErrorNoClear. wp_seq. rw /before_retry in IH. destruct (_ && _).
    + wp_seq. iApply wp_resetError. iApply (clear_spec with "Hp"). iIntros "Hp". by iApply (IH with "Hp").
    + wp_value. by iApply (IH with "Hp").
Qed.

Lemma note_error_ok first g :
  (if negb (no_error (errorCode g)) && no_error first then errorCode g else first) = note_error first g.
Proof.
  rw /note_error. destruct (no_error first) eqn:Ef; [|by rw andb_comm]. apply no_error_true in Ef as ->.
  destruct (no_error (errorCode g)) eqn:Ee; [|done]. by apply no_error_true in Ee as ->.
Qed.

Lemma wp_pending_loop ms pre rest p bs k0 first g k first' g' Φ :
  Forall (λ m, 0 <= seqNumber m < 2 ^ 16) ms → deliveries ms first g k first' g' →
  raw p bs -∗ (∀ bs, raw p bs -∗ Φ (k0 + k, first') g') -∗
  wp true (pending_loop (length ms) (zlen pre) (pre ++ ms ++ rest) p k0 first) g Φ.
Proof.
  intros Hs Hd. revert pre bs k0 Φ.
  induction Hd as [first g|m ms first g g1 x a g2 k first' g' Ha Hx -> _ IH|m ms first g g1 k first' g' Ha _ IH];
    iIntros (pre bs k0 Φ) "Hp HΦ"; cbn [length pending_loop app].
  - wp_value. rw Z.add_0_r. by iApply "HΦ".
  - inversion_clear Hs as [|?? Hm Hms]. wp_seq. rw rd_at; [|done]. iApply wp_of_option. wp_seq. iApply (clear_spec with "Hp"). iIntros "Hp".
    wp_seq. iApply (wp_attempts with "Hp"); [done|exact Ha|]. iIntros (bs') "Hp". wp_seq. wp_seq.
    iApply wp_clear; [done|exact Hx|]. wp_value. wp_seq. iApply wp_getErrorNoClear. wp_seq. iApply wp_resetError.
    rw note_error_ok. specialize (IH Hms (pre ++ [m]) bs' (k0 + 1)). rw zlen_app -app_assoc in IH. iApply (IH with "Hp").
    iIntros (bs'') "Hp". rw -Z.add_assoc. by iApply "HΦ".
  - inversion_clear Hs as [|?? Hm Hms]. wp_seq. rw rd_at; [|done]. iApply wp_of_option. wp_seq. iApply (clear_spec with "Hp"). iIntros "Hp".
    wp_seq. iApply (wp_attempts with "Hp"); [done|exact Ha|]. iIntros (bs') "Hp". wp_seq. wp_value.
    wp_seq. iApply wp_getErrorNoClear. wp_seq. iApply wp_resetError.
    rw note_error_ok. specialize (IH Hms (pre ++ [m]) bs' k0). rw zlen_app -app_assoc in IH. by iApply (IH with "Hp").
Qed.
End sending.

(** *** The list *)

Section listing.
Context {D : Type}.
Implicit Types (g : sdk D).

Lemma two_bytes a b c d : 0 <= a < 256 → 0 <= b < 256 → 0 <= c < 256 → 0 <= d < 256 →
  (a * 256 + b =? c * 256 + d) = bool_decide ([a; b] = [c; d]).
Proof.
  intros Ha Hb Hc Hd. destruct (Z.eqb_spec (a * 256 + b) (c * 256 + d)) as [E|E].
  - rw bool_decide_eq_true_2 //. assert (a = c) as -> by lia. by assert (b = d) as -> by lia.
  - rw bool_decide_eq_false_2 //. intros [= -> ->]. done.
Qed.

Lemma unknown_operation v : zlen v ≠ 2 → operation_of v = LPA_NOTIFICATION_UNKNOWN.
Proof. intros Hv. rw /operation_of !bool_decide_eq_false_2; [done|by intros ->..]. Qed.

Lemma event_value v : Forall is_byte v → _doExtractNotificationEventValue (value v) (zlen v) = Some (operation_of v).
Proof.
  intros Hv. destruct (Z.eqb_spec (zlen v) 2) as [E|E].
  - destruct v as [|a [|b [|c v]]]; [done|done| |rw !zlen_cons in E; zlen_pos; lia].
    inversion_clear Hv as [|?? Ha Hv']. inversion_clear Hv' as [|?? Hb _]. unfold is_byte in *.
    rw /_doExtractNotificationEventValue. cbn [value]. change (zlen [a; b] =? 2) with true.
    change ([a; b].[0]) with (Some a). change ([a; b].[1]) with (Some b). cbn [mbind option_bind].
    rw lor_shiftl_add; [|change (2 ^ 8) with 256; lia..]. rw /u16. change (2 ^ 8) with 256. rw Z.mod_small; [|change (2 ^ 16) with 65536; lia].
    rw /operation_of -!two_bytes //.
  - rw unknown_operation // /_doExtractNotificationEventValue (proj2 (Z.eqb_neq _ _) E). by destruct v.
Qed.

(** A notification that is stored at the end of the list. *)
Lemma wp_store_notification p80 p81 p0C n done old rest g Φ :
  valid_notification n → valid_metadata old →
  tlv p80 0x80 (nt_number n) -∗ tlv p81 0x81 (nt_operation n) -∗ tlv p0C 0x0C (nt_address n) -∗
  (tlv p80 0x80 (nt_number n) -∗ tlv p81 0x81 (nt_operation n) -∗ tlv p0C 0x0C (nt_address n) -∗
   Φ (false, NotificationList (zlen done) (done ++ entry n old :: rest)) g) -∗
  wp true (store_notification p80 p81 p0C (NotificationList (zlen done) (done ++ old :: rest))) g Φ.
Proof.
  iIntros ((Hnum & Hb1 & Hb2 & Hlen & Hb3 & _) Hold) "H80 H81 H0C HΦ". rw /store_notification.
  wp_seq. iApply (wp_tlv_data with "H80"). iIntros "H80". rw value_some; [|lia].
  rw extractInteger_be //. wp_seq. iApply wp_of_option. wp_seq. rw rd_at; [|done]. iApply wp_of_option.
  wp_seq. iApply (wp_tlv_data with "H81"). iIntros "H81". wp_seq. rw event_value //. iApply wp_of_option.
  wp_seq. iApply (wp_tlv_data with "H0C"). iIntros "H0C". rw (proj2 (Z.leb_le _ _) Hlen). wp_seq.
  rw copy_value_ok; [|by rw Hold]. iApply wp_of_option. wp_seq. rw wr_app_next. iApply wp_of_option. wp_value.
  iApply ("HΦ" with "H80 H81 H0C").
Qed.

(** The objects of a notification. *)
Lemma notification_parsed n : valid_notification n → zlen (tlvs_bytes (notification_objects n)) < 2 ^ 24 →
  Forall is_byte (tlvs_bytes (notification_objects n)) ∧
  (first_tag 0x80 (tlvs_bytes (notification_objects n))).2 = Some (nt_number n) ∧
  (first_tag 0x81 (tlvs_bytes (notification_objects n))).2 = Some (nt_operation n) ∧
  (first_tag 0x0C (tlvs_bytes (notification_objects n))).2 = Some (nt_address n).
Proof.
  intros (_ & Hb1 & Hb2 & _ & Hb3 & Hm) Hs.
  assert (Forall valid_tlv (notification_objects n)) as Hv.
  { apply big_objects; [|done]. repeat (constructor; [by split; [apply tag_simple|]|]). done. }
  split; [by apply tlvs_bytes_byte|]. rw !first_tag_tlvs // /notification_objects !filter_cons.
Qed.

Lemma wp_metadata_body b n done old rest g Φ :
  valid_notification n → zlen (tlvs_bytes (notification_objects n)) < 2 ^ 24 → valid_metadata old →
  tlv (Some b) NOTIFICATION_METADATA_TAG (tlvs_bytes (notification_objects n)) -∗
  (tlv (Some b) NOTIFICATION_METADATA_TAG (tlvs_bytes (notification_objects n)) -∗
   Φ (true, NotificationList (zlen done + 1) (done ++ entry n old :: rest)) g) -∗
  wp true (metadata_body (Some b) (NotificationList (zlen done) (done ++ old :: rest))) g Φ.
Proof.
  iIntros (Hn Hs Hold) "Ht HΦ". destruct (notification_parsed n Hn Hs) as (Hb & E80 & E81 & E0C).
  wp_seq. iApply (wp_load_tlv_length with "Ht"). iIntros (q) "Ht". rw Z.eqb_refl.
  wp_seq. iApply (wp_extractTag_of with "Ht"); [done..|]. iIntros (p80 r80) "%H80 Ht Hp80". apply chosen_nf in H80. rw E80 in H80. subst.
  wp_seq. iApply (wp_extractTag_of with "Ht"); [done..|]. iIntros (p81 r81) "%H81 Ht Hp81". apply chosen_nf in H81. rw E81 in H81. subst.
  wp_seq. iApply (wp_extractTag_of with "Ht"); [done..|]. iIntros (p0C r0C) "%H0C Ht Hp0C". apply chosen_nf in H0C. rw E0C in H0C. subst.
  iDestruct (maybe_null with "Hp80") as "[%N80 Hp80]". iDestruct (maybe_null with "Hp81") as "[%N81 Hp81]".
  iDestruct (maybe_null with "Hp0C") as "[%N0C Hp0C]". rw N80 N81 N0C. cbn [present negb andb maybe_tlv].
  wp_seq. iApply (wp_store_notification with "Hp80 Hp81 Hp0C"); [done..|]. iIntros "Hp80 Hp81 Hp0C".
  wp_seq. iApply (wp_erase _ _ _ (Some (nt_number n)) with "Hp80").
  wp_seq. iApply (wp_erase _ _ _ (Some (nt_operation n)) with "Hp81").
  wp_seq. iApply (wp_erase _ _ _ (Some (nt_address n)) with "Hp0C"). wp_value. by iApply "HΦ".
Qed.

(** The list after some notifications. *)
Lemma entries_next ns n a old b :
  length a = length ns →
  entries (ns ++ [n]) (a ++ old :: b) = zip_with entry ns a ++ entry n old :: b ∧
  entries ns (a ++ old :: b) = zip_with entry ns a ++ old :: b ∧ zlen (zip_with entry ns a) = zlen ns.
Proof.
  intros Hl. assert (zip_with entry ns (a ++ old :: b) = zip_with entry ns a) as Ez.
  { rw -{1}(app_nil_r ns) zip_with_app // app_nil_r //. }
  split_and!.
  - rw /entries zip_with_app //. cbn [zip_with]. rw length_app -Hl drop_app_add' //. by rw -app_assoc.
  - by rw /entries Ez -Hl drop_app_length.
  - rw /zlen length_zip_with. lia.
Qed.

Lemma split_at {A} (l : list A) n : (n < length l)%nat → ∃ a x b, l = a ++ x :: b ∧ length a = n.
Proof.
  intros Hn. destruct (lookup_lt_is_Some_2 l n Hn) as [x Hx]. exists (take n l), x, (drop (S n) l).
  split; [by rw take_drop_middle|]. rw length_take. lia.
Qed.

Lemma wp_metadata_walk p ns elements g Φ :
  Forall valid_notification ns → Forall (λ n, zlen (tlvs_bytes (notification_objects n)) < 2 ^ 24) ns →
  Forall valid_metadata elements → (length ns <= length elements)%nat →
  tlv_list p (notification_tlv <$> ns) -∗
  (tlv_list p (notification_tlv <$> ns) -∗ Φ (NotificationList (zlen ns) (entries ns elements)) g) -∗
  wp true (walk metadata_body p (NotificationList 0 elements)) g Φ.
Proof.
  iIntros (Hv Hs He Hl) "Hp HΦ".
  iApply (wp_walk _ _ _ (notification_tlv <$> ns)
    (λ pre s g', ⟦∃ ns1 ns2, ns = ns1 ++ ns2 ∧ pre = notification_tlv <$> ns1 ∧
                    s = NotificationList (zlen ns1) (entries ns1 elements) ∧ g' = g⟧)%I
    (λ s g', ⟦s = NotificationList (zlen ns) (entries ns elements) ∧ g' = g⟧)%I with "Hp [] [HΦ]").
  - intros pre t v post b s g0 E. iIntros "[Ht %H]". destruct H as (ns1 & ns2 & -> & -> & -> & ->).
    rw fmap_app in E. apply app_inv_head in E. destruct ns2 as [|n ns2]; [done|]. rw fmap_cons in E. injection E as <- <- _.
    rw length_app /= in Hl. destruct (split_at elements (length ns1)) as (a & old & c & -> & Ha); [lia|].
    destruct (entries_next ns1 n a old c Ha) as (E1 & E2 & E3). rw E2 -E3.
    rw !Forall_app !Forall_cons in Hv Hs He. destruct Hv as (_ & Hn & _). destruct Hs as (_ & Hns & _). destruct He as (_ & Hold & _).
    iApply (wp_metadata_body with "Ht"); [done..|]. iIntros "$". cbn [fst snd]. iPureIntro.
    exists (ns1 ++ [n]), ns2. rw -app_assoc fmap_app E1 zlen_app E3. done.
  - intros s g0. iIntros "%H". destruct H as (ns1 & ns2 & -> & E & -> & ->). iPureIntro.
    rw fmap_app -{2}(app_nil_r (notification_tlv <$> ns1)) in E. apply app_inv_head, fmap_nil_inv in E as ->. by rw app_nil_r.
  - iPureIntro. exists [], ns. rw /entries. by destruct elements.
  - iIntros (s g') "Hp %H". destruct H as [-> ->]. by iApply "HΦ".
Qed.

(** The list in an answer. *)
Lemma list_parsed ns : valid_notifications ns →
  Forall is_byte (list_bytes ns) ∧
  (first_tag LIST_NOTIFICATION_TAG (list_bytes ns)).2 = Some (tlv_bytes SEQUENCE_TAG (notifications_value ns)) ∧
  Forall is_byte (tlv_bytes SEQUENCE_TAG (notifications_value ns)) ∧
  (first_tag SEQUENCE_TAG (tlv_bytes SEQUENCE_TAG (notifications_value ns))).2 = Some (notifications_value ns) ∧
  Forall is_byte (notifications_value ns) ∧ objects (notifications_value ns) = Some (notification_tlv <$> ns) ∧
  Forall (λ n, zlen (tlvs_bytes (notification_objects n)) < 2 ^ 24) ns.
Proof.
  intros (Hn & _ & Hs). pose proof (tlv_bytes_size LIST_NOTIFICATION_TAG (tlv_bytes SEQUENCE_TAG (notifications_value ns))) as S1.
  pose proof (tlv_bytes_size SEQUENCE_TAG (notifications_value ns)) as S2. rw -/(list_bytes ns) in S1.
  assert (Forall (λ n, zlen (tlvs_bytes (notification_objects n)) < 2 ^ 24) ns) as Hns.
  { apply Forall_forall. intros n Hin. apply (list_elem_of_fmap_2 notification_tlv) in Hin. apply value_size in Hin.
    rw -/(notifications_value ns) in Hin. lia. }
  assert (Forall valid_tlv (notification_tlv <$> ns)) as Hv.
  { apply big_objects; [|rw -/(notifications_value ns); lia]. apply Forall_fmap, Forall_forall. intros n Hin.
    rw Forall_forall in Hn. rw Forall_forall in Hns. split; [right; split; [done|done]|].
    by apply notification_parsed; [apply Hn|apply Hns]. }
  assert (Forall is_byte (notifications_value ns)) as Hb by by apply tlvs_bytes_byte.
  assert (Forall is_byte (tlv_bytes SEQUENCE_TAG (notifications_value ns))) as Hb2.
  { apply tlv_bytes_byte; [by apply tag_simple|done|lia]. }
  split_and!; try done.
  - apply tlv_bytes_byte; [right; split; done|done|lia].
  - apply first_only; [right; split; done|done|lia].
  - apply first_only; [by apply tag_simple|done|lia].
  - by apply objects_tlvs.
Qed.

Lemma wp_extract_list src n k ns elements g Φ :
  0 <= n <= zlen src → take (Z.to_nat n) src = list_bytes ns → valid_notifications ns →
  Forall valid_metadata elements → (length ns <= length elements)%nat →
  Φ (true, Some (NotificationList (zlen ns) (entries ns elements))) g -∗
  wp true (_doExtractMetadataForGetProfileNotificationList (Some (NotificationList k elements)) (Some src) n) g Φ.
Proof.
  iIntros (Hn Hsrc Hv He Hl) "HΦ". destruct (list_parsed ns Hv) as (Hb & F1 & Hb1 & F2 & Hb2 & Ho & Hns).
  destruct Hv as (Hvn & Hmax & _). assert (0 < n) as Hn0.
  { pose proof (tlv_bytes_size LIST_NOTIFICATION_TAG (tlv_bytes SEQUENCE_TAG (notifications_value ns))) as Hs.
    rw -/(list_bytes ns) -Hsrc zlen_take in Hs. zlen_pos. lia. }
  rw /_doExtractMetadataForGetProfileNotificationList (proj2 (Z.gtb_lt n 0)) //. cbn [notificationMetadataList].
  wp_seq. iApply wp_extractTag16; [done|by rw Hsrc|]. rw Hsrc. iIntros (p1 b r1) "%H1 Hp1". apply chosen_nf in H1. rw F1 in H1. subst r1.
  iDestruct (maybe_null with "Hp1") as "[%N1 Hp1]". rw N1. cbn [present negb maybe_tlv]. wp_seq.
  iApply (wp_extractTag_of with "Hp1"); [done..|]. iIntros (p2 r2) "%H2 Hp1 Hp2". apply chosen_nf in H2. rw F2 in H2. subst r2.
  iDestruct (maybe_null with "Hp2") as "[%N2 Hp2]". rw N2. cbn [present negb]. wp_seq. wp_seq.
  iApply (wp_longer_than with "Hp2"). iIntros "Hp2". cbn [maybe_tlv].
  destruct (Z.gtb_spec (zlen (notifications_value ns)) 0) as [Hz|Hz].
  - wp_seq. iApply (wp_extractList_of with "Hp2"); [done..|]. iIntros (p3 c) "Hp2 [%H3|[-> Hp3]]"; [by destruct H3|].
    iDestruct (tlv_list_null with "Hp3") as "[%N3 Hp3]". rw N3. rw zlen_fmap.
    destruct ns as [|n0 ns]; [by change (zlen (notifications_value [])) with 0 in Hz|].
    rw /LPA_MAX_PROFILE_NOTIFICATION_LIST_METADATA_ELEMENT in Hmax. pose proof (zlen_nonneg (n0 :: ns)).
    rw Z.mod_small; [|lia]. rw (_ : (zlen (n0 :: ns) >? 0) = true); [|rw zlen_cons; zlen_pos; lia].
    rw bool_decide_eq_false_2; [|done]. cbn [negb andb]. wp_seq.
    iApply (wp_metadata_walk with "Hp3"); [done..|]. iIntros "Hp3". wp_value. cbn [countNotification]. rw Z.eqb_refl.
    wp_seq. iApply (wp_erase _ _ _ (Some _) with "Hp1"). wp_seq. iApply (wp_erase _ _ _ (Some _) with "Hp2").
    wp_seq. iApply (wp_erase_list with "Hp3"). by wp_value.
  - wp_value. wp_seq. iApply (wp_erase _ _ _ (Some _) with "Hp1"). wp_seq. iApply (wp_erase _ _ _ (Some _) with "Hp2").
    wp_seq. cbn [ERASE_BERTLV_LIST isNull]. wp_value. wp_value.
    destruct ns as [|n0 ns]; [done|]. exfalso. rw /notifications_value fmap_cons in Hz.
    pose proof (value_size (notification_tlv n0).1 (notification_tlv n0).2 (notification_tlv n0 :: (notification_tlv <$> ns))) as Hs.
    rw -surjective_pairing in Hs. pose proof (zlen_nonneg (notification_tlv n0).2). assert (zlen (notification_tlv n0).2 + 2 <= 0); [|lia].
    etrans; [|exact Hz]. apply Hs. by left.
Qed.

Lemma listed k ns elements g x a Φ :
  exchanges_in Manager None list_request g x a → answer_data x = Some (list_bytes ns) → valid_notifications ns →
  Forall valid_metadata elements → zlen elements = LPA_MAX_PROFILE_NOTIFICATION_LIST_METADATA_ELEMENT →
  Φ (true, Some (NotificationList (zlen ns) (entries ns elements))) (answered_in Manager x a g) -∗
  wp true (lpaManagerGetProfileNotificationList (Some (NotificationList k elements))) g Φ.
Proof.
  iIntros (Hx Ha Hv He Hz) "HΦ". pose proof Hv as (_ & Hmax & _).
  wp_seq. iApply wp_build_empty; [done|]. iIntros (l) "Hl". cbn [isNull notificationMetadataList]. wp_seq.
  change LPA_LOOP_NUMBER_FOR_CHAINED_GET_RESPONSE with 3%nat. cbn [list_loop]. wp_seq.
  change (tlv_bytes LIST_NOTIFICATION_TAG []) with list_request.
  iApply (wp_storeData_in with "Hl"); [done|done|exact Hx|]. iIntros "Hl".
  pose proof (exchanges_in_fits _ _ _ _ _ _ (room_all Manager g) Hx) as [Hn Hzl]. destruct x as [[[sent sw] buf] n].
  cbn [fst snd] in *. rw /answer_data in Ha. destruct sent; [|done]. rw /list_answer. cbn [andb] in Ha.
  destruct (sw_success sw); [|done]. injection Ha as Ha.
  destruct (Z.eqb_spec n 0) as [->|Hn0].
  { exfalso. apply (f_equal zlen) in Ha. cbn in Ha. pose proof (tlv_bytes_size LIST_NOTIFICATION_TAG (tlv_bytes SEQUENCE_TAG (notifications_value ns))) as Hs.
    rw -/(list_bytes ns) -Ha in Hs. change (take (Z.to_nat 0) buf) with (@nil Z) in Hs. change (zlen []) with 0 in Hs. zlen_pos. lia. }
  wp_seq. iApply wp_data_of. rw dataBuffer_answered. cbn [fst snd]. wp_seq.
  iApply (wp_extract_list _ _ _ ns); [lia|done|done|done|rw /zlen in Hz Hmax; lia|]. cbn [default from_option id].
  wp_value. wp_seq. iApply (wp_erase_obj with "Hl"). by wp_value.
Qed.

(** C13: The list of notifications (round trip), when no allocation fails: for every list of at most sixteen notifications that
    the eUICC answers, each with a number of one to four bytes, an operation of any bytes, an address of at most
    LPA_MAX_NOTIFICATION_ADDRESS_RAW_DATA_SIZE (128) bytes and any further objects, the function answers true and an element for
    each of these notifications in their order: the low 16 bits of its number, so that 65541 is listed as 5, its operation, unknown when it
    is none of the four, and its address in front of what the array held; it releases everything that it allocated. Longer
    numbers and addresses are refused, and a seventeenth notification is written behind the list (notifications_limits,
    notifications_overflow). *)
Theorem notifications_listed (k : Z) (ns : list notification) (elements : list metadata) g x (a : globals D) :
  exchanges_in Manager None list_request g x a → answer_data x = Some (list_bytes ns) → valid_notifications ns →
  Forall valid_metadata elements → zlen elements = LPA_MAX_PROFILE_NOTIFICATION_LIST_METADATA_ELEMENT →
  triple true emp%I (lpaManagerGetProfileNotificationList (Some (NotificationList k elements))) g
    (λ r g', ⟦r = (true, Some (NotificationList (zlen ns) (entries ns elements))) ∧ g' = answered_in Manager x a g⟧)%I.
Proof. intros. iIntros "_". iApply listed; [done..|]. by iPureIntro. Qed.
End listing.

(** *** The number of an installation *)

Section number.
Context {D : Type}.
Implicit Types (g : sdk D).

Lemma inside_byte tag o v : Forall is_byte (default [] o) → inside tag o = Some v → Forall is_byte v.
Proof. destruct o as [[|b w]|]; [done| |done]. apply first_tag_byte. Qed.

(** A search in an object that is not empty, with either of the functions. *)
Lemma wp_inside {A} (search : Heap.M (sdk D) ptr) (k : ptr → Heap.M (sdk D) A) t tg tag r g Φ :
  (∀ v Ψ, Forall is_byte v → tlv t tg v -∗
     (∀ p r, ⟦chosen true r (first_tag tag v).2⟧ -∗ tlv t tg v -∗ maybe_tlv p tag r -∗ Ψ p g) -∗ wp true search g Ψ) →
  Forall is_byte (default [] r) →
  maybe_tlv t tg r -∗
  (∀ p, ⟦Forall is_byte (default [] (inside tag r))⟧ -∗ maybe_tlv t tg r -∗ maybe_tlv p tag (inside tag r) -∗ wp true (k p) g Φ) -∗
  wp true (let* ok := longer_than 0 t in let* p := (if ok : bool then search else ret None) in k p) g Φ.
Proof.
  iIntros (Hs Hb) "Ht Hk". wp_seq. iApply (wp_longer_than with "Ht"). iIntros "Ht".
  destruct r as [[|b v]|]; cbn [inside]; [wp_seq; wp_value; iApply ("Hk" with "[] Ht"); [by iPureIntro; apply Forall_nil_2|done]| |
    wp_seq; wp_value; iApply ("Hk" with "[] Ht"); [by iPureIntro; apply Forall_nil_2|done]].
  rw (_ : (zlen (b :: v) >? 0) = true); [|rw zlen_cons; zlen_pos; lia]. wp_seq. cbn [maybe_tlv].
  iApply (Hs with "Ht"); [done|]. iIntros (p r) "%Hr Ht Hp". apply chosen_nf in Hr as ->.
  iApply ("Hk" with "[] Ht Hp"). iPureIntro. destruct (first_tag tag (b :: v)).2 as [w|] eqn:E; [|by apply Forall_nil_2].
  by apply first_tag_byte in E.
Qed.

Lemma wp_has_data_arg p o g Φ :
  raw_arg p o -∗ (raw_arg p o -∗ Φ (match o with Some bs => zlen bs >? 0 | None => false end) g) -∗
  wp true (has_data (D := D) p) g Φ.
Proof.
  iIntros "Hp HΦ". destruct o as [bs|]; cbn [raw_arg].
  - iDestruct "Hp" as (l d) "(-> & Hl & Hd)". rw /has_data. cbn [isNull]. wp_seq. iApply (wp_load_raw with "Hl"). iIntros "Hl".
    wp_value. iApply "HΦ". iExists l, d. by iFrame.
  - iDestruct "Hp" as %->. wp_value. by iApply "HΦ".
Qed.

Lemma extractInteger_long n k : 4 < zlen n → extractIntegerFromByteArray (Some n) (zlen n) (Some k) = Some (false, Some k).
Proof.
  intros Hn. rw /extractIntegerFromByteArray. repeat (case_match; try done); zprop; lia.
Qed.

(** The number in the object found. *)
Definition number_of (k : Z) (r : option (list Z)) : bool * option Z :=
  match r with
  | Some n => if (1 <=? zlen n) && (zlen n <=? 4) then (true, Some (be_value n mod 2 ^ 16)) else (false, Some k)
  | None => (false, Some k)
  end.

Lemma wp_number {A} (f : bool * option Z → Heap.M (sdk D) A) t tag r k g Φ :
  Forall is_byte (default [] r) →
  maybe_tlv t tag r -∗
  (maybe_tlv t tag r -∗ wp true (f (number_of k r)) g Φ) -∗
  wp true (let* ok := longer_than 0 t in
           let* r := (if ok : bool then
                        let* '(_, length, v) := tlv_data t in of_option (extractIntegerFromByteArray v length (Some k))
                      else ret (false, Some k)) in
           f r) g Φ.
Proof.
  iIntros (Hb) "Ht HΦ". wp_seq. iApply (wp_longer_than with "Ht"). iIntros "Ht". rw /number_of.
  destruct r as [n|]; [|wp_seq; wp_value; by iApply "HΦ"]. destruct (Z.gtb_spec (zlen n) 0) as [Hn|Hn].
  2: { wp_seq. wp_value. iSpecialize ("HΦ" with "Ht"). by rw (_ : (1 <=? zlen n) = false); [|lia]. }
  wp_seq. wp_seq. cbn [maybe_tlv]. iApply (wp_tlv_data with "Ht"). iIntros "Ht". rw value_some; [|lia].
  rw (_ : (1 <=? zlen n) = true); [|lia]. cbn [andb]. destruct (Z.leb_spec (zlen n) 4) as [H4|H4].
  - rw extractInteger_be; [|done|lia]. iApply wp_of_option. by iApply "HΦ".
  - rw extractInteger_long; [|done]. iApply wp_of_option. by iApply "HΦ".
Qed.

Lemma filter_other (t : Z) (tvs : list (Z * list Z)) : Forall (λ tv, tv.1 ≠ t) tvs → filter (λ tv, tv.1 = t) tvs = [].
Proof. induction 1; [done|]. by rw filter_cons_False. Qed.

(** The number of the notification that a result holds is found. *)
Lemma installation_number_bytes before n after signature :
  valid_notification n → Forall sane before → Forall (λ tv, tv.1 ≠ NOTIFICATION_METADATA_TAG) before → Forall sane after →
  Forall is_byte signature → zlen (installation_bytes before n after signature) < 2 ^ 24 →
  Forall is_byte (installation_bytes before n after signature) ∧
  installation_number (installation_bytes before n after signature) = Some (be_value (nt_number n) mod 2 ^ 16).
Proof.
  intros Hn Hbe Hno Haf Hsig Hs. rw /installation_bytes in Hs |- *. set (objs := installation_objects before n after) in *.
  set (outer := [(0xBF27, tlvs_bytes objs); (0x5F37, signature)]) in *.
  pose proof (tlv_bytes_size 0xBF37 (tlvs_bytes outer)) as S1.
  assert (zlen (tlvs_bytes objs) + 2 <= zlen (tlvs_bytes outer)) as S2 by by eapply value_size; left.
  assert (zlen (tlvs_bytes (notification_objects n)) + 2 <= zlen (tlvs_bytes objs)) as S3.
  { apply (value_size NOTIFICATION_METADATA_TAG). rw /objs /installation_objects. apply elem_of_app. right. by left. }
  destruct (notification_parsed n Hn) as (Hbn & E80 & _); [lia|].
  assert (Forall valid_tlv objs) as Hobjs.
  { apply big_objects; [|lia]. apply Forall_app. split; [done|]. constructor; [|done]. split; [right; split; done|done]. }
  assert (Forall is_byte (tlvs_bytes objs)) as Hbo by by apply tlvs_bytes_byte.
  assert (Forall valid_tlv outer) as Houter.
  { apply big_objects; [|lia]. repeat (constructor; [split; [right; split; done|done]|]). done. }
  assert (Forall is_byte (tlvs_bytes outer)) as Hbu by by apply tlvs_bytes_byte.
  split; [apply tlv_bytes_byte; [right; split; done|done|lia]|].
  assert (∀ tag v, 0 < zlen v → inside tag (Some v) = (first_tag tag v).2) as Hin.
  { by intros tag [|b v] Hv. }
  pose proof (zlen_nonneg (tlvs_bytes (notification_objects n))).
  rw /installation_number Hin; [|lia]. rw first_only; [|right; split; done|done|lia].
  rw Hin; [|lia]. rw first_tag_tlvs // /outer filter_cons_True //. cbn [head fmap option_fmap snd option_map].
  rw Hin; [|lia]. rw first_tag_tlvs // /objs /installation_objects filter_app.
  rw filter_other // filter_cons_True //. cbn [app head fmap option_fmap snd option_map notification_tlv].
  destruct Hn as (Hn & _).
  rw Hin; [|rw /notification_objects tlvs_bytes_zlen; pose proof (tlv_bytes_size 0x80 (nt_number n)); zlen_pos; lia].
  rw E80. by rw (_ : (1 <=? zlen (nt_number n)) && (zlen (nt_number n) <=? 4) = true); [|lia].
Qed.

(** C18: The number of an installation (functional): for every installation result, the function answers true and the number of
    the notification that the result holds (its low 16 bits) when it holds one of one to four bytes, and otherwise false, with
    the caller's variable as it was; the result is left alone and all that was allocated is released. *)
Theorem installation_number_read (pir : PROFILE_INSTALLATION_RESULT) (pv : pir_value) (k : Z) g :
  Forall is_byte (default [] pv.2.1) →
  triple true (owned_pir pir pv) (extractSeqNumbFromPIR (D := D) (Some pir) (Some k)) g
    (λ r g', ⟦r = match (if pv.1 then pv.2.1 ≫= installation_number else None) with
                  | Some n => (true, Some n)
                  | None => (false, Some k)
                  end ∧ g' = g⟧ ∗ owned_pir pir pv)%I.
Proof.
  iIntros (Hb) "[%Hr [H1 H2]]". destruct pv as [has [hex text]]. cbn [fst snd] in *. rw /extractSeqNumbFromPIR Hr.
  destruct has; [|wp_seq; wp_value; wp_value; iSplit; [done|]; by iFrame].
  wp_seq. iApply (wp_has_data_arg with "H1"). iIntros "H1". destruct hex as [data|]; [|wp_value; iSplit; [done|]; by iFrame].
  destruct (Z.gtb_spec (zlen data) 0) as [Hd|Hd].
  2: { wp_value. iSplit; [|by iFrame]. iPureIntro. split; [|done]. rw (zlen_0_inv data); [done|pose proof (zlen_nonneg data); lia]. }
  cbn [mbind option_bind default from_option id] in *.
  wp_seq. iApply (wp_raw_bytes with "H1"). iIntros "H1". wp_seq. iApply wp_extractTag16_value; [done|].
  iIntros (p37 b r37) "%H37 H37". apply chosen_nf in H37 as ->.
  assert ((first_tag 0xBF37 data).2 = inside 0xBF37 (Some data)) as -> by by destruct data.
  iApply (wp_inside with "H37"); [by intros; iApply wp_extractTag16_of|by destruct (inside _ _) eqn:E; [eapply inside_byte in E|apply Forall_nil_2]|].
  iIntros (p27) "%B27 H37 H27".
  iApply (wp_inside with "H27"); [by intros; iApply wp_extractTag16_of|done|]. iIntros (p2F) "%B2F H27 H2F".
  iApply (wp_inside with "H2F"); [by intros; iApply wp_extractTag_of|done|]. iIntros (p80) "%B80 H2F H80".
  iApply (wp_number with "H80"); [done|]. iIntros "H80".
  wp_seq. iApply (wp_erase with "H80"). wp_seq. iApply (wp_erase with "H2F"). wp_seq. iApply (wp_erase with "H27").
  wp_seq. iApply (wp_erase with "H37"). wp_value. iSplit; [|by iFrame]. iPureIntro. split; [|done].
  rw /number_of /installation_number. destruct (inside 0x80 _) as [n|]; [|done]. by destruct (_ && _).
Qed.
End number.

(** *** All notifications *)

Section all.
Context `{Delivery D}.
Implicit Types (g : sdk D).

Lemma entry_valid n old : valid_notification n → valid_metadata old → valid_metadata (entry n old).
Proof. intros (_ & _ & _ & Hl & _) Ho. rw /valid_metadata /entry. cbn [notificationAddressRawData]. by rw put_zlen Ho. Qed.

Lemma entries_valid ns elements : Forall valid_notification ns → Forall valid_metadata elements →
  Forall valid_metadata (zip_with entry ns elements) ∧ Forall (λ m, 0 <= seqNumber m < 2 ^ 16) (zip_with entry ns elements).
Proof.
  intros Hn. revert elements. induction Hn as [|n ns Hn _ IH]; intros elements He; [done|].
  destruct He as [|old elements Ho He]; [done|]. cbn [zip_with]. destruct (IH elements He). split; constructor; try done.
  - by apply entry_valid.
  - cbn [entry seqNumber]. by apply Z.mod_pos_bound.
Qed.

(** The globals when the first error is restored. *)
Definition restored (first : LPA_API_ERROR) g : sdk D := if no_error first then g else set_errorCode first g.

(** At most all notifications are accepted, and no error is left, so that the
    next request is not refused for it. *)
Lemma deliveries_bounded ms first g k first' g' :
  deliveries ms first g k first' g' → 0 <= k <= zlen ms ∧ (ms ≠ [] → errorCode g' = LPA_NO_ERROR).
Proof.
  induction 1 as [first g|m ms first g g1 x a g2 k first' g' _ _ -> Hd [H1 H2]|m ms first g g1 k first' g' _ Hd [H1 H2]];
    [done| |]; rw zlen_cons; (split; [lia|]); intros _; (destruct ms; [by inversion Hd|by apply H2]).
Qed.

Lemma restored_error first g : errorCode g = LPA_NO_ERROR → errorCode (restored first g) = first.
Proof. intros Hg. rw /restored /no_error. case_bool_decide; [by subst|done]. Qed.

(** C12: Sending the pending notifications (refinement), when no allocation fails and the eUICC lists one to sixteen
    notifications with numbers of one to four bytes and addresses of at most 128 bytes: there is one order of the listed
    elements, by the low 16 bits of the number and, for equal numbers, as listed, such that for every run [deliveries] of the
    exchanges and of the server the function treats the notifications as the run says: each is retrieved, with another attempt
    after a failure, at most three in all; its text goes to the server of its address; and it is removed from the eUICC after
    the server accepted it, and only then. The function then answers the number of notifications and of those accepted, at
    most all, leaves the first error that occurred as the error of the API, and keeps nothing allocated. There is no such run
    when a notification of 3, 8, 11, 16 or 19 bytes is retrieved, the NUL of whose text is written behind its buffer
    (send_overflows); more than sixteen notifications are written behind the list (notifications_overflow). *)
Theorem notifications_sent (k : Z) (ns : list notification) (elements : list metadata) (tmp : metadata) (counts : Z * Z) g x
    (a : globals D) :
  exchanges_in Manager None list_request g x a → answer_data x = Some (list_bytes ns) → valid_notifications ns → ns ≠ [] →
  Forall valid_metadata elements → zlen elements = LPA_MAX_PROFILE_NOTIFICATION_LIST_METADATA_ELEMENT → valid_metadata tmp →
  let l := zip_with entry ns elements in
  ∃ r, r ≡ₚ l ∧ StronglySorted le_seq r ∧ (∀ n, filter (λ x, seqNumber x = n) r = filter (λ x, seqNumber x = n) l) ∧
    ∀ sent first g', deliveries r LPA_NO_ERROR (answered_in Manager x a g) sent first g' →
      triple true emp%I (lpaManagerSendPendingNotification (NotificationList k elements) tmp (Some counts)) g
        (λ res g'', ⟦res = (true, Some (zlen ns, sent)) ∧ g'' = restored first g' ∧ 0 <= sent <= zlen ns ∧
                     errorCode g'' = first⟧)%I.
Proof.
  intros Hx Ha Hv Hne He Hz Ht l. pose proof Hv as (Hn & Hmax & _). destruct (entries_valid ns elements Hn He) as [Hlv Hls].
  fold l in Hlv, Hls. assert (zlen l = zlen ns) as Hll by (rw /l /zlen length_zip_with; rw /zlen in Hz Hmax; lia).
  destruct (sort_ok l (drop (length ns) elements) tmp Hlv Ht) as (r & Er & Hp & Hs & Hst).
  exists r. split_and!; [done..|]. intros sent first g' Hd. iIntros "_". rw /lpaManagerSendPendingNotification.
  wp_seq. iApply listed; [done..|]. cbn [default from_option id countNotification].
  assert ((zlen ns >? 0) = true) as Hpos by (destruct ns; [done|]; rw zlen_cons; zlen_pos; lia).
  rw Hpos. cbn [andb]. rw /entries -/l. rw -Hll Er. wp_seq. iApply wp_of_option. wp_seq.
  iApply wp_allocate. iIntros ([p|]) "Hp"; [|by iDestruct "Hp" as %?]. cbn [isNull notificationMetadataList]. wp_seq.
  assert (length r = length l) as Hrl by by apply Permutation_length.
  assert (Forall (λ m, 0 <= seqNumber m < 2 ^ 16) r) as Hrs by by rw Hp.
  rw (_ : Z.to_nat (zlen l) = length r); [|rw Hrl /zlen; lia].
  iApply (wp_pending_loop r [] (drop (length ns) elements) _ [] 0 with "[Hp]"); [done|exact Hd|by iApply raw_empty|].
  iIntros (bs) "Hp". wp_seq. iApply (free_spec _ _ (Some bs) with "Hp"). wp_seq.
  destruct (deliveries_bounded _ _ _ _ _ _ Hd) as [Hk Herr]. rw {1}/zlen Hrl -/(zlen l) Hll in Hk.
  assert (r ≠ []) as Hr0 by (intros ->; destruct l; [rw -Hll in Hpos|]; done).
  pose proof (restored_error first _ (Herr Hr0)) as Hfirst. destruct (no_error first) eqn:Ef.
  - wp_value. wp_value. iPureIntro. unfold restored in *. rw Ef in Hfirst. by rw Hll Ef.
  - wp_seq. iApply wp_resetError. iApply wp_setError. wp_value. iPureIntro.
    by rw /reporting set_errorCode_twice errorCode_set first_error_none Hll /restored Ef.
Qed.

End all.

(** ** Witnesses *)

#[local] Instance sample_server {D} : Server D := {| _handleNotification _ _ := ret true |}.
#[local] Program Instance sample_delivery {D} : Delivery D := {| deliver _ _ g := (true, g) |}.
Next Obligation. iIntros (D address text g Φ) "HΦ". by wp_value. Qed.

Definition sample_notification (number : Z) : notification := Notification [number] [7; 0x80] [0x61; 0x2E; 0x62] [].
Definition sample_notifications : list notification := [sample_notification 9; sample_notification 5].
Definition sample_data : list Z := seqZ 1 14.
Definition sample_retrieved : list Z :=
  tlv_bytes RETRIEVE_NOTIFICATIONS_LIST_TAG (tlv_bytes ASN1_CONSTRUCTED_ATTRIBUTE_TAG sample_data) ++ [0x90; 0x00].
Definition sample_removed : list Z :=
  tlv_bytes REMOVE_NOTIFICATION_FROM_LIST_TAG (tlv_bytes DER_ATTRIBUTE_TAG [0]) ++ [0x90; 0x00].
Definition sample_pending : list (list Z) :=
  [list_bytes sample_notifications ++ [0x90; 0x00]; sample_retrieved; sample_removed; sample_retrieved; sample_removed].
Definition sample_element : metadata := Metadata 0 0 (fill 0 128) 0.

Lemma sample_notifications_valid : valid_notifications sample_notifications.
Proof.
  split_and!; [|by vm_compute..]. repeat constructor; by vm_compute.
Qed.

(** The seventeenth notification has no place in the list; sixteen have. *)
Definition extract_sample (n : Z) :=
  let ns := sample_notification <$> seqZ 1 n in
  _doExtractMetadataForGetProfileNotificationList (Some (NotificationList 0 (replicate 16 sample_element)))
    (Some (list_bytes ns)) (zlen (list_bytes ns)) (World ∅ [] (sample_sdk [])).
Lemma notifications_overflow : is_Some (extract_sample 16) ∧ extract_sample 17 = None.
Proof. by split; [eexists|]; vm_compute. Qed.

(** The elements that a list of one notification gives. *)
Definition listed_alone (n : notification) : option (bool * option metadata) :=
  (λ r, (r.1.1, r.1.2 ≫= λ l, head (notificationMetadataList l))) <$>
  _doExtractMetadataForGetProfileNotificationList (Some (NotificationList 0 (replicate 16 sample_element)))
    (Some (list_bytes [n])) (zlen (list_bytes [n])) (World ∅ [] (sample_sdk [])).

(** A number is cut to 16 bits; one of five bytes, or none, and an address of
    129 bytes are refused. *)
Lemma notifications_limits :
  listed_alone (Notification [1; 0; 5] [7; 0x80] [0x61] []) =
    Some (true, Some (Metadata 5 LPA_NOTIFICATION_INSTALL (0x61 :: fill 0 127) 1)) ∧
  fst <$> listed_alone (Notification [0; 0; 0; 0; 5] [7; 0x80] [0x61] []) = Some false ∧
  fst <$> listed_alone (Notification [] [7; 0x80] [0x61] []) = Some false ∧
  fst <$> listed_alone (Notification [5] [7; 0x80] (fill 0x61 128) []) = Some true ∧
  fst <$> listed_alone (Notification [5] [7; 0x80] (fill 0x61 129) []) = Some false.
Proof. vm_compute. split_and!; reflexivity. Qed.

Lemma notifications_listed_witness :
  let g := sample_sdk sample_pending in
  let elements := replicate 16 sample_element in
  ∃ x a, exchanges_in Manager None list_request g x a ∧ answer_data x = Some (list_bytes sample_notifications) ∧
    entries sample_notifications elements !! 1%nat = Some (Metadata 5 LPA_NOTIFICATION_INSTALL ([0x61; 0x2E; 0x62] ++ fill 0 125) 3) ∧
    triple true emp%I (lpaManagerGetProfileNotificationList (Some (NotificationList 3 elements))) g
      (λ r g', ⟦r = (true, Some (NotificationList 2 (entries sample_notifications elements))) ∧
                g' = answered_in Manager x a g⟧)%I.
Proof.
  cbv zeta. assert (∃ x a, exchanges_in Manager None list_request (sample_sdk sample_pending) x a ∧
    answer_data x = Some (list_bytes sample_notifications)) as (x & a & Hx & E).
  { eexists _, _. split; [split; [vm_compute; reflexivity|answer_bytes]|vm_compute; reflexivity]. }
  exists x, a. split; [exact Hx|]. split; [exact E|]. split; [by vm_compute|].
  apply (notifications_listed 3 sample_notifications (replicate 16 sample_element) _ x a Hx E); [apply sample_notifications_valid| |done].
  apply Forall_replicate. done.
Defined.

Definition sample_sorted : list metadata :=
  [entry (sample_notification 5) sample_element; entry (sample_notification 9) sample_element].

Definition sample_manager : sdk (list (list Z) * list (list Z)) :=
  Sdk (sample_globals sample_pending) [] [] (fill 0 80) true.

Ltac sample_exchange := split; [vm_compute; reflexivity|answer_bytes].

Lemma sample_delivered : ∃ x a g',
  exchanges_in Manager None list_request sample_manager x a ∧
  answer_data x = Some (list_bytes sample_notifications) ∧
  deliveries sample_sorted LPA_NO_ERROR (answered_in Manager x a sample_manager) 2 LPA_NO_ERROR g'.
Proof.
  eexists _, _, _. split; [sample_exchange|]. split; [vm_compute; reflexivity|].
  change 2 with (1 + (1 + 0)).
  do 2 (eapply deliveries_sent;
    [eapply (attempts_retrieved _ _ _ _ _ _ (true, _)); [sample_exchange|vm_compute; reflexivity|vm_compute; reflexivity]
    |sample_exchange|vm_compute; reflexivity|]).
  apply deliveries_over.
Qed.

(** The NUL behind the text of a notification of three bytes is written behind
    its buffer; that of fourteen bytes is not. *)
Definition sent_alone (v : list Z) : option bool :=
  fst <$> _sendNotificationToServer (entry (sample_notification 5) sample_element) (Some 1%positive)
    (World {[1%positive := BRaw (Some 2%positive) (zlen v); 2%positive := BBytes v]} [] sample_manager).
Lemma send_overflows : sent_alone [1; 2; 3] = None ∧ sent_alone sample_data = Some true.
Proof. by vm_compute. Qed.

Lemma notifications_sent_witness :
  ∃ x a g',
    exchanges_in Manager None list_request sample_manager x a ∧
    deliveries sample_sorted LPA_NO_ERROR (answered_in Manager x a sample_manager) 2 LPA_NO_ERROR g' ∧
    triple true emp%I
      (lpaManagerSendPendingNotification (NotificationList 0 (replicate 16 sample_element)) sample_element (Some (0, 0)))
      sample_manager (λ res g'', ⟦res = (true, Some (2, 2)) ∧ g'' = g' ∧ 0 <= 2 <= 2 ∧ errorCode g'' = LPA_NO_ERROR⟧)%I.
Proof.
  destruct sample_delivered as (x & a & g' & Hx & E & Hd). exists x, a, g'. split; [exact Hx|]. split; [exact Hd|].
  destruct (notifications_sent 0 sample_notifications (replicate 16 sample_element) sample_element (0, 0) _ x a Hx E)
    as (r & Hp & Hs & _ & Hr); [apply sample_notifications_valid|done|by apply Forall_replicate|done|done|].
  enough (r = sample_sorted) as -> by exact (Hr 2 LPA_NO_ERROR g' Hd).
  apply Permutation_sym in Hp. vm_compute in Hp. apply Permutation_length_2_inv in Hp. destruct Hp as [Hp|Hp]; [|by rw Hp]. rw Hp in Hs.
  apply StronglySorted_inv, proj2, Forall_inv in Hs. by vm_compute in Hs.
Defined.

Definition sample_installation : list Z := installation_bytes [(0x80, [1; 2])] (sample_notification 9) [(0x86, [3])] [4; 5].

Lemma installation_number_read_witness :
  let g := sample_manager in
  let pir := Pir true (AnswerPair (Some 1%positive) None) in
  triple true (owned_pir pir (true, (Some sample_installation, None))) (extractSeqNumbFromPIR (Some pir) (Some 7)) g
    (λ r g', ⟦r = (true, Some 9) ∧ g' = g⟧ ∗ owned_pir pir (true, (Some sample_installation, None)))%I.
Proof.
  cbv zeta. destruct (installation_number_bytes [(0x80, [1; 2])] (sample_notification 9) [(0x86, [3])] [4; 5]) as [Hb E].
  1-6: try (by vm_compute); repeat constructor; by vm_compute.
  pose proof (installation_number_read (Pir true (AnswerPair (Some 1%positive) None)) (true, (Some sample_installation, None)) 7
    sample_manager Hb) as Hw.
  cbn [fst snd mbind option_bind] in Hw. rw E in Hw. exact Hw.
Defined.
