(* ===== verification/Address.v ===== *)
(** * Addresses of the servers

    The functions of [lpa_manager.c] on the addresses of the servers: the
    addresses that the eUICC holds ([lpaManagerGetSMDPAddress],
    [lpaManagerGetSMDSAddress]), the default one that it is given
    ([lpaManagerSetDefaultSMDPAddress]) and the address that a server has signed
    ([_verifySMDPAddress]). *)

From stdpp Require Import gmap.
From iris.bi Require Import bi.
From iris.proofmode Require Import proofmode.
From S2P Require Import Prelude CLib Activation StateMonad ApiError Heap Wp RawData BerTlv TlvWalk.
From S2P Require Import SeMedia Apdu Es10 Es10b Bpp Es10c Profiles Rat Policy Metadata Incoming Notification Pending.

Definition LPA_SMDS_ADDRESS_SIZE : Z := LPA_SMDP_ADDRESS_SIZE.
Definition LPA_MANAGER_DATA_BUFFER_MAX_SIZE : Z := MAX_LPA_MANAGER_APDU_BUFFER_SIZE.

Record EUICC_CONFIGURE_ADDR := EuiccConfigureAddr {
  eUICCConfiguredAddr_RawData : list Z;
  eUICCConfiguredAddr_RawDataSize : Z
}.
Record ADDRESS_DATA := AddressData {
  address_Data : list Z;
  address_DataSize : Z
}.

Section code.
Context {D : Type}.
Abbreviation M := (Heap.M (sdk D)).

(** ** Code *)

(** *** The addresses in the eUICC *)

(** What is done with an answer. *)
Definition configured_answer (sw dataBufferSize : Z) (addr : EUICC_CONFIGURE_ADDR) : M (bool * EUICC_CONFIGURE_ADDR) :=
  if sw_success sw then
    if dataBufferSize >? 0 then
      if dataBufferSize <=? LPA_GET_EUICC_BUFFER_MAX_SIZE then
        let* data := data_of Manager in
        let* copied := of_option (copy_value (eUICCConfiguredAddr_RawData addr) data dataBufferSize) in
        ret (true, EuiccConfigureAddr copied dataBufferSize)
      else fail LPA_ERROR_INSUFFICIENT_BUFFER addr
    else fail LPA_ERROR_INVALID_GET_EUICC_ADDRESS addr
  else fail LPA_ERROR_INVALID_SW addr.

(** The repetition. [sw] and [dataBufferSize] are not set back between the
    attempts, but one that succeeds writes both. *)
Fixpoint configured_loop (n : nat) (request : ptr) (addr : EUICC_CONFIGURE_ADDR) : M (bool * EUICC_CONFIGURE_ADDR) :=
  match n with
  | O => ret (false, addr)
  | S n =>
      let* '(sent, sw, dataBufferSize) := storeData_in Manager request (Some LPA_MANAGER_DATA_BUFFER_MAX_SIZE) in
      if sent : bool then configured_answer sw dataBufferSize addr
      else
        let* e := getErrorNoClear in
        if is_chaining_error e then
          (if (0 <? n)%nat then resetError else ret tt) ;; configured_loop n request addr
        else fail LPA_ERROR_INVALID_GET_EUICC_ADDRESS addr
  end.

Definition _getEUICCconfiguredAddresses (ptrEuiccAddr : option EUICC_CONFIGURE_ADDR) : M (bool * option EUICC_CONFIGURE_ADDR) :=
  match ptrEuiccAddr with
  | Some addr =>
      let* request := berTLV_createAndBuildRawDataObject 0xBF3C 0 None in
      let* filled := has_data request in
      let* '(res, addr) :=
        (if filled : bool then configured_loop LPA_LOOP_NUMBER_FOR_CHAINED_GET_RESPONSE request addr
         else fail LPA_ERROR_INVALID_GET_EUICC_ADDRESS addr) in
      ERASE_RAWDATAOBJECT request ;;
      ret (res, Some addr)
  | None => fail LPA_ERROR_INVALID_PARAMETER None
  end.

(** [memset(&euiccAddr, 0, sizeof(EUICC_CONFIGURE_ADDR))] *)
Definition zero_addr : EUICC_CONFIGURE_ADDR := EuiccConfigureAddr (fill 0 LPA_GET_EUICC_BUFFER_MAX_SIZE) 0.

(** The object of tag 80 or 81. *)
Definition store_address (t : ptr) (fits : Z → bool) (ptrAddressData : ADDRESS_DATA) : M (bool * ADDRESS_DATA) :=
  let* '(_, length, value) := tlv_data t in
  let* r :=
    (if fits length then
       let* address := of_option (copy_value (address_Data ptrAddressData) value length) in
       ret (true, AddressData address length)
     else fail LPA_ERROR_INSUFFICIENT_BUFFER ptrAddressData) in
  berTLV_freeBerTLV t ;;
  ret r.

Definition lpaManagerGetSMDPAddress (ptrAddressData : option ADDRESS_DATA) : M (bool * option ADDRESS_DATA) :=
  match ptrAddressData with
  | Some data =>
      let* '(ok, euiccAddr) := _getEUICCconfiguredAddresses (Some zero_addr) in
      let euiccAddr := default zero_addr euiccAddr in
      if ok : bool then
        if eUICCConfiguredAddr_RawDataSize euiccAddr >? 0 then
          let* '(berTLV_BF3C, _) := berTLV_extractTagUInt16 0xBF3C (Some (eUICCConfiguredAddr_RawData euiccAddr))
                                      (eUICCConfiguredAddr_RawDataSize euiccAddr) in
          let* '(res, data) :=
            (if isNull berTLV_BF3C then fail LPA_ERROR_INVALID_GET_SMDP_ADDRESS data
             else
               let* berTLV_80 := extractTag_of 0x80 berTLV_BF3C in
               if isNull berTLV_80 then ret (true, AddressData (address_Data data) 0)
               else store_address berTLV_80 (λ n, n <? LPA_SMDP_ADDRESS_SIZE) data) in
          berTLV_freeBerTLV berTLV_BF3C ;;
          ret (res, Some data)
        else ret (false, Some data)
      else fail LPA_ERROR_INVALID_GET_EUICC_ADDRESS (Some data)
  | None => fail LPA_ERROR_INVALID_PARAMETER None
  end.

Definition lpaManagerGetSMDSAddress (ptrAddressData : option ADDRESS_DATA) : M (bool * option ADDRESS_DATA) :=
  match ptrAddressData with
  | Some data =>
      let* '(ok, euiccAddr) := _getEUICCconfiguredAddresses (Some zero_addr) in
      let euiccAddr := default zero_addr euiccAddr in
      if ok : bool then
        if eUICCConfiguredAddr_RawDataSize euiccAddr >? 0 then
          let* '(berTLV_BF3C, _) := berTLV_extractTagUInt16 0xBF3C (Some (eUICCConfiguredAddr_RawData euiccAddr))
                                      (eUICCConfiguredAddr_RawDataSize euiccAddr) in
          let* '(res, data) :=
            (if isNull berTLV_BF3C then fail LPA_ERROR_INVALID_GET_SMDS_ADDRESS data
             else
               let* berTLV_81 := extractTag_of 0x81 berTLV_BF3C in
               if isNull berTLV_81 then fail LPA_ERROR_INVALID_GET_SMDS_ADDRESS data
               else store_address berTLV_81 (λ n, n <=? LPA_SMDS_ADDRESS_SIZE) data) in
          berTLV_freeBerTLV berTLV_BF3C ;;
          ret (res, Some data)
        else fail LPA_ERROR_INVALID_GET_EUICC_ADDRESS (Some data)
      else fail LPA_ERROR_INVALID_GET_EUICC_ADDRESS (Some data)
  | None => fail LPA_ERROR_INVALID_PARAMETER None
  end.

(** *** The default address *)

Definition responseBufferSize : Z := 10.

(** The verdict is the last byte of the answer, whatever comes before it. *)
Definition set_answer (ptrResponseBuffer : ptr) (sent : bool) (sw dataBufferSize : Z) : M bool :=
  if sent then
    if sw_success sw then
      if dataBufferSize >? 1 then
        let* bytes := load_bytes ptrResponseBuffer in
        let* b := of_option bytes.[dataBufferSize - 1] in
        if b =? 0 then ret true else setError LPA_ERROR_INVALID_SET_DEFAULT_SMDP_ADDRESS ;; ret false
      else setError LPA_ERROR_INVALID_SET_DEFAULT_SMDP_ADDRESS ;; ret false
    else setError LPA_ERROR_INVALID_SW ;; ret false
  else setError LPA_ERROR_INVALID_SET_DEFAULT_SMDP_ADDRESS ;; ret false.

Definition lpaManagerSetDefaultSMDPAddress (ptrSMDPAddr : option (list Z)) : M bool :=
  match ptrSMDPAddr with
  | None => setError LPA_ERROR_INVALID_PARAMETER ;; ret false
  | Some s =>
      let* n := of_option (strlen s) in
      if n <? LPA_SMDP_ADDRESS_SIZE then
        let* ptrResponseBuffer := lpaCoreMemoryAlloc responseBufferSize in
        if isNull ptrResponseBuffer then setError LPA_ERROR_INSUFFICIENT_BUFFER ;; ret false
        else
          let* addr_80 := berTLV_createAndBuildRawDataObject 0x80 n (Some s) in
          let* filled := has_data addr_80 in
          let* res :=
            (if filled : bool then
               let* addr := wrap_object 0xBF3F addr_80 in
               let* filled := has_data addr in
               let* res :=
                 (if filled : bool then
                    let* '(sent, sw, dataBufferSize) := storeData_to addr ptrResponseBuffer responseBufferSize in
                    set_answer ptrResponseBuffer sent sw dataBufferSize
                  else setError LPA_ERROR_INVALID_SET_DEFAULT_SMDP_ADDRESS ;; ret false) in
               ERASE_RAWDATAOBJECT addr ;;
               ret res
             else setError LPA_ERROR_INVALID_SET_DEFAULT_SMDP_ADDRESS ;; ret false) in
          ERASE_RAWDATAOBJECT addr_80 ;;
          lpaCoreMemoryFree ptrResponseBuffer ;;
          ret res
      else setError LPA_ERROR_INVALID_PARAMETER ;; ret false
  end.

(** *** The address of a server *)

(** The body of the loop over the objects that the server signed. *)
Definition server_body (current : ptr) (ptrServerSmdpAddress : ptr) : M (bool * ptr) :=
  let* '(tag, length, value) := tlv_data current in
  if tag =? 0x83 then
    if length >? 0 then
      let* p := lpaCoreMemoryAlloc (length + 1) in
      if isNull p then ret (true, p)
      else
        let* bytes := load_bytes p in
        let* bytes := of_option (copy_value bytes value length) in
        let* bytes := of_option bytes.[length := 0] in
        store p (BBytes bytes) ;;
        ret (true, p)
    else ret (true, ptrServerSmdpAddress)
  else ret (true, ptrServerSmdpAddress).

(** [ptrServerSmdpAddress != NULL && strcmp(ptrServerSmdpAddress, ptrSmdpAddress) == 0] *)
Definition same_address (ptrServerSmdpAddress : ptr) (smdpAddress : list Z) : M bool :=
  if isNull ptrServerSmdpAddress then ret false
  else
    let* bytes := load_bytes ptrServerSmdpAddress in
    let* found := of_option (c_str bytes) in
    let* expected := of_option (c_str smdpAddress) in
    ret (streqb found expected).

Definition _verifySMDPAddress (ptrSmdpAddress ptrServerSignedTLV : option (list Z)) (serverSignedTLVSize : Z) : M bool :=
  match ptrSmdpAddress, ptrServerSignedTLV with
  | Some smdpAddress, Some _ =>
      if serverSignedTLVSize >? 0 then
        let* '(berTLV_30, _) := berTLV_extractTagUInt16 0x30 ptrServerSignedTLV serverSignedTLVSize in
        let* '(ptrServerSmdpAddress, tlvList) :=
          (if isNull berTLV_30 then ret (None, None)
           else
             let* '(tlvList, countTLVFound) := extractList_of berTLV_30 in
             if (countTLVFound >? 0) && negb (isNull tlvList) then
               let* p := walk_with (λ _, ub) server_body tlvList None in ret (p, tlvList)
             else ret (None, tlvList)) in
        let* res := same_address ptrServerSmdpAddress smdpAddress in
        (if res : bool then ret tt else setError LPA_ERROR_INVALID_SERVER_ADDRESS) ;;
        ERASE_BERTLV_LIST tlvList ;;
        ERASE_BERTLV berTLV_30 ;;
        (if isNull ptrServerSmdpAddress then ret tt else lpaCoreMemoryFree ptrServerSmdpAddress) ;;
        ret res
      else setError LPA_ERROR_INVALID_PARAMETER ;; ret false
  | _, _ => setError LPA_ERROR_INVALID_PARAMETER ;; ret false
  end.
End code.

(** ** Reference *)

(** The exchange that ends the repetition, none when all of them broke off in
    the middle of a chained answer. *)
Section repetition.
Context {D : Type}.
Implicit Types (g : sdk D).

Inductive repeated (request : list Z) : nat → sdk D → option answered → sdk D → Prop :=
  | repeated_over g : repeated request O g None g
  | repeated_done n g x a :
      exchanges_in Manager (Some LPA_MANAGER_DATA_BUFFER_MAX_SIZE) request g x a →
      x.1.1.1 = true ∨ errorCode (answered_in Manager x a g) ≠ SE_MEDIA_E_CHAINING_GET_RESPONSE →
      repeated request (S n) g (Some x) (answered_in Manager x a g)
  | repeated_again n g x a r g' :
      exchanges_in Manager (Some LPA_MANAGER_DATA_BUFFER_MAX_SIZE) request g x a →
      x.1.1.1 = false → errorCode (answered_in Manager x a g) = SE_MEDIA_E_CHAINING_GET_RESPONSE →
      repeated request n (before_retry n (answered_in Manager x a g)) r g' →
      repeated request (S n) g r g'.
End repetition.

(** What an exchange yields: the data or an error. *)
Definition configured (r : option answered) : LPA_API_ERROR + list Z :=
  match r with
  | Some (true, sw, buf, n) =>
      if sw_success sw then
        if n >? 0 then
          if n <=? LPA_GET_EUICC_BUFFER_MAX_SIZE then inr (take (Z.to_nat n) buf) else inl LPA_ERROR_INSUFFICIENT_BUFFER
        else inl LPA_ERROR_INVALID_GET_EUICC_ADDRESS
      else inl LPA_ERROR_INVALID_SW
  | _ => inl LPA_ERROR_INVALID_GET_EUICC_ADDRESS
  end.

(** The result and the error of a judgement. *)
Definition judged (o : LPA_API_ERROR + list Z) (data : ADDRESS_DATA) : bool * ADDRESS_DATA * option LPA_API_ERROR :=
  match o with
  | inr address => (true, AddressData (put (address_Data data) address) (zlen address), None)
  | inl e => (false, data, Some e)
  end.

(** The object of [tag] inside BF3C. *)
Definition address_of (e : LPA_API_ERROR) (tag : Z) (absent : LPA_API_ERROR + list Z) (fits : Z → bool) (d : list Z)
    : LPA_API_ERROR + list Z :=
  match (first_tag 0xBF3C d).2 with
  | Some v => match (first_tag tag v).2 with
              | Some address => if fits (zlen address) then inr address else inl LPA_ERROR_INSUFFICIENT_BUFFER
              | None => absent
              end
  | None => inl e
  end.

(** The addresses in the data; that of the SM-DP+ is optional. *)
Definition smdp_of : list Z → LPA_API_ERROR + list Z :=
  address_of LPA_ERROR_INVALID_GET_SMDP_ADDRESS 0x80 (inr []) (λ n, n <? LPA_SMDP_ADDRESS_SIZE).
Definition smds_of : list Z → LPA_API_ERROR + list Z :=
  address_of LPA_ERROR_INVALID_GET_SMDS_ADDRESS 0x81 (inl LPA_ERROR_INVALID_GET_SMDS_ADDRESS) (λ n, n <=? LPA_SMDS_ADDRESS_SIZE).

(** The result, the caller's structure and the error of a request whose answer
    is judged by [judge]. *)
Definition address_outcome (judge : list Z → LPA_API_ERROR + list Z) (r : option answered) (data : ADDRESS_DATA)
    : bool * ADDRESS_DATA * option LPA_API_ERROR :=
  judged (match configured r with inr d => judge d | inl e => inl e end) data.

Definition addresses_request : list Z := tlv_bytes 0xBF3C [].

(** The verdict on the answer to a new default address. *)
Definition set_verdict (x : answered) : option LPA_API_ERROR :=
  let '(sent, sw, buf, n) := x in
  if sent then
    if sw_success sw then
      if (n >? 1) && bool_decide (last (take (Z.to_nat n) buf) = Some 0) then None
      else Some LPA_ERROR_INVALID_SET_DEFAULT_SMDP_ADDRESS
    else Some LPA_ERROR_INVALID_SW
  else Some LPA_ERROR_INVALID_SET_DEFAULT_SMDP_ADDRESS.
Definition set_request (address : list Z) : list Z := tlv_bytes 0xBF3F (tlv_bytes 0x80 address).

(** The address that a server signed: the object 83, if it is not empty. *)
Definition signed_addresses (tvs : list (Z * list Z)) : list (list Z) :=
  snd <$> filter (λ tv, tv.1 = 0x83 ∧ tv.2 ≠ []) tvs.

(** ** Proofs *)

Section configured.
Context {D : Type}.
Implicit Types (g : sdk D).

Definition buffer_ok g : Prop := LPA_MANAGER_DATA_BUFFER_MAX_SIZE <= zlen (dataBuffer Manager g).

Lemma buffer_answered g x a :
  buffer_ok g → exchanges_in Manager (Some LPA_MANAGER_DATA_BUFFER_MAX_SIZE) addresses_request g x a →
  buffer_ok (answered_in Manager x a g) ∧ 0 <= x.2 <= zlen x.1.2 ∧ zlen x.1.2 = zlen (dataBuffer Manager g).
Proof.
  intros Hg [Hx _]. destruct x as [[[sent sw] buf] n]. cbn [fst snd]. apply ask_fits in Hx as [Hz Hn]; [|done].
  rw /buffer_ok dataBuffer_answered. cbn [fst snd]. rw Hz. split_and!; try done; [lia|]. rw /room_of /= in Hn. rw /buffer_ok in Hg. lia.
Qed.

Lemma reporting_again e g : e ≠ LPA_NO_ERROR →
  reporting LPA_ERROR_INVALID_GET_EUICC_ADDRESS (reporting e g) = reporting e g.
Proof. intros He. rw /reporting errorCode_set set_errorCode_twice. f_equal. by apply first_error_kept, first_error_error. Qed.

Lemma copy_prefix dst src n : 0 <= n <= zlen src → n <= zlen dst →
  copy_value dst (Some src) n = Some (put dst (take (Z.to_nat n) src)).
Proof.
  intros Hn Hd. rw /copy_value. assert (rd_range src 0 n = Some (take (Z.to_nat n) src)) as -> by by rw rd_range_Some; [|lia..].
  cbn [mbind option_bind]. apply wr_range_put. rw zlen_take. lia.
Qed.

Lemma wp_configured_loop n p addr g r g' Φ :
  buffer_ok g → repeated addresses_request n g r g' → zlen (eUICCConfiguredAddr_RawData addr) = LPA_GET_EUICC_BUFFER_MAX_SIZE →
  raw p addresses_request -∗
  (raw p addresses_request -∗
   match configured r with
   | inr d => ⟦0 < zlen d ∧ Forall is_byte d⟧ -∗
       Φ (true, EuiccConfigureAddr (put (eUICCConfiguredAddr_RawData addr) d) (zlen d)) g'
   | inl e => ∀ g'', ⟦reporting LPA_ERROR_INVALID_GET_EUICC_ADDRESS g'' = reporting e g'⟧ -∗ Φ (false, addr) g''
   end) -∗
  wp true (configured_loop n p addr) g Φ.
Proof.
  intros Hg Hr Ha. revert Hg Φ. induction Hr as [g|n g x a Hx He|n g x a r g' Hx Hs He Hr IH]; iIntros (Hg Φ) "Hp HΦ";
    cbn [configured_loop].
  - wp_value. iApply ("HΦ" with "Hp"). by iPureIntro.
  - wp_seq. iApply (wp_storeData_in with "Hp"); [done|done|exact Hx|]. iIntros "Hp".
    destruct (buffer_answered _ _ _ Hg Hx) as (_ & Hn & Hz). destruct Hx as [_ Hb]. destruct x as [[[sent sw] buf] n0].
    cbn [fst snd configured] in *. destruct sent.
    + rw /configured_answer. destruct (sw_success sw); [|wp_seq; iApply wp_setError; wp_value; iApply ("HΦ" with "Hp"); iPureIntro; by apply reporting_again].
      destruct (Z.gtb_spec n0 0) as [H0|H0]; [|wp_seq; iApply wp_setError; wp_value; iApply ("HΦ" with "Hp"); iPureIntro; by apply reporting_again].
      destruct (Z.leb_spec n0 LPA_GET_EUICC_BUFFER_MAX_SIZE) as [H1|H1]; [|wp_seq; iApply wp_setError; wp_value; iApply ("HΦ" with "Hp"); iPureIntro; by apply reporting_again].
      wp_seq. iApply wp_data_of. rw dataBuffer_answered. cbn [fst snd]. wp_seq.
      rw copy_prefix; [|lia|lia]. iApply wp_of_option. wp_value.
      assert (zlen (take (Z.to_nat n0) buf) = n0) as Hl by (rw zlen_take; lia). rw Hl.
      iApply ("HΦ" with "Hp"). by iPureIntro.
    + wp_seq. iApply wp_getErrorNoClear. destruct He as [|He]; [done|].
      rw /is_chaining_error bool_decide_eq_false_2 //. wp_seq. iApply wp_setError. wp_value. iApply ("HΦ" with "Hp").
      iPureIntro. by apply reporting_again.
  - wp_seq. iApply (wp_storeData_in with "Hp"); [done|done|exact Hx|]. iIntros "Hp".
    destruct (buffer_answered _ _ _ Hg Hx) as (Hg' & _). rw Hs. wp_seq. iApply wp_getErrorNoClear.
    rw /before_retry in Hr IH. rw He in Hr IH. rw He. cbn [is_chaining_error bool_decide decide_rel andb] in *. wp_seq. destruct (0 <? n)%nat.
    + iApply wp_resetError. iApply (IH with "Hp HΦ"). done.
    + wp_value. by iApply (IH with "Hp HΦ").
Qed.
Lemma configured_size r d : configured r = inr d → zlen d <= LPA_GET_EUICC_BUFFER_MAX_SIZE.
Proof.
  destruct r as [[[[[] sw] buf] n]|]; [|done..]. cbn [configured]. destruct (sw_success sw); [|done].
  destruct (n >? 0); [|done]. destruct (Z.leb_spec n LPA_GET_EUICC_BUFFER_MAX_SIZE) as [H|H]; [|done]. intros [= <-].
  rw zlen_take. rw /LPA_GET_EUICC_BUFFER_MAX_SIZE in H |- *. lia.
Qed.

Lemma wp_get_configured g r g' Φ :
  buffer_ok g → repeated addresses_request LPA_LOOP_NUMBER_FOR_CHAINED_GET_RESPONSE g r g' →
  match configured r with
  | inr d => ⟦0 < zlen d ∧ Forall is_byte d ∧ zlen d <= LPA_GET_EUICC_BUFFER_MAX_SIZE⟧ -∗
      Φ (true, Some (EuiccConfigureAddr (put (eUICCConfiguredAddr_RawData zero_addr) d) (zlen d))) g'
  | inl e => ∀ g'', ⟦reporting LPA_ERROR_INVALID_GET_EUICC_ADDRESS g'' = reporting e g'⟧ -∗ Φ (false, Some zero_addr) g''
  end -∗
  wp true (_getEUICCconfiguredAddresses (Some zero_addr)) g Φ.
Proof.
  iIntros (Hg Hr) "HΦ". wp_seq. iApply wp_build_empty; [done|]. iIntros (l) "Hl". wp_seq.
  iApply (wp_has_data with "Hl"); [done|]. iIntros "Hl". wp_seq.
  iApply (wp_configured_loop with "Hl"); [done|exact Hr|done|]. iIntros "Hl".
  assert (∀ d, configured r = inr d → zlen d <= LPA_GET_EUICC_BUFFER_MAX_SIZE) as Hd by apply configured_size.
  destruct (configured r) as [e|d].
  - iIntros (g'') "%He". wp_seq. iApply (wp_erase_obj with "Hl"). wp_value. by iApply "HΦ".
  - iIntros "%H". destruct H as [H1 H2]. wp_seq. iApply (wp_erase_obj with "Hl"). wp_value. iApply "HΦ". iPureIntro.
    split_and!; [done|done|]. by apply Hd.
Qed.

Lemma wp_free_tlv p tag r g Φ :
  maybe_tlv p tag r -∗ (∀ b, Φ b g) -∗ wp true (berTLV_freeBerTLV (G := sdk D) p) g Φ.
Proof.
  iIntros "Hp HΦ". destruct r as [v|]; cbn [maybe_tlv]; [by iApply (tlv_free_spec with "Hp")|].
  iDestruct "Hp" as %->. by wp_value.
Qed.

Lemma wp_store_address t tag v fits data g Φ :
  (fits (zlen v) = true → zlen v <= zlen (address_Data data)) →
  tlv t tag v -∗
  (if fits (zlen v) then Φ (true, AddressData (put (address_Data data) v) (zlen v)) g
   else Φ (false, data) (reporting LPA_ERROR_INSUFFICIENT_BUFFER g)) -∗
  wp true (store_address t fits data) g Φ.
Proof.
  iIntros (Hf) "Ht HΦ". wp_seq. iApply (wp_tlv_data with "Ht"). iIntros "Ht". wp_seq. destruct (fits (zlen v)).
  - wp_seq. rw copy_value_ok; [|by apply Hf]. iApply wp_of_option. wp_value. wp_seq.
    iApply (wp_free_tlv _ _ (Some v) with "Ht"). iIntros (b). by wp_value.
  - wp_seq. iApply wp_setError. wp_value. wp_seq. iApply (wp_free_tlv _ _ (Some v) with "Ht"). iIntros (b). by wp_value.
Qed.

Definition delivers {A} (o : LPA_API_ERROR + list Z) data (f : ADDRESS_DATA → A) g (Φ : bool * A → sdk D → heapProp) : heapProp :=
  let '(ok, data', e) := judged o data in Φ (ok, f data') (reporting_opt e g).

Lemma wp_address_of e tag absent fits (none : Heap.M (sdk D) (bool * ADDRESS_DATA)) data d g Φ :
  0 <= tag < 256 → 0 < zlen d <= LPA_GET_EUICC_BUFFER_MAX_SIZE → Forall is_byte d →
  (∀ n, fits n = true → n <= zlen (address_Data data)) →
  (∀ Ψ, delivers absent data id g Ψ ⊢ wp true none g Ψ) →
  delivers (address_of e tag absent fits d) data Some g Φ -∗
  wp true (let* '(berTLV_BF3C, _) := berTLV_extractTagUInt16 0xBF3C (Some (put (eUICCConfiguredAddr_RawData zero_addr) d)) (zlen d) in
           let* '(res, data) :=
             (if isNull berTLV_BF3C then fail e data
              else let* t := extractTag_of tag berTLV_BF3C in
                   if isNull t then none else store_address t fits data) in
           berTLV_freeBerTLV berTLV_BF3C ;;
           ret (res, Some data)) g Φ.
Proof.
  iIntros (Ht Hd Hb Hf Hnone) "HΦ". set (arr := put _ d).
  assert (take (Z.to_nat (zlen d)) arr = d) as Htake by (rw zlen_to_nat /arr /put take_app_length //).
  assert (zlen d <= zlen arr) as Hl by (rw /arr /put zlen_app; zlen_pos; lia).
  wp_seq. iApply wp_extractTag16; [zlen_pos; lia|by rw Htake|]. rw Htake. iIntros (p b r) "%Hr Hp". apply chosen_nf in Hr.
  iDestruct (maybe_null with "Hp") as "[%En Hp]". rw En. rw /address_of -Hr. wp_seq.
  destruct r as [v|]; cbn [present negb].
  2: { wp_seq. iApply wp_setError. wp_value. wp_seq. iApply (wp_free_tlv with "Hp"). iIntros (?). by wp_value. }
  assert (Forall is_byte v) as Hv by by eapply first_tag_byte.
  wp_seq. iApply (wp_extractTag_of with "Hp"); [done..|]. iIntros (t rt) "%Hrt Hp Ht". apply chosen_nf in Hrt. rw -Hrt.
  iDestruct (maybe_null with "Ht") as "[%Et Ht]". rw Et.
  iAssert (∀ res, (let '(ok, data', e0) := judged res data in Φ (ok, Some data') (reporting_opt e0 g)) -∗ tlv p 0xBF3C v -∗
    delivers res data id g (λ r g, wp true (let '(res, data) := r in berTLV_freeBerTLV p ;; ret (res, Some data)) g Φ))%I as "Hend".
  { iIntros (res) "HΦ Hp". rw /delivers. destruct (judged res data) as [[ok data'] e0]. wp_seq.
    iApply (wp_free_tlv _ _ (Some v) with "Hp"). iIntros (?). by wp_value. }
  destruct rt as [a|]; cbn [present negb maybe_tlv].
  - iApply (wp_store_address with "Ht"); [apply Hf|]. destruct (fits (zlen a)).
    + iApply ("Hend" $! (inr a) with "HΦ Hp").
    + iApply ("Hend" $! (inl LPA_ERROR_INSUFFICIENT_BUFFER) with "HΦ Hp").
  - iDestruct "Ht" as %->. iApply Hnone. by iApply ("Hend" with "HΦ Hp").
Qed.

Lemma wp_addresses e tag absent fits (none : Heap.M (sdk D) (bool * ADDRESS_DATA)) (empty : Heap.M (sdk D) (bool * option ADDRESS_DATA))
    data g r g' Φ :
  0 <= tag < 256 → (∀ n, fits n = true → n <= zlen (address_Data data)) →
  (∀ Ψ, delivers absent data id g' Ψ ⊢ wp true none g' Ψ) →
  buffer_ok g → repeated addresses_request LPA_LOOP_NUMBER_FOR_CHAINED_GET_RESPONSE g r g' →
  (let '(ok, data', e) := address_outcome (address_of e tag absent fits) r data in Φ (ok, Some data') (reporting_opt e g')) -∗
  wp true (let* '(ok, euiccAddr) := _getEUICCconfiguredAddresses (Some zero_addr) in
           let euiccAddr := default zero_addr euiccAddr in
           if ok : bool then
             if eUICCConfiguredAddr_RawDataSize euiccAddr >? 0 then
               let* '(berTLV_BF3C, _) := berTLV_extractTagUInt16 0xBF3C (Some (eUICCConfiguredAddr_RawData euiccAddr))
                                           (eUICCConfiguredAddr_RawDataSize euiccAddr) in
               let* '(res, data) :=
                 (if isNull berTLV_BF3C then fail e data
                  else let* t := extractTag_of tag berTLV_BF3C in
                       if isNull t then none else store_address t fits data) in
               berTLV_freeBerTLV berTLV_BF3C ;;
               ret (res, Some data)
             else empty
           else fail LPA_ERROR_INVALID_GET_EUICC_ADDRESS (Some data)) g Φ.
Proof.
  iIntros (Ht Hf Hn Hg Hr) "HΦ". wp_seq. iApply wp_get_configured; [done|exact Hr|]. rw /address_outcome.
  destruct (configured r) as [e0|d].
  - iIntros (g'') "%He". wp_seq. iApply wp_setError. wp_value. cbn [judged reporting_opt]. by rw He.
  - iIntros "%H". destruct H as (H1 & H2 & H3). cbn [default from_option id eUICCConfiguredAddr_RawDataSize].
    rw (proj2 (Z.gtb_lt _ _)) //. by iApply (wp_address_of with "HΦ").
Qed.

(** C16: The addresses of the servers (functional): for every answer of the eUICC, and after up to three attempts when a chained
    answer breaks off, lpaManagerGetSMDPAddress and lpaManagerGetSMDSAddress answer the address that the object BF3C of the answer
    holds, the one of the SM-DP+ being optional, or false and the error of the first thing that is wrong; the caller's array is
    never left, nothing stays allocated. *)
Theorem addresses_read (data : ADDRESS_DATA) g r g' :
  buffer_ok g → zlen (address_Data data) = LPA_SMDP_ADDRESS_SIZE →
  repeated addresses_request LPA_LOOP_NUMBER_FOR_CHAINED_GET_RESPONSE g r g' →
  triple true emp%I (lpaManagerGetSMDPAddress (Some data)) g
    (λ res g'', let '(ok, data', e) := address_outcome smdp_of r data in ⟦res = (ok, Some data') ∧ g'' = reporting_opt e g'⟧)%I ∧
  triple true emp%I (lpaManagerGetSMDSAddress (Some data)) g
    (λ res g'', let '(ok, data', e) := address_outcome smds_of r data in ⟦res = (ok, Some data') ∧ g'' = reporting_opt e g'⟧)%I.
Proof.
  intros Hg Hz Hr. split; iIntros "_".
  - iApply (wp_addresses _ 0x80 (inr []) (λ n, n <? LPA_SMDP_ADDRESS_SIZE));
      [done| | |done|exact Hr|by destruct (address_outcome _ _ _) as [[ok data'] e]; iPureIntro].
    + intros n Hn. rw Hz. by apply Z.lt_le_incl, Z.ltb_lt.
    + iIntros (Ψ) "H". by wp_value.
  - iApply (wp_addresses _ 0x81 (inl LPA_ERROR_INVALID_GET_SMDS_ADDRESS) (λ n, n <=? LPA_SMDS_ADDRESS_SIZE));
      [done| | |done|exact Hr|by destruct (address_outcome _ _ _) as [[ok data'] e]; iPureIntro].
    + intros n Hn. rw Hz. by apply Z.leb_le.
    + iIntros (Ψ) "H". wp_seq. iApply wp_setError. by wp_value.
Qed.
End configured.

(** *** The default address *)

Section default_address.
Context {D : Type}.
Implicit Types (g : sdk D).

Lemma last_cell (buf : list Z) n : 0 < n <= zlen buf → buf.[n - 1] = last (take (Z.to_nat n) buf).
Proof.
  intros Hn. rw /rd (_ : (0 <=? n - 1) = true); [|lia]. rw last_lookup length_take lookup_take_lt; [|rw /zlen in Hn; lia].
  f_equal. rw /zlen in Hn. lia.
Qed.

Lemma wp_set_answer q x g Φ :
  zlen x.1.2 = responseBufferSize → 0 <= x.2 <= responseBufferSize →
  q ↦ BBytes x.1.2 -∗ (q ↦ BBytes x.1.2 -∗ Φ (bool_decide (set_verdict x = None)) (reporting_opt (set_verdict x) g)) -∗
  wp true (set_answer (D := D) (Some q) x.1.1.1 x.1.1.2 x.2) g Φ.
Proof.
  iIntros (Hz Hn) "Hq HΦ". destruct x as [[[sent sw] buf] n]. cbn [fst snd set_verdict] in *. rw /set_answer.
  destruct sent; [|wp_seq; iApply wp_setError; wp_value; by iApply "HΦ"].
  destruct (sw_success sw); [|wp_seq; iApply wp_setError; wp_value; by iApply "HΦ"].
  destruct (Z.gtb_spec n 1) as [H1|H1]; cbn [andb]; [|wp_seq; iApply wp_setError; wp_value; by iApply "HΦ"].
  wp_seq. iApply (wp_load_bytes with "Hq"). iIntros "Hq". rw last_cell; [|lia]. wp_seq.
  destruct (last (take (Z.to_nat n) buf)) as [b|] eqn:E.
  2: { apply last_None, (f_equal zlen) in E. rw zlen_take in E. change (zlen []) with 0 in E. lia. }
  iApply wp_of_option. destruct (Z.eqb_spec b 0) as [->|Hb].
  - wp_value. rw (bool_decide_eq_true_2 (Some 0 = Some 0)) //. by iApply "HΦ".
  - rw (bool_decide_eq_false_2 (Some b = Some 0)); [|congruence]. wp_seq. iApply wp_setError. wp_value. by iApply "HΦ".
Qed.

(** The default address (functional): the eUICC is sent the object BF3F with the characters of the string, and its answer
    decides: true for an accepted status word with data that ends in a zero byte, otherwise false and the error of what failed;
    all blocks are given back. *)
Theorem default_address_set (s address : list Z) g x (a : globals D) :
  c_str s = Some address → zlen address < LPA_SMDP_ADDRESS_SIZE → exchanges_into (set_request address) responseBufferSize g x a →
  triple true emp%I (lpaManagerSetDefaultSMDPAddress (Some s)) g
    (λ b g', ⟦b = bool_decide (set_verdict x = None) ∧ g' = reporting_opt (set_verdict x) (set_apdu a g)⟧)%I.
Proof.
  intros Hs Hl Hx. iIntros "_". rw /lpaManagerSetDefaultSMDPAddress strlen_c_str Hs. wp_seq. iApply wp_of_option.
  apply c_str_Some in Hs as (k & -> & _). rw (proj2 (Z.ltb_lt _ _)) //. rw /LPA_SMDP_ADDRESS_SIZE in Hl.
  pose proof (zlen_nonneg address). pose proof (tlv_bytes_bound 0x80 address) as S1. pose proof (tlv_bytes_bound 0xBF3F (tlv_bytes 0x80 address)) as S2.
  wp_seq. iApply wp_malloc; [done|]. iIntros ([q|]) "Hq"; cbn [alloc_post isNull]; [|by iDestruct "Hq" as %?].
  wp_seq. iApply (createAndBuild_spec _ _ _ _ address); [done|pows; lia|by apply rd_range_prefix_all|].
  iIntros ([l1|]) "H1"; cbn [raw_result]; [|by iDestruct "H1" as %?]. wp_seq.
  iApply (wp_has_data with "H1"); [pose proof (tlv_bytes_size 0x80 address); lia|]. iIntros "H1". wp_seq. wp_seq.
  iApply (wp_wrap with "H1"); [done|pows; lia|]. iIntros (l2) "H1 H2". wp_seq.
  iApply (wp_has_data with "H2"); [pose proof (tlv_bytes_size 0xBF3F (tlv_bytes 0x80 address)); zlen_pos; lia|]. iIntros "H2". wp_seq. wp_seq.
  change (tlv_bytes 0xBF3F (tlv_bytes 0x80 address)) with (set_request address) in *.
  iApply (wp_storeData_into with "H2 Hq"); [done|apply tlv_bytes_nonempty|pows; lia|exact Hx|]. iIntros "H2 Hq".
  assert (0 <= responseBufferSize) as H10 by done. destruct (exchanges_into_fits _ _ _ _ _ H10 Hx) as [Hz Hn].
  iApply (wp_set_answer with "Hq"); [done..|]. iIntros "Hq". wp_seq. iApply (wp_erase_obj with "H2"). wp_value.
  wp_seq. iApply (wp_erase_obj with "H1"). wp_seq. iApply (wp_free_block with "Hq"). wp_value. by iPureIntro.
Qed.
End default_address.

(** *** The address of a server *)

(** The addresses that the loop meets, none when the number of objects, which is
    counted in a byte, is 0; the last of them is compared. *)
Definition server_addresses (data : list Z) : list (list Z) :=
  match (first_tag 0x30 data).2 ≫= objects with
  | Some tvs => if 0 <? zlen tvs mod 256 then signed_addresses tvs else []
  | None => []
  end.
Definition server_address (data : list Z) : option (list Z) := last (server_addresses data).

Section server.
Context {D : Type}.
Implicit Types (g : sdk D).

(** The block of the address. *)
Definition holding (o : option (list Z)) (p : ptr) : heapProp :=
  match o with Some a => (∃ l, ⟦p = Some l⟧ ∗ l ↦ BBytes (a ++ [0]))%I | None => ⟦p = None⟧%I end.

Lemma signed_addresses_app tvs1 tvs2 : signed_addresses (tvs1 ++ tvs2) = signed_addresses tvs1 ++ signed_addresses tvs2.
Proof. by rw /signed_addresses filter_app fmap_app. Qed.

(** The blocks of the addresses that another one replaced. *)
Definition lost_addresses (l : list (list Z)) : heapProp := ([∗ list] a ∈ l, ∃ q, q ↦ BBytes (a ++ [0]))%I.
Definition held (l : list (list Z)) (p : ptr) : heapProp := (lost_addresses (removelast l) ∗ holding (last l) p)%I.

Lemma held_lost l p : held l p ⊢ lost_addresses l.
Proof.
  destruct l as [|a l _] using rev_ind; [by iIntros "[$ ->]"|]. rw /held removelast_last last_snoc /lost_addresses.
  iIntros "[Hl (%q & _ & Hq)]". iApply big_sepL_snoc. iFrame.
Qed.

(** An address is stored in a new block, the pointer to the one before is
    overwritten. *)
Lemma wp_server_body b t v s l g Φ :
  tlv (Some b) t v -∗ held l s -∗
  (∀ s', tlv (Some b) t v -∗ held (l ++ signed_addresses [(t, v)]) s' -∗ Φ (true, s') g) -∗
  wp true (server_body (D := D) (Some b) s) g Φ.
Proof.
  iIntros "Ht Hs HΦ". wp_seq. iApply (wp_tlv_data with "Ht"). iIntros "Ht". rw /signed_addresses.
  destruct (Z.eqb_spec t 0x83) as [->|Hne].
  2: { rw filter_cons_False; [|by intros [? _]]. wp_value. iApply ("HΦ" with "Ht"). by rw app_nil_r. }
  destruct (Z.gtb_spec (zlen v) 0) as [H0|H0].
  2: { rw filter_cons_False; [|intros [_ Hv]; apply Hv, zlen_0_inv; pose proof (zlen_nonneg v); cbn; lia].
       wp_value. iApply ("HΦ" with "Ht"). by rw app_nil_r. }
  assert (v ≠ []) as Hv by (intros ->; done). rw filter_cons_True //. cbn [fmap list_fmap snd].
  wp_seq. iApply wp_malloc; [lia|]. iIntros ([q|]) "Hl"; cbn [alloc_post isNull]; [|by iDestruct "Hl" as %?].
  wp_seq. iApply (wp_load_bytes with "Hl"). iIntros "Hl". assert (zlen (new_bytes (zlen v + 1)) = zlen v + 1) as Hz by (rw zlen_new_bytes; lia).
  wp_seq. rw copy_value_ok; [|lia]. iApply wp_of_option. wp_seq. rw put_write; [|lia]. iApply wp_of_option.
  rw put_all; [|apply Nat2Z.inj; change (zlen (v ++ [0]) = zlen (new_bytes (zlen v + 1))); by rw zlen_app Hz].
  wp_seq. iApply (wp_store_block with "Hl"); [cbn [sizeof]; rw zlen_app Hz; by change (zlen [0]) with 1|]. iIntros "Hl". wp_value.
  iApply ("HΦ" with "Ht"). iDestruct (held_lost with "Hs") as "Hs".
  rw /held removelast_last last_snoc. by iFrame.
Qed.

Lemma wp_server_walk p tvs g Φ :
  tlv_list p tvs -∗
  (∀ s, tlv_list p tvs -∗ held (signed_addresses tvs) s -∗ Φ s g) -∗
  wp true (walk_with (λ _, ub) (server_body (D := D)) p None) g Φ.
Proof.
  iIntros "Hp HΦ".
  iApply (wp_walk _ _ _ tvs
    (λ pre s g', ⟦g' = g⟧ ∗ held (signed_addresses pre) s)%I
    (λ s g', ⟦g' = g⟧ ∗ held (signed_addresses tvs) s)%I with "Hp [] [HΦ]").
  - intros pre t v post b s g0 E. iIntros "(Ht & %Hg & Hs)". subst g0.
    iApply (wp_server_body with "Ht Hs"). iIntros (s') "$ Hs". cbn [fst snd]. iSplit; [done|]. by rw signed_addresses_app.
  - intros s g0. by iIntros "[$ $]".
  - iSplit; [done|]. rw /held /lost_addresses /=. by iSplit.
  - iIntros (s g') "Hp [-> Hs]". by iApply ("HΦ" with "Hp").
Qed.

(** The comparison stops at the first NUL of either address. *)
Definition matches (o : option (list Z)) (expected : list Z) : bool :=
  match o with Some a => bool_decide (c_str (a ++ [0]) = Some expected) | None => false end.

Lemma wp_same_address s o smdp expected g Φ :
  c_str smdp = Some expected → holding o s -∗ (holding o s -∗ Φ (matches o expected) g) -∗
  wp true (same_address (D := D) s smdp) g Φ.
Proof.
  iIntros (Hs) "Ho HΦ". destruct o as [a|]; cbn [holding matches].
  - iDestruct "Ho" as (l) "[-> Hl]". rw /same_address. cbn [isNull]. wp_seq. iApply (wp_load_bytes with "Hl"). iIntros "Hl".
    destruct (c_str_is_Some (a ++ [0]) (zlen a)) as [t Ht]; [by apply rd_at|]. rw Ht Hs.
    wp_seq. iApply wp_of_option. wp_seq. iApply wp_of_option. wp_value. rw /streqb.
    rw (bool_decide_ext (t = expected) (Some t = Some expected)); [|split; congruence]. iApply "HΦ". iExists l. by iFrame.
  - iDestruct "Ho" as %->. wp_value. by iApply "HΦ".
Qed.

Lemma wp_free_holding s o g Φ :
  holding o s -∗ Φ tt g -∗ wp true (if isNull s then ret tt else lpaCoreMemoryFree (G := sdk D) s) g Φ.
Proof.
  iIntros "Ho HΦ". destruct o as [a|]; cbn [holding].
  - iDestruct "Ho" as (l) "[-> Hl]". cbn [isNull]. by iApply (wp_free_block with "Hl").
  - iDestruct "Ho" as %->. by wp_value.
Qed.

(** C15: The address that a server signed (functional), when no allocation fails and no object inside of the object 30 of the
    data is longer than it: the function answers true exactly when the last of the addresses in the objects 83 of that object
    30, the empty ones left aside, is the expected one up to its first NUL, and otherwise false with the error
    LPA_ERROR_INVALID_SERVER_ADDRESS; there is no address either when the number of objects is a multiple of 256, being counted
    in a byte. Of the blocks it allocates, exactly those of the addresses in front of the last one are never given back. *)
Theorem server_address_verified (smdp expected src : list Z) (n : Z) g :
  c_str smdp = Some expected → 0 < n <= zlen src → Forall is_byte (take (Z.to_nat n) src) →
  well_nested 0x30 (take (Z.to_nat n) src) →
  triple true emp%I (_verifySMDPAddress (D := D) (Some smdp) (Some src) n) g
    (λ r g', ⟦r = matches (server_address (take (Z.to_nat n) src)) expected ∧
              g' = if r then g else reporting LPA_ERROR_INVALID_SERVER_ADDRESS g⟧ ∗
             lost_addresses (removelast (server_addresses (take (Z.to_nat n) src))))%I.
Proof.
  intros Hs Hn Hb Hr. iIntros "_". rw /_verifySMDPAddress (proj2 (Z.gtb_lt _ _)); [|lia].
  wp_seq. iApply wp_extractTag16; [lia|done|]. iIntros (p b r) "%Hp Hp". apply chosen_nf in Hp.
  iDestruct (maybe_null with "Hp") as "[%En Hp]". rw En. wp_seq. set (data := take _ src) in *.
  iApply (wp_wand _ _ _ (λ s g', ⟦g' = g⟧ ∗ ∃ tvs, maybe_tlv p 0x30 r ∗ held (server_addresses data) s.1 ∗ tlv_list s.2 tvs)%I with "[Hp]").
  - assert (server_addresses data = match r ≫= objects with
      | Some tvs => if 0 <? zlen tvs mod 256 then signed_addresses tvs else [] | None => [] end) as -> by by rw /server_addresses -Hp.
    assert (∀ s, ⟦s = None⟧ ⊢ held [] s) as Hnone by (intros s; rw /held /lost_addresses /=; iIntros "->"; by iSplit).
    destruct r as [v|]; cbn [present negb maybe_tlv mbind option_bind].
    + rw /well_nested -Hp in Hr. destruct Hr as [tvs Ho]. rw Ho. assert (Forall is_byte v) as Hv by by eapply first_tag_byte.
      wp_seq. iApply (wp_extractList_of with "Hp"); [done|exact Ho|]. iIntros (q c) "Hp [%H|[-> Hq]]"; [by destruct H|].
      iDestruct (tlv_list_null with "Hq") as "[%Eq Hq]". rw Eq Z.gtb_ltb. destruct (Z.ltb_spec 0 (zlen tvs mod 256)) as [Hc|Hc].
      * rw bool_decide_eq_false_2; [|by intros ->]. cbn [negb andb]. wp_seq. iApply (wp_server_walk with "Hq").
        iIntros (s) "Hq Hs". wp_value. iSplit; [done|]. iExists tvs. by iFrame.
      * wp_value. iSplit; [done|]. iExists tvs. iFrame "Hp Hq". by iApply Hnone.
    + wp_value. iSplit; [done|]. iExists []. iFrame "Hp". iSplitL ""; [iApply (Hnone None); done|done].
  - iIntros ([s q] g') "(-> & %tvs & Hp & [Hl Hs] & Hq)". cbn [fst snd]. wp_seq. fold (server_address data).
    iApply (wp_same_address with "Hs"); [done|]. iIntros "Hs". destruct (matches _ _); wp_seq.
    + wp_value. wp_seq. iApply (wp_erase_list with "Hq"). wp_seq. iApply (wp_erase with "Hp").
      wp_seq. iApply (wp_free_holding with "Hs"). wp_value. by iFrame.
    + iApply wp_setError. wp_seq. iApply (wp_erase_list with "Hq"). wp_seq. iApply (wp_erase with "Hp").
      wp_seq. iApply (wp_free_holding with "Hs"). wp_value. by iFrame.
Qed.
End server.

(** ** Witnesses *)

Definition sample_addresses : list Z := tlv_bytes 0xBF3C (tlvs_bytes [(0x80, [0x61; 0x2E; 0x62]); (0x81, [0x63; 0x2E; 0x64])]).
Definition sample_address_data : ADDRESS_DATA := AddressData (fill 7 128) 0.

Lemma addresses_read_witness :
  let g := sample_sdk [sample_addresses ++ [0x90; 0x00]] in
  ∃ r g', repeated addresses_request LPA_LOOP_NUMBER_FOR_CHAINED_GET_RESPONSE g r g' ∧
    triple true emp%I (lpaManagerGetSMDPAddress (Some sample_address_data)) g
      (λ res g'', ⟦res = (true, Some (AddressData ([0x61; 0x2E; 0x62] ++ fill 7 125) 3)) ∧ g'' = g'⟧)%I ∧
    triple true emp%I (lpaManagerGetSMDSAddress (Some sample_address_data)) g
      (λ res g'', ⟦res = (true, Some (AddressData ([0x63; 0x2E; 0x64] ++ fill 7 125) 3)) ∧ g'' = g'⟧)%I.
Proof.
  cbv zeta. assert (∃ r g', repeated addresses_request LPA_LOOP_NUMBER_FOR_CHAINED_GET_RESPONSE
      (sample_sdk [sample_addresses ++ [0x90; 0x00]]) r g' ∧
    address_outcome smdp_of r sample_address_data = (true, AddressData ([0x61; 0x2E; 0x62] ++ fill 7 125) 3, None) ∧
    address_outcome smds_of r sample_address_data = (true, AddressData ([0x63; 0x2E; 0x64] ++ fill 7 125) 3, None))
    as (r & g' & Hr & E1 & E2).
  { eexists _, _. split; [apply repeated_done; [sample_exchange|left; vm_compute; reflexivity]|]. split; vm_compute; reflexivity. }
  exists r, g'. split; [exact Hr|].
  pose proof (addresses_read sample_address_data (sample_sdk [sample_addresses ++ [0x90; 0x00]]) r g') as Hw. rw E1 E2 in Hw.
  apply Hw; [by vm_compute|done|exact Hr].
Defined.

Lemma default_address_set_witness :
  let g := sample_sdk [[0xBF; 0x3F; 0x03; 0x80; 0x01; 0x00; 0x90; 0x00]] in
  ∃ x a, exchanges_into (set_request [0x61; 0x2E; 0x62]) responseBufferSize g x a ∧ set_verdict x = None ∧
    triple true emp%I (lpaManagerSetDefaultSMDPAddress (Some [0x61; 0x2E; 0x62; 0])) g
      (λ b g', ⟦b = bool_decide (set_verdict x = None) ∧ g' = reporting_opt (set_verdict x) (set_apdu a g)⟧)%I.
Proof.
  cbv zeta. assert (∃ x a, exchanges_into (set_request [0x61; 0x2E; 0x62]) responseBufferSize
      (sample_sdk [[0xBF; 0x3F; 0x03; 0x80; 0x01; 0x00; 0x90; 0x00]]) x a ∧ set_verdict x = None) as (x & a & Hx & E).
  { eexists _, _. split; [sample_exchange|vm_compute; reflexivity]. }
  exists x, a. split; [exact Hx|]. split; [exact E|]. by apply (default_address_set _ [0x61; 0x2E; 0x62]).
Defined.

Definition sample_signed_tlv (addresses : list (list Z)) : list Z :=
  tlv_bytes 0x30 (tlvs_bytes ((0x80, [1; 2]) :: ((λ a, (0x83, a)) <$> addresses))).

(** Two addresses: the last one is the expected one, the first is lost. *)
Lemma server_address_verified_witness :
  let src := sample_signed_tlv [[0x63]; [0x61; 0x2E; 0x62]] in
  triple true emp%I (_verifySMDPAddress (Some [0x61; 0x2E; 0x62; 0]) (Some src) (zlen src)) (sample_sdk [])
    (λ r g', ⟦r = matches (server_address (take (Z.to_nat (zlen src)) src)) [0x61; 0x2E; 0x62] ∧
              g' = if r then sample_sdk [] else reporting LPA_ERROR_INVALID_SERVER_ADDRESS (sample_sdk [])⟧ ∗
             lost_addresses [[0x63]])%I ∧
  matches (server_address (take (Z.to_nat (zlen src)) src)) [0x61; 0x2E; 0x62] = true.
Proof.
  cbv zeta. split; [|by vm_compute].
  pose proof (server_address_verified [0x61; 0x2E; 0x62; 0] [0x61; 0x2E; 0x62] (sample_signed_tlv [[0x63]; [0x61; 0x2E; 0x62]])
    (zlen (sample_signed_tlv [[0x63]; [0x61; 0x2E; 0x62]])) (sample_sdk [])) as H.
  apply H; [done|by vm_compute|answer_bytes|]. vm_compute. by eexists.
Defined.

Definition verify_sample (addresses : list (list Z)) :=
  let src := sample_signed_tlv addresses in
  match _verifySMDPAddress (Some [0x61; 0x2E; 0x62; 0]) (Some src) (zlen src) (World ∅ [] (sample_sdk [])) with
  | Some (b, w) => Some (b, size (wheap w))
  | None => None
  end.

(** A signed address with a NUL inside passes for its beginning; of two
    addresses the first is never released; an address among 256 objects is not
    found. *)
Lemma server_address_cut : verify_sample [[0x61; 0x2E; 0x62; 0; 0x63]] = Some (true, 0%nat).
Proof. vm_compute. reflexivity. Qed.
Lemma server_address_leak : verify_sample [[0x61; 0x2E; 0x62]; [0x61; 0x2E; 0x62]] = Some (true, 1%nat).
Proof. vm_compute. reflexivity. Qed.
Lemma server_address_uncounted :
  fst <$> verify_sample (replicate 254 [] ++ [[0x61; 0x2E; 0x62]]) = Some false ∧
  fst <$> verify_sample (replicate 253 [] ++ [[0x61; 0x2E; 0x62]]) = Some true.
Proof. vm_compute. by split. Qed.
