(* ===== verification/Session.v ===== *)
(** * The session with the eUICC, and the calls of the API

    The end of [lpa_manager.c], which connects the reader and selects the
    ISD-R ([lpaManagerConnectReaderAndSelectISDR]), leaves both again and resets
    the card; [lpa_manager_api.c], which puts each operation on the eUICC inside
    such a session; and the functions of [lpasdk_api.c] that call it. The driver
    is any that satisfies the class [Media]; Driver.v gives the instance of the
    modem driver. *)

From iris.bi Require Import bi.
From iris.proofmode Require Import proofmode.
From S2P Require Import Prelude StateMonad ApiError Heap Wp SeMedia Apdu Es10 Es10b Es10c Notification Pending Address Modem.

Section code.
Context {D : Type}.

(** ** Code *)

(** *** The session ([lpa_manager.c]) *)

Definition with_media {A} (m : ST (se_state D) A) : Heap.M (globals D) A := lift (with_se m).

(** [lpaIsError] *)
Definition media_error : Heap.M (globals D) bool :=
  with_media (gets (λ s, negb (bool_decide (_errorCode s = LPA_NO_ERROR)))).

Definition lpaManagerInitializeSEMedia (New_SEMedia : ST D (option (TSEMedia D))) : Heap.M (globals D) bool :=
  let* res := with_media (seMediaManagerInitialize New_SEMedia) in
  if res : bool then with_media (seMediaManagerSetCallbackEventExecutionError true) else ret false.

Definition lpaManagerSEMediaManagerIsInitialized : Heap.M (globals D) bool := with_media seMediaManagerIsInitialized.
Definition lpaManagerSEMediaManagerUninitialize (Delete_SEMedia : ST D unit) : Heap.M (globals D) bool :=
  with_media (seMediaManagerUninitialize Delete_SEMedia).

(** The three steps of [lpaManagerUnselectISDRAndDisconnectReader]. *)
Definition unselect_step : Heap.M (globals D) unit :=
  let* selected := isISDRAppletSelected in
  if selected : bool then
    let* ok := unselectISDRApplet in
    if ok : bool then ret tt else Apdu.lpaSetErrorCode LPA_ERROR_SE_MEDIA_UNABLE_TO_UNSELECT_ISDR
  else ret tt.
Definition disconnect_step : Heap.M (globals D) unit :=
  let* selected := isISDRAppletSelected in
  let* connected := (if selected : bool then ret false else with_media seMediaManagerIsConnected) in
  if connected : bool then
    let* ok := with_media seMediaManagerDisconnect in
    if ok : bool then ret tt else Apdu.lpaSetErrorCode LPA_ERROR_SE_MEDIA_READER_NOT_DISCONNECTED
  else ret tt.
Definition release_step : Heap.M (globals D) unit :=
  let* connected := with_media seMediaManagerIsConnected in
  let* established := (if connected : bool then ret false else with_media seMediaManagerIsContextEstablished) in
  if established : bool then
    let* ok := with_media seMediaManagerReleaseContext in
    if ok : bool then ret tt else Apdu.lpaSetErrorCode LPA_ERROR_SE_MEDIA_READER_NOT_DISCONNECTED
  else ret tt.

Definition lpaManagerUnselectISDRAndDisconnectReader : Heap.M (globals D) bool :=
  unselect_step ;;
  disconnect_step ;;
  release_step ;;
  let* established := with_media seMediaManagerIsContextEstablished in
  ret (negb established).

(** [_seMediaReaderName] is a parameter of the configuration. *)
Definition lpaManagerConnectReaderAndSelectISDR (_seMediaReaderName : list Z) : Heap.M (globals D) bool :=
  let* initialized := with_media seMediaManagerIsInitialized in
  if initialized : bool then
    let* established := with_media seMediaManagerIsContextEstablished in
    (if established : bool then lpaManagerUnselectISDRAndDisconnectReader ;; ret tt else ret tt) ;;
    let* established := with_media seMediaManagerIsContextEstablished in
    if negb established then
      let* ok := with_media seMediaManagerEstablishContext in
      if ok : bool then
        let* ok := with_media (seMediaManagerConnect (Some _seMediaReaderName)) in
        if ok : bool then selectISDRApplet
        else Apdu.lpaSetErrorCode LPA_ERROR_SE_MEDIA_READER_CONNECTION ;; ret false
      else Apdu.lpaSetErrorCode LPA_ERROR_SE_MEDIA_CONTEXT_NOT_ESTABLISHED ;; ret false
    else Apdu.lpaSetErrorCode LPA_ERROR_SE_MEDIA_CONTEXT_NOT_RELEASED ;; ret false
  else Apdu.lpaSetErrorCode LPA_ERROR_SE_MEDIA_NOT_INITIALIZED ;; ret false.

(** The two ways to the reset of [lpaManagerSEMediaCardReset]. *)
Definition reset_new (_seMediaReaderName : list Z) : Heap.M (globals D) bool :=
  let* ok := with_media seMediaManagerEstablishContext in
  if ok : bool then
    let* ok := with_media (seMediaManagerConnect (Some _seMediaReaderName)) in
    if ok : bool then with_media seMediaManagerDisconnectWithReset
    else Apdu.lpaSetErrorCode LPA_ERROR_SE_MEDIA_READER_CONNECTION ;; ret false
  else Apdu.lpaSetErrorCode LPA_ERROR_SE_MEDIA_CONTEXT_NOT_ESTABLISHED ;; ret false.

Definition reset_established (_seMediaReaderName : list Z) : Heap.M (globals D) bool :=
  let* selected := isISDRAppletSelected in
  let* kept := (if selected : bool then let* ok := unselectISDRApplet in ret (negb ok) else ret false) in
  (if kept : bool then Apdu.lpaSetErrorCode LPA_ERROR_SE_MEDIA_UNABLE_TO_UNSELECT_ISDR else ret tt) ;;
  let* selected := isISDRAppletSelected in
  if negb selected then
    let* connected := with_media seMediaManagerIsConnected in
    let* ok := (if connected : bool then ret true else with_media (seMediaManagerConnect (Some _seMediaReaderName))) in
    (if ok : bool then ret tt else Apdu.lpaSetErrorCode LPA_ERROR_SE_MEDIA_READER_CONNECTION) ;;
    let* connected := with_media seMediaManagerIsConnected in
    if connected : bool then with_media seMediaManagerDisconnectWithReset else ret false
  else ret false.

Definition lpaManagerSEMediaCardReset (_seMediaReaderName : list Z) : Heap.M (globals D) bool :=
  let* established := with_media seMediaManagerIsContextEstablished in
  let* reset := (if negb established then reset_new _seMediaReaderName else reset_established _seMediaReaderName) in
  let* established := with_media seMediaManagerIsContextEstablished in
  (if established : bool then
     let* ok := with_media seMediaManagerReleaseContext in
     if ok : bool then ret tt else Apdu.lpaSetErrorCode LPA_ERROR_SE_MEDIA_READER_NOT_DISCONNECTED
   else ret tt) ;;
  let* error := media_error in
  ret (reset && negb error).

(** *** The operations inside a session ([lpa_manager_api.c]) *)

Record api := Api {
  lib : sdk D;
  _apiUsage : Z
}.
Definition set_lib (g : sdk D) (s : api) : api := Api g (_apiUsage s).
Definition set_apiUsage (n : Z) (s : api) : api := Api (lib s) n.
Abbreviation A := (Heap.M api).

Definition with_lib {T} (m : Heap.M (sdk D) T) : A T := zoom lib set_lib m.

(** An assertion that fails ends the program. *)
Definition assert (b : bool) : A unit := if b then ret tt else ub.
Definition LPA_MANAGER_API_BEGIN : A unit :=
  let* s := get_globals in
  let n := u64 (_apiUsage s + 1) in
  set_globals (set_apiUsage n s) ;; assert (n =? 1).
Definition LPA_MANAGER_API_END : A unit :=
  let* s := get_globals in
  let n := u64 (_apiUsage s - 1) in
  set_globals (set_apiUsage n s) ;; assert (n =? 0).

Definition _lpaManagerApiConnectReaderAndSelectISDR (_seMediaReaderName : list Z) : A bool :=
  with_lib (with_apdu (lpaManagerConnectReaderAndSelectISDR _seMediaReaderName)).
Definition _lpaManagerApiUnselectISDRAndDisconnectReader : A bool :=
  with_lib (with_apdu lpaManagerUnselectISDRAndDisconnectReader).

(** The body that the functions of the file share: the operation of the manager,
    and what the caller's structure is without it. *)
Definition in_session {T} (_seMediaReaderName : list Z) (operation : Heap.M (sdk D) (bool * T)) (unchanged : T) : A (bool * T) :=
  LPA_MANAGER_API_BEGIN ;;
  let* connected := _lpaManagerApiConnectReaderAndSelectISDR _seMediaReaderName in
  let* '(res, result) := (if connected : bool then with_lib operation else ret (false, unchanged)) in
  let* resCleanup := _lpaManagerApiUnselectISDRAndDisconnectReader in
  LPA_MANAGER_API_END ;;
  ret (if res : bool then resCleanup else res, result).

(** An operation without a structure. *)
Definition in_session_only (_seMediaReaderName : list Z) (operation : Heap.M (sdk D) bool) : A bool :=
  let* '(res, _) := in_session _seMediaReaderName (let* res := operation in ret (res, tt)) tt in ret res.

Section functions.
Context (_seMediaReaderName : list Z).

Definition lpaManagerApiGetProfilesInfo (info : get_profiles_info) : A (bool * get_profiles_info) :=
  in_session _seMediaReaderName (lpaManagerGetProfilesInfo info) info.
Definition lpaManagerApiGetProfilesInfo_ex (info : get_profiles_info) : A (bool * get_profiles_info) :=
  in_session _seMediaReaderName (lpaManagerGetProfilesInfo_ex info) info.
Definition lpaManagerApiGetProfilesNumber (ptrNumberOfProfiles : option Z) : A (bool * option Z) :=
  in_session _seMediaReaderName (lpaManagerGetProfilesNumber ptrNumberOfProfiles) ptrNumberOfProfiles.
Definition lpaManagerApiGetEID (ptrGetEID : option LPA_GET_EID) : A (bool * option LPA_GET_EID) :=
  in_session _seMediaReaderName (lpaManagerES10c_GetEID ptrGetEID) ptrGetEID.
Definition lpaManagerApiMemoryReset (option_ : option (list Z)) (size : Z) : A bool :=
  in_session_only _seMediaReaderName (lpaManagerES10c_MemoryReset option_ size).
Definition lpaManagerApiSendPendingNotification `{Server D} (list : LPA_PROFILE_NOTIFICATION_LIST) (listElementSwap : metadata)
    (ptrSendingNotificationResult : option (Z * Z)) : A (bool * option (Z * Z)) :=
  let ptrSendingNotificationResult := (λ _, (0, 0)) <$> ptrSendingNotificationResult in
  in_session _seMediaReaderName (lpaManagerSendPendingNotification list listElementSwap ptrSendingNotificationResult)
    ptrSendingNotificationResult.
Definition lpaManagerApiEnableProfileByIccid (ptrProfileId : option (list Z)) (profileIdSize : Z) : A bool :=
  in_session_only _seMediaReaderName (lpaManagerES10c_EnableProfileByIccid ptrProfileId profileIdSize).
Definition lpaManagerApiDisableProfileByIccid (ptrProfileId : option (list Z)) (profileIdSize : Z) : A bool :=
  in_session_only _seMediaReaderName (lpaManagerES10c_DisableProfileByIccid ptrProfileId profileIdSize).
Definition lpaManagerApiDeleteProfileByIccid (ptrProfileId : option (list Z)) (profileIdSize : Z) : A bool :=
  in_session_only _seMediaReaderName (lpaManagerES10c_DeleteProfileByIccid ptrProfileId profileIdSize).
Definition lpaManagerApiGetProfileNotificationList (list : option LPA_PROFILE_NOTIFICATION_LIST)
    : A (bool * option LPA_PROFILE_NOTIFICATION_LIST) :=
  in_session _seMediaReaderName (lpaManagerGetProfileNotificationList list) list.
Definition lpaManagerApiClearProfileNotification (sequenceNumber : Z) : A bool :=
  in_session_only _seMediaReaderName (lpaManagerClearProfileNotification sequenceNumber).
Definition lpaManagerApiSetDefaultSMDPAddress (ptrSMDPAddr : option (list Z)) : A bool :=
  in_session_only _seMediaReaderName (lpaManagerSetDefaultSMDPAddress ptrSMDPAddr).
Definition lpaManagerApiGetSMDPAddress (ptrAddressData : option ADDRESS_DATA) : A (bool * option ADDRESS_DATA) :=
  in_session _seMediaReaderName (lpaManagerGetSMDPAddress ptrAddressData) ptrAddressData.
Definition lpaManagerApiGetSMDSAddress (ptrAddressData : option ADDRESS_DATA) : A (bool * option ADDRESS_DATA) :=
  in_session _seMediaReaderName (lpaManagerGetSMDSAddress ptrAddressData) ptrAddressData.
Definition lpaManagerApiSetNickname (ptrProfileId : option (list Z)) (profileIdSize : Z) (ptrNickname : option (list Z))
    (nickNameSize : Z) : A bool :=
  in_session_only _seMediaReaderName (lpaManagerES10c_SetNickname ptrProfileId profileIdSize ptrNickname nickNameSize).

Definition lpaManagerApiSEMediaCardReset : A bool :=
  LPA_MANAGER_API_BEGIN ;;
  let* res := with_lib (with_apdu (lpaManagerSEMediaCardReset _seMediaReaderName)) in
  LPA_MANAGER_API_END ;;
  ret res.

(** The arguments are non-null; the context is released even when it was
    already established. *)
Definition lpaManagerApiGetReaderList (readerNameInfoMax : Z) : A (bool * list (list Z)) :=
  LPA_MANAGER_API_BEGIN ;;
  let* established := with_lib (with_apdu (with_media seMediaManagerIsContextEstablished)) in
  let* established := (if established : bool then ret true
                       else with_lib (with_apdu (with_media seMediaManagerEstablishContext))) in
  let* '(res, names) := (if established : bool then with_lib (with_apdu (with_media (seMediaManagerListReader readerNameInfoMax)))
                         else ret (false, [])) in
  let* resCleanup := with_lib (with_apdu (with_media seMediaManagerReleaseContext)) in
  LPA_MANAGER_API_END ;;
  ret (if res : bool then resCleanup else res, names).

(** *** The functions of the API ([lpasdk_api.c]) *)

(** [_lpaBeginApiFunction(name, true)]: the error of the last call is forgotten. *)
Definition _lpaBeginApiFunction : A unit := with_lib resetError.

Definition lpaGetProfilesInfo (info : get_profiles_info) := _lpaBeginApiFunction ;; lpaManagerApiGetProfilesInfo info.
Definition lpaGetProfilesInfo_ex (info : get_profiles_info) := _lpaBeginApiFunction ;; lpaManagerApiGetProfilesInfo_ex info.
Definition lpaGetProfilesNumber (n : option Z) := _lpaBeginApiFunction ;; lpaManagerApiGetProfilesNumber n.
Definition lpaGetEID (ptrGetEID : option LPA_GET_EID) := _lpaBeginApiFunction ;; lpaManagerApiGetEID ptrGetEID.
Definition lpaMemoryReset (option_ : option (list Z)) (size : Z) := _lpaBeginApiFunction ;; lpaManagerApiMemoryReset option_ size.
Definition lpaSendPendingNotification `{Server D} (list : LPA_PROFILE_NOTIFICATION_LIST) (listElementSwap : metadata)
    (result : option (Z * Z)) := _lpaBeginApiFunction ;; lpaManagerApiSendPendingNotification list listElementSwap result.
Definition lpaEnableProfileByIccid (id : option (list Z)) (size : Z) := _lpaBeginApiFunction ;; lpaManagerApiEnableProfileByIccid id size.
Definition lpaDisableProfileByIccid (id : option (list Z)) (size : Z) := _lpaBeginApiFunction ;; lpaManagerApiDisableProfileByIccid id size.
Definition lpaDeleteProfileByIccid (id : option (list Z)) (size : Z) := _lpaBeginApiFunction ;; lpaManagerApiDeleteProfileByIccid id size.
Definition lpaSetDefaultSMDPAddress (address : option (list Z)) := _lpaBeginApiFunction ;; lpaManagerApiSetDefaultSMDPAddress address.
Definition lpaGetSMDPAddress (data : option ADDRESS_DATA) := _lpaBeginApiFunction ;; lpaManagerApiGetSMDPAddress data.
Definition lpaGetSMDSAddress (data : option ADDRESS_DATA) := _lpaBeginApiFunction ;; lpaManagerApiGetSMDSAddress data.
Definition lpaSetNicknameByIccid (id : option (list Z)) (size : Z) (nickname : option (list Z)) (nickNameSize : Z) :=
  _lpaBeginApiFunction ;; lpaManagerApiSetNickname id size nickname nickNameSize.
Definition lpaGetReaderList (readerNameInfoMax : Z) := _lpaBeginApiFunction ;; lpaManagerApiGetReaderList readerNameInfoMax.
End functions.
End code.
Arguments api : clear implicits.

(** ** The driver

    What a session needs of a driver: in the states [media_ok], which its
    functions keep, they return; the two questions for its state change nothing;
    a reader that was disconnected is not connected, and a context that was
    released not established. *)
Class Media (D : Type) := {
  media : TSEMedia D;
  media_ok : D → Prop;
  established : D → bool;
  connected : D → bool;
  established_law : ∃ f, seMediaIsContextEstablished media = Some f ∧ ∀ d, media_ok d → f d = Some (established d, d);
  connected_law : ∃ f, seMediaIsConnected media = Some f ∧ ∀ d, media_ok d → f d = Some (connected d, d);
  establish_law : ∃ f, seMediaEstablishContext media = Some f ∧
    ∀ d, media_ok d → ∃ b d', f d = Some (b, d') ∧ media_ok d';
  release_law : ∃ f, seMediaReleaseContext media = Some f ∧
    ∀ d, media_ok d → ∃ b d', f d = Some (b, d') ∧ media_ok d' ∧ established d' = false;
  connect_law : ∃ f, seMediaConnect media = Some f ∧
    ∀ name d, media_ok d → ∃ b d', f name d = Some (b, d') ∧ media_ok d';
  disconnect_law : ∃ f, seMediaDisconnect media = Some f ∧
    ∀ d, media_ok d → ∃ b d', f d = Some (b, d') ∧ media_ok d' ∧ (b = true → connected d' = false);
  reset_law : ∃ f, seMediaDisconnectWithReset media = Some f ∧
    ∀ d, media_ok d → ∃ b d', f d = Some (b, d') ∧ media_ok d'
}.

(** ** Proofs *)

Section session.
Context {D : Type} `{Media D}.
Implicit Types (g : globals D) (d : D).

(** The driver is there, in a good state, and the buffer of the answers has its
    size. *)
Definition online g : Prop :=
  _seMedia (se g) = Some media ∧ media_ok (driver (se g)) ∧ zlen (_apduResponseBytes g) = MAX_LPA_MANAGER_APDU_BUFFER_SIZE.

(** The globals with another state of the driver. *)
Definition driven d g : globals D :=
  Globals (SeState (_seMedia (se g)) d (_errorCode (se g))) (_apduResponseBytes g) (_addLeToApuCase4 g)
    (_isSelectedISDR g) (isdr_apduResponseBytes g).

Lemma driven_same g : driven (driver (se g)) g = g.
Proof. by destruct g as [[] ? ? ? ?]. Qed.

Lemma online_driven g d : online g → media_ok d → online (driven d g).
Proof. intros (Hm & _ & Hb) Hd. by split_and!. Qed.

(** A driver that is defined everywhere, and a card that sends some of the data
    it announces: every exchange ends, in bounds. *)
Lemma transmit_online cmd g :
  (∀ d, media_ok d) → SoundMedia media → (∀ f, seMediaTransmitApdu media = Some f → card_progress f) → online g →
  ∃ r size g1, transmit (Some cmd) g = Some ((r, size), g1) ∧ online g1 ∧ 0 <= size <= MAX_LPA_MANAGER_APDU_BUFFER_SIZE.
Proof.
  intros Hall Hs Hp (Hm & _ & Hb).
  destruct (transmit_total chain_fuel (se g) cmd (_apduResponseBytes g) MAX_LPA_MANAGER_APDU_BUFFER_SIZE)
    as (r & buf & size & s & E & Hl & Hsize & Hm').
  { intros t. rw Hm. by intros [= <-]. }
  { done. }
  { by rw Hb. }
  { by apply Z.ltb_lt. }
  rw /transmit /mbind /ST_bind /gets /with_se E /opt /modifies /mret /ST_ret. eexists _, _, _. split; [done|].
  split; [|done]. split; [by rw Hm'|]. split; [apply Hall|]. by rw Hl.
Qed.

Lemma response_data_online size sw dst n g :
  online g → 0 <= size <= MAX_LPA_MANAGER_APDU_BUFFER_SIZE →
  ∃ r o, response_data size (Out sw (Some dst) (zlen dst) (Some n)) g = Some ((r, o), g).
Proof.
  intros (_ & _ & Hb) Hsize. rw /response_data /status_word /mbind /ST_bind /gets /opt /mret /ST_ret.
  destruct (Z.geb_spec size 2) as [H2|]; [|eauto].
  destruct (rd_is_Some (_apduResponseBytes g) (size - 2)) as (sw1 & -> & _); [lia|].
  destruct (rd_is_Some (_apduResponseBytes g) (size - 1)) as (sw2 & -> & _); [lia|].
  destruct (zlen dst >? 0); [|eauto]. destruct (size - 2 >? 0); [|eauto].
  destruct (Z.leb_spec (size - 2) (zlen dst)); [|eauto].
  rw rd_range_Some; [|lia..]. rw wr_range_Some; [eauto|lia|]. rw zlen_take zlen_drop. lia.
Qed.

Section wp.
Context (nf : bool).

(** A call of a function of the driver. *)
Lemma wp_dispatch (get : TSEMedia D → option (ST D bool)) f g b d Φ :
  online g → get media = Some f → f (driver (se g)) = Some (b, d) → Φ b (driven d g) ⊢ wp nf (with_media (dispatch get)) g Φ.
Proof.
  iIntros ((Hm & _ & _) Hf Hd) "HΦ". iApply wp_lift; [|iExact "HΦ"].
  rw /with_se /dispatch /mbind /ST_bind /gets Hm Hf /call Hd. by rw /driven Hm.
Qed.

Lemma wp_established g Φ : online g → Φ (established (driver (se g))) g ⊢ wp nf (with_media seMediaManagerIsContextEstablished) g Φ.
Proof.
  intros Hg. destruct established_law as (f & Hf & Hl). iIntros "HΦ".
  iApply (wp_dispatch _ f); [done..|by apply Hl, Hg|]. by rw driven_same.
Qed.

Lemma wp_connected g Φ : online g → Φ (connected (driver (se g))) g ⊢ wp nf (with_media seMediaManagerIsConnected) g Φ.
Proof.
  intros Hg. destruct connected_law as (f & Hf & Hl). iIntros "HΦ".
  iApply (wp_dispatch _ f); [done..|by apply Hl, Hg|]. by rw driven_same.
Qed.

Lemma wp_establish g Φ : online g →
  (∀ b d, ⟦media_ok d⟧ -∗ Φ b (driven d g)) ⊢ wp nf (with_media seMediaManagerEstablishContext) g Φ.
Proof.
  intros Hg. destruct establish_law as (f & Hf & Hl). destruct (Hl _ (proj1 (proj2 Hg))) as (b & d & Hd & Hok). iIntros "HΦ".
  iApply (wp_dispatch _ f); [done..|]. by iApply "HΦ".
Qed.

Lemma wp_media_release g Φ : online g →
  (∀ b d, ⟦media_ok d ∧ established d = false⟧ -∗ Φ b (driven d g)) ⊢ wp nf (with_media seMediaManagerReleaseContext) g Φ.
Proof.
  intros Hg. destruct release_law as (f & Hf & Hl). destruct (Hl _ (proj1 (proj2 Hg))) as (b & d & Hd & Hok). iIntros "HΦ".
  iApply (wp_dispatch _ f); [done..|]. by iApply "HΦ".
Qed.

Lemma wp_connect name g Φ : online g →
  (∀ b d, ⟦media_ok d⟧ -∗ Φ b (driven d g)) ⊢ wp nf (with_media (seMediaManagerConnect (Some name))) g Φ.
Proof.
  intros Hg. destruct connect_law as (f & Hf & Hl). destruct (Hl name _ (proj1 (proj2 Hg))) as (b & d & Hd & Hok). iIntros "HΦ".
  iApply (wp_dispatch _ (f name)); [done|by rw Hf|done|]. by iApply "HΦ".
Qed.

Lemma wp_disconnect g Φ : online g →
  (∀ b d, ⟦media_ok d ∧ (b = true → connected d = false)⟧ -∗ Φ b (driven d g)) ⊢ wp nf (with_media seMediaManagerDisconnect) g Φ.
Proof.
  intros Hg. destruct disconnect_law as (f & Hf & Hl). destruct (Hl _ (proj1 (proj2 Hg))) as (b & d & Hd & Hok). iIntros "HΦ".
  iApply (wp_dispatch _ f); [done..|]. by iApply "HΦ".
Qed.

Lemma wp_reset g Φ : online g →
  (∀ b d, ⟦media_ok d ∧ ∀ f, seMediaDisconnectWithReset media = Some f → f (driver (se g)) = Some (b, d)⟧ -∗ Φ b (driven d g)) ⊢ wp nf (with_media seMediaManagerDisconnectWithReset) g Φ.
Proof.
  intros Hg. destruct reset_law as (f & Hf & Hl). destruct disconnect_law as (f0 & Hf0 & _).
  destruct (Hl _ (proj1 (proj2 Hg))) as (b & d & Hd & Hok). destruct Hg as (Hm & _ & _). iIntros "HΦ".
  iSpecialize ("HΦ" $! b d with "[%]"); [split; [done|congruence]|]. iApply wp_lift; [|iExact "HΦ"].
  rw /with_se /seMediaManagerDisconnectWithReset /mbind /ST_bind /gets Hm Hf0 Hf /opt /call Hd. by rw /driven Hm.
Qed.

(** A report leaves an error, and the rest as it was. *)
Definition reported g g' : Prop :=
  _errorCode (se g') ≠ LPA_NO_ERROR ∧ same_media g' g ∧ _isSelectedISDR g' = _isSelectedISDR g.

Lemma online_reported g g' : online g → reported g g' → online g'.
Proof. intros (H1 & H2 & H3) (_ & (E1 & E2 & E3) & _). by rw /online E1 E2 E3. Qed.

Lemma wp_media_report e g Φ : e ≠ LPA_NO_ERROR → (∀ g', ⟦reported g g'⟧ -∗ Φ tt g') ⊢ wp nf (Apdu.lpaSetErrorCode e) g Φ.
Proof.
  iIntros (He) "HΦ". destruct (set_error_nonzero e (se g) He) as (s' & E & Hs' & Hm).
  iApply wp_lift; [by rw /with_se E|]. iApply "HΦ". iPureIntro. by destruct Hm.
Qed.

Lemma wp_selected g Φ : Φ (_isSelectedISDR g) g ⊢ wp nf isISDRAppletSelected g Φ.
Proof. iIntros "HΦ". by iApply wp_lift. Qed.

(** The globals without a selected applet. *)
Definition unselected g : globals D :=
  Globals (se g) (_apduResponseBytes g) (_addLeToApuCase4 g) false (isdr_apduResponseBytes g).
Lemma wp_unselect g Φ : Φ true (unselected g) ⊢ wp nf unselectISDRApplet g Φ.
Proof. iIntros "HΦ". wp_seq. iApply wp_lift; [done|]. wp_seq. iApply wp_lift; [done|]. by wp_value. Qed.

Definition has_error g : Prop := _errorCode (se g) ≠ LPA_NO_ERROR.

(** What the end of a session leaves. *)
Definition closed (b : bool) g g' : Prop :=
  online g' ∧ _isSelectedISDR g' = false ∧ b = negb (established (driver (se g'))) ∧
  (b = false → has_error g') ∧ (has_error g → has_error g').

(** A call that is reported when it answers false. *)
Lemma wp_or_report (m : Heap.M (globals D) bool) e g Φ (R : bool → D → Prop) :
  e ≠ LPA_NO_ERROR → online g →
  (∀ Ψ, (∀ b d, ⟦media_ok d ∧ R b d⟧ -∗ Ψ b (driven d g)) ⊢ wp nf m g Ψ) →
  (∀ b d g', ⟦online g' ∧ R b d ∧ driver (se g') = d ∧ _isSelectedISDR g' = _isSelectedISDR g ∧
              (b = false → has_error g') ∧ (has_error g → has_error g')⟧ -∗ Φ tt g') ⊢
  wp nf (let* ok := m in if ok : bool then ret tt else Apdu.lpaSetErrorCode e) g Φ.
Proof.
  iIntros (He Hg Hm) "HΦ". wp_seq. iApply Hm. iIntros (b d) "%R'". destruct R' as [Hok HR].
  pose proof (online_driven g d Hg Hok) as Hd. destruct b.
  - wp_value. iApply ("HΦ" $! true d). by iPureIntro.
  - iApply wp_media_report; [done|]. iIntros (g') "%Hr". iApply ("HΦ" $! false d). iPureIntro.
    pose proof (online_reported _ _ Hd Hr). destruct Hr as (H1 & (H2 & H3 & _) & H4). by split_and!.
Qed.

Lemma wp_unselect_step g Φ :
  (∀ g', ⟦se g' = se g ∧ _apduResponseBytes g' = _apduResponseBytes g ∧ _isSelectedISDR g' = false⟧ -∗ Φ tt g') ⊢
  wp nf unselect_step g Φ.
Proof.
  iIntros "HΦ". wp_seq. iApply wp_selected. destruct (_isSelectedISDR g) eqn:E.
  - wp_seq. iApply wp_unselect. wp_value. by iApply "HΦ".
  - wp_value. by iApply "HΦ".
Qed.

Lemma wp_disconnect_step g Φ :
  online g → _isSelectedISDR g = false →
  (∀ g', ⟦online g' ∧ _isSelectedISDR g' = false ∧ (connected (driver (se g')) = true → has_error g') ∧ (has_error g → has_error g')⟧ -∗
     Φ tt g') ⊢ wp nf disconnect_step g Φ.
Proof.
  iIntros (Hg Hs) "HΦ". wp_seq. iApply wp_selected. rw Hs. wp_seq. iApply wp_connected; [done|].
  destruct (connected (driver (se g))) eqn:Ec; [|wp_value; iApply "HΦ"; iPureIntro; by rw Ec].
  iApply (wp_or_report _ _ _ _ (λ b d, b = true → connected d = false)); [done|done|intros Ψ; by apply wp_disconnect|].
  iIntros (b d g') "%R". destruct R as (H1 & H2 & H3 & H4 & H5 & H6). iApply "HΦ". iPureIntro. rw H3 H4.
  split_and!; [done..| |done]. intros Hc. destruct b; [|by apply H5]. rw H2 // in Hc.
Qed.

Lemma wp_release_step g Φ :
  online g → _isSelectedISDR g = false → (connected (driver (se g)) = true → has_error g) →
  (∀ g', ⟦online g' ∧ _isSelectedISDR g' = false ∧ (established (driver (se g')) = true → has_error g') ∧ (has_error g → has_error g')⟧ -∗
     Φ tt g') ⊢ wp nf release_step g Φ.
Proof.
  iIntros (Hg Hs Hc) "HΦ". wp_seq. iApply wp_connected; [done|].
  destruct (connected (driver (se g))) eqn:Ec; wp_seq; [wp_value; wp_value; iApply "HΦ"; iPureIntro; split_and!; [done..|by intros _; apply Hc|done]|].
  iApply wp_established; [done|].
  destruct (established (driver (se g))) eqn:Ee; [|wp_value; iApply "HΦ"; iPureIntro; by rw Ee].
  iApply (wp_or_report _ _ _ _ (λ _ d, established d = false)); [done|done|intros Ψ; by apply wp_media_release|].
  iIntros (b d g') "%R". destruct R as (H1 & H2 & H3 & H4 & H5 & H6). iApply "HΦ". iPureIntro. rw H3 H4 H2. by split_and!.
Qed.

Lemma wp_cleanup g Φ :
  online g → (∀ b g', ⟦closed b g g'⟧ -∗ Φ b g') ⊢ wp nf lpaManagerUnselectISDRAndDisconnectReader g Φ.
Proof.
  iIntros (Hg) "HΦ". wp_seq. iApply wp_unselect_step. iIntros (g1) "%R". destruct R as (E1 & B1 & Hs1).
  assert (online g1) as Hg1 by by rw /online E1 B1.
  wp_seq. iApply wp_disconnect_step; [done..|]. iIntros (g2) "%R". destruct R as (Hg2 & Hs2 & Hc2 & He2).
  wp_seq. iApply wp_release_step; [done..|]. iIntros (g3) "%R". destruct R as (Hg3 & Hs3 & Hc3 & He3).
  wp_seq. iApply wp_established; [done|]. wp_value. iApply "HΦ". iPureIntro. split_and!; try done.
  - intros Hb. apply Hc3. by destruct (established (driver (se g3))).
  - intros He. apply He3, He2. by rw /has_error E1.
Qed.

(** The card answers SELECT: the exchange ends, and leaves the driver in a good
    state. *)
Definition answers_select : Prop := ∀ g, online g →
  ∃ r o g1, Apdu.exchange (with_le g _apduCommandSelectISDR) (select_out g) g = Some ((r, o), g1) ∧ online g1.

Lemma total_answers_select :
  (∀ d, media_ok d) → SoundMedia media → (∀ f, seMediaTransmitApdu media = Some f → card_progress f) → answers_select.
Proof.
  intros Hall Hs Hp g Hg.
  destruct (transmit_online (with_le g _apduCommandSelectISDR) g Hall Hs Hp Hg) as (r & size & g1 & E & Hg1 & Hsize).
  destruct (response_data_online size (Some 0) (isdr_apduResponseBytes g) 0 g1 Hg1 Hsize) as (r2 & o & E2).
  destruct r.
  - exists r2, o, g1. split; [|done]. by rw /Apdu.exchange /mbind /ST_bind E.
  - exists false, (select_out g), g1. split; [|done]. by rw /Apdu.exchange /mbind /ST_bind E.
Qed.

Lemma online_same g g' : same_media g' g → online g → online g'.
Proof. intros (E1 & E2 & E3) (H1 & H2 & H3). by rw /online E1 E2 E3. Qed.

(** *** The beginning of a session, on a card that answers SELECT *)

Section opening.
Hypothesis Hcard : answers_select.

(** What the beginning of a session leaves. *)
Definition opened (b : bool) g' : Prop :=
  online g' ∧ (b = true → _isSelectedISDR g' = true) ∧ (b = false → has_error g').

Lemma wp_select_online g Φ :
  online g → (∀ b g', ⟦opened b g'⟧ -∗ Φ b g') ⊢ wp nf selectISDRApplet g Φ.
Proof.
  intros Hg. destruct (Hcard g Hg) as (r & o & g1 & Ex & Hg1). iIntros "HΦ".
  iApply wp_select; [exact Ex|]. iIntros (b g') "%Hb %R". iApply "HΦ". iPureIntro.
  destruct (_isSelectedISDR g).
  - destruct R as [-> ->]. by split_and!.
  - destruct R as (_ & He & Hm). split; [|by split; [intros ->|]].
    destruct Hm as [Hm|[_ Hm]]; by eapply online_same.
Qed.

Lemma wp_refuse e g Φ :
  e ≠ LPA_NO_ERROR → online g → (∀ b g', ⟦opened b g'⟧ -∗ Φ b g') ⊢ wp nf (Apdu.lpaSetErrorCode e ;; ret false) g Φ.
Proof.
  iIntros (He Hg) "HΦ". wp_seq. iApply wp_media_report; [done|]. iIntros (g') "%R". wp_value. iApply "HΦ". iPureIntro.
  split; [by eapply online_reported|]. split; [done|]. by intros _; destruct R.
Qed.

Lemma wp_initialized g Φ : online g → Φ true g ⊢ wp nf (with_media seMediaManagerIsInitialized) g Φ.
Proof.
  iIntros (Hg) "HΦ". iApply wp_lift; [|iExact "HΦ"]. 
  rw /with_se /seMediaManagerIsInitialized /mbind /ST_bind /gets (proj1 Hg). by destruct g.
Qed.

Lemma wp_open name g Φ :
  online g → (∀ b g', ⟦opened b g'⟧ -∗ Φ b g') ⊢ wp nf (lpaManagerConnectReaderAndSelectISDR name) g Φ.
Proof.
  iIntros (Hg) "HΦ". wp_seq. iApply wp_initialized; [done|]. wp_seq. iApply wp_established; [done|]. wp_seq.
  iApply (wp_wand _ _ _ (λ _ g1, ⟦online g1⟧)%I).
  { destruct (established (driver (se g))); [|by wp_value].
    wp_seq. iApply wp_cleanup; [done|]. iIntros (b g1) "%R". wp_value. by destruct R. }
  clear g Hg. iIntros ([] g) "%Hg". wp_seq. iApply wp_established; [done|].
  destruct (established (driver (se g))); cbn [negb]; [by iApply (wp_refuse with "HΦ")|].
  wp_seq. iApply wp_establish; [done|]. iIntros (b1 d1) "%Hd1".
  pose proof (online_driven _ _ Hg Hd1) as Hg1. destruct b1; [|by iApply (wp_refuse with "HΦ")].
  wp_seq. iApply wp_connect; [done|]. iIntros (b2 d2) "%Hd2".
  pose proof (online_driven _ _ Hg1 Hd2) as Hg2. destruct b2; [|by iApply (wp_refuse with "HΦ")].
  by iApply (wp_select_online with "HΦ").
Qed.
End opening.

(** *** An operation inside a session *)

Abbreviation media_of s := (apdu (lib s)).
Implicit Types (s : api D).

Lemma wp_begin (s : api D) Φ : _apiUsage s = 0 → Φ tt (set_apiUsage 1 s) ⊢ wp nf LPA_MANAGER_API_BEGIN s Φ.
Proof.
  iIntros (Hs) "HΦ". wp_seq. iApply wp_get_globals. rw Hs. wp_seq. iApply wp_set_globals. by wp_value.
Qed.

Lemma wp_end (s : api D) Φ : _apiUsage s = 1 → Φ tt (set_apiUsage 0 s) ⊢ wp nf LPA_MANAGER_API_END s Φ.
Proof.
  iIntros (Hs) "HΦ". wp_seq. iApply wp_get_globals. rw Hs. wp_seq. iApply wp_set_globals. by wp_value.
Qed.

(** What an operation inside a session answers: [ran] is what the operation
    itself answered, if the session was opened. *)
Definition session_result {T} (unchanged : T) (ran : option bool) (r : bool * T) g' : Prop :=
  match ran with
  | Some res => r.1 = res && negb (established (driver (se g')))
  | None => r = (false, unchanged) ∧ has_error g'
  end.

(** C14: An operation leaves no session behind (safety), for a driver with the laws of [Media], whose functions return, and a
    card that ends the exchange of SELECT ([answers_select]: a card that answers some of the data it announces does, by
    total_answers_select; SeMedia.transmit_diverges has one that does not): whatever else the driver and the card answer, and
    whatever an operation does that returns and keeps the driver in a good state, the functions of the API return with the
    nesting counter back at 0, the ISD-R unselected and the driver there; the context is released, or an error is recorded. The
    answer is the operation's own, turned to false when the context is still there; when the session cannot be opened, the
    operation is not run, the caller's structure is as it was, and an error is recorded. *)
Theorem session_closed {T} (P : heapProp) (Q : bool → T → heapProp) name (operation : Heap.M (sdk D) (bool * T)) unchanged s :
  answers_select → _apiUsage s = 0 → online (media_of s) →
  (∀ g : sdk D, online (apdu g) → _isSelectedISDR (apdu g) = true →
     triple nf P operation g (λ r (g' : sdk D), ⟦online (apdu g')⟧ ∗ Q r.1 r.2)%I) →
  triple nf P (in_session name operation unchanged) s
    (λ r s', ∃ ran, ⟦_apiUsage s' = 0 ∧ online (media_of s') ∧ _isSelectedISDR (media_of s') = false ∧
                     (established (driver (se (media_of s'))) = true → has_error (media_of s')) ∧
                     session_result unchanged ran r (media_of s')⟧ ∗
                    match ran with Some res => Q res r.2 | None => P end)%I.
Proof.
  iIntros (Hcard Hs Hg Hop) "HP". wp_seq. iApply wp_begin; [done|]. wp_seq. iApply wp_zoom. iApply wp_zoom.
  iApply wp_open; [done|done|]. iIntros (b a) "%Ho". destruct Ho as (Ha & Hb & He). wp_seq.
  iApply (wp_wand _ _ _ (λ r s', ∃ ran : option bool, ⟦_apiUsage s' = 1 ∧ online (media_of s') ∧
    match ran with Some res => r.1 = res | None => r = (false, unchanged) ∧ has_error (media_of s') end⟧ ∗
    match ran with Some res => Q res r.2 | None => P end)%I with "[HP]").
  { destruct b.
    - iApply wp_zoom. iApply (wp_wand with "[HP]"); [by iApply (Hop with "HP"); [|apply Hb]|].
      iIntros (r g') "[%Hg' HQ]". iExists (Some r.1). by iFrame.
    - wp_value. iExists None. iFrame. iPureIntro. split_and!; [done..|by apply He]. }
  iIntros ([res result] s1) "(%ran & %R & HQ)". destruct R as (Hs1 & Hg1 & Hr).
  wp_seq. iApply wp_zoom. iApply wp_zoom. iApply wp_cleanup; [done|]. iIntros (c a') "%Hc".
  destruct Hc as (Ha' & Hsel & -> & Herr & Hkeep).
  wp_seq. iApply wp_end; [done|]. wp_value. iExists ran. iFrame "HQ". iPureIntro. split_and!; [done..| |].
  - intros Hest. apply Herr. change (established (driver (se a')) = true) in Hest. by rw Hest.
  - destruct ran as [ok|].
    + cbn in Hr. subst ok. cbn [session_result fst]. by destruct res.
    + destruct Hr as [[= -> ->] Hr]. split; [done|]. by apply Hkeep.
Qed.

(** *** Reset of the card *)

(** The driver has reset the card, in a state that the session reached. *)
Definition card_reset d d' : Prop :=
  ∃ f, seMediaDisconnectWithReset media = Some f ∧ media_ok d ∧ f d = Some (true, d').

(** A reset inside the function, and its answer. *)
Definition reset_done (b : bool) g' : Prop :=
  online g' ∧ (b = true → ∃ d, card_reset d (driver (se g'))).

Lemma wp_reset_online g Φ :
  online g → (∀ b g', ⟦reset_done b g'⟧ -∗ Φ b g') ⊢ wp nf (with_media seMediaManagerDisconnectWithReset) g Φ.
Proof.
  iIntros (Hg) "HΦ". iApply wp_reset; [done|]. iIntros (b d) "%R". destruct R as [Hd Hr]. iApply "HΦ". iPureIntro.
  split; [by apply online_driven|]. intros ->. exists (driver (se g)).
  destruct reset_law as (f & Hf & _). exists f. split_and!; [done|apply Hg|by apply Hr].
Qed.

Lemma wp_not_reset e g Φ :
  e ≠ LPA_NO_ERROR → online g → (∀ b g', ⟦reset_done b g'⟧ -∗ Φ b g') ⊢ wp nf (Apdu.lpaSetErrorCode e ;; ret false) g Φ.
Proof.
  iIntros (Hne Hg) "HΦ". wp_seq. iApply wp_media_report; [done|]. iIntros (g') "%R". wp_value. iApply "HΦ". iPureIntro.
  split; [by eapply online_reported|done].
Qed.

Lemma wp_reset_new name g Φ :
  online g → (∀ b g', ⟦reset_done b g'⟧ -∗ Φ b g') ⊢ wp nf (reset_new name) g Φ.
Proof.
  iIntros (Hg) "HΦ". wp_seq. iApply wp_establish; [done|]. iIntros (b1 d1) "%Hd1".
  pose proof (online_driven _ _ Hg Hd1) as Hg1. destruct b1; [|by iApply (wp_not_reset with "HΦ")].
  wp_seq. iApply wp_connect; [done|]. iIntros (b2 d2) "%Hd2".
  pose proof (online_driven _ _ Hg1 Hd2) as Hg2. destruct b2; [|by iApply (wp_not_reset with "HΦ")].
  by iApply (wp_reset_online with "HΦ").
Qed.

Lemma wp_reset_established name g Φ :
  online g → (∀ b g', ⟦reset_done b g'⟧ -∗ Φ b g') ⊢ wp nf (reset_established name) g Φ.
Proof.
  iIntros (Hg) "HΦ". wp_seq. iApply wp_selected. wp_seq.
  iApply (wp_wand _ _ _ (λ kept g1, ⟦kept = false ∧ online g1 ∧ _isSelectedISDR g1 = false⟧)%I).
  { destruct (_isSelectedISDR g) eqn:E; [wp_seq; iApply wp_unselect|]; by wp_value. }
  clear g Hg. iIntros (kept g) "%R". destruct R as (-> & Hg & Hs). wp_seq. wp_value.
  wp_seq. iApply wp_selected. rw Hs. cbn [negb]. wp_seq. iApply wp_connected; [done|]. wp_seq.
  iApply (wp_wand _ _ _ (λ _ g1, ⟦online g1⟧)%I).
  { destruct (connected (driver (se g))); [by wp_value|].
    iApply wp_connect; [done|]. iIntros (b d) "%Hd". iPureIntro. by apply online_driven. }
  clear g Hg Hs. iIntros (ok g) "%Hg". wp_seq. iApply (wp_wand _ _ _ (λ _ g1, ⟦online g1⟧)%I).
  { destruct ok; [by wp_value|]. iApply wp_media_report; [done|]. iIntros (g1) "%R". iPureIntro. by eapply online_reported. }
  clear g Hg. iIntros ([] g) "%Hg". wp_seq. iApply wp_connected; [done|].
  destruct (connected (driver (se g))); [by iApply (wp_reset_online with "HΦ")|]. wp_value. by iApply "HΦ".
Qed.

(** C17: Reset of the card (functional): the function returns in every state of
    a driver that keeps its laws; it answers true only when the driver has
    reported a reset and no error is recorded; the context is released at the
    end, or an error is recorded. *)
Theorem card_reset_reported name g :
  online g →
  triple nf emp%I (lpaManagerSEMediaCardReset name) g
    (λ r g', ⟦online g' ∧ (established (driver (se g')) = true → has_error g') ∧
              (r = true → ¬ has_error g' ∧ established (driver (se g')) = false ∧ ∃ d d', card_reset d d')⟧)%I.
Proof.
  iIntros (Hg) "_". wp_seq. iApply wp_established; [done|]. wp_seq.
  iApply (wp_wand _ _ _ (λ b g', ⟦reset_done b g'⟧)%I).
  { destruct (established _); [iApply wp_reset_established|iApply wp_reset_new]; done || by iIntros (??) "$". }
  clear g Hg. iIntros (b g) "%R". destruct R as [Hg Hb]. wp_seq. iApply wp_established; [done|]. wp_seq.
  iApply (wp_wand _ _ _ (λ _ g', ⟦online g' ∧ (established (driver (se g')) = true → has_error g')⟧)%I).
  { destruct (established (driver (se g))) eqn:Ee; [|wp_value; iPureIntro; by rw Ee].
    iApply (wp_or_report _ _ _ _ (λ _ d, established d = false)); [done|done|intros Ψ; by apply wp_media_release|].
    iIntros (b0 d g') "%R". destruct R as (H1 & H2 & H3 & H4 & H5 & H6). iPureIntro. by rw H3 H2. }
  iIntros ([] g') "%R". destruct R as [Hg' He]. wp_seq. iApply wp_lift; [done|]. wp_value. iPureIntro.
  split; [done|]. split; [done|]. rw negb_involutive. intros Hr. apply andb_prop in Hr as [-> Hr]. apply bool_decide_eq_true in Hr.
  split; [intros Hn; exact (Hn Hr)|]. split; [|by destruct (Hb eq_refl) as [d Hd]; eauto].
  cbn. destruct (established _); [|done]. by destruct (He eq_refl).
Qed.
End wp.
End session.

(** ** Witnesses *)

(** A driver of two flags, context and connection, around a card that answers
    SELECT. *)
Definition sample_answer : list Z := [0x6F; 0x00; 0x90; 0x00].

Definition flag_media : TSEMedia (bool * bool) := {|
  seMediaSetCallbackEventExecutionError := Some (λ _, mret true);
  seMediaEstablishContext := Some (λ d, Some (negb d.1, (true, d.2)));
  seMediaReleaseContext := Some (λ d, Some (d.1, (false, false)));
  seMediaIsValidContext := Some (gets fst);
  seMediaIsContextEstablished := Some (gets fst);
  seMediaListReader := Some (λ _, mret (true, []));
  seMediaConnect := Some (λ _ d, Some (d.1, (d.1, d.1)));
  seMediaIsConnected := Some (gets snd);
  seMediaTransmitApdu := Some (λ _ dst max, mret (reply sample_answer dst max));
  seMediaDisconnect := Some (λ d, Some (d.2, (d.1, false)));
  seMediaDisconnectWithReset := Some (λ d, Some (d.2, (d.1, false)));
  seMediaGetStatus := Some (mret (true, 0))
|}.

#[export] Instance flag_driver : Media (bool * bool).
Proof.
  refine {| media := flag_media; media_ok _ := True; established := fst; connected := snd |};
    (eexists; split; [reflexivity|]); intros; try done; by eexists _, _.
Defined.

Lemma flag_selects : answers_select.
Proof.
  apply total_answers_select; [done|split|].
  - by intros g d [= <-].
  - by intros g d [= <-].
  - by intros g d [= <-].
  - intros f [= <-] cmd dst room d Hr. destruct (constant_sound sample_answer cmd dst room () Hr) as (r & dst' & size & [] & E & Hl & Hs).
    injection E as <- <- <-. eexists _, _, _, _. by split; [reflexivity|].
  - intros f [= <-] cmd dst room d dst' size d' [= <- <- <-]. 
    destruct (Z.to_nat room) as [|[|[|[|n]]]]; [done..|]. rw (take_ge sample_answer); [done|]. change (4 <= 4 + n)%nat. lia.
Qed.

Definition sample_api : api (bool * bool) :=
  Api (Sdk (Globals (SeState (Some flag_media) (true, true) LPA_NO_ERROR) (fill 0 8192) true true (fill 0 256))
         (fill 0 8192) (fill 0 8192) (fill 0 8192) true) 0.

(** A session around a call that the manager refuses. *)
Lemma session_closed_witness :
  triple true emp%I (in_session [] (lpaManagerES10c_GetEID None) None) sample_api
    (λ r s', ∃ ran, ⟦_apiUsage s' = 0 ∧ online (apdu (lib s')) ∧ _isSelectedISDR (apdu (lib s')) = false ∧
       (established (driver (se (apdu (lib s')))) = true → has_error (apdu (lib s'))) ∧
       session_result None ran r (apdu (lib s'))⟧ ∗
      match ran with Some res => ⟦res = false ∧ r.2 = None⟧ | None => emp end)%I.
Proof.
  apply (session_closed true emp%I (λ b r, ⟦b = false ∧ r = None⟧)%I [] _ None sample_api).
  - exact flag_selects.
  - done.
  - split_and!; [done..|by vm_compute].
  - intros g Hg _. iIntros "_". iApply wp_fail. by iPureIntro.
Defined.

Lemma card_reset_reported_witness :
  triple true emp%I (lpaManagerSEMediaCardReset []) (apdu (lib sample_api))
    (λ r g', ⟦online g' ∧ (established (driver (se g')) = true → has_error g') ∧
              (r = true → ¬ has_error g' ∧ established (driver (se g')) = false ∧ ∃ d d', card_reset d d')⟧)%I.
Proof.
  apply (card_reset_reported true [] (apdu (lib sample_api))). split_and!; [done..|by vm_compute].
Defined.
