(* ===== verification/Platform.v ===== *)
(** * The answers of the modem, for the driver

    What the driver needs of its port in order to return: the interface
    [AnsweringPort], and the platform adaptor of Adaptor.v as an implementation
    of it, on the platforms that take AT+CSIM themselves and on the MTK platform,
    when the modem finishes its answers. An adaptor copies an answer whole,
    whatever the room it is offered, so that an answer that the driver takes for
    unfinished, and reads on after it, ends in a write behind the response
    buffer ([Adaptor.unfinished_answer_overflows]). *)

From Stdlib Require String Ascii.
From S2P Require Import Prelude CLib Util StateMonad SeMedia Modem Adaptor.
Import Stdlib.Strings.String.StringSyntax.
#[local] Delimit Scope string_scope with string.

(** Half of the response buffer. *)
Definition HALF_BUFFER : Z := 8192.

(** A port whose functions return. A read is in bounds in the states [readable]
    in the cells it is given: after a command that the port has written, in the
    whole response buffer, and after a read as long as the text is not one that
    ends the reading. The modem has at most [pending] characters to deliver,
    half of the buffer after a command. *)
Class AnsweringPort (P : Type) `{SoundPort P} := {
  pending : P → Z;
  readable : Z → P → Prop;
  pending_nonneg p : 0 <= pending p;
  open_returns name p : port_ok p → is_Some (pciot_lpa_open name p);
  close_returns fd p : port_ok p → is_Some (pciot_lpa_close fd p);
  write_returns fd b cmd p : port_ok p → c_str b = Some cmd → zlen GM_AT_COMMAND_PREFIX <= zlen cmd →
    ∃ n p', pciot_lpa_write fd b (zlen cmd) p = Some (n, p') ∧
      (n = zlen cmd → readable GENERIC_MODEM_RESPONSE_BUFFER_SIZE p' ∧ pending p' <= HALF_BUFFER);
  read_returns fd room p : port_ok p → readable room p →
    ∃ text p', reads fd room text p p' ∧ Forall (λ c, c ≠ 0) text ∧ zlen text + pending p' <= pending p ∧
      (final_text text = false → readable (room - zlen text) p')
}.

(** What ends a text ends every text that it ends. *)
Lemma contains_suffix p s t : contains s t = true → contains (p ++ s) t = true.
Proof.
  unfold contains at 1. destruct (strstr s t) as [r|] eqn:E; [|done]. apply strstr_Some in E as (q & k & -> & ->).
  intros _. rewrite app_assoc. apply contains_here.
Qed.

Lemma final_suffix p s : final_text (p ++ s) = false → final_text s = false.
Proof.
  unfold final_text. rewrite !orb_false_iff. intros [[H1 H2] H3].
  split_and!; (apply not_true_is_false; intros E; apply (contains_suffix p) in E; congruence).
Qed.

Lemma final_ok p k : final_text (p ++ GM_AT_COMMAND_RESPONSE_OK ++ k) = true.
Proof. unfold final_text. by rewrite contains_here. Qed.

Lemma keeps_and {S A} (I J : S → Prop) (m : ST S A) : keeps I m → keeps J m → keeps (λ s, I s ∧ J s) m.
Proof. intros HI HJ s a s' [Hi Hj] E. split; [by eapply HI|by eapply HJ]. Qed.

(** ** The adaptor *)

Section adaptor.
Context {M : Type} (mbim : list Z → M → (Z * list Z) * M).
Implicit Types (s p : adaptor M) (text : list Z).
#[local] Existing Instance adaptor_port.

(** A text that the driver does not read on after, or none. *)
Definition finished text : Prop := text = [] ∨ final_text text = true.

Definition text_pending p : Z := match c_str (read_mipc_buf p) with Some t => zlen t | None => 0 end.
Definition text_readable (room : Z) p : Prop :=
  BUFSIZE_MAX <= room ∧ ∃ t, c_str (read_mipc_buf p) = Some t ∧ finished t.

Lemma pending_emptied p : text_pending (emptied p) = 0.
Proof. done. Qed.

Lemma text_read fd room p : adaptor_ok p → text_readable room p →
  ∃ text p', @reads _ (adaptor_port mbim) fd room text p p' ∧ Forall (λ c, c ≠ 0) text ∧
    zlen text + text_pending p' <= text_pending p ∧ (final_text text = false → text_readable (room - zlen text) p').
Proof.
  intros Hok [Hroom (t & Ht & Hf)]. exists t, (emptied p). pose proof (c_str_length _ _ Ht) as Hl. unfold adaptor_ok in Hok.
  pose proof (c_str_Some _ _ Ht) as (k & Eb & Hnz). split_and!; [|done| |].
  - intros dst Hd. exists (replicate (Z.to_nat (BUFSIZE_MAX - zlen t)) 0 ++ drop (Z.to_nat BUFSIZE_MAX) dst).
    cbn [pciot_lpa_read adaptor_port]. unfold read_, mbind, ST_bind, gets, opt, modifies, mret, ST_ret.
    rewrite Ht, strncpy_fits by lia. split; [done|]. rewrite !zlen_app, zlen_replicate, zlen_drop. zlen_pos. lia.
  - rewrite pending_emptied. unfold text_pending. rewrite Ht. lia.
  - intros Hn. destruct Hf as [->|Hf]; [|congruence]. rewrite Z.sub_0_r. split; [done|]. by exists []; split; [|left].
Qed.

(** The type of the platform never changes. *)
Ltac keeps_setters := repeat first [apply keeps_modifies; intros [] ?; assumption | keeps_step].

Lemma keeps_platform_malloc (φ : Z → Prop) n : keeps (λ s, φ (LpaGetChipPlatType s)) (malloc_cleared (M := M) n).
Proof. by intros s o s' Hs [= <- <-]. Qed.
#[local] Hint Resolve keeps_platform_malloc : keeps.

Lemma keeps_platform_send (φ : Z → Prop) input out n :
  keeps (λ s, φ (LpaGetChipPlatType s)) (SendAtOverMbimMessage mbim input out n).
Proof. unfold SendAtOverMbimMessage. keeps_setters. Qed.
#[local] Hint Resolve keeps_platform_send : keeps.

Lemma keeps_platform_cgla (φ : Z → Prop) f g b n :
  (∀ b c, keeps (λ s, φ (LpaGetChipPlatType s)) (f b c)) → (∀ b c, keeps (λ s, φ (LpaGetChipPlatType s)) (g b c)) →
  keeps (λ s, φ (LpaGetChipPlatType s)) (write_emulated (M := M) mbim f g b n).
Proof. intros Hf Hg. unfold write_emulated, write_cgla. keeps_setters. Qed.

Lemma keeps_platform (φ : Z → Prop) fd b n : keeps (λ s, φ (LpaGetChipPlatType s)) (write_ (M := M) mbim fd b n).
Proof.
  unfold write_. do 2 (apply keeps_bind; [auto with keeps|intros ?]).
  apply keeps_if; [|apply keeps_if; [|apply keeps_if]]. 1-3: apply keeps_platform_cgla; intros b' c.
  - unfold pciot_lpa_csimtocgla. keeps_setters.
  - unfold pciot_lpa_cglatocsim. apply keeps_bind; [apply keeps_gets|]. intros []; keeps_setters.
  - unfold qc151_csimtocgla. keeps_setters.
  - unfold qc151_cglatocsim. apply keeps_bind; [apply keeps_gets|]. intros []; keeps_setters.
  - unfold qc151_csimtocgla. keeps_setters.
  - unfold qc151_cglatocsim. apply keeps_bind; [apply keeps_gets|]. intros []; keeps_setters.
  - unfold pciot_lpa_write_default. keeps_setters.
Qed.

(** The buffer holds a text that the driver reads to its end. *)
Definition holds_text p : Prop :=
  ∃ t, c_str (read_mipc_buf p) = Some t ∧ zlen t <= HALF_BUFFER ∧ finished t.

(** *** The adaptor in some of its states

    [φ] is kept by all functions, and a command that is written leaves a text
    in the buffer. *)
Section restricted.
Context (φ : adaptor M → Prop).
Hypothesis Hfd : ∀ fd s, φ s → φ (set_mipc_fd fd s).
Hypothesis Hread : ∀ s, φ s → φ (emptied s).
Hypothesis Hwrite : ∀ fd b n, keeps (λ s, adaptor_ok s ∧ φ s) (write_ mbim fd b n).

Lemma restricted_sound : @SoundPort (adaptor M) (adaptor_port mbim).
Proof using Hfd Hread Hwrite.
  refine (@Build_SoundPort _ (adaptor_port mbim) (λ s, adaptor_ok s ∧ φ s) _ _ Hwrite _).
  - intros name s r s' [Hs Hφ]. cbn. unfold open_. unfold mbind, ST_bind, gets, modifies, mret, ST_ret.
    destruct (lpa_mipc_fd s >? 0); intros [= <- <-]; auto.
  - intros fd s r s' [Hs Hφ] [= <- <-]; auto.
  - intros fd dst p count dst' p' [Hp Hφ] E.
    destruct (@read_sound _ _ (adaptor_sound mbim) fd dst p count dst' p' Hp E) as (Hp' & H). split; [|exact H]. split; [exact Hp'|].
    revert E. cbn. unfold read_, mbind, ST_bind, gets, opt, modifies, mret, ST_ret. destruct (c_str _); [|done].
    destruct (strncpy _ _ _); [|done]. intros [= <- <- <-]. by apply Hread.
Defined.

Hypothesis Hreturns : ∀ fd b cmd p,
  adaptor_ok p → φ p → c_str b = Some cmd → zlen GM_AT_COMMAND_PREFIX <= zlen cmd →
  ∃ n p', write_ mbim fd b (zlen cmd) p = Some (n, p') ∧ (n = zlen cmd → holds_text p').

Lemma restricted_answers : @AnsweringPort (adaptor M) (adaptor_port mbim) restricted_sound.
Proof using Hreturns.
  refine (@Build_AnsweringPort _ _ restricted_sound text_pending text_readable _ _ _ _ _).
  - intros p. unfold text_pending. destruct (c_str _); [apply zlen_nonneg|done].
  - intros name p _. cbn. unfold open_, mbind, ST_bind, gets, modifies, mret, ST_ret. by destruct (lpa_mipc_fd p >? 0); eexists.
  - intros fd p _. by eexists.
  - intros fd b cmd p [Hp Hφ] Hb Hl. destruct (Hreturns fd b cmd p Hp Hφ Hb Hl) as (n & p' & E & Hn). exists n, p'. split; [exact E|].
    intros Hcmd. destruct (Hn Hcmd) as (t & Ht & Htl & Hf). split; [split; [done|by exists t]|]. unfold text_pending. by rewrite Ht.
  - intros fd room p [Hp _] Hr. by apply text_read.
Defined.
End restricted.

(** *** An exchange *)

(** The answers of the modem are strings of at most half of the buffer. *)
Definition short_answers : Prop := ∀ cmd m text m',
  mbim cmd m = ((0, text), m') → Forall (λ c, c ≠ 0) text ∧ zlen text <= HALF_BUFFER.

Lemma c_str_nonzero (b cmd : list Z) : c_str b = Some cmd → Forall (λ c, c ≠ 0) cmd.
Proof. intros E. by apply c_str_Some in E as (k & _ & ?). Qed.

(** An exchange fails, or leaves the answer in the buffer, in front of NULs. *)
Lemma exchange_returns s input out :
  short_answers → 0 < zlen input → zlen out = BUFSIZE_MAX + 1 →
  ∃ ret out' m', SendAtOverMbimMessage mbim input out (BUFSIZE_MAX + 1) s = Some ((ret, out'), set_modem m' s) ∧
    (ret < 0 ∨ ret = 0 ∧ ∃ text, mbim input (modem s) = ((0, text), m') ∧ c_str out' = Some text).
Proof.
  intros Hshort Hi Ho. destruct (Send_result mbim BUFSIZE_MAX input out s) as (b1 & _ & ->); [done..|].
  destruct (mbim input (modem s)) as [[status text] m'] eqn:E. destruct (Z.eqb_spec status 0) as [->|]; cbn [negb].
  - eexists 0, _, m'. split; [done|]. right. split; [done|]. exists text. split; [done|].
    destruct (Hshort _ _ _ _ E) as [Hnz Hl]. change HALF_BUFFER with 8192 in Hl. rewrite snprintf_all by (change BUFSIZE_MAX with 16384; lia).
    by apply c_str_app.
  - eexists (-1), _, m'. split; [done|]. by left.
Qed.

(** *** The platforms that take AT+CSIM *)

Definition takes_csim p : Prop :=
  LpaGetChipPlatType p ∉ [PLAT_TYPE_MTK; PLAT_TYPE_QC_151; PLAT_TYPE_QC_135R].

(** The modem finishes its answers, or has none. *)
Definition finishes : Prop := ∀ cmd m text m',
  mbim cmd m = ((0, text), m') → Forall (λ c, c ≠ 0) text ∧ zlen text <= HALF_BUFFER ∧ finished text.

Lemma direct_keeps fd b n : keeps (λ s, adaptor_ok s ∧ takes_csim s) (write_ mbim fd b n).
Proof. apply keeps_and; [apply keeps_write|apply (keeps_platform (λ t, t ∉ _))]. Qed.

Lemma direct_returns fd b cmd p :
  finishes → adaptor_ok p → takes_csim p → c_str b = Some cmd → zlen GM_AT_COMMAND_PREFIX <= zlen cmd →
  ∃ n p', write_ mbim fd b (zlen cmd) p = Some (n, p') ∧ (n = zlen cmd → holds_text p').
Proof.
  intros Hfin Hp Hplat Hb Hl. change (zlen GM_AT_COMMAND_PREFIX) with 8 in Hl. unfold takes_csim in Hplat.
  rewrite !not_elem_of_cons in Hplat. destruct Hplat as (P1 & P2 & P3 & _). unfold write_.
  erewrite ST_bind_eq; [|unfold opt; rewrite Hb; reflexivity]. st_step.
  zfalse (LpaGetChipPlatType p =? PLAT_TYPE_MTK). zfalse (LpaGetChipPlatType p =? PLAT_TYPE_QC_151).
  zfalse (LpaGetChipPlatType p =? PLAT_TYPE_QC_135R). unfold pciot_lpa_write_default. st_step.
  unfold adaptor_ok in Hp. rewrite Hp.
  destruct (exchange_returns p cmd (read_mipc_buf p)) as (ret & out & m' & E & Hret); [intros c m t m1 E; by destruct (Hfin _ _ _ _ E) as (? & ? & _)|lia|done|].
  erewrite ST_bind_eq; [|exact E]. eexists _, _. split; [reflexivity|]. destruct Hret as [Hret|(-> & text & Em & Ho)].
  - ztrue (ret <? 0). lia.
  - intros _. exists text. destruct (Hfin _ _ _ _ Em) as (_ & Hl' & Hf). by split_and!.
Qed.

(** The adaptor on these platforms. *)
Definition direct_sound : @SoundPort (adaptor M) (adaptor_port mbim).
Proof. by apply (restricted_sound takes_csim); [..|apply direct_keeps]. Defined.

Definition direct_answers (Hfin : finishes) : @AnsweringPort (adaptor M) (adaptor_port mbim) direct_sound.
Proof. apply restricted_answers. intros fd b cmd p. by apply direct_returns. Defined.

(** *** The MTK platform *)

(** The number of the session in the answer to AT+CCHO. *)
Definition session_text text : option (list Z) :=
  match strstr text AT_CHHO with
  | Some tmp => match skip_nondigits (drop (length AT_CHHO) tmp) with [] => None | tmp' => up_to_cr tmp' end
  | None => up_to_cr text
  end.

(** The modem ends what follows the last +CGLA: of its answers to AT+CGLA, and
    its answer to AT+CCHO has a session when it has OK. *)
Definition mtk_finishes : Prop := short_answers ∧ ∀ cmd m text m',
  mbim cmd m = ((0, text), m') →
  (is_prefix AT_CGLA_HEAD cmd = true → final_text (csim_of text) = true) ∧
  (cmd = AT_CHHO → contains text (lit "OK"%string) = true → is_Some (session_text text)).

(** The buffer is clear from its half on. *)
Definition clear_half (b : list Z) : Prop := Forall (λ c, c = 0) (drop (Z.to_nat HALF_BUFFER) b).
Definition mtk_idle p : Prop := LpaGetChipPlatType p = PLAT_TYPE_MTK ∧ clear_half (read_mipc_buf p).

Lemma clear_fill n : clear_half (fill 0 n).
Proof. unfold clear_half, fill. rewrite drop_replicate. by apply Forall_replicate. Qed.

(** A copied text in front of NULs. *)
Lemma text_copied t :
  zlen t <= HALF_BUFFER →
  ∃ b, strncpy (fill 0 (BUFSIZE_MAX + 1)) t (zlen t) = Some b ∧ clear_half b ∧
    (Forall (λ c, c ≠ 0) t → c_str b = Some t).
Proof.
  intros Hl. change HALF_BUFFER with 8192 in Hl. change (BUFSIZE_MAX + 1) with 16385. zlen_pos.
  rewrite strncpy_fits by (unfold fill; rewrite ?zlen_replicate; lia). rewrite Z.sub_diag. cbn [Z.to_nat replicate app].
  eexists. split; [reflexivity|]. unfold fill. rewrite drop_replicate. 
  replace (Z.to_nat 16385 - Z.to_nat (zlen t))%nat with (S (Z.to_nat (16384 - zlen t))) by lia. split.
  - unfold clear_half. change HALF_BUFFER with 8192. rewrite drop_app_ge by (unfold zlen in *; lia). apply Forall_drop.
    by apply Forall_replicate.
  - intros Hnz. by apply c_str_app.
Qed.

(** The command that closes the session, cut at a NUL when there is none. *)
Lemma closing_command s :
  ∃ b t, pciot_lpa_csimtocgla (fill 0 (zlen AT_CSIM_CLOSE + AT_EXT_LENGTH)) AT_CSIM_CLOSE s
    = Some (b, set_cmd_status LPA_CMD_CLOSE s) ∧ c_str b = Some t ∧ 0 < zlen t.
Proof.
  unfold pciot_lpa_csimtocgla. change (streqb AT_CSIM_CLOSE AT_CSIM_OPEN2) with false.
  change (streqb AT_CSIM_CLOSE AT_CSIM_CLOSE) with true. cbn iota. st_step. set (c := char (lpa_cgla_port s)). clearbody c.
  assert (strncpy (fill 0 (zlen AT_CSIM_CLOSE + AT_EXT_LENGTH)) AT_CCHC (zlen AT_CCHC) = Some (AT_CCHC ++ 0 :: 0 :: fill 0 24)) as E
    by by vm_compute.
  erewrite ST_bind_eq; [|unfold opt; rewrite E; reflexivity].
  assert (Forall (λ c, c ≠ 0) AT_CCHC) as Hnz by by apply (bool_decide_unpack _).
  erewrite ST_bind_eq; [|unfold opt; rewrite (strlen_app AT_CCHC) by done; reflexivity].
  erewrite ST_bind_eq; [|unfold opt; rewrite wr_app_next; reflexivity].
  assert ((AT_CCHC ++ c :: 0 :: fill 0 24).[zlen AT_CCHC + 1 := 13] = Some ((AT_CCHC ++ [c]) ++ 13 :: fill 0 24)) as E2.
  { change (zlen AT_CCHC + 1) with (zlen (AT_CCHC ++ [c])). change (AT_CCHC ++ c :: 0 :: fill 0 24) with ((AT_CCHC ++ [c]) ++ 0 :: fill 0 24).
    by rewrite wr_app_next. }
  erewrite ST_bind_eq; [|unfold opt; rewrite E2; reflexivity].
  exists ((AT_CCHC ++ [c]) ++ 13 :: fill 0 24), (AT_CCHC ++ if c =? 0 then [] else [c; 13]). split; [done|]. split.
  - destruct (Z.eqb_spec c 0) as [->|Hc].
    + rewrite app_nil_r, <-app_assoc. by apply c_str_app.
    + change ((AT_CCHC ++ [c]) ++ 13 :: fill 0 24) with ((AT_CCHC ++ [c; 13]) ++ 0 :: fill 0 23). apply c_str_app.
      apply Forall_app. split; [done|]. by repeat constructor.
  - rewrite zlen_app. zlen_pos. change (zlen AT_CCHC) with 8. lia.
Qed.

(** The translation of a command of the driver. *)
Lemma csimtocgla_returns s cmd :
  Forall (λ c, c ≠ 0) cmd → 8 <= zlen cmd →
  ∃ b t st, pciot_lpa_csimtocgla (fill 0 (zlen cmd + AT_EXT_LENGTH)) cmd s = Some (b, set_cmd_status st s) ∧
    c_str b = Some t ∧ 0 < zlen t ∧
    match st with
    | LPA_CMD_OPEN => t = AT_CHHO
    | LPA_CMD_CLOSE => True
    | LPA_CMD_NORMAL => is_prefix AT_CGLA_HEAD t = true
    end.
Proof.
  intros Hnz Hl. destruct (decide (cmd = AT_CSIM_OPEN2)) as [->|H2].
  { eexists _, AT_CHHO, LPA_CMD_OPEN. split; [reflexivity|]. by split_and!; [vm_compute|..]. }
  destruct (decide (cmd = AT_CSIM_CLOSE)) as [->|H3].
  { destruct (closing_command s) as (b & t & E & Hb & Ht). by exists b, t, LPA_CMD_CLOSE. }
  assert (∃ h rest, cmd = h ++ rest ∧ zlen h = 8) as (h & rest & -> & Hh).
  { exists (take 8 cmd), (drop 8 cmd). rewrite take_drop, zlen_take. split; [done|lia]. }
  destruct (csimtocgla_normal s h rest Hh H2 H3) as (k & E). apply Forall_app in Hnz as [_ Hrest].
  assert (Forall (λ c, c ≠ 0) (cgla_text (lpa_cgla_port s) rest)) as Hnz.
  { unfold cgla_text. destruct (Z.eqb_spec (char (lpa_cgla_port s)) 0); [|by apply cgla_line_nonzero].
    apply Forall_app. split; [by repeat constructor|done]. }
  eexists _, _, LPA_CMD_NORMAL. split; [exact E|]. split; [by apply c_str_app|].
  assert (∃ k, cgla_text (lpa_cgla_port s) rest = AT_CGLA_HEAD ++ k) as [k' Ek].
  { unfold cgla_text, cgla_line. destruct (_ =? 0); by eexists. }
  rewrite Ek, zlen_app. zlen_pos. change (zlen AT_CGLA_HEAD) with 8. split; [lia|]. apply is_prefix_spec. by exists k'.
Qed.

(** The translation of an answer: a text, or nothing when the session that was
    opened has no number. *)
Lemma cglatocsim_result s text :
  Forall (λ c, c ≠ 0) text → zlen text <= HALF_BUFFER →
  (∃ b t s', pciot_lpa_cglatocsim (fill 0 (BUFSIZE_MAX + 1)) text s = Some (b, s') ∧
     read_mipc_buf s' = read_mipc_buf s ∧ c_str b = Some t ∧ zlen t <= HALF_BUFFER ∧
     (if lpa_cmd_status s is LPA_CMD_NORMAL then t = csim_of text else final_text t = true)) ∨
  pciot_lpa_cglatocsim (fill 0 (BUFSIZE_MAX + 1)) text s = None ∧ lpa_cmd_status s = LPA_CMD_OPEN ∧
    contains text (lit "OK"%string) = true ∧ session_text text = None.
Proof.
  intros Hnz Hl. unfold pciot_lpa_cglatocsim. st_step. change HALF_BUFFER with 8192 in *.
  assert (∀ t, Forall (λ c, c ≠ 0) t → zlen t <= 8192 →
    ∃ b, strncpy (fill 0 (BUFSIZE_MAX + 1)) t (zlen t) = Some b ∧ c_str b = Some t) as Hcopy.
  { intros t Ht Htl. destruct (text_copied t) as (b & E & _ & Hb); [done|]. by exists b; auto. }
  destruct (lpa_cmd_status s) eqn:Est.
  - left. destruct (csim_answer_ok BUFSIZE_MAX text) as (k & E); [done..|change BUFSIZE_MAX with 16384; lia|].
    destruct (csim_of_facts text 8193) as [Hcs Hcl]; [lia|done..|].
    eexists _, _, s. unfold opt. rewrite E. split; [done|]. split; [done|]. split; [by apply c_str_app|]. split; [lia|done].
  - destruct (contains text (lit "OK"%string)) eqn:Eok; cbn [negb].
    + fold (session_text text). destruct (session_text text) as [port|] eqn:Ep; [left|by right].
      erewrite ST_bind_eq; [|reflexivity]. st_step.
      destruct (Hcopy AT_CSIM_OPEN2_RETUEN) as (b & E & Hb); [by apply (bool_decide_unpack _)|done|].
      erewrite ST_bind_eq; [|unfold opt; rewrite E; reflexivity]. eexists b, _, _. by split_and!.
    + left. destruct (Hcopy AT_CSIM_OPEN2_ERROR_RETUEN) as (b & E & Hb); [by apply (bool_decide_unpack _)|done|].
      erewrite ST_bind_eq; [|unfold opt; rewrite E; reflexivity]. eexists b, _, _. by split_and!.
  - left. destruct (Hcopy AT_CSIM_CLOSE_RETUEN) as (b & E & Hb); [by apply (bool_decide_unpack _)|done|].
    erewrite ST_bind_eq; [|unfold opt; rewrite E; reflexivity]. eexists b, _, _. by split_and!.
Qed.

Lemma malloc_result n s :
  ∃ o, malloc_cleared n s = Some (o, set_mallocs (tail (mallocs s)) s) ∧ (o = None ∨ o = Some (fill 0 n)).
Proof. eexists. split; [reflexivity|]. destruct (match mallocs s with true :: _ => true | _ => false end); auto. Qed.

(** Strings in an array: they end at the latest at a NUL, and go on behind a
    prefix without one. *)
Lemma c_str_before (b : list Z) i t : b.[i] = Some 0 → 0 <= i → c_str b = Some t → zlen t <= i.
Proof.
  intros Hi H0 E. apply c_str_Some in E as (k & -> & Ht). destruct (Z.le_gt_cases (zlen t) i) as [|Hlt]; [done|].
  unfold rd in Hi. rewrite (proj2 (Z.leb_le 0 i)) in Hi by lia.
  rewrite lookup_app_l in Hi by (unfold zlen in Hlt; lia). destruct (Forall_lookup_1 _ _ _ _ Ht Hi). done.
Qed.

Lemma c_str_behind (r b t : list Z) : Forall (λ c, c ≠ 0) r → c_str (r ++ b) = Some t → ∃ t', t = r ++ t'.
Proof.
  intros Hr. revert t. induction Hr as [|c r Hc _ IH]; intros t; [by exists t|]. cbn [app c_str]. zfalse (c =? 0).
  destruct (c_str (r ++ b)) as [t0|] eqn:E; [|done]. intros [= <-]. destruct (IH t0 eq_refl) as [t' ->]. by exists t'.
Qed.

(** The emulated answer to the first command, over an old one. *)
Lemma emulated_text b :
  zlen b = BUFSIZE_MAX + 1 → clear_half b →
  ∃ b' t, strncpy b AT_CSIM_OPEN1_RETUEN (zlen AT_CSIM_OPEN1_RETUEN) = Some b' ∧ clear_half b' ∧
    c_str b' = Some t ∧ zlen t <= HALF_BUFFER ∧ final_text t = true.
Proof.
  intros Hb Hc. change BUFSIZE_MAX with 16384 in Hb. set (r := AT_CSIM_OPEN1_RETUEN).
  assert (zlen r = 20) as Hr by done. assert (Forall (λ c, c ≠ 0) r) as Hnz by by apply (bool_decide_unpack _).
  rewrite strncpy_fits by lia. rewrite Z.sub_diag. cbn [Z.to_nat replicate app].
  set (b' := r ++ drop (Z.to_nat (zlen r)) b). assert (clear_half b') as Hc'.
  { unfold clear_half, b'. change HALF_BUFFER with 8192 in *. rewrite drop_app_ge by (unfold zlen in Hr; lia).
    rewrite drop_drop. replace (_ + _)%nat with (Z.to_nat 8192) by (unfold zlen in *; lia). exact Hc. }
  assert (b'.[HALF_BUFFER] = Some 0) as Hnul.
  { destruct (rd_is_Some b' HALF_BUFFER) as (x & Hx & _).
    { change HALF_BUFFER with 8192. unfold b'. rewrite zlen_app, zlen_drop. lia. }
    rewrite Hx. f_equal. unfold rd in Hx. rewrite (proj2 (Z.leb_le 0 HALF_BUFFER)) in Hx by done.
    apply (Forall_lookup_1 _ _ O x Hc'). rewrite lookup_drop. by rewrite Nat.add_0_r. }
  destruct (c_str_is_Some _ _ Hnul) as [t Ht]. exists b', t. split_and!; [done..|by eapply c_str_before|].
  destruct (c_str_behind _ _ _ Hnz Ht) as [t' ->].
  change (final_text (((lit "+CSIM: 6,'019000'"%string) ++ [13]) ++ GM_AT_COMMAND_RESPONSE_OK ++ t') = true). apply final_ok.
Qed.

(** A command that is not answered by the adaptor itself. *)
Lemma mtk_exchanged_text s cmd :
  mtk_finishes → adaptor_ok s → Forall (λ c, c ≠ 0) cmd → 8 <= zlen cmd →
  ∃ n s', write_cgla mbim pciot_lpa_csimtocgla pciot_lpa_cglatocsim cmd (zlen cmd) s = Some (n, s') ∧
    (n = zlen cmd → holds_text s').
Proof.
  intros [Hshort Hfin] Hs Hnz Hl. unfold write_cgla.
  destruct (malloc_result (zlen cmd + AT_EXT_LENGTH) s) as (o1 & E1 & Ho1). rewrite (ST_bind_eq _ _ _ _ _ E1).
  set (s1 := set_mallocs _ s). destruct Ho1 as [->| ->]; [exists 0, s1; split; [done|lia]|].
  destruct (malloc_result (BUFSIZE_MAX + 1) s1) as (o2 & E2 & Ho2). rewrite (ST_bind_eq _ _ _ _ _ E2).
  set (s2 := set_mallocs _ s1). destruct Ho2 as [->| ->]; [exists 0, s2; split; [done|lia]|].
  destruct (csimtocgla_returns s2 cmd Hnz Hl) as (b & t & st & E3 & Hb & Ht & Hst). rewrite (ST_bind_eq _ _ _ _ _ E3).
  set (s3 := set_cmd_status st s2). erewrite ST_bind_eq; [|unfold opt; rewrite Hb; reflexivity].
  destruct (exchange_returns s3 t (fill 0 (BUFSIZE_MAX + 1)) Hshort Ht) as (ret & out & m' & E4 & Hret); [by apply zlen_fill|].
  rewrite (ST_bind_eq _ _ _ _ _ E4). set (s4 := set_modem m' s3).
  destruct Hret as [Hret|(-> & text & Em & Ho)]; [ztrue (ret <? 0); exists 0, s4; split; [done|lia]|]. cbn beta iota.
  change (0 <? 0) with false. cbn iota.
  destruct (malloc_result (BUFSIZE_MAX + 1) s4) as (o5 & E5 & Ho5). rewrite (ST_bind_eq _ _ _ _ _ E5).
  set (s5 := set_mallocs _ s4). destruct Ho5 as [->| ->]; [exists 0, s5; split; [done|lia]|].
  erewrite ST_bind_eq; [|unfold opt; rewrite Ho; reflexivity].
  destruct (Hshort _ _ _ _ Em) as [Htx Htl]. destruct (Hfin _ _ _ _ Em) as [Hcgla Hchho].
  destruct (cglatocsim_result s5 text Htx Htl) as [(b6 & t6 & s6 & E6 & Hbuf & Hb6 & Hl6 & Hf)|(_ & Hopen & Hok & Hno)].
  2: { change (st = LPA_CMD_OPEN) in Hopen. subst st. destruct (Hchho Hst Hok). congruence. }
  rewrite (ST_bind_eq _ _ _ _ _ E6). erewrite ST_bind_eq; [|unfold opt; rewrite Hb6; reflexivity]. st_step.
  assert (zlen (read_mipc_buf s6) = BUFSIZE_MAX + 1) as -> by by rewrite Hbuf.
  destruct (text_copied t6 Hl6) as (b7 & E7 & _ & Hb7). erewrite ST_bind_eq; [|unfold opt; rewrite E7; reflexivity]. st_step.
  eexists _, _. split; [reflexivity|]. intros _. exists t6. split; [by apply Hb7; eapply c_str_nonzero|]. split; [done|]. right.
  change (lpa_cmd_status s5) with st in Hf. destruct st; [|done..]. subst t6. by apply Hcgla.
Qed.

Lemma mtk_returns fd b cmd p :
  mtk_finishes → adaptor_ok p → mtk_idle p → c_str b = Some cmd → zlen GM_AT_COMMAND_PREFIX <= zlen cmd →
  ∃ n p', write_ mbim fd b (zlen cmd) p = Some (n, p') ∧ (n = zlen cmd → holds_text p').
Proof.
  intros Hfin Hp [Hplat Hc] Hb Hl. unfold write_. erewrite ST_bind_eq; [|unfold opt; rewrite Hb; reflexivity]. st_step.
  rewrite Hplat. cbn [Z.eqb PLAT_TYPE_MTK]. unfold pciot_lpa_write_mtk, write_emulated. destruct (streqb cmd AT_CSIM_OPEN1).
  - st_step. destruct (emulated_text _ Hp Hc) as (b' & t & E & _ & Ht & Htl & Hf).
    erewrite ST_bind_eq; [|unfold opt; rewrite E; reflexivity]. st_step. eexists _, _. split; [reflexivity|].
    intros _. exists t. split; [done|]. split; [done|]. by right.
  - by apply mtk_exchanged_text; [..|by eapply c_str_nonzero|].
Qed.

(** The buffer stays clear from its half on. *)
Lemma keeps_buffer_csimtocgla b c cmd : keeps (λ s, read_mipc_buf s = b) (pciot_lpa_csimtocgla (M := M) c cmd).
Proof. unfold pciot_lpa_csimtocgla. keeps_setters. Qed.

Ltac malloc_step E :=
  let s := fresh "s" in let E1 := fresh "E" in let F := fresh "F" in let H := fresh "H" in
  apply ST_bind_Some in E as (? & s & E1 & E);
  match type of E1 with malloc_cleared ?n ?s0 = _ => destruct (malloc_result n s0) as (? & F & H) end;
  rewrite F in E1; injection E1 as <- <-; destruct H as [->| ->]; [injection E as <- <-; cbn in *; congruence|].

Lemma mtk_clear s cmd n r s' :
  short_answers → clear_half (read_mipc_buf s) → zlen (read_mipc_buf s) = BUFSIZE_MAX + 1 →
  write_cgla mbim pciot_lpa_csimtocgla pciot_lpa_cglatocsim cmd n s = Some (r, s') → clear_half (read_mipc_buf s').
Proof.
  intros Hshort Hc Hs E. unfold write_cgla in E. malloc_step E. malloc_step E.
  apply ST_bind_Some in E as (b & s3 & E3 & E). pose proof (keeps_buffer_csimtocgla _ _ _ _ _ _ eq_refl E3) as Hb3.
  apply ST_bind_Some in E as (t & ? & [_ ->]%opt_Some & E). apply ST_bind_Some in E as ([ret out] & s4 & E4 & E).
  destruct (Z.le_gt_cases (zlen t) 0) as [Ht|Ht].
  { unfold SendAtOverMbimMessage in E4. rewrite (proj2 (Z.ltb_lt (zlen t) 1)) in E4 by lia. injection E4 as <- <- <-. injection E as <- <-. by rewrite Hb3. }
  destruct (exchange_returns s3 t (fill 0 (BUFSIZE_MAX + 1)) Hshort Ht) as (ret' & out' & m' & F4 & Hret); [by apply zlen_fill|].
  rewrite F4 in E4. injection E4 as <- <- <-.
  destruct Hret as [Hret|(-> & text & Em & Ho)]; [rewrite (proj2 (Z.ltb_lt ret' 0) Hret) in E; injection E as <- <-; cbn; by rewrite Hb3|].
  change (0 <? 0) with false in E. cbn iota beta in E. malloc_step E.
  apply ST_bind_Some in E as (x & ? & [Hx ->]%opt_Some & E). rewrite Ho in Hx. injection Hx as <-.
  destruct (Hshort _ _ _ _ Em) as [Htx Htl].
  destruct (cglatocsim_result (set_mallocs (tail (mallocs s3)) (set_modem m' s3)) text Htx Htl)
    as [(b6 & t6 & s6 & E6 & Hbuf & Hb6 & Hl6 & _)|(E6 & _)].
  2: { change (tail (mallocs (set_modem m' s3))) with (tail (mallocs s3)) in E. apply ST_bind_Some in E as (? & ? & E & _).
       congruence. }
  rewrite (ST_bind_eq _ _ _ _ _ E6) in E. apply ST_bind_Some in E as (t7 & ? & [E7 ->]%opt_Some & E).
  assert (t7 = t6) as -> by congruence. cbn in Hb3, Hbuf. assert (zlen (read_mipc_buf s6) = BUFSIZE_MAX + 1) as Hz by congruence.
  destruct (text_copied t6 Hl6) as (b8 & E8 & Hc8 & _).
  apply ST_bind_Some in E as (b0 & s0 & [= <- <-] & E). rewrite Hz in E.
  apply ST_bind_Some in E as (b9 & ? & [E9 ->]%opt_Some & E). assert (b9 = b8) as -> by congruence.
  by injection E as <- <-.
Qed.

Lemma mtk_keeps fd b n : mtk_finishes → keeps (λ s, adaptor_ok s ∧ mtk_idle s) (write_ mbim fd b n).
Proof.
  intros [Hshort _] s r s' (Hs & Hplat & Hc) E. split; [by eapply keeps_write|].
  split; [by eapply (keeps_platform (λ t, t = PLAT_TYPE_MTK))|]. unfold write_ in E.
  apply ST_bind_Some in E as (cmd & ? & [_ ->]%opt_Some & E). apply ST_bind_Some in E as (? & ? & [= <- <-] & E).
  rewrite Hplat in E. cbn [Z.eqb PLAT_TYPE_MTK] in E. unfold pciot_lpa_write_mtk, write_emulated in E.
  destruct (streqb cmd AT_CSIM_OPEN1); [|by eapply mtk_clear].
  destruct (emulated_text _ Hs Hc) as (b' & t & E' & Hc' & _). apply ST_bind_Some in E as (? & ? & [= <- <-] & E).
  apply ST_bind_Some in E as (b1 & ? & [E1 ->]%opt_Some & E). assert (b1 = b') as -> by congruence. by injection E as <- <-.
Qed.

(** The adaptor on the MTK platform. *)
Definition mtk_sound (Hfin : mtk_finishes) : @SoundPort (adaptor M) (adaptor_port mbim).
Proof.
  apply (restricted_sound mtk_idle); [done| |intros; by apply mtk_keeps].
  intros s [Hplat _]. split; [done|apply clear_fill].
Defined.

Definition mtk_answers (Hfin : mtk_finishes) : @AnsweringPort (adaptor M) (adaptor_port mbim) (mtk_sound Hfin).
Proof. apply restricted_answers. intros fd b cmd p. by apply mtk_returns. Defined.
End adaptor.

(** ** A plain error on the MTK platform

    An answer to AT+CGLA without +CGLA:, as that of a command that fails, is
    given to the driver as a bare +CSIM:, without the ERROR. The driver reads on
    after it, behind the response buffer. *)
Definition failing_modem (text : list Z) : gm_state (adaptor (list (list Z * list Z))) :=
  online (device PLAT_TYPE_MTK [] [(lit "AT+CGLA=1,"%string ++ select_line, text)]).
Definition sent_command (text : list Z) : option bool :=
  fst <$> @_seMediaGenericModemSendAPDUtoModemAndCheckOK _ (adaptor_port dialogue) (Some (chars "01A4040002A000"%string)) true
            (failing_modem text).

Theorem plain_error_overflows :
  sent_command ([13; 10] ++ lit "ERROR"%string ++ [13; 10]) = None ∧
  sent_command ([13; 10] ++ lit "+CGLA: ERROR"%string ++ [13; 10]) = Some false ∧
  sent_command (line "+CGLA: 4,"%string "9000"%string) = Some true.
Proof. split_and!; vm_compute; reflexivity. Qed.
