(* ===== verification/Driver.v ===== *)
(** * The modem driver returns

    Over a port with the laws of [AnsweringPort], no function of a session
    leaves the C semantics, whichever allocations fail: every access to the
    response buffer, to the text extracted from it and to the text of the
    channel is in bounds. So the driver of Modem.v is one that the sessions of
    Session.v can use. *)

From Stdlib Require String Ascii.
From S2P Require Import Prelude CLib Util StateMonad SeMedia Modem Adaptor Platform Session.
Import Stdlib.Strings.String.StringSyntax.
#[local] Delimit Scope string_scope with string.

(** ** Computations that return *)

Definition returns {S A} (P : S → Prop) (m : ST S A) (Q : A → S → Prop) : Prop :=
  ∀ s, P s → ∃ a s', m s = Some (a, s') ∧ Q a s'.

(** Computations that return and keep an invariant. *)
Definition total {S A} (I : S → Prop) (m : ST S A) : Prop := returns I m (λ _, I).

Section returns.
Context {S : Type}.
Implicit Types (P I : S → Prop).

Lemma returns_bind {A B} P (m : ST S A) R (f : A → ST S B) Q :
  returns P m R → (∀ a, returns (R a) (f a) Q) → returns P (x ← m; f x) Q.
Proof.
  intros Hm Hf s Hs. destruct (Hm s Hs) as (a & s1 & E & Ha). destruct (Hf a s1 Ha) as (b & s2 & E2 & Hb).
  exists b, s2. by rewrite (ST_bind_eq _ _ _ _ _ E).
Qed.

Lemma total_bind {A B} I (m : ST S A) (f : A → ST S B) : total I m → (∀ a, total I (f a)) → total I (x ← m; f x).
Proof. apply returns_bind. Qed.

Lemma total_ret {A} I (a : A) : total I (mret a).
Proof. intros s Hs. by exists a, s. Qed.

Lemma total_gets {A} I (f : S → A) : total I (gets f).
Proof. intros s Hs. by exists (f s), s. Qed.

Lemma total_gets_bind {A B} I (f : S → A) (φ : A → Prop) (k : A → ST S B) :
  (∀ s, I s → φ (f s)) → (∀ a, φ a → total I (k a)) → total I (x ← gets f; k x).
Proof. intros Hf Hk s Hs. by apply (Hk (f s) (Hf s Hs)). Qed.

Lemma total_opt_bind {A B} I (o : option A) (k : A → ST S B) :
  is_Some o → (∀ a, o = Some a → total I (k a)) → total I (x ← opt o; k x).
Proof. intros [a ->] Hk s Hs. by apply (Hk a). Qed.

Lemma total_modifies I (f : S → S) : (∀ s, I s → I (f s)) → total I (modifies f).
Proof. intros H s Hs. exists tt, (f s). by split; [|apply H]. Qed.

Lemma total_if {A} I (b : bool) (m n : ST S A) : total I m → total I n → total I (if b then m else n).
Proof. by destruct b. Qed.

(** A computation that is defined, and that keeps the invariant when it is. *)
Lemma total_keeps {A} I (m : ST S A) : (∀ s, I s → is_Some (m s)) → keeps I m → total I m.
Proof. intros Hd Hk s Hs. destruct (Hd s Hs) as [[a s'] E]. exists a, s'. split; [done|]. by eapply Hk. Qed.

Lemma bind_is_Some {A B} (m : ST S A) (f : A → ST S B) s a s' :
  m s = Some (a, s') → is_Some (f a s') → is_Some ((x ← m; f x) s).
Proof. intros E H. by rewrite (ST_bind_eq _ _ _ _ _ E). Qed.
End returns.

Create HintDb total discriminated.
#[export] Hint Constants Opaque : total.
#[export] Hint Resolve total_ret total_gets : total.

Ltac total_step :=
  first [ solve [auto with total]
        | apply total_bind; [|intros ?]
        | apply total_if
        | progress cbn beta iota ].

(** ** Texts *)

Lemma apduToAtCommand_total apdu :
  Forall (λ c, c ≠ 0) apdu →
  ∃ built command, _seMediaGenericModemApduToAtCommand apdu (Some (fill 0 GM_AT_COMMAND_BUFFER_SIZE)) GM_AT_COMMAND_BUFFER_SIZE
    = Some (built, command) ∧ (built = true → ∃ c cmd, command = Some c ∧ c_str c = Some cmd ∧
      zlen GM_AT_COMMAND_PREFIX <= zlen cmd).
Proof.
  intros Ha. change GM_AT_COMMAND_BUFFER_SIZE with 600. destruct (Z.leb_spec (zlen apdu + 17) 600) as [Hl|Hl].
  - destruct (apduToAtCommand_ok apdu (fill 0 600) 600) as (k & E & _); [done|lia|lia|lia|done|].
    rewrite E. eexists _, _. split; [done|]. intros _. eexists _, _. split; [done|].
    rewrite c_str_app by by apply at_command_nonzero. split; [done|]. unfold at_command. rewrite zlen_app. zlen_pos. lia.
  - eexists false, _. unfold _seMediaGenericModemApduToAtCommand. change (zlen GM_AT_COMMAND_PREFIX) with 8.
    change (600 <? 8 + 13) with false. ztrue (8 + zlen apdu + 9 >? 600). done.
Qed.

Lemma skip_blanks_zlen s : zlen (skip_blanks s) <= zlen s.
Proof. induction s as [|c s IH]; [done|]. cbn [skip_blanks]. rewrite zlen_cons. destruct (c =? blank); [lia|]. by rewrite zlen_cons. Qed.

Lemma drop_zlen {A} k (s : list A) : zlen (drop k s) <= zlen s.
Proof. unfold zlen. rewrite length_drop. lia. Qed.

Lemma strstr_zlen s t r : strstr s t = Some r → zlen r <= zlen s.
Proof. intros E. apply strstr_Some in E as (p & k & -> & _). rewrite zlen_app. zlen_pos. lia. Qed.

(** The extracted text, in a block of the size of the response: a string of at
    least two cells. *)
Definition extracted_ok (n : Z) (r : bool * option (list Z)) : Prop :=
  ∃ bytes, r.2 = Some bytes ∧ zlen bytes = n ∧ (r.1 = true → is_Some (c_str bytes)).

Lemma put_text (apdu src : list Z) n :
  zlen src = n → n < zlen apdu →
  ∃ b b', wr_range apdu 0 src = Some b ∧ b.[n := 0] = Some b' ∧ zlen b' = zlen apdu ∧ is_Some (c_str b').
Proof.
  intros Hn Hl. pose proof (zlen_nonneg src). rewrite wr_range_Some by lia. eexists _, _. split; [done|].
  change (take (Z.to_nat 0) apdu ++ src ++ drop (Z.to_nat 0 + length src) apdu) with (src ++ drop (length src) apdu).
  assert (zlen (src ++ drop (length src) apdu) = zlen apdu) as Hb by (rewrite zlen_app, zlen_drop; unfold zlen in *; lia).
  rewrite wr_Some by lia. split; [done|]. split; [by rewrite zlen_insert|].
  apply (c_str_is_Some _ n). unfold rd. rewrite (proj2 (Z.leb_le 0 n)) by lia.
  apply list_lookup_insert_eq. unfold zlen in *. lia.
Qed.

(** The extraction of an answer of at most half of the buffer. *)
Lemma no_quote_total r apdu s :
  c_str r = Some s → zlen r = GENERIC_MODEM_RESPONSE_BUFFER_SIZE → 2 <= zlen s <= HALF_BUFFER → zlen apdu = zlen s →
  ∃ res b, _seMediaGenericModemNoQuoteAtCommandResponseToApdu r apdu (zlen s) = Some (res, b) ∧
    extracted_ok (zlen s) (res, Some b).
Proof.
  intros Hs Hr Hlen Hb. change GENERIC_MODEM_RESPONSE_BUFFER_SIZE with 16385 in Hr. change HALF_BUFFER with 8192 in Hlen.
  unfold _seMediaGenericModemNoQuoteAtCommandResponseToApdu. rewrite Hs. cbn [mbind option_bind].
  destruct (strstr s _) as [part|] eqn:E1; [|exists false, apdu; split; [done|by exists apdu]].
  set (part' := skip_blanks _). assert (0 <= u64 (atoi part') < 2^64) as Hn by (apply Z.mod_pos_bound; lia).
  assert (u64 (zlen s - 1) = zlen s - 1) as Eu by (apply Z.mod_small; lia).
  destruct (Z.gtb_spec (u64 (atoi part')) (u64 (zlen s - 1))) as [Hgt|Hgt]; [exists false, apdu; split; [done|by exists apdu]|].
  destruct (strstr part' _) as [first|] eqn:E2; [|exists false, apdu; split; [done|by exists apdu]].
  set (data := skip_blanks _).
  assert (zlen data <= zlen s) as Hd.
  { apply strstr_zlen in E1, E2. pose proof (skip_blanks_zlen (drop 1 first)). pose proof (drop_zlen 1 first).
    pose proof (skip_blanks_zlen (drop (length GM_AT_COMMAND_RESPONSE_PREFIX) part)).
    pose proof (drop_zlen (length GM_AT_COMMAND_RESPONSE_PREFIX) part). subst data part'. lia. }
  pose proof (zlen_nonneg data). rewrite rd_range_Some by lia. cbn [mbind option_bind].
  match goal with |- context [wr_range apdu 0 ?x] => set (src := x) end.
  destruct (put_text apdu src (u64 (atoi part'))) as (b & b' & -> & E & Hb' & Hc).
  { subst src. rewrite zlen_take, zlen_drop. lia. }
  { lia. }
  cbn [mbind option_bind]. rewrite E. exists true, b'. split; [done|]. exists b'. split; [done|]. split; [lia|done].
Qed.

Lemma extract_total r apdu s :
  c_str r = Some s → zlen r = GENERIC_MODEM_RESPONSE_BUFFER_SIZE → 2 <= zlen s <= HALF_BUFFER → zlen apdu = zlen s →
  ∃ x, _seMediaGenericModemAtCommandResponseToApdu (Some r) (Some apdu) (zlen s) = Some x ∧ extracted_ok (zlen s) x.
Proof.
  intros Hs Hr Hlen Hb. unfold _seMediaGenericModemAtCommandResponseToApdu. zfalse (zlen s <? 2). rewrite Hs. cbn [mbind option_bind].
  assert (extracted_ok (zlen s) (false, Some apdu)) as Hno by by exists apdu.
  destruct (strstr s _) as [part|] eqn:E1; [|by eexists].
  destruct (strstr part _) as [first|] eqn:E2.
  2: { destruct (no_quote_total r apdu s) as (res & b & -> & Hx); [done..|]. by eexists. }
  destruct (strstr (drop 1 first) _) as [second|] eqn:E3; [|by eexists].
  apply strstr_zlen in E1, E2, E3. pose proof (drop_zlen 1 first). pose proof (zlen_nonneg second).
  set (n := zlen (drop 1 first) - zlen second) in *.
  assert (u64 (zlen s - 1) = zlen s - 1) as -> by (change HALF_BUFFER with 8192 in Hlen; apply Z.mod_small; lia).
  destruct (Z.gtb_spec n (zlen s - 1)) as [Hgt|Hgt]; [by eexists|].
  rewrite rd_range_Some by lia. cbn [mbind option_bind].
  match goal with |- context [wr_range apdu 0 ?x] => set (src := x) end.
  destruct (put_text apdu src n) as (b & b' & -> & E & Hb' & Hc).
  { subst src. rewrite zlen_take, zlen_drop. lia. }
  { lia. }
  cbn [mbind option_bind]. rewrite E. eexists. split; [done|]. exists b'. split; [done|]. split; [lia|done].
Qed.

(** ** The functions of the driver *)

Section driver.
Context {P : Type} `{AnsweringPort P}.
Implicit Types (s : gm_state P) (p : P).

Lemma total_port {A} n (f : ST P A) : (∀ p, port_ok p → is_Some (f p)) → keeps port_ok f → total (gm_inv n) (on_port f).
Proof.
  intros Hf Hk. apply total_keeps; [|by apply keeps_port]. intros s [Hs _]. unfold on_port.
  destruct (Hf (port s)) as [[a p] ->]; [apply Hs|by eexists].
Qed.

Lemma total_open n name : total (gm_inv n) (on_port (pciot_lpa_open name)).
Proof. apply total_port; [intros p; apply open_returns|apply open_sound]. Qed.
Lemma total_close n fd : total (gm_inv n) (on_port (pciot_lpa_close fd)).
Proof. apply total_port; [intros p; apply close_returns|apply close_sound]. Qed.
Lemma total_modemFD n fd : total (gm_inv n) (modifies (set_modemFD (P := P) fd)).
Proof. apply total_modifies, inv_modemFD. Qed.
Lemma total_context n b : total (gm_inv n) (modifies (set_context (P := P) b)).
Proof. apply total_modifies, inv_context. Qed.
Lemma total_event n e : total (gm_inv n) (_seMediaGenericModemSendLpaEventExecutionError (P := P) e).
Proof. apply total_keeps; [by intros s _; eexists|apply keeps_event]. Qed.
#[local] Hint Resolve total_open total_close total_modemFD total_context total_event : total.

Lemma inv_text n s : gm_inv n s → ∃ t, c_str (responseBuffer s) = Some t.
Proof. intros [Hs _]. apply (c_str_is_Some _ (GENERIC_MODEM_RESPONSE_BUFFER_SIZE - 1)), Hs. Qed.

Lemma total_text {A} n (k : list Z → list Z → ST (gm_state P) A) :
  (∀ b t, c_str b = Some t → total (gm_inv n) (k b t)) →
  total (gm_inv n) (b ← gets responseBuffer; t ← opt (c_str b); k b t).
Proof.
  intros Hk. apply (total_gets_bind _ _ (λ b, is_Some (c_str b))); [intros s Hs; by eapply inv_text|].
  intros b Hb. apply total_opt_bind; [done|]. by intros t; apply Hk.
Qed.

Lemma total_contains n t : total (gm_inv n) (response_contains t).
Proof. apply total_text. intros. apply total_ret. Qed.
#[local] Hint Resolve total_contains : total.

Lemma contains_at s t x : c_str (responseBuffer s) = Some t → response_contains x s = Some (contains t x, s).
Proof.
  intros Ht. unfold response_contains. erewrite ST_bind_eq; [|reflexivity]. unfold opt, mbind, ST_bind. by rewrite Ht.
Qed.

(** A response in the buffer, of at most half of it. *)
Definition short_response (b : list Z) : Prop := ∃ t, c_str b = Some t ∧ zlen t <= HALF_BUFFER.

(** The loop, behind the characters [acc] that have come. *)
Lemma loop_returns fuel : ∀ acc b s,
  responseBuffer s = acc ++ b → zlen (acc ++ b) = GENERIC_MODEM_RESPONSE_BUFFER_SIZE → Forall (λ c, c ≠ 0) acc →
  port_ok (port s) → readable (GENERIC_MODEM_RESPONSE_BUFFER_SIZE - zlen acc) (port s) →
  zlen acc + pending (port s) <= HALF_BUFFER →
  ∃ r s', get_response_data_loop fuel (zlen acc) s = Some (r, s') ∧ (r = true → short_response (responseBuffer s')).
Proof.
  induction fuel as [|fuel IH]; intros acc b s Eb Hl Hacc Hp Hr Hpend; [by exists false, s|].
  change HALF_BUFFER with 8192 in *. change GENERIC_MODEM_RESPONSE_BUFFER_SIZE with 16385 in *.
  destruct (read_returns (_modemFD s) _ _ Hp Hr) as (bs & p' & Hread & Hbs & Hlen & Hmore).
  pose proof (pending_nonneg p') as Hp0. zlen_pos.
  assert (port_ok p') as Hp'.
  { rewrite zlen_app in Hl. destruct (Hread b) as (k & E & _); [lia|]. replace (16385 - zlen acc) with (zlen b) in E by lia.
    by apply (read_sound _ _ _ _ _ _ Hp) in E as [? _]. }
  destruct (loop_read s (_modemFD s) acc bs b (port s) p') as (k & Hk & ->); [done..|rewrite zlen_app;
    change GENERIC_MODEM_RESPONSE_BUFFER_SIZE with 16385; lia|].
  change GENERIC_MODEM_RESPONSE_BUFFER_SIZE with 16385 in Hk. set (s1 := set_responseBuffer _ _).
  destruct (Z.gtb_spec (zlen bs) 0) as [Hgt|Hgt].
  2: { assert (bs = []) as -> by by apply zlen_0_inv; lia. rewrite Z.sub_0_r in Hmore.
       apply (IH acc k s1); [done..| |cbn; change HALF_BUFFER with 8192; cbn in *; lia]. by apply Hmore. }
  assert (Forall (λ c, c ≠ 0) (acc ++ bs)) as Hnz by by apply Forall_app.
  destruct (nul_behind (acc ++ bs) k 16385) as (k' & Ew & Hk'); [by rewrite <-app_assoc|rewrite zlen_app; lia|].
  erewrite ST_bind_eq; [|unfold opt; rewrite Ew; reflexivity]. erewrite ST_bind_eq; [|reflexivity].
  set (s2 := set_responseBuffer ((acc ++ bs) ++ 0 :: k') s1).
  assert (∀ x, response_contains x s2 = Some (contains (acc ++ bs) x, s2)) as Hcont.
  { intros x. by apply (response_contains_ok s2 (acc ++ bs) x k'). }
  assert (short_response (responseBuffer s2)) as Hshort.
  { exists (acc ++ bs). split; [by apply c_str_app|]. rewrite zlen_app. change HALF_BUFFER with 8192. lia. }
  erewrite ST_bind_eq; [|apply Hcont]. destruct (contains _ GM_AT_COMMAND_RESPONSE_OK) eqn:F1; [by eexists _, s2|].
  erewrite ST_bind_eq; [|apply Hcont]. destruct (contains _ GM_AT_COMMAND_RESPONSE_ERROR) eqn:F2; [by eexists _, s2|].
  erewrite ST_bind_eq; [|apply Hcont]. destruct (contains _ GM_AT_MODEM_START_EVENT) eqn:F3; [by eexists _, s2|].
  apply (IH (acc ++ bs) (0 :: k') s2); [done|done|done|done| |rewrite zlen_app; cbn; change HALF_BUFFER with 8192; lia].
  rewrite zlen_app. change GENERIC_MODEM_RESPONSE_BUFFER_SIZE with 16385.
  replace (16385 - (zlen acc + zlen bs)) with (16385 - zlen acc - zlen bs) by lia. apply Hmore.
  apply (final_suffix acc). unfold final_text. by rewrite !orb_false_iff.
Qed.

(** The modem has an answer to a command. *)
Definition answering n s : Prop :=
  gm_inv n s ∧ readable GENERIC_MODEM_RESPONSE_BUFFER_SIZE (port s) ∧ pending (port s) <= HALF_BUFFER.

Lemma response_returns n :
  returns (answering n) _seMediaGenericModemGetATcommandResponseData
    (λ r s, gm_inv n s ∧ (r = true → short_response (responseBuffer s))).
Proof.
  intros s (Hs & Hr & Hp).
  enough (∃ r s', _seMediaGenericModemGetATcommandResponseData s = Some (r, s') ∧ (r = true → short_response (responseBuffer s')))
    as (r & s' & E & H').
  { exists r, s'. split; [done|]. split; [|done]. by eapply keeps_GetATcommandResponseData. }
  pose proof Hs as [[] _]. unfold _seMediaGenericModemGetATcommandResponseData.
  erewrite ST_bind_eq; [|reflexivity]. destruct (responseBuffer s) as [|c b]; [done|].
  erewrite ST_bind_eq; [|unfold opt; rewrite wr_cell0; reflexivity]. erewrite ST_bind_eq; [|reflexivity].
  apply (loop_returns _ [] (0 :: b)); [done| |done|done|by rewrite Z.sub_0_r|done].
  cbn [app]. by rewrite zlen_cons in *.
Qed.

(** A command that the port has written is answered. *)
Lemma command_written n fd b cmd :
  c_str b = Some cmd → zlen GM_AT_COMMAND_PREFIX <= zlen cmd →
  returns (gm_inv n) (on_port (pciot_lpa_write fd b (zlen cmd))) (λ w s, gm_inv n s ∧ (w = zlen cmd → answering n s)).
Proof.
  intros Hb Hne s Hs. pose proof Hs as [[] _]. destruct (write_returns fd b cmd (port s) wf_port Hb Hne) as (w & p' & E & Hw).
  assert (gm_inv n (set_port p' s)) as Hs'.
  { apply inv_port; [done|]. by apply (write_sound fd b (zlen cmd) (port s) w p'). }
  exists w, (set_port p' s). unfold on_port. rewrite E. split; [done|]. split; [done|]. by intros [Hread Hpend]%Hw.
Qed.

(** The answer in the buffer: a text between 2 and half of the buffer, from
    which an APDU is extracted. *)
Definition response_ok s : Prop := ∃ t, c_str (responseBuffer s) = Some t ∧ 2 <= zlen t <= HALF_BUFFER.

Lemma checkOK_at s t :
  c_str (responseBuffer s) = Some t →
  _seMediaGenericModemCheckATcommandResponseOK s = Some ((zlen t >? 1) && contains t GM_AT_COMMAND_RESPONSE_OK, s).
Proof.
  intros Ht. unfold _seMediaGenericModemCheckATcommandResponseOK. erewrite ST_bind_eq; [|reflexivity].
  unfold opt, mbind, ST_bind. by rewrite Ht.
Qed.

Lemma length_at s t : c_str (responseBuffer s) = Some t → response_length s = Some (zlen t, s).
Proof.
  intros Ht. unfold response_length. erewrite ST_bind_eq; [|reflexivity]. unfold opt. by rewrite strlen_c_str, Ht.
Qed.

(** A block with the extracted text. *)
Lemma block_is_Some {A} n (f : list Z → ST (gm_state P) A) (none : A) s :
  0 < n →
  (∀ b o m, zlen b = n → is_Some (f b (set_heap o m s))) →
  is_Some ((block ← lpaCoreMemoryAlloc n;
            match block with
            | Some b => r ← f b; lpaCoreMemoryFree;; mret r
            | None => mret none
            end) s).
Proof.
  intros Hn Hf. unfold lpaCoreMemoryAlloc. ztrue (n >? 0). unfold mbind at 1, ST_bind at 1.
  destruct (match oracle s with true :: _ => true | _ => false end); [by eexists|]. 
  destruct (Hf (fill 0xBD n) (tail (oracle s)) (live s + 1)) as [[r s'] E].
  { unfold fill, zlen. rewrite length_replicate. lia. }
  eapply bind_is_Some; [exact E|]. by eexists.
Qed.

(** One that only reads the state. *)
Lemma block_reads {A} n (f : list Z → ST (gm_state P) A) (none : A) s :
  0 < n →
  (∀ b st, zlen b = n → responseBuffer st = responseBuffer s → ∃ r, f b st = Some (r, st)) →
  ∃ r s', (block ← lpaCoreMemoryAlloc n;
           match block with
           | Some b => r ← f b; lpaCoreMemoryFree;; mret r
           | None => mret none
           end) s = Some (r, s') ∧ responseBuffer s' = responseBuffer s.
Proof.
  intros Hn Hf. unfold lpaCoreMemoryAlloc. ztrue (n >? 0). unfold mbind at 1, ST_bind at 1.
  destruct (match oracle s with true :: _ => true | _ => false end); [by eexists _, _|].
  destruct (Hf (fill 0xBD n) (set_heap (tail (oracle s)) (live s + 1) s)) as [r E]; [|done|].
  { unfold fill, zlen. rewrite length_replicate. lia. }
  erewrite ST_bind_eq; [|exact E]. by eexists _, _.
Qed.

Lemma response_extracted n s t b :
  gm_inv n s → c_str (responseBuffer s) = Some t → 2 <= zlen t <= HALF_BUFFER → zlen b = zlen t →
  ∃ x, _seMediaGenericModemAtCommandResponseToApdu (Some (responseBuffer s)) (Some b) (zlen t) = Some x ∧ extracted_ok (zlen t) x.
Proof. intros [Hs _] Ht Hl Hb. apply extract_total; [done|apply Hs|done|done]. Qed.

Lemma send_returns n apdu check :
  Forall (λ c, c ≠ 0) apdu →
  returns (gm_inv n) (_seMediaGenericModemSendAPDUtoModemAndCheckOK (Some apdu) check)
    (λ r s, gm_inv n s ∧ (r = true → response_ok s)).
Proof.
  intros Ha s Hs.
  enough (∃ r s', _seMediaGenericModemSendAPDUtoModemAndCheckOK (Some apdu) check s = Some (r, s') ∧ (r = true → response_ok s'))
    as (r & s' & E & Hr).
  { exists r, s'. split; [done|]. split; [|done]. by eapply (keeps_SendAPDU n (Some apdu) check). }
  unfold _seMediaGenericModemSendAPDUtoModemAndCheckOK.
  destruct (apduToAtCommand_total apdu Ha) as (built & command & Ec & Hbuilt). unfold opt at 1. rewrite Ec.
  erewrite ST_bind_eq; [|reflexivity]. cbn beta iota.
  destruct built; [|by exists false, s]. destruct (Hbuilt eq_refl) as (c & cmd & -> & Hcmd & Hne).
  do 3 (erewrite ST_bind_eq; [|by rewrite ?strlen_c_str, ?Hcmd; reflexivity]).
  destruct (command_written n (_modemFD s) c cmd Hcmd Hne s Hs) as (written & s1 & Ew & Hs1 & Hready).
  erewrite ST_bind_eq; [|exact Ew]. destruct (Z.eqb_spec written (zlen cmd)) as [->|]; cbn [negb]; [|by exists false, s1].
  destruct (response_returns n s1 (Hready eq_refl)) as (received & s2 & Er & Hs2 & Hshort).
  erewrite ST_bind_eq; [|exact Er]. destruct received; [|by exists false, s2].
  destruct (Hshort eq_refl) as (t & Ht & Hmax). 
  erewrite ST_bind_eq; [|by apply checkOK_at]. destruct (zlen t >? 1) eqn:E1; [|by exists false, s2]. zprop.
  destruct (contains t _); [|by exists false, s2]. cbn [andb].
  erewrite ST_bind_eq; [|by apply length_at].
  match goal with |- context [with_block _ ?k _] => enough (∃ r s', with_block (zlen t) k s2 = Some (r, s') ∧
    responseBuffer s' = responseBuffer s2) as (r & s' & E & Hb) end.
  { exists r, s'. split; [exact E|]. intros _. exists t. rewrite Hb. split; [done|lia]. }
  apply block_reads; [lia|]. intros b st Hl Hst. cbn beta. erewrite ST_bind_eq; [|reflexivity]. rewrite Hst.
  destruct (response_extracted n s2 t b) as ([res out] & Ex & bytes & Hout & _ & Hstr); [done|done|lia|done|].
  cbn [fst snd] in *. subst out. unfold opt at 1. rewrite Ex. erewrite ST_bind_eq; [|reflexivity].
  destruct res; [|by exists false]. destruct check; [|by exists true].
  destruct (Hstr eq_refl) as [str Es]. erewrite ST_bind_eq; [|reflexivity]. rewrite Es.
  erewrite ST_bind_eq; [|reflexivity]. by eexists.
Qed.

(** The two cells of the number of a channel. *)
Lemma open_channel_total n : total (gm_inv n) _seMediaGenericModemOpenUICCChannel.
Proof.
  apply total_keeps; [|apply keeps_OpenUICCChannel]. intros s Hs. unfold _seMediaGenericModemOpenUICCChannel.
  destruct (send_returns n GM_APDU_OPEN_SIM_CHANNEL true) with (s := s) as (sent & s1 & E & Hs1 & Hr);
    [by apply (bool_decide_unpack _)|done|].
  eapply bind_is_Some; [exact E|]. destruct sent; [|by eexists]. destruct (Hr eq_refl) as (t & Ht & Hlen).
  eapply bind_is_Some; [by apply length_at|]. apply block_is_Some; [lia|]. intros b o m Hb.
  eapply bind_is_Some; [reflexivity|].
  destruct (response_extracted n s1 t b) as ([res out] & Ex & bytes & Hout & Hl & Hstr); [done..|].
  cbn [fst snd] in *. subst out. eapply bind_is_Some; [unfold opt; cbn [responseBuffer set_heap]; by rewrite Ex|].
  destruct res; [|by eexists]. eapply bind_is_Some; [reflexivity|].
  destruct (rd_is_Some bytes 0) as (c0 & E0 & _); [lia|]. destruct (rd_is_Some bytes 1) as (c1 & E1 & _); [lia|].
  eapply bind_is_Some; [unfold opt; by rewrite E0|]. eapply bind_is_Some; [unfold opt; by rewrite E1|].
  destruct (c_str_is_Some [c0; c1; 0] 2) as [str Es]; [done|].
  eapply bind_is_Some; [unfold opt; by rewrite Es|]. by destruct (_ && _); eexists.
Qed.

Lemma close_port_total n : total (gm_inv n) _seMediaGenericModemCloseDescriptorOrHandle.
Proof. unfold _seMediaGenericModemCloseDescriptorOrHandle. repeat total_step. Qed.

(** The command that closes a channel. *)
Lemma close_command_total str :
  Forall (λ c, c ≠ 0) str → zlen str <= 2 →
  ∃ b1 b2 b3 cmd,
    strncat (fill 0 20) GM_APDU_CLOSE_SIM_CHANNEL_PREFIX (zlen GM_APDU_CLOSE_SIM_CHANNEL_PREFIX + 1) = Some b1 ∧
    strncat b1 str 3 = Some b2 ∧ strncat b2 [48; 48] 3 = Some b3 ∧ c_str b3 = Some cmd ∧
    Forall (λ c, c ≠ 0) cmd.
Proof.
  intros Hs Hl. assert (Forall (λ c, c ≠ 0) GM_APDU_CLOSE_SIM_CHANNEL_PREFIX) as Hp by by apply (bool_decide_unpack _).
  assert (Forall (λ c, c ≠ 0) [48; 48]) as H0s by by apply (bool_decide_unpack _).
  exists (GM_APDU_CLOSE_SIM_CHANNEL_PREFIX ++ 0 :: fill 0 13).
  assert (zlen (drop (length str) (fill 0 13)) >= 11) as Hd.
  { rewrite zlen_drop. change (zlen (fill 0 13)) with 13. unfold zlen in *. lia. }
  eexists _, _, _. split; [by vm_compute|]. split; [apply strncat_app; [done|lia|change (zlen (fill 0 13)) with 13; lia]|].
  rewrite app_assoc. split; [apply strncat_app; [by apply Forall_app|done|change (zlen [48; 48]) with 2; lia]|].
  rewrite app_assoc. split; [apply c_str_app|]; repeat (apply Forall_app; split); done.
Qed.

Lemma forget_total n : total (gm_inv n)
  (cells ← gets _apduChannelString; rest ← opt cells.[0 := 0]; modifies (set_channel (P := P) 0 rest)).
Proof.
  apply total_keeps.
  - intros s [[] _]. eapply bind_is_Some; [reflexivity|]. by destruct (_apduChannelString s).
  - apply keeps_forget. intros cells Hc. by apply keeps_no_channel.
Qed.
#[local] Hint Resolve forget_total : total.

Lemma close_channel_total n : total (gm_inv n) _seMediaGenericModemCloseUICCChannel.
Proof.
  apply total_keeps; [|apply keeps_CloseUICCChannel]. intros s Hs. unfold _seMediaGenericModemCloseUICCChannel.
  eapply bind_is_Some; [reflexivity|]. destruct (_apduChannel s =? 0) eqn:Ech; cbn [negb]; [by eexists|]. zprop.
  pose proof Hs as [[] _]. destruct (wf_number Ech) as (str & Estr & _).
  assert (zlen str <= 2) as Hl by (apply c_str_length in Estr; lia).
  pose proof (c_str_Some _ _ Estr) as (k & Ek & Hnz).
  destruct (close_command_total str Hnz Hl) as (b1 & b2 & b3 & cmd & E1 & E2 & E3 & E4 & Hcmd).
  eapply bind_is_Some; [unfold opt; by rewrite E1|]. eapply bind_is_Some; [reflexivity|].
  eapply bind_is_Some; [unfold opt; by rewrite Estr|]. eapply bind_is_Some; [unfold opt; by rewrite E2|].
  eapply bind_is_Some; [unfold opt; change (strncat b2 _ 3) with (strncat b2 [48; 48] 3); by rewrite E3|]. eapply bind_is_Some; [unfold opt; by rewrite E4|].
  destruct (send_returns n cmd true Hcmd s Hs) as (sent & s1 & E & Hs1 & _). eapply bind_is_Some; [exact E|].
  assert (∀ st, is_Some ((rest ← opt (_apduChannelString s).[0 := 0]; modifies (set_channel (P := P) 0 rest);; mret true) st)) as Hf.
  { intros st. destruct (_apduChannelString s); [done|]. by eexists. }
  destruct sent; [apply Hf|]. destruct (inv_text n s1 Hs1) as [t Ht].
  do 2 (eapply bind_is_Some; [by apply contains_at|]). destruct (_ && _); [apply Hf|by eexists].
Qed.
#[local] Hint Resolve open_channel_total close_port_total close_channel_total : total.

Lemma connected_total n : total (gm_inv n) (_seMediaGenericModemIsConnected (P := P)).
Proof. repeat total_step. Qed.
#[local] Hint Resolve connected_total : total.

Lemma disconnect_total n : total (gm_inv n) (_seMediaGenericModemDisconnect (P := P)).
Proof. unfold _seMediaGenericModemDisconnect. repeat total_step. Qed.
#[local] Hint Resolve disconnect_total : total.

Lemma establish_total n : total (gm_inv n) (_seMediaGenericModemEstablishContext (P := P)).
Proof. unfold _seMediaGenericModemEstablishContext. repeat total_step. Qed.

Lemma release_total n : total (gm_inv n) (_seMediaGenericModemReleaseContext (P := P)).
Proof. unfold _seMediaGenericModemReleaseContext. repeat total_step. Qed.

Lemma connect_total n name : total (gm_inv n) (_seMediaGenericModemConnect (P := P) name).
Proof.
  unfold _seMediaGenericModemConnect. repeat total_step.
  apply total_modifies. intros s Hs. apply inv_modemFD, inv_no_channel; [done|by destruct Hs as [[] _]].
Qed.

Lemma check_total n : total (gm_inv n) (_seMediaGenericModemCheckATcommandResponseOK (P := P)).
Proof. apply total_text. intros. apply total_ret. Qed.
#[local] Hint Resolve check_total : total.

(** The answer to the reset command, when it was written. *)
Lemma reset_answered n w :
  returns (λ s, gm_inv n s ∧ (w = zlen GM_AT_COMMAND_RESET_CARD → answering n s))
    (if negb (w =? zlen GM_AT_COMMAND_RESET_CARD) then mret false
     else
       received ← _seMediaGenericModemGetATcommandResponseData;
       if received : bool then _seMediaGenericModemCheckATcommandResponseOK else mret false)
    (λ _, gm_inv n).
Proof.
  intros s [Hs Hw]. destruct (Z.eqb_spec w (zlen GM_AT_COMMAND_RESET_CARD)) as [->|]; cbn [negb]; [|by apply total_ret].
  refine (returns_bind (answering n) _ _ _ _ (response_returns n) _ s (Hw eq_refl)).
  intros [] s' [Hs' _]; [by apply check_total|by apply total_ret].
Qed.

Lemma reset_total n : total (gm_inv n) (_seMediaGenericModemDisconnectWithReset (P := P)).
Proof.
  unfold _seMediaGenericModemDisconnectWithReset. apply total_bind; [auto with total|intros []; [|auto with total]].
  apply total_bind; [auto with total|intros fd].
  eapply returns_bind; [by apply (command_written n fd (GM_AT_COMMAND_RESET_CARD ++ [0]) GM_AT_COMMAND_RESET_CARD)|].
  intros w. eapply returns_bind; [apply reset_answered|]. intros disconnected. change (total (gm_inv n)
    ((if disconnected : bool then cells ← gets _apduChannelString; rest ← opt cells.[0 := 0]; modifies (set_channel (P := P) 0 rest)
      else _seMediaGenericModemCloseUICCChannel;; mret tt);; _seMediaGenericModemCloseDescriptorOrHandle;; mret disconnected)).
  repeat total_step.
Qed.

(** ** The driver, for a session *)

Lemma release_forgets : hoare (λ _, True) (_seMediaGenericModemReleaseContext (P := P)) (λ _ s, _contextEstablished s = false).
Proof.
  unfold _seMediaGenericModemReleaseContext. do 2 (apply (hoare_bind _ _ (λ _ _, True)); [done|intros ?]).
  apply hoare_gets_bind. intros [].
  - eapply hoare_bind; [by apply (hoare_modifies _ _ (λ _ s, _contextEstablished s = false))|]. intros ?. by apply hoare_ret.
  - apply hoare_ret. tauto.
Qed.

Lemma close_port_forgets :
  hoare (λ _, True) (_seMediaGenericModemCloseDescriptorOrHandle (P := P)) (λ b s, b = true → _modemFD s = 0).
Proof.
  unfold _seMediaGenericModemCloseDescriptorOrHandle. do 2 (apply (hoare_bind _ _ (λ _ _, True)); [done|intros ?]).
  apply hoare_if; [|by apply hoare_ret].
  eapply hoare_bind; [by apply (hoare_modifies _ _ (λ _ s, _modemFD s = 0))|]. intros ?. by apply hoare_ret.
Qed.

Lemma disconnect_forgets :
  hoare (λ _, True) (_seMediaGenericModemDisconnect (P := P)) (λ b s, b = true → _modemFD s = 0).
Proof.
  unfold _seMediaGenericModemDisconnect. apply (hoare_bind _ _ (λ _ _, True)); [done|]. intros ?.
  apply hoare_if; [|by apply hoare_ret]. apply (hoare_bind _ _ (λ _ _, True)); [done|]. intros ?.
  apply hoare_if; [apply close_port_forgets|by apply hoare_ret].
Qed.

(** Every state of [gm_wf] is one of [gm_inv]. *)
Lemma total_wf {A} (m : ST (gm_state P) A) s :
  (∀ n, total (gm_inv n) m) → gm_wf s → ∃ a s', m s = Some (a, s') ∧ gm_wf s'.
Proof. intros Hm Hs. destruct (Hm (live s) s) as (a & s' & E & Hs'); [done|]. exists a, s'. by destruct Hs'. Qed.

#[export] Instance modem_media : Media (gm_state P).
Proof.
  refine {|
    media := generic_modem; media_ok := gm_wf; established := _contextEstablished;
    connected s := (_modemFD s >? 0) && (_apduChannel s >? 0)
  |}; (eexists; split; [reflexivity|]).
  - by intros s _.
  - by intros s _.
  - intros s. apply total_wf. intros n. apply establish_total.
  - intros s Hs. destruct (total_wf _ s release_total Hs) as (b & s' & E & Hs'). exists b, s'. split_and!; [done..|].
    by eapply release_forgets.
  - intros name s. apply total_wf. intros n. apply connect_total.
  - intros s Hs. destruct (total_wf _ s disconnect_total Hs) as (b & s' & E & Hs'). exists b, s'. split_and!; [done..|].
    intros Hb. assert (_modemFD s' = 0) as -> by by eapply disconnect_forgets. done.
  - intros s. apply total_wf. intros n. apply reset_total.
Defined.

(** The calls of a session, but for the transmission of a command. *)
Definition session_call (c : gm_call) : bool := match c with TransmitApdu _ _ _ => false | _ => true end.

Lemma reachable_inv s0 s : port_ok (port s0) → reachable s0 s → gm_inv (live s0 + 2) s.
Proof. intros Hp Hr. induction Hr as [t s Hnew|c s s' Hr IH Hc]; [by eapply new_invariant|]. by eapply (keeps_perform _ c). Qed.

(** C27: The driver of a session returns (safety), over a port with the laws of
    [AnsweringPort]: from every state that the driver reaches, and whichever
    allocations fail, the functions that open, query, end and reset a session
    return; they access no array out of bounds and read no text that is not
    terminated. The platform adaptor has these laws on the platforms that take
    AT+CSIM, when every answer of the modem has at most 8192 characters and is
    empty or holds OK, ERROR or the restart event (Platform.direct_answers),
    and on the MTK platform, when the answers have at most 8192 characters,
    what follows the last +CGLA: of an answer to AT+CGLA holds one of the
    three, and an answer to AT+CCHO with OK has the number of a session
    (Platform.mtk_answers). The QC platforms are not covered. After other
    answers the code does go out of bounds: Adaptor.unfinished_answer_overflows,
    Platform.plain_error_overflows, Driver.long_answer_overread. *)
Theorem driver_returns s0 s c :
  port_ok (port s0) → reachable s0 s → session_call c = true → ∃ s', perform c s = Some (tt, s').
Proof.
  intros Hp Hr Hc. pose proof (reachable_inv s0 s Hp Hr) as Hs. set (n := live s0 + 2) in *. clearbody n.
  enough (∀ A (m : ST (gm_state P) A), total (gm_inv n) m → ∃ s', effect m s = Some (tt, s')) as Hm.
  2: { intros A m Hm. destruct (Hm s Hs) as (a & s' & E & _). exists s'. unfold effect. by rewrite (ST_bind_eq _ _ _ _ _ E). }
  destruct c; try done; apply Hm.
  - apply establish_total.
  - apply release_total.
  - unfold _seMediaGenericModemIsValidContext. repeat total_step.
  - apply total_gets.
  - unfold _seMediaGenericModemSetCallbackEventExecutionError. repeat total_step; apply total_modifies; intros s'; apply inv_callback.
  - apply total_ret.
  - apply connect_total.
  - apply connected_total.
  - apply disconnect_total.
  - apply reset_total.
  - unfold _seMediaGenericModemGetStatus. repeat total_step.
Qed.
End driver.

(** An answer that is longer makes the extraction without quotes read behind
    the response buffer: the count in front of the comma is compared with the
    length of the whole answer, not with what is left of it. *)
Definition long_answer : list Z := fill 65 10000 ++ GM_AT_COMMAND_RESPONSE_PREFIX ++ [blank; 57; 48; 48; 48; comma] ++ fill 66 100.

Theorem long_answer_overread :
  let r := long_answer ++ fill 0 (GENERIC_MODEM_RESPONSE_BUFFER_SIZE - zlen long_answer) in
  zlen r = GENERIC_MODEM_RESPONSE_BUFFER_SIZE ∧ c_str r = Some long_answer ∧
  _seMediaGenericModemAtCommandResponseToApdu (Some r) (Some (fill 0 (zlen long_answer))) (zlen long_answer) = None.
Proof. split_and!; vm_compute; reflexivity. Qed.

(** ** Witness: the adaptor, on both platforms *)

Section sample.
#[local] Existing Instance adaptor_port.

(** A modem that answers every command alike. *)
Definition patient (text cmd : list Z) (m : unit) : (Z * list Z) * unit := ((0, text), m).
Definition direct_line : list Z := line "+CSIM: 6,"%string "019000"%string.
Definition mtk_line : list Z := line "+CGLA: 6,"%string "019000"%string.

Lemma patient_finishes : finishes (patient direct_line).
Proof. intros cmd m text m' [= <- <-]. split; [by apply (bool_decide_unpack _)|]. split; [done|by right]. Qed.

Lemma patient_mtk : mtk_finishes (patient mtk_line).
Proof.
  split; intros cmd m text m' [= <- <-]; [split; [by apply (bool_decide_unpack _)|done]|].
  split; [intros _; by vm_compute|]. intros _ _. by vm_compute; eexists.
Qed.

(** A driver before its construction, over the adaptor. *)
Definition off_adaptor (plat : Z) : gm_state (adaptor unit) :=
  Gm false 0 0 [0; 0; 0] (fill 0 GENERIC_MODEM_RESPONSE_BUFFER_SIZE) false [] (replicate 20 false) 0
    (Adaptor plat (fill 0 (BUFSIZE_MAX + 1)) 0 49 LPA_CMD_NORMAL 0 LPA_CMD_NORMAL (replicate 20 false) tt).

Definition connected_adaptor (text : list Z) (plat : Z) : option (gm_state (adaptor unit)) :=
  @run _ (adaptor_port (patient text)) [EstablishContext; Connect []] (off_adaptor plat).

Lemma connected_reachable text plat s :
  connected_adaptor text plat = Some s → @reachable _ (adaptor_port (patient text)) (off_adaptor plat) s.
Proof. apply run_reachable. Qed.

(** They are in the states of the two implementations. *)
Lemma off_mtk : @port_ok _ _ (mtk_sound _ patient_mtk) (port (off_adaptor PLAT_TYPE_MTK)).
Proof. split; [by apply zlen_fill|split; [done|apply clear_fill]]. Qed.
Lemma off_direct : @port_ok _ _ (direct_sound (patient direct_line)) (port (off_adaptor 7)).
Proof. split; [by apply zlen_fill|by apply (bool_decide_unpack _)]. Qed.

Lemma driver_returns_witness :
  match connected_adaptor mtk_line PLAT_TYPE_MTK with
  | Some s => ∃ s', @perform _ (adaptor_port (patient mtk_line)) Disconnect s = Some (tt, s')
  | None => False
  end ∧
  match connected_adaptor direct_line 7 with
  | Some s => ∃ s', @perform _ (adaptor_port (patient direct_line)) DisconnectWithReset s = Some (tt, s')
  | None => False
  end.
Proof.
  split.
  - destruct (connected_adaptor mtk_line PLAT_TYPE_MTK) as [s|] eqn:E; [|revert E; vm_compute; discriminate].
    exact (@driver_returns _ _ _ (mtk_answers _ patient_mtk) (off_adaptor PLAT_TYPE_MTK) s Disconnect
             off_mtk (connected_reachable _ _ _ E) eq_refl).
  - destruct (connected_adaptor direct_line 7) as [s|] eqn:E; [|revert E; vm_compute; discriminate].
    exact (@driver_returns _ _ _ (direct_answers _ patient_finishes) (off_adaptor 7) s DisconnectWithReset
             off_direct (connected_reachable _ _ _ E) eq_refl).
Defined.
End sample.
